(* ===== verification/_CoqProject ===== *)
-Q . S2P
Prelude.v
Mem.v
CString.v
Mmu.v
Kalloc.v
Vm.v
PageTable.v
UserVm.v
KState.v
Sched.v
Wakeup.v
Mutex.v
Shm.v
Bytes.v
Bio.v
Ring.v
BioThm.v
Log.v
LogThm.v
LogRun.v
Crash.v
Txn.v
Fs.v
FsThm.v
Inode.v
FileThm.v
Pipe.v
PipeThm.v
FileTab.v
Kbd.v
Console.v
ConsoleThm.v
Proc.v
Exec.v
Syscall.v
Sysfile.v
Trap.v
SysThm.v
PQueue.v
ProcThm.v
Prio.v
Ulib.v
Umalloc.v
UmallocThm.v
Grep.v
Sh.v
ShThm.v
ShParse.v
ShRun.v
Jsmn.v
JsmnThm.v
JsmnJson.v
Dockv6.v
Dockv6Thm.v
Spinlock.v
Ide.v
IdeThm.v
Boot.v
BootThm.v
Mp.v
Apic.v
ShMain.v
Programs.v
Cprintf.v
Seg.v
Examples.v
UserExamples.v
Mkfs.v
MkfsThm.v
FsExamples.v
