(* ===== verification/Prelude.v ===== *)
(** * dockv6: a verification of the container extension of xv6

    dockv6 is the teaching kernel xv6 with containers, shared memory pages, user mutexes
    and condition variables and priorities, and with a container manager, its JSON
    specification files and the usual user programs.  The development translates the C
    sources, function by function, into executable definitions and proves what the parts
    promise to each other.

    ** The program and its parts

    The kernel runs on top of physical memory: kalloc.c hands out pages, vm.c builds page
    tables in them.  proc.c schedules processes, which sleep and wake up on channels; the
    locks of spinlock.c and sleeplock.c, the pipes, the buffer cache and the console are
    built on that.  The file system is a stack: the disk (ide.c or memide.c), the buffer cache
    (bio.c), the log that makes groups of block writes atomic (log.c), inodes, directories
    and paths (fs.c), open files (file.c) and the system calls (sysfile.c).  trap.c and
    syscall.c are the entry points.  A container (proc.c, cm.h) restricts what its
    processes see: kill stays inside it, paths start at its root, and fork counts against
    its limit.  bootmain.c loads the kernel; mp.c, lapic.c and ioapic.c find the processors
    and set up the interrupt controllers.  User programs use the library (ulib.c, umalloc.c,
    printf.c); sh.c parses and runs command lines; dockv6.c reads the specification of a
    container with jsmn.h and passes it to the container manager cm.c in a shared page;
    mkfs.c runs on the host and writes the disk image.

    ** How the code is modelled

    Prelude.v has the monad [M S A] of the translated code: a function from a state to an
    [outcome], which is [Ok] with a value and a state, [Panic] for the kernel's panic,
    [UB] for undefined behaviour (a NULL or out-of-range access), [Fuel] for a loop bound
    that was not enough, or [Switch] for a context switch, which carries the rest of the
    computation.  Integers are [Z] with the wrap-around of their C type written out
    ([u8], [u32], [s16], [s32]).  Structs are records, arrays are lists; a pointer into a
    table of the kernel is an index, other pointers are addresses.  The file also has the
    Hoare-style predicates ([post], [returns], [preserves], [guar]) and the tactics [run]
    and [step] that execute a routine symbolically.

    - Mem.v: memory, memset, memcmp, memmove of string.c; CString.v: its string functions.
    - Mmu.v: mmu.h, memlayout.h.  Kalloc.v: kalloc.c.  Vm.v, PageTable.v, UserVm.v: the
      page tables of vm.c and what its routines do to address spaces.
    - KState.v: the structs and global variables of the kernel as one record [kst].
    - Sched.v: spinlock.c, sleeplock.c, and sched, sleep, wakeup of proc.c, on one
      processor.  Wakeup.v: the accesses of sleep and wakeup on several processors, with
      the schedulers.  Spinlock.v: spinlock.c access by access on several processors.
    - Mutex.v: the user mutexes and condition variables of proc.c.  Shm.v: the shared
      pages of vm.c.
    - Bytes.v: structs in blocks.  Bio.v, Ring.v, BioThm.v: bio.c over memide.c, its LRU
      ring, the cache as a view of the disk.  Log.v, LogThm.v, LogRun.v, Crash.v, Txn.v:
      log.c, from the single block write to the crash-atomic transaction.
    - Ide.v, IdeThm.v: ide.c over a controller (the class [Ata] with the laws [AtaOk]).
      Boot.v, BootThm.v: bootmain.c over the same controller.
    - Mp.v: mp.c.  Apic.v: lapic.c, ioapic.c.  Seg.v: the descriptors of mmu.h, with
      seginit and switchuvm of vm.c and tvinit of trap.c.
    - Fs.v, FsThm.v, Inode.v, FileThm.v: fs.c; paths and formats, then the contents of
      files and directories.  Mkfs.v, MkfsThm.v: mkfs.c and the image it makes.
    - Pipe.v: pipe.c; PipeThm.v: its calls side by side.  FileTab.v: file.c.  Kbd.v, Console.v, ConsoleThm.v: kbd.c, kbd.h,
      console.c, uart.c.  Cprintf.v: cprintf of console.c, procdump of proc.c.
    - Proc.v, PQueue.v, ProcThm.v, Prio.v: the rest of proc.c.  Exec.v: exec.c.
      Syscall.v, Sysfile.v, Trap.v, SysThm.v: syscall.c, sysproc.c, sysfile.c, trap.c.
    - Ulib.v: ulib.c, printf.c.  Umalloc.v, UmallocThm.v: umalloc.c.  Grep.v: grep.c.
      Sh.v, ShThm.v, ShParse.v, ShRun.v, ShMain.v: sh.c.  Jsmn.v, JsmnThm.v, JsmnJson.v:
      jsmn.h.  Dockv6.v, Dockv6Thm.v: dockv6.c, cm.c.  Programs.v: wc.c, cat.c, ls.c.
    - Examples.v, UserExamples.v, FsExamples.v: the theorems at concrete inputs.

    Where components meet there is an interface: the class [Devices] for the table devsw
    (the console is an instance), [Linker] for the symbols of the linker, [Bound] for
    the number of wakeups a sleeping loop may see, [Ata] for the ports of the disk
    controller; [txn_in], [fsys] and [fstate] are what the log promises to inodes and
    inodes to files.

    ** What the theorems show

    - Memory: kalloc and kfree refine a set of free pages; mappages, allocuvm and
      deallocuvm change exactly the translations of their range, give zeroed pages, leak
      none.  User memory: malloc grants fresh memory apart from all other blocks, free
      merges neighbours and loses nothing.
    - Disk and files: a transaction, and a write to a file, survive a crash at any of
      their disk writes as a whole or not at all; readi returns the bytes of the file;
      dirlookup finds the first entry with the name; begin_op admits only calls for which
      the log has room; mkfs writes an image with these files in this form, a name given
      twice leading to the first file.  The IDE
      driver serves its queue as if every request were served at once, in order.
    - Processes: sleep loses no wakeup on any number of processors; no mutex call takes a
      mutex from its owner, as long as the reference counts are right ([refs_ok], which
      kill breaks), and lock returns once the owner has left; pipes are first in, first out
      however the calls of writers and readers interleave; exit, fork, kill,
      the process limit and the identifiers; a timer interrupt preempts; prio_set ends and
      never raises a priority.  A spinlock excludes on any number of processors, with
      interrupts off while it is held.
    - Machine: the boot loader loads every segment of the kernel; the descriptor tables
      give user programs one gate, that of the system call; mpinit finds the processors of
      the firmware's table; the I/O APIC delivers the enabled interrupts only; the time
      read from the clock is one it showed.
    - Containers: what kill, paths and fork promise, and how ../ leaves a container; a
      specification file reaches the container it describes in the first round of the
      manager, which misreads the next one.
    - Input and output: the console is a line editor on the characters of the keyboard,
      and a line typed is the line read; cprintf prints its format to the serial port and
      to the screen, which stays in bounds.
    - Programs: the shell runs its input line by line, parses what the grammar of command
      lines says, and wires pipes and redirections to the right descriptors; the tokenizer
      gives the tokens of a JSON value with any white space and escapes and stays in bounds on any
      text; grep decides the language of its expressions; wc counts lines, words and bytes,
      ls lists the entries of a directory; printf and atoi are inverse.

    ** Bounds and simplifications

    One processor, except in Spinlock.v and Wakeup.v, where memory is sequentially
    consistent (and in Wakeup.v a spinlock is taken in one step, which Spinlock.v shows); code
    that holds a spinlock runs without interference, and other processes run at the
    context switches.  A loop that sleeps goes round at most [wakeups] times, a parameter
    that theorems only ask to be positive or large enough; the other fuels are computed
    from the input ([S (length p)] rounds for iappend, [4 * es + 5] for the parser of
    the shell, the length of the ring for bget) and the theorems that a routine returns
    show that they suffice.  [guar] says nothing after a panic, undefined behaviour or
    lack of fuel; the theorems stated with [Ok] exclude them.

    String arguments are read when the call fetches them; data read is stored when the
    call returns, data to write is loaded when it starts.  The trap frame and the context
    are fields of the process.  Pipes are named by the address of their page.  The disk
    under the file system is the memory disk of memide.c; [k_dlog] is a ghost list of
    the blocks written. exec reads the shared pages of the process once.  The file-system
    theorems are about a disk with one bitmap block, as mkfs lays it out. jsmn.h is
    built without JSMN_STRICT and JSMN_PARENT_LINKS, as its users do.  The disk
    controller of ide.c and bootmain.c becomes ready after a bounded number of polls and
    reports no errors; iderw is split at its sleep.  The tables mpinit reads are in
    memory; the registers of the APICs are cells; what the clock shows at each read is a
    parameter.  The arrays that dockv6 does not initialise and the results of its
    system calls are arguments.  In the console [panicked] is 0 and the serial port is
    present.  The results of read are inputs of grep, wc, cat, gets and mkfs, and those of
    the other system calls of ls, of runcmd (open, exec, fork) and of the shell's loop
    (chdir, fork, shm_get, mutex_create) are parameters.

    ** Not modelled

    - Assembly: bootasm.S, entry.S, entryother.S, swtch.S, trapasm.S, initcode.S, usys.S;
      the instructions that load processor registers (lgdt, lidt, ltr, lcr3) and with them
      kvmalloc, switchkvm and idtinit; the port writes of picinit and uartinit.
    - main.c: the order of the initialisations and the start of the other processors.
    - The message of panic and those of allocuvm, and the endless loop of scheduler (the switch to one process
      is modelled).
    - User programs that only make system calls: echo, init, kill, ln, mkdir, rm, zombie,
      dockv6_init.c, the loops over the arguments in wc, cat and ls, and the test
      programs. *)
From stdpp Require Export base list strings gmap numbers.

#[global] Open Scope Z_scope.

(** ** Machine integers

    [uint], [int], [uchar] and [ushort] values are integers kept in range by
    these wrap-around functions, applied wherever the C code stores the result
    of an arithmetic operation. *)

Definition u32 (z : Z) : Z := z `mod` 2 ^ 32.
Definition s32 (z : Z) : Z := (z + 2 ^ 31) `mod` 2 ^ 32 - 2 ^ 31.
Definition u16 (z : Z) : Z := z `mod` 2 ^ 16.
Definition s16 (z : Z) : Z := (z + 2 ^ 15) `mod` 2 ^ 16 - 2 ^ 15.
Definition u8 (z : Z) : Z := z `mod` 2 ^ 8.

Lemma u32_small z : 0 ≤ z < 2 ^ 32 → u32 z = z.
Proof. apply Z.mod_small. Qed.

Lemma u32_plus z k : u32 (u32 z + k) = u32 (z + k).
Proof. unfold u32. by rewrite Zplus_mod_idemp_l. Qed.

(** An index modulo a power of two does not see the wrap-around. *)
Lemma u32_mod n z : (n | 2 ^ 32) → 0 < n → u32 z `mod` n = z `mod` n.
Proof. intros Hn ?. unfold u32. by apply Z.mod_mod_divide. Qed.

Lemma u8_small v : 0 ≤ v < 256 → u8 v = v.
Proof. intros. unfold u8. by apply Z.mod_small. Qed.
Lemma s32_small z : - 2 ^ 31 ≤ z < 2 ^ 31 → s32 z = z.
Proof. intros Hz. unfold s32. rewrite Z.mod_small; lia. Qed.

(** ** The kernel monad

    A kernel routine is a function from a state to an [outcome]: a result and
    the new state, a call of [panic], an action the C standard leaves undefined
    (a NULL or out-of-range access), the exhaustion of a loop bound, or a context
    switch, which gives up the processor in state [s] and goes on as [k] from
    whatever state the processor comes back in. *)

Inductive outcome (S A : Type) :=
  | Ok (a : A) (s : S)
  | Panic (msg : string)
  | UB (msg : string)
  | Fuel
  | Switch (s : S) (k : S → outcome S A).
Arguments Ok {S A} a s.
Arguments Panic {S A} msg.
Arguments UB {S A} msg.
Arguments Fuel {S A}.
Arguments Switch {S A} s k.

Definition M (S A : Type) : Type := S → outcome S A.

Fixpoint obind {S A B} (k : A → M S B) (o : outcome S A) : outcome S B :=
  match o with
  | Ok a s => k a s
  | Panic e => Panic e
  | UB e => UB e
  | Fuel => Fuel
  | Switch s r => Switch s (λ s', obind k (r s'))
  end.

Definition ret {S A} (a : A) : M S A := λ s, Ok a s.
Definition bind {S A B} (m : M S A) (k : A → M S B) : M S B := λ s, obind k (m s).

Declare Scope kernel_scope.
Delimit Scope kernel_scope with kernel.
#[global] Open Scope kernel_scope.
Notation "x <- m ; k" := (bind m (λ x, k))
  (at level 100, m at level 90, k at level 200, right associativity,
   format "'[v' x  <-  m ; '/' k ']'") : kernel_scope.
Notation "m ;; k" := (bind m (λ _, k))
  (at level 100, k at level 200, right associativity) : kernel_scope.

Definition get {S} : M S S := λ s, Ok s s.
Definition gets {S A} (f : S → A) : M S A := λ s, Ok (f s) s.
Definition put {S} (s : S) : M S unit := λ _, Ok tt s.
Definition modify {S} (f : S → S) : M S unit := λ s, Ok tt (f s).
Definition panic {S A} (msg : string) : M S A := λ _, Panic msg.
Definition undef {S A} (msg : string) : M S A := λ _, UB msg.
Definition when {S} (b : bool) (m : M S unit) : M S unit := if b then m else ret tt.

(** [p->f] for a possibly NULL or out-of-range [p]. *)
Definition deref {S A} (msg : string) (o : option A) : M S A :=
  match o with Some a => ret a | None => undef msg end.

(** A [for] loop over a list of values, the body run in order. *)
Fixpoint forM {S A} (l : list A) (f : A → M S unit) : M S unit :=
  match l with
  | [] => ret tt
  | x :: l => f x;; forM l f
  end.

(** A loop with a bound: [body] returns [inl] to go round again and [inr] to
    leave; [Fuel] when the bound is reached. *)
Fixpoint loop {S A B} (n : nat) (body : A → M S (A + B)) (a : A) : M S B :=
  match n with
  | O => λ _, Fuel
  | S n => r <- body a; match r with inl a' => loop n body a' | inr b => ret b end
  end.

(** Running an operation of a component on the state of the whole. *)
Fixpoint zoom_outcome {S T A} (put : S → T → T) (gt : T → S) (t : T)
    (o : outcome S A) : outcome T A :=
  match o with
  | Ok a s => Ok a (put s t)
  | Panic e => Panic e
  | UB e => UB e
  | Fuel => Fuel
  | Switch s k => Switch (put s t) (λ t', zoom_outcome put gt t' (k (gt t')))
  end.
Definition zoom {S T A} (gt : T → S) (put : S → T → T) (m : M S A) : M T A :=
  λ t, zoom_outcome put gt t (m (gt t)).

(** ** Specifications

    [post I R E Q o]: every normal end of [o] satisfies [Q]; every state in which
    it gives up the processor satisfies [I], and it is resumed in a state that
    satisfies [I] and is related to that one by [R]; [E] says whether it may end
    abnormally ([True]) or not ([False]). *)
Fixpoint post {S A} (I : S → Prop) (R : S → S → Prop) (E : Prop) (Q : A → S → Prop)
    (o : outcome S A) : Prop :=
  match o with
  | Ok a s => Q a s
  | Panic _ | UB _ | Fuel => E
  | Switch s k => I s ∧ ∀ s', I s' → R s s' → post I R E Q (k s')
  end.

(** [returns m s Q]: [m] run in [s] returns, without a context switch, in [Q]. *)
Definition returns {S A} (m : M S A) (s : S) (Q : A → S → Prop) : Prop :=
  match m s with Ok a s' => Q a s' | _ => False end.
(** [preserves I R m]: [I] is kept by [m] at every point where others can run. *)
Definition preserves {S A} (I : S → Prop) (R : S → S → Prop) (m : M S A) : Prop :=
  ∀ s, I s → post I R True (λ _, I) (m s).

Section post.
  Context {S : Type}.
  Implicit Types (I : S → Prop) (R : S → S → Prop).

Lemma post_mono {A} I R E (Q Q' : A → S → Prop) o :
  (∀ a s, Q a s → Q' a s) → post I R E Q o → post I R E Q' o.
Proof. intros HQ. induction o; simpl; naive_solver. Qed.

Lemma post_obind {A B} I R E (Q : B → S → Prop) (k : A → M S B) (o : outcome S A) :
  post I R E (λ a s, post I R E Q (k a s)) o → post I R E Q (obind k o).
Proof. induction o; simpl; naive_solver. Qed.

Lemma post_bind {A B} I R E (Q : B → S → Prop) (k : A → M S B) (m : M S A) s :
  post I R E (λ a s, post I R E Q (k a s)) (m s) → post I R E Q ((bind m k) s).
Proof. apply post_obind. Qed.

Lemma returns_bind {A B} (Q : B → S → Prop) (k : A → M S B) (m : M S A) s :
  returns m s (λ a s', returns (k a) s' Q) → returns (bind m k) s Q.
Proof. unfold returns, bind. by destruct (m s). Qed.

Lemma returns_mono {A} (Q Q' : A → S → Prop) (m : M S A) s :
  (∀ a s', Q a s' → Q' a s') → returns m s Q → returns m s Q'.
Proof. unfold returns. destruct (m s); naive_solver. Qed.

Lemma returns_ok {A} (Q : A → S → Prop) (m : M S A) s :
  returns m s Q ↔ ∃ a s', m s = Ok a s' ∧ Q a s'.
Proof. unfold returns. destruct (m s); naive_solver. Qed.

Lemma preserves_bind {A B} I R (m : M S A) (k : A → M S B) :
  preserves I R m → (∀ a, preserves I R (k a)) → preserves I R (bind m k).
Proof.
  intros Hm Hk s Hs. apply post_bind.
  eapply post_mono; [|apply Hm, Hs]. intros a s' ?. by apply Hk.
Qed.

Lemma preserves_ret {A} I R (a : A) : preserves I R (ret a).
Proof. by intros s ?. Qed.

Lemma preserves_gets {A} I R (f : S → A) : preserves I R (gets f).
Proof. by intros s ?. Qed.

Lemma preserves_undef {A} I R msg : preserves I R (undef (A := A) msg).
Proof. by intros s ?. Qed.

Lemma preserves_panic {A} I R msg : preserves I R (panic (A := A) msg).
Proof. by intros s ?. Qed.

Lemma preserves_deref {A} I R msg (o : option A) : preserves I R (deref msg o).
Proof. destruct o; by intros s ?. Qed.

Lemma preserves_modify I R f : (∀ s, I s → I (f s)) → preserves I R (modify f).
Proof. intros Hf s Hs. apply Hf, Hs. Qed.

Lemma preserves_forM {A} I R (l : list A) f :
  (∀ x, x ∈ l → preserves I R (f x)) → preserves I R (forM l f).
Proof.
  induction l as [|x l IH]; intros Hf; [by intros s ?|].
  apply preserves_bind; [apply Hf; set_solver|].
  intros _. apply IH. set_solver.
Qed.

Lemma preserves_loop {A B} I R n (body : A → M S (A + B)) a :
  (∀ a, preserves I R (body a)) → preserves I R (loop n body a).
Proof.
  intros Hb. revert a. induction n as [|n IH]; intros a; [by intros s ?|].
  apply preserves_bind; [done|]. intros [a'|b]; [apply IH|apply preserves_ret].
Qed.

  (** The loop rule with a variant: enough fuel gives a result. *)
Lemma loop_variant {A B} (J : A → S → Prop) (V : A → S → nat) (Q : B → S → Prop)
    (body : A → M S (A + B)) :
  (∀ a s, J a s → returns (body a) s
      (λ r s', match r with inl a' => J a' s' ∧ (V a' s' < V a s)%nat | inr b => Q b s' end)) →
  ∀ n a s, J a s → (V a s < n)%nat → returns (loop n body a) s Q.
Proof.
  intros Hb n. induction n as [|n IH]; intros a s HJ HV; [lia|].
  simpl. apply returns_bind. eapply returns_mono; [|by apply Hb].
  intros [a'|b] s'; simpl; [|done]. intros [??]. apply IH; [done|lia].
Qed.
End post.

(** ** Guarantees

    [guar J T Q s0 o]: every stretch of the execution [o], from [s0] or from the state
    it is resumed in to the next context switch or the end, is a transition of [T],
    as long as it is resumed in states that satisfy [J]; a normal end satisfies [Q]. *)
Fixpoint guar {S A} (J : S → Prop) (T : S → S → Prop) (Q : A → S → Prop) (s0 : S)
    (o : outcome S A) : Prop :=
  match o with
  | Ok a s => T s0 s ∧ Q a s
  | Panic _ | UB _ | Fuel => True
  | Switch s k => T s0 s ∧ ∀ s', J s' → guar J T Q s' (k s')
  end.

Section guar.
  Context {S : Type} (J : S → Prop) (T : S → S → Prop).
  Context (Trefl : ∀ s, T s s) (Ttrans : ∀ s1 s2 s3, T s1 s2 → T s2 s3 → T s1 s3).
  Context (TJ : ∀ s s', T s s' → J s → J s').

Lemma guar_mono {A} (Q Q' : A → S → Prop) s o :
  (∀ a s, Q a s → Q' a s) → guar J T Q s o → guar J T Q' s o.
Proof using. intros HQ. revert s. induction o; simpl; naive_solver. Qed.

Lemma guar_from {A} (Q : A → S → Prop) s0 s o : T s0 s → guar J T Q s o → guar J T Q s0 o.
Proof using Ttrans. destruct o; simpl; naive_solver. Qed.

Lemma guar_ret {A} (Q : A → S → Prop) a s : Q a s → guar J T Q s (ret a s).
Proof using Trefl. by split. Qed.

Lemma guar_bind {A B} (Q : A → S → Prop) (Q' : B → S → Prop) (m : M S A) (k : A → M S B) s :
  J s → guar J T Q s (m s) → (∀ a s', J s' → Q a s' → guar J T Q' s' (k a s')) →
  guar J T Q' s (bind m k s).
Proof using Ttrans TJ.
  intros HJ Hm Hk. unfold bind. generalize dependent (m s). intros o Hm. revert s HJ Hm.
  induction o as [a s1|msg|msg| |s1 r IH]; intros s0 HJ Hm; simpl in *; try done.
  - destruct Hm as [HT HQ]. eapply guar_from; [done|]. eauto.
  - destruct Hm as [HT Hr]. split; [done|]. intros s' HJ'. eauto.
Qed.

Lemma guar_loop {A B} (Q : B → S → Prop) n (body : A → M S (A + B)) a s :
  J s → (∀ a s, J s → guar J T (λ r s, match r with inl _ => True | inr b => Q b s end) s (body a s)) →
  guar J T Q s (loop n body a s).
Proof using Trefl Ttrans TJ.
  intros HJ Hb. revert a s HJ. induction n as [|n IH]; intros a s HJ; simpl; [done|].
  eapply guar_bind; [done|by apply Hb|]. intros [a'|b] s' HJ' HQ; [by apply IH|by apply guar_ret].
Qed.

Lemma guar_forM {A} (l : list A) (f : A → M S unit) s :
  J s → (∀ x s, x ∈ l → J s → guar J T (λ _ _, True) s (f x s)) →
  guar J T (λ _ _, True) s (forM l f s).
Proof using Trefl Ttrans TJ.
  revert s. induction l as [|x l IH]; intros s HJ Hf; simpl; [by split|].
  eapply guar_bind; [done|apply Hf; [left|done]|]. intros _ s' HJ' _. apply IH; [done|].
  intros y s2 Hy. apply Hf. by right.
Qed.
End guar.

(** ** Running a routine step by step *)

Lemma forM_inv {S A} (I : S → Prop) (l : list A) (f : A → M S unit) s :
  I s → (∀ x s, x ∈ l → I s → ∃ s', f x s = Ok tt s' ∧ I s') →
  ∃ s', forM l f s = Ok tt s' ∧ I s'.
Proof.
  revert s. induction l as [|x l IH]; intros s HI Hf; simpl; [by exists s|].
  destruct (Hf x s) as (s1 & Hx & HI1); [left|done|].
  destruct (IH s1 HI1) as (s2 & Hl & HI2); [intros y t Hy; apply Hf; by right|].
  exists s2. unfold bind. by rewrite Hx.
Qed.

Lemma forM_seq_inv {T} (I : nat → T → Prop) n (f : nat → M T unit) k s :
  I k s → (∀ j s, (k ≤ j < k + n)%nat → I j s → ∃ s', f j s = Ok tt s' ∧ I (j + 1)%nat s') →
  ∃ s', forM (seq k n) f s = Ok tt s' ∧ I (k + n)%nat s'.
Proof.
  revert k s. induction n as [|n IH]; intros k s HI Hf; simpl.
  { exists s. by rewrite Nat.add_0_r. }
  destruct (Hf k s) as (s1 & Hx & HI1); [lia|done|]. rewrite Nat.add_1_r in HI1.
  destruct (IH (k + 1)%nat s1) as (s2 & Hl & HI2); [by rewrite Nat.add_1_r|intros; apply Hf; [lia|done]|].
  rewrite Nat.add_1_r in Hl. exists s2. unfold bind. rewrite Hx. simpl.
  split; [done|]. by replace (k + S n)%nat with (k + 1 + n)%nat by lia.
Qed.

Lemma bind_ok {S A B} (m : M S A) (k : A → M S B) s a s' :
  m s = Ok a s' → bind m k s = k a s'.
Proof. intros E. unfold bind. by rewrite E. Qed.

Lemma bind_assoc {S A B C} (m : M S A) (f : A → M S B) (g : B → M S C) s c s1 :
  (x <- m; f x) s = Ok c s1 → (x <- m; y <- f x; g y) s = g c s1.
Proof. unfold bind. destruct (m s); simpl; try done. intros ->. done. Qed.

Lemma bind_Ok_inv {S A B} (m : M S A) (k : A → M S B) b s s' :
  bind m k s = Ok b s' → ∃ a s1, m s = Ok a s1 ∧ k a s1 = Ok b s'.
Proof. unfold bind. destruct (m s); simpl; try done. eauto. Qed.

(** Four steps that are known together. *)
Lemma bind_tail4 {S A B C D E} (m1 : M S A) (m2 : A → M S B) (m3 : A → M S C) (m4 : A → M S D) (k : M S E) s s' d :
  (x <- m1; m2 x;; m3 x;; m4 x) s = Ok d s' → (x <- m1; m2 x;; m3 x;; m4 x;; k) s = k s'.
Proof.
  intros (x & s1 & E1 & (y & s2 & E2 & (z & s3 & E3 & E4)%bind_Ok_inv)%bind_Ok_inv)%bind_Ok_inv.
  unfold bind. by rewrite E1; simpl; rewrite E2; simpl; rewrite E3; simpl; rewrite E4.
Qed.

Lemma bind_switch {S A B} (m : M S A) (k : A → M S B) s s' r :
  m s = Switch s' r → bind m k s = Switch s' (λ t, obind k (r t)).
Proof. intros E. unfold bind. by rewrite E. Qed.

(** [run lem]: the first command of the goal's routine does what [lem] says. *)
Tactic Notation "run" uconstr(lem) := erewrite bind_ok; [|eapply lem]; cbn beta iota.
(** The first command returns by computation. *)
Ltac step := erewrite bind_ok; [|reflexivity]; cbn beta iota.

Create HintDb kpres.
#[export] Hint Resolve preserves_bind preserves_ret preserves_gets preserves_undef
  preserves_panic preserves_deref preserves_forM preserves_loop : kpres.

(** The index of the first entry that satisfies [P]. *)
Fixpoint find_index {A} (P : A → bool) (l : list A) : option nat :=
  match l with
  | [] => None
  | x :: l => if P x then Some O else S <$> find_index P l
  end.

Lemma filter_ne {A} `{EqDecision A} (x : A) (l : list A) : x ∉ l → filter (λ y, y ≠ x) l = l.
Proof.
  induction l as [|y l IH]; intros Hx; [done|].
  apply not_elem_of_cons in Hx as [??]. rewrite filter_cons_True by done. by rewrite IH.
Qed.

Lemma find_index_Some {A} (P : A → bool) l i :
  find_index P l = Some i ↔
  ∃ x, l !! i = Some x ∧ P x = true ∧ ∀ j y, (j < i)%nat → l !! j = Some y → P y = false.
Proof.
  revert i. induction l as [|x l IH]; intros i; simpl; [naive_solver|].
  destruct (P x) eqn:Hx.
  - split.
    + intros [= <-]. exists x. split_and!; [done..|]. intros; lia.
    + intros (y & Hy & HP & Hlt). destruct i as [|i]; [done|].
      specialize (Hlt O x ltac:(lia) eq_refl). congruence.
  - rewrite fmap_Some. split.
    + intros (j & (y & Hy & HP & Hlt)%IH & ->). exists y. split_and!; [done..|].
      intros [|k] z Hk Hz; simpl in Hz; [congruence|]. eapply Hlt; [|done]. lia.
    + intros (y & Hy & HP & Hlt). destruct i as [|i]; simpl in Hy; [congruence|].
      exists i. split; [|done]. apply IH. exists y. split_and!; [done..|].
      intros j z Hj Hz. apply (Hlt (S j)); [lia|done].
Qed.

Lemma find_index_None {A} (P : A → bool) l :
  find_index P l = None ↔ ∀ x, x ∈ l → P x = false.
Proof.
  induction l as [|x l IH]; simpl; [set_solver|]. destruct (P x) eqn:Hx.
  - split; [done|]. intros H. rewrite H in Hx by left. done.
  - rewrite fmap_None, IH. set_solver.
Qed.

Lemma alter_insert {A} (f : A → A) (l : list A) i x : l !! i = Some x → alter f i l = <[i := f x]> l.
Proof.
  intros Hx. apply list_eq. intros j. destruct (decide (i = j)) as [<-|].
  - by rewrite list_lookup_alter_eq, Hx, list_lookup_insert_eq by (by eapply lookup_lt_Some).
  - by rewrite list_lookup_alter_ne, list_lookup_insert_ne.
Qed.

Lemma alter_alter {A} (f g : A → A) (l : list A) i : alter f i (alter g i l) = alter (f ∘ g) i l.
Proof.
  apply list_eq. intros j. rewrite !list_lookup_alter. destruct (decide (i = j)) as [<-|]; [|done].
  rewrite decide_True by done. by destruct (l !! i).
Qed.

(** The pieces of a list between the separators. *)
Fixpoint split_on (sep : Z) (l : list Z) : list (list Z) :=
  match l with
  | [] => [[]]
  | c :: l =>
      if c =? sep then [] :: split_on sep l else
      match split_on sep l with [] => [[c]] | e :: es => (c :: e) :: es end
  end.

Lemma split_on_nonempty sep l : split_on sep l ≠ [].
Proof. destruct l as [|c l]; simpl; [done|]. destruct (c =? sep); [done|]. by destruct (split_on sep l). Qed.

(** The pieces of an appended list: the last piece of the first part goes on. *)
Lemma split_on_append sep a b :
  split_on sep (a ++ b) = removelast (split_on sep a) ++ split_on sep (List.last (split_on sep a) [] ++ b).
Proof.
  induction a as [|c a IH]; [done|]. simpl. destruct (c =? sep) eqn:E.
  - rewrite IH. by destruct (split_on sep a) eqn:Ea; [destruct (split_on_nonempty sep a)|].
  - rewrite IH. destruct (split_on sep a) as [|e [|e' es]] eqn:Ea; [by destruct (split_on_nonempty sep a)| |done].
    simpl. rewrite E. done.
Qed.

(** ** Record update: [r <| f := v |>] *)
Class Upd {R T} (proj : R → T) := upd : (T → T) → R → R.
Arguments upd {R T} proj {Upd} f r.
(** The update of field [proj], from the record's eta-expansion. *)
Ltac mk_upd eta proj :=
  let e := eval unfold eta in eta in
  let t := eval pattern proj in e in
  match t with
  | ?h _ => let u := eval cbv beta in (λ g, h (λ r, g (proj r))) in exact u
  end.
#[warnings="-postfix-notation-not-level-1"]
Notation "r <| f := v |>" := (upd f (λ _, v) r)
  (at level 12, f at next level, left associativity, format "r  <| f  :=  v |>").
#[warnings="-postfix-notation-not-level-1"]
Notation "r <| f ::= g |>" := (upd f g r)
  (at level 12, f at next level, left associativity, format "r  <| f  ::=  g |>").

