(* ===== verification/Mem.v ===== *)
(** * Memory and the routines of string.c that work on it

    The memory is a function from kernel virtual addresses to bytes; [ld32] and
    [st32] are the little-endian word accesses of the x86.  [stosb], [stosl]
    (x86.h), [memset], [memcmp] and [memmove] (string.c) are translated loop by
    loop; [memset_spec] and [memmove_spec] give their effect in closed form, which
    is what the other components use. *)
From S2P Require Import Prelude.

Definition mem : Type := Z → Z.

Definition st8 (m : mem) (a v : Z) : mem := λ x, if x =? a then u8 v else m x.

Definition ld32 (m : mem) (a : Z) : Z :=
  m a + m (a + 1) * 2 ^ 8 + m (a + 2) * 2 ^ 16 + m (a + 3) * 2 ^ 24.

Definition st32 (m : mem) (a v : Z) : mem :=
  st8 (st8 (st8 (st8 m a v) (a + 1) (v `div` 2 ^ 8)) (a + 2) (v `div` 2 ^ 16))
    (a + 3) (v `div` 2 ^ 24).

(** Every cell holds a byte. *)
Definition mem_ok (m : mem) : Prop := ∀ a, 0 ≤ m a < 256.

(** [rep stosb] and [rep stosl] of x86.h. *)
Fixpoint stosb (m : mem) (addr data : Z) (cnt : nat) : mem :=
  match cnt with
  | O => m
  | S cnt => stosb (st8 m addr data) (addr + 1) data cnt
  end.

Fixpoint stosl (m : mem) (addr data : Z) (cnt : nat) : mem :=
  match cnt with
  | O => m
  | S cnt => stosl (st32 m addr data) (addr + 4) data cnt
  end.

Definition memset (m : mem) (dst c n : Z) : mem :=
  if (dst `mod` 4 =? 0) && (n `mod` 4 =? 0) then
    let c := Z.land c 255 in
    stosl m dst
      (Z.lor (Z.lor (Z.lor (Z.shiftl c 24) (Z.shiftl c 16)) (Z.shiftl c 8)) c)
      (Z.to_nat (n `div` 4))
  else stosb m dst c (Z.to_nat n).

Fixpoint memcmp (m : mem) (s1 s2 : Z) (n : nat) : Z :=
  match n with
  | O => 0
  | S n => if m s1 =? m s2 then memcmp m (s1 + 1) (s2 + 1) n else m s1 - m s2
  end.

(** [while (n-- > 0) *d++ = *s++] and [while (n-- > 0) *--d = *--s]. *)
Fixpoint copy_up (m : mem) (d s : Z) (n : nat) : mem :=
  match n with
  | O => m
  | S n => copy_up (st8 m d (m s)) (d + 1) (s + 1) n
  end.

Fixpoint copy_down (m : mem) (d s : Z) (n : nat) : mem :=
  match n with
  | O => m
  | S n => copy_down (st8 m (d - 1) (m (s - 1))) (d - 1) (s - 1) n
  end.

Definition memmove (m : mem) (dst src n : Z) : mem :=
  if (src <? dst) && (dst <? src + n) then
    copy_down m (dst + n) (src + n) (Z.to_nat n)
  else copy_up m dst src (Z.to_nat n).

(** [memmove] into the memory of bytes that lie outside it. *)
Fixpoint store_bytes (m : mem) (a : Z) (bs : list Z) : mem :=
  match bs with
  | [] => m
  | c :: bs => store_bytes (st8 m a c) (a + 1) bs
  end.

(** ** Words *)

Lemma u8_range v : 0 ≤ u8 v < 256.
Proof. unfold u8. apply Z.mod_pos_bound. lia. Qed.

Lemma u8_idemp v : u8 (u8 v) = u8 v.
Proof. apply u8_small, u8_range. Qed.

Lemma st8_eq m a v : st8 m a v a = u8 v.
Proof. unfold st8. by rewrite Z.eqb_refl. Qed.

Lemma st8_ne m a v x : x ≠ a → st8 m a v x = m x.
Proof. intros. unfold st8. by apply Z.eqb_neq in H as ->. Qed.

Lemma st8_ok m a v : mem_ok m → mem_ok (st8 m a v).
Proof. intros Hm x. unfold st8. case_match; [apply u8_range | apply Hm]. Qed.

Lemma st32_ok m a v : mem_ok m → mem_ok (st32 m a v).
Proof. intros. unfold st32. by do 4 apply st8_ok. Qed.

Lemma st32_out m a v x : ¬ (a ≤ x < a + 4) → st32 m a v x = m x.
Proof. intros. unfold st32. rewrite !st8_ne; [done|lia..]. Qed.

Lemma st32_byte m a v i :
  0 ≤ i < 4 → st32 m a v (a + i) = u8 (v `div` 2 ^ (8 * i)).
Proof.
  intros Hi. unfold st32, st8.
  assert (i = 0 ∨ i = 1 ∨ i = 2 ∨ i = 3) as [->|[->|[->| ->]]] by lia;
    repeat (case_match; [|]; try lia; rewrite ?Z.eqb_eq, ?Z.eqb_neq in *; try lia);
    try (f_equal; change (8 * 0) with 0; rewrite ?Z.div_1_r; done); lia.
Qed.

Lemma ld32_st32_eq m a v : ld32 (st32 m a v) a = u32 v.
Proof.
  unfold ld32. pose proof (λ i, st32_byte m a v i) as B.
  rewrite <-(Z.add_0_r a) at 2. rewrite !B by lia.
  unfold u8, u32. change (2 ^ (8 * 0)) with 1. change (2 ^ (8 * 1)) with 256.
  change (2 ^ (8 * 2)) with 65536. change (2 ^ (8 * 3)) with 16777216.
  change (2 ^ 8) with 256. change (2 ^ 16) with 65536.
  change (2 ^ 24) with 16777216. change (2 ^ 32) with 4294967296.
  rewrite Z.div_1_r.
  Z.to_euclidean_division_equations. lia.
Qed.

Lemma ld32_st32_ne m a b v : b + 4 ≤ a ∨ a + 4 ≤ b → ld32 (st32 m a v) b = ld32 m b.
Proof. intros. unfold ld32. rewrite !st32_out by lia. done. Qed.

Lemma ld32_ext m m' a : (∀ i, 0 ≤ i < 4 → m (a + i) = m' (a + i)) → ld32 m a = ld32 m' a.
Proof.
  intros H. unfold ld32. rewrite <-(Z.add_0_r a), !H by lia. rewrite Z.add_0_r.
  by rewrite !H by lia.
Qed.

Lemma ld32_range m a : mem_ok m → 0 ≤ ld32 m a < 2 ^ 32.
Proof.
  intros Hm. unfold ld32.
  pose proof (Hm a). pose proof (Hm (a + 1)). pose proof (Hm (a + 2)).
  pose proof (Hm (a + 3)). lia.
Qed.

(** ** memset *)

Lemma stosb_spec cnt m a c x :
  stosb m a c cnt x = if decide (a ≤ x < a + Z.of_nat cnt) then u8 c else m x.
Proof.
  revert m a. induction cnt as [|cnt IH]; intros m a; simpl.
  - rewrite decide_False by lia. done.
  - rewrite IH. unfold st8. repeat (case_decide || case_match); try done; lia.
Qed.

Lemma stosl_spec cnt m a w c x :
  (∀ i, 0 ≤ i < 4 → u8 (w `div` 2 ^ (8 * i)) = c) →
  stosl m a w cnt x = if decide (a ≤ x < a + 4 * Z.of_nat cnt) then c else m x.
Proof.
  intros Hw. revert m a. induction cnt as [|cnt IH]; intros m a; simpl.
  - rewrite decide_False by lia. done.
  - rewrite IH. destruct (decide (a ≤ x < a + 4)).
    + rewrite decide_False, decide_True by lia.
      replace x with (a + (x - a)) by lia. rewrite st32_byte by lia. apply Hw. lia.
    + rewrite st32_out by lia. repeat case_decide; try lia; done.
Qed.

Lemma memset_word c i :
  0 ≤ i < 4 →
  let c' := Z.land c 255 in
  u8 (Z.lor (Z.lor (Z.lor (Z.shiftl c' 24) (Z.shiftl c' 16)) (Z.shiftl c' 8)) c'
      `div` 2 ^ (8 * i)) = u8 c.
Proof.
  intros Hi c'. unfold u8. rewrite <-Z.shiftr_div_pow2 by lia.
  rewrite <-!Z.land_ones by lia.
  assert (i = 0 ∨ i = 1 ∨ i = 2 ∨ i = 3) as Hi' by lia.
  apply Z.bits_inj'. intros n Hn. subst c'. change 255 with (Z.ones 8).
  rewrite !Z.land_spec, !Z.shiftr_spec, !Z.lor_spec, !Z.shiftl_spec, !Z.land_spec by lia.
  destruct (decide (n < 8)).
  - rewrite (Z.ones_spec_low 8 n) by lia.
    destruct Hi' as [->|[->|[->| ->]]]; repeat
      match goal with
      | |- context [Z.testbit (Z.ones 8) ?k] =>
          first [rewrite (Z.ones_spec_low 8 k) by lia | rewrite (Z.ones_spec_high 8 k) by lia
                | rewrite (Z.testbit_neg_r (Z.ones 8) k) by lia]
      end; rewrite ?andb_false_r, ?andb_true_r, ?orb_false_r, ?orb_false_l;
      f_equal; lia.
  - rewrite (Z.ones_spec_high 8 n) by lia. by rewrite !andb_false_r.
Qed.

(** [memset] stores the byte [c] in the [n] cells from [dst] and nothing else,
    whichever of its two loops runs. *)
Lemma memset_spec m dst c n x :
  0 ≤ n →
  memset m dst c n x = if decide (dst ≤ x < dst + n) then u8 c else m x.
Proof.
  intros Hn. unfold memset. case_match eqn:Hb.
  - apply andb_true_iff in Hb as [_ Hb]. apply Z.eqb_eq in Hb.
    rewrite (stosl_spec _ _ _ _ (u8 c)) by apply memset_word.
    rewrite Z2Nat.id by (apply Z.div_pos; lia).
    replace (4 * (n `div` 4)) with n by (Z.to_euclidean_division_equations; lia). done.
  - rewrite stosb_spec, Z2Nat.id by done. done.
Qed.

Lemma memset_ok m dst c n : mem_ok m → 0 ≤ n → mem_ok (memset m dst c n).
Proof.
  intros Hm ? x. rewrite memset_spec by done. case_decide; [apply u8_range|apply Hm].
Qed.

(** ** memmove and memcmp *)

Lemma copy_up_spec n m d s x :
  mem_ok m → d ≤ s ∨ s + Z.of_nat n ≤ d →
  copy_up m d s n x = if decide (d ≤ x < d + Z.of_nat n) then m (s + (x - d)) else m x.
Proof.
  revert m d s. induction n as [|n IH]; intros m d s Hm Hds; simpl.
  - by rewrite decide_False by lia.
  - rewrite IH by (auto using st8_ok || lia). repeat case_decide; try lia.
    + rewrite st8_ne by lia. f_equal. lia.
    + replace x with d by lia. rewrite st8_eq, u8_small by apply Hm. f_equal. lia.
    + rewrite st8_ne by lia. done.
Qed.

Lemma copy_down_spec n m d s x :
  mem_ok m → s ≤ d →
  copy_down m d s n x =
    if decide (d - Z.of_nat n ≤ x < d) then m (s - (d - x)) else m x.
Proof.
  revert m d s. induction n as [|n IH]; intros m d s Hm Hds; simpl.
  - by rewrite decide_False by lia.
  - rewrite IH by (auto using st8_ok || lia). repeat case_decide; try lia.
    + rewrite st8_ne by lia. f_equal. lia.
    + replace x with (d - 1) by lia. rewrite st8_eq, u8_small by apply Hm. f_equal. lia.
    + rewrite st8_ne by lia. done.
Qed.

(** Memmove copies [n] bytes as they were before the call, also when source and
    destination overlap, and changes no byte outside the destination. *)
Theorem memmove_spec m dst src n x :
  mem_ok m → 0 ≤ n →
  memmove m dst src n x =
    if decide (dst ≤ x < dst + n) then m (src + (x - dst)) else m x.
Proof.
  intros Hm Hn. unfold memmove. case_match eqn:Hb.
  - apply andb_true_iff in Hb as [H1%Z.ltb_lt H2%Z.ltb_lt].
    rewrite copy_down_spec by (done || lia). rewrite Z2Nat.id by done.
    repeat case_decide; try lia; f_equal; lia.
  - rewrite copy_up_spec; [by rewrite Z2Nat.id by done|done|].
    rewrite Z2Nat.id by done.
    apply andb_false_iff in Hb as [?%Z.ltb_ge|?%Z.ltb_ge]; lia.
Qed.

Lemma memcmp_zero m s1 s2 n :
  memcmp m s1 s2 n = 0 ↔ ∀ i, 0 ≤ i < Z.of_nat n → m (s1 + i) = m (s2 + i).
Proof.
  revert s1 s2. induction n as [|n IH]; intros s1 s2; simpl.
  - split; [lia|done].
  - case_match eqn:E.
    + apply Z.eqb_eq in E. rewrite IH. split; intros H i Hi.
      * destruct (decide (i = 0)) as [->|]; [by rewrite !Z.add_0_r|].
        replace (s1 + i) with (s1 + 1 + (i - 1)) by lia.
        replace (s2 + i) with (s2 + 1 + (i - 1)) by lia. apply H. lia.
      * replace (s1 + 1 + i) with (s1 + (i + 1)) by lia.
        replace (s2 + 1 + i) with (s2 + (i + 1)) by lia. apply H. lia.
    + apply Z.eqb_neq in E. split; [lia|]. intros H. specialize (H 0).
      rewrite !Z.add_0_r in H. lia.
Qed.
