(* ===== verification/CString.v ===== *)
(** * The C-string routines of string.c

    A [char *] argument is the list of bytes from the pointer to the end of the
    object it points into; a routine that reads or writes past that end gives
    [None].  [cstr] is the string an object holds: its bytes up to the first NUL. *)
From S2P Require Import Prelude.

Fixpoint strncmp (p q : list Z) (n : nat) : option Z :=
  match n with
  | O => Some 0
  | S n =>
      match p, q with
      | a :: p, b :: q =>
          if negb (a =? 0) && (a =? b) then strncmp p q n else Some (u8 a - u8 b)
      | _, _ => None
      end
  end.

(** The second loop of strncpy: [while (n-- > 0) *s++ = 0]. *)
Fixpoint zero_fill (s : list Z) (n : nat) : option (list Z) :=
  match n with
  | O => Some s
  | S n => match s with [] => None | _ :: s => cons 0 <$> zero_fill s n end
  end.

Fixpoint strncpy (s t : list Z) (n : nat) : option (list Z) :=
  match n with
  | O => Some s
  | S n =>
      match s, t with
      | _ :: s, c :: t =>
          if c =? 0 then cons 0 <$> zero_fill s n else cons c <$> strncpy s t n
      | _, _ => None
      end
  end.

(** The loop of safestrcpy once [n] has been decremented, then [*s = 0]. *)
Fixpoint safestrcpy_loop (s t : list Z) (n : nat) : option (list Z) :=
  match n with
  | O => match s with [] => None | _ :: s => Some (0 :: s) end
  | S n =>
      match s, t with
      | _ :: s, c :: t =>
          if c =? 0 then
            match s with [] => None | _ :: s => Some (0 :: 0 :: s) end
          else cons c <$> safestrcpy_loop s t n
      | _, _ => None
      end
  end.

Definition safestrcpy (s t : list Z) (n : Z) : option (list Z) :=
  if n <=? 0 then Some s else safestrcpy_loop s t (Z.to_nat (n - 1)).

Fixpoint strlen (s : list Z) : option nat :=
  match s with
  | [] => None
  | c :: s => if c =? 0 then Some O else S <$> strlen s
  end.

(** The string a buffer holds; a buffer without a NUL holds none. *)
Fixpoint cstr (s : list Z) : option (list Z) :=
  match s with
  | [] => None
  | c :: s => if c =? 0 then Some [] else cons c <$> cstr s
  end.

(** The object that holds a given string and nothing else. *)
Definition cz (s : list Z) : list Z := s ++ [0].

(** Characters other than NUL. *)
Definition chars (s : list Z) : Prop := Forall (λ c, 0 < c < 256) s.

#[global] Instance chars_dec s : Decision (chars s) := _.

Lemma strlen_cstr s : strlen s = length <$> cstr s.
Proof.
  induction s as [|c s IH]; [done|]. simpl. case_match; [done|].
  rewrite IH. by destruct (cstr s).
Qed.

Lemma cstr_app s t : chars s → cstr (s ++ 0 :: t) = Some s.
Proof. induction 1 as [|c s Hc _ IH]; [done|]. simpl. case_match; [lia|]. by rewrite IH. Qed.

Lemma cstr_Some s n : cstr s = Some n → ∃ t, s = n ++ 0 :: t.
Proof.
  revert n. induction s as [|c s IH]; intros n; simpl; [done|].
  case_match eqn:E.
  - intros [= <-]. apply Z.eqb_eq in E as ->. by exists s.
  - destruct (cstr s) as [n'|]; [|done]. intros [= <-].
    destruct (IH n' eq_refl) as [t ->]. by exists t.
Qed.

Lemma strncpy_length s t n s' : strncpy s t n = Some s' → length s' = length s.
Proof.
  assert (Hz : ∀ n s s', zero_fill s n = Some s' → length s' = length s).
  { clear. induction n as [|n IH]; intros [|c s] s'; simpl; try naive_solver.
    intros (s0 & Hs0 & ->)%fmap_Some. simpl. by erewrite IH. }
  revert s t s'. induction n as [|n IH]; intros [|c s] t s'; simpl; try naive_solver.
  destruct t as [|d t]; [done|]. case_match; intros (s0 & Hs0 & ->)%fmap_Some; simpl.
  - by erewrite Hz. - by erewrite IH.
Qed.

(** Comparing the first [strlen(a)] characters is a test for a prefix, not for
    equality: this is how proc.c and vm.c look up mutexes and shared pages by name. *)
Theorem strncmp_prefix a b x :
  chars a → (length a ≤ length b)%nat → Forall (λ c, 0 ≤ c < 256) b →
  strncmp (a ++ x) b (length a) = Some 0 ↔ a `prefix_of` b.
Proof.
  intros Ha. revert b. induction Ha as [|c a Hc Ha IH]; intros b Hl Hb; simpl.
  - split; [intros _; apply prefix_nil|]. by destruct x, b.
  - destruct b as [|d b]; [simpl in Hl; lia|]. simpl in Hl.
    apply Forall_cons_1 in Hb as [Hd Hb].
    case_match eqn:E.
    + apply andb_true_iff in E as [_ ->%Z.eqb_eq].
      rewrite IH by (done || lia). split; [apply prefix_cons|apply prefix_cons_inv_2].
    + split.
      * intros [= E']. unfold u8 in E'. rewrite !Z.mod_small in E' by lia.
        replace d with c in E by lia. rewrite Z.eqb_refl in E.
        destruct (c =? 0) eqn:?; [lia|done].
      * intros ->%prefix_cons_inv_1. rewrite Z.eqb_refl in E.
        destruct (d =? 0) eqn:?; [lia|done].
Qed.

(** Comparing more characters than either string has is a test for equality. *)
Lemma strncmp_eq a b x y n :
  chars a → chars b → (length a < n)%nat →
  strncmp (a ++ 0 :: x) (b ++ 0 :: y) n = Some 0 ↔ a = b.
Proof.
  intros Ha. revert b n. induction Ha as [|c a Hc Ha IH]; intros b n Hb Hn.
  - destruct n; [simpl in Hn; lia|]. destruct b as [|d b]; simpl; [done|].
    apply Forall_cons_1 in Hb as [Hd _]. split; [|done].
    intros [= E]. unfold u8 in E. rewrite !Z.mod_small in E by lia. lia.
  - destruct n as [|n]; [simpl in Hn; lia|]. simpl in Hn. simpl.
    destruct b as [|d b]; simpl.
    + rewrite (proj2 (Z.eqb_neq c 0)) by lia. simpl. split; [|done].
      intros [= E]. unfold u8 in E. rewrite !Z.mod_small in E by lia. lia.
    + apply Forall_cons_1 in Hb as [Hd Hb]. rewrite (proj2 (Z.eqb_neq c 0)) by lia. simpl.
      destruct (Z.eqb_spec c d) as [->|Hne].
      * rewrite IH by (done || lia). split; [by intros ->|by intros [= ->]].
      * split; [|by intros [= ->]].
        intros [= E]. unfold u8 in E. rewrite !Z.mod_small in E by lia. lia.
Qed.

(** [safestrcpy] into a buffer of at least [n] bytes stays inside the buffer and
    leaves in it the longest prefix of the source that fits with its NUL. *)
Theorem safestrcpy_cstr s t x n :
  chars t → 0 < n ≤ Z.of_nat (length s) →
  ∃ s', safestrcpy s (t ++ 0 :: x) n = Some s' ∧ length s' = length s ∧
    cstr s' = Some (take (Z.to_nat (n - 1)) t).
Proof.
  intros Ht Hn. unfold safestrcpy. rewrite (proj2 (Z.leb_gt n 0)) by lia.
  assert (Z.to_nat (n - 1) < length s)%nat as Hl by lia. clear Hn.
  revert s Hl. generalize (Z.to_nat (n - 1)) as k. clear n.
  induction Ht as [|c t Hc Ht IH]; intros [|k] [|d s] Hl; simpl in *; try lia; eauto.
  - destruct s as [|d' s]; simpl in *; [lia|]. eauto.
  - rewrite (proj2 (Z.eqb_neq c 0)) by lia.
    destruct (IH k s) as (s' & -> & Hlen & Hs'); [lia|].
    exists (c :: s'). simpl. rewrite (proj2 (Z.eqb_neq c 0)) by lia.
    rewrite Hs', Hlen. done.
Qed.

(** ** strncmp compares the first characters *)

Definition byte (c : Z) : Prop := 0 ≤ c < 256.

(** The characters before the NUL, at most [n]. *)
Fixpoint upto (n : nat) (l : list Z) : list Z :=
  match n, l with
  | S n, c :: l => if c =? 0 then [] else c :: upto n l
  | _, _ => []
  end.

Lemma strncmp_upto n p q :
  Forall byte p → Forall byte q → (n ≤ length p)%nat → (n ≤ length q)%nat →
  ∃ r, strncmp p q n = Some r ∧ (r = 0 ↔ upto n p = upto n q).
Proof.
  intros Hp. revert n q. induction Hp as [|a p Ha _ IH]; intros [|n] q Hq Hlp Hlq; simpl in *; try lia; [by exists 0..|].
  destruct Hq as [|b q Hb Hq]; [simpl in Hlq; lia|]. simpl in Hlq. unfold byte in *. destruct (Z.eqb_spec a 0) as [->|Ha0]; cbn [negb andb].
  - eexists. split; [done|]. rewrite (u8_small 0), (u8_small b) by lia. destruct (Z.eqb_spec b 0) as [->|?]; [done|]. split; [lia|done].
  - destruct (Z.eqb_spec a b) as [->|Hne].
    + destruct (IH n q Hq) as (r & -> & Hr); [lia..|]. exists r. split; [done|]. rewrite (proj2 (Z.eqb_neq b 0)) by done. rewrite Hr. split; [by intros ->|by intros [=]].
    + eexists. split; [done|]. rewrite !u8_small by lia. destruct (Z.eqb_spec b 0); split; try lia; try done; intros [=]; lia.
Qed.
