(* ===== verification/Mmu.v ===== *)
(** * Address arithmetic of mmu.h and memlayout.h *)
From S2P Require Import Prelude.

Definition PGSIZE : Z := 4096.
Definition NPDENTRIES : Z := 1024.
Definition PTXSHIFT : Z := 12.
Definition PDXSHIFT : Z := 22.

Definition EXTMEM : Z := 0x100000.
Definition PHYSTOP : Z := 0xE000000.
Definition DEVSPACE : Z := 0xFE000000.
Definition KERNBASE : Z := 0x80000000.
Definition KERNLINK : Z := KERNBASE + EXTMEM.

Definition PTE_P : Z := 1.
Definition PTE_W : Z := 2.
Definition PTE_U : Z := 4.

Definition V2P (a : Z) : Z := u32 (a - KERNBASE).
Definition P2V (a : Z) : Z := u32 (a + KERNBASE).

(** [~(PGSIZE - 1)] and [~0xFFF] as 32-bit masks. *)
Definition PGMASK : Z := 0xFFFFF000.

Definition PDX (va : Z) : Z := Z.land (Z.shiftr va PDXSHIFT) 0x3FF.
Definition PTX (va : Z) : Z := Z.land (Z.shiftr va PTXSHIFT) 0x3FF.
Definition PGADDR (d t o : Z) : Z :=
  u32 (Z.lor (Z.lor (Z.shiftl d PDXSHIFT) (Z.shiftl t PTXSHIFT)) o).
Definition PGROUNDUP (sz : Z) : Z := Z.land (u32 (sz + PGSIZE - 1)) PGMASK.
Definition PGROUNDDOWN (a : Z) : Z := Z.land a PGMASK.
Definition PTE_ADDR (pte : Z) : Z := Z.land pte PGMASK.
Definition PTE_FLAGS (pte : Z) : Z := Z.land pte 0xFFF.

(** ** The macros in closed form *)

Lemma u32_range z : 0 ≤ u32 z < 2 ^ 32.
Proof. unfold u32. apply Z.mod_pos_bound. lia. Qed.

Lemma land_ones_mod a n : 0 ≤ n → Z.land a (2 ^ n - 1) = a `mod` 2 ^ n.
Proof. intros. rewrite <-Z.land_ones by done. by rewrite Z.ones_equiv. Qed.

(** Masking with [PGMASK] clears the 12 low bits of a 32-bit word. *)
Lemma land_pgmask a : 0 ≤ a < 2 ^ 32 → Z.land a PGMASK = a - a `mod` 4096.
Proof.
  intros Ha.
  assert (Z.land a PGMASK = Z.ldiff a (Z.ones 12)) as ->.
  { apply Z.bits_inj'. intros n Hn. rewrite Z.ldiff_spec, Z.land_spec.
    destruct (decide (n < 32)).
    - unfold PGMASK. change 0xFFFFF000 with (Z.ldiff (Z.ones 32) (Z.ones 12)).
      rewrite Z.ldiff_spec, (Z.ones_spec_low 32) by lia. done.
    - rewrite <-(Z.mod_small a (2 ^ 32)), Z.mod_pow2_bits_high by lia. done. }
  rewrite Z.ldiff_ones_r by lia. rewrite Z.shiftr_div_pow2, Z.shiftl_mul_pow2 by lia.
  change (2 ^ 12) with 4096. Z.to_euclidean_division_equations. lia.
Qed.

Lemma PGROUNDDOWN_eq a : 0 ≤ a < 2 ^ 32 → PGROUNDDOWN a = a - a `mod` 4096.
Proof. apply land_pgmask. Qed.

Lemma PTE_ADDR_eq a : 0 ≤ a < 2 ^ 32 → PTE_ADDR a = a - a `mod` 4096.
Proof. apply land_pgmask. Qed.

Lemma PTE_FLAGS_eq a : PTE_FLAGS a = a `mod` 4096.
Proof. unfold PTE_FLAGS. change 0xFFF with (2 ^ 12 - 1). by rewrite land_ones_mod. Qed.

Lemma PGROUNDUP_eq a :
  0 ≤ a → a + 4095 < 2 ^ 32 → PGROUNDUP a = (a + 4095) `div` 4096 * 4096.
Proof.
  intros. unfold PGROUNDUP, PGSIZE. rewrite u32_small, land_pgmask by lia.
  Z.to_euclidean_division_equations. lia.
Qed.

Lemma PDX_eq va : 0 ≤ va < 2 ^ 32 → PDX va = va `div` 2 ^ 22.
Proof.
  intros. unfold PDX, PDXSHIFT. change 0x3FF with (2 ^ 10 - 1).
  rewrite land_ones_mod, Z.shiftr_div_pow2 by lia. apply Z.mod_small.
  change (2 ^ 22) with 4194304. change (2 ^ 10) with 1024.
  Z.to_euclidean_division_equations. lia.
Qed.

Lemma PTX_eq va : PTX va = (va `div` 2 ^ 12) `mod` 2 ^ 10.
Proof.
  unfold PTX, PTXSHIFT. change 0x3FF with (2 ^ 10 - 1).
  by rewrite land_ones_mod, Z.shiftr_div_pow2 by lia.
Qed.

Lemma lor_shiftl_add a b n : 0 ≤ n → 0 ≤ b < 2 ^ n → Z.lor (Z.shiftl a n) b = a * 2 ^ n + b.
Proof.
  intros Hn Hb. rewrite <-Z.shiftl_mul_pow2 by done. symmetry. rewrite Z.add_nocarry_lxor.
  - apply Z.lxor_lor. apply Z.bits_inj'. intros k Hk.
    rewrite Z.land_spec, Z.shiftl_spec, Z.bits_0 by done.
    destruct (decide (k < n)).
    + by rewrite Z.testbit_neg_r by lia.
    + rewrite <-(Z.mod_small b (2 ^ n)), Z.mod_pow2_bits_high by lia. by rewrite andb_false_r.
  - apply Z.bits_inj'. intros k Hk. rewrite Z.land_spec, Z.shiftl_spec, Z.bits_0 by done.
    destruct (decide (k < n)).
    + by rewrite Z.testbit_neg_r by lia.
    + rewrite <-(Z.mod_small b (2 ^ n)), Z.mod_pow2_bits_high by lia. by rewrite andb_false_r.
Qed.

(** Oring flags into a page-aligned address is adding them. *)
Lemma lor_page_flags pa f :
  pa `mod` 4096 = 0 → 0 ≤ f < 4096 → Z.lor pa f = pa + f.
Proof.
  intros Hpa Hf. assert (pa = Z.shiftl (pa `div` 4096) 12) as E.
  { rewrite Z.shiftl_mul_pow2 by lia. change (2 ^ 12) with 4096.
    Z.to_euclidean_division_equations. lia. }
  rewrite E at 1. rewrite lor_shiftl_add by (change (2 ^ 12) with 4096; lia).
  change (2 ^ 12) with 4096. Z.to_euclidean_division_equations. lia.
Qed.

Lemma PGADDR_eq d t o :
  0 ≤ d < 1024 → 0 ≤ t < 1024 → 0 ≤ o < 4096 →
  PGADDR d t o = d * 2 ^ 22 + t * 2 ^ 12 + o.
Proof.
  intros. unfold PGADDR, PDXSHIFT, PTXSHIFT.
  rewrite <-Z.lor_assoc, (lor_shiftl_add t o 12) by (change (2 ^ 12) with 4096; lia).
  change (2 ^ 12) with 4096 in *.
  rewrite (lor_shiftl_add d _ 22) by (change (2 ^ 22) with 4194304; lia).
  change (2 ^ 22) with 4194304. rewrite u32_small by lia. lia.
Qed.

(** The two-level split of an address and its inverse. *)
Lemma PGADDR_split va :
  0 ≤ va < 2 ^ 32 → PGADDR (PDX va) (PTX va) (va `mod` 4096) = va.
Proof.
  intros. rewrite PDX_eq, PTX_eq by done.
  change (2 ^ 22) with 4194304. change (2 ^ 12) with 4096. change (2 ^ 10) with 1024.
  rewrite PGADDR_eq; change (2 ^ 22) with 4194304; change (2 ^ 12) with 4096;
    Z.to_euclidean_division_equations; lia.
Qed.
