(* ===== verification/Kalloc.v ===== *)
(** * The physical page allocator (kalloc.c)

    [pmem] is the memory together with the allocator's [kmem] struct.  The free
    list is a chain of [struct run] kept in the free pages themselves; [free_pages]
    says that the chain from [kmem.freelist] visits exactly the pages of a list. *)
From S2P Require Import Prelude Mem Mmu.

(** What the linker provides: the ends of the kernel image and of its read-only
    part, the address of [forkret], and the binary of initcode.S. *)
Class Linker := { kend : Z; kdata : Z; kforkret : Z; kinitcode : list Z }.

(** What kernel.ld guarantees of them: the kernel is linked at KERNLINK, its
    data segment starts on a page boundary, and it fits in physical memory. *)
Class LinkerOk `{Linker} := {
  kdata_lo : KERNLINK ≤ kdata;
  kdata_al : kdata `mod` 4096 = 0;
  kend_lo : kdata < kend;
  kend_hi : kend ≤ KERNBASE + 4 * 1024 * 1024;
}.

Record pmem := Pm {
  pm_mem : mem;
  pm_locked : bool;      (* kmem.lock, held by this processor *)
  pm_use_lock : bool;    (* kmem.use_lock *)
  pm_freelist : Z;       (* kmem.freelist *)
}.

Definition set_mem (f : mem → mem) : M pmem unit :=
  modify (λ s, Pm (f (pm_mem s)) (pm_locked s) (pm_use_lock s) (pm_freelist s)).

Section kalloc.
  Context `{Linker}.

Definition kmem_acquire : M pmem unit := λ s,
  if pm_locked s then Panic "acquire"
  else Ok tt (Pm (pm_mem s) true (pm_use_lock s) (pm_freelist s)).

Definition kmem_release : M pmem unit := λ s,
  if pm_locked s then Ok tt (Pm (pm_mem s) false (pm_use_lock s) (pm_freelist s))
  else Panic "release".

(** The test at the top of kfree. *)
Definition kfree_bad (v : Z) : bool :=
  negb (v `mod` PGSIZE =? 0) || (v <? kend) || (PHYSTOP <=? V2P v).

Definition kfree (v : Z) : M pmem unit :=
  if kfree_bad v then panic "kfree" else
  set_mem (λ m, memset m v 1 PGSIZE);;
  ul <- gets pm_use_lock;
  when ul kmem_acquire;;
  modify (λ s, Pm (st32 (pm_mem s) v (pm_freelist s)) (pm_locked s) (pm_use_lock s) v);;
  when ul kmem_release.

Definition kalloc : M pmem Z :=
  ul <- gets pm_use_lock;
  when ul kmem_acquire;;
  r <- gets pm_freelist;
  when (negb (r =? 0))
    (modify (λ s, Pm (pm_mem s) (pm_locked s) (pm_use_lock s) (ld32 (pm_mem s) r)));;
  when ul kmem_release;;
  ret r.

(** [for (; p + PGSIZE <= vend; p += PGSIZE) kfree(p)], at most [n] rounds. *)
Definition freerange_loop (n : nat) (p vend : Z) : M pmem unit :=
  loop n (λ p, if u32 (p + PGSIZE) <=? vend
               then kfree p;; ret (inl (u32 (p + PGSIZE))) else ret (inr tt)) p.

Definition freerange (vstart vend : Z) : M pmem unit :=
  let p := PGROUNDUP vstart in
  freerange_loop (S (Z.to_nat ((vend - p) `div` PGSIZE))) p vend.

Definition kinit1 (vstart vend : Z) : M pmem unit :=
  modify (λ s, Pm (pm_mem s) false false (pm_freelist s));;
  freerange vstart vend.

Definition kinit2 (vstart vend : Z) : M pmem unit :=
  freerange vstart vend;;
  modify (λ s, Pm (pm_mem s) (pm_locked s) true (pm_freelist s)).

(** ** Representation *)

Definition page_ok (v : Z) : Prop :=
  v `mod` 4096 = 0 ∧ kend ≤ v < KERNBASE + PHYSTOP.

#[global] Instance page_ok_dec v : Decision (page_ok v).
Proof. unfold page_ok. apply _. Defined.

Fixpoint chain (m : mem) (r : Z) (l : list Z) : Prop :=
  match l with
  | [] => r = 0
  | v :: l => r = v ∧ chain m (ld32 m v) l
  end.

Record free_pages (s : pmem) (l : list Z) : Prop := {
  fp_mem : mem_ok (pm_mem s);
  fp_lock : pm_locked s = false;
  fp_chain : chain (pm_mem s) (pm_freelist s) l;
  fp_ok : Forall page_ok l;
  fp_nodup : NoDup l;
}.

(** Two memories agree outside the page at [v]. *)
Definition same_but_page (v : Z) (m m' : mem) : Prop :=
  ∀ x, ¬ (v ≤ x < v + 4096) → m' x = m x.

Context `{!LinkerOk}.

Lemma kend_kernbase : KERNBASE < kend.
Proof.
  pose proof kdata_lo. pose proof kend_lo. unfold KERNLINK, EXTMEM, KERNBASE in *. lia.
Qed.

Lemma page_ok_range v : page_ok v → KERNBASE < v ∧ v + 4096 ≤ KERNBASE + PHYSTOP.
Proof.
  intros [Ha Hb]. pose proof kend_kernbase. unfold KERNBASE, PHYSTOP in *.
  split; [lia|]. Z.to_euclidean_division_equations. lia.
Qed.

Lemma page_ok_nz v : page_ok v → v ≠ 0.
Proof. intros Hv%page_ok_range. unfold KERNBASE in *. lia. Qed.

Lemma page_ok_disjoint v w : page_ok v → page_ok w → v ≠ w → v + 4096 ≤ w ∨ w + 4096 ≤ v.
Proof. intros [Hv _] [Hw _] ?. Z.to_euclidean_division_equations. lia. Qed.

Lemma V2P_page v : page_ok v → V2P v = v - KERNBASE.
Proof.
  intros Hv%page_ok_range. unfold V2P. apply u32_small. unfold KERNBASE, PHYSTOP in *. lia.
Qed.

Lemma P2V_V2P v : page_ok v → P2V (V2P v) = v.
Proof.
  intros Hv. rewrite V2P_page by done. apply page_ok_range in Hv. unfold P2V.
  rewrite u32_small; unfold KERNBASE, PHYSTOP in *; lia.
Qed.

(** kfree accepts exactly the page-aligned addresses from [end] to PHYSTOP. *)
Lemma kfree_bad_spec v : 0 ≤ v < 2 ^ 32 → kfree_bad v = false ↔ page_ok v.
Proof.
  intros Hv. unfold kfree_bad, page_ok, PGSIZE. pose proof kend_kernbase.
  rewrite !orb_false_iff, negb_false_iff, Z.eqb_eq, Z.ltb_ge, Z.leb_gt.
  assert (kend ≤ v → V2P v = v - KERNBASE) as HV.
  { intros. unfold V2P. apply u32_small. unfold KERNBASE in *. lia. }
  split.
  - intros [[? ?] ?]. rewrite HV in * by done. lia.
  - intros [? ?]. rewrite HV by lia. lia.
Qed.

Lemma chain_frame m m' r l :
  (∀ v, v ∈ l → ld32 m' v = ld32 m v) → chain m r l → chain m' r l.
Proof.
  revert r. induction l as [|v l IH]; intros r Hm; simpl; [done|].
  intros [-> Hc]. split; [done|]. rewrite Hm by set_solver. apply IH; [set_solver|done].
Qed.

Lemma same_but_page_ld32 v m m' a :
  same_but_page v m m' → a + 4 ≤ v ∨ v + 4096 ≤ a → ld32 m' a = ld32 m a.
Proof. intros Hs Ha. apply ld32_ext. intros i Hi. apply Hs. lia. Qed.

Lemma page_list_frame v l m m' a :
  same_but_page v m m' → page_ok v → v ∉ l → Forall page_ok l → a ∈ l →
  ld32 m' a = ld32 m a.
Proof.
  intros Hs Hv Hvl Hl Ha. eapply same_but_page_ld32; [done|].
  eapply list.Forall_forall in Hl; [|done].
  destruct (page_ok_disjoint v a); [done|done|by intros ->|lia|lia].
Qed.

(** A memory change inside a page that is not free keeps the free list. *)
Lemma free_pages_frame s l v m' :
  free_pages s l → page_ok v → v ∉ l → mem_ok m' → same_but_page v (pm_mem s) m' →
  free_pages (Pm m' (pm_locked s) (pm_use_lock s) (pm_freelist s)) l.
Proof.
  intros [] Hv Hvl Hm Hs. split; simpl; try done.
  eapply chain_frame; [|done]. intros. by eapply page_list_frame.
Qed.

(** What a freed page holds: the link, then bytes 1. *)
Definition freed_page (m : mem) (v next : Z) : mem := st32 (memset m v 1 4096) v next.

Lemma freed_page_same m v n : same_but_page v m (freed_page m v n).
Proof.
  intros x Hx. unfold freed_page. rewrite st32_out by lia.
  rewrite memset_spec by lia. by rewrite decide_False by lia.
Qed.

Lemma kfree_run s v :
  kfree_bad v = false → pm_locked s = false →
  kfree v s = Ok tt (Pm (freed_page (pm_mem s) v (pm_freelist s)) false (pm_use_lock s) v).
Proof.
  intros Hb Hl. unfold kfree. rewrite Hb.
  destruct s as [m lk [] fl]; simpl in *; subst; done.
Qed.

Lemma freelist_range s l : free_pages s l → 0 ≤ pm_freelist s < 2 ^ 32.
Proof.
  intros []. destruct l as [|v l]; simpl in *; [lia|]. destruct fp_chain0 as [-> _].
  apply Forall_cons_1 in fp_ok0 as [Hv%page_ok_range _]. unfold KERNBASE, PHYSTOP in *. lia.
Qed.

Lemma kfree_spec s l v :
  free_pages s l → page_ok v → v ∉ l →
  ∃ s', kfree v s = Ok tt s' ∧ free_pages s' (v :: l) ∧
    pm_use_lock s' = pm_use_lock s ∧ same_but_page v (pm_mem s) (pm_mem s').
Proof.
  intros Hfp Hv Hvl. pose proof (freelist_range _ _ Hfp) as Hr.
  pose proof (page_ok_range v Hv).
  eexists. split; [apply kfree_run; [|by apply Hfp]|].
  { apply kfree_bad_spec; [|done]. unfold KERNBASE, PHYSTOP in *. lia. }
  split; [|split; [done|apply freed_page_same]].
  destruct Hfp. split; simpl; try done.
  - by apply st32_ok, memset_ok.
  - split; [done|]. unfold freed_page. rewrite ld32_st32_eq, u32_small by done.
    eapply chain_frame; [|done]. intros. eapply page_list_frame; try done.
    apply freed_page_same.
  - by constructor.
  - by constructor.
Qed.

Lemma kalloc_empty s : free_pages s [] → kalloc s = Ok 0 s.
Proof.
  intros []. simpl in *. destruct s as [m lk [] fl]; simpl in *; subst; done.
Qed.

Lemma kalloc_spec s v l :
  free_pages s (v :: l) →
  ∃ s', kalloc s = Ok v s' ∧ free_pages s' l ∧ pm_use_lock s' = pm_use_lock s ∧
    pm_mem s' = pm_mem s.
Proof.
  intros []. simpl in *. destruct fp_chain0 as [Hv Hc].
  apply Forall_cons_1 in fp_ok0 as [Hok ?]. apply list.NoDup_cons in fp_nodup0 as [??].
  destruct s as [m lk ul fl]; simpl in *. subst.
  exists (Pm m false ul (ld32 m v)). split.
  - apply page_ok_nz, Z.eqb_neq in Hok. unfold kalloc.
    destruct ul; simpl; unfold bind; simpl; rewrite Hok; done.
  - done.
Qed.

(** ** Refinement: the allocator is a stack of pages *)

Inductive aop := AFree (v : Z) | AAlloc.

(** The specification: the free pages as a list; freeing pushes, allocating pops
    and gives 0 when there is no page. *)
Definition abs_step (o : aop) (l : list Z) : Z * list Z :=
  match o, l with
  | AFree v, l => (0, v :: l)
  | AAlloc, [] => (0, [])
  | AAlloc, v :: l => (v, l)
  end.

Definition conc_step (o : aop) : M pmem Z :=
  match o with AFree v => kfree v;; ret 0 | AAlloc => kalloc end.

(** A client frees pages of the allocator's range that are not free already. *)
Definition legal (o : aop) (l : list Z) : Prop :=
  match o with AFree v => page_ok v ∧ v ∉ l | AAlloc => True end.

#[global] Instance legal_dec o l : Decision (legal o l).
Proof. destruct o; simpl; apply _. Defined.

Fixpoint abs_run (os : list aop) (l : list Z) : list Z * list Z :=
  match os with
  | [] => ([], l)
  | o :: os => let '(r, l') := abs_step o l in
      let '(rs, l'') := abs_run os l' in (r :: rs, l'')
  end.

Fixpoint conc_run (os : list aop) : M pmem (list Z) :=
  match os with
  | [] => ret []
  | o :: os => r <- conc_step o; rs <- conc_run os; ret (r :: rs)
  end.

Fixpoint legal_run (os : list aop) (l : list Z) : Prop :=
  match os with
  | [] => True
  | o :: os => legal o l ∧ legal_run os (abs_step o l).2
  end.

Lemma conc_step_sim o s l :
  free_pages s l → legal o l →
  ∃ s', conc_step o s = Ok (abs_step o l).1 s' ∧ free_pages s' (abs_step o l).2.
Proof.
  intros Hfp Hl. destruct o as [v|]; simpl.
  - destruct Hl. destruct (kfree_spec s l v) as (s' & Hk & ? & ?); [done..|].
    exists s'. unfold bind. by rewrite Hk.
  - destruct l as [|v l].
    + exists s. by rewrite kalloc_empty.
    + destruct (kalloc_spec s v l) as (s' & ? & ? & ?); eauto.
Qed.

(** C9: kalloc and kfree implement a stack of free pages.  From a well-formed free
    list, every sequence of calls that frees only valid pages that are not free runs
    without a panic, returns exactly the pages the specification returns, and leaves
    the free list the specification describes. *)
Theorem kalloc_refines os s l :
  free_pages s l → legal_run os l →
  ∃ s', conc_run os s = Ok (abs_run os l).1 s' ∧ free_pages s' (abs_run os l).2.
Proof.
  revert s l. induction os as [|o os IH]; intros s l Hfp Hl; simpl in *; [eauto|].
  destruct Hl as [Ho Hos]. destruct (conc_step_sim o s l Hfp Ho) as (s1 & H1 & Hfp1).
  destruct (abs_step o l) as [r l1]; simpl in *.
  destruct (IH s1 l1 Hfp1 Hos) as (s2 & H2 & Hfp2).
  destruct (abs_run os l1) as [rs l2]; simpl in *.
  exists s2. unfold bind. rewrite H1. simpl. by rewrite H2.
Qed.

(** ** freerange *)

(** The pages [p], [p + 4096], ..., highest first. *)
Fixpoint pages_from (p : Z) (n : nat) : list Z :=
  match n with O => [] | S n => pages_from (p + 4096) n ++ [p] end.

Lemma elem_of_pages_from p n v :
  v ∈ pages_from p n ↔ ∃ i, 0 ≤ i < Z.of_nat n ∧ v = p + 4096 * i.
Proof.
  revert p. induction n as [|n IH]; intros p; simpl.
  - split; [by intros ?%elem_of_nil|]. intros (i & ? & ?). lia.
  - rewrite elem_of_app, list_elem_of_singleton, IH. split.
    + intros [(i & ? & ->)| ->]; [exists (i + 1)|exists 0]; lia.
    + intros (i & ? & ->). destruct (decide (i = 0)) as [->|]; [right; lia|].
      left. exists (i - 1). lia.
Qed.

Lemma freerange_loop_spec n p vend s l :
  free_pages s l → p `mod` 4096 = 0 → 0 ≤ p → p + 4096 * Z.of_nat n ≤ vend →
  vend < p + 4096 * (Z.of_nat n + 1) → vend ≤ KERNBASE + PHYSTOP →
  (∀ v, v ∈ pages_from p n → page_ok v ∧ v ∉ l) →
  ∃ s', freerange_loop (S n) p vend s = Ok tt s' ∧ free_pages s' (pages_from p n ++ l) ∧
    pm_use_lock s' = pm_use_lock s.
Proof.
  revert p s l. induction n as [|n IH]; intros p s l Hfp Ha Hp Hlo Hhi Hv Hl.
  - exists s. split; [|done]. unfold freerange_loop. simpl. unfold bind, PGSIZE.
    rewrite u32_small by (unfold KERNBASE, PHYSTOP in *; lia).
    by rewrite (proj2 (Z.leb_gt _ _)) by lia.
  - destruct (Hl p) as [Hok Hni]; [apply elem_of_pages_from; exists 0; lia|].
    destruct (kfree_spec s l p) as (s1 & Hk & Hfp1 & Hu1 & _); [done..|].
    destruct (IH (p + 4096) s1 (p :: l)) as (s2 & Hr & Hfp2 & Hu2); [done| |lia..|done| |].
    { rewrite Zplus_mod, Ha. done. }
    { intros v Hv'. destruct (Hl v) as [? ?]; [simpl; set_solver|]. split; [done|].
      apply elem_of_pages_from in Hv' as (i & ? & ->). apply not_elem_of_cons. split; [lia|done]. }
    exists s2. split; [|split; [|congruence]].
    + unfold freerange_loop in *. cbn [loop]. unfold bind at 1, PGSIZE.
      rewrite u32_small by (unfold KERNBASE, PHYSTOP in *; lia).
      rewrite (proj2 (Z.leb_le _ _)) by lia.
      unfold bind. rewrite Hk. simpl. apply Hr.
    + simpl. by rewrite <-app_assoc.
Qed.

(** The aligned pages that fit in [vstart, vend). *)
Definition range_pages (vstart vend : Z) : list Z :=
  pages_from (PGROUNDUP vstart) (Z.to_nat ((vend - PGROUNDUP vstart) `div` 4096)).

Lemma elem_of_range_pages vstart vend v :
  0 ≤ vstart → vstart + 4095 < 2 ^ 32 →
  v ∈ range_pages vstart vend ↔
    v `mod` 4096 = 0 ∧ vstart ≤ v ∧ v + 4096 ≤ vend.
Proof.
  intros. unfold range_pages. rewrite elem_of_pages_from, PGROUNDUP_eq by lia. split.
  - intros (i & Hi & ->). Z.to_euclidean_division_equations. lia.
  - intros (Hm & ? & ?). exists ((v - (vstart + 4095) `div` 4096 * 4096) `div` 4096).
    Z.to_euclidean_division_equations. lia.
Qed.

Lemma freerange_spec vstart vend s l :
  free_pages s l → kend ≤ vstart ≤ vend → vend ≤ KERNBASE + PHYSTOP →
  (∀ v, v ∈ l → v < vstart ∨ vend ≤ v) →
  ∃ s', freerange vstart vend s = Ok tt s' ∧
    free_pages s' (range_pages vstart vend ++ l) ∧ pm_use_lock s' = pm_use_lock s.
Proof.
  intros Hfp Hs He Hl. pose proof kend_kernbase. unfold freerange, PGSIZE, range_pages.
  assert (0 ≤ vstart ∧ vstart + 4095 < 2 ^ 32) as [] by (unfold KERNBASE, PHYSTOP in *; lia).
  pose proof (λ v, elem_of_range_pages vstart vend v) as Hin. unfold range_pages in Hin.
  rewrite PGROUNDUP_eq in * by lia.
  set (p := (vstart + 4095) `div` 4096 * 4096) in *.
  destruct (decide (p ≤ vend)).
  - apply freerange_loop_spec; try done; try (subst p; Z.to_euclidean_division_equations; lia).
    intros v Hv. apply Hin in Hv; [|lia..]. destruct Hv as (? & ? & ?). split.
    + split; [done|lia].
    + intros Hv. apply Hl in Hv. lia.
  - replace (Z.to_nat ((vend - p) `div` 4096)) with O
      by (Z.to_euclidean_division_equations; lia).
    exists s. split; [|done]. unfold freerange_loop. simpl. unfold bind, PGSIZE.
    rewrite u32_small by (subst p; unfold KERNBASE, PHYSTOP in *;
      Z.to_euclidean_division_equations; lia).
    by rewrite (proj2 (Z.leb_gt _ _)) by lia.
Qed.

(** The boot sequence of main.c as far as the allocator sees it: the calls of
    kinit1 and kinit2 return, with every page from [end] to PHYSTOP on the free list,
    each once, and no other page. *)
Theorem kinit_pages s :
  mem_ok (pm_mem s) → pm_freelist s = 0 →
  ∃ s' l, (kinit1 kend (P2V (4 * 1024 * 1024));;
           kinit2 (P2V (4 * 1024 * 1024)) (P2V PHYSTOP)) s = Ok tt s' ∧
    free_pages s' l ∧ pm_use_lock s' = true ∧ ∀ v, v ∈ l ↔ page_ok v.
Proof.
  intros Hm Hf. pose proof kend_kernbase. pose proof kend_hi.
  set (mid := P2V (4 * 1024 * 1024)). set (top := P2V PHYSTOP).
  assert (mid = KERNBASE + 4 * 1024 * 1024) as Hmid by done.
  assert (top = KERNBASE + PHYSTOP) as Htop by done.
  unfold KERNBASE, PHYSTOP in *.
  destruct (freerange_spec kend mid (Pm (pm_mem s) false false (pm_freelist s)) [])
    as (s1 & Hr1 & Hfp1 & Hu1); [by split; [..|constructor]|unfold KERNBASE, PHYSTOP; lia..| |].
  { intros v ?%elem_of_nil. done. }
  rewrite app_nil_r in Hfp1.
  destruct (freerange_spec mid top s1 (range_pages kend mid))
    as (s2 & Hr2 & Hfp2 & Hu2); [done|unfold KERNBASE, PHYSTOP; lia..| |].
  { intros v Hv%elem_of_range_pages; lia. }
  exists (Pm (pm_mem s2) (pm_locked s2) true (pm_freelist s2)), (range_pages mid top ++ range_pages kend mid).
  split; [|split; [|split; [done|]]].
  - unfold kinit1, kinit2, bind, modify. simpl. rewrite Hr1. simpl. rewrite Hr2. done.
  - destruct Hfp2. by split.
  - intros v. rewrite elem_of_app, !elem_of_range_pages by lia.
    unfold page_ok, KERNBASE, PHYSTOP. split; [lia|]. intros [??].
    destruct (decide (mid ≤ v)); [left|right]; Z.to_euclidean_division_equations; lia.
Qed.

End kalloc.
