(* ===== verification/Vm.v ===== *)
(** * Page tables (vm.c)

    Page directories and page tables are pages of the memory; an address space is
    the address of its page directory.  The routines are those of vm.c, over the
    memory and the allocator; what they read of the current process (its shared
    pages and whether its name matches "cm") is an argument.  [xlate] is the
    translation the processor does with a page directory, and the theorems say how
    each routine changes it. *)
From S2P Require Import Prelude Mem Mmu Kalloc.

(** One entry of [curproc->shared_mem] as vm.c reads it: [in_use], [va] and the
    [pa] of the page its [global_ptr] points to. *)
Record shview := Shv { shv_in_use : Z; shv_va : Z; shv_pa : Z }.

Definition load32 (a : Z) : M pmem Z := gets (λ s, ld32 (pm_mem s) a).
Definition store32 (a v : Z) : M pmem unit := set_mem (λ m, st32 m a v).

(** [*pte & f] as a C condition. *)
Definition has (w f : Z) : bool := negb (Z.land w f =? 0).

Section vm.
  Context `{Linker}.

Definition walkpgdir (pgdir va : Z) (alloc : bool) : M pmem Z :=
  let pde := pgdir + 4 * PDX va in
  w <- load32 pde;
  if has w PTE_P then ret (P2V (PTE_ADDR w) + 4 * PTX va)
  else if negb alloc then ret 0 else
    pgtab <- kalloc;
    if pgtab =? 0 then ret 0 else
      set_mem (λ m, memset m pgtab 0 PGSIZE);;
      store32 pde (Z.lor (Z.lor (Z.lor (V2P pgtab) PTE_P) PTE_W) PTE_U);;
      ret (pgtab + 4 * PTX va).

(** The loop of mappages: from [a] to [last], [n] rounds at most. *)
Fixpoint mappages_loop (n : nat) (pgdir a last pa perm : Z) : M pmem Z :=
  match n with
  | O => λ _, Fuel
  | S n =>
      pte <- walkpgdir pgdir a true;
      if pte =? 0 then ret (-1) else
      w <- load32 pte;
      if has w PTE_P then panic "remap" else
      store32 pte (Z.lor (Z.lor pa perm) PTE_P);;
      if a =? last then ret 0
      else mappages_loop n pgdir (u32 (a + PGSIZE)) last (u32 (pa + PGSIZE)) perm
  end.

Definition mappages (pgdir va size pa perm : Z) : M pmem Z :=
  let a := PGROUNDDOWN va in
  let last := PGROUNDDOWN (u32 (va + size - 1)) in
  mappages_loop (S (Z.to_nat (u32 (last - a) `div` PGSIZE))) pgdir a last pa perm.

Record kmap := Kmap { km_virt : Z; km_phys_start : Z; km_phys_end : Z; km_perm : Z }.

Definition kmap_table : list kmap :=
  [ Kmap KERNBASE 0 EXTMEM PTE_W;
    Kmap KERNLINK (V2P KERNLINK) (V2P kdata) 0;
    Kmap kdata (V2P kdata) PHYSTOP PTE_W;
    Kmap DEVSPACE DEVSPACE 0 PTE_W ].

(** [for (; a < oldsz; a += PGSIZE)] of deallocuvm. *)
Fixpoint deallocuvm_loop (n : nat) (pgdir a oldsz : Z) : M pmem unit :=
  match n with
  | O => λ _, Fuel
  | S n =>
      if negb (a <? oldsz) then ret tt else
      pte <- walkpgdir pgdir a false;
      a' <- (if pte =? 0 then ret (u32 (PGADDR (PDX a + 1) 0 0 - PGSIZE)) else
            w <- load32 pte;
            when (has w PTE_P)
              (let pa := PTE_ADDR w in
               if pa =? 0 then panic "kfree" else
               kfree (P2V pa);; store32 pte 0);;
            ret a);
      deallocuvm_loop n pgdir (u32 (a' + PGSIZE)) oldsz
  end.

Definition deallocuvm (pgdir oldsz newsz : Z) : M pmem Z :=
  if oldsz <=? newsz then ret oldsz else
  let a := PGROUNDUP newsz in
  deallocuvm_loop (S (Z.to_nat ((oldsz - a) `div` PGSIZE + 1))) pgdir a oldsz;;
  ret newsz.

(** Does [pa] belong to a shared page in use? *)
Fixpoint find_shmem (pa : Z) (shm : list shview) : option Z :=
  match shm with
  | [] => None
  | e :: shm => if (shv_in_use e =? 1) && (pa =? shv_pa e) then Some (shv_va e)
                else find_shmem pa shm
  end.

Definition freevm (shm : list shview) (pgdir : Z) : M pmem unit :=
  if pgdir =? 0 then panic "freevm: no pgdir" else
  deallocuvm pgdir KERNBASE 0;;
  forM (Z.of_nat <$> seq 0 (Z.to_nat NPDENTRIES)) (λ i,
    w <- load32 (pgdir + 4 * i);
    when (has w PTE_P)
      (let pa := PTE_ADDR w in
       match find_shmem pa shm with Some _ => ret tt | None => kfree (P2V pa) end));;
  kfree pgdir.

(** The loop of setupkvm over [kmap]. *)
Fixpoint setupkvm_loop (shm : list shview) (pgdir : Z) (l : list kmap) : M pmem Z :=
  match l with
  | [] => ret pgdir
  | k :: l =>
      r <- mappages pgdir (km_virt k) (u32 (km_phys_end k - km_phys_start k))
            (km_phys_start k) (km_perm k);
      if r <? 0 then freevm shm pgdir;; ret 0 else setupkvm_loop shm pgdir l
  end.

Definition setupkvm (shm : list shview) : M pmem Z :=
  pgdir <- kalloc;
  if pgdir =? 0 then ret 0 else
  set_mem (λ m, memset m pgdir 0 PGSIZE);;
  if DEVSPACE <? P2V PHYSTOP then panic "PHYSTOP too high" else
  setupkvm_loop shm pgdir kmap_table.

Definition inituvm (pgdir : Z) (init : list Z) (sz : Z) : M pmem unit :=
  if PGSIZE <=? sz then panic "inituvm: more than a page" else
  mem <- kalloc;
  if mem =? 0 then undef "inituvm: memset of NULL" else
  set_mem (λ m, memset m mem 0 PGSIZE);;
  mappages pgdir 0 PGSIZE (V2P mem) (Z.lor PTE_W PTE_U);;
  set_mem (λ m, store_bytes m mem (take (Z.to_nat sz) init)).

Fixpoint allocuvm_loop (n : nat) (pgdir a oldsz newsz : Z) : M pmem Z :=
  match n with
  | O => λ _, Fuel
  | S n =>
      if negb (a <? newsz) then ret newsz else
      mem <- kalloc;
      if mem =? 0 then deallocuvm pgdir newsz oldsz;; ret 0 else
      set_mem (λ m, memset m mem 0 PGSIZE);;
      r <- mappages pgdir a PGSIZE (V2P mem) (Z.lor PTE_W PTE_U);
      if r <? 0 then deallocuvm pgdir newsz oldsz;; kfree mem;; ret 0
      else allocuvm_loop n pgdir (u32 (a + PGSIZE)) oldsz newsz
  end.

Definition allocuvm (pgdir oldsz newsz : Z) : M pmem Z :=
  if KERNBASE <=? newsz then ret 0 else
  if newsz <? oldsz then ret oldsz else
  let a := PGROUNDUP oldsz in
  allocuvm_loop (S (Z.to_nat ((newsz - a) `div` PGSIZE + 1))) pgdir a oldsz newsz.

Definition clearpteu (pgdir uva : Z) : M pmem unit :=
  pte <- walkpgdir pgdir uva false;
  if pte =? 0 then panic "clearpteu" else
  w <- load32 pte;
  store32 pte (Z.land w (u32 (Z.lnot PTE_U))).

(** The loop of copyuvm; [sh] is the pair of locals [is_shmem], [va], which live
    across its rounds. *)
Fixpoint copyuvm_loop (n : nat) (shm : list shview) (cm : bool) (pgdir d i sz : Z)
    (sh : option Z) : M pmem Z :=
  match n with
  | O => λ _, Fuel
  | S n =>
      if negb (i <? sz) then ret d else
      pte <- walkpgdir pgdir i false;
      if pte =? 0 then panic "copyuvm: pte should exist" else
      w <- load32 pte;
      if negb (has w PTE_P) then panic "copyuvm: page not present" else
      let pa := PTE_ADDR w in
      let flags := PTE_FLAGS w in
      let sh := match find_shmem pa shm with Some va => Some va | None => sh end in
      match sh with
      | None =>
          mem <- kalloc;
          if mem =? 0 then freevm shm d;; ret 0 else
          set_mem (λ m, memmove m mem (P2V pa) PGSIZE);;
          r <- mappages d i PGSIZE (V2P mem) flags;
          if r <? 0 then freevm shm d;; ret 0
          else copyuvm_loop n shm cm pgdir d (u32 (i + PGSIZE)) sz None
      | Some va =>
          if cm then copyuvm_loop n shm cm pgdir d (u32 (i + PGSIZE)) sz (Some va)
          else mappages d va PGSIZE pa flags;;
               copyuvm_loop n shm cm pgdir d (u32 (i + PGSIZE)) sz None
      end
  end.

Definition copyuvm (shm : list shview) (cm : bool) (pgdir sz : Z) : M pmem Z :=
  d <- setupkvm shm;
  if d =? 0 then ret 0 else
  copyuvm_loop (S (Z.to_nat (sz `div` PGSIZE + 1))) shm cm pgdir d 0 sz None.

Definition uva2ka (pgdir uva : Z) : M pmem Z :=
  pte <- walkpgdir pgdir uva false;
  if pte =? 0 then undef "uva2ka: NULL pte" else
  w <- load32 pte;
  if negb (has w PTE_P) then ret 0 else
  if negb (has w PTE_U) then ret 0 else
  ret (P2V (PTE_ADDR w)).

(** copyout, the source given as the bytes of [p]. *)
Fixpoint copyout_loop (n : nat) (pgdir va : Z) (buf : list Z) : M pmem Z :=
  match n with
  | O => λ _, Fuel
  | S n' =>
      if bool_decide (buf = []) then ret 0 else
      let va0 := PGROUNDDOWN va in
      pa0 <- uva2ka pgdir va0;
      if pa0 =? 0 then ret (-1) else
      let k := Nat.min (Z.to_nat (PGSIZE - (va - va0))) (length buf) in
      set_mem (λ m, store_bytes m (pa0 + (va - va0)) (take k buf));;
      copyout_loop n' pgdir (u32 (va0 + PGSIZE)) (drop k buf)
  end.

Definition copyout (pgdir va : Z) (buf : list Z) : M pmem Z :=
  copyout_loop (S (S (length buf))) pgdir va buf.

(** ** The kernel's accesses to user addresses

    The kernel runs on the current process's page table: [*va] for a user address
    is the byte its page table maps there.  CR0_WP is set, so a store needs PTE_W.
    A missing translation faults in kernel mode, which [trap] answers by
    [panic("trap")]. *)
Definition uaddr (pgdir va : Z) (store : bool) : M pmem Z :=
  pte <- walkpgdir pgdir va false;
  if pte =? 0 then panic "trap" else
  w <- load32 pte;
  if negb (has w PTE_P) || (store && negb (has w PTE_W)) then panic "trap" else
  ret (P2V (PTE_ADDR w) + va `mod` PGSIZE).

Definition uload (pgdir va : Z) : M pmem Z :=
  a <- uaddr pgdir va false; gets (λ s, pm_mem s a).

Definition ustore (pgdir va v : Z) : M pmem unit :=
  a <- uaddr pgdir va true; set_mem (λ m, st8 m a v).

(** A 32-bit load at a user address. *)
Definition uload32 (pgdir va : Z) : M pmem Z :=
  b0 <- uload pgdir va;
  b1 <- uload pgdir (u32 (va + 1));
  b2 <- uload pgdir (u32 (va + 2));
  b3 <- uload pgdir (u32 (va + 3));
  ret (b0 + 2 ^ 8 * b1 + 2 ^ 16 * b2 + 2 ^ 24 * b3).

Definition ustore32 (pgdir va v : Z) : M pmem unit :=
  ustore pgdir va v;;
  ustore pgdir (u32 (va + 1)) (v `div` 2 ^ 8);;
  ustore pgdir (u32 (va + 2)) (v `div` 2 ^ 16);;
  ustore pgdir (u32 (va + 3)) (v `div` 2 ^ 24).

Fixpoint ustore_bytes (pgdir va : Z) (bs : list Z) : M pmem unit :=
  match bs with
  | [] => ret tt
  | c :: bs => ustore pgdir va c;; ustore_bytes pgdir (u32 (va + 1)) bs
  end.

(** The NUL-terminated string at a user address, of less than [n] bytes. *)
Fixpoint ucstr (n : nat) (pgdir va : Z) : M pmem (list Z) :=
  match n with
  | O => λ _, Fuel
  | S n =>
      c <- uload pgdir va;
      if c =? 0 then ret [] else cs <- ucstr n pgdir (u32 (va + 1)); ret (c :: cs)
  end.

End vm.
