(* ===== verification/PageTable.v ===== *)
(** * What vm.c does to address spaces

    [xlate] is the two-level walk the processor makes.  [aspace s l pgdir] says that
    the page directory and its page tables are distinct pages, none of them on the
    free list [l].  Under it walkpgdir adds a page table without changing any
    translation, and mappages, allocuvm and deallocuvm change exactly the
    translations of their range. *)
From S2P Require Import Prelude Mem Mmu Kalloc Vm.

(** ** Page table entries *)

Lemma has_lor_P w : has (Z.lor w PTE_P) PTE_P = true.
Proof.
  unfold has, PTE_P. apply negb_true_iff, Z.eqb_neq. rewrite Z.land_lor_distr_l.
  intros [_ ?]%Z.lor_eq_0_iff. done.
Qed.

Lemma lor_flags_range f g : 0 ≤ f < 4096 → 0 ≤ g < 4096 → 0 ≤ Z.lor f g < 4096.
Proof.
  intros. split; [apply Z.lor_nonneg; lia|].
  destruct (decide (Z.lor f g = 0)); [lia|].
  apply (Z.log2_lt_pow2 _ 12); [pose proof (Z.lor_nonneg f g); lia|].
  rewrite Z.log2_lor by lia. apply Z.max_lub_lt.
  - destruct (decide (f = 0)) as [->|]; [done|]. apply Z.log2_lt_pow2; lia.
  - destruct (decide (g = 0)) as [->|]; [done|]. apply Z.log2_lt_pow2; lia.
Qed.

Section word.
  Context (pa f : Z) (Hpa : pa `mod` 4096 = 0) (Hr : 0 ≤ pa < 2 ^ 32) (Hf : 0 ≤ f < 4096).

Lemma pte_range : 0 ≤ Z.lor pa f < 2 ^ 32.
Proof. rewrite lor_page_flags by done. Z.to_euclidean_division_equations. lia. Qed.

Lemma pte_addr : PTE_ADDR (Z.lor pa f) = pa.
Proof.
  rewrite PTE_ADDR_eq by apply pte_range. rewrite lor_page_flags by done.
  Z.to_euclidean_division_equations. lia.
Qed.

Lemma pte_flags : PTE_FLAGS (Z.lor pa f) = f.
Proof.
  rewrite PTE_FLAGS_eq, lor_page_flags by done. Z.to_euclidean_division_equations. lia.
Qed.
End word.

Lemma PDX_range va : 0 ≤ va < 2 ^ 32 → 0 ≤ PDX va < 1024.
Proof.
  intros. rewrite PDX_eq by done. change (2 ^ 22) with 4194304.
  Z.to_euclidean_division_equations. lia.
Qed.

Lemma PTX_range va : 0 ≤ PTX va < 1024.
Proof. rewrite PTX_eq. apply Z.mod_pos_bound. lia. Qed.

(** Two addresses have the same indices exactly when they are in the same page. *)
Lemma same_page va va' :
  0 ≤ va < 2 ^ 32 → 0 ≤ va' < 2 ^ 32 →
  (PDX va = PDX va' ∧ PTX va = PTX va') ↔ va `div` 4096 = va' `div` 4096.
Proof.
  intros. rewrite !PDX_eq, !PTX_eq by done.
  change (2 ^ 22) with 4194304. change (2 ^ 12) with 4096. change (2 ^ 10) with 1024.
  split; intros; Z.to_euclidean_division_equations; lia.
Qed.

(** ** Translation *)

(** The page table that entry [i] of the directory points to. *)
Definition tab (m : mem) (pgdir i : Z) : option Z :=
  let w := ld32 m (pgdir + 4 * i) in
  if has w PTE_P then Some (P2V (PTE_ADDR w)) else None.

(** The page table entry that translates [va], when it is present. *)
Definition xlate (m : mem) (pgdir va : Z) : option Z :=
  match tab m pgdir (PDX va) with
  | None => None
  | Some t => let e := ld32 m (t + 4 * PTX va) in if has e PTE_P then Some e else None
  end.

(** The pages of the directory and its tables. *)
Definition own (m : mem) (pgdir p : Z) : Prop :=
  p = pgdir ∨ ∃ i, 0 ≤ i < 1024 ∧ tab m pgdir i = Some p.

(** The two memories agree outside the pages that satisfy [P]. *)
Definition frame (P : Z → Prop) (m m' : mem) : Prop :=
  ∀ x, (∀ p, P p → ¬ (p ≤ x < p + 4096)) → m' x = m x.

Section pagetable.
  Context `{LinkerOk}.

Record aspace (s : pmem) (l : list Z) (pgdir : Z) : Prop := {
  as_free : free_pages s l;
  as_own : ∀ p, own (pm_mem s) pgdir p → page_ok p ∧ p ∉ l;
  as_pgdir : ∀ i, 0 ≤ i < 1024 → tab (pm_mem s) pgdir i ≠ Some pgdir;
  as_inj : ∀ i j t, 0 ≤ i < 1024 → 0 ≤ j < 1024 →
    tab (pm_mem s) pgdir i = Some t → tab (pm_mem s) pgdir j = Some t → i = j;
}.

Definition with_mem (s : pmem) (m : mem) : pmem :=
  Pm m (pm_locked s) (pm_use_lock s) (pm_freelist s).

Lemma frame_word (P : Z → Prop) m m' p a :
  frame P m m' → (∀ q, P q → page_ok q) → page_ok p → ¬ P p → p ≤ a → a + 4 ≤ p + 4096 →
  ld32 m' a = ld32 m a.
Proof.
  intros Hf HP Hp Hn ??. symmetry. apply ld32_ext. intros i Hi. symmetry. apply Hf. intros q Hq.
  destruct (page_ok_disjoint p q) as [?|?]; [done|by apply HP|by intros ->|lia|lia].
Qed.

Lemma frame_mono (P Q : Z → Prop) m m' : (∀ p, P p → Q p) → frame P m m' → frame Q m m'.
Proof. intros HPQ Hf x Hx. apply Hf. eauto. Qed.

Lemma frame_trans P m1 m2 m3 : frame P m1 m2 → frame P m2 m3 → frame P m1 m3.
Proof. intros H1 H2 x Hx. rewrite H2, H1 by done. done. Qed.

Lemma frame_refl P m : frame P m m.
Proof. by intros x ?. Qed.

(** A change outside the directory and its tables keeps the address space. *)
Lemma own_frame (P : Z → Prop) m m' pgdir :
  frame P m m' → (∀ q, P q → page_ok q) → (∀ p, own m pgdir p → page_ok p ∧ ¬ P p) →
  (∀ i, 0 ≤ i < 1024 → tab m' pgdir i = tab m pgdir i) ∧
  (∀ va, 0 ≤ va < 2 ^ 32 → xlate m' pgdir va = xlate m pgdir va).
Proof.
  intros Hf HP Ho.
  assert (∀ i, 0 ≤ i < 1024 → tab m' pgdir i = tab m pgdir i) as Ht.
  { intros i Hi. unfold tab. destruct (Ho pgdir) as [??]; [by left|].
    by rewrite (frame_word P m m' pgdir) by (done || lia). }
  split; [done|]. intros va Hva. unfold xlate. pose proof (PDX_range va Hva).
  rewrite Ht by done. destruct (tab m pgdir (PDX va)) as [t|] eqn:E; [|done].
  destruct (Ho t) as [??]; [right; eauto|]. pose proof (PTX_range va).
  by rewrite (frame_word P m m' t) by (done || lia).
Qed.

Lemma own_ext m m' pgdir p :
  (∀ i, 0 ≤ i < 1024 → tab m' pgdir i = tab m pgdir i) → own m' pgdir p ↔ own m pgdir p.
Proof.
  intros Ht. unfold own. split; (intros [->|(i & ? & Hi)]; [by left|right; exists i]).
  - by rewrite <-Ht by done.
  - by rewrite Ht by done.
Qed.

Lemma aspace_ext s l pgdir s' l' :
  aspace s l pgdir → free_pages s' l' →
  (∀ i, 0 ≤ i < 1024 → tab (pm_mem s') pgdir i = tab (pm_mem s) pgdir i) →
  (∀ p, own (pm_mem s) pgdir p → p ∉ l') → aspace s' l' pgdir.
Proof.
  intros [] Hfp Ht Hl. split; [done|..].
  - intros p Hp. rewrite own_ext in Hp by done. split; [by apply as_own0|by apply Hl].
  - intros i Hi. rewrite Ht by done. by apply as_pgdir0.
  - intros i j t Hi Hj. rewrite !Ht by done. by apply as_inj0.
Qed.

(** ** walkpgdir *)

Lemma walkpgdir_find s pgdir va :
  walkpgdir pgdir va false s =
  Ok (match tab (pm_mem s) pgdir (PDX va) with Some t => t + 4 * PTX va | None => 0 end) s.
Proof.
  unfold walkpgdir, tab, bind, load32, gets. simpl. by destruct (has _ PTE_P).
Qed.

Lemma walkpgdir_found s pgdir va b t :
  tab (pm_mem s) pgdir (PDX va) = Some t → walkpgdir pgdir va b s = Ok (t + 4 * PTX va) s.
Proof.
  unfold walkpgdir, tab, bind, load32, gets. simpl. destruct (has _ PTE_P); naive_solver.
Qed.

Lemma same_but_page_trans v m1 m2 m3 :
  same_but_page v m1 m2 → same_but_page v m2 m3 → same_but_page v m1 m3.
Proof. intros H1 H2 x Hx. by rewrite H2, H1. Qed.

Lemma st32_in_page m v a w : v ≤ a → a + 4 ≤ v + 4096 → same_but_page v m (st32 m a w).
Proof. intros ?? x Hx. apply st32_out. lia. Qed.

Lemma memset_page m v c : same_but_page v m (memset m v c 4096).
Proof. intros x Hx. rewrite memset_spec, decide_False by lia. done. Qed.

Lemma same_but_page_frame (P : Z → Prop) v m m' : P v → same_but_page v m m' → frame P m m'.
Proof. intros HP Hs x Hx. apply Hs. auto. Qed.

(** The word walkpgdir stores in the directory. *)
Lemma pde_word t :
  page_ok t →
  let w := Z.lor (Z.lor (Z.lor (V2P t) PTE_P) PTE_W) PTE_U in
  0 ≤ w < 2 ^ 32 ∧ has w PTE_P = true ∧ P2V (PTE_ADDR w) = t.
Proof.
  intros Ht w. pose proof (V2P_page t Ht) as HV. pose proof (page_ok_range t Ht).
  destruct Ht as [Hal ?]. assert (V2P t `mod` 4096 = 0).
  { rewrite HV. unfold KERNBASE. Z.to_euclidean_division_equations. lia. }
  assert (0 ≤ V2P t < 2 ^ 32) by (rewrite HV; unfold KERNBASE, PHYSTOP in *; lia).
  assert (w = Z.lor (V2P t) 7) as -> by (unfold w; by rewrite <-!Z.lor_assoc).
  split; [by apply pte_range|]. split.
  - change 7 with (Z.lor 6 PTE_P). rewrite Z.lor_assoc. apply has_lor_P.
  - rewrite pte_addr by done. apply P2V_V2P. split; [done|lia].
Qed.

(** The state after walkpgdir has added page table [t] for [va]. *)
Definition add_tab (m : mem) (pgdir va t : Z) : mem :=
  st32 (memset m t 0 4096) (pgdir + 4 * PDX va)
    (Z.lor (Z.lor (Z.lor (V2P t) PTE_P) PTE_W) PTE_U).

Section add_tab.
  Context (s : pmem) (l : list Z) (pgdir va t : Z).
  Context (Has : aspace s (t :: l) pgdir) (Hva : 0 ≤ va < 2 ^ 32).
  Context (Hnone : tab (pm_mem s) pgdir (PDX va) = None).

Lemma add_tab_ok : page_ok t ∧ page_ok pgdir ∧ pgdir ≠ t.
Proof.
  pose proof (fp_ok _ _ (as_free _ _ _ Has)) as [? _]%Forall_cons_1.
  destruct (as_own _ _ _ Has pgdir) as [? Hn]; [by left|]. set_solver.
Qed.

Lemma add_tab_frame : frame (λ p, p = pgdir ∨ p = t) (pm_mem s) (add_tab (pm_mem s) pgdir va t).
Proof.
  pose proof (PDX_range va Hva). eapply frame_trans.
  - apply (same_but_page_frame _ t); [by right|apply memset_page].
  - apply (same_but_page_frame _ pgdir); [by left|apply st32_in_page; lia].
Qed.

Lemma add_tab_tab i :
  0 ≤ i < 1024 →
  tab (add_tab (pm_mem s) pgdir va t) pgdir i =
  if decide (i = PDX va) then Some t else tab (pm_mem s) pgdir i.
Proof.
  intros Hi. destruct add_tab_ok as (Ht & Hp & Hne). pose proof (PDX_range va Hva).
  destruct (pde_word t Ht) as (? & Hw & Ha). unfold add_tab, tab. case_decide; subst.
  - rewrite ld32_st32_eq, u32_small, Hw by done. congruence.
  - rewrite ld32_st32_ne by lia.
    by rewrite (frame_word (λ p, p = t) (pm_mem s) _ pgdir)
      by (done || lia || (by intros ? ->) || apply (same_but_page_frame _ t), memset_page; done).
Qed.

Lemma add_tab_word q a :
  page_ok q → q ≠ pgdir → q ≠ t → q ≤ a → a + 4 ≤ q + 4096 →
  ld32 (add_tab (pm_mem s) pgdir va t) a = ld32 (pm_mem s) a.
Proof.
  intros. destruct add_tab_ok as (Ht & Hp & Hne).
  apply (frame_word _ _ _ q _ add_tab_frame); naive_solver.
Qed.

Lemma add_tab_zero a :
  t ≤ a → a + 4 ≤ t + 4096 → ld32 (add_tab (pm_mem s) pgdir va t) a = 0.
Proof.
  intros. destruct add_tab_ok as (Ht & Hp & Hne). pose proof (PDX_range va Hva).
  unfold add_tab. rewrite ld32_st32_ne by (destruct (page_ok_disjoint t pgdir); auto; lia).
  unfold ld32. rewrite !memset_spec, !decide_True by lia. done.
Qed.

Lemma add_tab_xlate va' :
  0 ≤ va' < 2 ^ 32 →
  xlate (add_tab (pm_mem s) pgdir va t) pgdir va' = xlate (pm_mem s) pgdir va'.
Proof.
  intros Hva'. unfold xlate. pose proof (PDX_range va' Hva'). pose proof (PTX_range va').
  rewrite add_tab_tab by done. case_decide as E.
  - rewrite E, Hnone. by rewrite add_tab_zero by lia.
  - destruct (tab (pm_mem s) pgdir (PDX va')) as [t'|] eqn:E'; [|done].
    destruct (as_own _ _ _ Has t') as [? Hn]; [right; eauto|].
    rewrite (add_tab_word t'); [done|done| |set_solver|lia..].
    intros ->. by apply (as_pgdir _ _ _ Has (PDX va')).
Qed.

Lemma add_tab_aspace s1 :
  free_pages s1 l → pm_mem s1 = pm_mem s →
  aspace (with_mem s1 (add_tab (pm_mem s) pgdir va t)) l pgdir.
Proof.
  intros Hfp Hm. destruct add_tab_ok as (Ht & Hp & Hne). pose proof (PDX_range va Hva).
  pose proof (fp_nodup _ _ (as_free _ _ _ Has)) as [Htl _]%list.NoDup_cons.
  assert (pgdir ∉ l) as Hpl by (destruct (as_own _ _ _ Has pgdir); [by left|set_solver]).
  split.
  - unfold add_tab. rewrite <-Hm.
    apply (free_pages_frame (with_mem s1 (memset (pm_mem s1) t 0 4096)) l pgdir); try done.
    + apply (free_pages_frame s1 l t); [done..|apply memset_ok; [apply Hfp|lia]|apply memset_page].
    + apply st32_ok, memset_ok; [apply Hfp|lia].
    + apply st32_in_page; lia.
  - simpl. intros p [->|(i & Hi & Hti)]; [done|]. rewrite add_tab_tab in Hti by done.
    case_decide; simplify_eq; [done|].
    destruct (as_own _ _ _ Has p); [right; eauto|set_solver].
  - simpl. intros i Hi. rewrite add_tab_tab by done. case_decide; [congruence|].
    by apply (as_pgdir _ _ _ Has).
  - simpl. intros i j t' Hi Hj. rewrite !add_tab_tab by done.
    assert (∀ k, 0 ≤ k < 1024 → tab (pm_mem s) pgdir k ≠ Some t) as Hk.
    { intros k Hk Hkt. destruct (as_own _ _ _ Has t); [right; eauto|set_solver]. }
    repeat case_decide; intros; simplify_eq; try done;
      try (exfalso; eapply Hk; [|eassumption]; done).
    eapply (as_inj _ _ _ Has); eauto.
Qed.
End add_tab.

(** walkpgdir with [alloc] either finds the table, or takes one page off the free
    list for it, or there is none; no translation changes. *)
Lemma walkpgdir_alloc s l pgdir va :
  aspace s l pgdir → 0 ≤ va < 2 ^ 32 →
  (l = [] ∧ walkpgdir pgdir va true s = Ok 0 s) ∨
  ∃ t s' l', walkpgdir pgdir va true s = Ok (t + 4 * PTX va) s' ∧ aspace s' l' pgdir ∧
    tab (pm_mem s') pgdir (PDX va) = Some t ∧
    (∀ i, 0 ≤ i < 1024 → i ≠ PDX va → tab (pm_mem s') pgdir i = tab (pm_mem s) pgdir i) ∧
    (∀ va', 0 ≤ va' < 2 ^ 32 → xlate (pm_mem s') pgdir va' = xlate (pm_mem s) pgdir va') ∧
    frame (λ p, p = pgdir ∨ p ∈ l ∧ p ∉ l') (pm_mem s) (pm_mem s') ∧
    (l' = l ∧ tab (pm_mem s) pgdir (PDX va) = Some t ∨
     l = t :: l' ∧ tab (pm_mem s) pgdir (PDX va) = None).
Proof.
  intros Has Hva. destruct (tab (pm_mem s) pgdir (PDX va)) as [t|] eqn:Ht.
  { right. exists t, s, l. rewrite (walkpgdir_found s pgdir va true t) by done.
    split_and!; try done. by left. }
  destruct l as [|t l].
  { left. split; [done|]. unfold walkpgdir, tab, bind, load32, gets in *. simpl.
    destruct (has _ PTE_P); [done|]. simpl. rewrite kalloc_empty by apply Has. done. }
  right. destruct (kalloc_spec s t l) as (s1 & Hk & Hfp & _ & Hm); [apply Has|].
  pose proof (fp_ok _ _ (as_free _ _ _ Has)) as [Hok _]%Forall_cons_1.
  exists t, (with_mem s1 (add_tab (pm_mem s) pgdir va t)), l. split; [|split; [|split; [|split; [|split]]]].
  - unfold walkpgdir, tab, bind, load32, gets in *. simpl.
    destruct (has _ PTE_P); [done|]. simpl. rewrite Hk. simpl.
    apply page_ok_nz, Z.eqb_neq in Hok. rewrite Hok. simpl. unfold bind, add_tab. by rewrite Hm.
  - by apply add_tab_aspace.
  - simpl. rewrite (add_tab_tab s l) by (done || by apply PDX_range). by rewrite decide_True.
  - simpl. intros i Hi Hne. rewrite (add_tab_tab s l) by done. by rewrite decide_False.
  - simpl. intros. by rewrite (add_tab_xlate s l).
  - simpl. split; [|auto]. eapply frame_mono; [|by eapply add_tab_frame].
    pose proof (fp_nodup _ _ (as_free _ _ _ Has)) as [Htl _]%list.NoDup_cons.
    simpl. intros p [->| ->]; [by left|right; set_solver].
Qed.

(** ** Writing one entry *)

Section store_pte.
  Context (s : pmem) (l : list Z) (pgdir va t w : Z).
  Context (Has : aspace s l pgdir) (Hva : 0 ≤ va < 2 ^ 32) (Hw : 0 ≤ w < 2 ^ 32).
  Context (Ht : tab (pm_mem s) pgdir (PDX va) = Some t).
Let m' := st32 (pm_mem s) (t + 4 * PTX va) w.

Lemma store_pte_page : page_ok t ∧ (t ∉ l) ∧ t ≠ pgdir ∧ page_ok pgdir.
Proof.
  pose proof (PDX_range va Hva). destruct (as_own _ _ _ Has t) as [Hok Hl]; [right; eauto|].
  destruct (as_own _ _ _ Has pgdir) as [Hp _]; [by left|].
  split; [done|split; [done|split; [|done]]]. intros ->. by apply (as_pgdir _ _ _ Has (PDX va)).
Qed.

Lemma store_pte_same : same_but_page t (pm_mem s) m'.
Proof. pose proof (PTX_range va). apply st32_in_page; lia. Qed.

Lemma store_pte_tab i : 0 ≤ i < 1024 → tab m' pgdir i = tab (pm_mem s) pgdir i.
Proof.
  intros Hi. destruct store_pte_page as (? & ? & ? & ?). unfold tab.
  by rewrite (same_but_page_ld32 t (pm_mem s) m') by
    (apply store_pte_same || destruct (page_ok_disjoint t pgdir); auto; lia).
Qed.

Lemma store_pte_aspace : aspace (with_mem s m') l pgdir.
Proof.
  destruct store_pte_page as (? & ? & ? & ?). eapply aspace_ext; [done| |apply store_pte_tab|].
  - apply (free_pages_frame s l t); [apply Has|done|done| |apply store_pte_same].
    apply st32_ok, (as_free _ _ _ Has).
  - intros p Hp. by apply (as_own _ _ _ Has).
Qed.

Lemma store_pte_xlate va' :
  0 ≤ va' < 2 ^ 32 →
  xlate m' pgdir va' =
  if decide (va' `div` 4096 = va `div` 4096) then (if has w PTE_P then Some w else None)
  else xlate (pm_mem s) pgdir va'.
Proof.
  intros Hva'. unfold xlate. pose proof (PDX_range va' Hva'). pose proof (PTX_range va').
  pose proof (PTX_range va). rewrite store_pte_tab by done.
  destruct store_pte_page as (Hok & _).
  case_decide as E.
  - apply same_page in E as [-> ->]; [|done..]. rewrite Ht. unfold m'.
    by rewrite ld32_st32_eq, u32_small by done.
  - destruct (tab (pm_mem s) pgdir (PDX va')) as [t'|] eqn:Ht'; [|done].
    destruct (as_own _ _ _ Has t') as [Hok' _]; [right; eauto|].
    unfold m'. rewrite ld32_st32_ne; [done|].
    destruct (decide (t' = t)) as [->|].
    + assert (PDX va' = PDX va) by (eapply (as_inj _ _ _ Has); eauto using PDX_range).
      destruct (decide (PTX va' = PTX va)); [|lia]. destruct E. by apply same_page.
    + destruct (page_ok_disjoint t t'); auto; lia.
Qed.
End store_pte.

(** The word mappages stores for a page. *)
Definition mk_pte (pa perm : Z) : Z := Z.lor (Z.lor pa perm) PTE_P.

Lemma mk_pte_spec pa perm :
  pa `mod` 4096 = 0 → 0 ≤ pa < 2 ^ 32 → 0 ≤ perm < 4096 →
  0 ≤ mk_pte pa perm < 2 ^ 32 ∧ has (mk_pte pa perm) PTE_P = true ∧
  PTE_ADDR (mk_pte pa perm) = pa ∧ PTE_FLAGS (mk_pte pa perm) = Z.lor perm PTE_P.
Proof.
  intros. split; [|split; [apply has_lor_P|split]]; unfold mk_pte; rewrite <-Z.lor_assoc;
    [apply pte_range|apply pte_addr|apply pte_flags]; try done; by apply lor_flags_range.
Qed.

(** The address space gains the tables [ts], taken off the free list. *)
Record grows (s : pmem) (l : list Z) (s' : pmem) (l' : list Z) (pgdir : Z) : Prop := {
  gr_aspace : aspace s' l' pgdir;
  gr_tabs : ∃ ts, l = ts ++ l' ∧ ∀ p, own (pm_mem s') pgdir p ↔ own (pm_mem s) pgdir p ∨ p ∈ ts;
  gr_frame : frame (λ p, own (pm_mem s') pgdir p) (pm_mem s) (pm_mem s');
}.

Lemma grows_trans s1 l1 s2 l2 s3 l3 pgdir :
  grows s1 l1 s2 l2 pgdir → grows s2 l2 s3 l3 pgdir → grows s1 l1 s3 l3 pgdir.
Proof.
  intros [_ (ts & -> & Ho) Hf] [Ha (ts' & -> & Ho') Hf']. split; [done|..].
  - exists (ts ++ ts'). split; [by rewrite <-app_assoc|]. intros p.
    rewrite Ho', Ho, elem_of_app. tauto.
  - eapply frame_trans; [|done]. eapply frame_mono; [|done]. simpl. intros p Hp.
    rewrite Ho'. by left.
Qed.

Lemma grows_refl s l pgdir : aspace s l pgdir → grows s l s l pgdir.
Proof.
  intros. split; [done| |by intros x ?]. exists []. split; [done|]. set_solver.
Qed.

Lemma walkpgdir_grows s l pgdir va :
  aspace s l pgdir → 0 ≤ va < 2 ^ 32 →
  (l = [] ∧ walkpgdir pgdir va true s = Ok 0 s) ∨
  ∃ t s' l', walkpgdir pgdir va true s = Ok (t + 4 * PTX va) s' ∧ grows s l s' l' pgdir ∧
    (length l ≤ S (length l'))%nat ∧ tab (pm_mem s') pgdir (PDX va) = Some t ∧
    (∀ va', 0 ≤ va' < 2 ^ 32 → xlate (pm_mem s') pgdir va' = xlate (pm_mem s) pgdir va').
Proof.
  intros Has Hva. pose proof (PDX_range va Hva) as Hd.
  destruct (walkpgdir_alloc s l pgdir va Has Hva)
    as [?|(t & s' & l' & Hw & Has' & Ht & Hti & Hx & Hf & Hl)]; [by left|].
  right. exists t, s', l'. split; [done|].
  split; [|split; [destruct Hl as [[-> _]|[-> _]]; simpl; lia|done]].
  assert (own (pm_mem s') pgdir t) as Hot by (right; eauto).
  assert (∀ p, own (pm_mem s') pgdir p ↔ own (pm_mem s) pgdir p ∨ p = t) as Ho.
  { intros p. split.
    - intros [->|(i & Hi & Hp)]; [left; by left|]. destruct (decide (i = PDX va)) as [->|].
      + right. congruence.
      + left. right. exists i. by rewrite <-Hti by done.
    - intros [[->|(i & Hi & Hp)]| ->]; [by left| |done].
      destruct (decide (i = PDX va)) as [->|]; [|right; exists i; by rewrite Hti by done].
      destruct Hl as [[_ Hl]|[_ Hl]]; congruence. }
  destruct Hl as [[-> Hs]|[-> Hs]].
  - split; [done| |].
    + exists []. split; [done|]. intros p. rewrite Ho. split; [|set_solver].
      intros [?| ->]; [by left|left; right; eauto].
    + eapply frame_mono; [|done]. simpl. intros p [->|[??]]; [by left|done].
  - split; [done| |].
    + exists [t]. split; [done|]. intros p. rewrite Ho. set_solver.
    + eapply frame_mono; [|done]. simpl. intros p [->|[??]]; [by left|].
      assert (p = t) as -> by set_solver. done.
Qed.

(** One round of mappages. *)
Lemma map_round s l pgdir va t w :
  aspace s l pgdir → 0 ≤ va < 2 ^ 32 → 0 ≤ w < 2 ^ 32 →
  tab (pm_mem s) pgdir (PDX va) = Some t →
  grows s l (with_mem s (st32 (pm_mem s) (t + 4 * PTX va) w)) l pgdir.
Proof.
  intros Has Hva Hw Ht. pose proof (PDX_range va Hva).
  assert (∀ p, own (st32 (pm_mem s) (t + 4 * PTX va) w) pgdir p ↔ own (pm_mem s) pgdir p) as Ho.
  { intros p. apply own_ext. intros. by eapply store_pte_tab. }
  split; [by eapply store_pte_aspace| |].
  - exists []. split; [done|]. simpl. intros p. rewrite Ho. set_solver.
  - simpl. eapply same_but_page_frame; [|eapply store_pte_same]. apply Ho. right. eauto.
Qed.

(** The present entries of [m'] are those of [m] but for [n] pages from [a], which
    are mapped to the pages from [pa]. *)
Definition mapped (m m' : mem) (pgdir a : Z) (n : nat) (pa perm : Z) : Prop :=
  ∀ va, 0 ≤ va < 2 ^ 32 → xlate m' pgdir va =
    if decide (a ≤ va < a + 4096 * Z.of_nat n)
    then Some (mk_pte (pa + (va - a) `div` 4096 * 4096) perm) else xlate m pgdir va.

(** The first page of a range is mapped and the others are to follow. *)
Lemma mapped_cons m m1 m2 pgdir a n pa perm :
  mapped m m1 pgdir a 1 pa perm → mapped m1 m2 pgdir (a + 4096) n (pa + 4096) perm →
  mapped m m2 pgdir a (S n) pa perm.
Proof.
  intros H1 H2 va Hva. rewrite H2 by done. repeat case_decide; try lia.
  - do 2 f_equal. Z.to_euclidean_division_equations. lia.
  - rewrite H1 by done. by rewrite decide_True by lia.
  - rewrite H1 by done. by rewrite decide_False by lia.
Qed.

Lemma mapped_nil m pgdir a pa perm : mapped m m pgdir a 0 pa perm.
Proof. intros va Hva. by rewrite decide_False by lia. Qed.

Lemma tab_page s l pgdir i t : aspace s l pgdir → 0 ≤ i < 1024 → tab (pm_mem s) pgdir i = Some t → page_ok t.
Proof. intros Has Hi Ht. apply (as_own _ _ _ Has). right. eauto. Qed.

(** One round of mappages: out of memory, or the page at [a] is mapped to [pa]. *)
Lemma mappages_round s l pgdir a pa perm :
  aspace s l pgdir → 0 ≤ a < 2 ^ 32 → a `mod` 4096 = 0 → 0 ≤ pa < 2 ^ 32 → pa `mod` 4096 = 0 →
  0 ≤ perm < 4096 → xlate (pm_mem s) pgdir a = None →
  (l = [] ∧ walkpgdir pgdir a true s = Ok 0 s) ∨
  ∃ pte s1 l1, walkpgdir pgdir a true s = Ok pte s1 ∧ (pte =? 0) = false ∧
    has (ld32 (pm_mem s1) pte) PTE_P = false ∧
    let s2 := with_mem s1 (st32 (pm_mem s1) pte (mk_pte pa perm)) in
    grows s l s2 l1 pgdir ∧ (length l ≤ S (length l1))%nat ∧
    mapped (pm_mem s) (pm_mem s2) pgdir a 1 pa perm.
Proof.
  intros Has Ha Hal Hpa Hpal Hperm Hn.
  destruct (walkpgdir_grows s l pgdir a Has Ha) as [?|(t & s1 & l1 & Hw & Hg1 & Hlen & Ht & Hx1)]; [by left|].
  right. exists (t + 4 * PTX a), s1, l1. pose proof (gr_aspace _ _ _ _ _ Hg1) as Has1.
  destruct (mk_pte_spec pa perm) as (Hwr & HP & _); [done..|].
  split; [done|]. split; [|split].
  - apply Z.eqb_neq. pose proof (PTX_range a).
    pose proof (tab_page _ _ _ _ _ Has1 (PDX_range a Ha) Ht) as Hok%page_ok_range.
    unfold KERNBASE in *. lia.
  - rewrite <-Hx1 in Hn by done. unfold xlate in Hn. rewrite Ht in Hn.
    by destruct (has (ld32 (pm_mem s1) (t + 4 * PTX a)) PTE_P).
  - split; [eapply grows_trans; [done|by apply map_round]|split; [done|]].
    intros va Hva. simpl. rewrite (store_pte_xlate s1 l1) by done. rewrite HP, Hx1 by done.
    repeat case_decide; try done; [do 2 f_equal|..]; Z.to_euclidean_division_equations; lia.
Qed.

Lemma mappages_loop_round n pgdir a last pa perm s pte s1 :
  walkpgdir pgdir a true s = Ok pte s1 → (pte =? 0) = false →
  has (ld32 (pm_mem s1) pte) PTE_P = false →
  mappages_loop (S n) pgdir a last pa perm s =
  (if a =? last then ret 0
   else mappages_loop n pgdir (u32 (a + 4096)) last (u32 (pa + 4096)) perm)
    (with_mem s1 (st32 (pm_mem s1) pte (mk_pte pa perm))).
Proof.
  intros Hw Hnz Hnp. cbn [mappages_loop]. unfold bind, load32, gets. rewrite Hw. simpl.
  rewrite Hnz. simpl. by rewrite Hnp.
Qed.

Lemma mappages_loop_spec n s l pgdir a pa perm :
  aspace s l pgdir → a `mod` 4096 = 0 → 0 ≤ a → a + 4096 * Z.of_nat (S n) ≤ 2 ^ 32 →
  pa `mod` 4096 = 0 → 0 ≤ pa → pa + 4096 * Z.of_nat (S n) ≤ 2 ^ 32 → 0 ≤ perm < 4096 →
  (∀ va, a ≤ va < a + 4096 * Z.of_nat (S n) → xlate (pm_mem s) pgdir va = None) →
  ∃ r j s' l', mappages_loop (S n) pgdir a (a + 4096 * Z.of_nat n) pa perm s = Ok r s' ∧
    grows s l s' l' pgdir ∧ mapped (pm_mem s) (pm_mem s') pgdir a j pa perm ∧
    (r = 0 ∧ j = S n ∧ (length l ≤ length l' + S n)%nat ∨ r = -1 ∧ (j ≤ n)%nat ∧ (length l ≤ n)%nat).
Proof.
  revert s l a pa. induction n as [|n IH]; intros s l a pa Has Hal Ha Hhi Hpal Hpa Hphi Hperm Hnone;
    (destruct (mappages_round s l pgdir a pa perm)
      as [[-> Hw]|(pte & s1 & l1 & Hw & Hnz & Hnp & Hg & Hlen & Hm)]; try done; try lia; [apply Hnone; lia|..];
     [exists (-1), O, s, []; split; [by cbn [mappages_loop]; unfold bind; rewrite Hw|];
      split; [by apply grows_refl|split; [apply mapped_nil|right; split_and!; [done|simpl; lia..]]]|]);
    rewrite (mappages_loop_round _ _ _ _ _ _ _ _ _ Hw Hnz Hnp); set (s2 := with_mem s1 _) in *.
  - exists 0, 1%nat, s2, l1. rewrite Z.mul_0_r, Z.add_0_r, Z.eqb_refl.
    split; [done|]. split; [done|]. split; [done|left; split_and!; [done|done|lia]].
  - rewrite (proj2 (Z.eqb_neq _ _)) by lia. rewrite !u32_small by lia.
    destruct (IH s2 l1 (a + 4096) (pa + 4096)) as (r & j & s' & l' & Hr & Hg' & Hm' & Hj);
      [apply Hg|Z.to_euclidean_division_equations; lia|lia|lia
      |Z.to_euclidean_division_equations; lia|lia|lia|done| |].
    { intros va Hva. rewrite Hm, decide_False by lia. apply Hnone. lia. }
    exists r, (S j), s', l'. split.
    { replace (a + 4096 + 4096 * Z.of_nat n) with (a + 4096 * Z.of_nat (S n)) in Hr by lia.
      exact Hr. }
    split; [by eapply grows_trans|]. split; [by eapply mapped_cons|].
    destruct Hj as [(-> & -> & ?)|(-> & ? & ?)]; [left|right]; split_and!; (done || lia).
Qed.

(** mappages maps the [n] pages that [va, va + size) meets to the [n] pages from
    [pa], all but the last ones when there are fewer than [n] free pages for page
    tables, and changes no other translation. *)
Lemma mappages_spec s l pgdir va size pa perm n :
  aspace s l pgdir → 0 ≤ va → 0 < size → va + size ≤ 2 ^ 32 →
  Z.of_nat n = (va + size - 1) `div` 4096 - va `div` 4096 + 1 →
  pa `mod` 4096 = 0 → 0 ≤ pa → pa + 4096 * Z.of_nat n ≤ 2 ^ 32 → 0 ≤ perm < 4096 →
  (∀ x, PGROUNDDOWN va ≤ x < va + size → xlate (pm_mem s) pgdir x = None) →
  ∃ r j s' l', mappages pgdir va size pa perm s = Ok r s' ∧
    grows s l s' l' pgdir ∧ mapped (pm_mem s) (pm_mem s') pgdir (PGROUNDDOWN va) j pa perm ∧
    (r = 0 ∧ j = n ∧ (length l ≤ length l' + n)%nat ∨ r = -1 ∧ (j < n)%nat ∧ (length l < n)%nat).
Proof.
  intros Has Hva Hsz Hhi Hn Hpal Hpa Hphi Hperm Hnone. unfold mappages, PGSIZE.
  rewrite (u32_small (va + size - 1)) by lia. rewrite !PGROUNDDOWN_eq in * by lia.
  set (a := va - va `mod` 4096) in *.
  destruct n as [|n]; [Z.to_euclidean_division_equations; lia|].
  replace (va + size - 1 - (va + size - 1) `mod` 4096) with (a + 4096 * Z.of_nat n)
    by (subst a; Z.to_euclidean_division_equations; lia).
  assert (a + 4096 * Z.of_nat (S n) ≤ 2 ^ 32)
    by (subst a; change (2 ^ 32) with 4294967296 in *; Z.to_euclidean_division_equations; lia).
  rewrite u32_small by lia.
  replace (Z.to_nat ((a + 4096 * Z.of_nat n - a) `div` 4096)) with n
    by (Z.to_euclidean_division_equations; lia).
  destruct (mappages_loop_spec n s l pgdir a pa perm) as (r & j & s' & l' & Hr & Hg & Hm & Hj);
    try done; try (subst a; Z.to_euclidean_division_equations; lia).
  { intros x Hx. destruct (decide (x < va + size)); [apply Hnone; lia|].
    assert (xlate (pm_mem s) pgdir x = xlate (pm_mem s) pgdir (va + size - 1)) as ->.
    { unfold xlate. assert (x `div` 4096 = (va + size - 1) `div` 4096) as E
        by (subst a; Z.to_euclidean_division_equations; lia).
      apply same_page in E as [-> ->]; [done|lia|lia]. }
    apply Hnone. subst a. Z.to_euclidean_division_equations. lia. }
  exists r, j, s', l'. split_and!; [done..|]. destruct Hj as [(-> & -> & ?)|(-> & ? & ?)]; [left|right];
    split_and!; (done || lia).
Qed.

(** C14: mappages on unmapped addresses returns.  On success exactly the pages that
    [va, va + size) meets are mapped, to consecutive pages from [pa] with the given
    permissions, and it fails only when there are fewer free pages than pages to map.
    In both cases every other translation and all memory outside the page tables is
    unchanged, and the page tables stay well formed. *)
Theorem mappages_maps s l pgdir va size pa perm n :
  aspace s l pgdir → 0 ≤ va → 0 < size → va + size ≤ 2 ^ 32 →
  Z.of_nat n = (va + size - 1) `div` 4096 - va `div` 4096 + 1 →
  pa `mod` 4096 = 0 → 0 ≤ pa → pa + 4096 * Z.of_nat n ≤ 2 ^ 32 → 0 ≤ perm < 4096 →
  (∀ x, PGROUNDDOWN va ≤ x < va + size → xlate (pm_mem s) pgdir x = None) →
  ∃ r s' l', mappages pgdir va size pa perm s = Ok r s' ∧ aspace s' l' pgdir ∧
    frame (own (pm_mem s') pgdir) (pm_mem s) (pm_mem s') ∧
    (∀ x, 0 ≤ x < 2 ^ 32 → ¬ (PGROUNDDOWN va ≤ x < PGROUNDDOWN va + 4096 * Z.of_nat n) →
       xlate (pm_mem s') pgdir x = xlate (pm_mem s) pgdir x) ∧
    (r = 0 ∧ (∀ x, PGROUNDDOWN va ≤ x < PGROUNDDOWN va + 4096 * Z.of_nat n → x < 2 ^ 32 →
       xlate (pm_mem s') pgdir x = Some (mk_pte (pa + (x - PGROUNDDOWN va) `div` 4096 * 4096) perm)) ∨
     r = -1 ∧ (length l < n)%nat).
Proof.
  intros Has Hva Hsz Hhi Hn Hpal Hpa Hphi Hperm Hnone.
  destruct (mappages_spec s l pgdir va size pa perm n) as (r & j & s' & l' & Hr & Hg & Hm & Hj); try done.
  assert (0 ≤ PGROUNDDOWN va) by (rewrite PGROUNDDOWN_eq by lia; Z.to_euclidean_division_equations; lia).
  exists r, s', l'. split_and!; [done|apply Hg|apply Hg|..].
  - intros x Hx Hout. rewrite Hm by done. apply decide_False. destruct Hj as [(_ & -> & _)|(_ & ? & _)]; lia.
  - destruct Hj as [(-> & -> & _)|(-> & _ & ?)]; [left|by right]. split; [done|].
    intros x Hx Hxhi. by rewrite Hm, decide_True by lia.
Qed.

(** Mappages never replaces a mapping: when the first page is mapped already it
    panics. *)
Theorem mappages_remap s l pgdir va size pa perm e :
  aspace s l pgdir → 0 ≤ va → 0 < size → va + size ≤ 2 ^ 32 →
  xlate (pm_mem s) pgdir va = Some e → mappages pgdir va size pa perm s = Panic "remap".
Proof.
  intros Has Hva Hsz Hhi He. unfold mappages.
  assert (0 ≤ PGROUNDDOWN va < 2 ^ 32 ∧ PGROUNDDOWN va `div` 4096 = va `div` 4096) as [Ha Hpg]
    by (rewrite PGROUNDDOWN_eq by lia; Z.to_euclidean_division_equations; lia).
  apply same_page in Hpg as [Hd Ht]; [|lia..]. unfold xlate in He. rewrite <-Hd, <-Ht in He.
  destruct (tab (pm_mem s) pgdir (PDX (PGROUNDDOWN va))) as [t|] eqn:E; [|done].
  pose proof (tab_page _ _ _ _ _ Has (PDX_range _ Ha) E) as Hok%page_ok_range.
  pose proof (PTX_range (PGROUNDDOWN va)).
  cbn [mappages_loop]. erewrite bind_ok by (by apply walkpgdir_found).
  rewrite (proj2 (Z.eqb_neq _ 0)) by (unfold KERNBASE in *; lia). step.
  by destruct (has (ld32 (pm_mem s) (t + 4 * PTX (PGROUNDDOWN va))) PTE_P).
Qed.

End pagetable.
