(* ===== verification/UserVm.v ===== *)
(** * Growing and shrinking user memory (allocuvm, deallocuvm)

    [udata] says that the user pages mapped in a range are distinct pages of the
    allocator, neither free nor part of the page tables.  deallocuvm gives exactly
    these pages back and removes exactly their translations; allocuvm maps zeroed
    pages taken from the free list, or leaves every translation as it was. *)
From S2P Require Import Prelude Mem Mmu Kalloc Vm PageTable.

(** The page an entry maps. *)
Definition pte_page (e : Z) : Z := P2V (PTE_ADDR e).

Section uservm.
  Context `{LinkerOk}.

Record udata (s : pmem) (l : list Z) (pgdir lo hi : Z) : Prop := {
  ud_page : ∀ va e, lo ≤ va < hi → xlate (pm_mem s) pgdir va = Some e →
    page_ok (pte_page e) ∧ (pte_page e ∉ l) ∧ ¬ own (pm_mem s) pgdir (pte_page e);
  ud_inj : ∀ va va' e e', lo ≤ va < hi → lo ≤ va' < hi →
    xlate (pm_mem s) pgdir va = Some e → xlate (pm_mem s) pgdir va' = Some e' →
    pte_page e = pte_page e' → va `div` 4096 = va' `div` 4096;
}.

Lemma pte_page_nz e : page_ok (pte_page e) → (PTE_ADDR e =? 0) = false.
Proof.
  intros Hok. apply Z.eqb_neq. intros E. unfold pte_page in Hok. rewrite E in Hok.
  apply page_ok_range in Hok. revert Hok. vm_compute. intros [? _]. done.
Qed.

(** Freeing one user page. *)
Lemma dealloc_round s l pgdir va t e :
  aspace s l pgdir → 0 ≤ va < 2 ^ 32 → tab (pm_mem s) pgdir (PDX va) = Some t →
  page_ok (pte_page e) → pte_page e ∉ l → ¬ own (pm_mem s) pgdir (pte_page e) →
  ∃ s', (kfree (pte_page e);; store32 (t + 4 * PTX va) 0) s = Ok tt s' ∧
    aspace s' (pte_page e :: l) pgdir ∧
    (∀ i, 0 ≤ i < 1024 → tab (pm_mem s') pgdir i = tab (pm_mem s) pgdir i) ∧
    (∀ va', 0 ≤ va' < 2 ^ 32 → xlate (pm_mem s') pgdir va' =
       if decide (va' `div` 4096 = va `div` 4096) then None else xlate (pm_mem s) pgdir va') ∧
    frame (λ p, own (pm_mem s) pgdir p ∨ p = pte_page e) (pm_mem s) (pm_mem s').
Proof.
  intros Has Hva Ht Hok Hl Ho. set (v := pte_page e) in *.
  destruct (kfree_spec s l v) as (s1 & Hk & Hfp & _ & Hs); [apply Has|done..|].
  destruct (own_frame (λ p, p = v) (pm_mem s) (pm_mem s1) pgdir) as [Ht1 Hx1].
  { by apply (same_but_page_frame _ v). }
  { by intros ? ->. }
  { intros p Hp. split; [by apply (as_own _ _ _ Has)|by intros ->]. }
  assert (aspace s1 (v :: l) pgdir) as Has1.
  { eapply aspace_ext; try done. intros p Hp. destruct (as_own _ _ _ Has p Hp).
    apply not_elem_of_cons. split; [by intros ->|done]. }
  pose proof (PDX_range va Hva).
  assert (tab (pm_mem s1) pgdir (PDX va) = Some t) as Ht' by (by rewrite Ht1).
  exists (with_mem s1 (st32 (pm_mem s1) (t + 4 * PTX va) 0)). split; [|split; [|split; [|split]]].
  - unfold bind. by rewrite Hk.
  - by eapply store_pte_aspace.
  - intros i Hi. simpl. rewrite (store_pte_tab s1 (v :: l)) by done. by apply Ht1.
  - intros va' Hva'. simpl. rewrite (store_pte_xlate s1 (v :: l)) by done.
    rewrite Hx1 by done. done.
  - eapply frame_trans; [apply (same_but_page_frame _ v); [by right|done]|].
    apply (same_but_page_frame _ t); [left; right; eauto|]. by eapply store_pte_same.
Qed.

(** The pages with an address from [a] up to [hi] have been unmapped and freed. *)
Record unmapped (s : pmem) (l : list Z) (s' : pmem) (l' : list Z) (pgdir a hi : Z) : Prop := {
  um_aspace : aspace s' l' pgdir;
  um_tab : ∀ i, 0 ≤ i < 1024 → tab (pm_mem s') pgdir i = tab (pm_mem s) pgdir i;
  um_xlate : ∀ va, 0 ≤ va < 2 ^ 32 → xlate (pm_mem s') pgdir va =
    if decide (a ≤ va < hi) then None else xlate (pm_mem s) pgdir va;
  um_freed : ∀ p, p ∈ l' ↔ p ∈ l ∨
    ∃ va e, a ≤ va < hi ∧ xlate (pm_mem s) pgdir va = Some e ∧ p = pte_page e;
  um_frame : frame (λ p, own (pm_mem s) pgdir p ∨ (p ∈ l' ∧ p ∉ l)) (pm_mem s) (pm_mem s');
}.

Lemma unmapped_refl s l pgdir a hi :
  aspace s l pgdir → (∀ va, a ≤ va < hi → xlate (pm_mem s) pgdir va = None) →
  unmapped s l s l pgdir a hi.
Proof.
  intros Has Hn. split; [done|done|..|by intros x ?].
  - intros va Hva. case_decide; auto.
  - intros p. split; [by left|]. intros [?|(va & e & Hva & He & _)]; [done|].
    by rewrite Hn in He.
Qed.

Lemma unmapped_trans s1 l1 s2 l2 s3 l3 pgdir a b hi :
  0 ≤ a ≤ b → b ≤ hi → hi ≤ 2 ^ 32 →
  unmapped s1 l1 s2 l2 pgdir a b → unmapped s2 l2 s3 l3 pgdir b hi →
  unmapped s1 l1 s3 l3 pgdir a hi.
Proof.
  intros Ha Hb Hhi [_ Ht Hx Hfr Hf] [Has' Ht' Hx' Hfr' Hf']. split; [done|..].
  - intros i Hi. by rewrite Ht', Ht.
  - intros va Hva. rewrite Hx', Hx by done. repeat case_decide; try done; lia.
  - intros p. rewrite Hfr', Hfr. split.
    + intros [[?|(va & e & ? & ? & ->)]|(va & e & ? & He & ->)]; [by left|right..].
      * exists va, e. split_and!; [lia..|done|done].
      * rewrite Hx, decide_False in He by lia. exists va, e. split_and!; [lia..|done|done].
    + intros [?|(va & e & ? & He & ->)]; [by left; left|].
      destruct (decide (va < b)); [left; right|right]; exists va, e; split_and!; try done; try lia.
      by rewrite Hx, decide_False by lia.
  - eapply frame_trans; [eapply frame_mono; [|done]|eapply frame_mono; [|done]]; simpl; intros p.
    + intros [?|[??]]; [by left|right]. rewrite Hfr'. auto.
    + rewrite (own_ext (pm_mem s1) (pm_mem s2)) by done. intros [?|[? Hn]]; [by left|right].
      split; [done|]. intros ?. apply Hn, Hfr. by left.
Qed.

Lemma udata_unmapped s l s' l' pgdir a b hi :
  0 ≤ a ≤ b → b `mod` 4096 = 0 → hi ≤ 2 ^ 32 →
  udata s l pgdir a hi → unmapped s l s' l' pgdir a b → udata s' l' pgdir b hi.
Proof.
  intros Ha Hb Hhi [Hp Hi] [_ Ht Hx Hfr _].
  assert (∀ va, b ≤ va < hi → xlate (pm_mem s') pgdir va = xlate (pm_mem s) pgdir va) as Hx'.
  { intros va Hva. by rewrite Hx, decide_False by lia. }
  split.
  - intros va e Hva. rewrite Hx' by done. intros He.
    destruct (Hp va e) as (? & ? & ?); [lia|done|]. split; [done|split].
    + rewrite Hfr. intros [?|(va0 & e0 & Hva0 & He0 & E)]; [done|].
      destruct (decide (va0 < hi)); [|lia].
      assert (va `div` 4096 = va0 `div` 4096) by (apply (Hi va va0 e e0); done || lia).
      Z.to_euclidean_division_equations. lia.
    + by rewrite (own_ext (pm_mem s)).
  - intros va va' e e' Hva Hva'. rewrite !Hx' by done. apply Hi; lia.
Qed.

Lemma udata_mono s l pgdir lo hi lo' hi' :
  lo ≤ lo' → hi' ≤ hi → udata s l pgdir lo hi → udata s l pgdir lo' hi'.
Proof.
  intros ?? [Hp Hi]. split; intros; [eapply Hp|eapply (Hi va va')]; eauto; lia.
Qed.

(** One round of deallocuvm at a page that has a page table. *)
Lemma deallocuvm_page n s l pgdir a oldsz t hi :
  aspace s l pgdir → udata s l pgdir a hi → a `mod` 4096 = 0 → 0 ≤ a → a < oldsz → oldsz ≤ hi →
  hi `mod` 4096 = 0 → hi ≤ KERNBASE → tab (pm_mem s) pgdir (PDX a) = Some t →
  ∃ s1 l1, deallocuvm_loop (S n) pgdir a oldsz s = deallocuvm_loop n pgdir (a + 4096) oldsz s1 ∧
    unmapped s l s1 l1 pgdir a (a + 4096).
Proof.
  intros Has Hud Hal Ha Hlt Hle Hhal Hhi Ht. assert (0 ≤ a < 2 ^ 32) as Har by (unfold KERNBASE in *; lia).
  pose proof (tab_page _ _ _ _ _ Has (PDX_range a Har) Ht) as Htok.
  assert ((t + 4 * PTX a =? 0) = false) as Hnz.
  { apply Z.eqb_neq. pose proof (PTX_range a). apply page_ok_range in Htok. unfold KERNBASE in *. lia. }
  assert (∀ va, a ≤ va < a + 4096 → xlate (pm_mem s) pgdir va = xlate (pm_mem s) pgdir a) as Hpg.
  { intros va Hva. unfold xlate. assert (va `div` 4096 = a `div` 4096) as E by
      (Z.to_euclidean_division_equations; lia).
    apply same_page in E as [-> ->]; [done|unfold KERNBASE in *; Z.to_euclidean_division_equations; lia|lia]. }
  cbn [deallocuvm_loop]. rewrite (proj2 (Z.ltb_lt _ _)) by done. unfold bind at 1. simpl.
  rewrite (walkpgdir_found s pgdir a false t) by done. simpl. rewrite Hnz. unfold bind, load32, gets. simpl.
  assert (u32 (a + PGSIZE) = a + 4096) as Hu by (unfold PGSIZE; apply u32_small; unfold KERNBASE in *; lia).
  set (e := ld32 (pm_mem s) (t + 4 * PTX a)). destruct (has e PTE_P) eqn:He; simpl.
  - assert (xlate (pm_mem s) pgdir a = Some e) as Hxa by (unfold xlate; rewrite Ht; simpl; fold e; by rewrite He).
    destruct (ud_page _ _ _ _ _ Hud a e) as (Hok & Hnl & Hno); [lia|done|].
    destruct (dealloc_round s l pgdir a t e) as (s1 & Hr & Has1 & Ht1 & Hx1 & Hf1); [done..|].
    exists s1, (pte_page e :: l). unfold bind in Hr. rewrite (pte_page_nz e Hok). split.
    + unfold pte_page in Hr. rewrite Hr. simpl. by rewrite Hu.
    + split; [done|done|..].
      * intros va Hva. rewrite Hx1 by done.
        repeat case_decide; try done; Z.to_euclidean_division_equations; lia.
      * intros p. rewrite elem_of_cons. split.
        -- intros [->|?]; [right; exists a, e; split_and!; try done; lia|by left].
        -- intros [?|(va & e' & Hva & He' & ->)]; [by right|left].
           rewrite Hpg in He' by done. congruence.
      * eapply frame_mono; [|done]. simpl. intros p [?| ->]; [by left|right]. set_solver.
  - exists s, l. split; [by rewrite Hu|]. apply unmapped_refl; [done|]. intros va Hva.
    rewrite Hpg by done. unfold xlate. rewrite Ht. simpl. fold e. by rewrite He.
Qed.

(** One round at an address without a page table: on to the next 4 MB. *)
Lemma deallocuvm_skip n s pgdir a oldsz :
  0 ≤ a → a < oldsz → oldsz ≤ KERNBASE → tab (pm_mem s) pgdir (PDX a) = None →
  deallocuvm_loop (S n) pgdir a oldsz s =
  deallocuvm_loop n pgdir ((a `div` 2 ^ 22 + 1) * 2 ^ 22) oldsz s.
Proof.
  intros Ha Hlt Hhi Ht. assert (0 ≤ a < 2 ^ 32) by (unfold KERNBASE in *; lia).
  cbn [deallocuvm_loop]. rewrite (proj2 (Z.ltb_lt _ _)) by done. unfold bind at 1. simpl.
  rewrite walkpgdir_find, Ht. simpl. unfold bind. simpl. f_equal.
  rewrite PDX_eq by done. change (2 ^ 22) with 4194304 in *.
  rewrite PGADDR_eq; [|unfold KERNBASE in *; Z.to_euclidean_division_equations; lia|lia|lia].
  change (2 ^ 22) with 4194304. unfold PGSIZE.
  rewrite (u32_small (_ - 4096)), u32_small;
    unfold KERNBASE in *; Z.to_euclidean_division_equations; lia.
Qed.

Lemma deallocuvm_loop_spec n s l pgdir a oldsz hi :
  aspace s l pgdir → udata s l pgdir a hi → a `mod` 4096 = 0 → 0 ≤ a →
  oldsz ≤ hi → hi < oldsz + 4096 → hi `mod` 4096 = 0 → hi ≤ KERNBASE →
  hi - a < 4096 * Z.of_nat n → (0 < n)%nat →
  ∃ s' l', deallocuvm_loop n pgdir a oldsz s = Ok tt s' ∧ unmapped s l s' l' pgdir a hi.
Proof.
  revert s l a. induction n as [|n IH]; intros s l a Has Hud Hal Ha Hle Hlt Hhal Hhi Hn Hpos; [lia|].
  destruct (decide (a < oldsz)) as [Hlo|Hge].
  2: { exists s, l. split; [by cbn [deallocuvm_loop]; rewrite (proj2 (Z.ltb_ge _ _)) by lia|].
       apply unmapped_refl; [done|]. intros. Z.to_euclidean_division_equations. lia. }
  assert (a + 4096 ≤ hi) by (Z.to_euclidean_division_equations; lia).
  assert (hi ≤ 2 ^ 32) by (unfold KERNBASE in *; lia).
  destruct (tab (pm_mem s) pgdir (PDX a)) as [t|] eqn:Ht.
  - destruct (deallocuvm_page n s l pgdir a oldsz t hi) as (s1 & l1 & Hr & Hu); [done..|].
    destruct (IH s1 l1 (a + 4096)) as (s2 & l2 & Hr2 & Hu2);
      [apply Hu| |Z.to_euclidean_division_equations; lia|lia..|].
    { eapply udata_unmapped; [| | |done|done]; [lia|Z.to_euclidean_division_equations; lia|done]. }
    exists s2, l2. split; [congruence|]. eapply unmapped_trans; [| | |exact Hu|exact Hu2]; lia.
  - rewrite deallocuvm_skip by (done || lia). set (b := (a `div` 2 ^ 22 + 1) * 2 ^ 22).
    assert (a < b ∧ b `mod` 4096 = 0 ∧ a + 4096 ≤ b) as (? & ? & ?) by
      (subst b; change (2 ^ 22) with 4194304; Z.to_euclidean_division_equations; lia).
    assert (∀ va, a ≤ va < b → xlate (pm_mem s) pgdir va = None) as Hnone.
    { intros va Hva. unfold xlate. assert (PDX va = PDX a) as ->; [|by rewrite Ht].
      rewrite !PDX_eq; subst b; unfold KERNBASE in *; change (2 ^ 22) with 4194304 in *;
        Z.to_euclidean_division_equations; lia. }
    destruct (decide (b < hi)).
    + assert (unmapped s l s l pgdir a b) as Hu by (by apply unmapped_refl).
      destruct (IH s l b) as (s2 & l2 & Hr2 & Hu2); try done; try lia.
      { eapply udata_mono; [| |exact Hud]; lia. }
      exists s2, l2. split; [done|]. eapply unmapped_trans; [| | |exact Hu|exact Hu2]; lia.
    + exists s, l. destruct n as [|n]; [lia|]. split.
      * cbn [deallocuvm_loop]. by rewrite (proj2 (Z.ltb_ge _ _)) by lia.
      * apply unmapped_refl; [done|]. intros. apply Hnone. lia.
Qed.

(** The size in bytes rounded up to whole pages. *)
Definition pgup (sz : Z) : Z := (sz + 4095) `div` 4096 * 4096.

Lemma pgup_bounds sz : sz ≤ pgup sz < sz + 4096 ∧ pgup sz `mod` 4096 = 0.
Proof. unfold pgup. Z.to_euclidean_division_equations. lia. Qed.

Lemma deallocuvm_run s l pgdir oldsz newsz :
  aspace s l pgdir → 0 ≤ newsz → newsz < oldsz → oldsz ≤ KERNBASE →
  udata s l pgdir (pgup newsz) (pgup oldsz) →
  ∃ s' l', deallocuvm pgdir oldsz newsz s = Ok newsz s' ∧
    unmapped s l s' l' pgdir (pgup newsz) (pgup oldsz).
Proof.
  intros Has Hnew Hlt Hhi Hud. unfold deallocuvm. rewrite (proj2 (Z.leb_gt _ _)) by lia.
  rewrite PGROUNDUP_eq by (unfold KERNBASE in *; lia). fold (pgup newsz).
  pose proof (pgup_bounds newsz). pose proof (pgup_bounds oldsz).
  destruct (deallocuvm_loop_spec (S (Z.to_nat ((oldsz - pgup newsz) `div` 4096 + 1)))
    s l pgdir (pgup newsz) oldsz (pgup oldsz)) as (s' & l' & Hr & Hu); try done; try lia.
  - unfold KERNBASE in *. Z.to_euclidean_division_equations. lia.
  - Z.to_euclidean_division_equations. lia.
  - exists s', l'. split; [|done]. unfold bind, PGSIZE. by rewrite Hr.
Qed.

(** ** allocuvm *)

Definition zero_page (m : mem) (p : Z) : Prop := ∀ x, p ≤ x < p + 4096 → m x = 0.

(** PTE_W | PTE_U *)
Definition URW : Z := 6.

(** The entry for [va] when the pages [ps] are mapped from [a] on top of [m]. *)
Definition alloc_xlate (m : mem) (pgdir a : Z) (ps : list Z) (va : Z) : option Z :=
  match (if decide (a ≤ va) then ps !! Z.to_nat ((va - a) `div` 4096) else None) with
  | Some p => Some (mk_pte (V2P p) URW)
  | None => xlate m pgdir va
  end.

(** The pages [ps] have been mapped, in order, from address [a], and the pages [hd]
    are taken off the free list but not mapped. *)
Record allocated (s : pmem) (l : list Z) (s' : pmem) (l' : list Z) (pgdir a : Z)
    (ps hd : list Z) : Prop := {
  al_aspace : aspace s' l' pgdir;
  al_xlate : ∀ va, 0 ≤ va < 2 ^ 32 →
    xlate (pm_mem s') pgdir va = alloc_xlate (pm_mem s) pgdir a ps va;
  al_pages : ∀ p, p ∈ ps ++ hd → page_ok p ∧ (p ∉ l') ∧ ¬ own (pm_mem s') pgdir p;
  al_zero : ∀ p, p ∈ ps ++ hd → zero_page (pm_mem s') p;
  al_nodup : NoDup (ps ++ hd);
  al_free : ∀ p, p ∈ l ↔
    p ∈ l' ∨ p ∈ ps ++ hd ∨ (own (pm_mem s') pgdir p ∧ ¬ own (pm_mem s) pgdir p);
  al_own : ∀ p, own (pm_mem s) pgdir p → own (pm_mem s') pgdir p;
}.

Lemma allocated_nil s l pgdir a : aspace s l pgdir → allocated s l s l pgdir a [] [].
Proof.
  intros Has. split; [done|by intros va Hva; unfold alloc_xlate; case_decide|by intros p ?%elem_of_nil
    |by intros p ?%elem_of_nil|constructor| |done].
  intros p. split; [by left|]. intros [?|[?%elem_of_nil|[??]]]; done.
Qed.

Lemma frame_byte (P : Z → Prop) m m' p x :
  frame P m m' → (∀ q, P q → page_ok q) → page_ok p → ¬ P p → p ≤ x < p + 4096 → m' x = m x.
Proof.
  intros Hf HP Hp Hn Hx. apply Hf. intros q Hq.
  destruct (page_ok_disjoint p q); [done|by apply HP|by intros ->|lia|lia].
Qed.

Lemma V2P_word v : page_ok v → V2P v `mod` 4096 = 0 ∧ 0 ≤ V2P v ∧ V2P v + 4096 ≤ 2 ^ 32.
Proof.
  intros Hv. rewrite V2P_page by done. pose proof (page_ok_range v Hv). destruct Hv as [Hal _].
  unfold KERNBASE, PHYSTOP in *. Z.to_euclidean_division_equations. lia.
Qed.

Lemma pte_page_mk v perm : page_ok v → 0 ≤ perm < 4096 → pte_page (mk_pte (V2P v) perm) = v.
Proof.
  intros Hv Hp. destruct (V2P_word v Hv) as (? & ? & ?). unfold pte_page.
  destruct (mk_pte_spec (V2P v) perm) as (_ & _ & -> & _); [done|lia|done|]. by apply P2V_V2P.
Qed.

(** A page taken from the free list and cleared. *)
Lemma kalloc_zero s v l pgdir :
  aspace s (v :: l) pgdir →
  ∃ s0, kalloc s = Ok v s0 ∧
    let s1 := with_mem s0 (memset (pm_mem s0) v 0 4096) in
    aspace s1 l pgdir ∧
    (∀ va, 0 ≤ va < 2 ^ 32 → xlate (pm_mem s1) pgdir va = xlate (pm_mem s) pgdir va) ∧
    (∀ p, own (pm_mem s1) pgdir p ↔ own (pm_mem s) pgdir p) ∧
    same_but_page v (pm_mem s) (pm_mem s1) ∧ zero_page (pm_mem s1) v.
Proof.
  intros Has. pose proof (as_free _ _ _ Has) as Hfp.
  pose proof (fp_ok _ _ Hfp) as [Hv _]%Forall_cons_1.
  pose proof (fp_nodup _ _ Hfp) as [Hvl _]%list.NoDup_cons.
  destruct (kalloc_spec s v l Hfp) as (s0 & Hk & Hfp0 & _ & Hm0).
  exists s0. split; [done|]. simpl. rewrite Hm0.
  destruct (own_frame (λ p, p = v) (pm_mem s) (memset (pm_mem s) v 0 4096) pgdir) as [Ht Hx].
  { by apply (same_but_page_frame _ v), memset_page. }
  { by intros ? ->. }
  { intros p Hp. destruct (as_own _ _ _ Has p Hp) as [? Hn]. split; [done|set_solver]. }
  split_and!; [|done|intros p; by apply own_ext|apply memset_page|].
  - eapply aspace_ext; [done| |done|].
    + rewrite <-Hm0. apply (free_pages_frame s0 l v); try done; [|apply memset_page].
      apply memset_ok; [apply Hfp0|lia].
    + intros p Hp. destruct (as_own _ _ _ Has p Hp). set_solver.
  - intros x Hx'. by rewrite memset_spec, decide_True by lia.
Qed.

(** A cleared page has been taken off the free list. *)
Lemma allocated_take s0 l0 s v l pgdir a ps :
  allocated s0 l0 s (v :: l) pgdir a ps [] →
  ∃ s1, kalloc s = Ok v s1 ∧
    allocated s0 l0 (with_mem s1 (memset (pm_mem s1) v 0 4096)) l pgdir a ps [v].
Proof.
  intros [Has Hx Hp Hz Hnd Hfr Ho]. rewrite app_nil_r in *.
  pose proof (as_free _ _ _ Has) as Hfp. pose proof (fp_ok _ _ Hfp) as [Hv _]%Forall_cons_1.
  pose proof (fp_nodup _ _ Hfp) as [Hvl _]%list.NoDup_cons.
  destruct (kalloc_zero s v l pgdir Has) as (s1 & Hk & Has1 & Hx1 & Ho1 & Hs1 & Hz1).
  exists s1. split; [done|]. split; [done|..].
  - intros va Hva. rewrite Hx1, Hx by done. done.
  - intros p [Hin| ->%list_elem_of_singleton]%elem_of_app; rewrite Ho1.
    + destruct (Hp p Hin) as (? & ? & ?). set_solver.
    + split; [done|split; [done|]]. intros Hvo. destruct (as_own _ _ _ Has v Hvo). set_solver.
  - intros p [Hin| ->%list_elem_of_singleton]%elem_of_app; [|done]. intros x Hx'.
    destruct (Hp p Hin) as (? & Hn & ?).
    rewrite Hs1; [by apply (Hz p)|].
    destruct (page_ok_disjoint p v); [done|done|set_solver|lia|lia].
  - apply list.NoDup_app. split; [done|split; [|apply NoDup_singleton]].
    intros p Hin ->%list_elem_of_singleton. destruct (Hp v Hin) as (_ & Hn & _). set_solver.
  - intros p. rewrite Hfr, Ho1. set_solver.
  - intros p Hpo. rewrite Ho1. auto.
Qed.

(** What is allocated when page tables are added and [hd] is perhaps mapped. *)
Lemma allocated_grows s0 l0 s l s1 l1 pgdir a ps hd ps' hd' :
  allocated s0 l0 s l pgdir a ps hd → grows s l s1 l1 pgdir → ps' ++ hd' = ps ++ hd →
  (∀ va, 0 ≤ va < 2 ^ 32 → xlate (pm_mem s1) pgdir va = alloc_xlate (pm_mem s0) pgdir a ps' va) →
  allocated s0 l0 s1 l1 pgdir a ps' hd'.
Proof.
  intros [Has Hx Hp Hz Hnd Hfr Ho] [Has1 (ts & -> & Ho1) Hf] E Hx1. rewrite <-E in *.
  assert (∀ p, p ∈ ps' ++ hd' → ¬ own (pm_mem s1) pgdir p) as Hno.
  { intros p Hin. destruct (Hp p Hin) as (? & ? & ?). rewrite Ho1. set_solver. }
  split; [done|done|..].
  - intros p Hin. destruct (Hp p Hin) as (? & ? & ?). split; [done|split; [set_solver|auto]].
  - intros p Hin x Hx'. destruct (Hp p Hin) as (? & ? & ?).
    rewrite (frame_byte _ _ _ p x Hf); [by apply (Hz p)|intros q Hq; by apply (as_own _ _ _ Has1)|done|auto|done].
  - done.
  - intros p. rewrite Hfr, (Ho1 p), elem_of_app. split; [|tauto].
    intros [[Hin|?]|[?|[??]]]; try tauto. do 2 right. split; [by right|].
    intros Hno'%Ho. destruct (as_own _ _ _ Has p Hno'). set_solver.
  - intros p Hpo. rewrite Ho1. auto.
Qed.

Lemma alloc_xlate_snoc m m1 m2 pgdir a ps v :
  0 ≤ a → (∀ va, 0 ≤ va < 2 ^ 32 → xlate m1 pgdir va = alloc_xlate m pgdir a ps va) →
  mapped m1 m2 pgdir (a + 4096 * Z.of_nat (length ps)) 1 (V2P v) URW →
  ∀ va, 0 ≤ va < 2 ^ 32 → xlate m2 pgdir va = alloc_xlate m pgdir a (ps ++ [v]) va.
Proof.
  intros Ha Hx Hm va Hva. rewrite Hm, Hx by done. unfold alloc_xlate. set (n := length ps) in *.
  assert (∀ k, a ≤ va → Z.to_nat ((va - a) `div` 4096) = k ↔
    a + 4096 * Z.of_nat k ≤ va < a + 4096 * (Z.of_nat k + 1)) as Hk
    by (intros; Z.to_euclidean_division_equations; lia).
  case_decide as Hin.
  - rewrite decide_True by lia. rewrite (proj2 (Hk n ltac:(lia))) by lia.
    rewrite list_lookup_middle by done. do 2 f_equal. Z.to_euclidean_division_equations. lia.
  - case_decide; [|done]. rewrite lookup_app. destruct (ps !! _) eqn:E; [done|].
    apply lookup_ge_None in E. fold n in E |- *.
    destruct (Z.to_nat ((va - a) `div` 4096) - n)%nat eqn:E'; [|done].
    assert (Z.to_nat ((va - a) `div` 4096) = n) as Hn by lia. apply Hk in Hn; lia.
Qed.

(** The user pages of an allocation that began on unmapped addresses. *)
Lemma allocated_udata s0 l0 s l pgdir a ps hd hi :
  allocated s0 l0 s l pgdir a ps hd → 0 ≤ a → a `mod` 4096 = 0 → hi ≤ 2 ^ 32 →
  (∀ va, a ≤ va < hi → xlate (pm_mem s0) pgdir va = None) →
  (∀ va e, a ≤ va < hi → xlate (pm_mem s) pgdir va = Some e →
     ps !! Z.to_nat ((va - a) `div` 4096) = Some (pte_page e)) ∧ udata s l pgdir a hi.
Proof.
  intros [Has Hx Hp Hz Hnd Hfr Ho] Ha Hal Hhi Hn.
  assert (∀ va e, a ≤ va < hi → xlate (pm_mem s) pgdir va = Some e →
     ps !! Z.to_nat ((va - a) `div` 4096) = Some (pte_page e)) as Hlk.
  { intros va e Hva. rewrite Hx by lia. unfold alloc_xlate. rewrite decide_True by lia.
    destruct (ps !! _) as [p|] eqn:E.
    - intros [= <-]. rewrite pte_page_mk; [done| |by unfold URW].
      apply (Hp p). apply elem_of_app. left. by eapply list_elem_of_lookup_2.
    - by rewrite Hn. }
  split; [done|]. split.
  - intros va e Hva He%Hlk; [|done]. apply Hp, elem_of_app. left. by eapply list_elem_of_lookup_2.
  - intros va va' e e' Hva Hva' He%Hlk He'%Hlk E; [|done..]. rewrite E in He.
    apply list.NoDup_app in Hnd as [Hnd _]. pose proof (NoDup_lookup _ _ _ _ Hnd He He').
    Z.to_euclidean_division_equations. lia.
Qed.

(** deallocuvm takes an allocation back. *)
Lemma allocated_undo s0 l0 s l pgdir oldsz newsz ps hd :
  let a := pgup oldsz in let hi := pgup newsz in
  allocated s0 l0 s l pgdir a ps hd → 0 ≤ oldsz → oldsz < newsz → newsz ≤ KERNBASE →
  a + 4096 * Z.of_nat (length ps) ≤ hi →
  (∀ va, a ≤ va < hi → xlate (pm_mem s0) pgdir va = None) →
  ∃ s' l', deallocuvm pgdir newsz oldsz s = Ok oldsz s' ∧ allocated s0 l0 s' l' pgdir a [] hd.
Proof.
  intros a hi Hal Hold Hlt Hhi Hlen Hn. pose proof (pgup_bounds oldsz) as Hb1.
  pose proof (pgup_bounds newsz) as Hb2. fold a in Hb1. fold hi in Hb2.
  assert (hi ≤ 2 ^ 32) by (unfold KERNBASE in *; lia).
  destruct (allocated_udata _ _ _ _ _ _ _ _ hi Hal) as [Hlk Hud]; [lia..|done|].
  destruct (deallocuvm_run s l pgdir newsz oldsz) as (s' & l' & Hr & [Has' Ht' Hx' Hfr' Hf']);
    [apply Hal|lia..|done|].
  exists s', l'. split; [done|]. destruct Hal as [Has Hx Hp Hz Hnd Hfr Ho].
  assert (∀ p, own (pm_mem s') pgdir p ↔ own (pm_mem s) pgdir p) as Ho' by (intros; by apply own_ext).
  assert (∀ p, p ∈ l' ↔ p ∈ l ∨ p ∈ ps) as Hl'.
  { intros p. rewrite Hfr'. fold a hi. split.
    - intros [?|(va & e & Hva & He & ->)]; [by left|right]. eapply list_elem_of_lookup_2, Hlk; done.
    - intros [?|[k Hk]%list_elem_of_lookup_1]; [by left|right].
      pose proof (lookup_lt_Some _ _ _ Hk).
      exists (a + 4096 * Z.of_nat k), (mk_pte (V2P p) URW). split; [lia|split].
      + rewrite Hx by lia. unfold alloc_xlate. rewrite decide_True by lia.
        replace (Z.to_nat _) with k by (Z.to_euclidean_division_equations; lia). by rewrite Hk.
      + rewrite pte_page_mk; [done| |by unfold URW]. apply Hp, elem_of_app. left.
        by eapply list_elem_of_lookup_2. }
  apply list.NoDup_app in Hnd as (Hnd1 & Hdj & Hnd2).
  assert (∀ p, p ∈ hd → page_ok p ∧ (p ∉ l') ∧ ¬ own (pm_mem s') pgdir p) as Hhd.
  { intros p Hin. destruct (Hp p) as (? & ? & ?); [apply elem_of_app; by right|].
    rewrite Hl', Ho'. split_and!; [done| |done]. intros [?|?]; [done|by eapply Hdj]. }
  split; try done.
  - intros va Hva. rewrite Hx' by done. fold a hi. unfold alloc_xlate.
    rewrite Hx by done. unfold alloc_xlate. repeat case_decide; try lia; try done.
    + symmetry. apply Hn. lia.
    + destruct (ps !! _) eqn:E; [|done]. apply lookup_lt_Some in E.
      Z.to_euclidean_division_equations. lia.
  - intros p Hin x Hx2. destruct (Hhd p Hin) as (? & ? & ?).
    rewrite (frame_byte _ _ _ p x Hf'); [by apply (Hz p); [apply elem_of_app; by right|]| |done|rewrite <-Ho'; tauto|done].
    intros q [Hq|[Hq _]]; [by apply (as_own _ _ _ Has)|].
    pose proof (fp_ok _ _ (as_free _ _ _ Has')). by eapply list.Forall_forall in Hq.
  - intros p. rewrite Hfr, Hl', Ho', elem_of_app. simpl. tauto.
  - intros p Hpo. rewrite Ho'. auto.
Qed.

(** kfree puts the page that was taken but not mapped back. *)
Lemma allocated_untake s0 l0 s l pgdir a v :
  allocated s0 l0 s l pgdir a [] [v] →
  ∃ s', kfree v s = Ok tt s' ∧ allocated s0 l0 s' (v :: l) pgdir a [] [].
Proof.
  intros [Has Hx Hp Hz Hnd Hfr Ho]. destruct (Hp v) as (Hok & Hnl & Hno); [set_solver|].
  destruct (kfree_spec s l v) as (s1 & Hk & Hfp & _ & Hs); [apply Has|done..|].
  destruct (own_frame (λ p, p = v) (pm_mem s) (pm_mem s1) pgdir) as [Ht1 Hx1].
  { by apply (same_but_page_frame _ v). }
  { by intros ? ->. }
  { intros p Hpo. split; [by apply (as_own _ _ _ Has)|by intros ->]. }
  assert (∀ p, own (pm_mem s1) pgdir p ↔ own (pm_mem s) pgdir p) as Ho' by (intros; by apply own_ext).
  exists s1. split; [done|].
  split; [|intros va Hva; rewrite Hx1 by done; auto|by intros p ?%elem_of_nil
    |by intros p ?%elem_of_nil|constructor| |].
  - eapply aspace_ext; try done. intros p Hpo. destruct (as_own _ _ _ Has p Hpo).
    apply not_elem_of_cons. split; [by intros ->|done].
  - intros p. rewrite Hfr, Ho'. simpl. rewrite !elem_of_cons, !elem_of_nil. tauto.
  - intros p Hpo. rewrite Ho'. auto.
Qed.

(** ** The loop of allocuvm *)

Section allocuvm_loop.
  Context (s0 : pmem) (l0 : list Z) (pgdir oldsz newsz : Z).
  Context (Hold : 0 ≤ oldsz) (Hnew : newsz < KERNBASE).
  Context (Hnone : ∀ va, pgup oldsz ≤ va < pgup newsz → xlate (pm_mem s0) pgdir va = None).

(** What allocuvm promises: [ps] mapped and [newsz] returned, or nothing mapped for
    want of memory ([short]). *)
Definition alloc_result (short : Prop) (o : outcome pmem Z) : Prop :=
  ∃ r s' l', o = Ok r s' ∧
    ((r = newsz ∧ ∃ ps, allocated s0 l0 s' l' pgdir (pgup oldsz) ps [] ∧
                        4096 * Z.of_nat (length ps) = pgup newsz - pgup oldsz) ∨
     (r = 0 ∧ short ∧ allocated s0 l0 s' l' pgdir (pgup oldsz) [] [])).

Lemma alloc_result_mono (P Q : Prop) o : (P → Q) → alloc_result P o → alloc_result Q o.
Proof. intros HPQ (r & s' & l' & -> & Hr). exists r, s', l'. split; [done|]. tauto. Qed.

Lemma alloc_undo_result s l ps :
  allocated s0 l0 s l pgdir (pgup oldsz) ps [] → oldsz < newsz →
  pgup oldsz + 4096 * Z.of_nat (length ps) ≤ pgup newsz →
  alloc_result True ((deallocuvm pgdir newsz oldsz;; ret 0) s).
Proof.
  intros Hal Hlt Hlen. destruct (allocated_undo s0 l0 s l pgdir oldsz newsz ps [])
    as (s' & l' & Hr & Hal'); try done; try (unfold KERNBASE in *; lia).
  exists 0, s', l'. unfold bind. rewrite Hr. auto.
Qed.

Lemma alloc_undo_free_result s l ps v :
  allocated s0 l0 s l pgdir (pgup oldsz) ps [v] → oldsz < newsz →
  pgup oldsz + 4096 * Z.of_nat (length ps) ≤ pgup newsz →
  alloc_result True ((deallocuvm pgdir newsz oldsz;; kfree v;; ret 0) s).
Proof.
  intros Hal Hlt Hlen. destruct (allocated_undo s0 l0 s l pgdir oldsz newsz ps [v])
    as (s' & l' & Hr & Hal'); try done; try (unfold KERNBASE in *; lia).
  destruct (allocated_untake s0 l0 s' l' pgdir (pgup oldsz) v Hal') as (s2 & Hr2 & Hal2).
  exists 0, s2, (v :: l'). unfold bind. rewrite Hr. simpl. rewrite Hr2. auto.
Qed.

  (** The page at the end of [ps] is mapped, or memory has run out. *)
Lemma alloc_map s l ps v :
  allocated s0 l0 s l pgdir (pgup oldsz) ps [v] →
  let a := pgup oldsz + 4096 * Z.of_nat (length ps) in a < newsz →
  ∃ r s' l', mappages pgdir a 4096 (V2P v) URW s = Ok r s' ∧
    (r = 0 ∧ (length l ≤ S (length l'))%nat ∧ allocated s0 l0 s' l' pgdir (pgup oldsz) (ps ++ [v]) [] ∨
     r = -1 ∧ l = [] ∧ allocated s0 l0 s' l' pgdir (pgup oldsz) ps [v]).
Proof.
  intros Hal a Ha. pose proof (pgup_bounds oldsz). pose proof (pgup_bounds newsz).
  destruct (al_pages _ _ _ _ _ _ _ _ Hal v) as (Hok & _); [apply elem_of_app; right; left|].
  destruct (V2P_word v Hok) as (? & ? & ?).
  assert (∀ x, a ≤ x < a + 4096 → xlate (pm_mem s) pgdir x = None) as Hn.
  { intros x Hx. rewrite (al_xlate _ _ _ _ _ _ _ _ Hal) by (unfold KERNBASE in *; lia).
    unfold alloc_xlate. rewrite decide_True by lia. rewrite lookup_ge_None_2
      by (Z.to_euclidean_division_equations; lia).
    apply Hnone. subst a. Z.to_euclidean_division_equations. lia. }
  assert (PGROUNDDOWN a = a) as Hrd.
  { rewrite PGROUNDDOWN_eq by (unfold KERNBASE in *; lia). subst a.
    Z.to_euclidean_division_equations. lia. }
  destruct (mappages_spec s l pgdir a 4096 (V2P v) URW 1) as (r & j & s' & l' & Hr & Hg & Hm & Hj);
    try done; try (unfold KERNBASE in *; lia);
    try (subst a; unfold KERNBASE in *; Z.to_euclidean_division_equations; lia).
  { apply Hal. } { rewrite Hrd. done. }
  rewrite Hrd in Hm. exists r, s', l'. split; [done|]. destruct Hj as [(-> & -> & ?)|(-> & Hj & Hl)]; [left|right].
  - split; [done|]. split; [lia|]. eapply allocated_grows; [done..|by rewrite app_nil_r|].
    eapply alloc_xlate_snoc; [lia|apply Hal|done].
  - split; [done|]. split; [by destruct l; [|simpl in Hl; lia]|].
    eapply allocated_grows; [done..|]. intros va Hva.
    rewrite Hm, decide_False by lia. by apply (al_xlate _ _ _ _ _ _ _ _ Hal).
Qed.

Lemma allocuvm_loop_spec n s l ps :
  allocated s0 l0 s l pgdir (pgup oldsz) ps [] →
  let a := pgup oldsz + 4096 * Z.of_nat (length ps) in
  a ≤ pgup newsz → pgup newsz - a < 4096 * Z.of_nat n →
  alloc_result (2048 * Z.of_nat (length l) < pgup newsz - a) (allocuvm_loop n pgdir a oldsz newsz s).
Proof.
  revert s l ps. induction n as [|n IH]; intros s l ps Hal a Hle Hn; [lia|].
  pose proof (pgup_bounds oldsz). pose proof (pgup_bounds newsz). cbn [allocuvm_loop].
  destruct (decide (a < newsz)) as [Hlt|Hge].
  2: { rewrite (proj2 (Z.ltb_ge _ _)) by lia. exists newsz, s, l. split; [done|]. left. split; [done|].
       exists ps. split; [done|]. subst a. Z.to_euclidean_division_equations. lia. }
  rewrite (proj2 (Z.ltb_lt _ _)) by lia. simpl. destruct l as [|v l].
  { unfold bind at 1. rewrite kalloc_empty by apply Hal. simpl.
    eapply alloc_result_mono, alloc_undo_result; [|done|lia..]. simpl. lia. }
  destruct (allocated_take _ _ _ _ _ _ _ _ Hal) as (s1 & Hk & Hal1).
  destruct (al_pages _ _ _ _ _ _ _ _ Hal1 v) as (Hok & _); [apply elem_of_app; right; left|].
  unfold bind at 1. rewrite Hk. simpl. rewrite (proj2 (Z.eqb_neq _ _)) by (by apply page_ok_nz).
  unfold bind at 1. simpl. set (s2 := Pm _ _ _ _). change (allocated s0 l0 s2 l pgdir (pgup oldsz) ps [v]) in Hal1.
  destruct (alloc_map s2 l ps v Hal1 Hlt) as (r & s3 & l3 & Hr & Hcase). fold a in Hr.
  change PGSIZE with 4096. change (Z.lor PTE_W PTE_U) with URW. unfold bind at 1. rewrite Hr. simpl.
  destruct Hcase as [(-> & Hlen & Hal3)|(-> & -> & Hal3)]; cbn [Z.ltb Z.compare].
  - assert (a + 4096 = pgup oldsz + 4096 * Z.of_nat (length (ps ++ [v]))) as E
      by (rewrite length_app; simpl; lia).
    rewrite u32_small by (unfold KERNBASE in *; lia). rewrite E.
    eapply alloc_result_mono, (IH s3 l3); [|done|rewrite <-E..]; simpl length;
      Z.to_euclidean_division_equations; lia.
  - eapply alloc_result_mono, alloc_undo_free_result; [|done|lia..].
    simpl. subst a. Z.to_euclidean_division_equations. lia.
Qed.
End allocuvm_loop.

(** C11: allocuvm returns.  On success, [newsz], the addresses from the old size to the
    new one, rounded up to pages, are mapped writable to distinct pages that were free
    and are now zero; it fails (0) only when the free pages are fewer than twice the
    pages to add, and then no translation has changed and the data pages are free
    again; page tables added on the way are kept. *)
Theorem allocuvm_run s l pgdir oldsz newsz :
  aspace s l pgdir → 0 ≤ oldsz ≤ newsz → newsz < KERNBASE →
  (∀ va, pgup oldsz ≤ va < pgup newsz → xlate (pm_mem s) pgdir va = None) →
  alloc_result s l pgdir oldsz newsz (2048 * Z.of_nat (length l) < pgup newsz - pgup oldsz)
    (allocuvm pgdir oldsz newsz s).
Proof.
  intros Has Hold Hnew Hn. unfold allocuvm. rewrite (proj2 (Z.leb_gt _ _)) by done.
  rewrite (proj2 (Z.ltb_ge _ _)) by lia. rewrite PGROUNDUP_eq by (unfold KERNBASE in *; lia).
  fold (pgup oldsz). change PGSIZE with 4096. pose proof (pgup_bounds oldsz). pose proof (pgup_bounds newsz).
  pose proof (allocuvm_loop_spec s l pgdir oldsz newsz ltac:(lia) Hnew Hn
    (S (Z.to_nat ((newsz - pgup oldsz) `div` 4096 + 1))) s l []) as Hloop.
  simpl length in Hloop. rewrite Z.mul_0_r, Z.add_0_r in Hloop.
  apply Hloop; [by apply allocated_nil|..]; Z.to_euclidean_division_equations; lia.
Qed.

(** C16: deallocuvm returns the new size, with exactly the user pages between the new
    and the old size, rounded up to pages, unmapped and back on the free list, and no
    other translation or memory changed. *)
Theorem deallocuvm_frees s l pgdir oldsz newsz :
  aspace s l pgdir → 0 ≤ newsz → newsz < oldsz → oldsz ≤ KERNBASE →
  udata s l pgdir (pgup newsz) (pgup oldsz) →
  ∃ s' l', deallocuvm pgdir oldsz newsz s = Ok newsz s' ∧ aspace s' l' pgdir ∧
    (∀ va, 0 ≤ va < 2 ^ 32 → xlate (pm_mem s') pgdir va =
       if decide (pgup newsz ≤ va < pgup oldsz) then None else xlate (pm_mem s) pgdir va) ∧
    (∀ p, p ∈ l' ↔ p ∈ l ∨ ∃ va e, pgup newsz ≤ va < pgup oldsz ∧
       xlate (pm_mem s) pgdir va = Some e ∧ p = pte_page e) ∧
    frame (λ p, own (pm_mem s) pgdir p ∨ (p ∈ l' ∧ p ∉ l)) (pm_mem s) (pm_mem s').
Proof.
  intros Has Hnew Hlt Hhi Hud. destruct (deallocuvm_run s l pgdir oldsz newsz) as (s' & l' & Hr & Hu); try done.
  exists s', l'. destruct Hu. by split_and!.
Qed.

End uservm.
