(* ===== verification/KState.v ===== *)
(** * Data structures and state of the kernel

    The structs of proc.h, cm.h, shmem.h, file.h, fs.h, buf.h and log.c as records,
    and the kernel's global variables as one state record.  A pointer into one of
    the kernel's tables is the index of its entry ([None] for NULL); a pointer to
    other memory is an address.  Arrays of characters are lists of bytes.  Every
    spinlock is named by a [lockid]; the state holds the locks the processor has. *)
From S2P Require Import Prelude Mem Mmu Kalloc.

(** ** Constants (param.h, proc.h, cm.h, fs.h, proc.c, pipe.c) *)
Definition NPROC : nat := 64.
Definition KSTACKSIZE : Z := 4096.
Definition NOFILE : nat := 16.
Definition NFILE : nat := 100.
Definition NINODE : nat := 50.
Definition NDEV : Z := 10.
Definition ROOTDEV : Z := 1.
Definition MAXARG : nat := 32.
Definition MAXOPBLOCKS : Z := 10.
Definition LOGSIZE : Z := MAXOPBLOCKS * 3.
Definition NBUF : nat := 30.
Definition SHM_MAXNUM : nat := 4.
Definition MUX_MAXNUM : nat := 16.
Definition MAX_NUM_CONTAINERS : nat := 4.
Definition NBIN : nat := 16.
Definition BSIZE : Z := 1024.
Definition FSSIZE : Z := 1000.
Definition NDIRECT : nat := 12.
Definition NINDIRECT : nat := 256.
Definition PIPESIZE : Z := 512.
Definition UINT_MAX : Z := 0xFFFFFFFF.

(** The table sizes are not unfolded by [simpl]. *)
#[global] Arguments NPROC : simpl never.
#[global] Arguments NOFILE : simpl never.
#[global] Arguments NFILE : simpl never.
#[global] Arguments NINODE : simpl never.
#[global] Arguments NBUF : simpl never.
#[global] Arguments SHM_MAXNUM : simpl never.
#[global] Arguments MUX_MAXNUM : simpl never.
#[global] Arguments MAX_NUM_CONTAINERS : simpl never.
#[global] Arguments NBIN : simpl never.
#[global] Arguments NDIRECT : simpl never.
#[global] Arguments NINDIRECT : simpl never.

(** Wait channels: the addresses processes sleep on. *)
Inductive chan :=
  | ChProc (i : nat)        (* &ptable.proc[i] *)
  | ChMutex (i : nat)       (* &mtable.mux[i] *)
  | ChTicks                 (* &ticks *)
  | ChLog                   (* &log *)
  | ChBuf (i : nat)         (* &bcache.buf[i].lock *)
  | ChInode (i : nat)       (* &icache.inode[i].lock *)
  | ChPipeRead (a : Z)      (* &p->nread *)
  | ChPipeWrite (a : Z)     (* &p->nwrite *)
  | ChInput.                (* &input.r *)

#[global] Instance chan_eq_dec : EqDecision chan.
Proof. solve_decision. Defined.

(** struct trapframe (x86.h). *)
Record trapframe := Tf {
  tf_edi : Z;
  tf_esi : Z;
  tf_ebp : Z;
  tf_oesp : Z;
  tf_ebx : Z;
  tf_edx : Z;
  tf_ecx : Z;
  tf_eax : Z;
  tf_gs : Z;
  tf_fs : Z;
  tf_es : Z;
  tf_ds : Z;
  tf_trapno : Z;
  tf_err : Z;
  tf_eip : Z;
  tf_cs : Z;
  tf_eflags : Z;
  tf_esp : Z;
  tf_ss : Z;
}.
Definition eta_trapframe (r : trapframe) : trapframe := Tf (tf_edi r) (tf_esi r) (tf_ebp r)
  (tf_oesp r) (tf_ebx r) (tf_edx r) (tf_ecx r) (tf_eax r) (tf_gs r) (tf_fs r) (tf_es r)
  (tf_ds r) (tf_trapno r) (tf_err r) (tf_eip r) (tf_cs r) (tf_eflags r) (tf_esp r) (tf_ss
  r).
#[global] Instance upd_tf_edi : Upd tf_edi := ltac:(mk_upd eta_trapframe tf_edi).
#[global] Instance upd_tf_esi : Upd tf_esi := ltac:(mk_upd eta_trapframe tf_esi).
#[global] Instance upd_tf_ebp : Upd tf_ebp := ltac:(mk_upd eta_trapframe tf_ebp).
#[global] Instance upd_tf_oesp : Upd tf_oesp := ltac:(mk_upd eta_trapframe tf_oesp).
#[global] Instance upd_tf_ebx : Upd tf_ebx := ltac:(mk_upd eta_trapframe tf_ebx).
#[global] Instance upd_tf_edx : Upd tf_edx := ltac:(mk_upd eta_trapframe tf_edx).
#[global] Instance upd_tf_ecx : Upd tf_ecx := ltac:(mk_upd eta_trapframe tf_ecx).
#[global] Instance upd_tf_eax : Upd tf_eax := ltac:(mk_upd eta_trapframe tf_eax).
#[global] Instance upd_tf_gs : Upd tf_gs := ltac:(mk_upd eta_trapframe tf_gs).
#[global] Instance upd_tf_fs : Upd tf_fs := ltac:(mk_upd eta_trapframe tf_fs).
#[global] Instance upd_tf_es : Upd tf_es := ltac:(mk_upd eta_trapframe tf_es).
#[global] Instance upd_tf_ds : Upd tf_ds := ltac:(mk_upd eta_trapframe tf_ds).
#[global] Instance upd_tf_trapno : Upd tf_trapno := ltac:(mk_upd eta_trapframe tf_trapno).
#[global] Instance upd_tf_err : Upd tf_err := ltac:(mk_upd eta_trapframe tf_err).
#[global] Instance upd_tf_eip : Upd tf_eip := ltac:(mk_upd eta_trapframe tf_eip).
#[global] Instance upd_tf_cs : Upd tf_cs := ltac:(mk_upd eta_trapframe tf_cs).
#[global] Instance upd_tf_eflags : Upd tf_eflags := ltac:(mk_upd eta_trapframe tf_eflags).
#[global] Instance upd_tf_esp : Upd tf_esp := ltac:(mk_upd eta_trapframe tf_esp).
#[global] Instance upd_tf_ss : Upd tf_ss := ltac:(mk_upd eta_trapframe tf_ss).

(** struct context (proc.h). *)
Record context := Ctx {
  cx_edi : Z;
  cx_esi : Z;
  cx_ebx : Z;
  cx_ebp : Z;
  cx_eip : Z;
}.
Definition eta_context (r : context) : context := Ctx (cx_edi r) (cx_esi r) (cx_ebx r)
  (cx_ebp r) (cx_eip r).
#[global] Instance upd_cx_edi : Upd cx_edi := ltac:(mk_upd eta_context cx_edi).
#[global] Instance upd_cx_esi : Upd cx_esi := ltac:(mk_upd eta_context cx_esi).
#[global] Instance upd_cx_ebx : Upd cx_ebx := ltac:(mk_upd eta_context cx_ebx).
#[global] Instance upd_cx_ebp : Upd cx_ebp := ltac:(mk_upd eta_context cx_ebp).
#[global] Instance upd_cx_eip : Upd cx_eip := ltac:(mk_upd eta_context cx_eip).

(** struct shmem (proc.h): one shared page of a process. *)
Record shmem := Shmem {
  sh_in_use : Z;
  sh_name : list Z;  (* char name[16] *)
  sh_va : Z;
  sh_global : option nat;  (* global_ptr: an index of shm_list.list *)
}.
Definition eta_shmem (r : shmem) : shmem := Shmem (sh_in_use r) (sh_name r) (sh_va r)
  (sh_global r).
#[global] Instance upd_sh_in_use : Upd sh_in_use := ltac:(mk_upd eta_shmem sh_in_use).
#[global] Instance upd_sh_name : Upd sh_name := ltac:(mk_upd eta_shmem sh_name).
#[global] Instance upd_sh_va : Upd sh_va := ltac:(mk_upd eta_shmem sh_va).
#[global] Instance upd_sh_global : Upd sh_global := ltac:(mk_upd eta_shmem sh_global).

(** struct shared_mem (shmem.h): one shared page of the system. *)
Record shared_mem := SharedMem {
  g_name : list Z;  (* char name[16] *)
  g_pa : Z;
  g_refcount : Z;
  g_in_use : Z;
  g_container_id : Z;
}.
Definition eta_shared_mem (r : shared_mem) : shared_mem := SharedMem (g_name r) (g_pa r)
  (g_refcount r) (g_in_use r) (g_container_id r).
#[global] Instance upd_g_name : Upd g_name := ltac:(mk_upd eta_shared_mem g_name).
#[global] Instance upd_g_pa : Upd g_pa := ltac:(mk_upd eta_shared_mem g_pa).
#[global] Instance upd_g_refcount : Upd g_refcount := ltac:(mk_upd eta_shared_mem g_refcount).
#[global] Instance upd_g_in_use : Upd g_in_use := ltac:(mk_upd eta_shared_mem g_in_use).
#[global] Instance upd_g_container_id : Upd g_container_id := ltac:(mk_upd eta_shared_mem g_container_id).

(** struct mutex (proc.h). *)
Record mutex := Mutex {
  m_locked : Z;
  m_isAlloc : Z;
  m_pid : Z;
  m_name : list Z;  (* char name[20] *)
  m_refcount : Z;
  m_container_id : Z;
  m_cv : Z;
}.
Definition eta_mutex (r : mutex) : mutex := Mutex (m_locked r) (m_isAlloc r) (m_pid r)
  (m_name r) (m_refcount r) (m_container_id r) (m_cv r).
#[global] Instance upd_m_locked : Upd m_locked := ltac:(mk_upd eta_mutex m_locked).
#[global] Instance upd_m_isAlloc : Upd m_isAlloc := ltac:(mk_upd eta_mutex m_isAlloc).
#[global] Instance upd_m_pid : Upd m_pid := ltac:(mk_upd eta_mutex m_pid).
#[global] Instance upd_m_name : Upd m_name := ltac:(mk_upd eta_mutex m_name).
#[global] Instance upd_m_refcount : Upd m_refcount := ltac:(mk_upd eta_mutex m_refcount).
#[global] Instance upd_m_container_id : Upd m_container_id := ltac:(mk_upd eta_mutex m_container_id).
#[global] Instance upd_m_cv : Upd m_cv := ltac:(mk_upd eta_mutex m_cv).

(** struct container (cm.h). *)
Record container := Container {
  c_container_id : Z;
  c_nproc : Z;
  c_init : Z;  (* char *init *)
  c_fs : Z;  (* char *fs *)
  c_root : option nat;  (* an index of icache.inode *)
}.
Definition eta_container (r : container) : container := Container (c_container_id r)
  (c_nproc r) (c_init r) (c_fs r) (c_root r).
#[global] Instance upd_c_container_id : Upd c_container_id := ltac:(mk_upd eta_container c_container_id).
#[global] Instance upd_c_nproc : Upd c_nproc := ltac:(mk_upd eta_container c_nproc).
#[global] Instance upd_c_init : Upd c_init := ltac:(mk_upd eta_container c_init).
#[global] Instance upd_c_fs : Upd c_fs := ltac:(mk_upd eta_container c_fs).
#[global] Instance upd_c_root : Upd c_root := ltac:(mk_upd eta_container c_root).

(** enum procstate (proc.h). *)
Inductive procstate := UNUSED | EMBRYO | SLEEPING | RUNNABLE | RUNNING | ZOMBIE.
#[global] Instance procstate_eq_dec : EqDecision procstate.
Proof. solve_decision. Defined.

(** struct proc (proc.h). *)
Record proc := Proc {
  p_sz : Z;
  p_pgdir : Z;
  p_kstack : Z;
  p_state : procstate;
  p_pid : Z;
  p_parent : option nat;  (* an index of ptable.proc *)
  p_tf : trapframe;  (* *tf *)
  p_context : context;  (* *context *)
  p_chan : option chan;
  p_killed : Z;
  p_ofile : list (option nat);  (* indices of ftable.file *)
  p_cwd : option nat;  (* an index of icache.inode *)
  p_name : list Z;  (* char name[16] *)
  p_shared_mem : list shmem;
  p_container : option nat;  (* an index of containers.Arr *)
  p_container_id : Z;
  p_mutex : list (option nat);  (* indices of mtable.mux *)
  p_priority : Z;
  p_next : option nat;  (* an index of ptable.proc *)
}.
Definition eta_proc (r : proc) : proc := Proc (p_sz r) (p_pgdir r) (p_kstack r) (p_state r)
  (p_pid r) (p_parent r) (p_tf r) (p_context r) (p_chan r) (p_killed r) (p_ofile r) (p_cwd
  r) (p_name r) (p_shared_mem r) (p_container r) (p_container_id r) (p_mutex r) (p_priority
  r) (p_next r).
#[global] Instance upd_p_sz : Upd p_sz := ltac:(mk_upd eta_proc p_sz).
#[global] Instance upd_p_pgdir : Upd p_pgdir := ltac:(mk_upd eta_proc p_pgdir).
#[global] Instance upd_p_kstack : Upd p_kstack := ltac:(mk_upd eta_proc p_kstack).
#[global] Instance upd_p_state : Upd p_state := ltac:(mk_upd eta_proc p_state).
#[global] Instance upd_p_pid : Upd p_pid := ltac:(mk_upd eta_proc p_pid).
#[global] Instance upd_p_parent : Upd p_parent := ltac:(mk_upd eta_proc p_parent).
#[global] Instance upd_p_tf : Upd p_tf := ltac:(mk_upd eta_proc p_tf).
#[global] Instance upd_p_context : Upd p_context := ltac:(mk_upd eta_proc p_context).
#[global] Instance upd_p_chan : Upd p_chan := ltac:(mk_upd eta_proc p_chan).
#[global] Instance upd_p_killed : Upd p_killed := ltac:(mk_upd eta_proc p_killed).
#[global] Instance upd_p_ofile : Upd p_ofile := ltac:(mk_upd eta_proc p_ofile).
#[global] Instance upd_p_cwd : Upd p_cwd := ltac:(mk_upd eta_proc p_cwd).
#[global] Instance upd_p_name : Upd p_name := ltac:(mk_upd eta_proc p_name).
#[global] Instance upd_p_shared_mem : Upd p_shared_mem := ltac:(mk_upd eta_proc p_shared_mem).
#[global] Instance upd_p_container : Upd p_container := ltac:(mk_upd eta_proc p_container).
#[global] Instance upd_p_container_id : Upd p_container_id := ltac:(mk_upd eta_proc p_container_id).
#[global] Instance upd_p_mutex : Upd p_mutex := ltac:(mk_upd eta_proc p_mutex).
#[global] Instance upd_p_priority : Upd p_priority := ltac:(mk_upd eta_proc p_priority).
#[global] Instance upd_p_next : Upd p_next := ltac:(mk_upd eta_proc p_next).

(** struct list (proc.h): one bin of the priority queue. *)
Record plist := Plist {
  l_head : option nat;
  l_tail : option nat;
  l_size : Z;
}.
Definition eta_plist (r : plist) : plist := Plist (l_head r) (l_tail r) (l_size r).
#[global] Instance upd_l_head : Upd l_head := ltac:(mk_upd eta_plist l_head).
#[global] Instance upd_l_tail : Upd l_tail := ltac:(mk_upd eta_plist l_tail).
#[global] Instance upd_l_size : Upd l_size := ltac:(mk_upd eta_plist l_size).

(** The enum in struct file (file.h). *)
Inductive filetype := FD_NONE | FD_PIPE | FD_INODE.
#[global] Instance filetype_eq_dec : EqDecision filetype.
Proof. solve_decision. Defined.

(** struct file (file.h). *)
Record file := File {
  f_type : filetype;
  f_ref : Z;
  f_readable : bool;
  f_writable : bool;
  f_pipe : Z;  (* address of a struct pipe *)
  f_ip : option nat;  (* an index of icache.inode *)
  f_off : Z;
}.
Definition eta_file (r : file) : file := File (f_type r) (f_ref r) (f_readable r)
  (f_writable r) (f_pipe r) (f_ip r) (f_off r).
#[global] Instance upd_f_type : Upd f_type := ltac:(mk_upd eta_file f_type).
#[global] Instance upd_f_ref : Upd f_ref := ltac:(mk_upd eta_file f_ref).
#[global] Instance upd_f_readable : Upd f_readable := ltac:(mk_upd eta_file f_readable).
#[global] Instance upd_f_writable : Upd f_writable := ltac:(mk_upd eta_file f_writable).
#[global] Instance upd_f_pipe : Upd f_pipe := ltac:(mk_upd eta_file f_pipe).
#[global] Instance upd_f_ip : Upd f_ip := ltac:(mk_upd eta_file f_ip).
#[global] Instance upd_f_off : Upd f_off := ltac:(mk_upd eta_file f_off).

(** struct pipe (pipe.c). *)
Record pipe := Pipe {
  pi_data : list Z;  (* char data[PIPESIZE] *)
  pi_nread : Z;
  pi_nwrite : Z;
  pi_readopen : bool;
  pi_writeopen : bool;
}.
Definition eta_pipe (r : pipe) : pipe := Pipe (pi_data r) (pi_nread r) (pi_nwrite r)
  (pi_readopen r) (pi_writeopen r).
#[global] Instance upd_pi_data : Upd pi_data := ltac:(mk_upd eta_pipe pi_data).
#[global] Instance upd_pi_nread : Upd pi_nread := ltac:(mk_upd eta_pipe pi_nread).
#[global] Instance upd_pi_nwrite : Upd pi_nwrite := ltac:(mk_upd eta_pipe pi_nwrite).
#[global] Instance upd_pi_readopen : Upd pi_readopen := ltac:(mk_upd eta_pipe pi_readopen).
#[global] Instance upd_pi_writeopen : Upd pi_writeopen := ltac:(mk_upd eta_pipe pi_writeopen).

(** struct sleeplock (sleeplock.h). *)
Record sleeplock := Slock {
  sl_locked : bool;
  sl_pid : Z;
}.
Definition eta_sleeplock (r : sleeplock) : sleeplock := Slock (sl_locked r) (sl_pid r).
#[global] Instance upd_sl_locked : Upd sl_locked := ltac:(mk_upd eta_sleeplock sl_locked).
#[global] Instance upd_sl_pid : Upd sl_pid := ltac:(mk_upd eta_sleeplock sl_pid).

(** struct inode (file.h). *)
Record inode := Inode {
  i_dev : Z;
  i_inum : Z;
  i_ref : Z;
  i_lock : sleeplock;
  i_valid : bool;
  i_type : Z;
  i_major : Z;
  i_minor : Z;
  i_nlink : Z;
  i_size : Z;
  i_addrs : list Z;  (* NDIRECT+1 block numbers *)
}.
Definition eta_inode (r : inode) : inode := Inode (i_dev r) (i_inum r) (i_ref r) (i_lock r)
  (i_valid r) (i_type r) (i_major r) (i_minor r) (i_nlink r) (i_size r) (i_addrs r).
#[global] Instance upd_i_dev : Upd i_dev := ltac:(mk_upd eta_inode i_dev).
#[global] Instance upd_i_inum : Upd i_inum := ltac:(mk_upd eta_inode i_inum).
#[global] Instance upd_i_ref : Upd i_ref := ltac:(mk_upd eta_inode i_ref).
#[global] Instance upd_i_lock : Upd i_lock := ltac:(mk_upd eta_inode i_lock).
#[global] Instance upd_i_valid : Upd i_valid := ltac:(mk_upd eta_inode i_valid).
#[global] Instance upd_i_type : Upd i_type := ltac:(mk_upd eta_inode i_type).
#[global] Instance upd_i_major : Upd i_major := ltac:(mk_upd eta_inode i_major).
#[global] Instance upd_i_minor : Upd i_minor := ltac:(mk_upd eta_inode i_minor).
#[global] Instance upd_i_nlink : Upd i_nlink := ltac:(mk_upd eta_inode i_nlink).
#[global] Instance upd_i_size : Upd i_size := ltac:(mk_upd eta_inode i_size).
#[global] Instance upd_i_addrs : Upd i_addrs := ltac:(mk_upd eta_inode i_addrs).

(** struct buf (buf.h). *)
Record buf := Buf {
  b_flags : Z;
  b_dev : Z;
  b_blockno : Z;
  b_lock : sleeplock;
  b_refcnt : Z;
  b_prev : nat;  (* index, NBUF for bcache.head *)
  b_next : nat;
  b_data : list Z;  (* uchar data[BSIZE] *)
}.
Definition eta_buf (r : buf) : buf := Buf (b_flags r) (b_dev r) (b_blockno r) (b_lock r)
  (b_refcnt r) (b_prev r) (b_next r) (b_data r).
#[global] Instance upd_b_flags : Upd b_flags := ltac:(mk_upd eta_buf b_flags).
#[global] Instance upd_b_dev : Upd b_dev := ltac:(mk_upd eta_buf b_dev).
#[global] Instance upd_b_blockno : Upd b_blockno := ltac:(mk_upd eta_buf b_blockno).
#[global] Instance upd_b_lock : Upd b_lock := ltac:(mk_upd eta_buf b_lock).
#[global] Instance upd_b_refcnt : Upd b_refcnt := ltac:(mk_upd eta_buf b_refcnt).
#[global] Instance upd_b_prev : Upd b_prev := ltac:(mk_upd eta_buf b_prev).
#[global] Instance upd_b_next : Upd b_next := ltac:(mk_upd eta_buf b_next).
#[global] Instance upd_b_data : Upd b_data := ltac:(mk_upd eta_buf b_data).

(** struct superblock (fs.h). *)
Record superblock := Sb {
  sb_size : Z;
  sb_nblocks : Z;
  sb_ninodes : Z;
  sb_nlog : Z;
  sb_logstart : Z;
  sb_inodestart : Z;
  sb_bmapstart : Z;
}.
Definition eta_superblock (r : superblock) : superblock := Sb (sb_size r) (sb_nblocks r)
  (sb_ninodes r) (sb_nlog r) (sb_logstart r) (sb_inodestart r) (sb_bmapstart r).
#[global] Instance upd_sb_size : Upd sb_size := ltac:(mk_upd eta_superblock sb_size).
#[global] Instance upd_sb_nblocks : Upd sb_nblocks := ltac:(mk_upd eta_superblock sb_nblocks).
#[global] Instance upd_sb_ninodes : Upd sb_ninodes := ltac:(mk_upd eta_superblock sb_ninodes).
#[global] Instance upd_sb_nlog : Upd sb_nlog := ltac:(mk_upd eta_superblock sb_nlog).
#[global] Instance upd_sb_logstart : Upd sb_logstart := ltac:(mk_upd eta_superblock sb_logstart).
#[global] Instance upd_sb_inodestart : Upd sb_inodestart := ltac:(mk_upd eta_superblock sb_inodestart).
#[global] Instance upd_sb_bmapstart : Upd sb_bmapstart := ltac:(mk_upd eta_superblock sb_bmapstart).

(** struct log and its struct logheader (log.c). *)
Record log := Log {
  lg_start : Z;
  lg_size : Z;
  lg_outstanding : Z;
  lg_committing : bool;
  lg_dev : Z;
  lg_n : Z;  (* lh.n *)
  lg_block : list Z;  (* lh.block[LOGSIZE] *)
}.
Definition eta_log (r : log) : log := Log (lg_start r) (lg_size r) (lg_outstanding r)
  (lg_committing r) (lg_dev r) (lg_n r) (lg_block r).
#[global] Instance upd_lg_start : Upd lg_start := ltac:(mk_upd eta_log lg_start).
#[global] Instance upd_lg_size : Upd lg_size := ltac:(mk_upd eta_log lg_size).
#[global] Instance upd_lg_outstanding : Upd lg_outstanding := ltac:(mk_upd eta_log lg_outstanding).
#[global] Instance upd_lg_committing : Upd lg_committing := ltac:(mk_upd eta_log lg_committing).
#[global] Instance upd_lg_dev : Upd lg_dev := ltac:(mk_upd eta_log lg_dev).
#[global] Instance upd_lg_n : Upd lg_n := ltac:(mk_upd eta_log lg_n).
#[global] Instance upd_lg_block : Upd lg_block := ltac:(mk_upd eta_log lg_block).

(** The kernel's spinlocks. *)
Inductive lockid :=
  | Lptable | Lpqueue | Lmtable | Lcontainers | Lshm | Lftable | Licache | Lbcache
  | Llog | Ltickslock | Lsleep (c : chan) | Lpipe (a : Z) | Lcons.

#[global] Instance lockid_eq_dec : EqDecision lockid.
Proof. solve_decision. Defined.

(** The console: [input] (console.c), the CGA memory and cursor, the characters sent to
    the serial port, latest first, and [shift] (kbd.c). *)
Record console := Console {
  cn_buf : list Z;
  cn_r : Z;
  cn_w : Z;
  cn_e : Z;
  cn_crt : list Z;
  cn_pos : Z;
  cn_uart : list Z;
  cn_shift : Z;
}.
Definition eta_console (r : console) : console :=
  Console (cn_buf r) (cn_r r) (cn_w r) (cn_e r) (cn_crt r) (cn_pos r) (cn_uart r) (cn_shift r).
#[global] Instance upd_cn_buf : Upd cn_buf := ltac:(mk_upd eta_console cn_buf).
#[global] Instance upd_cn_r : Upd cn_r := ltac:(mk_upd eta_console cn_r).
#[global] Instance upd_cn_w : Upd cn_w := ltac:(mk_upd eta_console cn_w).
#[global] Instance upd_cn_e : Upd cn_e := ltac:(mk_upd eta_console cn_e).
#[global] Instance upd_cn_crt : Upd cn_crt := ltac:(mk_upd eta_console cn_crt).
#[global] Instance upd_cn_pos : Upd cn_pos := ltac:(mk_upd eta_console cn_pos).
#[global] Instance upd_cn_uart : Upd cn_uart := ltac:(mk_upd eta_console cn_uart).
#[global] Instance upd_cn_shift : Upd cn_shift := ltac:(mk_upd eta_console cn_shift).

(** The kernel state: the global variables of the kernel, and the spinlocks held. *)
Record kst := Kst {
  k_pm : pmem;  (* memory and kmem (kalloc.c) *)
  k_ptable : list proc;  (* ptable.proc *)
  k_nextpid : Z;
  k_initproc : option nat;
  k_cur : option nat;  (* mycpu()->proc *)
  k_containers : list container;  (* containers.Arr *)
  k_nextcid : Z;
  k_mtable : list mutex;  (* mtable.mux *)
  k_pqueue : list plist;  (* pqueue.Arr *)
  k_shm : list shared_mem;  (* shm_list.list (vm.c) *)
  k_ftable : list file;  (* ftable.file (file.c) *)
  k_pipes : gmap Z pipe;  (* the struct pipes, by address *)
  k_icache : list inode;  (* icache.inode (fs.c) *)
  k_sb : superblock;  (* sb (fs.c) *)
  k_bufs : list buf;  (* bcache.buf, then bcache.head (bio.c) *)
  k_log : log;
  k_disk : list (list Z);  (* memdisk (memide.c), by block *)
  k_dlog : list (nat * list Z);  (* ghost: the block writes to memdisk, latest first *)
  k_ticks : Z;
  k_held : list lockid;  (* the spinlocks this processor holds *)
  k_cons : console;
}.
Definition eta_kst (r : kst) : kst := Kst (k_pm r) (k_ptable r) (k_nextpid r) (k_initproc r)
  (k_cur r) (k_containers r) (k_nextcid r) (k_mtable r) (k_pqueue r) (k_shm r) (k_ftable r)
  (k_pipes r) (k_icache r) (k_sb r) (k_bufs r) (k_log r) (k_disk r) (k_dlog r)
  (k_ticks r) (k_held r) (k_cons r).
#[global] Instance upd_k_pm : Upd k_pm := ltac:(mk_upd eta_kst k_pm).
#[global] Instance upd_k_ptable : Upd k_ptable := ltac:(mk_upd eta_kst k_ptable).
#[global] Instance upd_k_nextpid : Upd k_nextpid := ltac:(mk_upd eta_kst k_nextpid).
#[global] Instance upd_k_initproc : Upd k_initproc := ltac:(mk_upd eta_kst k_initproc).
#[global] Instance upd_k_cur : Upd k_cur := ltac:(mk_upd eta_kst k_cur).
#[global] Instance upd_k_containers : Upd k_containers := ltac:(mk_upd eta_kst k_containers).
#[global] Instance upd_k_nextcid : Upd k_nextcid := ltac:(mk_upd eta_kst k_nextcid).
#[global] Instance upd_k_mtable : Upd k_mtable := ltac:(mk_upd eta_kst k_mtable).
#[global] Instance upd_k_pqueue : Upd k_pqueue := ltac:(mk_upd eta_kst k_pqueue).
#[global] Instance upd_k_shm : Upd k_shm := ltac:(mk_upd eta_kst k_shm).
#[global] Instance upd_k_ftable : Upd k_ftable := ltac:(mk_upd eta_kst k_ftable).
#[global] Instance upd_k_pipes : Upd k_pipes := ltac:(mk_upd eta_kst k_pipes).
#[global] Instance upd_k_icache : Upd k_icache := ltac:(mk_upd eta_kst k_icache).
#[global] Instance upd_k_sb : Upd k_sb := ltac:(mk_upd eta_kst k_sb).
#[global] Instance upd_k_bufs : Upd k_bufs := ltac:(mk_upd eta_kst k_bufs).
#[global] Instance upd_k_log : Upd k_log := ltac:(mk_upd eta_kst k_log).
#[global] Instance upd_k_disk : Upd k_disk := ltac:(mk_upd eta_kst k_disk).
#[global] Instance upd_k_dlog : Upd k_dlog := ltac:(mk_upd eta_kst k_dlog).
#[global] Instance upd_k_ticks : Upd k_ticks := ltac:(mk_upd eta_kst k_ticks).
#[global] Instance upd_k_held : Upd k_held := ltac:(mk_upd eta_kst k_held).
#[global] Instance upd_k_cons : Upd k_cons := ltac:(mk_upd eta_kst k_cons).

(** Two states are equal when their fields are. *)
Lemma kst_ext (s t : kst) :
  k_pm s = k_pm t →
  k_ptable s = k_ptable t →
  k_nextpid s = k_nextpid t →
  k_initproc s = k_initproc t →
  k_cur s = k_cur t →
  k_containers s = k_containers t →
  k_nextcid s = k_nextcid t →
  k_mtable s = k_mtable t →
  k_pqueue s = k_pqueue t →
  k_shm s = k_shm t →
  k_ftable s = k_ftable t →
  k_pipes s = k_pipes t →
  k_icache s = k_icache t →
  k_sb s = k_sb t →
  k_bufs s = k_bufs t →
  k_log s = k_log t →
  k_disk s = k_disk t →
  k_dlog s = k_dlog t →
  k_ticks s = k_ticks t →
  k_held s = k_held t →
  k_cons s = k_cons t → s = t.
Proof. destruct s, t; simpl. intros. by subst. Qed.

(** ** The state at load time

    The globals of the kernel as the loader leaves them: zero, but for [nextpid] and
    [nextcid]. *)
Definition zeros (n : nat) : list Z := replicate n 0.
Definition tf0 : trapframe := Tf 0 0 0 0 0 0 0 0 0 0 0 0 0 0 0 0 0 0 0.
Definition shmem0 : shmem := Shmem 0 (zeros 16) 0 None.
Definition proc0 : proc :=
  Proc 0 0 0 UNUSED 0 None tf0 (Ctx 0 0 0 0 0) None 0 (replicate NOFILE None) None (zeros 16)
    (replicate SHM_MAXNUM shmem0) None 0 (replicate MUX_MAXNUM None) 0 None.
Definition mutex0 : mutex := Mutex 0 0 0 (zeros 20) 0 0 0.
Definition container0 : container := Container 0 0 0 0 None.
Definition shared_mem0 : shared_mem := SharedMem (zeros 16) 0 0 0 0.
Definition file0 : file := File FD_NONE 0 false false 0 None 0.
Definition inode0 : inode := Inode 0 0 0 (Slock false 0) false 0 0 0 0 0 (zeros 13).
Definition buf0 : buf := Buf 0 0 0 (Slock false 0) 0 0 0 (zeros 1024).

Definition bss (disk : list (list Z)) : kst :=
  Kst (Pm (λ _, 0) false false 0) (replicate NPROC proc0) 1 None None
    (replicate MAX_NUM_CONTAINERS container0) 1 (replicate MUX_MAXNUM mutex0)
    (replicate NBIN (Plist None None 0)) (replicate SHM_MAXNUM shared_mem0) (replicate NFILE file0)
    ∅ (replicate NINODE inode0) (Sb 0 0 0 0 0 0 0) (replicate (S NBUF) buf0)
    (Log 0 0 0 false 0 0 (zeros 30)) disk [] 0 []
    (Console (zeros 128) 0 0 0 (zeros 2000) 0 [] 0).
