(* ===== verification/Sched.v ===== *)
(** * Locks, sleeping and waking (spinlock.c, sleeplock.c, the end of proc.c)

    The state is seen from one processor: a spinlock is in [k_held] or not, and
    code that holds a spinlock runs without interference.  The points where other
    processes run are the context switches of [sched]. *)
From S2P Require Import Prelude Mem Mmu Kalloc KState.

Abbreviation K := (M kst).

(** The number of times a sleeping loop may be woken and sleep again. *)
Class Bound := wakeups : nat.

(** Two states written as updates of the same state are equal field by field. *)
Ltac kst_eq :=
  repeat match goal with s := _ : kst |- _ => subst s end;
  apply kst_ext; simpl; first [done|congruence|by rewrite !list_insert_insert_eq].
(** Rewrite the state in which the goal's routine runs to [t]. *)
Ltac at_state t :=
  match goal with
  | |- bind _ _ ?s = _ => replace s with t by kst_eq
  | |- ?m ?s = Ok _ _ => replace s with t by kst_eq
  | |- context [bind _ _ ?s] => replace s with t by kst_eq
  end.

(** ** Access to the tables *)

Definition pm_do {A} (m : M pmem A) : K A := zoom k_pm (λ s t, t <| k_pm := s |>) m.

Definition getp (i : nat) : K proc := s <- get; deref "ptable.proc" (k_ptable s !! i).
Definition modp (i : nat) (f : proc → proc) : K unit :=
  p <- getp i; modify (λ s, s <| k_ptable ::= <[i := f p]> |>).

Definition getmux (i : nat) : K mutex := s <- get; deref "mtable.mux" (k_mtable s !! i).
Definition modmux (i : nat) (f : mutex → mutex) : K unit :=
  m <- getmux i; modify (λ s, s <| k_mtable ::= <[i := f m]> |>).

(** myproc(), which the caller dereferences. *)
Definition myproc : K nat := s <- get; deref "myproc()" (k_cur s).

(** ** Spinlocks *)

Definition holding (l : lockid) : K bool := gets (λ s, bool_decide (l ∈ k_held s)).

Definition acquire (l : lockid) : K unit :=
  h <- holding l;
  if h then panic "acquire" else modify (λ s, s <| k_held ::= cons l |>).

Definition release (l : lockid) : K unit :=
  h <- holding l;
  if h then modify (λ s, s <| k_held ::= filter (λ l', l' ≠ l) |>) else panic "release".

(** ** Context switches *)

(** swtch to the scheduler; the process goes on when the scheduler picks it. *)
Definition swtch : K unit := λ s, Switch s (λ s', Ok tt s').

Definition sched : K unit :=
  i <- myproc;
  h <- holding Lptable;
  if negb h then panic "sched ptable.lock" else
  ncli <- gets (λ s, length (k_held s));
  if negb (bool_decide (ncli = 1%nat)) then panic "sched locks" else
  p <- getp i;
  if decide (p_state p = RUNNING) then panic "sched running" else
  swtch.

Definition yield : K unit :=
  acquire Lptable;;
  i <- myproc;
  modp i (λ p, p <| p_state := RUNNABLE |>);;
  sched;;
  release Lptable.

(** One round of the loop of wakeup1. *)
Definition wake_proc (c : option chan) (p : proc) : proc :=
  if decide (p_state p = SLEEPING ∧ p_chan p = c) then p <| p_state := RUNNABLE |> else p.

(** sleep and wakeup access what other processors access too, so they are written as
    the sequence of their accesses: [kact_run] runs them one after the other, and
    Wakeup.v lets the accesses of other processors come between. *)
Inductive kact :=
  | KAcquire (l : lockid) | KRelease (l : lockid)
  | KChan (c : option chan)            (* p->chan = c *)
  | KState (st : procstate)            (* p->state = st *)
  | KSched                             (* sched() *)
  | KWake (j : nat) (c : option chan). (* round j of wakeup1 *)

Definition kact_run (i : nat) (a : kact) : K unit :=
  match a with
  | KAcquire l => acquire l
  | KRelease l => release l
  | KChan c => modp i (λ p, p <| p_chan := c |>)
  | KState st => modp i (λ p, p <| p_state := st |>)
  | KSched => sched
  | KWake j c => modify (λ s, s <| k_ptable ::= alter (wake_proc c) j |>)
  end.

Definition sleep_acts (c : chan) (lk : lockid) : list kact :=
  (if decide (lk = Lptable) then [] else [KAcquire Lptable; KRelease lk]) ++
  [KChan (Some c); KState SLEEPING; KSched; KChan None] ++
  (if decide (lk = Lptable) then [] else [KRelease Lptable; KAcquire lk]).

Definition sleep (c : chan) (lk : lockid) : K unit :=
  s <- get;
  match k_cur s with
  | None => panic "sleep"
  | Some i => forM (sleep_acts c lk) (kact_run i)
  end.

Definition wakeup1 (c : option chan) : K unit :=
  modify (λ s, s <| k_ptable ::= fmap (wake_proc c) |>).

Definition wakeup (c : chan) : K unit :=
  acquire Lptable;; wakeup1 (Some c);; release Lptable.

(** ** Sleeping locks

    [gl] and [ml] read and write the lock in its table. *)
Section sleeplock.
  Context `{Bound} (c : chan) (gl : K sleeplock) (ml : (sleeplock → sleeplock) → K unit).

Definition acquiresleep : K unit :=
  acquire (Lsleep c);;
  loop wakeups (λ _ : unit,
    l <- gl;
    if sl_locked l then sleep c (Lsleep c);; ret (inl tt) else ret (inr tt)) tt;;
  i <- myproc;
  p <- getp i;
  ml (λ l, l <| sl_locked := true |> <| sl_pid := p_pid p |>);;
  release (Lsleep c).

Definition releasesleep : K unit :=
  acquire (Lsleep c);;
  ml (λ l, l <| sl_locked := false |> <| sl_pid := 0 |>);;
  wakeup c;;
  release (Lsleep c).

Definition holdingsleep : K bool :=
  acquire (Lsleep c);;
  l <- gl;
  release (Lsleep c);;
  ret (sl_locked l).

End sleeplock.

(** ** What the operations do *)

Lemma getp_run i p s : k_ptable s !! i = Some p → getp i s = Ok p s.
Proof. intros Hp. unfold getp, bind. simpl. by rewrite Hp. Qed.

Lemma modp_run i p f s :
  k_ptable s !! i = Some p → modp i f s = Ok tt (s <| k_ptable ::= <[i := f p]> |>).
Proof. intros Hp. unfold modp, bind. by rewrite (getp_run i p). Qed.

Lemma getmux_run i m s : k_mtable s !! i = Some m → getmux i s = Ok m s.
Proof. intros Hm. unfold getmux, bind. simpl. by rewrite Hm. Qed.

Lemma modmux_run i m f s :
  k_mtable s !! i = Some m → modmux i f s = Ok tt (s <| k_mtable ::= <[i := f m]> |>).
Proof. intros Hm. unfold modmux, bind. by rewrite (getmux_run i m). Qed.

Lemma myproc_run i s : k_cur s = Some i → myproc s = Ok i s.
Proof. intros Hi. unfold myproc, bind. simpl. by rewrite Hi. Qed.

Lemma acquire_run l s : l ∉ k_held s → acquire l s = Ok tt (s <| k_held ::= cons l |>).
Proof. intros Hl. unfold acquire, holding, bind. simpl. by rewrite bool_decide_false. Qed.

Lemma release_any l s :
  l ∈ k_held s → release l s = Ok tt (s <| k_held ::= filter (λ l', l' ≠ l) |>).
Proof. intros Hl. unfold release, holding, bind. simpl. by rewrite bool_decide_true. Qed.

(** Releasing the lock acquired last. *)
Lemma release_run l s held :
  k_held s = l :: held → l ∉ held → release l s = Ok tt (s <| k_held := held |>).
Proof.
  intros Hs Hl. rewrite release_any by (rewrite Hs; left). f_equal.
  destruct s; simpl in *; subst. unfold upd, upd_k_held; simpl. f_equal.
  rewrite filter_cons_False by (intros ?; done). by apply filter_ne.
Qed.

Lemma kst_held_id s h : k_held s = h → s <| k_held := h |> = s.
Proof. intros <-. by destruct s. Qed.

Lemma release_top l s : l ∉ k_held s → release l (s <| k_held ::= cons l |>) = Ok tt s.
Proof.
  intros Hl. rewrite (release_run _ _ (k_held s)) by done. by destruct s.
Qed.

(** The processes that sleep on [c] are made runnable. *)
Definition woken (c : chan) (s : kst) : kst := s <| k_ptable ::= fmap (wake_proc (Some c)) |>.

(** wakeup makes the processes that sleep on [c] runnable and changes nothing else. *)
Lemma wakeup_run c s :
  Lptable ∉ k_held s →
  wakeup c s = Ok tt (woken c s).
Proof.
  intros Hl. unfold wakeup, bind. rewrite acquire_run by done. simpl.
  by rewrite (release_run _ _ (k_held s)) by (by destruct s).
Qed.

(** sched gives up the processor when the process is not running and ptable.lock is
    the only lock held. *)
Lemma sched_run i p s :
  k_cur s = Some i → k_ptable s !! i = Some p → p_state p ≠ RUNNING → k_held s = [Lptable] →
  sched s = Switch s (λ s', Ok tt s').
Proof.
  intros Hi Hp Hst Hh. unfold sched, bind. rewrite (myproc_run i) by done. simpl.
  unfold holding, gets. simpl. rewrite Hh, bool_decide_true by set_solver. simpl.
  rewrite Hh, bool_decide_true by done. simpl.
  rewrite (getp_run i p) by done. simpl. by rewrite decide_False.
Qed.

(** The process table with entry [i] asleep on [c]. *)
Definition asleep (c : chan) (p : proc) : proc := p <| p_chan := Some c |> <| p_state := SLEEPING |>.

Lemma sleep_on_run {B} c i p s (k : K B) :
  k_ptable s !! i = Some p →
  (modp i (λ p, p <| p_chan := Some c |>);; modp i (λ p, p <| p_state := SLEEPING |>);; k) s =
  k (s <| k_ptable ::= <[i := asleep c p]> |>).
Proof.
  intros Hp. run (modp_run i p); [|done]. run (modp_run i (p <| p_chan := Some c |>)).
  - f_equal. kst_eq.
  - simpl. by rewrite list_lookup_insert_eq by (by eapply lookup_lt_Some).
Qed.

Lemma sleep_run c lk i p s :
  k_cur s = Some i → k_ptable s !! i = Some p → k_held s = [lk] → lk ≠ Lptable →
  ∃ k, sleep c lk s =
    Switch (s <| k_ptable ::= <[i := asleep c p]> |> <| k_held := [Lptable] |>) k ∧
    ∀ s' p', k_ptable s' !! i = Some p' → k_held s' = [Lptable] →
      k s' = Ok tt (s' <| k_ptable ::= <[i := p' <| p_chan := None |>]> |> <| k_held := [lk] |>).
Proof.
  intros Hi Hp Hh Hlk. unfold sleep, sleep_acts. step. rewrite Hi, !decide_False by done. cbn [app forM kact_run].
  run acquire_run; [|rewrite Hh; set_solver]. run (release_any lk); [|simpl; rewrite Hh; set_solver].
  set (s1 := upd k_held _ (upd k_held _ s)).
  assert (s1 = s <| k_held := [Lptable] |>) as ->.
  { unfold s1, upd, upd_k_held. rewrite Hh. simpl. destruct s; simpl. f_equal.
    rewrite filter_cons_True by congruence. rewrite filter_cons_False; [done|congruence]. }
  rewrite (sleep_on_run c i p) by done. set (s2 := upd k_ptable _ _).
  assert (sched s2 = Switch s2 (λ s', Ok tt s')) as Hs.
  { apply (sched_run i (asleep c p)); try done. unfold s2. simpl. by rewrite list_lookup_insert_eq by (by eapply lookup_lt_Some). }
  eexists. split.
  - rewrite (bind_switch _ _ _ _ _ Hs). reflexivity.
  - intros s' p' Hp' Hh'. cbn beta. simpl. run (modp_run i p'); [|done].
    run (release_run Lptable _ []); [|done|set_solver]. run acquire_run; [|set_solver]. by destruct s'.
Qed.

(** sleep with ptable.lock, which the caller holds already. *)
Lemma sleep_ptable_run c i p s :
  k_cur s = Some i → k_ptable s !! i = Some p → k_held s = [Lptable] →
  ∃ k, sleep c Lptable s = Switch (s <| k_ptable ::= <[i := asleep c p]> |>) k ∧
    ∀ s' p', k_ptable s' !! i = Some p' → k s' = Ok tt (s' <| k_ptable ::= <[i := p' <| p_chan := None |>]> |>).
Proof.
  intros Hi Hp Hh. unfold sleep, sleep_acts. step. rewrite Hi, !decide_True by done. cbn [app forM kact_run].
  rewrite (sleep_on_run c i p) by done. eexists. split.
  - erewrite bind_switch; [reflexivity|]. apply (sched_run i (asleep c p)); try done. simpl.
    by rewrite list_lookup_insert_eq by (by eapply lookup_lt_Some).
  - intros s' p' Hp'. simpl. by run (modp_run i p'); [|done].
Qed.

Lemma pm_do_run {A} (m : M pmem A) s a pm :
  m (k_pm s) = Ok a pm → pm_do m s = Ok a (s <| k_pm := pm |>).
Proof. intros E. unfold pm_do, zoom. by rewrite E. Qed.
