(* ===== verification/Wakeup.v ===== *)
(** * No wakeup is lost (sleep and wakeup of proc.c on several processors)

    Any number of processes share a condition that the lock [lk] protects.  They wait for
    it, [acquire(lk); while(!cond) sleep(chan, lk); cond = 0; release(lk)], and make it true,
    [acquire(lk); cond = 1; wakeup(chan); release(lk)], each as often as it likes.  The
    accesses of sleep and wakeup (Sched.v) interleave one by one with those of the other
    processes and with the schedulers, which take ptable.lock, switch to a runnable process
    and get the lock back from the process that calls sched.  With [lk] = ptable.lock this is
    how wait and exit use sleep and wakeup1. *)
From S2P Require Import Prelude Mem Mmu Kalloc KState Sched.

(** The loop of wakeup1, and wakeup, access by access. *)
Definition wakeup1_acts (c : chan) : list kact := (λ j, KWake j (Some c)) <$> seq 0 NPROC.
Definition wakeup_acts (c : chan) : list kact := KAcquire Lptable :: wakeup1_acts c ++ [KRelease Lptable].

Lemma wake_acts_run i c l1 l2 r s :
  k_ptable s = l1 ++ l2 →
  forM (((λ j, KWake j (Some c)) <$> seq (length l1) (length l2)) ++ r) (kact_run i) s =
  forM r (kact_run i) (s <| k_ptable := l1 ++ (wake_proc (Some c) <$> l2) |>).
Proof.
  revert l1 s. induction l2 as [|p l2 IH]; intros l1 s Hs; cbn [length seq fmap list_fmap app forM].
  { f_equal. destruct s; simpl in *. by subst. }
  unfold kact_run at 1. step.
  specialize (IH (l1 ++ [wake_proc (Some c) p]) (s <| k_ptable ::= alter (wake_proc (Some c)) (length l1) |>)).
  rewrite length_app, Nat.add_1_r in IH. rewrite IH; [f_equal; destruct s; unfold upd; simpl; by rewrite <-app_assoc|].
  simpl. rewrite Hs, <-app_assoc. cbn [app]. apply list_eq. intros k. destruct (decide (k = length l1)) as [->|Hk].
  - rewrite list_lookup_alter_eq, !list_lookup_middle by done. done.
  - rewrite list_lookup_alter_ne by done. destruct (decide (k < length l1)%nat); [by rewrite !lookup_app_l|].
    rewrite !lookup_app_r by lia. destruct (k - length l1)%nat eqn:E; [lia|done].
Qed.

Lemma wakes_run i c n s :
  length (k_ptable s) = n → Lptable ∉ k_held s →
  forM (KAcquire Lptable :: ((λ j, KWake j (Some c)) <$> seq 0 n) ++ [KRelease Lptable]) (kact_run i) s = wakeup c s.
Proof.
  intros <- Hl. rewrite wakeup_run by done. cbn [forM]. unfold kact_run at 1. run acquire_run; [|done].
  rewrite (wake_acts_run i c [] (k_ptable s) _ (s <| k_held ::= cons Lptable |>)) by done. cbn [forM kact_run].
  run (release_run Lptable _ (k_held s)); [|reflexivity|done]. unfold woken. by destruct s.
Qed.

(** Run without a break, the accesses are wakeup. *)
Lemma wakeup_acts_run i c s :
  length (k_ptable s) = NPROC → Lptable ∉ k_held s → forM (wakeup_acts c) (kact_run i) s = wakeup c s.
Proof. apply wakes_run. Qed.

(** ** The processes and the schedulers *)

(** Who has a lock: a process, or a scheduler that got ptable.lock. *)
Inductive owner := Nobody | Held (i : nat) | Scheduler.
#[global] Instance owner_eq_dec : EqDecision owner.
Proof. solve_decision. Defined.

(** What a process does next: an access of the kernel, [while(!cond) sleep(chan, lk)], or
    [cond = b]. *)
Inductive tact := Kern (a : kact) | Test | Cond (b : bool).

(** [t_on]: on a processor, or switched away by sched. *)
Record thread := Thread { t_on : bool; t_code : list tact }.

Record world := World {
  w_cond : bool;
  w_lock : lockid → owner;
  w_threads : list thread;
  w_procs : list proc;
}.

(** A step, a process that spins for a lock, or a panic. *)
Inductive result := Go (w : world) | Wait | Stop.

Section wakeup.
  Context (c : chan) (lk : lockid).

Definition waiter : list tact := [Kern (KAcquire lk); Test; Cond false; Kern (KRelease lk)].
Definition waker : list tact :=
  [Kern (KAcquire lk); Cond true] ++
  (Kern <$> (if decide (lk = Lptable) then wakeup1_acts c else wakeup_acts c)) ++ [Kern (KRelease lk)].

Definition set_lock (l : lockid) (o : owner) (f : lockid → owner) : lockid → owner := λ l', if decide (l' = l) then o else f l'.

(** The next access of process [i], with [r] left to do after it. *)
Definition run_tact (i : nat) (a : tact) (r : list tact) (w : world) : result :=
  let 'World b own ts ps := w in
  let go b own on r ps := Go (World b own (<[i := Thread on r]> ts) ps) in
  match a with
  | Kern (KAcquire l) =>
      match own l with
      | Nobody => go b (set_lock l (Held i) own) true r ps
      | o => if decide (o = Held i) then Stop else Wait
      end
  | Kern (KRelease l) => if decide (own l = Held i) then go b (set_lock l Nobody own) true r ps else Stop
  | Kern (KChan o) => go b own true r (alter (λ p, p <| p_chan := o |>) i ps)
  | Kern (KState st) => go b own true r (alter (λ p, p <| p_state := st |>) i ps)
  | Kern KSched =>
      if decide (own Lptable = Held i ∧ (lk ≠ Lptable → own lk ≠ Held i) ∧ p_state <$> ps !! i ≠ Some RUNNING)
      then go b (set_lock Lptable Scheduler own) false r ps else Stop
  | Kern (KWake j o) => go b own true r (alter (wake_proc o) j ps)
  | Test => go b own true (if b then r else (Kern <$> sleep_acts c lk) ++ Test :: r) ps
  | Cond b' => go b' own true r ps
  end.

(** What can happen next: process [i] goes on; it starts to wait or to wake; a scheduler
    takes or gives back ptable.lock or switches to process [i]; kill wakes process [i]. *)
Inductive label := Run (i : nat) | CallWait (i : nat) | CallWake (i : nat) | SchedLock | SchedUnlock | Pick (i : nat) | Kill (i : nat).

Definition world_step (a : label) (w : world) : result :=
  let 'World b own ts ps := w in
  match a with
  | Run i =>
      match ts !! i with Some (Thread true (a :: r)) => run_tact i a r w | _ => Wait end
  | CallWait i =>
      match ts !! i with Some (Thread true []) => Go (World b own (<[i := Thread true waiter]> ts) ps) | _ => Wait end
  | CallWake i =>
      match ts !! i with Some (Thread true []) => Go (World b own (<[i := Thread true waker]> ts) ps) | _ => Wait end
  | SchedLock => if decide (own Lptable = Nobody) then Go (World b (set_lock Lptable Scheduler own) ts ps) else Wait
  | SchedUnlock => if decide (own Lptable = Scheduler) then Go (World b (set_lock Lptable Nobody own) ts ps) else Wait
  | Pick i =>
      match ts !! i, ps !! i with
      | Some (Thread false r), Some p =>
          if decide (own Lptable = Scheduler ∧ p_state p = RUNNABLE) then
            Go (World b (set_lock Lptable (Held i) own) (<[i := Thread true r]> ts) (<[i := p <| p_state := RUNNING |>]> ps))
          else Wait
      | _, _ => Wait
      end
  | Kill i =>
      match ps !! i with
      | Some p =>
          if decide (own Lptable = Nobody ∧ p_state p = SLEEPING) then Go (World b own ts (<[i := p <| p_state := RUNNABLE |>]> ps)) else Wait
      | None => Wait
      end
  end.

(** At first the locks are free, the processes run and none has called anything. *)
Definition world0 (b : bool) (ps : list proc) : world :=
  World b (λ _, Nobody) (replicate (length ps) (Thread true [])) ((λ p, p <| p_state := RUNNING |>) <$> ps).

Inductive reachable (b : bool) (ps : list proc) : world → Prop :=
  | reachable_start : reachable b ps (world0 b ps)
  | reachable_step a w w' : reachable b ps w → world_step a w = Go w' → reachable b ps w'.

(** ** The discipline of the code

    [need l r]: the rest [r] of a process's code is run with the lock [l]. *)
Fixpoint need (l : lockid) (r : list tact) : bool :=
  match r with
  | [] => false
  | Kern (KAcquire l') :: r => if decide (l' = l) then false else need l r
  | Kern (KRelease l') :: r => if decide (l' = l) then true else need l r
  | _ :: r => need l r
  end.

(** The rest of the code will put the process to sleep; it will wake process [j], and the
    condition has been set already. *)
Fixpoint sleepy (r : list tact) : bool :=
  match r with [] => false | Kern (KState SLEEPING) :: _ => true | _ :: r => sleepy r end.
Fixpoint wakes (j : nat) (r : list tact) : bool :=
  match r with
  | [] => false
  | Kern (KWake j' o) :: r => if decide (j' = j ∧ o = Some c) then true else wakes j r
  | Cond _ :: _ => false
  | _ :: r => wakes j r
  end.

Definition next_sched (r : list tact) : bool := match r with Kern KSched :: _ => true | _ => false end.
Definition next_state (r : list tact) : bool := match r with Kern (KState _) :: _ => true | _ => false end.

(** What must hold of the code at each point. *)
Definition point_ok (r : list tact) : Prop :=
  (sleepy r = true → need lk r = true ∨ need Lptable r = true) ∧
  (∀ j, wakes j r = true → need lk r = true ∧ sleepy r = false) ∧
  match r with
  | [] => True
  | Kern (KChan o) :: r => next_sched r = false ∧ (next_state r = true → o = Some c)
  | Kern (KState st) :: r => st = SLEEPING ∧ need Lptable r = true ∧ next_sched r = true
  | a :: r => next_sched r = false ∧ next_state r = false ∧
      match a with
      | Kern (KAcquire l) => need l r = true
      | Kern (KRelease l) => need l r = false
      | Kern KSched => need Lptable r = true ∧ (lk ≠ Lptable → need lk r = false) ∧ sleepy r = false
      | Kern (KWake j o) => o = Some c ∧ need Lptable r = true
      | Test => need lk r = true ∧ (lk ≠ Lptable → need Lptable r = false) ∧ sleepy r = false ∧ ∀ j, wakes j r = false
      | Cond true => ∀ j, (j < NPROC)%nat → wakes j r = true
      | _ => True
      end
  end.

Fixpoint code_ok (r : list tact) : Prop :=
  point_ok r ∧ match r with [] => True | _ :: r => code_ok r end.

(** Evaluate the points of a piece of code. *)
Ltac points :=
  cbn [code_ok app]; unfold point_ok; cbn [need next_sched next_state sleepy wakes app];
  split_and?; intros; repeat case_decide; split_and?; try done; try congruence; auto.

Lemma waiter_tail_ok : code_ok [Test; Cond false; Kern (KRelease lk)].
Proof. points. Qed.

Lemma waiter_ok : code_ok waiter.
Proof. split; [points|apply waiter_tail_ok]. Qed.

(** The code of sleep, called from the loop. *)
Lemma sleep_code_ok r :
  code_ok (Test :: r) → code_ok ((Kern <$> sleep_acts c lk) ++ Test :: r).
Proof.
  intros Hr. pose proof Hr as [(_ & _ & Hs & Ht & Hn & Hn' & Hns & Hnw) _].
  unfold sleep_acts. case_decide as E; cbn [fmap list_fmap app].
  - subst. points. apply Hr.
  - points. apply Hr.
Qed.

(** The rounds of wakeup1, [n] of them from [m]. *)
Definition wake_code (m n : nat) : list tact := Kern <$> ((λ j, KWake j (Some c)) <$> seq m n).

Lemma wake_code_facts m n r :
  (∀ l, need l (wake_code m n ++ r) = need l r) ∧ sleepy (wake_code m n ++ r) = sleepy r ∧
  (next_sched r = false → next_sched (wake_code m n ++ r) = false) ∧
  (next_state r = false → next_state (wake_code m n ++ r) = false) ∧
  ∀ j, (m ≤ j < m + n)%nat → wakes j (wake_code m n ++ r) = true.
Proof.
  revert m. induction n as [|n IH]; intros m; [split_and!; done || lia|]. cbn. destruct (IH (S m)) as (H1 & H2 & H3 & H4 & H5).
  split_and!; try done. intros j Hj. case_decide as E; [done|]. apply H5. destruct (decide (m = j)); [by destruct E|lia].
Qed.

Lemma wake_code_ok m n r :
  code_ok r → need lk r = true → need Lptable r = true → sleepy r = false → next_sched r = false → next_state r = false →
  code_ok (wake_code m n ++ r).
Proof.
  intros Hr H1 H2 H3 H4 H5. revert m. induction n as [|n IH]; intros m; [done|]. cbn -[point_ok]. fold (wake_code (S m) n). split; [|apply IH].
  destruct (wake_code_facts (S m) n r) as (F1 & F2 & F3 & F4 & F5). unfold point_ok. cbn [need sleepy]. rewrite !F1, F2, F3, F4 by done.
  split_and!; intros; try done; congruence.
Qed.

Lemma waker_start_ok r :
  code_ok r → (∀ j, (j < NPROC)%nat → wakes j r = true) → sleepy r = false → next_sched r = false → next_state r = false →
  need lk r = true → need Lptable r = true →
  code_ok (Kern (KAcquire lk) :: Cond true :: (if decide (lk = Lptable) then r else Kern (KAcquire Lptable) :: r)).
Proof. intros H1 H2 H3 H4 H5 H6 H7. case_decide as E; points. Qed.

Lemma waker_ok : code_ok waker.
Proof.
  set (r := wake_code 0 NPROC ++ (if decide (lk = Lptable) then [] else [Kern (KRelease Lptable)]) ++ [Kern (KRelease lk)]).
  assert (waker = Kern (KAcquire lk) :: Cond true :: (if decide (lk = Lptable) then r else Kern (KAcquire Lptable) :: r)) as ->.
  { unfold waker, r. case_decide; [done|]. unfold wakeup_acts. rewrite fmap_cons, fmap_app. unfold wake_code, wakeup1_acts. cbn [app]. do 3 f_equal. }
  destruct (wake_code_facts 0 NPROC ((if decide (lk = Lptable) then [] else [Kern (KRelease Lptable)]) ++ [Kern (KRelease lk)]))
    as (F1 & F2 & F3 & F4 & F5). fold r in F1, F2, F3, F4, F5.
  apply waker_start_ok; [apply wake_code_ok| | |apply F3|apply F4|rewrite F1|rewrite F1].
  all: try (intros; apply F5; lia); try rewrite F2; clear F1 F2 F3 F4 F5 r; case_decide; subst; points.
Qed.

(** ** The invariant *)

(** A process that sleeps or is about to. *)
Definition committed (t : thread) (p : proc) : Prop := sleepy (t_code t) = true ∨ p_state p = SLEEPING.

(** What holds of process [i]: it has the locks its code needs, and its entry of the
    process table agrees with where it is. *)
Record thread_ok (own : lockid → owner) (i : nat) (t : thread) (p : proc) : Prop := {
  to_code : code_ok (t_code t);
  to_own : ∀ l, own l = Held i ↔ need l (t_code t) = true ∧ (t_on t = true ∨ l ≠ Lptable);
  to_on : t_on t = true → p_state p = if next_sched (t_code t) then SLEEPING else RUNNING;
  to_chan : t_on t = true → next_state (t_code t) || next_sched (t_code t) = true → p_chan p = Some c;
  to_off : t_on t = false → need Lptable (t_code t) = true ∧ sleepy (t_code t) = false ∧
    next_sched (t_code t) = false ∧ next_state (t_code t) = false ∧
    (p_state p = RUNNABLE ∨ p_state p = SLEEPING ∧ p_chan p = Some c);
}.

Record wake_inv (w : world) : Prop := {
  wv_len : length (w_threads w) = length (w_procs w) ∧ (length (w_procs w) ≤ NPROC)%nat;
  wv_thread : ∀ i t p, w_threads w !! i = Some t → w_procs w !! i = Some p → thread_ok (w_lock w) i t p;
  wv_wake : w_cond w = true → ∀ i t p, w_threads w !! i = Some t → w_procs w !! i = Some p → committed t p →
    ∃ k u, w_threads w !! k = Some u ∧ wakes i (t_code u) = true;
}.

Lemma thread_ok_own own own' i t p : (∀ l, own' l = Held i ↔ own l = Held i) → thread_ok own i t p → thread_ok own' i t p.
Proof. intros Ho []. split; try done. intros l. by rewrite Ho. Qed.

(** Process [i] makes a step. *)
Lemma wake_inv_move b own ts ps i t p b' own' t' p' :
  wake_inv (World b own ts ps) → ts !! i = Some t → ps !! i = Some p → thread_ok own' i t' p' →
  (∀ l j, j ≠ i → own' l = Held j ↔ own l = Held j) →
  (b' = true → committed t' p' → b = true ∧ committed t p) →
  (b' = true → b = true ∧ (∀ j, wakes j (t_code t) = true → wakes j (t_code t') = true ∨
      ∀ tj pj, j ≠ i → ts !! j = Some tj → ps !! j = Some pj → ¬ committed tj pj) ∨
    ∀ j, (j < NPROC)%nat → wakes j (t_code t') = true) →
  (∀ j, j = i → wakes j (t_code t) = true → wakes j (t_code t') = true ∨ ¬ committed t' p') →
  wake_inv (World b' own' (<[i := t']> ts) (<[i := p']> ps)).
Proof.
  intros [[Hl Hn] Hth Hwk] Ht Hp Hok Hown Hc Hw Hself. simpl in *. pose proof (lookup_lt_Some _ _ _ Ht) as Hi.
  split; simpl.
  - by rewrite !length_insert.
  - intros j tj pj [(<- & -> & _)|[Hne Htj]]%list_lookup_insert_Some [(? & -> & _)|[? Hpj]]%list_lookup_insert_Some; try done.
    eapply thread_ok_own; [|by apply Hth]. intros l. by apply Hown.
  - intros Hb j tj pj Htj Hpj Hcj. assert (j < NPROC)%nat as Hj.
    { apply lookup_lt_Some in Hpj. rewrite length_insert in Hpj. lia. }
    assert (wakes j (t_code t') = true → ∃ k u, <[i := t']> ts !! k = Some u ∧ wakes j (t_code u) = true) as Hnew.
    { intros ?. exists i, t'. by rewrite list_lookup_insert_eq. }
    destruct (Hw Hb) as [[Hb0 Hk']|Hall]; [|by apply Hnew, Hall].
    apply list_lookup_insert_Some in Htj as [(<- & <- & _)|[Hne Htj]]; apply list_lookup_insert_Some in Hpj as [(? & <- & _)|[? Hpj]]; try done.
    + destruct (Hc Hb Hcj) as [_ Hcom]. destruct (Hwk Hb0 i t p Ht Hp Hcom) as (k & u & Hu & Hwu).
      destruct (decide (k = i)) as [->|Hki]; [|by exists k, u; rewrite list_lookup_insert_ne].
      destruct (Hself i eq_refl) as [?|?]; [congruence|by apply Hnew|done].
    + destruct (Hwk Hb0 j tj pj Htj Hpj Hcj) as (k & u & Hu & Hwu).
      destruct (decide (k = i)) as [->|Hki]; [|by exists k, u; rewrite list_lookup_insert_ne].
      destruct (Hk' j) as [?|Hno]; [congruence|by apply Hnew|]. by destruct (Hno tj pj).
Qed.

(** Only a scheduler takes or gives back a lock. *)
Lemma wake_inv_lock b own own' ts ps :
  wake_inv (World b own ts ps) → (∀ l i, own' l = Held i ↔ own l = Held i) → wake_inv (World b own' ts ps).
Proof.
  intros [Hl Hth Hwk] Ho. split; simpl in *; [done| |done]. intros i t p Ht Hp. eapply thread_ok_own; [|by apply Hth]. intros l. apply Ho.
Qed.

(** A sleeping process is made runnable by somebody else who has ptable.lock. *)
Lemma wake_inv_unsleep b own ts ps j p :
  wake_inv (World b own ts ps) → ps !! j = Some p → p_state p = SLEEPING → own Lptable ≠ Held j →
  wake_inv (World b own ts (<[j := p <| p_state := RUNNABLE |>]> ps)).
Proof.
  intros Hinv Hp Hs Ho. destruct (lookup_lt_is_Some_2 ts j) as [t Ht].
  { destruct (wv_len _ Hinv) as [Hl _]. simpl in Hl. rewrite Hl. by eapply lookup_lt_Some. }
  rewrite <-(list_insert_id ts j t Ht). pose proof (wv_thread _ Hinv j t p Ht Hp) as Hok. simpl in Hok.
  eapply wake_inv_move; [exact Hinv|exact Ht|exact Hp| |done| | |].
  - destruct Hok as [H1 H2 H3 H4 H5]. split; try done; simpl.
    + intros Hon. destruct Ho. apply H2. split; [|by left]. rewrite Hs in H3. specialize (H3 Hon).
      destruct (next_sched (t_code t)) eqn:E; [|done]. destruct (t_code t) as [|[[]| |] r]; try done.
      by destruct H1 as [(_ & _ & _ & _ & Hn & _) _].
    + intros Hoff. destruct (H5 Hoff) as (? & ? & ? & ? & _). split_and!; try done. by left.
  - intros -> [Hsl|?]; [|done]. split; [done|]. by left.
  - intros ->. left. split; [done|]. intros k. by left.
  - intros k _. by left.
Qed.

Lemma alter_at {A} (f : A → A) i x (l : list A) : l !! i = Some x → alter f i l = <[i := f x]> l.
Proof.
  intros Hx. apply list_eq. intros k. destruct (decide (k = i)) as [->|Hne].
  - rewrite list_lookup_alter_eq, list_lookup_insert_eq by (by eapply lookup_lt_Some). by rewrite Hx.
  - by rewrite list_lookup_alter_ne, list_lookup_insert_ne.
Qed.

(** The locks of process [i] after it took or gave back [l]. *)
Lemma set_lock_other l o i own j l' : (own l = Nobody ∨ own l = Held i ∨ own l = Scheduler) → (o = Nobody ∨ o = Held i ∨ o = Scheduler) → j ≠ i →
  set_lock l o own l' = Held j ↔ own l' = Held j.
Proof. intros H1 H2 Hj. unfold set_lock. case_decide; [|done]. subst. naive_solver congruence. Qed.

Section step.
  Context (b : bool) (own : lockid → owner) (ts : list thread) (ps : list proc) (i : nat) (p : proc).
  Context (Hinv : wake_inv (World b own ts ps)) (Hp : ps !! i = Some p).

(** A step that leaves the condition and the other processes' entries. *)
Lemma plain_step a r own' on' r' p' :
  ts !! i = Some (Thread true (a :: r)) → thread_ok own' i (Thread on' r') p' →
  (∀ l j, j ≠ i → own' l = Held j ↔ own l = Held j) →
  (committed (Thread on' r') p' → committed (Thread true (a :: r)) p ∨ b = false) →
  (∀ j, wakes j (a :: r) = true → wakes j r' = true) →
  wake_inv (World b own' (<[i := Thread on' r']> ts) (<[i := p']> ps)).
Proof.
  intros Ht Hok Ho Hc Hw. eapply wake_inv_move; [exact Hinv|exact Ht|exact Hp|done|done| | |].
  - intros -> Hcom. split; [done|]. by destruct (Hc Hcom).
  - intros ->. left. split; [done|]. intros j Hj. left. by apply Hw.
  - intros j _ Hj. left. by apply Hw.
Qed.

Lemma on_ok own' r p' :
  code_ok r → (∀ l, own' l = Held i ↔ need l r = true) → p_state p' = (if next_sched r then SLEEPING else RUNNING) →
  (next_state r || next_sched r = true → p_chan p' = Some c) → thread_ok own' i (Thread true r) p'.
Proof. intros H1 H2 H3 H4. split; try done. intros l. rewrite H2. simpl. tauto. Qed.

(** What is known before a step of process [i]. *)
Lemma before r :
  ts !! i = Some (Thread true r) →
  code_ok r ∧ (∀ l, own l = Held i ↔ need l r = true) ∧ p_state p = (if next_sched r then SLEEPING else RUNNING) ∧
  (next_state r || next_sched r = true → p_chan p = Some c).
Proof.
  intros Ht. pose proof (wv_thread _ Hinv i _ p Ht Hp) as [H1 H2 H3 H4 _]. simpl in *. split_and!; auto. intros l. rewrite H2. tauto.
Qed.

Abbreviation goes o := (match o with Go w => wake_inv w | Wait => True | Stop => False end).

Lemma acquire_step l r :
  ts !! i = Some (Thread true (Kern (KAcquire l) :: r)) → goes (run_tact i (Kern (KAcquire l)) r (World b own ts ps)).
Proof.
  intros Ht. destruct (before _ Ht) as ([(P1 & P2 & P3 & P4 & P5) Hr] & H2 & H3 & H4). simpl in *.
  assert (own l ≠ Held i) as Hni by (intros E%H2; by rewrite decide_True in E).
  destruct (own l) as [|k|] eqn:El; [|destruct (decide (Held k = Held i)); [congruence|done]|done].
  rewrite <-(list_insert_id ps i p Hp). eapply plain_step; [done| | |intros; by left|done].
  - apply on_ok; [done| |by rewrite P3|by rewrite P3, P4]. intros l'. unfold set_lock. destruct (decide (l' = l)) as [->|E]; [done|]. by rewrite H2, decide_False.
  - intros l' j Hj. apply (set_lock_other _ _ i); [left; done|by right; left|done].
Qed.

Lemma release_step l r :
  ts !! i = Some (Thread true (Kern (KRelease l) :: r)) → goes (run_tact i (Kern (KRelease l)) r (World b own ts ps)).
Proof.
  intros Ht. destruct (before _ Ht) as ([(P1 & P2 & P3 & P4 & P5) Hr] & H2 & H3 & H4). simpl in *.
  assert (own l = Held i) as Hni by (apply H2; by rewrite decide_True). rewrite decide_True by done.
  rewrite <-(list_insert_id ps i p Hp). eapply plain_step; [done| | |intros; by left|done].
  - apply on_ok; [done| |by rewrite P3|by rewrite P3, P4]. intros l'. unfold set_lock. destruct (decide (l' = l)) as [->|E]; [by rewrite P5|]. by rewrite H2, decide_False.
  - intros l' j Hj. apply (set_lock_other _ _ i); [by right; left|by left|done].
Qed.

Lemma chan_step o r :
  ts !! i = Some (Thread true (Kern (KChan o) :: r)) → goes (run_tact i (Kern (KChan o)) r (World b own ts ps)).
Proof.
  intros Ht. destruct (before _ Ht) as ([(P1 & P2 & P3 & P4) Hr] & H2 & H3 & H4). simpl in *.
  rewrite (alter_at _ i p) by done. eapply plain_step; [done| |done|intros; by left|done].
  apply on_ok; [done|done|by rewrite P3|]. rewrite P3, orb_false_r. done.
Qed.

Lemma state_step st r :
  ts !! i = Some (Thread true (Kern (KState st) :: r)) → goes (run_tact i (Kern (KState st)) r (World b own ts ps)).
Proof.
  intros Ht. destruct (before _ Ht) as ([(P1 & P2 & -> & P4 & P5) Hr] & H2 & H3 & H4). simpl in *.
  rewrite (alter_at _ i p) by done. eapply plain_step; [done| |done|intros; by left; left|done].
  apply on_ok; [done|done|by rewrite P5|]. intros _. by apply H4.
Qed.

Lemma sched_step r :
  ts !! i = Some (Thread true (Kern KSched :: r)) → goes (run_tact i (Kern KSched) r (World b own ts ps)).
Proof.
  intros Ht. destruct (before _ Ht) as ([(P1 & P2 & P3 & P4 & P5 & P6 & P7) Hr] & H2 & H3 & H4). simpl in *.
  rewrite decide_True; [|split_and!; [by apply H2|intros Hne E%H2; rewrite P6 in E; done|rewrite Hp; simpl; congruence]].
  rewrite <-(list_insert_id ps i p Hp). eapply plain_step; [done| | |intros [?|?]; simpl in *; [congruence|by left; right]|done].
  - split; simpl; try done.
    + intros l. unfold set_lock. destruct (decide (l = Lptable)) as [->|E]; [split; [done|by intros [_ [?|?]]]|]. rewrite H2. tauto.
    + intros _. split_and!; try done. right. split; [done|]. by apply H4.
  - intros l' j Hj. apply (set_lock_other _ _ i); [right; left; by apply H2|by right; right|done].
Qed.

Lemma test_step r :
  ts !! i = Some (Thread true (Test :: r)) → goes (run_tact i Test r (World b own ts ps)).
Proof.
  intros Ht. destruct (before _ Ht) as ([(P1 & P2 & P3 & P4 & P5 & P6 & P7 & P8) Hr] & H2 & H3 & H4). simpl in *.
  rewrite <-(list_insert_id ps i p Hp). destruct (Sumbool.sumbool_of_bool b) as [Eb|Eb].
  - replace (if b then _ else _) with r by (by rewrite Eb).
    eapply plain_step; [done| |done|intros; by left|done]. apply on_ok; [done|done|by rewrite P3|by rewrite P3, P4].
  - replace (if b then _ else _) with ((Kern <$> sleep_acts c lk) ++ Test :: r) by (by rewrite Eb).
    eapply plain_step; [done| |done|intros; by right|intros j; simpl; by rewrite P8].
    assert (∀ l, need l ((Kern <$> sleep_acts c lk) ++ Test :: r) = need l r) as Hn.
    { intros l. unfold sleep_acts. repeat case_decide; simpl; repeat case_decide; subst; try done; try congruence. by rewrite P6. }
    apply on_ok.
    + apply sleep_code_ok. split; [|done]. unfold point_ok. simpl. split_and!; try done. 
    + intros l. by rewrite Hn.
    + unfold sleep_acts. by case_decide.
    + unfold sleep_acts. by case_decide.
Qed.

Lemma cond_step b' r :
  ts !! i = Some (Thread true (Cond b' :: r)) → goes (run_tact i (Cond b') r (World b own ts ps)).
Proof.
  intros Ht. destruct (before _ Ht) as ([(P1 & P2 & P3 & P4 & P5) Hr] & H2 & H3 & H4). simpl in *.
  rewrite <-(list_insert_id ps i p Hp). eapply wake_inv_move; [exact Hinv|exact Ht|exact Hp| |done| | |].
  - apply on_ok; [done|done|by rewrite P3|by rewrite P3, P4].
  - intros -> [?|?]; simpl in *; [|congruence]. destruct r as [|a r]; [done|]. destruct Hr as [(_ & Q & _) _].
    destruct (Q 0%nat) as [_ ?]; [apply P5; unfold NPROC; lia|congruence].
  - intros ->. right. exact P5.
  - intros j _. done.
Qed.

(** A round of wakeup1: the entry of process [j]. *)
Lemma wake_entry j r :
  ts !! i = Some (Thread true (Kern (KWake j (Some c)) :: r)) →
  wake_inv (World b own ts (alter (wake_proc (Some c)) j ps)) ∧ alter (wake_proc (Some c)) j ps !! i = Some p.
Proof.
  intros Ht. destruct (before _ Ht) as ([(P1 & P2 & P3 & P4 & _ & P5) Hr] & H2 & H3 & H4). simpl in *.
  destruct (ps !! j) as [q|] eqn:Hq.
  2: { assert (alter (wake_proc (Some c)) j ps = ps) as ->; [|done]. apply list_eq. intros k.
       destruct (decide (k = j)) as [->|]; [by rewrite list_lookup_alter_eq, Hq|by rewrite list_lookup_alter_ne]. }
  rewrite (alter_at _ j q) by done. unfold wake_proc. destruct (decide (p_state q = SLEEPING ∧ p_chan q = Some c)) as [[Hs Hc]|Hn].
  - assert (j ≠ i) by (intros ->; congruence). split; [|by rewrite list_lookup_insert_ne].
    apply wake_inv_unsleep; [done..|]. intros E. rewrite (proj2 (H2 Lptable) P5) in E. congruence.
  - by rewrite list_insert_id.
Qed.
End step.

(** The sleepers of the channel are on it. *)
Lemma asleep_chan own i t p : thread_ok own i t p → p_state p = SLEEPING → p_chan p = Some c.
Proof.
  intros [_ _ H3 H4 H5] Hs. destruct (t_on t) eqn:E; [|destruct (H5 eq_refl) as (_ & _ & _ & _ & [?|[_ ?]]); congruence].
  apply H4; [done|]. specialize (H3 eq_refl). destruct (next_sched (t_code t)); [apply orb_true_r|congruence].
Qed.

Lemma wake_step b own ts ps i p j o r :
  wake_inv (World b own ts ps) → ps !! i = Some p → ts !! i = Some (Thread true (Kern (KWake j o) :: r)) →
  match run_tact i (Kern (KWake j o)) r (World b own ts ps) with Go w => wake_inv w | Wait => True | Stop => False end.
Proof.
  intros Hinv Hp Ht. destruct (before _ _ _ _ _ _ Hinv Hp _ Ht) as ([(P1 & P2 & P3 & P4 & -> & P5) Hr] & H2 & H3 & H4).
  destruct (wake_entry _ _ _ _ _ _ Hinv Hp j r Ht) as [Hinv' Hp']. simpl in *.
  destruct (P2 j) as [Hlk Hns]; [by rewrite decide_True|].
  rewrite <-(list_insert_id (alter _ j ps) i p Hp').
  eapply wake_inv_move; [exact Hinv'|exact Ht|exact Hp'| |done| | |].
  - apply on_ok; [done|done|by rewrite P3|by rewrite P3, P4].
  - intros -> [?|?]; simpl in *; congruence.
  - intros ->. left. split; [done|]. intros k. simpl. destruct (decide (j = k ∧ Some c = Some c)) as [[<- _]|]; [|by left].
    intros _. right. intros tj pj Hji Htj Hpj [Hsl|Hs].
    + pose proof (wv_thread _ Hinv' j tj pj Htj Hpj) as [K1 K2 K3 _ K5]. simpl in *.
      destruct (t_on tj) eqn:Eon; [|destruct (K5 eq_refl) as (_ & E & _); congruence].
      assert (own lk = Held i) as E1 by (by apply H2). assert (own Lptable = Held i) as E2 by (by apply H2).
      destruct (t_code tj) as [|x y]; [done|]. destruct K1 as [(Q & _) _].
      destruct (Q Hsl) as [Q'|Q']; [rewrite (proj2 (K2 lk)) in E1 by auto|rewrite (proj2 (K2 Lptable)) in E2 by auto]; congruence.
    + pose proof (asleep_chan _ _ _ _ (wv_thread _ Hinv' j tj pj Htj Hpj) Hs) as Hc.
      rewrite list_lookup_alter_eq in Hpj. destruct (ps !! j) as [q|]; [|done]. simpl in Hpj. injection Hpj as <-.
      unfold wake_proc in Hs, Hc. case_decide as E; simpl in *; [done|by destruct E].
  - intros k -> _. right. intros [?|?]; simpl in *; congruence.
Qed.

Lemma run_step b own ts ps i a r :
  wake_inv (World b own ts ps) → ts !! i = Some (Thread true (a :: r)) →
  match run_tact i a r (World b own ts ps) with Go w => wake_inv w | Wait => True | Stop => False end.
Proof.
  intros Hinv Ht. destruct (lookup_lt_is_Some_2 ps i) as [p Hp].
  { destruct (wv_len _ Hinv) as [Hl _]. simpl in Hl. rewrite <-Hl. by eapply lookup_lt_Some. }
  destruct a as [[]| |]; [by eapply acquire_step|by eapply release_step|by eapply chan_step|by eapply state_step|by eapply sched_step
    |by eapply wake_step|by eapply test_step|by eapply cond_step].
Qed.

(** A process starts to wait or to wake. *)
Lemma call_step b own ts ps i r :
  wake_inv (World b own ts ps) → ts !! i = Some (Thread true []) → code_ok r → (∀ l, need l r = false) → sleepy r = false →
  next_sched r = false → next_state r = false → wake_inv (World b own (<[i := Thread true r]> ts) ps).
Proof.
  intros Hinv Ht Hr Hn Hs H1 H2. destruct (lookup_lt_is_Some_2 ps i) as [p Hp].
  { destruct (wv_len _ Hinv) as [Hl _]. simpl in Hl. rewrite <-Hl. by eapply lookup_lt_Some. }
  destruct (before _ _ _ _ _ _ Hinv Hp _ Ht) as (_ & K2 & K3 & K4). simpl in *.
  rewrite <-(list_insert_id ps i p Hp). eapply wake_inv_move; [exact Hinv|exact Ht|exact Hp| |done| | |].
  - apply on_ok; [done| |by rewrite H1|by rewrite H1, H2]. intros l. by rewrite K2, Hn.
  - intros _ [?|?]; simpl in *; congruence.
  - intros ->. left. split; [done|]. intros j Hj. done.
  - intros j _ Hj. done.
Qed.

Lemma calls_ready : (∀ l, need l waiter = false ∧ need l waker = false) ∧ sleepy waiter = false ∧ sleepy waker = false.
Proof.
  assert (∀ l, need l waker = false ∧ sleepy waker = false) as Hw.
  { intros l. unfold waker, wakeup_acts. case_decide as E; [|rewrite fmap_cons, fmap_app; cbn [fmap list_fmap]];
      cbn -[seq wakeup1_acts]; change (Kern <$> wakeup1_acts c) with (wake_code 0 NPROC); rewrite <-?app_assoc;
      match goal with |- context [wake_code 0 NPROC ++ ?r] => destruct (wake_code_facts 0 NPROC r) as (F1 & F2 & _) end;
      rewrite ?F1, F2; cbn; repeat case_decide; done. }
  split_and!; [|done|apply (Hw Lptable)]. intros l. split; [|apply Hw]. cbn. by repeat case_decide.
Qed.

Lemma world_step_ok a w :
  wake_inv w → match world_step a w with Go w' => wake_inv w' | Wait => True | Stop => False end.
Proof.
  intros Hinv. destruct w as [b own ts ps]. destruct calls_ready as (Hn & Hs1 & Hs2). destruct a as [i|i|i| | |i|i]; simpl.
  - destruct (ts !! i) as [[[] [|a r]]|] eqn:Ht; try done. by apply run_step.
  - destruct (ts !! i) as [[[] [|a r]]|] eqn:Ht; try done. apply call_step; try done; [apply waiter_ok|intros l; apply Hn].
  - destruct (ts !! i) as [[[] [|a r]]|] eqn:Ht; try done. apply call_step; try done; [apply waker_ok|intros l; apply Hn].
  - case_decide as E; [|done]. eapply wake_inv_lock; [done|]. intros l i. unfold set_lock. case_decide; [|done]. subst. by rewrite E.
  - case_decide as E; [|done]. eapply wake_inv_lock; [done|]. intros l i. unfold set_lock. case_decide; [|done]. subst. by rewrite E.
  - destruct (ts !! i) as [[[] r]|] eqn:Ht; try done. destruct (ps !! i) as [p|] eqn:Hp; [|done]. case_decide as E; [|done].
    destruct E as [Eo Es]. pose proof (wv_thread _ Hinv i _ p Ht Hp) as [K1 K2 _ _ K5]. simpl in *.
    destruct (K5 eq_refl) as (N1 & N2 & N3 & N4 & _). eapply wake_inv_move; [exact Hinv|exact Ht|exact Hp| | | | |].
    + apply on_ok; [done| |by rewrite N3|by rewrite N3, N4]. intros l. unfold set_lock. destruct (decide (l = Lptable)) as [->|]; [by rewrite N1|]. rewrite K2. tauto.
    + intros l j Hj. apply (set_lock_other _ _ i); [by right; right|by right; left|done].
    + intros _ [?|?]; simpl in *; congruence.
    + intros ->. left. split; [done|]. intros j. by left.
    + intros j _. by left.
  - destruct (ps !! i) as [p|] eqn:Hp; [|done]. case_decide as E; [|done]. destruct E as [Eo Es].
    apply wake_inv_unsleep; [done..|]. by rewrite Eo.
Qed.

Lemma reachable_inv b ps w : (length ps ≤ NPROC)%nat → reachable b ps w → wake_inv w.
Proof.
  intros Hps. induction 1 as [|a w w' _ IH Hs]; [|pose proof (world_step_ok a w IH) as Hok; by rewrite Hs in Hok].
  assert (∀ i t, replicate (length ps) (Thread true []) !! i = Some t → t = Thread true []) as Ht by (intros i t [-> _]%lookup_replicate; done).
  assert (∀ i p, ((λ p, p <| p_state := RUNNING |>) <$> ps) !! i = Some p → p_state p = RUNNING) as Hp.
  { intros i p. rewrite list_lookup_fmap. by destruct (ps !! i); [intros [= <-]|]. }
  split; simpl.
  - by rewrite length_replicate, length_fmap.
  - intros i t p ->%Ht Hpi%Hp. apply on_ok; simpl; [split_and!; done| |done|done]. done.
  - intros _ i t p ->%Ht Hpi%Hp [?|?]; simpl in *; congruence.
Qed.

(** A schedule. *)
Fixpoint run_labels (l : list label) (w : world) : result :=
  match l with [] => Go w | a :: l => match world_step a w with Go w => run_labels l w | o => o end end.

Lemma run_labels_reachable b ps l w w' : reachable b ps w → run_labels l w = Go w' → reachable b ps w'.
Proof.
  revert w. induction l as [|a l IH]; intros w Hw Hl; simpl in Hl; [by injection Hl as <-|].
  destruct (world_step a w) as [w1| |] eqn:E; try done. apply (IH w1); [|done]. by eapply reachable_step.
Qed.
End wakeup.

(** C20: no wakeup is lost, on any number of processors.  In every interleaving of the
    accesses of processes that wait for a condition with sleep and of processes that make it
    true and call wakeup, with the schedulers and with kill: whenever the condition holds and
    a process sleeps, a call of wakeup that is under way has that process still before it;
    no test of acquire, release and sched panics; and a process that tests the condition,
    the first time or back from sleep, has the condition's lock. *)
Theorem sleep_no_lost_wakeup c lk b ps w :
  (length ps ≤ NPROC)%nat → reachable c lk b ps w →
  (w_cond w = true → ∀ i p, w_procs w !! i = Some p → p_state p = SLEEPING →
     ∃ k u, w_threads w !! k = Some u ∧ wakes c i (t_code u) = true) ∧
  (∀ a, world_step c lk a w ≠ Stop) ∧
  (∀ i r, w_threads w !! i = Some (Thread true (Test :: r)) → w_lock w lk = Held i).
Proof.
  intros Hps Hr. pose proof (reachable_inv _ _ _ _ _ Hps Hr) as Hinv. destruct (wv_len _ _ _ Hinv) as [Hl _]. split_and!.
  - intros Hc i p Hp Hs. destruct (lookup_lt_is_Some_2 (w_threads w) i) as [t Ht]; [rewrite Hl; by eapply lookup_lt_Some|].
    apply (wv_wake _ _ _ Hinv Hc i t p Ht Hp). by right.
  - intros a E. pose proof (world_step_ok c lk a w Hinv) as Hok. by rewrite E in Hok.
  - intros i r Ht. destruct (lookup_lt_is_Some_2 (w_procs w) i) as [p Hp]; [rewrite <-Hl; by eapply lookup_lt_Some|].
    apply (to_own _ _ _ _ _ _ (wv_thread _ _ _ Hinv i _ p Ht Hp)). simpl.
    destruct (to_code _ _ _ _ _ _ (wv_thread _ _ _ Hinv i _ p Ht Hp)) as [(_ & _ & _ & _ & Hn & _) _]. auto.
Qed.

(** Process 0 waits for the ticks and sleeps; process 1 has made the condition true. *)
Lemma sleep_no_lost_wakeup_witness :
  let go := [CallWait 0] ++ replicate 7 (Run 0) ++ [SchedUnlock; CallWake 1; Run 1; Run 1] in
  ∃ w, reachable ChTicks Ltickslock false [proc0; proc0] w ∧ w_cond w = true ∧ (p_state <$> w_procs w) = [SLEEPING; RUNNING] ∧
    ∃ k u, w_threads w !! k = Some u ∧ wakes ChTicks 0 (t_code u) = true.
Proof.
  intros go. destruct (run_labels ChTicks Ltickslock go (world0 false [proc0; proc0])) as [w| |] eqn:E; [|by vm_compute in E..].
  exists w. pose proof (run_labels_reachable _ _ _ _ _ _ _ (reachable_start _ _ _ _) E) as Hr.
  assert (w_cond w = true ∧ (p_state <$> w_procs w) = [SLEEPING; RUNNING]) as [Hc Hp].
  { vm_compute in E. injection E as <-. done. }
  split_and!; [done..|]. assert (length [proc0; proc0] ≤ NPROC)%nat as Hn by (unfold NPROC; simpl; lia).
  destruct (sleep_no_lost_wakeup ChTicks Ltickslock false [proc0; proc0] w Hn Hr) as [H _].
  destruct (w_procs w) as [|p ps] eqn:Ep; [done|]. apply (H Hc 0%nat p); [done|]. simpl in Hp. congruence.
Defined.
