(* ===== verification/Mutex.v ===== *)
(** * Mutexes and condition variables (proc.c)

    The kernel keeps MUX_MAXNUM mutexes; a process names one by the index of the
    slot of its [mutex] array that points to it.  A [char *name] is the list of its
    characters. *)
From S2P Require Import Prelude Mem CString Mmu Kalloc KState Sched.

(** cas (cas.h): compare-and-swap of an [int] field, and whether it was made. *)
Definition cas (cur old new : Z) : Z * bool :=
  if cur =? old then (new, true) else (cur, false).

(** [curr_proc->mutex[muxid]]; an index outside the array is not checked. *)
Definition my_mutex (muxid : Z) : K (option nat) :=
  i <- myproc;
  p <- getp i;
  if muxid <? 0 then undef "mutex[muxid]" else
  deref "mutex[muxid]" (p_mutex p !! Z.to_nat muxid).

Definition set_my_mutex (k : nat) (m : option nat) : K unit :=
  i <- myproc; modp i (λ p, p <| p_mutex ::= <[k := m]> |>).

(** [strncmp(name, m->name, strlen(name)) == 0] *)
Definition name_match (name buf : list Z) : option bool :=
  (λ r, r =? 0) <$> strncmp (cz name) buf (length name).

Inductive mux_search := MuxFound (m : nat) | MuxFree (m : option nat) | MuxOverrun.

(** The first loop of mutex_create, over the table from entry [i]. *)
Fixpoint mux_scan (name : list Z) (cid : Z) (l : list mutex) (i : nat) (unallocated : option nat)
    : mux_search :=
  match l with
  | [] => MuxFree unallocated
  | m :: l =>
      if (m_isAlloc m =? 0) && bool_decide (unallocated = None)
      then mux_scan name cid l (S i) (Some i)
      else match name_match name (m_name m) with
           | None => MuxOverrun
           | Some b => if b && (u32 (m_container_id m) =? cid) then MuxFound i
                       else mux_scan name cid l (S i) unallocated
           end
  end.

(** The loop after [addtoProc:]: the first empty slot, or [None] when the process
    already has the mutex. *)
Fixpoint slot_scan (m : nat) (l : list (option nat)) (i : nat) (muxid : option nat)
    : option (option nat) :=
  match l with
  | [] => Some muxid
  | x :: l =>
      if bool_decide (x = None) && bool_decide (muxid = None) then slot_scan m l (S i) (Some i)
      else if bool_decide (x = Some m) then None
      else slot_scan m l (S i) muxid
  end.

Definition mutex_create (name : list Z) : K Z :=
  i <- myproc;
  p <- getp i;
  acquire Lmtable;;
  mt <- gets k_mtable;
  match mux_scan name (p_container_id p) mt 0 None with
  | MuxOverrun => undef "mutex_create: name"
  | MuxFound m =>
      match slot_scan m (p_mutex p) 0 None with
      | Some (Some k) =>
          set_my_mutex k (Some m);;
          modmux m (λ x, x <| m_refcount ::= λ n, s32 (n + 1) |>);;
          release Lmtable;;
          ret (Z.of_nat k)
      | _ => release Lmtable;; ret (-1)
      end
  | MuxFree None => release Lmtable;; ret (-1)
  | MuxFree (Some m) =>
      x <- getmux m;
      nm <- deref "mutex_create: name" (strncpy (m_name x) (cz name) (length name));
      modmux m (λ x, x <| m_isAlloc := 1 |> <| m_name := nm |> <| m_refcount := 1 |>
                       <| m_container_id := s32 (p_container_id p) |> <| m_cv := 0 |>);;
      match find_index (λ x, bool_decide (x = None)) (p_mutex p) with
      | Some k => set_my_mutex k (Some m);; release Lmtable;; ret (Z.of_nat k)
      | None => release Lmtable;; ret (-1)
      end
  end.

Definition mutex_holding (m : nat) : K bool :=
  x <- getmux m;
  i <- myproc;
  p <- getp i;
  ret (negb (m_locked x =? 0) && (m_pid x =? p_pid p)).

(** The last reference is gone: strncpy(m->name, "", strlen("")) copies nothing. *)
Definition mux_dealloc (x : mutex) : mutex :=
  x <| m_isAlloc := 0 |> <| m_refcount := 0 |> <| m_container_id := 0 |> <| m_locked := 0 |>.

Definition mutex_delete (muxid : Z) : K unit :=
  m <- my_mutex muxid;
  acquire Lmtable;;
  match m with
  | None => release Lmtable
  | Some m =>
      set_my_mutex (Z.to_nat muxid) None;;
      x <- getmux m;
      if m_refcount x =? 1 then modmux m mux_dealloc;; release Lmtable else
      h <- mutex_holding m;
      when h (modmux m (λ x, x <| m_locked := 0 |>));;
      modmux m (λ x, x <| m_refcount ::= λ n, s32 (n - 1) |>);;
      release Lmtable
  end.

Definition mutex_unlock (muxid : Z) : K unit :=
  m <- my_mutex muxid;
  acquire Lmtable;;
  match m with
  | None => release Lmtable
  | Some m =>
      h <- mutex_holding m;
      if h : bool then
        modmux m (λ x, x <| m_locked := 0 |>);;
        release Lmtable;;
        wakeup (ChMutex m)
      else release Lmtable
  end.

Section mutex.
  Context `{Bound}.

Definition mutex_lock (muxid : Z) : K unit :=
  m <- my_mutex muxid;
  match m with
  | None => ret tt
  | Some m =>
      h <- mutex_holding m;
      if h : bool then ret tt else
      acquire Lmtable;;
      loop wakeups (λ _ : unit,
        x <- getmux m;
        if m_locked x =? 1 then sleep (ChMutex m) Lmtable;; ret (inl tt) else ret (inr tt)) tt;;
      i <- myproc;
      p <- getp i;
      modmux m (λ x, x <| m_locked := 1 |>);;
      modmux m (λ x, x <| m_pid := p_pid p |>);;
      release Lmtable
  end.

Definition cv_wait (muxid : Z) : K unit :=
  m <- my_mutex muxid;
  match m with
  | None => ret tt
  | Some m =>
      h <- mutex_holding m;
      if negb h then ret tt else
      mutex_unlock muxid;;
      loop wakeups (λ _ : unit,
        x <- getmux m;
        let '(v, done) := cas (m_cv x) 1 0 in
        modmux m (λ x, x <| m_cv := v |>);;
        if done : bool then ret (inr tt) else
        acquire Lptable;;
        i <- myproc;
        modp i (λ p, p <| p_chan := Some (ChMutex m) |> <| p_state := SLEEPING |>);;
        sched;;
        release Lptable;;
        ret (inl tt)) tt;;
      mutex_lock muxid
  end.

(** A round of cv_signal that finds [cv] set wakes the sleepers and tries again; the
    other processes run meanwhile because the timer interrupt preempts it, which is
    the call of [yield] here (trap.c). *)
Definition cv_signal (muxid : Z) : K unit :=
  m <- my_mutex muxid;
  match m with
  | None => ret tt
  | Some m =>
      loop wakeups (λ _ : unit,
        acquire Lmtable;;
        x <- getmux m;
        done <- (if m_cv x =? 0 then modmux m (λ x, x <| m_cv := 1 |>);; ret true else ret false);
        release Lmtable;;
        wakeup (ChMutex m);;
        if done : bool then ret (inr tt) else yield;; ret (inl tt)) tt
  end.

End mutex.

(** ** Mutual exclusion

    [me i pid s]: the processor runs process [i], whose pid is [pid].  [respects pid]:
    no lock held by a process with another pid changes hands. *)

Definition me (i : nat) (pid : Z) (s : kst) : Prop :=
  k_cur s = Some i ∧ ∃ p, k_ptable s !! i = Some p ∧ p_pid p = pid.

Definition locked_by (m : nat) (pid : Z) (s : kst) : Prop :=
  ∃ x, k_mtable s !! m = Some x ∧ m_locked x = 1 ∧ m_pid x = pid.

Definition respects (i : nat) (pid : Z) (s s' : kst) : Prop :=
  (me i pid s → me i pid s') ∧
  ∀ m pid', pid' ≠ pid → locked_by m pid' s → locked_by m pid' s'.

Section respects.
  Context (i : nat) (pid : Z).
  Abbreviation guar' := (guar (me i pid) (respects i pid)).

Lemma respects_refl s : respects i pid s s.
Proof. split; auto. Qed.

Lemma respects_trans s1 s2 s3 :
  respects i pid s1 s2 → respects i pid s2 s3 → respects i pid s1 s3.
Proof. intros [H1 H2] [H3 H4]. split; eauto. Qed.

Lemma respects_me s s' : respects i pid s s' → me i pid s → me i pid s'.
Proof. by intros []. Qed.

  (** The mutexes, the current process and the pids stay. *)
Lemma respects_quiet s s' :
  k_mtable s' = k_mtable s → k_cur s' = k_cur s → p_pid <$> k_ptable s' = p_pid <$> k_ptable s →
  respects i pid s s'.
Proof.
  intros Hm Hc Hp. split.
  - intros [Hi (p & Hpi & <-)]. split; [congruence|].
    pose proof (list_lookup_fmap p_pid (k_ptable s') i) as E. rewrite Hp, list_lookup_fmap, Hpi in E.
    destruct (k_ptable s' !! i) as [q|]; simpl in E; [|done]. exists q. split; [done|]. congruence.
  - intros m pid' _ (x & Hx & ? & ?). exists x. by rewrite Hm.
Qed.

Definition rg_bind := @guar_bind _ _ _ respects_trans respects_me.
Definition rg_loop := @guar_loop _ _ _ respects_refl respects_trans respects_me.

Lemma rg_ret {A} (a : A) (Q : A → kst → Prop) s : Q a s → guar' Q s (ret a s).
Proof. split; [apply respects_refl|done]. Qed.

Lemma rg_quiet {A} (m : K A) s a s' (Q : A → kst → Prop) :
  m s = Ok a s' → k_mtable s' = k_mtable s → k_cur s' = k_cur s →
  p_pid <$> k_ptable s' = p_pid <$> k_ptable s → Q a s' → guar' Q s (m s).
Proof. intros -> ????. split; [by apply respects_quiet|done]. Qed.

Lemma rg_acquire l s : guar' (λ _ s', k_mtable s' = k_mtable s) s (acquire l s).
Proof.
  unfold acquire, holding, bind. simpl. case_bool_decide; [done|].
  split; [by apply respects_quiet|done].
Qed.

Lemma rg_release l s : guar' (λ _ s', k_mtable s' = k_mtable s) s (release l s).
Proof.
  unfold release, holding, bind. simpl. case_bool_decide; [|done].
  split; [by apply respects_quiet|done].
Qed.

Lemma rg_modp j f s :
  (∀ p, p_pid (f p) = p_pid p) → guar' (λ _ s', k_mtable s' = k_mtable s) s (modp j f s).
Proof.
  intros Hf. unfold modp, getp, bind. simpl. destruct (k_ptable s !! j) as [p|] eqn:E; [|done].
  split; [|done]. apply respects_quiet; [done..|]. simpl. rewrite list_fmap_insert, Hf.
  apply list_insert_id. by rewrite list_lookup_fmap, E.
Qed.

Lemma rg_wakeup c s : guar' (λ _ s', k_mtable s' = k_mtable s) s (wakeup c s).
Proof.
  destruct (decide (Lptable ∈ k_held s)).
  { unfold wakeup, acquire, holding, bind. simpl. by rewrite bool_decide_true. }
  eapply rg_quiet; [by apply wakeup_run|done..| |done]. simpl. rewrite <-list_fmap_compose.
  apply list_fmap_ext. intros ? p _. unfold wake_proc, compose. by case_decide.
Qed.

Lemma rg_sched s : guar' (λ _ _, True) s (sched s).
Proof.
  unfold sched, myproc, holding, getp, bind. simpl. destruct (k_cur s); simpl; [|done].
  case_bool_decide; simpl; [|done]. case_bool_decide; simpl; [|done].
  destruct (k_ptable s !! n); simpl; [|done]. case_decide; [done|].
  split; [apply respects_refl|]. intros s' _. split; [apply respects_refl|done].
Qed.

Lemma rg_when b (m : K unit) s :
  guar' (λ _ _, True) s (m s) → guar' (λ _ _, True) s (when b m s).
Proof. destruct b; [done|]. intros _. by apply rg_ret. Qed.

Lemma rg_kact j a s : me i pid s → guar' (λ _ _, True) s (kact_run j a s).
Proof.
  intros Hme. destruct a; simpl; try (by eapply guar_mono; [|apply rg_acquire]); try (by eapply guar_mono; [|apply rg_release]);
    try (by eapply guar_mono; [|by apply rg_modp]); [apply rg_sched|].
  split; [|done]. apply respects_quiet; [done..|]. simpl. apply list_eq. intros k. rewrite !list_lookup_fmap.
  destruct (decide (k = j0)) as [->|]; [rewrite list_lookup_alter_eq|by rewrite list_lookup_alter_ne].
  destruct (k_ptable s !! j0); [|done]. simpl. unfold wake_proc. by case_decide.
Qed.

Lemma rg_sleep c lk s : me i pid s → guar' (λ _ _, True) s (sleep c lk s).
Proof.
  intros Hme. unfold sleep, bind at 1. simpl. destruct (k_cur s) as [j|]; [|done].
  apply guar_forM; [apply respects_refl|apply respects_trans|apply respects_me|done|]. intros. by apply rg_kact.
Qed.

  (** Computations that only read the state. *)
Definition reads {A} (m : K A) : Prop :=
  ∀ s, match m s with Ok _ s' => s' = s | Switch _ _ => False | _ => True end.

Lemma reads_getp j : reads (getp j).
Proof. intros s. unfold getp, bind. simpl. by destruct (k_ptable s !! j). Qed.
Lemma reads_myproc : reads myproc.
Proof. intros s. unfold myproc, bind. simpl. by destruct (k_cur s). Qed.
Lemma reads_getmux m : reads (getmux m).
Proof. intros s. unfold getmux, bind. simpl. by destruct (k_mtable s !! m). Qed.
Lemma reads_gets {A} (f : kst → A) : reads (gets f).
Proof. done. Qed.
Lemma reads_deref {A} msg (o : option A) : reads (deref msg o).
Proof. by destruct o. Qed.
Lemma reads_bind {A B} (m : K A) (k : A → K B) :
  reads m → (∀ a, reads (k a)) → reads (bind m k).
Proof.
  intros Hm Hk s. unfold bind. specialize (Hm s). destruct (m s) as [a s'| | | |]; try done.
  subst. apply Hk.
Qed.
Lemma reads_my_mutex k : reads (my_mutex k).
Proof.
  apply reads_bind; [apply reads_myproc|]. intros j. apply reads_bind; [apply reads_getp|].
  intros p. destruct (k <? 0); [done|apply reads_deref].
Qed.
Lemma reads_mutex_holding m : reads (mutex_holding m).
Proof.
  apply reads_bind; [apply reads_getmux|]. intros x. apply reads_bind; [apply reads_myproc|].
  intros j. by apply reads_bind; [apply reads_getp|].
Qed.

Lemma rg_read {A B} (m : K A) (k : A → K B) (Q : B → kst → Prop) s :
  reads m → (∀ a, m s = Ok a s → guar' Q s (k a s)) → guar' Q s (bind m k s).
Proof.
  intros Hm Hk. unfold bind. specialize (Hm s). destruct (m s) as [a s'| | | |]; try done.
  subst. by apply Hk.
Qed.

  (** What a mutex must keep when another process holds it. *)
Lemma rg_modmux m f s :
  (∀ x, k_mtable s !! m = Some x → m_locked x = 1 → m_pid x ≠ pid →
     m_locked (f x) = 1 ∧ m_pid (f x) = m_pid x) →
  guar' (λ _ s', ∃ x, k_mtable s !! m = Some x ∧ k_mtable s' = <[m := f x]> (k_mtable s)) s (modmux m f s).
Proof.
  intros Hf. unfold modmux, getmux, bind. simpl. destruct (k_mtable s !! m) as [x|] eqn:E; [|done].
  simpl. split; [|eauto]. split; [done|]. intros m' pid' Hne (y & Hy & Hl & Hp). unfold locked_by. simpl.
  destruct (decide (m' = m)) as [->|].
  - simplify_eq. destruct (Hf x) as [??]; [done..|]. exists (f x).
    rewrite list_lookup_insert_eq by (by eapply lookup_lt_Some). split_and!; congruence.
  - exists y. by rewrite list_lookup_insert_ne.
Qed.

Lemma modmux_modmux {B} m f g (k : unit → K B) s :
  bind (modmux m f) (λ _, bind (modmux m g) k) s = bind (modmux m (λ x, g (f x))) k s.
Proof.
  unfold modmux, getmux, bind. simpl. destruct (k_mtable s !! m) as [x|] eqn:E; [|done]. simpl.
  rewrite list_lookup_insert_eq by (by eapply lookup_lt_Some). simpl.
  unfold upd, upd_k_mtable. simpl. by rewrite list_insert_insert_eq.
Qed.

Lemma me_holding m s h :
  me i pid s → mutex_holding m s = Ok h s →
  ∃ x, k_mtable s !! m = Some x ∧ h = negb (m_locked x =? 0) && (m_pid x =? pid).
Proof.
  intros [Hi (p & Hp & Hpid)]. unfold mutex_holding, getmux, bind. simpl.
  destruct (k_mtable s !! m) as [x|]; [|done]. simpl. rewrite (myproc_run i) by done. simpl.
  rewrite (getp_run i p) by done. simpl. intros [= <-]. exists x. by rewrite Hpid.
Qed.
End respects.

Section exclusion.
  Context `{Bound} (i : nat) (pid : Z).
  Abbreviation guar' := (guar (me i pid) (respects i pid)).

  (** [guar' ... (m;; k)] where only the state after [m] matters. *)
Ltac rg_seq lem :=
  eapply rg_bind; [done|apply lem|];
  let s := fresh "s" in let Hme := fresh "Hme" in intros ? s Hme ?.

Lemma rg_weaken {A} (Q : A → kst → Prop) s (o : outcome kst A) :
  guar' Q s o → guar' (λ _ _, True) s o.
Proof. apply guar_mono. done. Qed.

Lemma rg_mutex_unlock k s : me i pid s → guar' (λ _ _, True) s (mutex_unlock k s).
Proof.
  intros Hme. apply rg_read; [apply reads_my_mutex|]. intros [m|] _; rg_seq rg_acquire.
  2: { eapply rg_weaken, rg_release. }
  apply rg_read; [apply reads_mutex_holding|]. intros h Hh.
  destruct (me_holding _ _ _ _ _ Hme0 Hh) as (x & Hx & ->). destruct (_ && _) eqn:E.
  2: { eapply rg_weaken, rg_release. }
  apply andb_true_iff in E as [_ E%Z.eqb_eq].
  eapply rg_bind; [done|apply rg_modmux|].
  { intros y Hy _ Hne. simplify_eq. }
  intros _ s1 Hme1 _. rg_seq rg_release. eapply rg_weaken, rg_wakeup.
Qed.

Lemma rg_mutex_lock k s :
  me i pid s →
  guar' (λ _ s', ∀ m, my_mutex k s = Ok (Some m) s →
           ∃ x, k_mtable s' !! m = Some x ∧ m_locked x ≠ 0 ∧ m_pid x = pid) s (mutex_lock k s).
Proof.
  intros Hme. unfold mutex_lock. apply rg_read; [apply reads_my_mutex|]. intros [m|] Hm.
  2: { apply rg_ret. congruence. }
  apply rg_read; [apply reads_mutex_holding|]. intros h Hh.
  destruct (me_holding _ _ _ _ _ Hme Hh) as (x & Hx & ->). destruct (_ && _) eqn:E.
  { apply andb_true_iff in E as [E1%negb_true_iff%Z.eqb_neq E2%Z.eqb_eq].
    apply rg_ret. intros ? Hm'. rewrite Hm in Hm'. simplify_eq. eauto. }
  clear E. rg_seq rg_acquire.
  eapply (rg_bind _ _ _ _ (λ _ s', ∃ x, k_mtable s' !! m = Some x ∧ m_locked x ≠ 1)); [done|apply rg_loop|].
  { done. }
  { intros _ s1 Hme1. apply rg_read; [apply reads_getmux|]. intros y Hy.
    destruct (m_locked y =? 1) eqn:E.
    - eapply rg_bind; [done|by apply rg_sleep|]. intros. by apply rg_ret.
    - apply rg_ret. exists y. apply Z.eqb_neq in E. split; [|done].
      unfold getmux, bind in Hy. simpl in Hy.
      destruct (k_mtable s1 !! m); simpl in Hy; [|done]. by injection Hy as ->. }
  intros _ s1 Hme1 (y & Hy & Hl). apply rg_read; [apply reads_myproc|]. intros j Hj.
  apply rg_read; [apply reads_getp|]. intros p Hp.
  assert (p_pid p = pid) as Hpid.
  { destruct Hme1 as [Hi (p' & Hp' & <-)]. rewrite (myproc_run i) in Hj by done. simplify_eq.
    rewrite (getp_run j p') in Hp by done. congruence. }
  rewrite modmux_modmux. eapply rg_bind; [done|apply rg_modmux|].
  { intros z Hz ??. congruence. }
  intros _ s2 Hme2 (z & Hz & Hs2). eapply guar_mono; [|apply rg_release].
  intros ? s3 Hs3 m' Hm'. rewrite Hm in Hm'. simplify_eq. rewrite Hs3, Hs2.
  rewrite list_lookup_insert_eq by (by eapply lookup_lt_Some). eexists. split; [done|]. simpl. done.
Qed.

Lemma rg_yield s : me i pid s → guar' (λ _ _, True) s (yield s).
Proof.
  intros Hme. unfold yield. rg_seq rg_acquire. apply rg_read; [apply reads_myproc|]. intros j _.
  eapply rg_bind; [done|by apply rg_modp|]. intros _ s1 ? _. rg_seq rg_sched.
  eapply rg_weaken, rg_release.
Qed.

  (** A change of [cv] or of the bookkeeping fields. *)
Lemma rg_modmux_cv m f s :
  (∀ x, m_locked (f x) = m_locked x ∧ m_pid (f x) = m_pid x) → guar' (λ _ _, True) s (modmux m f s).
Proof.
  intros Hf. eapply rg_weaken, rg_modmux. intros x _ Hl _. destruct (Hf x) as [-> ->]. done.
Qed.

Lemma rg_cv_wait k s : me i pid s → guar' (λ _ _, True) s (cv_wait k s).
Proof.
  intros Hme. unfold cv_wait. apply rg_read; [apply reads_my_mutex|]. intros [m|] _; [|by apply rg_ret].
  apply rg_read; [apply reads_mutex_holding|]. intros [] _; [|by apply rg_ret].
  eapply rg_bind; [done|by apply rg_mutex_unlock|]. intros _ s1 Hme1 _.
  eapply (rg_bind _ _ _ _ (λ _ _, True)); [done|apply rg_loop; [done|]|].
  2: { intros _ s2 Hme2 _. by eapply rg_weaken, rg_mutex_lock. }
  intros _ s2 Hme2. apply rg_read; [apply reads_getmux|]. intros x _.
  destruct (cas (m_cv x) 1 0) as [v d].
  eapply rg_bind; [done|by apply rg_modmux_cv|]. intros _ s3 Hme3 _.
  destruct d; [by apply rg_ret|]. rg_seq rg_acquire. apply rg_read; [apply reads_myproc|]. intros j _.
  eapply rg_bind; [done|by apply rg_modp|]. intros _ s4 ? _. rg_seq rg_sched. rg_seq rg_release.
  by apply rg_ret.
Qed.

Lemma rg_cv_signal k s : me i pid s → guar' (λ _ _, True) s (cv_signal k s).
Proof.
  intros Hme. unfold cv_signal. apply rg_read; [apply reads_my_mutex|]. intros [m|] _; [|by apply rg_ret].
  apply rg_loop; [done|]. intros _ s1 Hme1. rg_seq rg_acquire.
  apply rg_read; [apply reads_getmux|]. intros x _.
  eapply (rg_bind _ _ _ _ (λ _ _, True)); [done| |].
  { destruct (m_cv x =? 0); [|by apply rg_ret].
    eapply rg_bind; [done|by apply rg_modmux_cv|]. intros. by apply rg_ret. }
  intros d s2 Hme2 _. rg_seq rg_release. rg_seq rg_wakeup. destruct d; [by apply rg_ret|].
  eapply rg_bind; [done|by apply rg_yield|]. intros. by apply rg_ret.
Qed.

Lemma rg_set_my_mutex k o s : guar' (λ _ s', k_mtable s' = k_mtable s) s (set_my_mutex k o s).
Proof. apply rg_read; [apply reads_myproc|]. intros j _. by apply rg_modp. Qed.

Lemma rg_mutex_create name s : me i pid s → guar' (λ _ _, True) s (mutex_create name s).
Proof.
  intros Hme. unfold mutex_create. apply rg_read; [apply reads_myproc|]. intros j _.
  apply rg_read; [apply reads_getp|]. intros p _. rg_seq rg_acquire.
  apply rg_read; [apply reads_gets|]. intros mt _.
  destruct (mux_scan _ _ _ _ _) as [m|[m|]|]; [| | |done].
  - destruct (slot_scan _ _ _ _) as [[k|]|]; [|rg_seq rg_release; by apply rg_ret..].
    rg_seq rg_set_my_mutex. eapply rg_bind; [done|by apply rg_modmux_cv|]. intros _ s9 ? _.
    rg_seq rg_release. by apply rg_ret.
  - apply rg_read; [apply reads_getmux|]. intros x _. apply rg_read; [apply reads_deref|]. intros nm _.
    eapply rg_bind; [done|by apply rg_modmux_cv|]. intros _ s9 ? _.
    destruct (find_index _ _); [rg_seq rg_set_my_mutex|]; rg_seq rg_release; by apply rg_ret.
  - rg_seq rg_release. by apply rg_ret.
Qed.

  (** mutex_delete may drop the last reference only to a mutex nobody else holds. *)
Definition delete_ok (k : Z) (s : kst) : Prop :=
  ∀ m x, my_mutex k s = Ok (Some m) s → k_mtable s !! m = Some x → m_refcount x = 1 →
    m_locked x = 1 → m_pid x = pid.

Lemma rg_mutex_delete k s : me i pid s → delete_ok k s → guar' (λ _ _, True) s (mutex_delete k s).
Proof.
  intros Hme Hd. apply rg_read; [apply reads_my_mutex|].
  intros [m|] Hm; eapply rg_bind; [done|apply rg_acquire| |done|apply rg_acquire|].
  2: { intros. eapply rg_weaken, rg_release. }
  intros ? s1 Hme1 Hs1. eapply rg_bind; [done|apply rg_set_my_mutex|]. intros ? s2 Hme2 Hs2.
  apply rg_read; [apply reads_getmux|]. intros x Hx.
  assert (k_mtable s2 !! m = Some x) as Hx'.
  { unfold getmux, bind in Hx. simpl in Hx. destruct (k_mtable s2 !! m); simpl in Hx; [|done].
    by injection Hx as ->. }
  destruct (m_refcount x =? 1) eqn:E.
  - eapply rg_bind; [done|apply rg_modmux|].
    { intros y Hy Hl Hne. apply Z.eqb_eq in E. simplify_eq. destruct Hne.
      eapply Hd; [done| |done|done]. congruence. }
    intros. eapply rg_weaken, rg_release.
  - apply rg_read; [apply reads_mutex_holding|]. intros h Hh.
    destruct (me_holding _ _ _ _ _ Hme2 Hh) as (x' & Hx2 & ->). simplify_eq.
    eapply (rg_bind _ _ _ _ (λ _ _, True)); [done| |].
    { destruct (_ && _) eqn:E'; [|by apply rg_ret]. simpl. eapply rg_weaken, rg_modmux.
      apply andb_true_iff in E' as [_ E'%Z.eqb_eq]. intros y Hy _ Hne. congruence. }
    intros _ s3 Hme3 _. eapply rg_bind; [done|by apply rg_modmux_cv|]. intros.
    eapply rg_weaken, rg_release.
Qed.
End exclusion.

(** The mutex system calls. *)
Inductive mux_op :=
  | MCreate (name : list Z) | MDelete (k : Z) | MLock (k : Z) | MUnlock (k : Z)
  | CvWait (k : Z) | CvSignal (k : Z).

Definition mux_exec `{Bound} (o : mux_op) : K unit :=
  match o with
  | MCreate name => mutex_create name;; ret tt
  | MDelete k => mutex_delete k
  | MLock k => mutex_lock k
  | MUnlock k => mutex_unlock k
  | CvWait k => cv_wait k
  | CvSignal k => cv_signal k
  end.

(** ** References

    The slots of all processes that name mutex [m]. *)
Definition slots (m : nat) (p : proc) : nat := length (filter (λ o, o = Some m) (p_mutex p)).
Definition refs (m : nat) (s : kst) : nat := sum_list (slots m <$> k_ptable s).

(** The reference count counts at least the references, and the holder of a mutex has
    a reference to it. *)
Record refs_ok (s : kst) : Prop := {
  ro_count : ∀ m x, k_mtable s !! m = Some x → Z.of_nat (refs m s) ≤ m_refcount x < 2 ^ 31;
  ro_holder : ∀ m x, k_mtable s !! m = Some x → m_locked x = 1 →
    ∃ j p, k_ptable s !! j = Some p ∧ p_pid p = m_pid x ∧ Some m ∈ p_mutex p;
}.

Lemma slots_pos m p : Some m ∈ p_mutex p → (1 ≤ slots m p)%nat.
Proof.
  intros Hm. unfold slots. assert (Some m ∈ filter (λ o, o = Some m) (p_mutex p)) as Hf by (by apply list_elem_of_filter).
  destruct (filter _ _); [by apply elem_of_nil in Hf|simpl; lia].
Qed.

Lemma filter_insert {A} (P : A → Prop) `{!∀ x, Decision (P x)} (l : list A) k x y :
  l !! k = Some x →
  (length (filter P (<[k := y]> l)) + (if decide (P x) then 1 else 0) = length (filter P l) + (if decide (P y) then 1 else 0))%nat.
Proof.
  revert k. induction l as [|z l IH]; intros k Hk; [done|]. destruct k as [|k]; simpl in *; rewrite !filter_cons.
  - injection Hk as ->. repeat case_decide; simpl; lia.
  - specialize (IH k Hk). repeat case_decide; simpl; lia.
Qed.

Lemma sum_insert {A} (f : A → nat) (l : list A) i x y :
  l !! i = Some x → (sum_list (f <$> <[i := y]> l) + f x = sum_list (f <$> l) + f y)%nat.
Proof.
  unfold fmap. revert i. induction l as [|z l IH]; intros i Hi; [done|]. destruct i as [|i]; simpl in *; [injection Hi as ->; lia|].
  specialize (IH i Hi). lia.
Qed.

Lemma sum_one {A} (f : A → nat) (l : list A) i x : l !! i = Some x → (f x ≤ sum_list (f <$> l))%nat.
Proof.
  unfold fmap. revert i. induction l as [|z l IH]; intros [|i] Hi; simpl in *; try done; [injection Hi as ->; lia|].
  specialize (IH i Hi). lia.
Qed.

Lemma sum_two {A} (f : A → nat) (l : list A) i j x y :
  i ≠ j → l !! i = Some x → l !! j = Some y → (f x + f y ≤ sum_list (f <$> l))%nat.
Proof.
  revert i j. induction l as [|z l IH]; intros [|i] [|j] Hij Hi Hj; try done; rewrite fmap_cons; cbn [sum_list_with id].
  - injection Hi as ->. pose proof (sum_one f l j y Hj). lia.
  - injection Hj as ->. pose proof (sum_one f l i x Hi). lia.
  - specialize (IH i j ltac:(lia) Hi Hj). lia.
Qed.

Lemma my_mutex_inv i pid k m s :
  me i pid s → my_mutex k s = Ok (Some m) s →
  ∃ p, k_cur s = Some i ∧ k_ptable s !! i = Some p ∧ p_pid p = pid ∧ p_mutex p !! Z.to_nat k = Some (Some m).
Proof.
  intros [Hi (p & Hp & Hpid)]. unfold my_mutex. run (myproc_run i); [|done]. run (getp_run i p); [|done].
  destruct (k <? 0); [done|]. destruct (p_mutex p !! Z.to_nat k) as [o|] eqn:E; simpl; [|done]. intros [= ->]. eauto.
Qed.

(** The last reference is the caller's own, so nobody else holds the mutex. *)
Lemma refs_ok_delete i pid k s : me i pid s → refs_ok s → delete_ok pid k s.
Proof.
  intros Hme [HC HH] m x Hm Hx Hr Hl. destruct (my_mutex_inv _ _ _ _ _ Hme Hm) as (p & _ & Hp & <- & Hk).
  destruct (HH m x Hx Hl) as (j & q & Hq & Hqp & Hmq). destruct (decide (j = i)) as [->|Hne]; [congruence|].
  pose proof (sum_two (slots m) _ i j p q ltac:(done) Hp Hq). pose proof (slots_pos m q Hmq).
  pose proof (slots_pos m p (list_elem_of_lookup_2 _ _ _ Hk)). destruct (HC m x Hx). unfold refs in *. lia.
Qed.

(** A slot of process [i] is cleared and its mutex changes to [x']. *)
Lemma refs_ok_drop i p k m x x' s s' :
  refs_ok s → k_ptable s !! i = Some p → p_mutex p !! k = Some (Some m) → k_mtable s !! m = Some x →
  k_ptable s' = <[i := p <| p_mutex ::= <[k := None]> |>]> (k_ptable s) → k_mtable s' = <[m := x']> (k_mtable s) →
  m_refcount x - 1 ≤ m_refcount x' < 2 ^ 31 → (m_locked x' = 1 → m_locked x = 1 ∧ m_pid x' = m_pid x ∧ m_pid x ≠ p_pid p) →
  refs_ok s'.
Proof.
  intros [HC HH] Hp Hk Hx Ept Emt Hr Hl. set (p' := p <| p_mutex ::= <[k := None]> |>) in *.
  assert (∀ m', (refs m' s' + (if decide (m' = m) then 1 else 0) = refs m' s)%nat) as Href.
  { intros m'. unfold refs. rewrite Ept. pose proof (sum_insert (slots m') _ i p p' Hp) as E1.
    pose proof (filter_insert (λ o, o = Some m') _ k _ None Hk) as E2. change (length (filter _ (<[k := None]> _))) with (slots m' p') in E2.
    change (length (filter _ (p_mutex p))) with (slots m' p) in E2. rewrite (decide_False (P := None = Some m')) in E2 by done.
    destruct (decide (m' = m)) as [->|]; [rewrite decide_True in E2 by done|rewrite decide_False in E2 by congruence]; lia. }
  split; rewrite Emt; intros m' y [(<- & <- & _)|[Hne Hy]]%list_lookup_insert_Some.
  - specialize (Href m). rewrite decide_True in Href by done. destruct (HC m x Hx). lia.
  - specialize (Href m'). rewrite decide_False in Href by done. destruct (HC m' y Hy). lia.
  - intros H1. destruct (Hl H1) as (H2 & -> & H3). destruct (HH m x Hx H2) as (j & q & Hq & Hqp & Hmq).
    exists j, q. rewrite Ept, list_lookup_insert_ne; [done|]. intros <-. congruence.
  - intros H1. destruct (HH m' y Hy H1) as (j & q & Hq & Hqp & Hmq). destruct (decide (j = i)) as [->|Hji].
    + exists i, p'. rewrite Ept, list_lookup_insert_eq by (by eapply lookup_lt_Some). rewrite Hp in Hq. injection Hq as <-.
      split_and!; try done. apply list_elem_of_lookup in Hmq as [k' Hk']. apply list_elem_of_lookup. exists k'. simpl.
      rewrite list_lookup_insert_ne; [done|]. intros <-. congruence.
    + exists j, q. by rewrite Ept, list_lookup_insert_ne.
Qed.

(** mutex_delete keeps the references counted. *)
Theorem mutex_delete_refs i pid k s :
  me i pid s → k_held s = [] → refs_ok s → match mutex_delete k s with Ok _ s' => refs_ok s' | _ => True end.
Proof.
  intros Hme Hh Hro. pose proof (reads_my_mutex k s) as Hrd. unfold mutex_delete. unfold bind at 1.
  destruct (my_mutex k s) as [[m|] s0| | | |] eqn:Hm; try done; simpl; subst s0.
  2: { run acquire_run; [|rewrite Hh; set_solver]. rewrite release_top by (rewrite Hh; set_solver). done. }
  destruct (my_mutex_inv _ _ _ _ _ Hme Hm) as (p & Hi & Hp & Hpid & Hk).
  run acquire_run; [|rewrite Hh; set_solver]. erewrite bind_ok; [|unfold set_my_mutex; run (myproc_run i); [|done]; by apply (modp_run i p)].
  destruct (k_mtable s !! m) as [x|] eqn:Hx.
  2: { unfold getmux, bind. simpl. by rewrite Hx. }
  run (getmux_run m x); [|done]. destruct (Z.eqb_spec (m_refcount x) 1) as [E1|E1].
  - run (modmux_run m x); [|done]. rewrite (release_run _ _ []) by (simpl; rewrite ?Hh; set_solver).
    eapply refs_ok_drop; [done|exact Hp|exact Hk|exact Hx|done|done| |]; simpl; [lia|done].
  - set (s2 := upd k_ptable _ _).
    assert (mutex_holding m s2 = Ok (negb (m_locked x =? 0) && (m_pid x =? pid)) s2) as Hho.
    { unfold mutex_holding. run (getmux_run m x); [|done]. run (myproc_run i); [|done]. erewrite bind_ok; [|apply getp_run; simpl;
        apply list_lookup_insert_eq; by eapply lookup_lt_Some]. simpl. by rewrite Hpid. }
    run Hho. pose proof (ro_count _ Hro m x Hx) as Hc.
    assert (1 ≤ m_refcount x).
    { pose proof (sum_one (slots m) _ i p Hp). pose proof (slots_pos m p (list_elem_of_lookup_2 _ _ _ Hk)). unfold refs in Hc. lia. }
    destruct (_ && _) eqn:Eh; simpl when.
    + run (modmux_run m x); [|done]. run (modmux_run m (x <| m_locked := 0 |>));
        [|simpl; apply list_lookup_insert_eq; by eapply lookup_lt_Some].
      rewrite (release_run _ _ []) by (simpl; rewrite ?Hh; set_solver).
      eapply refs_ok_drop; [done|exact Hp|exact Hk|exact Hx|done|by apply list_insert_insert_eq| |]; simpl; [rewrite s32_small; lia|done].
    + step. run (modmux_run m x); [|done]. rewrite (release_run _ _ []) by (simpl; rewrite ?Hh; set_solver).
      eapply refs_ok_drop; [done|exact Hp|exact Hk|exact Hx|done|done| |]; simpl; [rewrite s32_small; lia|].
      intros El. split_and!; try done. rewrite El in Eh. simpl in Eh. apply Z.eqb_neq in Eh. congruence.
Qed.

(** C22: mutual exclusion: when a process runs any mutex or condition-variable system
    call, no stretch of it between context switches takes a mutex away from another
    process that holds it.  For mutex_delete the reference counts must count the
    references, and holders must have references ([refs_ok]); kill breaks this
    (kill_then_delete_steals). *)
Theorem mutex_exclusion `{Bound} i pid o s :
  me i pid s → (∀ k, o = MDelete k → refs_ok s) →
  guar (me i pid) (respects i pid) (λ _ _, True) s (mux_exec o s).
Proof.
  intros Hme Hd. destruct o; simpl.
  - eapply rg_bind; [done|by apply rg_mutex_create|]. intros. by apply rg_ret.
  - apply rg_mutex_delete; [done|]. eapply refs_ok_delete; [done|]. by eapply Hd.
  - by eapply rg_weaken, rg_mutex_lock.
  - by apply rg_mutex_unlock.
  - by apply rg_cv_wait.
  - by apply rg_cv_signal.
Qed.

(** C23: when mutex_lock returns, whatever ran while it slept, the mutex of the slot is
    locked and its owner is the caller. *)
Theorem mutex_lock_owns `{Bound} i pid k m s :
  me i pid s → my_mutex k s = Ok (Some m) s →
  guar (me i pid) (respects i pid)
    (λ _ s', ∃ x, k_mtable s' !! m = Some x ∧ m_locked x ≠ 0 ∧ m_pid x = pid) s (mutex_lock k s).
Proof. intros Hme Hm. eapply guar_mono; [|by apply rg_mutex_lock]. simpl. auto. Qed.

(** C24: mutex_lock of a mutex the caller does not hold takes it at once when it is
    free; when another process holds it, the caller goes to sleep on the mutex, with
    the mutex table unchanged and mtable.lock released. *)
Theorem mutex_lock_progress `{Bound} i pid k m x p s :
  (0 < wakeups)%nat → k_held s = [] → k_cur s = Some i → k_ptable s !! i = Some p → p_pid p = pid →
  0 ≤ k → p_mutex p !! Z.to_nat k = Some (Some m) → k_mtable s !! m = Some x →
  (m_locked x = 0 →
   mutex_lock k s = Ok tt (s <| k_mtable ::= <[m := x <| m_locked := 1 |> <| m_pid := pid |>]> |>)) ∧
  (m_locked x = 1 → m_pid x ≠ pid →
   ∃ r, mutex_lock k s =
     Switch (s <| k_ptable ::= <[i := asleep (ChMutex m) p]> |> <| k_held := [Lptable] |>) r).
Proof.
  intros Hw Hh Hi Hp Hpid Hk Hs Hx.
  assert (my_mutex k s = Ok (Some m) s) as Hm.
  { unfold my_mutex. run (myproc_run i); [|done]. run (getp_run i p); [|done].
    rewrite (proj2 (Z.ltb_ge _ _)) by done. by rewrite Hs. }
  assert (mutex_holding m s = Ok (negb (m_locked x =? 0) && (m_pid x =? pid)) s) as Hho.
  { unfold mutex_holding. run (getmux_run m x); [|done]. run (myproc_run i); [|done].
    run (getp_run i p); [|done]. by rewrite Hpid. }
  unfold mutex_lock. run Hm. run Hho. destruct wakeups as [|n]; [lia|]. split.
  - intros El. rewrite El. simpl. run acquire_run; [|rewrite Hh; set_solver].
    erewrite bind_ok; [|cbn [loop]; erewrite bind_ok; [|run (getmux_run m x); [|done]; by rewrite El]; done].
    run (myproc_run i); [|done]. run (getp_run i p); [|done]. rewrite modmux_modmux.
    run (modmux_run m x); [|done]. rewrite (release_run _ _ []); [|by simpl; rewrite Hh|set_solver].
    rewrite Hpid. f_equal. destruct s; simpl in *. by subst.
  - intros El Hne. rewrite El, (proj2 (Z.eqb_neq _ _) Hne). simpl.
    run acquire_run; [|rewrite Hh; set_solver].
    destruct (sleep_run (ChMutex m) Lmtable i p (s <| k_held ::= cons Lmtable |>)) as (r & Hr & _);
      [done|done|by simpl; rewrite Hh|done|].
    eexists. erewrite bind_switch; [f_equal|cbn [loop]; erewrite bind_switch; [done|]].
    run (getmux_run m x); [|done]. rewrite El. simpl. by apply bind_switch.
Qed.

(** ** Names

    The kernel at load time with one process running, for the runs below. *)
Definition one_running : kst :=
  bss [] <| k_ptable ::= <[O := proc0 <| p_state := RUNNING |> <| p_pid := 1 |>]> |>
         <| k_cur := Some O |>.

(** The mutexes the running process can use, by slot. *)
Definition my_mutexes (s : kst) : list (option nat) :=
  match k_ptable s !! O with Some p => p_mutex p | None => [] end.

(** Mutexes with different names can be one and the same.  mutex_delete leaves the
    name in the table, and mutex_create matches the name of an unallocated entry
    without allocating it: after "a" has been created this way, creating "z" reuses
    the entry, and the slots returned for "a" and "z" name the same mutex. *)
Theorem mutex_create_aliases :
  ∃ s', (x <- mutex_create [120];
         a <- mutex_create [97];
         mutex_delete a;; mutex_delete x;;
         a <- mutex_create [97];
         y <- mutex_create [121];
         z <- mutex_create [122];
         ret (a, z)) one_running = Ok (0, 2) s' ∧
    my_mutexes s' !! 0%nat = my_mutexes s' !! 2%nat ∧ my_mutexes s' !! 2%nat = Some (Some 1%nat).
Proof. eexists. split; [vm_compute; reflexivity|]. split; vm_compute; reflexivity. Qed.

(** Mutex_create compares only as many characters as the requested name has, so
    "a" opens the mutex "ab" (whose slot is then refused as already open) instead of
    a mutex of its own. *)
Theorem mutex_create_prefix :
  ∃ s', (ab <- mutex_create [97; 98]; a <- mutex_create [97]; ret (ab, a)) one_running =
        Ok (0, -1) s'.
Proof. eexists. vm_compute. reflexivity. Qed.
