(* ===== verification/Shm.v ===== *)
(** * Shared memory pages (shm_get and shm_rem of vm.c) *)
From S2P Require Import Prelude Mem CString Mmu Kalloc Vm KState Sched Mutex.

Definition getsh (i : nat) : K shared_mem := s <- get; deref "shm_list.list" (k_shm s !! i).
Definition modsh (i : nat) (f : shared_mem → shared_mem) : K unit :=
  g <- getsh i; modify (λ s, s <| k_shm ::= <[i := f g]> |>).

(** An update of [myproc()->shared_mem[j]]. *)
Definition mod_my_shm (j : nat) (f : shmem → shmem) : K unit :=
  i <- myproc; modp i (λ p, p <| p_shared_mem ::= alter f j |>).

Definition init_shm_list : K unit :=
  acquire Lshm;;
  modify (λ s, s <| k_shm ::= fmap (λ g,
    g <| g_refcount := 0 |> <| g_in_use := 0 |> <| g_container_id := 0 |>) |>);;
  release Lshm.

(** [strncmp(buf, name, strlen(name)) == 0] *)
Definition buf_match (buf name : list Z) : option bool :=
  (λ r, r =? 0) <$> strncmp buf (cz name) (length name).

(** [strncpy(buf, "", strlen(buf))] *)
Definition clear_name (buf : list Z) : option (list Z) :=
  n ← strlen buf; strncpy buf [0] n.

(** The loop over [p->shared_mem] in shm_get: the first unused entry, or [inl] when
    some entry has the name. *)
Fixpoint my_shm_scan (name : list Z) (l : list shmem) (j : nat) (new : option nat)
    : option (unit + option nat) :=
  match l with
  | [] => Some (inr new)
  | e :: l =>
      let new := if (sh_in_use e =? 0) && bool_decide (new = None) then Some j else new in
      match buf_match (sh_name e) name with
      | None => None
      | Some true => Some (inl tt)
      | Some false => my_shm_scan name l (S j) new
      end
  end.

(** The loop over [shm_list.list] in shm_get: [inl] the page with that name in the
    caller's container, or [inr] the first unused entry. *)
Fixpoint shm_scan (name : list Z) (cid : Z) (l : list shared_mem) (j : nat) (free : option nat)
    : option (nat + option nat) :=
  match l with
  | [] => Some (inr free)
  | g :: l =>
      let free := if bool_decide (free = None) && (g_in_use g =? 0) then Some j else free in
      match buf_match (g_name g) name with
      | None => None
      | Some b => if b && (u32 (g_container_id g) =? cid) then Some (inl j)
                  else shm_scan name cid l (S j) free
      end
  end.

(** [strncmp] of [name] with the NULL pointer over [strlen(name)]: the bytes at user address 0. *)
Fixpoint strncmp_null (pgdir va : Z) (name : list Z) : M pmem Z :=
  match name with
  | [] => ret 0
  | c :: name =>
      b <- uload pgdir va;
      if c =? b then strncmp_null pgdir (va + 1) name else ret (c - b)
  end.

Section shm.
  Context `{Linker}.

Definition shm_get (name : list Z) : K Z :=
  i <- myproc;
  p <- getp i;
  let ret_val := s32 (p_sz p) in
  r <- pm_do (strncmp_null (p_pgdir p) 0 name);
  if r =? 0 then ret (-1) else
  r <- deref "shm_get: name" (my_shm_scan name (p_shared_mem p) 0 None);
  match r with
  | inl _ => ret (-1)
  | inr new =>
  acquire Lshm;;
  l <- gets k_shm;
  r <- deref "shm_get: name" (shm_scan name (p_container_id p) l 0 None);
  release Lshm;;
  let a := PGROUNDUP (p_sz p) in
  (* [Some ptr], or [None] when the call fails *)
  o <- match r with
       | inl ptr =>
           g <- getsh ptr;
           m <- pm_do (mappages (p_pgdir p) a PGSIZE (g_pa g) (Z.lor PTE_W PTE_U));
           ret (if m <? 0 then None else Some ptr)
       | inr None => ret None
       | inr (Some ptr) =>
           modsh ptr (λ g, g <| g_in_use := 1 |>);;
           mem <- pm_do kalloc;
           if mem =? 0 then ret None else
           pm_do (set_mem (λ m, memset m mem 0 PGSIZE));;
           m <- pm_do (mappages (p_pgdir p) a PGSIZE (V2P mem) (Z.lor PTE_W PTE_U));
           if m <? 0 then panic "mem" else
           acquire Lshm;;
           g <- getsh ptr;
           nm <- deref "shm_get: name" (strncpy (g_name g) (cz name) (length name));
           modsh ptr (λ g, g <| g_name := nm |> <| g_pa := V2P mem |>);;
           release Lshm;;
           ret (Some ptr)
       end;
  match o with
  | None => ret (-1)
  | Some ptr =>
      modp i (λ p, p <| p_sz ::= λ n, u32 (n + PGSIZE) |>);;
      j <- deref "new_shmem" new;
      e <- deref "new_shmem" (p_shared_mem p !! j);
      nm <- deref "shm_get: name" (strncpy (sh_name e) (cz name) (length name));
      mod_my_shm j (λ e, e <| sh_name := nm |> <| sh_va := u32 ret_val |>
                           <| sh_global := Some ptr |> <| sh_in_use := 1 |>);;
      acquire Lshm;;
      modsh ptr (λ g, g <| g_refcount ::= λ n, u32 (n + 1) |>
                        <| g_container_id := s32 (p_container_id p) |>);;
      release Lshm;;
      ret ret_val
  end
  end.

(** The first entry of [cur_proc->shared_mem] with the name. *)
Fixpoint my_shm_find (name : list Z) (l : list shmem) (j : nat) : option (option nat) :=
  match l with
  | [] => Some None
  | e :: l =>
      match buf_match (sh_name e) name with
      | None => None
      | Some true => Some (Some j)
      | Some false => my_shm_find name l (S j)
      end
  end.

(** The loop over [shm_list.list] in shm_rem. *)
Fixpoint shm_find (name : list Z) (cid : Z) (l : list shared_mem) (j : nat) : option (option nat) :=
  match l with
  | [] => Some None
  | g :: l =>
      match buf_match (g_name g) name with
      | None => None
      | Some b => if b && (u32 (g_container_id g) =? cid) then Some (Some j)
                  else shm_find name cid l (S j)
      end
  end.

(** The end of both branches of shm_rem: unmap the page, clear the entry. *)
Definition shm_unmap (i j : nat) (pte : Z) : K unit :=
  w <- pm_do (load32 pte);
  when (has w PTE_P) (pm_do (store32 pte 0));;
  p <- getp i;
  e <- deref "shared_mem" (p_shared_mem p !! j);
  nm <- deref "shm_rem: name" (clear_name (sh_name e));
  mod_my_shm j (λ e, e <| sh_name := nm |> <| sh_va := UINT_MAX |>).

Definition shm_rem (name : list Z) : K Z :=
  i <- myproc;
  p <- getp i;
  acquire Lshm;;
  l <- gets k_shm;
  r <- deref "shm_rem: name" (shm_find name (p_container_id p) l 0);
  release Lshm;;
  match r with
  | None => ret (-1)
  | Some ptr =>
      r <- deref "shm_rem: name" (my_shm_find name (p_shared_mem p) 0);
      match r with
      | None => ret (-1)
      | Some j =>
          mod_my_shm j (λ e, e <| sh_in_use := 0 |>);;
          e <- deref "shared_mem" (p_shared_mem p !! j);
          pte <- pm_do (walkpgdir (p_pgdir p) (sh_va e) false);
          g <- getsh ptr;
          if pte =? 0 then undef "shm_rem: NULL pte" else
          if g_refcount g =? 1 then
            w <- pm_do (load32 pte);
            pm_do (kfree (P2V (PTE_ADDR w)));;
            modsh ptr (λ g, g <| g_pa := UINT_MAX |> <| g_in_use := 0 |>
                              <| g_refcount ::= λ n, u32 (n - 1) |>);;
            shm_unmap i j pte;;
            modp i (λ p, p <| p_sz ::= λ n, u32 (n - PGSIZE) |>);;
            g <- getsh ptr;
            nm <- deref "shm_rem: name" (clear_name (g_name g));
            modsh ptr (λ g, g <| g_name := nm |>);;
            ret 0
          else
            shm_unmap i j pte;;
            modsh ptr (λ g, g <| g_refcount ::= λ n, u32 (n - 1) |>);;
            modp i (λ p, p <| p_sz ::= λ n, u32 (n - PGSIZE) |>);;
            ret 0
      end
  end.

End shm.
