(* ===== verification/Bytes.v ===== *)
(** * Structs in disk blocks: little-endian integers in byte lists *)
From S2P Require Import Prelude.

(** The [n] bytes at offset [off]. *)
Definition slice (off n : nat) (d : list Z) : list Z := take n (drop off d).

Fixpoint le_dec (bs : list Z) : Z :=
  match bs with [] => 0 | b :: bs => b + 256 * le_dec bs end.

Fixpoint le_enc (n : nat) (v : Z) : list Z :=
  match n with O => [] | S n => v `mod` 256 :: le_enc n (v `div` 256) end.

Definition rd (n off : nat) (d : list Z) : Z := le_dec (slice off n d).
Definition wr (n off : nat) (v : Z) (d : list Z) : list Z := list_inserts off (le_enc n v) d.

Abbreviation rd32 := (rd 4).
Abbreviation rd16 := (rd 2).
Abbreviation wr32 := (wr 4).
Abbreviation wr16 := (wr 2).

Lemma length_le_enc n v : length (le_enc n v) = n.
Proof. revert v. induction n as [|n IH]; intros v; simpl; [done|by rewrite IH]. Qed.

Lemma le_dec_enc n v : le_dec (le_enc n v) = v `mod` 256 ^ Z.of_nat n.
Proof.
  revert v. induction n as [|n IH]; intros v.
  - simpl. by rewrite Z.mod_1_r.
  - cbn [le_enc le_dec]. rewrite IH, Nat2Z.inj_succ, Z.pow_succ_r by lia.
    rewrite (Z.rem_mul_r v 256) by lia. lia.
Qed.

Lemma length_wr n off v d : length (wr n off v d) = length d.
Proof. apply length_inserts. Qed.

Lemma lookup_slice off n d i :
  (i < n)%nat → slice off n d !! i = d !! (off + i)%nat.
Proof. intros. unfold slice. by rewrite lookup_take_lt, lookup_drop by done. Qed.

Lemma slice_ext off n d d' :
  (∀ i, (off ≤ i < off + n)%nat → d !! i = d' !! i) → slice off n d = slice off n d'.
Proof.
  intros Hd. apply list_eq. intros i. destruct (decide (i < n)%nat).
  - rewrite !lookup_slice by done. apply Hd. lia.
  - unfold slice. by rewrite !lookup_take_ge by lia.
Qed.

Lemma slice_inserts off d bs :
  (off + length bs ≤ length d)%nat → slice off (length bs) (list_inserts off bs d) = bs.
Proof.
  intros Hl. apply list_eq. intros i. destruct (decide (i < length bs)%nat).
  - rewrite lookup_slice by done. rewrite list_lookup_inserts by lia. f_equal. lia.
  - rewrite (lookup_ge_None_2 bs) by lia. unfold slice. by rewrite lookup_take_ge by lia.
Qed.

Lemma slice_inserts_ne off n off' d bs :
  (off + n ≤ off' ∨ off' + length bs ≤ off)%nat →
  slice off n (list_inserts off' bs d) = slice off n d.
Proof.
  intros Hl. apply slice_ext. intros i Hi.
  destruct (decide (i < off')%nat).
  - by rewrite list_lookup_inserts_lt by done.
  - by rewrite list_lookup_inserts_ge by lia.
Qed.

Lemma rd_wr_eq n off v d :
  (off + n ≤ length d)%nat → rd n off (wr n off v d) = v `mod` 256 ^ Z.of_nat n.
Proof.
  intros Hl. unfold rd, wr. rewrite <-(length_le_enc n v) at 1.
  rewrite slice_inserts by (rewrite length_le_enc; lia). apply le_dec_enc.
Qed.

Lemma rd_wr_ne n m off off' v d :
  (off + n ≤ off' ∨ off' + m ≤ off)%nat → rd n off (wr m off' v d) = rd n off d.
Proof.
  intros Hl. unfold rd, wr. rewrite slice_inserts_ne; [done|].
  rewrite length_le_enc. lia.
Qed.
