(* ===== verification/Bio.v ===== *)
(** * The buffer cache (bio.c) over the memory disk (memide.c)

    [k_bufs] holds the NBUF buffers and, at index NBUF, the list head; [b_prev] and
    [b_next] are the links of the LRU ring. *)
From S2P Require Import Prelude Mem Mmu Kalloc KState Sched.

Definition B_VALID : Z := 2.
Definition B_DIRTY : Z := 4.
Definition bhead : nat := NBUF.

Definition getb (i : nat) : K buf := s <- get; deref "bcache.buf" (k_bufs s !! i).
Definition modb (i : nat) (f : buf → buf) : K unit :=
  b <- getb i; modify (λ s, s <| k_bufs ::= <[i := f b]> |>).

Definition blk (i : nat) : K sleeplock := b <- getb i; ret (b_lock b).
Definition mod_blk (i : nat) (f : sleeplock → sleeplock) : K unit :=
  modb i (λ b, b <| b_lock ::= f |>).

Section bio.
  Context `{Bound}.

(** [initsleeplock] of a buffer or an inode. *)
Definition initsleeplock : sleeplock := Slock false 0.

(** The loop body of binit. *)
Definition binit_one (i : nat) : K unit :=
  h <- getb bhead;
  modb i (λ b, b <| b_next := b_next h |> <| b_prev := bhead |> <| b_lock := initsleeplock |>);;
  h <- getb bhead;
  modb (b_next h) (λ b, b <| b_prev := i |>);;
  modb bhead (λ b, b <| b_next := i |>).

Definition binit : K unit :=
  modb bhead (λ b, b <| b_prev := bhead |> <| b_next := bhead |>);;
  forM (seq 0 NBUF) binit_one.

(** Walking the ring from buffer [i], by [next] or by [prev], to the first buffer
    that satisfies [P]; [None] at the head. *)
Fixpoint bscan (n : nat) (step : buf → nat) (P : buf → bool) (i : nat) : K (option nat) :=
  match n with
  | O => λ _, Fuel
  | S n =>
      if decide (i = bhead) then ret None else
      b <- getb i;
      if P b then ret (Some i) else bscan n step P (step b)
  end.

Definition bget (dev blockno : Z) : K nat :=
  acquire Lbcache;;
  h <- getb bhead;
  r <- bscan (S NBUF) b_next (λ b, (b_dev b =? dev) && (b_blockno b =? blockno)) (b_next h);
  match r with
  | Some i =>
      modb i (λ b, b <| b_refcnt ::= λ n, u32 (n + 1) |>);;
      release Lbcache;;
      acquiresleep (ChBuf i) (blk i) (mod_blk i);;
      ret i
  | None =>
      r <- bscan (S NBUF) b_prev
             (λ b, (b_refcnt b =? 0) && (Z.land (b_flags b) B_DIRTY =? 0)) (b_prev h);
      match r with
      | Some i =>
          modb i (λ b, b <| b_dev := dev |> <| b_blockno := blockno |>
                         <| b_flags := 0 |> <| b_refcnt := 1 |>);;
          release Lbcache;;
          acquiresleep (ChBuf i) (blk i) (mod_blk i);;
          ret i
      | None => panic "bget: no buffers"
      end
  end.

(** memide.c *)
Definition iderw (i : nat) : K unit :=
  h <- holdingsleep (ChBuf i) (blk i);
  if negb h then panic "iderw: buf not locked" else
  b <- getb i;
  if Z.land (b_flags b) (Z.lor B_VALID B_DIRTY) =? B_VALID then panic "iderw: nothing to do" else
  if negb (b_dev b =? 1) then panic "iderw: request not for disk 1" else
  disk <- gets k_disk;
  if Z.of_nat (length disk) <=? b_blockno b then panic "iderw: block out of range" else
  let n := Z.to_nat (b_blockno b) in
  (if negb (Z.land (b_flags b) B_DIRTY =? 0) then
     modb i (λ b, b <| b_flags ::= λ f, Z.ldiff f B_DIRTY |>);;
     modify (λ s, s <| k_disk ::= <[n := b_data b]> |> <| k_dlog ::= cons (n, b_data b) |>)
   else
     d <- deref "memdisk" (disk !! n);
     modb i (λ b, b <| b_data := d |>));;
  modb i (λ b, b <| b_flags ::= λ f, Z.lor f B_VALID |>).

Definition bread (dev blockno : Z) : K nat :=
  i <- bget dev blockno;
  b <- getb i;
  when (Z.land (b_flags b) B_VALID =? 0) (iderw i);;
  ret i.

Definition bwrite (i : nat) : K unit :=
  h <- holdingsleep (ChBuf i) (blk i);
  if negb h then panic "bwrite" else
  modb i (λ b, b <| b_flags ::= λ f, Z.lor f B_DIRTY |>);;
  iderw i.

(** Taking a buffer out of the ring and putting it after the head. *)
Definition bmove_front (i : nat) : K unit :=
  b <- getb i;
  modb (b_next b) (λ c, c <| b_prev := b_prev b |>);;
  b <- getb i;
  modb (b_prev b) (λ c, c <| b_next := b_next b |>);;
  h <- getb bhead;
  modb i (λ c, c <| b_next := b_next h |>);;
  modb i (λ c, c <| b_prev := bhead |>);;
  h <- getb bhead;
  modb (b_next h) (λ c, c <| b_prev := i |>);;
  modb bhead (λ c, c <| b_next := i |>).

Definition brelse (i : nat) : K unit :=
  h <- holdingsleep (ChBuf i) (blk i);
  if negb h then panic "brelse" else
  releasesleep (ChBuf i) (mod_blk i);;
  acquire Lbcache;;
  modb i (λ b, b <| b_refcnt ::= λ n, u32 (n - 1) |>);;
  b <- getb i;
  when (b_refcnt b =? 0) (bmove_front i);;
  release Lbcache.

End bio.
