(* ===== verification/Ring.v ===== *)
(** * The LRU ring of the buffer cache (bio.c)

    [ring bufs l]: the links of the buffers form one ring that leaves the head, visits
    the buffers [l] in order along [b_next], comes back to the head, and visits them
    in reverse along [b_prev].  binit builds such a ring, the walks of bget visit it
    completely, and brelse keeps it. *)
From S2P Require Import Prelude KState Sched Bio.

Lemma getb_run i b s : k_bufs s !! i = Some b → getb i s = Ok b s.
Proof. intros Hb. unfold getb. step. by rewrite Hb. Qed.

Lemma modb_run i b f s :
  k_bufs s !! i = Some b → modb i f s = Ok tt (s <| k_bufs ::= <[i := f b]> |>).
Proof. intros Hb. unfold modb. by run (getb_run i b); [|done]. Qed.

Lemma modb_alter i f s :
  (i < length (k_bufs s))%nat → modb i f s = Ok tt (s <| k_bufs ::= alter f i |>).
Proof.
  intros [b Hb]%lookup_lt_is_Some_2. rewrite (modb_run i b) by done. f_equal. apply kst_ext; try done.
  simpl. by rewrite (alter_insert _ _ _ b).
Qed.

(** ** Links *)

Definition nx (bufs : list buf) (x : nat) : option nat := b_next <$> bufs !! x.
Definition pv (bufs : list buf) (x : nat) : option nat := b_prev <$> bufs !! x.

(** Consecutive buffers of [p] point to each other. *)
Fixpoint linked (bufs : list buf) (p : list nat) : Prop :=
  match p with
  | x :: (y :: _) as t => nx bufs x = Some y ∧ pv bufs y = Some x ∧ linked bufs t
  | _ => True
  end.

Definition ring (bufs : list buf) (l : list nat) : Prop := linked bufs (bhead :: l ++ [bhead]).

Lemma linked_cons bufs x y p :
  linked bufs (x :: y :: p) ↔ nx bufs x = Some y ∧ pv bufs y = Some x ∧ linked bufs (y :: p).
Proof. done. Qed.

Lemma linked_app bufs p x q : linked bufs (p ++ x :: q) ↔ linked bufs (p ++ [x]) ∧ linked bufs (x :: q).
Proof.
  induction p as [|a p IH]; simpl app.
  - simpl. destruct q; tauto.
  - destruct p as [|b p]; simpl app in *.
    + rewrite !linked_cons. simpl. tauto.
    + rewrite !(linked_cons _ a), IH. tauto.
Qed.

(** The links a path depends on: [b_next] of all but the last, [b_prev] of all but the
    first. *)
Lemma linked_ext bufs bufs' p x :
  (∀ y, y ∈ p → nx bufs' y = nx bufs y) → (∀ y, y ∈ tail (p ++ [x]) → pv bufs' y = pv bufs y) →
  linked bufs (p ++ [x]) → linked bufs' (p ++ [x]).
Proof.
  induction p as [|a p IH]; intros Hn Hp Hl; [done|].
  destruct p as [|b p]; simpl app in *; rewrite linked_cons in *; destruct Hl as (H1 & H2 & H3).
  - split_and!; [rewrite Hn by set_solver; done|rewrite Hp by set_solver; done|done].
  - split_and!; [rewrite Hn by set_solver; done|rewrite Hp by set_solver; done|].
    apply IH; [set_solver|set_solver|done].
Qed.

Definition set_next (x y : nat) (bufs : list buf) : list buf := alter (λ b, b <| b_next := y |>) x bufs.
Definition set_prev (x y : nat) (bufs : list buf) : list buf := alter (λ b, b <| b_prev := y |>) x bufs.

Section links.
  Context (bufs : list buf) (x y : nat) (Hx : (x < length bufs)%nat).

Lemma nx_set_next z : nx (set_next x y bufs) z = if decide (z = x) then Some y else nx bufs z.
Proof using Hx.
  unfold nx, set_next. destruct (lookup_lt_is_Some_2 _ _ Hx) as [b Hb]. case_decide; subst.
  - by rewrite list_lookup_alter_eq, Hb.
  - by rewrite list_lookup_alter_ne.
Qed.
Lemma pv_set_prev z : pv (set_prev x y bufs) z = if decide (z = x) then Some y else pv bufs z.
Proof using Hx.
  unfold pv, set_prev. destruct (lookup_lt_is_Some_2 _ _ Hx) as [b Hb]. case_decide; subst.
  - by rewrite list_lookup_alter_eq, Hb.
  - by rewrite list_lookup_alter_ne.
Qed.
Lemma pv_set_next z : pv (set_next x y bufs) z = pv bufs z.
Proof using.
  unfold pv, set_next. rewrite list_lookup_alter. destruct (decide (x = z)) as [<-|]; [|done].
  by destruct (bufs !! x).
Qed.
Lemma nx_set_prev z : nx (set_prev x y bufs) z = nx bufs z.
Proof using.
  unfold nx, set_prev. rewrite list_lookup_alter. destruct (decide (x = z)) as [<-|]; [|done].
  by destruct (bufs !! x).
Qed.
Lemma length_set_next : length (set_next x y bufs) = length bufs.
Proof using. apply length_alter. Qed.
Lemma length_set_prev : length (set_prev x y bufs) = length bufs.
Proof using. apply length_alter. Qed.
End links.

(** ** Taking a buffer out and putting one in *)

(** [b->next->prev = b->prev; b->prev->next = b->next] *)
Definition unlink (a c : nat) (bufs : list buf) : list buf := set_next a c (set_prev c a bufs).

(** [b->next = head.next; b->prev = head; head.next->prev = b; head.next = b] *)
Definition link_front (i h : nat) (bufs : list buf) : list buf :=
  set_next bhead i (set_prev h i (set_prev i bhead (set_next i h bufs))).

Lemma ring_unlink bufs l1 i l2 :
  ring bufs (l1 ++ i :: l2) → NoDup (bhead :: l1 ++ i :: l2) →
  Forall (λ x, x < length bufs)%nat (bhead :: l1 ++ i :: l2) →
  ∃ a c, pv bufs i = Some a ∧ nx bufs i = Some c ∧ a ≠ i ∧ c ≠ i ∧
    (a < length bufs)%nat ∧ (c < length bufs)%nat ∧ ring (unlink a c bufs) (l1 ++ l2).
Proof.
  intros Hr Hnd Hlt. unfold ring in *.
  destruct (exists_last (l := bhead :: l1)) as (p & a & Hp); [done|].
  assert (∃ c q, l2 ++ [bhead] = c :: q) as (c & q & Hq) by (destruct l2; simpl; eauto).
  assert (bhead :: (l1 ++ i :: l2) ++ [bhead] = p ++ a :: i :: c :: q) as E.
  { rewrite <-app_assoc, app_comm_cons, Hp, <-app_assoc. simpl. by rewrite Hq. }
  rewrite E in Hr. apply linked_app in Hr as [Hpa Hr]. rewrite !linked_cons in Hr.
  destruct Hr as (Hai & Hia & Hic & Hci & Hcq).
  assert (NoDup ((p ++ [a]) ++ i :: l2)) as Hnd' by (by rewrite <-Hp).
  rewrite list.NoDup_app, list.NoDup_cons, list.NoDup_app in Hnd'. destruct Hnd' as ((Hndp & Hpa' & _) & Hdis & Hil & Hndl).
  assert (a ∈ bhead :: l1) as Hal by (rewrite Hp; set_solver).
  assert (c ∈ bhead :: l2) as Hcl by (assert (c ∈ l2 ++ [bhead]) by (rewrite Hq; left); set_solver).
  rewrite <-Hp in Hdis.
  rewrite list.Forall_forall in Hlt.
  assert (a < length bufs)%nat by (apply Hlt; set_solver).
  assert (c < length bufs)%nat by (apply Hlt; set_solver).
  exists a, c. split_and!; [done|done|..|done|done|].
  - intros ->. apply (Hdis i); [done|by left].
  - intros ->. apply elem_of_cons in Hcl as [E'|?]; [|done]. apply (Hdis i); [rewrite E'; by left|by left].
  - assert (bhead :: (l1 ++ l2) ++ [bhead] = p ++ a :: c :: q) as ->.
    { rewrite <-app_assoc, app_comm_cons, Hp, <-app_assoc. simpl. by rewrite Hq. }
    assert (NoDup (l2 ++ [bhead])) as Hndb.
    { apply list.NoDup_app. split_and!; [done| |apply NoDup_singleton].
      intros x Hx ->%list_elem_of_singleton. apply (Hdis bhead); [by left|by right]. }
    assert (c ∉ l1) as Hcl1.
    { intros Hin. apply elem_of_cons in Hcl as [->|?]; [by apply list.NoDup_cons in Hnd as [[]%not_elem_of_app]|].
      apply (Hdis c); by right. }
    assert (tail (p ++ [a]) = l1) as Htl by (by rewrite <-Hp).
    apply linked_app. unfold unlink. split; [|rewrite linked_cons; split_and!].
    + eapply linked_ext; [| |exact Hpa]; intros y Hy.
      * rewrite nx_set_next, decide_False, nx_set_prev by (rewrite ?length_set_prev; set_solver). done.
      * rewrite Htl in Hy. rewrite pv_set_next, pv_set_prev, decide_False by set_solver. done.
    + by rewrite nx_set_next, decide_True by (by rewrite ?length_set_prev).
    + by rewrite pv_set_next, pv_set_prev, decide_True.
    + rewrite <-Hq in Hcq |- *. rewrite Hq in Hndb. apply list.NoDup_cons in Hndb as [Hcq' _].
      eapply linked_ext; [| |exact Hcq]; intros y Hy.
      * rewrite nx_set_next, decide_False, nx_set_prev; [done| |by rewrite length_set_prev].
        intros ->. apply (Hdis a); [done|by right].
      * rewrite Hq in Hy. simpl in Hy. rewrite pv_set_next, pv_set_prev, decide_False by (done || congruence). done.
Qed.

Ltac side := repeat first [rewrite length_set_prev | rewrite length_set_next]; first [done | congruence].

Lemma ring_link bufs l i :
  ring bufs l → NoDup (bhead :: l) → i ∉ bhead :: l →
  Forall (λ x, x < length bufs)%nat (i :: bhead :: l) →
  ∃ h, nx bufs bhead = Some h ∧ (h < length bufs)%nat ∧ ring (link_front i h bufs) (i :: l).
Proof.
  intros Hr Hnd Hi Hlt. unfold ring in *. rewrite list.Forall_forall in Hlt.
  assert (∃ h q, l ++ [bhead] = h :: q) as (h & q & Hq) by (destruct l; simpl; eauto).
  assert (h ∈ bhead :: l) as Hh by (assert (h ∈ l ++ [bhead]) by (rewrite Hq; left); set_solver).
  assert (∀ x, x ∈ i :: bhead :: l → x < length bufs)%nat as Hb by done.
  assert (h < length bufs)%nat by (apply Hb; set_solver).
  assert (i < length bufs ∧ bhead < length bufs)%nat as [Hil Hbl] by (split; apply Hb; set_solver).
  apply not_elem_of_cons in Hi as [Hib Hi]. apply list.NoDup_cons in Hnd as [Hbl' Hnd].
  rewrite Hq in Hr. rewrite linked_cons in Hr. destruct Hr as (Hn & Hp & Hl).
  exists h. split_and!; [done|done|]. simpl app. rewrite Hq, !linked_cons. unfold link_front.
  assert (h ≠ i) by (intros ->; set_solver).
  split_and!.
  - by rewrite nx_set_next, decide_True by side.
  - rewrite pv_set_next, pv_set_prev, decide_False by side.
    by rewrite pv_set_prev, decide_True by side.
  - rewrite nx_set_next, decide_False by side.
    by rewrite !nx_set_prev, nx_set_next, decide_True by side.
  - by rewrite pv_set_next, pv_set_prev, decide_True by side.
  - assert (h ∉ q) as Hhq.
    { assert (NoDup (l ++ [bhead])) as Hn'.
      { apply list.NoDup_app. split_and!; [done| |apply NoDup_singleton]. by intros x Hx ->%list_elem_of_singleton. }
      rewrite Hq in Hn'. by apply list.NoDup_cons in Hn' as [? _]. }
    assert (i ∉ q) as Hiq by (intros ?; assert (i ∈ l ++ [bhead]) by (rewrite Hq; by right); set_solver).
    rewrite <-Hq in Hl |- *. eapply linked_ext; [| |exact Hl]; intros y Hy.
    + rewrite nx_set_next, decide_False by side.
      by rewrite !nx_set_prev, nx_set_next, decide_False by side.
    + rewrite Hq in Hy. simpl in Hy. rewrite pv_set_next, pv_set_prev, decide_False
        by side.
      by rewrite pv_set_prev, decide_False, pv_set_next by side.
Qed.

(** ** What relinking leaves alone *)

(** A buffer without its links. *)
Definition content (b : buf) : buf := b <| b_next := O |> <| b_prev := O |>.

Lemma content_lock b c lk :
  content b = content c → content (b <| b_lock := lk |>) = content (c <| b_lock := lk |>).
Proof. destruct b, c. unfold content, upd, upd_b_next, upd_b_prev, upd_b_lock. simpl. congruence. Qed.

Lemma content_alter f x (bufs : list buf) :
  (∀ b, content (f b) = content b) → content <$> alter f x bufs = content <$> bufs.
Proof.
  intros Hf. apply list_eq. intros j. rewrite !list_lookup_fmap, list_lookup_alter.
  destruct (decide (x = j)) as [<-|]; [|done]. destruct (bufs !! x); simpl; [by rewrite Hf|done].
Qed.

Lemma content_set_next x y bufs : content <$> set_next x y bufs = content <$> bufs.
Proof. by apply content_alter. Qed.
Lemma content_set_prev x y bufs : content <$> set_prev x y bufs = content <$> bufs.
Proof. by apply content_alter. Qed.

(** ** brelse's relinking *)

Lemma set_next_run x y s : (x < length (k_bufs s))%nat →
  modb x (λ c, c <| b_next := y |>) s = Ok tt (s <| k_bufs ::= set_next x y |>).
Proof. apply modb_alter. Qed.
Lemma set_prev_run x y s : (x < length (k_bufs s))%nat →
  modb x (λ c, c <| b_prev := y |>) s = Ok tt (s <| k_bufs ::= set_prev x y |>).
Proof. apply modb_alter. Qed.

Lemma nx_getb x y s : nx (k_bufs s) x = Some y → ∃ b, getb x s = Ok b s ∧ b_next b = y.
Proof. unfold nx. intros (b & Hb & ->)%fmap_Some. exists b. by rewrite (getb_run x b). Qed.
Lemma pv_getb x y s : pv (k_bufs s) x = Some y → ∃ b, getb x s = Ok b s ∧ b_prev b = y.
Proof. unfold pv. intros (b & Hb & ->)%fmap_Some. exists b. by rewrite (getb_run x b). Qed.

Lemma unlink_run i a c s (k : K unit) :
  pv (k_bufs s) i = Some a → nx (k_bufs s) i = Some c → c ≠ i →
  (a < length (k_bufs s))%nat → (c < length (k_bufs s))%nat →
  (b <- getb i;
   modb (b_next b) (λ c, c <| b_prev := b_prev b |>);;
   b <- getb i;
   modb (b_prev b) (λ c, c <| b_next := b_next b |>);; k) s = k (s <| k_bufs ::= unlink a c |>).
Proof.
  intros Ha Hc Hci Hal Hcl. destruct (pv_getb i a s Ha) as (b & Hb & Ebp).
  destruct (nx_getb i c s Hc) as (b' & Hb' & Ebn). rewrite Hb in Hb'. injection Hb' as <-.
  rewrite (bind_ok _ _ _ _ _ Hb), Ebn, Ebp. run set_prev_run; [|done].
  set (t := s <| k_bufs ::= set_prev c a |>).
  destruct (pv_getb i a t) as (b2 & Hb2 & Ebp2); [simpl; rewrite pv_set_prev, decide_False by side; done|].
  destruct (nx_getb i c t) as (b3 & Hb3 & Ebn3); [simpl; by rewrite nx_set_prev|].
  rewrite Hb2 in Hb3. injection Hb3 as <-.
  rewrite (bind_ok _ _ _ _ _ Hb2), Ebn3, Ebp2. by run set_next_run; [|simpl; side].
Qed.

Lemma link_front_run i h s :
  nx (k_bufs s) bhead = Some h → i ≠ bhead → (i < length (k_bufs s))%nat → (h < length (k_bufs s))%nat →
  (bhead < length (k_bufs s))%nat →
  (b <- getb bhead;
   modb i (λ c, c <| b_next := b_next b |>);;
   modb i (λ c, c <| b_prev := bhead |>);;
   b <- getb bhead;
   modb (b_next b) (λ c, c <| b_prev := i |>);;
   modb bhead (λ c, c <| b_next := i |>)) s = Ok tt (s <| k_bufs ::= link_front i h |>).
Proof.
  intros Hh Hi Hil Hhl Hbl. destruct (nx_getb bhead h s Hh) as (b & Hb & Eb).
  rewrite (bind_ok _ _ _ _ _ Hb), Eb. run set_next_run; [|done]. run set_prev_run; [|simpl; side].
  set (t := s <| k_bufs ::= set_next i h |> <| k_bufs ::= set_prev i bhead |>).
  destruct (nx_getb bhead h t) as (b2 & Hb2 & Eb2).
  { simpl. by rewrite nx_set_prev, nx_set_next, decide_False by side. }
  rewrite (bind_ok _ _ _ _ _ Hb2), Eb2. run set_prev_run; [|simpl; side]. by rewrite set_next_run by (simpl; side).
Qed.

Lemma bmove_front_run i l1 l2 s :
  ring (k_bufs s) (l1 ++ i :: l2) → NoDup (bhead :: l1 ++ i :: l2) →
  Forall (λ x, x < length (k_bufs s))%nat (bhead :: l1 ++ i :: l2) →
  ∃ bufs', bmove_front i s = Ok tt (s <| k_bufs := bufs' |>) ∧ ring bufs' (i :: l1 ++ l2) ∧
    content <$> bufs' = content <$> k_bufs s.
Proof.
  intros Hr Hnd Hlt. destruct (ring_unlink _ _ _ _ Hr Hnd Hlt) as (a & c & Ha & Hc & Hai & Hci & Hal & Hcl & Hr').
  assert (bhead :: l1 ++ i :: l2 ≡ₚ i :: bhead :: l1 ++ l2) as HP
    by (rewrite <-Permutation_middle; apply Permutation_swap).
  rewrite HP in Hnd, Hlt. apply list.NoDup_cons in Hnd as [Hni Hnd].
  destruct (ring_link (unlink a c (k_bufs s)) (l1 ++ l2) i) as (h & Hh & Hhl & Hr2); [done|done|done| |].
  { unfold unlink. by rewrite length_set_next, length_set_prev. }
  unfold unlink in Hhl. rewrite length_set_next, length_set_prev in Hhl.
  apply list.Forall_cons in Hlt as [Hil Hlt]. apply list.Forall_cons in Hlt as [Hbl _].
  exists (link_front i h (unlink a c (k_bufs s))). split_and!; [|done|].
  - unfold bmove_front. rewrite (unlink_run i a c) by done.
    rewrite (link_front_run i h); [by destruct s|done|set_solver|..]; unfold unlink; simpl; side.
  - unfold link_front, unlink.
    by rewrite content_set_next, !content_set_prev, !content_set_next, content_set_prev.
Qed.

(** ** The walks of bget *)

(** Going from buffer [x] by [step] visits [l] and ends at the head. *)
Fixpoint walk (step : buf → nat) (bufs : list buf) (x : nat) (l : list nat) : Prop :=
  match l with
  | [] => x = bhead
  | y :: l => x = y ∧ y ≠ bhead ∧ ∃ b, bufs !! y = Some b ∧ walk step bufs (step b) l
  end.

(** The first buffer of [l] that satisfies [P]. *)
Fixpoint first_buf (P : buf → bool) (bufs : list buf) (l : list nat) : option nat :=
  match l with
  | [] => None
  | x :: l => if default false (P <$> bufs !! x) then Some x else first_buf P bufs l
  end.

Lemma first_buf_Some P bufs l i :
  first_buf P bufs l = Some i → i ∈ l ∧ ∃ b, bufs !! i = Some b ∧ P b = true.
Proof.
  induction l as [|x l IH]; simpl; [done|]. destruct (bufs !! x) as [b|] eqn:Hb; simpl.
  - destruct (P b) eqn:HP; [intros [= <-]; split; [left|eauto]|]. intros [??]%IH. split; [by right|done].
  - intros [??]%IH. split; [by right|done].
Qed.

Lemma first_buf_None P bufs l i b :
  first_buf P bufs l = None → i ∈ l → bufs !! i = Some b → P b = false.
Proof.
  induction l as [|x l IH]; simpl; [set_solver|]. intros Hf Hi Hb. apply elem_of_cons in Hi as [<-|Hi].
  - rewrite Hb in Hf. simpl in Hf. by destruct (P b).
  - destruct (default false _); [done|]. by apply IH.
Qed.

Lemma bscan_walk step P n x l s :
  walk step (k_bufs s) x l → (length l < n)%nat →
  bscan n step P x s = Ok (first_buf P (k_bufs s) l) s.
Proof.
  revert n x. induction l as [|y l IH]; intros [|n] x Hw Hn; simpl in Hw, Hn; try lia.
  - subst x. done.
  - destruct Hw as (-> & Hy & b & Hb & Hw). cbn [bscan]. rewrite decide_False by done.
    run (getb_run y b); [|done]. simpl. rewrite Hb. simpl. destruct (P b); [done|]. apply IH; [done|lia].
Qed.

Lemma linked_walk_next bufs x l :
  linked bufs (x :: l ++ [bhead]) → bhead ∉ l → ∃ y, nx bufs x = Some y ∧ walk b_next bufs y l.
Proof.
  revert x. induction l as [|z l IH]; intros x Hl Hb; simpl app in Hl; rewrite linked_cons in Hl;
    destruct Hl as (Hn & Hp & Hl).
  - by exists bhead.
  - exists z. split; [done|]. destruct (IH z) as (y & Hy & Hw); [done|set_solver|].
    unfold nx in Hy. apply fmap_Some in Hy as (b & Hb' & ->). simpl. split_and!; [done|set_solver|eauto].
Qed.

Lemma linked_walk_prev bufs x l :
  linked bufs (bhead :: l ++ [x]) → bhead ∉ l → ∃ y, pv bufs x = Some y ∧ walk b_prev bufs y (rev l).
Proof.
  revert x. induction l as [|z l IH] using rev_ind; intros x Hl Hb.
  - destruct Hl as (_ & Hp & _). by exists bhead.
  - rewrite <-app_assoc in Hl. change (bhead :: l ++ [z] ++ [x]) with ((bhead :: l) ++ z :: [x]) in Hl.
    apply linked_app in Hl as [Hl (_ & Hp & _)]. exists z. split; [done|].
    destruct (IH z) as (y & Hy & Hw); [done|set_solver|].
    unfold pv in Hy. apply fmap_Some in Hy as (b & Hb' & ->). rewrite rev_unit. simpl. split_and!; [done|set_solver|eauto].
Qed.

(** Both walks of bget go round the whole ring. *)
Lemma ring_scan bufs l : ring bufs l → bhead ∉ l →
  ∃ h, bufs !! bhead = Some h ∧ walk b_next bufs (b_next h) l ∧ walk b_prev bufs (b_prev h) (rev l).
Proof.
  intros Hr Hb. destruct (linked_walk_next bufs bhead l Hr Hb) as (y & Hy & Hw).
  destruct (linked_walk_prev bufs bhead l Hr Hb) as (z & Hz & Hw'). unfold nx, pv in Hy, Hz.
  destruct (bufs !! bhead) as [h|]; [|done]. simpl in *. exists h. naive_solver.
Qed.

(** ** binit *)

Definition set_lock (x : nat) (bufs : list buf) : list buf := alter (λ b, b <| b_lock := initsleeplock |>) x bufs.

Lemma nx_set_lock x bufs z : nx (set_lock x bufs) z = nx bufs z.
Proof.
  unfold nx, set_lock. rewrite list_lookup_alter. destruct (decide (x = z)) as [<-|]; [|done].
  by destruct (bufs !! x).
Qed.
Lemma pv_set_lock x bufs z : pv (set_lock x bufs) z = pv bufs z.
Proof.
  unfold pv, set_lock. rewrite list_lookup_alter. destruct (decide (x = z)) as [<-|]; [|done].
  by destruct (bufs !! x).
Qed.
Lemma ring_set_lock x bufs l : ring bufs l → ring (set_lock x bufs) l.
Proof.
  unfold ring. rewrite app_comm_cons. apply linked_ext; intros; [apply nx_set_lock|apply pv_set_lock].
Qed.

Lemma binit_one_run i h s :
  nx (k_bufs s) bhead = Some h → i ≠ bhead → (i < length (k_bufs s))%nat → (h < length (k_bufs s))%nat →
  (bhead < length (k_bufs s))%nat →
  binit_one i s = Ok tt (s <| k_bufs ::= λ bufs, link_front i h (set_lock i bufs) |>).
Proof.
  intros Hh Hi Hil Hhl Hbl. unfold binit_one. destruct (nx_getb bhead h s Hh) as (b & Hb & Eb).
  rewrite (bind_ok _ _ _ _ _ Hb), Eb. run modb_alter; [|done].
  set (t := s <| k_bufs ::= alter _ i |>).
  assert (t = s <| k_bufs ::= λ bufs, set_prev i bhead (set_next i h (set_lock i bufs)) |>) as Et.
  { apply kst_ext; try done. simpl. unfold set_prev, set_next, set_lock. by rewrite !alter_alter. }
  destruct (nx_getb bhead h t) as (b2 & Hb2 & Eb2).
  { rewrite Et. simpl. rewrite nx_set_prev, nx_set_next, decide_False, nx_set_lock; [done|done|].
    unfold set_lock. by rewrite length_alter. }
  rewrite (bind_ok _ _ _ _ _ Hb2), Eb2, Et. run set_prev_run; [|simpl].
  - rewrite set_next_run; [done|]. simpl. repeat first [rewrite length_set_prev | rewrite length_set_next].
    unfold set_lock. by rewrite length_alter.
  - repeat first [rewrite length_set_prev | rewrite length_set_next]. unfold set_lock. by rewrite length_alter.
Qed.

Lemma seq_members k :
  (k ≤ NBUF)%nat →
  NoDup (k :: bhead :: rev (seq 0 k)) ∨ k = bhead ∧ NoDup (k :: rev (seq 0 k)).
Proof.
  intros Hk. assert (NoDup (rev (seq 0 k))) as Hnd by (rewrite <-Permutation_rev; apply NoDup_seq).
  assert (∀ x, x ∈ rev (seq 0 k) → x < k)%nat as Hlt.
  { intros x Hx. rewrite <-Permutation_rev in Hx. apply elem_of_seq in Hx. lia. }
  destruct (decide (k = bhead)) as [->|Hne]; [right|left].
  - split; [done|]. apply list.NoDup_cons. split; [intros ?%Hlt; lia|done].
  - unfold bhead in *. apply list.NoDup_cons. rewrite not_elem_of_cons. split; [split; [done|intros ?%Hlt; lia]|].
    apply list.NoDup_cons. split; [intros ?%Hlt; lia|done].
Qed.

(** binit links the buffers in one ring, the last one first, and unlocks them. *)
Lemma binit_run s :
  length (k_bufs s) = S NBUF →
  ∃ bufs', binit s = Ok tt (s <| k_bufs := bufs' |>) ∧ ring bufs' (rev (seq 0 NBUF)) ∧
    length bufs' = S NBUF ∧
    ∀ j b, (j < NBUF)%nat → k_bufs s !! j = Some b →
      content <$> bufs' !! j = Some (content (b <| b_lock := initsleeplock |>)).
Proof.
  intros Hlen. unfold binit. run modb_alter; [|rewrite Hlen; unfold bhead; lia].
  set (I := λ k t, ∃ bufs', t = s <| k_bufs := bufs' |> ∧ ring bufs' (rev (seq 0 k)) ∧ length bufs' = S NBUF ∧
    ∀ j b, (j < NBUF)%nat → k_bufs s !! j = Some b →
      content <$> bufs' !! j = Some (content (if decide (j < k)%nat then b <| b_lock := initsleeplock |> else b))).
  edestruct (forM_seq_inv I NBUF binit_one 0) as (s' & Hs' & bufs' & -> & Hr & Hl & Hc).
  - exists (alter (λ b, b <| b_prev := bhead |> <| b_next := bhead |>) bhead (k_bufs s)).
    split; [by destruct s|]. rewrite length_alter. split_and!; [|done|].
    + unfold ring. simpl. unfold nx, pv. rewrite list_lookup_alter_eq.
      destruct (lookup_lt_is_Some_2 (k_bufs s) bhead) as [b ->]; [rewrite Hlen; unfold bhead; lia|]. done.
    + intros j b Hj Hb. rewrite decide_False by lia. rewrite list_lookup_alter_ne, Hb by (unfold bhead; lia). done.
  - intros k t Hk (bufs' & -> & Hr & Hl & Hc).
    destruct (seq_members k) as [Hnd|[? _]]; [lia| |unfold bhead in *; lia].
    destruct (ring_link (set_lock k bufs') (rev (seq 0 k)) k) as (h & Hh & Hhl & Hr').
    + by apply ring_set_lock.
    + by apply list.NoDup_cons in Hnd as [_ ?].
    + by apply list.NoDup_cons in Hnd as [? _].
    + unfold set_lock. rewrite length_alter, Hl. apply list.Forall_forall. intros x Hx.
      assert (x ∈ k :: bhead :: seq 0 k) as Hx' by (by rewrite <-(Permutation_rev (seq 0 k)) in Hx).
      rewrite !elem_of_cons, elem_of_seq in Hx'. unfold bhead in Hx'. lia.
    + unfold set_lock in Hhl. rewrite length_alter in Hhl. eexists. split.
      { apply (binit_one_run k h); simpl; rewrite ?Hl; unfold bhead in *; [|lia|lia|lia|lia].
        by rewrite <-(nx_set_lock k). }
      exists (link_front k h (set_lock k bufs')). split_and!; [by destruct s| | |].
      * rewrite Nat.add_1_r, seq_S, rev_unit. done.
      * unfold link_front, set_lock. repeat first [rewrite length_set_prev | rewrite length_set_next].
        by rewrite length_alter.
      * intros j b Hj Hb. specialize (Hc j b Hj Hb).
        rewrite <-list_lookup_fmap. unfold link_front. rewrite content_set_next, !content_set_prev, content_set_next.
        rewrite list_lookup_fmap. apply fmap_Some in Hc as (c & Hc & Ec). unfold set_lock.
        destruct (decide (k = j)) as [<-|Hkj].
        -- rewrite list_lookup_alter_eq, Hc. rewrite decide_False in Ec by lia. rewrite decide_True by lia.
           cbn. apply (f_equal Some). symmetry. by apply content_lock.
        -- rewrite list_lookup_alter_ne, Hc by done. cbn. apply (f_equal Some). rewrite <-Ec.
           by repeat case_decide; try lia.
  - exists bufs'. split_and!; [done|done|done|]. intros j b Hj Hb. rewrite (Hc j b Hj Hb).
    rewrite decide_True by lia. done.
Qed.
