(* ===== verification/BioThm.v ===== *)
(** * The buffer cache as a view of the disk (bio.c over memide.c)

    [cache bufs disk H] is the invariant of the cache when the buffers [H] are in use:
    one LRU ring through all buffers, every cached block in one buffer, a lock and a
    reference on exactly the buffers in use, and every clean buffer that is not in use
    equal to its block on disk.  [view bufs disk bno] is the contents of a block as a
    reader sees it.  bread, bwrite and brelse are specified by what they do to the view
    and to the disk. *)
From S2P Require Import Prelude KState Sched Bio Ring.

(** Buffer [b] holds block [bno] of disk 1. *)
Definition hit (bno : Z) (b : buf) : bool := (b_dev b =? 1) && (b_blockno b =? bno).

(** The flags of a clean and of a modified buffer. *)
Definition CLEAN : Z := B_VALID.
Definition DIRTY : Z := Z.lor B_VALID B_DIRTY.

Definition buf_ok (disk : list (list Z)) (held : bool) (b : buf) : Prop :=
  sl_locked (b_lock b) = held ∧ b_refcnt b = (if held then 1 else 0) ∧
  ((b_dev b ≠ 1 ∧ b_flags b = 0 ∧ held = false) ∨
   (b_dev b = 1 ∧ 0 ≤ b_blockno b < Z.of_nat (length disk) ∧
    (b_flags b = DIRTY ∨
     b_flags b = CLEAN ∧ (held = false → disk !! Z.to_nat (b_blockno b) = Some (b_data b))))).

Record cache (bufs : list buf) (disk : list (list Z)) (H : gset nat) : Prop := {
  c_len : length bufs = S NBUF;
  c_ring : ∃ l, ring bufs l ∧ l ≡ₚ seq 0 NBUF;
  c_buf : ∀ i b, (i < NBUF)%nat → bufs !! i = Some b → buf_ok disk (bool_decide (i ∈ H)) b;
  c_uniq : ∀ bno i j b c, (i < NBUF)%nat → (j < NBUF)%nat → bufs !! i = Some b → bufs !! j = Some c →
    hit bno b → hit bno c → i = j;
}.

(** The contents of block [bno] for a reader: its buffer's, or the disk's. *)
Definition view (bufs : list buf) (disk : list (list Z)) (bno : Z) : option (list Z) :=
  match find_index (hit bno) (take NBUF bufs) with
  | Some i => b_data <$> bufs !! i
  | None => disk !! Z.to_nat bno
  end.

(** The modified blocks, which the cache must not drop. *)
Definition dirty (bufs : list buf) (bno : Z) : Prop :=
  ∃ i b, (i < NBUF)%nat ∧ bufs !! i = Some b ∧ hit bno b ∧ b_flags b = DIRTY.

Lemma hit_spec bno b : hit bno b ↔ b_dev b = 1 ∧ b_blockno b = bno.
Proof. unfold hit. rewrite andb_True, !Is_true_true, !Z.eqb_eq. done. Qed.

Lemma view_find bufs disk bno i b :
  (i < NBUF)%nat → bufs !! i = Some b → hit bno b →
  ∃ j c, (j < NBUF)%nat ∧ bufs !! j = Some c ∧ hit bno c ∧ view bufs disk bno = Some (b_data c).
Proof.
  intros Hi Hb Hh. unfold view. destruct (find_index _ _) as [j|] eqn:E.
  - apply find_index_Some in E as (c & Hc & HP & _). apply lookup_take_Some in Hc as [Hc Hj].
    exists j, c. rewrite Hc. split_and!; [done|done|by apply Is_true_true|done].
  - rewrite find_index_None in E. rewrite E in Hh; [done|]. eapply list_elem_of_lookup_2.
    rewrite lookup_take_lt; eauto.
Qed.

Lemma view_hit bufs disk H bno i b :
  cache bufs disk H → (i < NBUF)%nat → bufs !! i = Some b → hit bno b → view bufs disk bno = Some (b_data b).
Proof.
  intros Hc Hi Hb Hh. destruct (view_find bufs disk bno i b) as (j & c & Hj & Hc' & Hh' & ->); [done..|].
  assert (j = i) as -> by (by eapply (c_uniq _ _ _ Hc bno)). congruence.
Qed.

Lemma view_miss bufs disk bno :
  (∀ i b, (i < NBUF)%nat → bufs !! i = Some b → ¬ hit bno b) → view bufs disk bno = disk !! Z.to_nat bno.
Proof.
  intros Hm. unfold view. destruct (find_index _ _) as [j|] eqn:E; [|done].
  apply find_index_Some in E as (c & Hc & HP & _). apply lookup_take_Some in Hc as [Hc Hj].
  destruct (Hm j c); [done|done|]. by rewrite HP.
Qed.

(** A block is in one buffer or in none. *)
Lemma cached_dec (bufs : list buf) bno :
  (∃ i b, (i < NBUF)%nat ∧ bufs !! i = Some b ∧ hit bno b) ∨
  (∀ i b, (i < NBUF)%nat → bufs !! i = Some b → ¬ hit bno b).
Proof.
  destruct (find_index (hit bno) (take NBUF bufs)) as [j|] eqn:E; [left|right].
  - apply find_index_Some in E as (c & Hc & HP & _). apply lookup_take_Some in Hc as [Hc Hj].
    exists j, c. split_and!; [done|done|by apply Is_true_true].
  - intros i b Hi Hb Hh. rewrite find_index_None in E. rewrite E in Hh; [done|].
    eapply list_elem_of_lookup_2. rewrite lookup_take_lt; eauto.
Qed.

(** ** Updates that keep the invariant *)

Lemma ring_insert bufs l i b b' :
  ring bufs l → bufs !! i = Some b → b_next b' = b_next b → b_prev b' = b_prev b → ring (<[i := b']> bufs) l.
Proof.
  intros Hr Hb Hn Hp. unfold ring. rewrite app_comm_cons. eapply linked_ext; [| |exact Hr].
  - intros y _. unfold nx. destruct (decide (i = y)) as [<-|]; [|by rewrite list_lookup_insert_ne].
    rewrite list_lookup_insert_eq, Hb by (by eapply lookup_lt_Some). simpl. by rewrite Hn.
  - intros y _. unfold pv. destruct (decide (i = y)) as [<-|]; [|by rewrite list_lookup_insert_ne].
    rewrite list_lookup_insert_eq, Hb by (by eapply lookup_lt_Some). simpl. by rewrite Hp.
Qed.

Lemma cache_update bufs disk H H' i b b' :
  cache bufs disk H → (i < NBUF)%nat → bufs !! i = Some b →
  b_next b' = b_next b → b_prev b' = b_prev b → (∀ j, j ≠ i → j ∈ H' ↔ j ∈ H) →
  buf_ok disk (bool_decide (i ∈ H')) b' →
  (∀ bno j c, hit bno b' → j ≠ i → (j < NBUF)%nat → bufs !! j = Some c → ¬ hit bno c) →
  cache (<[i := b']> bufs) disk H'.
Proof.
  intros [Hlen (l & Hr & Hl) Hbuf Huniq] Hi Hb Hn Hp HH Hok Hu.
  assert (i < length bufs)%nat as Hil by (by eapply lookup_lt_Some). split.
  - by rewrite length_insert.
  - exists l. split; [by eapply ring_insert|done].
  - intros j c Hj. destruct (decide (i = j)) as [<-|Hij].
    + rewrite list_lookup_insert_eq by done. by intros [= <-].
    + rewrite list_lookup_insert_ne by done. intros Hc. specialize (Hbuf j c Hj Hc).
      by rewrite (bool_decide_ext _ (j ∈ H)) by (by apply HH).
  - intros bno j k c d Hj Hk. destruct (decide (i = j)) as [<-|Hij], (decide (i = k)) as [<-|Hik];
      rewrite ?list_lookup_insert_eq, ?list_lookup_insert_ne by done; [done| | |by eapply Huniq].
    + intros [= <-] Hd Hh1 Hh2. by destruct (Hu bno k d).
    + intros Hc [= <-] Hh1 Hh2. by destruct (Hu bno j c).
Qed.

(** Writing the block of a buffer in use to the disk. *)
Lemma cache_disk bufs disk H i b d :
  cache bufs disk H → (i < NBUF)%nat → bufs !! i = Some b → i ∈ H →
  cache bufs (<[Z.to_nat (b_blockno b) := d]> disk) H.
Proof.
  intros Hc Hi Hb HiH. pose proof Hc as [Hlen Hr Hbuf Huniq]. split; [done|done| |done].
  intros j c Hj Hcj. specialize (Hbuf j c Hj Hcj) as (Hlk & Hrc & Hst). split_and!; [done|done|].
  rewrite length_insert. destruct Hst as [?|(Hd & Hr' & Hst)]; [by left|right].
  split_and!; [done|lia|lia|]. destruct Hst as [?|(Hf & Hdk)]; [by left|right]. split; [done|]. intros Hnh.
  rewrite list_lookup_insert_ne; [by apply Hdk|]. intros E.
  assert (buf_ok disk (bool_decide (i ∈ H)) b) as (_ & _ & Hst) by (by eapply c_buf).
  rewrite bool_decide_true in Hst by done. destruct Hst as [(_ & _ & ?)|(Hdb & Hrb & _)]; [done|].
  assert (i = j) as ->; [|by rewrite bool_decide_true in Hnh].
  apply (Huniq (b_blockno b) i j b c); try done; apply hit_spec; split; try done. lia.
Qed.

(** Updating a buffer in use changes the view of its block only. *)
Lemma view_update bufs disk disk' H i b b' bno :
  cache bufs disk H → cache (<[i := b']> bufs) disk' H → (i < NBUF)%nat → bufs !! i = Some b →
  b_dev b = 1 → b_dev b' = 1 → b_blockno b' = b_blockno b →
  (∀ n, n ≠ Z.to_nat (b_blockno b) → disk' !! n = disk !! n) → 0 ≤ bno → 0 ≤ b_blockno b →
  view (<[i := b']> bufs) disk' bno =
    if decide (bno = b_blockno b) then Some (b_data b') else view bufs disk bno.
Proof.
  intros Hc Hc' Hi Hb Hd Hd' Hbn Hdk H0 H0'. assert (i < length bufs)%nat by (by eapply lookup_lt_Some).
  case_decide as E.
  - eapply (view_hit _ _ _ _ i); [done|done|by rewrite list_lookup_insert_eq|]. apply hit_spec. by subst bno.
  - destruct (cached_dec bufs bno) as [(j & c & Hj & Hcj & Hh)|Hm].
    + assert (i ≠ j) as Hij.
      { intros <-. rewrite Hb in Hcj. injection Hcj as <-. apply hit_spec in Hh as [_ ?]. congruence. }
      rewrite (view_hit bufs disk H bno j c) by done.
      eapply (view_hit _ _ _ _ j); [done|done|by rewrite list_lookup_insert_ne|done].
    + rewrite (view_miss bufs) by done. rewrite view_miss; [apply Hdk; lia|].
      intros j c Hj Hcj Hh. destruct (decide (i = j)) as [<-|].
      * rewrite list_lookup_insert_eq in Hcj by done. injection Hcj as <-. apply hit_spec in Hh as [_ ?]. congruence.
      * rewrite list_lookup_insert_ne in Hcj by done. by eapply Hm.
Qed.

(** ** Sleep locks of buffers *)

Section locks.
  Context {BD : Bound}.

Lemma blk_run i b s : k_bufs s !! i = Some b → blk i s = Ok (b_lock b) s.
Proof using. intros Hb. unfold blk. by run (getb_run i b); [|done]. Qed.

Lemma holdingsleep_buf i b s :
  k_bufs s !! i = Some b → Lsleep (ChBuf i) ∉ k_held s →
  holdingsleep (ChBuf i) (blk i) s = Ok (sl_locked (b_lock b)) s.
Proof using.
  intros Hb Hh. unfold holdingsleep. run acquire_run; [|done]. run (blk_run i b); [|done].
  by run release_top; [|done].
Qed.

Lemma acquiresleep_buf i b c p s :
  (0 < wakeups)%nat → k_bufs s !! i = Some b → sl_locked (b_lock b) = false →
  Lsleep (ChBuf i) ∉ k_held s → k_cur s = Some c → k_ptable s !! c = Some p →
  acquiresleep (ChBuf i) (blk i) (mod_blk i) s =
    Ok tt (s <| k_bufs ::= <[i := b <| b_lock := Slock true (p_pid p) |>]> |>).
Proof using.
  intros Hw Hb Hl Hh Hcur Hp. unfold acquiresleep. run acquire_run; [|done].
  destruct wakeups as [|w]; [lia|]. cbn [loop].
  erewrite bind_ok; [|erewrite bind_ok; [|run (blk_run i b); [|done]; rewrite Hl; reflexivity]; reflexivity].
  cbn beta iota.
  run (myproc_run c); [|done]. run (getp_run c p); [|done].
  unfold mod_blk. run (modb_run i b); [|done].
  at_state (s <| k_bufs ::= <[i := b <| b_lock := Slock true (p_pid p) |>]> |> <| k_held ::= cons (Lsleep (ChBuf i)) |>).
  by rewrite release_top.
Qed.

Lemma releasesleep_buf i b s :
  k_bufs s !! i = Some b → k_held s = [] →
  releasesleep (ChBuf i) (mod_blk i) s =
    Ok tt (woken (ChBuf i) s <| k_bufs ::= <[i := b <| b_lock := Slock false 0 |>]> |>).
Proof using.
  intros Hb Hh. unfold releasesleep, mod_blk. run acquire_run; [|rewrite Hh; set_solver].
  run (modb_run i b); [|done]. run wakeup_run; [|simpl; rewrite Hh; set_solver].
  at_state (woken (ChBuf i) s <| k_bufs ::= <[i := b <| b_lock := Slock false 0 |>]> |> <| k_held ::= cons (Lsleep (ChBuf i)) |>).
  apply release_top. simpl. rewrite Hh. set_solver.
Qed.

(** A buffer that bget may recycle. *)
Definition free_buf (b : buf) : bool := (b_refcnt b =? 0) && (Z.land (b_flags b) B_DIRTY =? 0).

Lemma ring_order bufs disk H : cache bufs disk H →
  ∃ l, ring bufs l ∧ (l ≡ₚ seq 0 NBUF) ∧ (bhead ∉ l) ∧ length l = NBUF ∧ ∀ i, i ∈ l ↔ (i < NBUF)%nat.
Proof using.
  intros [_ (l & Hr & Hl) _ _]. exists l.
  assert (∀ i, i ∈ l ↔ (i < NBUF)%nat) as Hm by (intros i; rewrite Hl, elem_of_seq; lia).
  split_and!; [done|done|intros ?%Hm; unfold bhead in *; lia|by rewrite Hl, length_seq|done].
Qed.

Lemma bget_hit bno i b c p s H :
  (0 < wakeups)%nat → cache (k_bufs s) (k_disk s) H → k_held s = [] → k_cur s = Some c → k_ptable s !! c = Some p →
  (i < NBUF)%nat → k_bufs s !! i = Some b → hit bno b → i ∉ H →
  bget 1 bno s = Ok i (s <| k_bufs ::= <[i := b <| b_refcnt := 1 |> <| b_lock := Slock true (p_pid p) |>]> |>).
Proof using.
  intros Hw Hc Hh Hcur Hp Hi Hb Hhit HiH. destruct (ring_order _ _ _ Hc) as (l & Hr & _ & Hbl & Hlen & Hm).
  destruct (ring_scan _ _ Hr Hbl) as (h & Hhd & Hw1 & _).
  unfold bget. run acquire_run; [|rewrite Hh; set_solver]. run (getb_run bhead h); [|done].
  run bscan_walk; [|done|rewrite Hlen; lia].
  change (k_bufs (s <| k_held ::= cons Lbcache |>)) with (k_bufs s).
  change (λ b, (b_dev b =? 1) && (b_blockno b =? bno)) with (hit bno).
  destruct (first_buf (hit bno) (k_bufs s) l) as [j|] eqn:E.
  2: { assert (hit bno b = false) by (eapply first_buf_None; [done|by apply Hm|done]). by rewrite H0 in Hhit. }
  apply first_buf_Some in E as (Hj & b' & Hb' & Hh').
  assert (j = i) as -> by (eapply (c_uniq _ _ _ Hc bno); [by apply Hm|done|done|done|by rewrite Hh'|done]).
  assert (b' = b) as -> by congruence. destruct (c_buf _ _ _ Hc i b Hi Hb) as (Hlk & Href & _).
  rewrite bool_decide_false in Hlk, Href by done.
  assert (b <| b_refcnt ::= λ n, u32 (n + 1) |> = b <| b_refcnt := 1 |>) as Eb.
  { unfold upd, upd_b_refcnt. by rewrite Href. }
  run (modb_run i b); [|done]. rewrite Eb.
  at_state (s <| k_bufs ::= <[i := b <| b_refcnt := 1 |>]> |> <| k_held ::= cons Lbcache |>).
  run release_top; [|simpl; rewrite Hh; set_solver].
  erewrite bind_ok; [|eapply (acquiresleep_buf i (b <| b_refcnt := 1 |>) c p)]; cycle 1; try done.
  - simpl. apply list_lookup_insert_eq. by eapply lookup_lt_Some.
  - simpl. rewrite Hh. set_solver.
  - unfold ret. f_equal. apply kst_ext; try done. simpl. by rewrite list_insert_insert_eq.
Qed.

Lemma bget_miss bno c p s H :
  (0 < wakeups)%nat → cache (k_bufs s) (k_disk s) H → k_held s = [] → k_cur s = Some c → k_ptable s !! c = Some p →
  (∀ i b, (i < NBUF)%nat → k_bufs s !! i = Some b → ¬ hit bno b) →
  (∃ i b, (i < NBUF)%nat ∧ k_bufs s !! i = Some b ∧ free_buf b) →
  ∃ i b, (i < NBUF)%nat ∧ k_bufs s !! i = Some b ∧ free_buf b ∧
    bget 1 bno s = Ok i (s <| k_bufs ::= <[i := b <| b_dev := 1 |> <| b_blockno := bno |> <| b_flags := 0 |>
      <| b_refcnt := 1 |> <| b_lock := Slock true (p_pid p) |>]> |>).
Proof using.
  intros Hw Hc Hh Hcur Hp Hmiss (i0 & b0 & Hi0 & Hb0 & Hf0).
  destruct (ring_order _ _ _ Hc) as (l & Hr & _ & Hbl & Hlen & Hm).
  destruct (ring_scan _ _ Hr Hbl) as (h & Hhd & Hw1 & Hw2).
  destruct (first_buf free_buf (k_bufs s) (rev l)) as [i|] eqn:E; cycle 1.
  { assert (free_buf b0 = false) as Hf0' by
      (eapply first_buf_None; [done|rewrite <-Permutation_rev; by apply Hm|done]). by rewrite Hf0' in Hf0. }
  apply first_buf_Some in E as E'. destruct E' as (Hi & b & Hb & Hf). rewrite <-Permutation_rev, Hm in Hi.
  exists i, b. split_and!; [done|done|by rewrite Hf|].
  unfold bget. run acquire_run; [|rewrite Hh; set_solver]. run (getb_run bhead h); [|done].
  run bscan_walk; [|done|rewrite Hlen; lia].
  change (k_bufs (s <| k_held ::= cons Lbcache |>)) with (k_bufs s).
  change (λ b, (b_dev b =? 1) && (b_blockno b =? bno)) with (hit bno).
  destruct (first_buf (hit bno) (k_bufs s) l) as [j|] eqn:E1.
  { apply first_buf_Some in E1 as (Hj & b' & Hb' & Hh'). destruct (Hmiss j b'); [by apply Hm|done|by rewrite Hh']. }
  run bscan_walk; [|done|rewrite length_rev, Hlen; lia].
  change (k_bufs (s <| k_held ::= cons Lbcache |>)) with (k_bufs s).
  change (λ b, (b_refcnt b =? 0) && (Z.land (b_flags b) B_DIRTY =? 0)) with free_buf. rewrite E.
  run (modb_run i b); [|done]. set (b1 := b <| b_dev := 1 |> <| b_blockno := bno |> <| b_flags := 0 |> <| b_refcnt := 1 |>).
  at_state (s <| k_bufs ::= <[i := b1]> |> <| k_held ::= cons Lbcache |>).
  run release_top; [|simpl; rewrite Hh; set_solver].
  erewrite bind_ok; [|eapply (acquiresleep_buf i b1 c p)]; cycle 1; try done.
  - simpl. apply list_lookup_insert_eq. by eapply lookup_lt_Some.
  - destruct (c_buf _ _ _ Hc i b Hi Hb) as (Hlk & Href & _). simpl. rewrite Hlk.
    apply andb_true_iff in Hf as [Hz _]. apply Z.eqb_eq in Hz. rewrite Hz in Href. by case_bool_decide.
  - simpl. rewrite Hh. set_solver.
  - unfold ret. f_equal. apply kst_ext; try done. simpl. by rewrite list_insert_insert_eq.
Qed.

(** memide.c reading and writing a locked buffer. *)
Lemma iderw_read i b d s :
  k_bufs s !! i = Some b → Lsleep (ChBuf i) ∉ k_held s → sl_locked (b_lock b) = true → b_dev b = 1 → b_flags b = 0 →
  0 ≤ b_blockno b < Z.of_nat (length (k_disk s)) → k_disk s !! Z.to_nat (b_blockno b) = Some d →
  iderw i s = Ok tt (s <| k_bufs ::= <[i := b <| b_data := d |> <| b_flags := CLEAN |>]> |>).
Proof using.
  intros Hb Hh Hl Hd Hf Hr Hdk. assert (i < length (k_bufs s))%nat by (by eapply lookup_lt_Some).
  unfold iderw. run (holdingsleep_buf i b); [|done|done]. rewrite Hl. cbn [negb]. cbv iota.
  run (getb_run i b); [|done]. rewrite Hf, Hd.
  change (Z.land 0 (Z.lor B_VALID B_DIRTY) =? B_VALID) with false. cbv iota. change (negb (1 =? 1)) with false. cbv iota.
  step. rewrite (proj2 (Z.leb_gt _ _)) by lia. change (Z.land 0 B_DIRTY =? 0) with true. cbn [negb]. cbv iota.
  erewrite bind_ok; [|rewrite Hdk; step; apply (modb_run i b); done].
  erewrite modb_run by (simpl; by apply list_lookup_insert_eq). f_equal. apply kst_ext; try done. simpl.
  rewrite list_insert_insert_eq. f_equal. unfold upd, upd_b_flags. simpl. by rewrite Hf.
Qed.

Lemma iderw_write i b s :
  k_bufs s !! i = Some b → Lsleep (ChBuf i) ∉ k_held s → sl_locked (b_lock b) = true → b_dev b = 1 → b_flags b = DIRTY →
  0 ≤ b_blockno b < Z.of_nat (length (k_disk s)) →
  iderw i s = Ok tt (s <| k_bufs ::= <[i := b <| b_flags := CLEAN |>]> |>
    <| k_disk ::= <[Z.to_nat (b_blockno b) := b_data b]> |> <| k_dlog ::= cons (Z.to_nat (b_blockno b), b_data b) |>).
Proof using.
  intros Hb Hh Hl Hd Hf Hr. assert (i < length (k_bufs s))%nat by (by eapply lookup_lt_Some).
  unfold iderw. run (holdingsleep_buf i b); [|done|done]. rewrite Hl. cbn [negb]. cbv iota.
  run (getb_run i b); [|done]. rewrite Hf, Hd.
  change (Z.land DIRTY (Z.lor B_VALID B_DIRTY) =? B_VALID) with false. cbv iota. change (negb (1 =? 1)) with false. cbv iota.
  step. rewrite (proj2 (Z.leb_gt _ _)) by lia. change (Z.land DIRTY B_DIRTY =? 0) with false. cbn [negb]. cbv iota.
  erewrite bind_ok; [|run (modb_run i b); [|done]; reflexivity].
  erewrite modb_run by (simpl; by apply list_lookup_insert_eq). f_equal. apply kst_ext; try done. simpl.
  rewrite list_insert_insert_eq. f_equal. unfold upd, upd_b_flags. simpl. by rewrite Hf.
Qed.
End locks.

(** ** bread *)

(** Taking buffer [i] of a cached block leaves the view alone. *)
Lemma view_take bufs disk H H' i b b' bno :
  cache bufs disk H → cache (<[i := b']> bufs) disk H' → (i < NBUF)%nat → bufs !! i = Some b →
  b_dev b' = b_dev b → b_blockno b' = b_blockno b → b_data b' = b_data b →
  view (<[i := b']> bufs) disk bno = view bufs disk bno.
Proof.
  intros Hc Hc' Hi Hb Hd Hbn Hdat. assert (i < length bufs)%nat by (by eapply lookup_lt_Some).
  assert (hit bno b' ↔ hit bno b) as Hhit by (rewrite !hit_spec; by rewrite Hd, Hbn).
  destruct (cached_dec bufs bno) as [(j & c & Hj & Hcj & Hh)|Hm].
  - rewrite (view_hit bufs disk H bno j c) by done. destruct (decide (i = j)) as [<-|].
    + rewrite Hb in Hcj. injection Hcj as <-. rewrite <-Hdat.
      eapply view_hit; [done|done|by apply list_lookup_insert_eq|by apply Hhit].
    + eapply view_hit; [done|exact Hj|by rewrite list_lookup_insert_ne|done].
  - rewrite !view_miss; [done|done|]. intros j c Hj Hcj. destruct (decide (i = j)) as [<-|].
    + rewrite list_lookup_insert_eq in Hcj by done. injection Hcj as <-. rewrite Hhit. by eapply Hm.
    + rewrite list_lookup_insert_ne in Hcj by done. by eapply Hm.
Qed.

(** Loading a block into a buffer that held an unmodified one. *)
Lemma view_load bufs disk H H' i b b' bno :
  cache bufs disk H → cache (<[i := b']> bufs) disk H' → (i < NBUF)%nat → bufs !! i = Some b →
  i ∉ H → b_flags b ≠ DIRTY → b_dev b' = 1 → disk !! Z.to_nat (b_blockno b') = Some (b_data b') →
  (∀ j c, (j < NBUF)%nat → bufs !! j = Some c → ¬ hit (b_blockno b') c) →
  view (<[i := b']> bufs) disk bno = view bufs disk bno.
Proof.
  intros Hc Hc' Hi Hb HiH Hfl Hd Hdk Hno. assert (i < length bufs)%nat by (by eapply lookup_lt_Some).
  destruct (decide (bno = b_blockno b')) as [->|Hne].
  { rewrite (view_miss bufs) by done. rewrite Hdk. eapply view_hit; [done|done|by apply list_lookup_insert_eq|].
    by apply hit_spec. }
  assert (¬ hit bno b') as Hnh by (rewrite hit_spec; naive_solver).
  destruct (cached_dec bufs bno) as [(j & c & Hj & Hcj & Hh)|Hm].
  - rewrite (view_hit bufs disk H bno j c) by done. destruct (decide (i = j)) as [<-|].
    + rewrite Hb in Hcj. injection Hcj as <-. rewrite view_miss.
      * destruct (c_buf _ _ _ Hc i b Hi Hb) as (_ & _ & Hst). apply hit_spec in Hh as [Hdb <-].
        destruct Hst as [(? & _)|(_ & _ & [?|[_ Hst]])]; [done|done|]. apply Hst. by apply bool_decide_false.
      * intros j d Hj' Hdj. destruct (decide (i = j)) as [<-|].
        -- rewrite list_lookup_insert_eq in Hdj by done. by injection Hdj as <-.
        -- rewrite list_lookup_insert_ne in Hdj by done. intros Hh'. assert (i = j); [|done].
           by eapply (c_uniq _ _ _ Hc bno).
    + eapply view_hit; [done|exact Hj|by rewrite list_lookup_insert_ne|done].
  - rewrite !view_miss; [done|done|]. intros j c Hj Hcj. destruct (decide (i = j)) as [<-|].
    + rewrite list_lookup_insert_eq in Hcj by done. by injection Hcj as <-.
    + rewrite list_lookup_insert_ne in Hcj by done. by eapply Hm.
Qed.

(** The modified blocks after the update of one buffer. *)
Lemma dirty_update bufs i b b' bno :
  (i < NBUF)%nat → bufs !! i = Some b →
  (hit bno b' ∧ b_flags b' = DIRTY ↔ hit bno b ∧ b_flags b = DIRTY) →
  dirty (<[i := b']> bufs) bno ↔ dirty bufs bno.
Proof.
  intros Hi Hb Hiff. assert (i < length bufs)%nat by (by eapply lookup_lt_Some). split.
  - intros (j & c & Hj & Hcj & Hd). destruct (decide (i = j)) as [<-|].
    + rewrite list_lookup_insert_eq in Hcj by done. injection Hcj as <-. apply Hiff in Hd. by exists i, b.
    + rewrite list_lookup_insert_ne in Hcj by done. by exists j, c.
  - intros (j & c & Hj & Hcj & Hd). destruct (decide (i = j)) as [<-|].
    + rewrite Hb in Hcj. injection Hcj as <-. apply Hiff in Hd. exists i, b'. by rewrite list_lookup_insert_eq.
    + exists j, c. by rewrite list_lookup_insert_ne.
Qed.

(** What bread does: block [bno] ends up in buffer [i] of [bufs'], now in use, and no
    block looks different or is modified. *)
Definition took (bufs : list buf) (disk : list (list Z)) (H : gset nat) (bno : Z) (i : nat) (b : buf) : Prop :=
  (i < NBUF)%nat ∧ (i ∉ H) ∧ hit bno b ∧ view bufs disk bno = Some (b_data b) ∧
  (b_flags b = CLEAN → disk !! Z.to_nat bno = Some (b_data b)) ∧
  cache (<[i := b]> bufs) disk ({[i]} ∪ H) ∧
  (∀ n, view (<[i := b]> bufs) disk n = view bufs disk n) ∧ (∀ n, dirty (<[i := b]> bufs) n ↔ dirty bufs n).

Lemma took_hit bufs disk H bno i b b' lk :
  cache bufs disk H → (i < NBUF)%nat → bufs !! i = Some b → hit bno b → i ∉ H →
  b' = b <| b_refcnt := 1 |> <| b_lock := lk |> → sl_locked lk = true →
  took bufs disk H bno i b'.
Proof.
  intros Hc Hi Hb Hh HiH -> Hlk. set (b' := b <| b_refcnt := 1 |> <| b_lock := lk |>).
  assert (cache (<[i:=b']> bufs) disk ({[i]} ∪ H)) as Hc'.
  { eapply cache_update; [done|done|done|done|done|set_solver| |].
    - rewrite bool_decide_true by set_solver. destruct (c_buf _ _ _ Hc i b Hi Hb) as (_ & _ & Hst).
      apply hit_spec in Hh as [Hd _]. split_and!; [done|done|]. right.
      destruct Hst as [(? & _)|(_ & Hr & Hst)]; [done|]. split_and!; [done|apply Hr|apply Hr|].
      destruct Hst as [?|[? _]]; [by left|right]. done.
    - intros n j c Hn Hj Hjl Hcj Hh'. assert (i = j); [|done]. by eapply (c_uniq _ _ _ Hc n). }
  split_and!; [done|done|done|by apply (view_hit _ _ _ _ i b Hc)| |done|intros n; by eapply view_take|].
  2: intros n; by eapply dirty_update.
  destruct (c_buf _ _ _ Hc i b Hi Hb) as (_ & _ & Hst). apply hit_spec in Hh as [Hd <-].
  intros Hcl. destruct Hst as [(? & _)|(_ & _ & [E|[_ Hst]])]; [done|change (b_flags b = CLEAN) in Hcl; by rewrite E in Hcl|].
  apply Hst. by apply bool_decide_false.
Qed.

Lemma took_load bufs disk H bno i b b' lk d :
  cache bufs disk H → (i < NBUF)%nat → bufs !! i = Some b → free_buf b → 0 ≤ bno < Z.of_nat (length disk) →
  (∀ j c, (j < NBUF)%nat → bufs !! j = Some c → ¬ hit bno c) → disk !! Z.to_nat bno = Some d →
  b_next b' = b_next b → b_prev b' = b_prev b → b_dev b' = 1 → b_blockno b' = bno → b_refcnt b' = 1 →
  b_flags b' = CLEAN → b_data b' = d → b_lock b' = lk → sl_locked lk = true →
  took bufs disk H bno i b'.
Proof.
  intros Hc Hi Hb Hf Hr Hno Hdk Hn Hp Hd Hbn Hrc Hfl Hdat <- Hlk. apply andb_True in Hf as [Hz Hnd].
  apply Is_true_true, Z.eqb_eq in Hz, Hnd.
  assert (i ∉ H) as HiH.
  { destruct (c_buf _ _ _ Hc i b Hi Hb) as (_ & Href & _). intros ?. by rewrite bool_decide_true, Hz in Href. }
  assert (b_flags b ≠ DIRTY) as Hfl' by (intros E; by rewrite E in Hnd).
  assert (cache (<[i:=b']> bufs) disk ({[i]} ∪ H)) as Hc'.
  { eapply cache_update; [done|done|done|done|done|set_solver| |].
    - rewrite bool_decide_true by set_solver. split_and!; [done|done|]. right. rewrite Hbn.
      split_and!; [done|apply Hr|apply Hr|]. by right.
    - intros n j c Hn' Hj Hjl Hcj. apply hit_spec in Hn' as [_ <-]. rewrite Hbn. by apply (Hno j). }
  split_and!; [done|done|by apply hit_spec| |by subst d|done| |].
  - rewrite view_miss by done. by subst d.
  - intros n. eapply view_load; try done; rewrite Hbn; [by subst d|done].
  - intros n. eapply dirty_update; [done|done|]. rewrite Hfl. naive_solver.
Qed.

(** ** The three operations *)

(** A process that runs, holds no spinlock, and uses the buffers [H]. *)
Record io_ok (s : kst) (H : gset nat) : Prop := {
  io_cache : cache (k_bufs s) (k_disk s) H;
  io_held : k_held s = [];
  io_cur : ∃ c p, k_cur s = Some c ∧ k_ptable s !! c = Some p;
}.

(** bget finds block [bno] in the cache, or a buffer for it. *)
Definition available (bufs : list buf) (bno : Z) : Prop :=
  ∃ i b, (i < NBUF)%nat ∧ bufs !! i = Some b ∧ (hit bno b ∨ free_buf b).

(** Relinking the ring. *)
Lemma content_lookup (bufs bufs' : list buf) i b' :
  content <$> bufs' = content <$> bufs → bufs' !! i = Some b' →
  ∃ b, bufs !! i = Some b ∧ content b' = content b.
Proof.
  intros E Hb. assert ((content <$> bufs') !! i = (content <$> bufs) !! i) as Ei by (by rewrite E).
  rewrite !list_lookup_fmap, Hb in Ei. symmetry in Ei. apply fmap_Some in Ei. naive_solver.
Qed.

Lemma content_fields b b' :
  content b' = content b →
  b_flags b' = b_flags b ∧ b_dev b' = b_dev b ∧ b_blockno b' = b_blockno b ∧ b_lock b' = b_lock b ∧
  b_refcnt b' = b_refcnt b ∧ b_data b' = b_data b ∧ ∀ bno, hit bno b' ↔ hit bno b.
Proof.
  intros E. split_and!; [exact (f_equal b_flags E)|exact (f_equal b_dev E)|exact (f_equal b_blockno E)|
    exact (f_equal b_lock E)|exact (f_equal b_refcnt E)|exact (f_equal b_data E)|].
  intros bno. change (hit bno (content b') ↔ hit bno (content b)). by rewrite E.
Qed.

Lemma cache_relink bufs bufs' disk H l :
  cache bufs disk H → content <$> bufs' = content <$> bufs → ring bufs' l → l ≡ₚ seq 0 NBUF →
  cache bufs' disk H ∧ (∀ n, view bufs' disk n = view bufs disk n) ∧ (∀ n, dirty bufs' n ↔ dirty bufs n).
Proof.
  intros Hc E Hr Hl. pose proof Hc as [Hlen _ Hbuf Huniq].
  assert (cache bufs' disk H) as Hc'.
  { split.
    - by rewrite <-(length_fmap content), E, length_fmap.
    - by exists l.
    - intros i b' Hi Hb'. destruct (content_lookup _ _ _ _ E Hb') as (b & Hb & Eb).
      destruct (content_fields _ _ Eb) as (E1 & E2 & E3 & E4 & E5 & E6 & _).
      unfold buf_ok. rewrite E1, E2, E3, E4, E5, E6. by apply (Hbuf i).
    - intros bno i j b' c' Hi Hj Hb' Hc' Hh1 Hh2.
      destruct (content_lookup _ _ _ _ E Hb') as (b & Hb & Eb), (content_lookup _ _ _ _ E Hc') as (c & Hcc & Ec).
      apply (Huniq bno i j b c); try done; [by apply (content_fields _ _ Eb)|by apply (content_fields _ _ Ec)]. }
  split_and!; [done|intros n|intros n].
  - destruct (cached_dec bufs' n) as [(i & b' & Hi & Hb' & Hh)|Hm].
    + destruct (content_lookup _ _ _ _ E Hb') as (b & Hb & Eb).
      rewrite (view_hit _ _ _ _ i b' Hc'), (view_hit _ _ _ _ i b Hc); try done; [|by apply (content_fields b b')].
      f_equal. exact (f_equal b_data Eb).
    + rewrite !view_miss; [done| |done]. intros i b Hi Hb Hh. symmetry in E.
      destruct (content_lookup _ _ _ _ E Hb) as (b' & Hb' & Eb). apply (Hm i b' Hi Hb'). by apply (content_fields b b').
  - split; intros (i & b & Hi & Hb & Hh & Hf); [|symmetry in E];
      destruct (content_lookup _ _ _ _ E Hb) as (b' & Hb' & Eb); exists i, b';
      destruct (content_fields _ _ Eb) as (E1 & _ & _ & _ & _ & _ & Eh);
      split_and!; [done|done|by apply Eh|congruence|done|done|by apply Eh|congruence].
Qed.

Section ops.
  Context {BD : Bound} (Hw : (0 < wakeups)%nat).

Lemma bread_run bno s H :
  io_ok s H → 0 ≤ bno < Z.of_nat (length (k_disk s)) →
  (∀ i b, i ∈ H → k_bufs s !! i = Some b → ¬ hit bno b) → available (k_bufs s) bno →
  ∃ i b, bread 1 bno s = Ok i (s <| k_bufs ::= <[i := b]> |>) ∧ took (k_bufs s) (k_disk s) H bno i b.
Proof using Hw.
  intros [Hc Hh (c & p & Hcur & Hp)] Hr Hnh Hav. unfold bread.
  destruct (cached_dec (k_bufs s) bno) as [(i & b & Hi & Hb & Hhit)|Hmiss].
  - set (b' := b <| b_refcnt := 1 |> <| b_lock := Slock true (p_pid p) |>). exists i, b'.
    assert (i ∉ H) as HiH by (intros HiH; by apply (Hnh i b)). split; [|by eapply took_hit].
    run (bget_hit bno i b c p); [|done..]. run (getb_run i b').
    2: { simpl. apply list_lookup_insert_eq. by eapply lookup_lt_Some. }
    assert ((Z.land (b_flags b') B_VALID =? 0) = false) as ->; [|done].
    destruct (c_buf _ _ _ Hc i b Hi Hb) as (_ & _ & Hst). apply hit_spec in Hhit as [Hd _].
    destruct Hst as [(? & _)|(_ & _ & [E|[E _]])]; [done|simpl; by rewrite E|simpl; by rewrite E].
  - destruct (bget_miss bno c p s H) as (i & b & Hi & Hb & Hf & Hget); [done..| |].
    { destruct Hav as (i & b & Hi & Hb & [Hh'|Hf]); [by destruct (Hmiss i b)|by exists i, b]. }
    destruct (lookup_lt_is_Some_2 (k_disk s) (Z.to_nat bno)) as [d Hd]; [lia|].
    assert (i < length (k_bufs s))%nat by (by eapply lookup_lt_Some).
    eexists i, _. split.
    + run Hget. run getb_run; [|simpl; by apply list_lookup_insert_eq].
      change (Z.land _ B_VALID =? 0) with true. cbn [when].
      erewrite bind_ok; [|eapply (iderw_read i); [simpl; by apply list_lookup_insert_eq|simpl; rewrite Hh; set_solver|
        done|done|done|exact Hr|exact Hd]].
      unfold ret. f_equal. apply kst_ext; try done. simpl. rewrite list_insert_insert_eq. reflexivity.
    + eapply took_load; try done.
Qed.

Lemma bwrite_run i b s H :
  io_ok s H → (i < NBUF)%nat → i ∈ H → k_bufs s !! i = Some b →
  let n := Z.to_nat (b_blockno b) in let b' := b <| b_flags := CLEAN |> in
  bwrite i s = Ok tt (s <| k_bufs ::= <[i := b']> |> <| k_disk ::= <[n := b_data b]> |>
    <| k_dlog ::= cons (n, b_data b) |>) ∧
  cache (<[i := b']> (k_bufs s)) (<[n := b_data b]> (k_disk s)) H ∧
  (∀ m, 0 ≤ m → view (<[i := b']> (k_bufs s)) (<[n := b_data b]> (k_disk s)) m = view (k_bufs s) (k_disk s) m) ∧
  (∀ m, dirty (<[i := b']> (k_bufs s)) m ↔ dirty (k_bufs s) m ∧ m ≠ b_blockno b) ∧
  (0 ≤ b_blockno b < Z.of_nat (length (k_disk s))).
Proof using.
  clear Hw BD. intros [Hc Hh _] Hi HiH Hb n b'. assert (i < length (k_bufs s))%nat as Hil by (by eapply lookup_lt_Some).
  destruct (c_buf _ _ _ Hc i b Hi Hb) as (Hlk & Hrc & Hst). rewrite bool_decide_true in Hlk, Hrc, Hst by done.
  destruct Hst as [(_ & _ & ?)|(Hd & Hr & Hst)]; [done|].
  assert (cache (<[i := b']> (k_bufs s)) (<[n := b_data b]> (k_disk s)) H) as Hc'.
  { change n with (Z.to_nat (b_blockno b')). eapply (cache_disk _ _ _ i b'); [|done|by apply list_lookup_insert_eq|done].
    eapply cache_update; [done|done|done|done|done|done| |].
    - rewrite bool_decide_true by done. split_and!; [done|done|]. right. split_and!; [done|apply Hr|apply Hr|by right].
    - intros m j c Hm Hj Hjl Hcj Hh'. assert (i = j); [|done]. by eapply (c_uniq _ _ _ Hc m). }
  split_and!; [|done| | |apply Hr|apply Hr].
  - unfold bwrite. run (holdingsleep_buf i b); [|done|rewrite Hh; set_solver]. rewrite Hlk. cbn [negb]. cbv iota.
    run (modb_run i b); [|done]. erewrite iderw_write; [|simpl; by apply list_lookup_insert_eq|
      simpl; rewrite Hh; set_solver|done|done| |done].
    + f_equal. apply kst_ext; try done. simpl. by rewrite list_insert_insert_eq.
    + simpl. by destruct Hst as [->|[-> _]].
  - intros m Hm. erewrite view_update; [|exact Hc|exact Hc'|done|done|done|done|done| |done|apply Hr].
    + case_decide; [|done]. symmetry. subst m. apply (view_hit _ _ _ _ i b Hc); [done|done|]. by apply hit_spec.
    + intros k Hk. by rewrite list_lookup_insert_ne.
  - intros m. split.
    + intros (j & c & Hj & Hcj & Hhit & Hfl). destruct (decide (i = j)) as [<-|Hij].
      * rewrite list_lookup_insert_eq in Hcj by done. by injection Hcj as <-.
      * rewrite list_lookup_insert_ne in Hcj by done. split; [by exists j, c|]. intros ->. apply Hij.
        eapply (c_uniq _ _ _ Hc (b_blockno b)); try done. by apply hit_spec.
    + intros [(j & c & Hj & Hcj & Hhit & Hfl) Hm]. exists j, c. split_and!; [done| |done|done].
      rewrite list_lookup_insert_ne; [done|]. intros <-. rewrite Hb in Hcj. injection Hcj as <-.
      by apply hit_spec in Hhit as [_ ?].
Qed.

Lemma brelse_run i b s H :
  io_ok s H → (i < NBUF)%nat → i ∈ H → k_bufs s !! i = Some b →
  (b_flags b = CLEAN → k_disk s !! Z.to_nat (b_blockno b) = Some (b_data b)) →
  ∃ bufs', brelse i s = Ok tt (woken (ChBuf i) s <| k_bufs := bufs' |>) ∧
    cache bufs' (k_disk s) (H ∖ {[i]}) ∧
    (∀ m, view bufs' (k_disk s) m = view (k_bufs s) (k_disk s) m) ∧
    (∀ m, dirty bufs' m ↔ dirty (k_bufs s) m) ∧
    (∀ j, j ≠ i → content <$> bufs' !! j = content <$> k_bufs s !! j).
Proof using.
  clear Hw BD. intros [Hc Hh _] Hi HiH Hb Hcl.
  assert (i < length (k_bufs s))%nat as Hil by (by eapply lookup_lt_Some).
  destruct (c_buf _ _ _ Hc i b Hi Hb) as (Hlk & Hrc & Hst). rewrite bool_decide_true in Hlk, Hrc, Hst by done.
  destruct Hst as [(_ & _ & ?)|(Hd & Hr & Hst)]; [done|].
  set (b1 := b <| b_lock := Slock false 0 |> <| b_refcnt := 0 |>).
  assert (cache (<[i := b1]> (k_bufs s)) (k_disk s) (H ∖ {[i]})) as Hc1.
  { eapply cache_update; [done|done|done|done|done|set_solver| |].
    - rewrite bool_decide_false by set_solver. split_and!; [done|done|]. right. split_and!; [done|apply Hr|apply Hr|].
      destruct Hst as [?|[? _]]; [by left|right]. split; [done|]. intros _. by apply Hcl.
    - intros m j c Hm Hj Hjl Hcj Hh'. assert (i = j); [|done]. by eapply (c_uniq _ _ _ Hc m). }
  destruct (ring_order _ _ _ Hc1) as (l & Hring & Hl & Hbl & Hlen & Hm).
  destruct (list_elem_of_split l i) as (l1 & l2 & ->); [by apply Hm|].
  destruct (bmove_front_run i l1 l2 (woken (ChBuf i) s <| k_bufs := <[i := b1]> (k_bufs s) |> <| k_held ::= cons Lbcache |>))
    as (bufs' & Hmv & Hr' & Ec); [done| | |].
  { apply list.NoDup_cons. split; [done|]. rewrite Hl. apply NoDup_seq. }
  { simpl. rewrite length_insert, (c_len _ _ _ Hc). apply list.Forall_forall. intros x [->|Hx%Hm]%elem_of_cons; unfold bhead; lia. }
  destruct (cache_relink _ bufs' _ _ (i :: l1 ++ l2) Hc1) as (Hc' & Hv & Hdt); [done|done|by rewrite Permutation_middle|].
  exists bufs'. split_and!; [|done| | |].
  - unfold brelse. run (holdingsleep_buf i b); [|done|rewrite Hh; set_solver]. rewrite Hlk. cbn [negb]. cbv iota.
    run (releasesleep_buf i b); [|done|done]. run acquire_run; [|simpl; rewrite Hh; set_solver].
    run modb_run; [|simpl; by apply list_lookup_insert_eq]. run getb_run.
    2: { simpl. apply list_lookup_insert_eq. by rewrite length_insert. }
    assert (b <| b_lock := Slock false 0 |> <| b_refcnt ::= λ n, u32 (n - 1) |> = b1) as ->.
    { unfold b1, upd, upd_b_refcnt. simpl. by rewrite Hrc. }
    change (b_refcnt b1 =? 0) with true. cbn [when].
    at_state (woken (ChBuf i) s <| k_bufs := <[i := b1]> (k_bufs s) |> <| k_held ::= cons Lbcache |>).
    rewrite (bind_ok _ _ _ _ _ Hmv). at_state (woken (ChBuf i) s <| k_bufs := bufs' |> <| k_held ::= cons Lbcache |>).
    rewrite release_top; [done|]. simpl. rewrite Hh. set_solver.
  - intros m. rewrite Hv. by eapply view_take.
  - intros m. rewrite Hdt. by eapply dirty_update.
  - intros j Hj. rewrite <-list_lookup_fmap, Ec, list_lookup_fmap. simpl. by rewrite list_lookup_insert_ne.
Qed.
End ops.

(** ** Room in the cache *)

(** When fewer than NBUF buffers are in use or modified, bget finds one. *)
Lemma available_room bufs disk H (D : list Z) bno :
  cache bufs disk H → (∀ m, dirty bufs m → m ∈ D) → (size H + length D < NBUF)%nat → available bufs bno.
Proof.
  intros Hc HD Hsz. destruct (find_index free_buf (take NBUF bufs)) as [i|] eqn:E.
  { apply find_index_Some in E as (b & Hb & HP & _). apply lookup_take_Some in Hb as [Hb Hi].
    exists i, b. split_and!; [done|done|right; by rewrite HP]. }
  exfalso. rewrite find_index_None in E. set (U := (set_seq 0 NBUF : gset nat) ∖ H).
  assert (∀ i, i ∈ elements U → ∃ b, (i < NBUF)%nat ∧ bufs !! i = Some b ∧ hit (b_blockno b) b ∧ dirty bufs (b_blockno b)) as Hall.
  { intros i Hi. apply elem_of_elements, elem_of_difference in Hi as [Hi HiH]. apply elem_of_set_seq in Hi.
    destruct (lookup_lt_is_Some_2 bufs i) as [b Hb]; [rewrite (c_len _ _ _ Hc); lia|].
    destruct (c_buf _ _ _ Hc i b) as (_ & Href & Hst); [lia|done|]. rewrite bool_decide_false in Href by done.
    assert (free_buf b = false) as Hf by (apply E; eapply list_elem_of_lookup_2; rewrite lookup_take_lt; [exact Hb|lia]).
    unfold free_buf in Hf. rewrite Href in Hf. exists b.
    destruct Hst as [(_ & Hz & _)|(Hd & _ & [Hfl|[Hfl _]])]; [by rewrite Hz in Hf| |by rewrite Hfl in Hf].
    assert (hit (b_blockno b) b) by (by apply hit_spec). split_and!; [lia|done|done|]. exists i, b. split_and!; try done; lia. }
  set (f i := default 0 (b_blockno <$> bufs !! i)).
  assert (length (f <$> elements U) ≤ length D)%nat as Hle.
  { apply submseteq_length, NoDup_submseteq.
    - apply NoDup_fmap_2_strong; [|apply NoDup_elements]. intros i j Hi Hj Eij.
      destruct (Hall i Hi) as (b & Hi' & Hb & Hh & _), (Hall j Hj) as (c & Hj' & Hcj & Hh' & _).
      unfold f in Eij. rewrite Hb, Hcj in Eij. simpl in Eij. rewrite <-Eij in Hh'. by eapply (c_uniq _ _ _ Hc (b_blockno b)).
    - intros n (i & -> & Hi)%list_elem_of_fmap. destruct (Hall i Hi) as (b & _ & Hb & _ & Hd). apply HD.
      unfold f. by rewrite Hb. }
  assert (size (set_seq 0 NBUF : gset nat) = NBUF) as Hn by apply size_set_seq.
  assert (size (set_seq 0 NBUF : gset nat) ≤ size H + size U)%nat as Hs.
  { unfold U. rewrite <-size_union_alt. apply subseteq_size, union_subseteq_r. }
  rewrite length_fmap in Hle. change (length (elements U)) with (size U) in Hle. lia.
Qed.
