(* ===== verification/Log.v ===== *)
(** * The write-ahead log (log.c) *)
From S2P Require Import Prelude Mem Mmu Kalloc KState Sched Bio Bytes.

(** The struct logheader in a block: [n], then [block[LOGSIZE]]. *)
Definition lh_n (d : list Z) : Z := s32 (rd32 0 d).
Definition lh_block (d : list Z) (i : nat) : Z := s32 (rd32 (4 + 4 * i) d).

(** A superblock as readsb copies it from block 1. *)
Definition parse_sb (d : list Z) : superblock :=
  Sb (rd32 0 d) (rd32 4 d) (rd32 8 d) (rd32 12 d) (rd32 16 d) (rd32 20 d) (rd32 24 d).

Definition modlog (f : log → log) : K unit := modify (λ s, s <| k_log ::= f |>).

Section log.
  Context `{Bound}.

Definition readsb (dev : Z) : K superblock :=
  i <- bread dev 1;
  b <- getb i;
  brelse i;;
  ret (parse_sb (b_data b)).

(** [for (tail = 0; tail < log.lh.n; tail++)]: the body gets [tail] and
    [log.lh.block[tail]]. *)
Definition for_tail (body : Z → Z → K unit) : K unit :=
  lg <- gets k_log;
  forM (seq 0 (Z.to_nat (lg_n lg))) (λ t,
    lg <- gets k_log;
    bn <- deref "log.lh.block" (lg_block lg !! t);
    body (Z.of_nat t) bn).

Definition install_trans : K unit :=
  for_tail (λ tail bn,
    lg <- gets k_log;
    lbuf <- bread (lg_dev lg) (u32 (lg_start lg + tail + 1));
    dbuf <- bread (lg_dev lg) (u32 bn);
    l <- getb lbuf;
    modb dbuf (λ b, b <| b_data := b_data l |>);;
    bwrite dbuf;;
    brelse lbuf;;
    brelse dbuf).

Definition read_head : K unit :=
  lg <- gets k_log;
  i <- bread (lg_dev lg) (u32 (lg_start lg));
  b <- getb i;
  modlog (λ lg, lg <| lg_n := lh_n (b_data b) |>);;
  forM (seq 0 (Z.to_nat (lh_n (b_data b)))) (λ t,
    lg <- gets k_log;
    if decide (t < length (lg_block lg))%nat then
      modlog (λ lg, lg <| lg_block ::= <[t := lh_block (b_data b) t]> |>)
    else undef "log.lh.block");;
  brelse i.

Definition write_head : K unit :=
  lg <- gets k_log;
  i <- bread (lg_dev lg) (u32 (lg_start lg));
  modb i (λ b, b <| b_data ::= wr32 0 (lg_n lg) |>);;
  forM (seq 0 (Z.to_nat (lg_n lg))) (λ t,
    lg <- gets k_log;
    bn <- deref "log.lh.block" (lg_block lg !! t);
    modb i (λ b, b <| b_data ::= wr32 (4 + 4 * t) bn |>));;
  bwrite i;;
  brelse i.

Definition recover_from_log : K unit :=
  read_head;;
  install_trans;;
  modlog (λ lg, lg <| lg_n := 0 |>);;
  write_head.

Definition initlog (dev : Z) : K unit :=
  (* sizeof(struct logheader) = 4 + 4 * LOGSIZE *)
  if BSIZE <=? 4 + 4 * LOGSIZE then panic "initlog: too big logheader" else
  sb <- readsb dev;
  modlog (λ lg, lg <| lg_start := s32 (sb_logstart sb) |> <| lg_size := s32 (sb_nlog sb) |>
                   <| lg_dev := dev |>);;
  recover_from_log.

Definition begin_op : K unit :=
  acquire Llog;;
  loop wakeups (λ _ : unit,
    lg <- gets k_log;
    if lg_committing lg then sleep ChLog Llog;; ret (inl tt)
    else if LOGSIZE <? lg_n lg + (lg_outstanding lg + 1) * MAXOPBLOCKS then
      sleep ChLog Llog;; ret (inl tt)
    else
      modlog (λ lg, lg <| lg_outstanding ::= λ n, s32 (n + 1) |>);;
      release Llog;;
      ret (inr tt)) tt.

Definition write_log : K unit :=
  for_tail (λ tail bn,
    lg <- gets k_log;
    to <- bread (lg_dev lg) (u32 (lg_start lg + tail + 1));
    from <- bread (lg_dev lg) (u32 bn);
    f <- getb from;
    modb to (λ b, b <| b_data := b_data f |>);;
    bwrite to;;
    brelse from;;
    brelse to).

Definition commit : K unit :=
  lg <- gets k_log;
  when (0 <? lg_n lg)
    (write_log;;
     write_head;;
     install_trans;;
     modlog (λ lg, lg <| lg_n := 0 |>);;
     write_head).

Definition end_op : K unit :=
  acquire Llog;;
  modlog (λ lg, lg <| lg_outstanding ::= λ n, s32 (n - 1) |>);;
  lg <- gets k_log;
  if lg_committing lg then panic "log.committing" else
  do_commit <-
    (if lg_outstanding lg =? 0 then
       modlog (λ lg, lg <| lg_committing := true |>);; ret true
     else wakeup ChLog;; ret false);
  release Llog;;
  when do_commit
    (commit;;
     acquire Llog;;
     modlog (λ lg, lg <| lg_committing := false |>);;
     wakeup ChLog;;
     release Llog).

(** The index of [bn] among the first [n] logged blocks, [n] when absent. *)
Fixpoint log_find (bn : Z) (n : nat) (l : list Z) : nat :=
  match n, l with
  | S n, b :: l => if u32 b =? bn then O else S (log_find bn n l)
  | _, _ => O
  end.

Definition log_write (i : nat) : K unit :=
  lg <- gets k_log;
  if (LOGSIZE <=? lg_n lg) || (lg_size lg - 1 <=? lg_n lg) then panic "too big a transaction" else
  if lg_outstanding lg <? 1 then panic "log_write outside of trans" else
  acquire Llog;;
  b <- getb i;
  lg <- gets k_log;
  let j := log_find (b_blockno b) (Z.to_nat (lg_n lg)) (lg_block lg) in
  modlog (λ lg, lg <| lg_block ::= <[j := s32 (b_blockno b)]> |>);;
  when (Z.of_nat j =? lg_n lg) (modlog (λ lg, lg <| lg_n ::= λ n, s32 (n + 1) |>));;
  modb i (λ b, b <| b_flags ::= λ f, Z.lor f B_DIRTY |>);;
  release Llog.

End log.
