(* ===== verification/LogThm.v ===== *)
(** * The log's reservations and its list of blocks (log.c)

    begin_op admits a system call only when the log has room for all the blocks the
    admitted calls may write; log_write records each block once. *)
From S2P Require Import Prelude KState Sched Bytes Bio Ring Log.

(** ** begin_op *)

(** [log.committing], or no room for one more system call. *)
Definition log_busy (lg : log) : bool :=
  lg_committing lg || (LOGSIZE <? lg_n lg + (lg_outstanding lg + 1) * MAXOPBLOCKS).

Lemma begin_op_admits `{Bound} s :
  (0 < wakeups)%nat → Llog ∉ k_held s → log_busy (k_log s) = false →
  begin_op s = Ok tt (s <| k_log ::= λ lg, lg <| lg_outstanding ::= λ n, s32 (n + 1) |> |>).
Proof.
  intros Hw Hh E. unfold begin_op. run acquire_run; [|done]. destruct wakeups as [|w]; [lia|]. cbn [loop].
  apply orb_false_iff in E as [Ec Er].
  erewrite bind_ok; [|step; change (k_log (s <| k_held ::= cons Llog |>)) with (k_log s); rewrite Ec, Er;
    step; at_state (s <| k_log ::= (λ lg, lg <| lg_outstanding ::= λ n, s32 (n + 1) |>) |> <| k_held ::= cons Llog |>);
    run release_top; [reflexivity|done]].
  done.
Qed.

(** Begin_op reserves log space.  When the log is not committing and has room for
    ten blocks of each admitted call and ten more, the call is admitted and the blocks
    reserved by all admitted calls fit in the log; otherwise the process goes to sleep
    on the log, whose state does not change. *)
Theorem begin_op_reserves `{Bound} i p s :
  (0 < wakeups)%nat → k_held s = [] → k_cur s = Some i → k_ptable s !! i = Some p →
  0 ≤ lg_n (k_log s) → 0 ≤ lg_outstanding (k_log s) →
  if log_busy (k_log s) then
    ∃ k, begin_op s = Switch (s <| k_ptable ::= <[i := asleep ChLog p]> |> <| k_held := [Lptable] |>) k
  else
    ∃ lg', begin_op s = Ok tt (s <| k_log := lg' |>) ∧
      lg_outstanding lg' = lg_outstanding (k_log s) + 1 ∧ lg_n lg' = lg_n (k_log s) ∧
      lg_block lg' = lg_block (k_log s) ∧
      lg_n lg' + lg_outstanding lg' * MAXOPBLOCKS ≤ LOGSIZE.
Proof.
  intros Hw Hh Hcur Hp Hn Ho. destruct (log_busy (k_log s)) eqn:E.
  - unfold begin_op. run acquire_run; [|rewrite Hh; set_solver]. destruct wakeups as [|w]; [lia|]. cbn [loop].
    destruct (sleep_run ChLog Llog i p (s <| k_held ::= cons Llog |>)) as (k & Hs & _);
      [done|done|by simpl; rewrite Hh|done|].
    eexists. erewrite bind_switch; [reflexivity|]. step. cbn [k_log].
    change (k_log (s <| k_held ::= cons Llog |>)) with (k_log s). unfold log_busy in E.
    destruct (lg_committing (k_log s)); [|simpl in E; rewrite E]; (erewrite bind_switch; [|exact Hs]); f_equal.
  - exists (k_log s <| lg_outstanding ::= λ n, s32 (n + 1) |>). split.
    + rewrite begin_op_admits by (done || (rewrite Hh; set_solver)). done.
    + apply orb_false_iff in E as [_ Er]. apply Z.ltb_ge in Er. unfold LOGSIZE, MAXOPBLOCKS in *. simpl.
      rewrite s32_small by lia. split_and!; [done..|lia].
Qed.

(** ** log_write *)

(** The blocks of the current transaction, in the order they were logged. *)
Definition logged (lg : log) : list Z := take (Z.to_nat (lg_n lg)) (lg_block lg).

(** A log header in memory that makes sense. *)
Record log_ok (lg : log) : Prop := {
  lo_n : 0 ≤ lg_n lg ≤ LOGSIZE;
  lo_len : length (lg_block lg) = Z.to_nat LOGSIZE;
  lo_bn : Forall (λ b, 0 ≤ b < 2 ^ 31) (logged lg);
  lo_nodup : NoDup (logged lg);
}.

Lemma log_find_spec bn n l :
  (n ≤ length l)%nat → 0 ≤ bn < 2 ^ 31 → Forall (λ b, 0 ≤ b < 2 ^ 31) (take n l) →
  (log_find bn n l = n ∧ bn ∉ take n l) ∨ ((log_find bn n l < n)%nat ∧ l !! log_find bn n l = Some bn).
Proof.
  revert l. induction n as [|n IH]; intros l Hl Hbn HF; [left; split; [done|apply not_elem_of_nil]|].
  destruct l as [|b l]; [simpl in Hl; lia|]. simpl in HF. apply list.Forall_cons in HF as [Hb HF].
  cbn [log_find take]. rewrite u32_small by lia. destruct (Z.eqb_spec b bn) as [->|Hne].
  - right. split; [lia|done].
  - destruct (IH l) as [[E Hn]|[Hlt Hlk]]; [simpl in Hl; lia|done|done|left|right].
    + split; [lia|]. apply not_elem_of_cons. split; [congruence|done].
    + split; [lia|done].
Qed.

(** The header after log_write of block [bn]. *)
Definition log_record (bn : Z) (lg : log) : log :=
  let j := log_find bn (Z.to_nat (lg_n lg)) (lg_block lg) in
  let lg1 := lg <| lg_block ::= <[j := s32 bn]> |> in
  if Z.of_nat j =? lg_n lg then lg1 <| lg_n ::= λ n, s32 (n + 1) |> else lg1.

Lemma log_record_ok bn lg :
  log_ok lg → lg_n lg < LOGSIZE → 0 ≤ bn < 2 ^ 31 →
  log_ok (log_record bn lg) ∧
  logged (log_record bn lg) = if decide (bn ∈ logged lg) then logged lg else logged lg ++ [bn].
Proof.
  intros [Hn Hlen Hbn Hnd] Hroom Hr. unfold log_record. rewrite s32_small by lia.
  assert (Z.to_nat (lg_n lg) < length (lg_block lg))%nat as Hlt
    by (rewrite Hlen; unfold LOGSIZE, MAXOPBLOCKS in *; lia).
  destruct (log_find_spec bn (Z.to_nat (lg_n lg)) (lg_block lg)) as [[-> Hni]|[Hj Hlk]]; [lia|done|exact Hbn|..].
  - rewrite Z2Nat.id, Z.eqb_refl, decide_False by (done || lia).
    assert (logged (lg <| lg_block ::= <[Z.to_nat (lg_n lg) := bn]> |> <| lg_n ::= λ n, s32 (n + 1) |>) =
      logged lg ++ [bn]) as E.
    { unfold logged. simpl. rewrite s32_small by (unfold LOGSIZE, MAXOPBLOCKS in *; lia).
      rewrite Z2Nat.inj_add, Nat.add_1_r by lia. erewrite take_S_r by (by apply list_lookup_insert_eq).
      by rewrite take_insert_ge by lia. }
    split; [|done]. split; simpl.
    + rewrite s32_small; unfold LOGSIZE, MAXOPBLOCKS in *; lia.
    + by rewrite length_insert.
    + rewrite E. apply Forall_app. split; [done|]. by apply list.Forall_singleton.
    + rewrite E. apply list.NoDup_app. split_and!; [done| |apply NoDup_singleton].
      intros x Hx ->%list_elem_of_singleton. done.
  - rewrite (proj2 (Z.eqb_neq _ _)) by lia. set (j := log_find _ _ _) in *.
    assert (lg <| lg_block ::= <[j := bn]> |> = lg) as ->
      by (unfold upd, upd_lg_block; rewrite list_insert_id by done; by destruct lg).
    assert (bn ∈ logged lg) by (eapply list_elem_of_lookup_2; unfold logged; by rewrite lookup_take_lt).
    by rewrite decide_True.
Qed.

(** log_write inside a transaction marks the buffer modified, which pins it in the
    cache, and records its block number. *)
Lemma log_write_run i b s :
  let lg := k_log s in
  Llog ∉ k_held s → 1 ≤ lg_outstanding lg → lg_n lg < LOGSIZE → lg_n lg < lg_size lg - 1 →
  k_bufs s !! i = Some b →
  log_write i s = Ok tt (s <| k_log := log_record (b_blockno b) lg |>
    <| k_bufs ::= <[i := b <| b_flags ::= λ f, Z.lor f B_DIRTY |>]> |>).
Proof.
  intros lg Hh Ho Hroom Hsize Hb. unfold log_write. step. fold lg.
  rewrite (proj2 (Z.leb_gt LOGSIZE _)), (proj2 (Z.leb_gt (lg_size lg - 1) _)), (proj2 (Z.ltb_ge _ 1)) by lia.
  cbn [orb]. cbv iota. run acquire_run; [|done]. run (getb_run i b); [|done]. step.
  change (k_log (s <| k_held ::= cons Llog |>)) with lg. cbv zeta. step.
  set (j := log_find _ _ _). at_state (s <| k_log := lg <| lg_block ::= <[j := s32 (b_blockno b)]> |> |> <| k_held ::= cons Llog |>).
  erewrite (bind_ok (when _ _)) with (s' := s <| k_log := log_record (b_blockno b) lg |> <| k_held ::= cons Llog |>).
  2: { unfold log_record. fold j. destruct (Z.of_nat j =? lg_n lg); done. }
  run (modb_run i b); [|done].
  at_state (s <| k_log := log_record (b_blockno b) lg |>
    <| k_bufs ::= <[i := b <| b_flags ::= λ f, Z.lor f B_DIRTY |>]> |> <| k_held ::= cons Llog |>).
  by rewrite release_top.
Qed.
