(* ===== verification/LogRun.v ===== *)
(** * What the routines of the log write to the disk (log.c)

    write_log, write_head and install_trans are run on a cache that satisfies its
    invariant.  Each is described by the sequence of blocks it writes, in order, and
    by the view of the disk it leaves. *)
From S2P Require Import Prelude KState Sched Bytes Bio Ring BioThm Log LogThm.

(** Processes may be woken, nothing else happens to them. *)
Definition woke (pt pt' : list proc) : Prop :=
  Forall2 (λ p p', p' = p ∨ p_state p = SLEEPING ∧ p' = p <| p_state := RUNNABLE |>) pt pt'.

Lemma woke_refl pt : woke pt pt.
Proof. unfold woke. induction pt; constructor; auto. Qed.

Lemma woke_trans pt1 pt2 pt3 : woke pt1 pt2 → woke pt2 pt3 → woke pt1 pt3.
Proof.
  unfold woke. intros H1. revert pt3. induction H1 as [|p p' pt pt' Hp Hpt IH]; intros pt3 H2;
    inversion H2 as [|? p'' ? pt'' Hp' Hpt']; subst; constructor; [|by apply IH].
  destruct Hp as [->|[Hs ->]], Hp' as [->|[Hs' ->]]; auto.
Qed.

Lemma woke_woken c s : woke (k_ptable s) (k_ptable (woken c s)).
Proof.
  unfold woke. simpl. induction (k_ptable s) as [|p pt IH]; simpl; constructor; [|done].
  unfold wake_proc. case_decide as E; [right|by left]. by destruct E.
Qed.

Lemma woke_lookup pt pt' i p : woke pt pt' → pt !! i = Some p → ∃ p', pt' !! i = Some p'.
Proof. intros Hw Hp. destruct (Forall2_lookup_l _ _ _ _ _ Hw Hp) as (p' & Hp' & _). eauto. Qed.

(** A sequence of block writes, the first one first. *)
Definition apply_writes (ws : list (nat * list Z)) (disk : list (list Z)) : list (list Z) :=
  foldl (λ d w, <[w.1 := w.2]> d) disk ws.

Lemma apply_writes_app ws ws' disk : apply_writes (ws ++ ws') disk = apply_writes ws' (apply_writes ws disk).
Proof. apply foldl_app. Qed.

Lemma length_apply_writes ws disk : length (apply_writes ws disk) = length disk.
Proof.
  revert disk. induction ws as [|w ws IH]; intros disk; [done|]. simpl.
  change (length (apply_writes ws (<[w.1:=w.2]> disk)) = length disk). by rewrite IH, length_insert.
Qed.

(** [s'] is [s] after the block writes [ws]; beside the disk only the cache, the log
    and the states of sleeping processes may differ. *)
Record wrote (ws : list (nat * list Z)) (s s' : kst) : Prop := {
  w_frame : s' = s <| k_ptable := k_ptable s' |> <| k_bufs := k_bufs s' |> <| k_disk := k_disk s' |>
    <| k_dlog := k_dlog s' |> <| k_log := k_log s' |>;
  w_woke : woke (k_ptable s) (k_ptable s');
  w_disk : k_disk s' = apply_writes ws (k_disk s);
  w_dlog : k_dlog s' = rev ws ++ k_dlog s;
}.

Lemma wrote_refl s : wrote [] s s.
Proof. split; [by destruct s|apply woke_refl|done|done]. Qed.

Lemma wrote_trans ws ws' s1 s2 s3 : wrote ws s1 s2 → wrote ws' s2 s3 → wrote (ws ++ ws') s1 s3.
Proof.
  intros [F1 W1 D1 L1] [F2 W2 D2 L2]. split.
  - rewrite F2 at 1. rewrite F1. by destruct s1.
  - by eapply woke_trans.
  - by rewrite D2, D1, apply_writes_app.
  - by rewrite L2, L1, rev_app_distr, app_assoc.
Qed.

Lemma wrote_io ws s s' H :
  wrote ws s s' → k_held s = [] → (∃ c p, k_cur s = Some c ∧ k_ptable s !! c = Some p) →
  cache (k_bufs s') (k_disk s') H → io_ok s' H.
Proof.
  intros [F W _ _] Hh (c & p & Hc & Hp) Hca. destruct (woke_lookup _ _ _ _ W Hp) as [p' Hp'].
  split; [done|by rewrite F|]. exists c, p'. split; [by rewrite F|done].
Qed.

(** The blocks as a reader of the file system sees them, and those it has modified. *)
Definition vw (s : kst) (m : Z) : option (list Z) := view (k_bufs s) (k_disk s) m.
Definition mod_blocks (s : kst) (m : Z) : Prop := dirty (k_bufs s) m.

(** [s'] is [s] with block [m] written as [d]. *)
Definition wrote_block (m : Z) (d : list Z) (s s' : kst) : Prop :=
  wrote [(Z.to_nat m, d)] s s' ∧ k_log s' = k_log s ∧
  (∀ n, 0 ≤ n → vw s' n = if decide (n = m) then Some d else vw s n) ∧
  (∀ n, mod_blocks s' n ↔ mod_blocks s n ∧ n ≠ m).

(** ** Changing and writing a buffer in use *)

Lemma modb_data i b f s H :
  io_ok s H → (i < NBUF)%nat → i ∈ H → k_bufs s !! i = Some b →
  let b' := b <| b_data ::= f |> in
  let s' := s <| k_bufs ::= <[i := b']> |> in
  modb i (λ b, b <| b_data ::= f |>) s = Ok tt s' ∧ io_ok s' H ∧
  (∀ m, 0 ≤ m → vw s' m = if decide (m = b_blockno b) then Some (f (b_data b)) else vw s m) ∧
  (∀ m, mod_blocks s' m ↔ mod_blocks s m).
Proof.
  intros [Hc Hh Hcur] Hi HiH Hb b' s'. destruct (c_buf _ _ _ Hc i b Hi Hb) as (Hlk & Hrc & Hst).
  rewrite bool_decide_true in Hlk, Hrc, Hst by done. destruct Hst as [(_ & _ & ?)|(Hd & Hr & Hst)]; [done|].
  assert (cache (k_bufs s') (k_disk s') H) as Hc'.
  { eapply cache_update; [done|done|done|done|done|done| |].
    - rewrite bool_decide_true by done. split_and!; [done|done|]. right. split_and!; [done|apply Hr|apply Hr|].
      destruct Hst as [?|[? _]]; [by left|by right].
    - intros m j c Hm Hj Hjl Hcj Hh'. assert (i = j); [|done]. by eapply (c_uniq _ _ _ Hc m). }
  split_and!; [by apply modb_run|by split| |].
  - intros m Hm. apply (view_update _ _ _ _ _ b b' _ Hc Hc'); try done. apply Hr.
  - intros m. by eapply dirty_update.
Qed.

Lemma write_run j b s H :
  io_ok s H → (j < NBUF)%nat → j ∈ H → k_bufs s !! j = Some b →
  ∃ s', bwrite j s = Ok tt s' ∧ io_ok s' H ∧
    wrote [(Z.to_nat (b_blockno b), b_data b)] s s' ∧ k_log s' = k_log s ∧
    (∀ m, 0 ≤ m → vw s' m = vw s m) ∧ (∀ m, mod_blocks s' m ↔ mod_blocks s m ∧ m ≠ b_blockno b) ∧
    k_bufs s' = <[j := b <| b_flags := CLEAN |>]> (k_bufs s) ∧
    k_disk s' !! Z.to_nat (b_blockno b) = Some (b_data b).
Proof.
  intros Hio Hj HjH Hb. destruct (bwrite_run j b s H Hio Hj HjH Hb) as (Hwr & Hc1 & Hv1 & Hd1 & Hr).
  pose proof Hio as [_ Hh Hcur]. eexists. split; [exact Hwr|]. split_and!; try done.
  - split; [by destruct s|apply woke_refl|done|done].
  - simpl. apply list_lookup_insert_eq. lia.
Qed.

(** Releasing a buffer that was only read. *)
Lemma release_read i b s H :
  io_ok s H → (i < NBUF)%nat → i ∈ H → k_bufs s !! i = Some b →
  (b_flags b = CLEAN → k_disk s !! Z.to_nat (b_blockno b) = Some (b_data b)) →
  ∃ s', brelse i s = Ok tt s' ∧ io_ok s' (H ∖ {[i]}) ∧ wrote [] s s' ∧ k_log s' = k_log s ∧
    (∀ m, vw s' m = vw s m) ∧ (∀ m, mod_blocks s' m ↔ mod_blocks s m) ∧
    (∀ j, j ≠ i → content <$> k_bufs s' !! j = content <$> k_bufs s !! j).
Proof.
  intros Hio Hi HiH Hb Hcl. destruct (brelse_run i b s H Hio Hi HiH Hb Hcl) as (bufs' & Hrel & Hc & Hv & Hd & Hcont).
  pose proof Hio as [_ Hh Hcur]. set (s' := woken (ChBuf i) s <| k_bufs := bufs' |>) in *. exists s'.
  assert (wrote [] s s') as Hw by (split; [by destruct s|exact (woke_woken (ChBuf i) s)|done|done]).
  split_and!; [done|by eapply wrote_io|done|done|done|done|done].
Qed.

Lemma write_release j b s H :
  io_ok s H → (j < NBUF)%nat → j ∈ H → k_bufs s !! j = Some b →
  ∃ s', (bwrite j;; brelse j) s = Ok tt s' ∧ io_ok s' (H ∖ {[j]}) ∧
    wrote [(Z.to_nat (b_blockno b), b_data b)] s s' ∧ k_log s' = k_log s ∧
    (∀ m, 0 ≤ m → vw s' m = vw s m) ∧ (∀ m, mod_blocks s' m ↔ mod_blocks s m ∧ m ≠ b_blockno b).
Proof.
  intros Hio Hj HjH Hb. assert (j < length (k_bufs s))%nat by (by eapply lookup_lt_Some).
  destruct (write_run j b s H Hio Hj HjH Hb) as (s1 & Hwr & Hio1 & Hw1 & Hl1 & Hv1 & Hd1 & Hb1 & Hk1).
  destruct (release_read j (b <| b_flags := CLEAN |>) s1 H) as (s2 & Hrel & Hio2 & Hw2 & Hl2 & Hv2 & Hd2 & _);
    [done|done|done|rewrite Hb1; by apply list_lookup_insert_eq|done|].
  exists s2. split_and!; [by rewrite (bind_ok _ _ _ _ _ Hwr)|done|exact (wrote_trans _ _ _ _ _ Hw1 Hw2)|congruence| |].
  - intros m Hm. by rewrite Hv2, Hv1.
  - intros m. by rewrite Hd2, Hd1.
Qed.

(** Copying buffer [i] to buffer [j], writing [j] and releasing both. *)
Lemma copy_run i j bi bj s H :
  io_ok s H → (i < NBUF)%nat → (j < NBUF)%nat → i ≠ j → i ∈ H → j ∈ H →
  k_bufs s !! i = Some bi → k_bufs s !! j = Some bj →
  (b_flags bi = CLEAN → k_disk s !! Z.to_nat (b_blockno bi) = Some (b_data bi)) →
  ∃ s', (f <- getb i; modb j (λ b, b <| b_data := b_data f |>);; bwrite j;; brelse i;; brelse j) s = Ok tt s' ∧
    io_ok s' (H ∖ {[i]} ∖ {[j]}) ∧ wrote_block (b_blockno bj) (b_data bi) s s'.
Proof.
  intros Hio Hi Hj Hij HiH HjH Hbi Hbj Hcl.
  assert (i < length (k_bufs s) ∧ j < length (k_bufs s))%nat as [??] by (split; by eapply lookup_lt_Some).
  assert (Z.to_nat (b_blockno bi) ≠ Z.to_nat (b_blockno bj)) as Hne.
  { destruct Hio as [Hc _ _]. intros E. apply Hij.
    destruct (c_buf _ _ _ Hc i bi) as (_ & _ & Hst); [done|done|]. destruct (c_buf _ _ _ Hc j bj) as (_ & _ & Hst'); [done|done|].
    rewrite bool_decide_true in Hst, Hst' by done. destruct Hst as [(_ & _ & ?)|(Hd & Hr & _)]; [done|].
    destruct Hst' as [(_ & _ & ?)|(Hd' & Hr' & _)]; [done|].
    apply (c_uniq _ _ _ Hc (b_blockno bi) i j bi bj); try done; apply hit_spec; split; try done; lia. }
  destruct (modb_data j bj (λ _, b_data bi) s H) as (Hm & Hio1 & Hv1 & Hd1); [done..|].
  set (s1 := s <| k_bufs ::= _ |>) in *. set (bj1 := bj <| b_data ::= λ _, b_data bi |>) in *.
  destruct (write_run j bj1 s1 H) as (s2 & Hwr & Hio2 & Hw2 & Hl2 & Hv2 & Hd2 & Hb2 & Hk2);
    [done|done|done|by apply list_lookup_insert_eq|].
  assert (k_bufs s2 !! i = Some bi) as Hbi2 by (rewrite Hb2; simpl; by rewrite !list_lookup_insert_ne).
  assert (k_bufs s2 !! j = Some (bj1 <| b_flags := CLEAN |>)) as Hbj2
    by (rewrite Hb2; apply list_lookup_insert_eq; simpl; by rewrite length_insert).
  destruct (release_read i bi s2 H) as (s3 & Hrel & Hio3 & Hw3 & Hl3 & Hv3 & Hd3 & Hc3); [done..| |].
  { intros Hfl. rewrite (w_disk _ _ _ Hw2). simpl. rewrite list_lookup_insert_ne by done. by apply Hcl. }
  pose proof (Hc3 j ltac:(done)) as Hbj3. rewrite Hbj2 in Hbj3. apply fmap_Some in Hbj3 as (bj3 & Hbj3 & Ec).
  destruct (content_fields _ _ Ec) as (Ef & _ & En & _ & _ & Ed & _).
  destruct (release_read j bj3 s3 (H ∖ {[i]})) as (s4 & Hrel4 & Hio4 & Hw4 & Hl4 & Hv4 & Hd4 & _);
    [done|done|set_solver|done| |].
  { intros _. rewrite (w_disk _ _ _ Hw3), <-En, <-Ed. exact Hk2. }
  exists s4. split_and!; [|done|].
  - run (getb_run i bi); [|done]. change (λ b, b <| b_data := b_data bi |>) with (λ b, b <| b_data ::= λ _, b_data bi |>).
    rewrite (bind_ok _ _ _ _ _ Hm), (bind_ok _ _ _ _ _ Hwr), (bind_ok _ _ _ _ _ Hrel). done.
  - split_and!.
    + assert (wrote [] s s1) as Hw1 by (split; [by destruct s|apply woke_refl|done|done]).
      exact (wrote_trans _ _ _ _ _ Hw1 (wrote_trans _ _ _ _ _ Hw2 (wrote_trans _ _ _ _ _ Hw3 Hw4))).
    + rewrite Hl4, Hl3, Hl2. done.
    + intros n Hn. rewrite Hv4, Hv3, Hv2 by done. by apply Hv1.
    + intros n. rewrite Hd4, Hd3, Hd2, Hd1. done.
Qed.

(** ** Reading two blocks *)

(** At most [n] blocks are modified. *)
Definition mod_le (n : nat) (s : kst) : Prop := ∃ D : list Z, (∀ m, mod_blocks s m → m ∈ D) ∧ (length D ≤ n)%nat.

Section runs.
  Context {BD : Bound} (Hw : (0 < wakeups)%nat).

Lemma read_state i b bno s H :
  io_ok s H → took (k_bufs s) (k_disk s) H bno i b →
  let s' := s <| k_bufs ::= <[i := b]> |> in
  io_ok s' ({[i]} ∪ H) ∧ wrote [] s s' ∧ k_log s' = k_log s ∧ (∀ m, vw s' m = vw s m) ∧
  (∀ m, mod_blocks s' m ↔ mod_blocks s m) ∧ k_bufs s' !! i = Some b ∧ b_blockno b = bno ∧ vw s bno = Some (b_data b).
Proof using.
  clear Hw BD. intros [Hc Hh Hcur] (Hi & HiH & Hhit & Hv & Hcl & Hc' & Hvs & Hds) s'. apply hit_spec in Hhit as [_ Hbn].
  split_and!; try done.
  - split; [by destruct s|apply woke_refl|done|done].
  - simpl. apply list_lookup_insert_eq. rewrite (c_len _ _ _ Hc). lia.
Qed.

Lemma read_two x y s :
  io_ok s ∅ → 0 ≤ x < Z.of_nat (length (k_disk s)) → 0 ≤ y < Z.of_nat (length (k_disk s)) → x ≠ y →
  mod_le (NBUF - 1) s → (mod_blocks s y ∨ mod_le (NBUF - 2) s) →
  ∃ i j bi bj s1 s2, bread 1 x s = Ok i s1 ∧ bread 1 y s1 = Ok j s2 ∧
    (i < NBUF)%nat ∧ (j < NBUF)%nat ∧ i ≠ j ∧ k_bufs s2 !! i = Some bi ∧ k_bufs s2 !! j = Some bj ∧
    b_blockno bi = x ∧ b_blockno bj = y ∧ vw s x = Some (b_data bi) ∧ vw s y = Some (b_data bj) ∧
    io_ok s2 ({[j]} ∪ ({[i]} ∪ ∅)) ∧ wrote [] s s2 ∧ k_log s2 = k_log s ∧
    (∀ m, vw s2 m = vw s m) ∧ (∀ m, mod_blocks s2 m ↔ mod_blocks s m) ∧
    (b_flags bi = CLEAN → k_disk s !! Z.to_nat x = Some (b_data bi)) ∧
    (b_flags bj = CLEAN → k_disk s !! Z.to_nat y = Some (b_data bj)).
Proof using Hw.
  intros Hio Hx Hy Hxy (D & HD & HlD) Hmy.
  destruct (bread_run Hw x s ∅) as (i & bi & Hri & Hti); [done|done|set_solver| |].
  { eapply (available_room _ _ ∅ D); [apply Hio|done|rewrite size_empty; unfold NBUF in *; lia]. }
  destruct (read_state i bi x s ∅ Hio Hti) as (Hio1 & Hw1 & Hl1 & Hv1 & Hd1 & Hbi & Hxi & Hvx).
  set (s1 := s <| k_bufs ::= <[i := bi]> |>) in *.
  assert (∀ k b, k ∈ ({[i]} ∪ ∅ : gset nat) → k_bufs s1 !! k = Some b → ¬ hit y b) as Hnh.
  { intros k b Hk Hb Hh. assert (k = i) as -> by set_solver. assert (b = bi) as -> by congruence.
    apply hit_spec in Hh as [_ ?]. congruence. }
  destruct (bread_run Hw y s1 ({[i]} ∪ ∅)) as (j & bj & Hrj & Htj); [done|done|done| |].
  { destruct Hmy as [Hmy|(D2 & HD2 & HlD2)].
    - apply Hd1 in Hmy. destruct Hmy as (k & b & Hk & Hb & Hh & _). exists k, b. auto.
    - eapply (available_room _ _ _ D2); [apply Hio1|intros m Hm; by apply HD2, Hd1|].
      rewrite union_empty_r_L, size_singleton. unfold NBUF in *. lia. }
  destruct (read_state j bj y s1 _ Hio1 Htj) as (Hio2 & Hw2 & Hl2 & Hv2 & Hd2 & Hbj & Hyj & Hvy).
  destruct Hti as (Hi & _ & _ & _ & Hcli & _), Htj as (Hj & Hji & _ & _ & Hclj & _).
  assert (i ≠ j) as Hij by set_solver.
  exists i, j, bi, bj, s1, (s1 <| k_bufs ::= <[j := bj]> |>). split_and!; try done.
  - simpl. rewrite list_lookup_insert_ne by done. exact Hbi.
  - by rewrite <-Hv1.
  - exact (wrote_trans _ _ _ _ _ Hw1 Hw2).
  - intros m. by rewrite Hv2, Hv1.
  - intros m. by rewrite Hd2, Hd1.
Qed.

(** One round of write_log: block [y] of the transaction to log block [x]. *)
Lemma write_log_one x y s :
  io_ok s ∅ → 0 ≤ x < Z.of_nat (length (k_disk s)) → 0 ≤ y < Z.of_nat (length (k_disk s)) → x ≠ y →
  mod_le (NBUF - 1) s → mod_blocks s y →
  ∃ s' d, vw s y = Some d ∧ (to <- bread 1 x; from <- bread 1 y; f <- getb from;
      modb to (λ b, b <| b_data := b_data f |>);; bwrite to;; brelse from;; brelse to) s = Ok tt s' ∧
    io_ok s' ∅ ∧ wrote_block x d s s'.
Proof using Hw.
  intros Hio Hx Hy Hxy Hle Hm.
  destruct (read_two x y s) as (i & j & bi & bj & s1 & s2 & Hr1 & Hr2 & Hi & Hj & Hij & Hbi & Hbj & Exi & Eyj & Hvx & Hvy &
    Hio2 & Hw2 & Hl2 & Hv2 & Hd2 & Hcx & Hcy); [auto..|].
  destruct (copy_run j i bj bi s2 _ Hio2) as (s3 & Hrun & Hio3 & Hw3 & Hl3 & Hv3 & Hd3); [done|done|done|set_solver|set_solver|done|done| |].
  { rewrite (w_disk _ _ _ Hw2), Eyj. done. }
  exists s3, (b_data bj). split_and!; [done| | |].
  - by rewrite (bind_ok _ _ _ _ _ Hr1), (bind_ok _ _ _ _ _ Hr2).
  - by replace (∅ : gset nat) with (({[j]} ∪ ({[i]} ∪ ∅)) ∖ {[j]} ∖ {[i]} : gset nat) by set_solver.
  - rewrite Exi in *. split_and!; [exact (wrote_trans _ _ _ _ _ Hw2 Hw3)|congruence| |].
    + intros n Hn. rewrite Hv3, Hv2 by done. done.
    + intros n. by rewrite Hd3, Hd2.
Qed.

(** One round of install_trans: log block [x] to its home [y]. *)
Lemma install_one x y s :
  io_ok s ∅ → 0 ≤ x < Z.of_nat (length (k_disk s)) → 0 ≤ y < Z.of_nat (length (k_disk s)) → x ≠ y →
  mod_le (NBUF - 1) s → (mod_blocks s y ∨ mod_le (NBUF - 2) s) →
  ∃ s' d, vw s x = Some d ∧ (lbuf <- bread 1 x; dbuf <- bread 1 y; l <- getb lbuf;
      modb dbuf (λ b, b <| b_data := b_data l |>);; bwrite dbuf;; brelse lbuf;; brelse dbuf) s = Ok tt s' ∧
    io_ok s' ∅ ∧ wrote_block y d s s'.
Proof using Hw.
  intros Hio Hx Hy Hxy Hle Hm.
  destruct (read_two x y s) as (i & j & bi & bj & s1 & s2 & Hr1 & Hr2 & Hi & Hj & Hij & Hbi & Hbj & Exi & Eyj & Hvx & Hvy &
    Hio2 & Hw2 & Hl2 & Hv2 & Hd2 & Hcx & Hcy); [auto..|].
  destruct (copy_run i j bi bj s2 _ Hio2) as (s3 & Hrun & Hio3 & Hw3 & Hl3 & Hv3 & Hd3); [done|done|done|set_solver|set_solver|done|done| |].
  { rewrite (w_disk _ _ _ Hw2), Exi. done. }
  exists s3, (b_data bi). split_and!; [done| | |].
  - by rewrite (bind_ok _ _ _ _ _ Hr1), (bind_ok _ _ _ _ _ Hr2).
  - by replace (∅ : gset nat) with (({[j]} ∪ ({[i]} ∪ ∅)) ∖ {[i]} ∖ {[j]} : gset nat) by set_solver.
  - rewrite Eyj in *. split_and!; [exact (wrote_trans _ _ _ _ _ Hw2 Hw3)|congruence| |].
    + intros n Hn. rewrite Hv3, Hv2 by done. done.
    + intros n. by rewrite Hd3, Hd2.
Qed.
End runs.

(** ** The loops *)

(** The log header in memory: device 1, log at block [L], a transaction on [bns]. *)
Definition log_is (L : Z) (bns : list Z) (lg : log) : Prop :=
  lg_dev lg = 1 ∧ lg_start lg = L ∧ lg_n lg = Z.of_nat (length bns) ∧ logged lg = bns ∧
  length (lg_block lg) = Z.to_nat LOGSIZE.

(** A transaction that fits in the log, on blocks of the disk outside the log. *)
Record placed (L N : Z) (bns : list Z) : Prop := {
  pl_log : 0 ≤ L ∧ L + LOGSIZE ≤ N ∧ N ≤ 2 ^ 31;
  pl_len : Z.of_nat (length bns) < LOGSIZE;
  pl_home : Forall (λ bn, 0 ≤ bn < N ∧ (bn < L ∨ L + LOGSIZE ≤ bn)) bns;
  pl_nodup : NoDup bns;
}.

Definition disk_len (s : kst) : Z := Z.of_nat (length (k_disk s)).

Definition log_writes (L : Z) (ds : list (list Z)) : list (nat * list Z) :=
  imap (λ t d, (Z.to_nat (L + Z.of_nat t + 1), d)) ds.
Definition home_writes (bns : list Z) (ds : list (list Z)) : list (nat * list Z) :=
  zip_with (λ bn d, (Z.to_nat bn, d)) bns ds.

Lemma log_is_lookup L bns lg t bn :
  log_is L bns lg → bns !! t = Some bn → lg_block lg !! t = Some bn.
Proof.
  intros (_ & _ & Hn & <- & _) Ht. unfold logged in Ht. by apply lookup_take_Some in Ht as [? _].
Qed.

Lemma wrote_len ws s s' : wrote ws s s' → disk_len s' = disk_len s.
Proof. intros Hwr. unfold disk_len. by rewrite (w_disk _ _ _ Hwr), length_apply_writes. Qed.

Lemma mod_le_ext n s s' : (∀ m, mod_blocks s' m → mod_blocks s m) → mod_le n s → mod_le n s'.
Proof. intros Hm (D & HD & Hl). exists D. split; [|done]. intros m Hm'. by apply HD, Hm. Qed.

(** for_tail runs its body on the blocks of the transaction in turn. *)
Lemma for_tail_run L bns (body : Z → Z → K unit) (I : nat → kst → Prop) s :
  log_is L bns (k_log s) → I O s →
  (∀ t bn s', I t s' → bns !! t = Some bn → log_is L bns (k_log s') ∧
     ∃ s'', body (Z.of_nat t) bn s' = Ok tt s'' ∧ I (S t) s'') →
  ∃ s', for_tail body s = Ok tt s' ∧ I (length bns) s'.
Proof.
  intros (_ & _ & Hn & Hlog & _) HI Hb. unfold for_tail. step. rewrite Hn, Nat2Z.id.
  destruct (forM_seq_inv I (length bns) (λ t, lg <- gets k_log;
    bn <- deref "log.lh.block" (lg_block lg !! t); body (Z.of_nat t) bn) 0 s) as (s' & Hs' & HI'); [done| |by exists s'].
  intros t s' Ht HI'. destruct (lookup_lt_is_Some_2 bns t) as [bn Hbn]; [lia|].
  destruct (Hb t bn s' HI' Hbn) as (Hl & s'' & Hrun & HI''). exists s''. rewrite Nat.add_1_r. split; [|done].
  step. rewrite (log_is_lookup L bns _ t bn) by done. by step.
Qed.

Section loops.
  Context {BD : Bound} (Hw : (0 < wakeups)%nat) (L : Z) (bns : list Z).

(** write_log copies the blocks of the transaction to the log, in order. *)
Lemma write_log_run ds s :
  io_ok s ∅ → log_is L bns (k_log s) → placed L (disk_len s) bns → (∀ m, mod_blocks s m ↔ m ∈ bns) →
  Forall2 (λ bn d, vw s bn = Some d) bns ds →
  ∃ s', write_log s = Ok tt s' ∧ io_ok s' ∅ ∧ wrote (log_writes L ds) s s' ∧ k_log s' = k_log s ∧
    (∀ m, 0 ≤ m → ¬ (L < m ≤ L + Z.of_nat (length bns)) → vw s' m = vw s m) ∧
    (∀ k d, ds !! k = Some d → vw s' (L + Z.of_nat k + 1) = Some d) ∧
    (∀ m, mod_blocks s' m ↔ m ∈ bns).
Proof using Hw.
  intros Hio Hlg Hpl Hmod Hds. pose proof (Forall2_length Hds) as Hlen.
  destruct Hpl as [(HL & HLN & HN) Hbl Hhome Hnd]. rewrite list.Forall_forall in Hhome.
  set (I t s' := io_ok s' ∅ ∧ wrote (take t (log_writes L ds)) s s' ∧ k_log s' = k_log s ∧
    (∀ m, 0 ≤ m → ¬ (L < m ≤ L + Z.of_nat t) → vw s' m = vw s m) ∧
    (∀ k d, (k < t)%nat → ds !! k = Some d → vw s' (L + Z.of_nat k + 1) = Some d) ∧
    (∀ m, mod_blocks s' m ↔ m ∈ bns)).
  unfold write_log. match goal with |- context [for_tail ?b _] => set (body := b) end.
  destruct (for_tail_run L bns body I s) as (s' & Hrun & Hio' & Hwr & Hl & Hv & Hv' & Hm); [done| | |].
  - split_and!; [done|apply wrote_refl|done|done|lia|done].
  - intros t bn s1 (Hio1 & Hw1 & Hl1 & Hv1 & Hv1' & Hm1) Hbn. rewrite Hl1. split; [done|]. unfold body.
    assert (bn ∈ bns) as Hin by (by eapply list_elem_of_lookup_2). destruct (Hhome bn Hin) as [Hbn0 Hbn1].
    assert (t < length bns)%nat as Htl by (by eapply lookup_lt_Some). pose proof (wrote_len _ _ _ Hw1) as HN1.
    assert (L + Z.of_nat t + 1 ∉ bns) as Hni by (intros Hin2; destruct (Hhome _ Hin2); lia).
    destruct (write_log_one Hw (L + Z.of_nat t + 1) bn s1) as (s2 & d & Hd & Hrun & Hio2 & Hw2 & Hl2 & Hv2 & Hm2);
      [done|unfold disk_len in *; lia|unfold disk_len in *; lia|lia| |by apply Hm1|].
    { exists bns. split; [intros m; apply Hm1|unfold LOGSIZE, MAXOPBLOCKS, NBUF in *; lia]. }
    assert (ds !! t = Some d) as Hdt.
    { destruct (Forall2_lookup_l _ _ _ _ _ Hds Hbn) as (d' & Hd' & Hvd). rewrite Hv1 in Hd by lia. congruence. }
    exists s2. split.
    + step. rewrite Hl1. destruct Hlg as (-> & -> & _). rewrite !u32_small by lia. exact Hrun.
    + split_and!; [done| |congruence| | |].
      * erewrite take_S_r; [exact (wrote_trans _ _ _ _ _ Hw1 Hw2)|]. unfold log_writes.
        rewrite list_lookup_imap, Hdt. done.
      * intros m Hm0 Hmr. rewrite Hv2, decide_False by lia. apply Hv1; lia.
      * intros k d' Hk Hd'. rewrite Hv2 by lia. destruct (decide (k = t)) as [->|].
        -- rewrite decide_True by lia. congruence.
        -- rewrite decide_False by lia. apply Hv1'; [lia|done].
      * intros m. rewrite Hm2, Hm1. naive_solver.
  - exists s'. rewrite take_ge in Hwr by (unfold log_writes; rewrite length_imap; lia).
    split_and!; try done. intros k d Hd. apply Hv'; [|done]. rewrite Hlen. by eapply lookup_lt_Some.
Qed.

(** install_trans copies the blocks of the log to their homes, in order. *)
Lemma install_trans_run ds s :
  io_ok s ∅ → log_is L bns (k_log s) → placed L (disk_len s) bns → length ds = length bns →
  (∀ k d, ds !! k = Some d → vw s (L + Z.of_nat k + 1) = Some d) →
  mod_le (NBUF - 1) s → ((∀ bn, bn ∈ bns → mod_blocks s bn) ∨ mod_le (NBUF - 2) s) →
  ∃ s', install_trans s = Ok tt s' ∧ io_ok s' ∅ ∧ wrote (home_writes bns ds) s s' ∧ k_log s' = k_log s ∧
    (∀ m, 0 ≤ m → m ∉ bns → vw s' m = vw s m) ∧ (∀ m, mod_blocks s' m ↔ mod_blocks s m ∧ m ∉ bns).
Proof using Hw.
  intros Hio Hlg Hpl Hlen Hds Hle Hmod.
  destruct Hpl as [(HL & HLN & HN) Hbl Hhome Hnd]. rewrite list.Forall_forall in Hhome.
  set (I t s' := io_ok s' ∅ ∧ wrote (take t (home_writes bns ds)) s s' ∧ k_log s' = k_log s ∧
    (∀ m, 0 ≤ m → m ∉ take t bns → vw s' m = vw s m) ∧
    (∀ m, mod_blocks s' m ↔ mod_blocks s m ∧ m ∉ take t bns)).
  unfold install_trans. match goal with |- context [for_tail ?b _] => set (body := b) end.
  destruct (for_tail_run L bns body I s) as (s' & Hrun & Hio' & Hwr & Hl & Hv & Hm); [done| | |].
  - split_and!; [done|apply wrote_refl|done|done|]. intros m. rewrite take_0. set_solver.
  - intros t bn s1 (Hio1 & Hw1 & Hl1 & Hv1 & Hm1) Hbn. rewrite Hl1. split; [done|]. unfold body.
    assert (bn ∈ bns) as Hin by (by eapply list_elem_of_lookup_2). destruct (Hhome bn Hin) as [Hbn0 Hbn1].
    assert (t < length bns)%nat as Htl by (by eapply lookup_lt_Some). pose proof (wrote_len _ _ _ Hw1) as HN1.
    assert (∀ m, mod_blocks s1 m → mod_blocks s m) as Hmm by (intros m; rewrite Hm1; tauto).
    assert (bn ∉ take t bns) as Hbnt.
    { intros (j & Hj)%list_elem_of_lookup_1. apply lookup_take_Some in Hj as [Hj Hjt].
      assert (j = t); [|lia]. by eapply NoDup_lookup. }
    destruct (install_one Hw (L + Z.of_nat t + 1) bn s1) as (s2 & d & Hd & Hrun & Hio2 & Hw2 & Hl2 & Hv2 & Hm2);
      [done|unfold disk_len in *; lia|unfold disk_len in *; lia|lia|by eapply mod_le_ext| |].
    { destruct Hmod as [Hmod|Hmod]; [left; apply Hm1; auto|right; by eapply mod_le_ext]. }
    assert (ds !! t = Some d) as Hdt.
    { destruct (lookup_lt_is_Some_2 ds t) as [d' Hd']; [lia|]. rewrite Hd'. rewrite Hv1, (Hds t d' Hd') in Hd; [done|lia|].
      intros Hin2%elem_of_take. destruct Hin2 as (j & Hj & _). apply list_elem_of_lookup_2 in Hj.
      destruct (Hhome _ Hj) as [_ ?]. lia. }
    exists s2. split.
    + step. rewrite Hl1. destruct Hlg as (-> & -> & _). rewrite !u32_small by lia. exact Hrun.
    + split_and!; [done| |congruence| |].
      * erewrite take_S_r; [exact (wrote_trans _ _ _ _ _ Hw1 Hw2)|]. unfold home_writes.
        by rewrite lookup_zip_with, Hbn, Hdt.
      * intros m Hm0. erewrite take_S_r by done. intros Hmt. rewrite Hv2, decide_False by (done || set_solver).
        apply Hv1; [done|set_solver].
      * intros m. rewrite Hm2, Hm1. erewrite take_S_r by done. set_solver.
  - exists s'. rewrite take_ge in Hwr by (unfold home_writes; rewrite length_zip_with; lia).
    rewrite take_ge in Hv, Hm by done. done.
Qed.
End loops.

(** ** The header block *)

(** The header block after [t] rounds of the loop of write_head. *)
Fixpoint put_upto (bns : list Z) (d : list Z) (t : nat) : list Z :=
  match t with
  | O => wr32 0 (Z.of_nat (length bns)) d
  | S t => wr32 (4 + 4 * t) (default 0 (bns !! t)) (put_upto bns d t)
  end.
Definition put_head (bns : list Z) (d : list Z) : list Z := put_upto bns d (length bns).

Lemma length_put_upto bns d t : length (put_upto bns d t) = length d.
Proof. induction t as [|t IH]; simpl; by rewrite length_wr. Qed.

(** The header reads back as it was written. *)
Lemma put_upto_n bns d t :
  (4 ≤ length d)%nat → Z.of_nat (length bns) < 2 ^ 31 → lh_n (put_upto bns d t) = Z.of_nat (length bns).
Proof.
  intros Hd Hn. unfold lh_n. enough (rd32 0 (put_upto bns d t) = Z.of_nat (length bns)) as -> by (apply s32_small; lia).
  induction t as [|t IH]; cbn [put_upto].
  - rewrite rd_wr_eq by done. apply Z.mod_small. change (256 ^ Z.of_nat 4) with (2 ^ 32). lia.
  - rewrite rd_wr_ne by lia. done.
Qed.

Lemma put_upto_block bns d t k bn :
  (4 + 4 * length bns ≤ length d)%nat → (k < t ≤ length bns)%nat → bns !! k = Some bn → 0 ≤ bn < 2 ^ 31 →
  lh_block (put_upto bns d t) k = bn.
Proof.
  intros Hd Hk Hbn Hr. unfold lh_block. enough (rd32 (4 + 4 * k) (put_upto bns d t) = bn) as -> by (apply s32_small; lia).
  induction t as [|t IH]; [lia|]. cbn [put_upto]. destruct (decide (k = t)) as [<-|].
  - rewrite rd_wr_eq by (rewrite length_put_upto; lia). rewrite Hbn. apply Z.mod_small. simpl. lia.
  - rewrite rd_wr_ne by lia. apply IH. lia.
Qed.

(** The buffers [H] hold what they held. *)
Definition same_bufs (H : gset nat) (s s' : kst) : Prop :=
  ∀ j, j ∈ H → content <$> k_bufs s' !! j = content <$> k_bufs s !! j.

Lemma same_bufs_trans H s1 s2 s3 : same_bufs H s1 s2 → same_bufs H s2 s3 → same_bufs H s1 s3.
Proof. intros H1 H2 j Hj. by rewrite H2, H1. Qed.

(** No buffer of [H] holds block [x], and there is a buffer left for it. *)
Definition can_read (H : gset nat) (x : Z) (s : kst) : Prop :=
  0 ≤ x < disk_len s ∧ (∀ j b, j ∈ H → k_bufs s !! j = Some b → b_blockno b ≠ x) ∧ mod_le (NBUF - 1 - size H) s ∧ (size H < NBUF)%nat.

Lemma can_read_empty x s : 0 ≤ x < disk_len s → mod_le (NBUF - 1) s → can_read ∅ x s.
Proof. intros Hx Hm. split_and!; [lia|lia|set_solver| |rewrite size_empty; unfold NBUF; lia]. by rewrite size_empty, Nat.sub_0_r. Qed.

(** bread of a block, with what it leaves for later. *)
Lemma bread_state `{BD : Bound} x d s H :
  (0 < wakeups)%nat → io_ok s H → vw s x = Some d → can_read H x s →
  ∃ i b s', bread 1 x s = Ok i s' ∧ io_ok s' ({[i]} ∪ H) ∧ wrote [] s s' ∧ k_log s' = k_log s ∧ (i < NBUF)%nat ∧ (i ∉ H) ∧
    k_bufs s' !! i = Some b ∧ b_blockno b = x ∧ b_data b = d ∧ (∀ m, vw s' m = vw s m) ∧
    (∀ m, mod_blocks s' m ↔ mod_blocks s m) ∧ same_bufs H s s' ∧
    (b_flags b = CLEAN → k_disk s' !! Z.to_nat x = Some (b_data b)).
Proof.
  intros Hw Hio Hd (Hx & Hnh & (D & HD & HlD) & Hsz).
  destruct (bread_run Hw x s H) as (i & b & Hr & Ht); [done|done| | |].
  { intros j b Hj Hb [_ Hxb]%hit_spec. by apply (Hnh j b). }
  { eapply (available_room _ _ H D); [apply Hio|done|unfold NBUF in *; lia]. }
  destruct (read_state i b x s H Hio Ht) as (Hio1 & Hw1 & Hl1 & Hv1 & Hd1 & Hb & Hbx & Hvb).
  destruct Ht as (Hi & HiH & _ & _ & Hcl & _). exists i, b, (s <| k_bufs ::= <[i := b]> |>). split_and!; try done.
  - congruence.
  - intros j Hj. simpl. by rewrite list_lookup_insert_ne by (by intros ->).
Qed.

(** Reading a block and releasing it. *)
Lemma peek_block `{BD : Bound} x d s H :
  (0 < wakeups)%nat → io_ok s H → vw s x = Some d → can_read H x s →
  ∃ i b s1 s2, bread 1 x s = Ok i s1 ∧ k_bufs s1 !! i = Some b ∧ b_data b = d ∧ brelse i s1 = Ok tt s2 ∧
    wrote [] s s1 ∧ io_ok s2 H ∧ wrote [] s s2 ∧ k_log s2 = k_log s ∧ (∀ m, vw s2 m = vw s m) ∧
    (∀ m, mod_blocks s2 m ↔ mod_blocks s m) ∧ same_bufs H s s2.
Proof.
  intros Hw Hio Hd Hcr. destruct (bread_state x d s H Hw Hio Hd Hcr) as (i & b & s1 & Hr & Hio1 & Hw1 & Hl1 & Hi & HiH & Hb & Hx & Hbd & Hv1 & Hm1 & Hs1 & Hcl).
  destruct (release_read i b s1 ({[i]} ∪ H)) as (s2 & Hr2 & Hio2 & Hw2 & Hl2 & Hv2 & Hm2 & Hs2); [done|done|set_solver|done|by rewrite Hx|].
  exists i, b, s1, s2. split_and!; try done.
  - by replace (({[i]} ∪ H) ∖ {[i]}) with H in Hio2 by set_solver.
  - exact (wrote_trans _ _ _ _ _ Hw1 Hw2).
  - congruence.
  - intros m. by rewrite Hv2.
  - intros m. by rewrite Hm2.
  - intros j Hj. rewrite Hs2 by set_solver. by apply Hs1.
Qed.

(** [s'] is [s] with block [x] in use in buffer [i] and its contents edited to [d], while
    the buffers [H] are in use. *)
Definition editing (H : gset nat) (s : kst) (i : nat) (x : Z) (d : list Z) (s' : kst) : Prop :=
  io_ok s' ({[i]} ∪ H) ∧ wrote [] s s' ∧ k_log s' = k_log s ∧ ((i < NBUF)%nat ∧ i ∉ H) ∧
  (∃ b, k_bufs s' !! i = Some b ∧ b_blockno b = x ∧ b_data b = d) ∧
  (∀ m, 0 ≤ m → vw s' m = if decide (m = x) then Some d else vw s m) ∧
  (∀ m, mod_blocks s' m ↔ mod_blocks s m) ∧ same_bufs H s s'.

Lemma editing_read `{BD : Bound} H x d s :
  (0 < wakeups)%nat → io_ok s H → vw s x = Some d → can_read H x s →
  ∃ i s', bread 1 x s = Ok i s' ∧ editing H s i x d s'.
Proof.
  intros Hw Hio Hd Hcr. destruct (bread_state x d s H Hw Hio Hd Hcr) as (i & b & s1 & Hr & Hio1 & Hw1 & Hl1 & Hi & HiH & Hb & Hx & Hbd & Hv1 & Hm1 & Hs1 & _).
  exists i, s1. split; [done|]. split_and!; try done.
  - by exists b.
  - intros m Hm. rewrite Hv1. case_decide; [by subst m|done].
Qed.

Lemma editing_edit H s i x d f s' :
  editing H s i x d s' → ∃ s'', modb i (λ b, b <| b_data ::= f |>) s' = Ok tt s'' ∧ editing H s i x (f d) s''.
Proof.
  intros (Hio & Hw & Hl & [Hi HiH] & (b & Hb & Hx & Hd) & Hv & Hm & Hs).
  destruct (modb_data i b f s' _ Hio) as (Hrun & Hio' & Hv' & Hm'); [done|set_solver|done|].
  eexists. split; [exact Hrun|]. split_and!; [done| |done|done|done| | | |].
  - refine (wrote_trans [] [] _ _ _ Hw _). split; [by destruct s'|apply woke_refl|done|done].
  - eexists. split_and!; [apply list_lookup_insert_eq; by eapply lookup_lt_Some|done|]. simpl. by rewrite Hd.
  - intros m Hm0. rewrite Hv', Hx, Hd by done. case_decide; [done|]. rewrite Hv, decide_False by done. done.
  - intros m. by rewrite Hm', Hm.
  - intros j Hj. simpl. rewrite list_lookup_insert_ne by (by intros ->). by apply Hs.
Qed.

Lemma editing_write s i x d s' :
  editing ∅ s i x d s' → ∃ s'', (bwrite i;; brelse i) s' = Ok tt s'' ∧ io_ok s'' ∅ ∧ wrote_block x d s s''.
Proof.
  intros (Hio & Hw & Hl & [Hi _] & (b & Hb & Hx & Hd) & Hv & Hm & _).
  destruct (write_release i b s' _ Hio) as (s'' & Hrun & Hio' & Hw' & Hl' & Hv' & Hm'); [done|set_solver|done|].
  exists s''. split_and!; [done| |]; [|rewrite Hx, Hd in *; split_and!].
  - by replace (∅ : gset nat) with (({[i]} ∪ ∅) ∖ {[i]} : gset nat) by set_solver.
  - exact (wrote_trans _ _ _ _ _ Hw Hw').
  - congruence.
  - intros m Hm0. by rewrite Hv', Hv.
  - intros m. by rewrite Hm', Hm.
Qed.

Section head.
  Context {BD : Bound} (Hw : (0 < wakeups)%nat) (L : Z) (bns : list Z).

(** write_head writes the header of the transaction and nothing else. *)
Lemma write_head_run hd s :
  io_ok s ∅ → log_is L bns (k_log s) → 0 ≤ L < disk_len s → disk_len s ≤ 2 ^ 31 → vw s L = Some hd →
  mod_le (NBUF - 1) s →
  ∃ s', write_head s = Ok tt s' ∧ io_ok s' ∅ ∧ wrote_block L (put_head bns hd) s s'.
Proof using Hw.
  intros Hio Hlg HL HN Hhd Hle. destruct Hlg as (Hdev & HLs & Hn & Hlog & Hlen).
  destruct (editing_read ∅ L hd s Hw Hio Hhd (can_read_empty _ _ HL Hle)) as (i & s1 & Hr & He1).
  destruct (editing_edit _ _ _ _ _ (wr32 0 (lg_n (k_log s))) _ He1) as (s2 & Hm2 & He2). rewrite Hn in He2.
  destruct (forM_seq_inv (λ t, editing ∅ s i L (put_upto bns hd t)) (length bns) (λ t, lg <- gets k_log;
    bn <- deref "log.lh.block" (lg_block lg !! t); modb i (λ b, b <| b_data ::= wr32 (4 + 4 * t) bn |>)) 0 s2)
    as (s3 & Hrun3 & He3); [exact He2| |].
  { intros t s' Ht He. destruct (lookup_lt_is_Some_2 bns t) as [bn Hbn]; [lia|].
    destruct (editing_edit _ _ _ _ _ (wr32 (4 + 4 * t) bn) _ He) as (s'' & Hm & He'). exists s''. split.
    - step. destruct He as (_ & _ & -> & _). rewrite (log_is_lookup L bns _ t bn) by done. by step.
    - rewrite Nat.add_1_r. simpl. by rewrite Hbn. }
  destruct (editing_write _ _ _ _ _ He3) as (s4 & Hrun4 & Hio4 & Hw4). exists s4. split; [|done].
  unfold write_head. step. rewrite Hdev, HLs, u32_small by lia. rewrite (bind_ok _ _ _ _ _ Hr), (bind_ok _ _ _ _ _ Hm2).
  rewrite Hn, Nat2Z.id. by rewrite (bind_ok _ _ _ _ _ Hrun3).
Qed.

(** Header block [hd] describes a transaction on [bns]. *)
Definition head_is (hd : list Z) : Prop :=
  lh_n hd = Z.of_nat (length bns) ∧ ∀ k bn, bns !! k = Some bn → lh_block hd k = bn.

(** The loop of read_head. *)
Lemma read_head_loop hd s :
  head_is hd → (length bns ≤ length (lg_block (k_log s)))%nat →
  ∃ blk, forM (seq 0 (length bns)) (λ t, lg <- gets k_log;
      if decide (t < length (lg_block lg))%nat then
        modlog (λ lg, lg <| lg_block ::= <[t := lh_block hd t]> |>)
      else undef "log.lh.block") s = Ok tt (s <| k_log ::= λ lg, lg <| lg_block := blk |> |>) ∧
    take (length bns) blk = bns ∧ length blk = length (lg_block (k_log s)).
Proof using.
  clear Hw BD L. intros [Hn Hblk] Hlen.
  set (I t s' := ∃ blk, s' = s <| k_log ::= λ lg, lg <| lg_block := blk |> |> ∧ take t blk = take t bns ∧
    length blk = length (lg_block (k_log s))).
  destruct (forM_seq_inv I (length bns) (λ t, lg <- gets k_log;
      if decide (t < length (lg_block lg))%nat then
        modlog (λ lg, lg <| lg_block ::= <[t := lh_block hd t]> |>)
      else undef "log.lh.block") 0 s) as (s' & Hrun & blk & -> & Ht & Hl).
  - exists (lg_block (k_log s)). split_and!; [|by rewrite !take_0|done]. apply kst_ext; try done. simpl. by destruct (k_log s).
  - intros t s' Ht (blk & -> & Hblk' & Hl). destruct (lookup_lt_is_Some_2 bns t) as [bn Hbn]; [lia|].
    eexists. split.
    + step. simpl. rewrite decide_True by lia. reflexivity.
    + exists (<[t := bn]> blk). split_and!.
      * simpl. rewrite (Hblk t bn Hbn). done.
      * rewrite Nat.add_1_r. erewrite (take_S_r bns) by done.
        erewrite take_S_r by (apply list_lookup_insert_eq; lia). by rewrite take_insert_ge, Hblk' by lia.
      * by rewrite length_insert.
  - exists blk. rewrite (take_ge bns) in Ht by done. done.
Qed.

Lemma read_head_run hd s :
  io_ok s ∅ → lg_dev (k_log s) = 1 → lg_start (k_log s) = L → length (lg_block (k_log s)) = Z.to_nat LOGSIZE →
  0 ≤ L < disk_len s → disk_len s ≤ 2 ^ 31 → vw s L = Some hd → head_is hd → Z.of_nat (length bns) < LOGSIZE →
  mod_le (NBUF - 1) s →
  ∃ s', read_head s = Ok tt s' ∧ io_ok s' ∅ ∧ wrote [] s s' ∧ log_is L bns (k_log s') ∧
    (∀ m, vw s' m = vw s m) ∧ (∀ m, mod_blocks s' m ↔ mod_blocks s m).
Proof using Hw.
  intros Hio Hdev HLs Hlen HL HN Hhd Hh Hlt (D & HD & HlD).
  destruct (bread_run Hw L s ∅) as (i & b & Hr & Ht); [done|done|set_solver| |].
  { eapply (available_room _ _ ∅ D); [apply Hio|done|rewrite size_empty; unfold NBUF in *; lia]. }
  destruct (read_state i b L s ∅ Hio Ht) as (Hio1 & Hw1 & Hl1 & Hv1 & Hd1 & Hb & Hbx & Hvb).
  assert (b_data b = hd) as Ebd by congruence. destruct Ht as (Hi & _ & _ & _ & Hcl & _).
  set (s1 := s <| k_bufs ::= <[i := b]> |>) in *.
  destruct (read_head_loop hd (s1 <| k_log ::= λ lg, lg <| lg_n := lh_n hd |> |>)) as (blk & Hrun & Hblk & Hbl);
    [done|simpl; rewrite Hlen; lia|].
  set (s2 := s1 <| k_log ::= λ lg, lg <| lg_n := lh_n hd |> |> <| k_log ::= λ lg, lg <| lg_block := blk |> |>) in *.
  assert (wrote [] s1 s2) as Hw2 by (split; [by destruct s|apply woke_refl|done|done]).
  destruct (release_read i b s2 ({[i]} ∪ ∅)) as (s3 & Hrel & Hio3 & Hw3 & Hl3 & Hv3 & Hd3 & _).
  { by destruct Hio1; split. }
  { done. }
  { set_solver. }
  { done. }
  { intros E. rewrite Hbx. by apply Hcl. }
  exists s3. split_and!.
  - unfold read_head. step. rewrite Hdev, HLs, u32_small by lia. rewrite (bind_ok _ _ _ _ _ Hr).
    run (getb_run i b); [|done]. rewrite Ebd. step. destruct Hh as [Hn Hh]. rewrite Hn in *. rewrite Nat2Z.id.
    rewrite (bind_ok _ _ _ _ _ Hrun). done.
  - by replace (∅ : gset nat) with (({[i]} ∪ ∅) ∖ {[i]} : gset nat) by set_solver.
  - exact (wrote_trans _ _ _ _ _ Hw1 (wrote_trans _ _ _ _ _ Hw2 Hw3)).
  - rewrite Hl3. destruct Hh as [Hn Hh]. split_and!; [done|done|done| |].
    + unfold logged. simpl. by rewrite Hn, Nat2Z.id.
    + simpl. by rewrite Hbl.
  - intros m. rewrite Hv3. apply Hv1.
  - intros m. rewrite Hd3. apply Hd1.
Qed.
End head.
