(* ===== verification/Crash.v ===== *)
(** * Crash safety of the log (log.c)

    commit makes the blocks of a transaction durable all at once: the block writes it
    issues are given exactly, and from the disk as it is after any number of them
    initlog recovers either all the old blocks or all the new ones. *)
From S2P Require Import Prelude Mmu KState Sched Bytes Bio Ring BioThm Log LogThm LogRun.

(** ** The disk after a sequence of writes *)

Lemma apply_writes_ne ws disk m : m ∉ ws.*1 → apply_writes ws disk !! m = disk !! m.
Proof.
  revert disk. induction ws as [|[n d] ws IH]; intros disk Hm; [done|].
  rewrite fmap_cons in Hm. apply not_elem_of_cons in Hm as [Hn Hm]. simpl in Hn.
  change (apply_writes ws (<[n := d]> disk) !! m = disk !! m). rewrite IH by done. by rewrite list_lookup_insert_ne.
Qed.

Lemma apply_writes_eq ws disk m d :
  NoDup ws.*1 → (m, d) ∈ ws → (m < length disk)%nat → apply_writes ws disk !! m = Some d.
Proof.
  revert disk. induction ws as [|[n e] ws IH]; intros disk Hnd Hin Hm; [by apply elem_of_nil in Hin|].
  rewrite fmap_cons in Hnd. apply list.NoDup_cons in Hnd as [Hn Hnd]. simpl in Hn.
  change (apply_writes ws (<[n := e]> disk) !! m = Some d). apply elem_of_cons in Hin as [[= -> ->]|Hin].
  - rewrite apply_writes_ne by done. by apply list_lookup_insert_eq.
  - apply IH; [done|done|by rewrite length_insert].
Qed.

Lemma log_writes_fst L ds m :
  0 ≤ L → m ∈ (log_writes L ds).*1 → L < Z.of_nat m ≤ L + Z.of_nat (length ds).
Proof.
  intros HL ([n d] & -> & Hin)%list_elem_of_fmap. apply list_elem_of_lookup_1 in Hin as (k & Hk).
  unfold log_writes in Hk. rewrite list_lookup_imap in Hk. apply fmap_Some in Hk as (d' & Hd & [= -> ->]).
  apply lookup_lt_Some in Hd. simpl. lia.
Qed.

Lemma log_writes_nodup L ds : 0 ≤ L → NoDup (log_writes L ds).*1.
Proof.
  intros HL. apply NoDup_alt. intros i j x Hi Hj. unfold log_writes in Hi, Hj.
  rewrite list_lookup_fmap, list_lookup_imap in Hi, Hj.
  destruct (ds !! i), (ds !! j); simpl in *; try done. injection Hi as <-. injection Hj. lia.
Qed.

Lemma log_writes_elem L ds k d : ds !! k = Some d → (Z.to_nat (L + Z.of_nat k + 1), d) ∈ log_writes L ds.
Proof.
  intros Hd. apply (list_elem_of_lookup_2 _ k). unfold log_writes. by rewrite list_lookup_imap, Hd.
Qed.

Lemma home_writes_fst bns ds : length ds = length bns → (home_writes bns ds).*1 = Z.to_nat <$> bns.
Proof.
  intros Hl. unfold home_writes. revert ds Hl. induction bns as [|bn bns IH]; intros [|d ds] Hl; try done.
  simpl. f_equal. apply IH. simpl in Hl. lia.
Qed.

Lemma home_writes_elem bns ds k bn d :
  bns !! k = Some bn → ds !! k = Some d → (Z.to_nat bn, d) ∈ home_writes bns ds.
Proof. intros Hb Hd. apply (list_elem_of_lookup_2 _ k). unfold home_writes. by rewrite lookup_zip_with, Hb, Hd. Qed.

Lemma nodup_to_nat bns : NoDup bns → Forall (λ bn, 0 ≤ bn) bns → NoDup (Z.to_nat <$> bns).
Proof.
  intros Hnd Hp. apply NoDup_fmap_2_strong; [|done]. rewrite list.Forall_forall in Hp.
  intros x y Hx%Hp Hy%Hp. lia.
Qed.

(** ** commit *)

(** The writes of a commit: the log, its header, the homes, the empty header. *)
Definition commit_writes (L : Z) (bns : list Z) (ds : list (list Z)) (hd : list Z) : list (nat * list Z) :=
  log_writes L ds ++ [(Z.to_nat L, put_head bns hd)] ++
  home_writes bns ds ++ [(Z.to_nat L, put_head [] (put_head bns hd))].

(** Before a commit: the modified blocks of the cache are those of the transaction,
    [ds] are their contents, and the header on disk is empty. *)
Record committing (s : kst) (L : Z) (bns : list Z) (ds : list (list Z)) (hd : list Z) : Prop := {
  cm_io : io_ok s ∅;
  cm_log : log_is L bns (k_log s);
  cm_placed : placed L (disk_len s) bns;
  cm_mod : ∀ m, mod_blocks s m ↔ m ∈ bns;
  cm_data : Forall2 (λ bn d, vw s bn = Some d) bns ds;
  cm_head : k_disk s !! Z.to_nat L = Some hd ∧ lh_n hd = 0 ∧ length hd = Z.to_nat BSIZE;
}.

(** A block that is not modified looks as it is on disk. *)
Lemma view_clean s m : io_ok s ∅ → ¬ mod_blocks s m → vw s m = k_disk s !! Z.to_nat m.
Proof.
  intros [Hc _ _] Hm. unfold vw. destruct (cached_dec (k_bufs s) m) as [(i & b & Hi & Hb & Hh)|Hno].
  - rewrite (view_hit _ _ _ _ i b Hc) by done. destruct (c_buf _ _ _ Hc i b Hi Hb) as (_ & _ & Hst).
    pose proof Hh as [Hd Hbn]%hit_spec. destruct Hst as [(? & _)|(_ & _ & [Hf|[_ Hst]])]; [done| |].
    + destruct Hm. by exists i, b.
    + rewrite <-Hbn. symmetry. apply Hst. by apply bool_decide_false.
  - by apply view_miss.
Qed.

Lemma log_is_empty L bns lg : log_is L bns lg → log_is L [] (lg <| lg_n := 0 |>).
Proof. intros (? & ? & ? & ? & ?). by split_and!. Qed.

Lemma committing_L s L bns ds hd : committing s L bns ds hd → 0 ≤ L < disk_len s ∧ (L ∉ bns) ∧ vw s L = Some hd.
Proof.
  intros [Hio _ [HL Hl Hh _] Hm _ (Hd & _)]. rewrite list.Forall_forall in Hh.
  assert (L ∉ bns) by (intros [_ ?]%Hh; unfold LOGSIZE, MAXOPBLOCKS in *; lia).
  split_and!; [lia|unfold LOGSIZE, MAXOPBLOCKS in *; lia|done|]. rewrite view_clean; [done|done|]. by rewrite Hm.
Qed.

Lemma mod_le_list (bns : list Z) n s : (∀ m, mod_blocks s m → m ∈ bns) → (length bns ≤ n)%nat → mod_le n s.
Proof. intros Hm Hl. by exists bns. Qed.

Section commit.
  Context {BD : Bound} (Hw : (0 < wakeups)%nat).

Lemma commit_run s L bns ds hd :
  committing s L bns ds hd → bns ≠ [] →
  ∃ s', commit s = Ok tt s' ∧ io_ok s' ∅ ∧ wrote (commit_writes L bns ds hd) s s' ∧
    k_log s' = k_log s <| lg_n := 0 |> ∧ (∀ m, ¬ mod_blocks s' m).
Proof using Hw.
  intros Hcm Hne. destruct (committing_L _ _ _ _ _ Hcm) as (HL & HLb & HvL). destruct Hcm as [Hio Hlg Hpl Hm Hds _].
  pose proof (Forall2_length Hds) as Hlen. pose proof Hpl as [(HL0 & HLN & HN) Hbl _ _].
  assert (length bns ≤ NBUF - 1)%nat as Hroom by (unfold LOGSIZE, MAXOPBLOCKS, NBUF in *; lia).
  destruct (write_log_run Hw L bns ds s) as (s1 & Hr1 & Hio1 & Hw1 & Hl1 & Hv1 & Hd1 & Hm1); [done..|].
  pose proof (wrote_len _ _ _ Hw1) as HN1.
  destruct (write_head_run Hw L bns hd s1) as (s2 & Hr2 & Hio2 & Hw2 & Hl2 & Hv2 & Hm2);
    [done|by rewrite Hl1|lia|lia|rewrite Hv1; [done|lia|lia]|apply (mod_le_list bns); [intros m; apply Hm1|done]|].
  pose proof (wrote_len _ _ _ Hw2) as HN2.
  assert (∀ m, mod_blocks s2 m ↔ m ∈ bns) as Hm2' by (intros m; rewrite Hm2, Hm1; naive_solver).
  destruct (install_trans_run Hw L bns ds s2) as (s3 & Hr3 & Hio3 & Hw3 & Hl3 & Hv3 & Hm3).
  { done. } { by rewrite Hl2, Hl1. } { by rewrite HN2, HN1. } { done. }
  { intros k d Hd. rewrite Hv2, decide_False by lia. by apply Hd1. }
  { apply (mod_le_list bns); [intros m; apply Hm2'|done]. } { left. intros bn. apply Hm2'. }
  pose proof (wrote_len _ _ _ Hw3) as HN3.
  assert (∀ m, ¬ mod_blocks s3 m) as Hm3' by (intros m; rewrite Hm3, Hm2'; tauto).
  set (s3' := s3 <| k_log ::= λ lg, lg <| lg_n := 0 |> |>).
  assert (wrote [] s3 s3') as Hw3' by (split; [by destruct s3|apply woke_refl|done|done]).
  destruct (write_head_run Hw L [] (put_head bns hd) s3') as (s4 & Hr4 & Hio4 & Hw4 & Hl4 & Hv4 & Hm4).
  { by destruct Hio3; split. } { apply (log_is_empty L bns). by rewrite Hl3, Hl2, Hl1. }
  { change (disk_len s3') with (disk_len s3). lia. } { change (disk_len s3') with (disk_len s3). lia. }
  { change (vw s3' L) with (vw s3 L). rewrite Hv3, Hv2, decide_True by (lia || done). done. }
  { apply (mod_le_list []); [intros m Hmm; by destruct (Hm3' m)|simpl; lia]. }
  exists s4. split_and!; [|done| | |].
  - unfold commit. step. destruct Hlg as (_ & _ & Hn & _). rewrite Hn, (proj2 (Z.ltb_lt 0 _)); [|destruct bns; [done|simpl; lia]].
    cbn [when]. rewrite (bind_ok _ _ _ _ _ Hr1), (bind_ok _ _ _ _ _ Hr2), (bind_ok _ _ _ _ _ Hr3). step. exact Hr4.
  - exact (wrote_trans _ _ _ _ _ Hw1 (wrote_trans _ _ _ _ _ Hw2 (wrote_trans _ _ _ _ _ Hw3 (wrote_trans [] _ _ _ _ Hw3' Hw4)))).
  - rewrite Hl4. simpl. by rewrite Hl3, Hl2, Hl1.
  - intros m [Hmm _]%Hm4. by destruct (Hm3' m).
Qed.
End commit.

(** ** Recovery *)

Section recovery.
  Context {BD : Bound} (Hw : (0 < wakeups)%nat).

(** Reading a block and releasing it. *)
Lemma peek_run x d s :
  io_ok s ∅ → 0 ≤ x < disk_len s → vw s x = Some d → mod_le (NBUF - 1) s →
  ∃ i b s1 s2, bread 1 x s = Ok i s1 ∧ getb i s1 = Ok b s1 ∧ b_data b = d ∧ brelse i s1 = Ok tt s2 ∧
    io_ok s2 ∅ ∧ wrote [] s s2 ∧ k_log s2 = k_log s ∧ (∀ m, vw s2 m = vw s m) ∧
    (∀ m, mod_blocks s2 m ↔ mod_blocks s m).
Proof using Hw.
  intros Hio Hx Hd (D & HD & HlD).
  destruct (bread_run Hw x s ∅) as (i & b & Hr & Ht); [done|done|set_solver| |].
  { eapply (available_room _ _ ∅ D); [apply Hio|done|rewrite size_empty; unfold NBUF in *; lia]. }
  destruct (read_state i b x s ∅ Hio Ht) as (Hio1 & Hw1 & Hl1 & Hv1 & Hd1 & Hb & Hbx & Hvb).
  destruct Ht as (Hi & _ & _ & _ & Hcl & _).
  destruct (release_read i b _ _ Hio1) as (s2 & Hrel & Hio2 & Hw2 & Hl2 & Hv2 & Hd2 & _);
    [done|set_solver|done|intros E; rewrite Hbx; by apply Hcl|].
  eexists i, b, _, s2. split_and!; [exact Hr|by apply getb_run|congruence|exact Hrel| | |congruence| |].
  - by replace (∅ : gset nat) with (({[i]} ∪ ∅) ∖ {[i]} : gset nat) by set_solver.
  - exact (wrote_trans _ _ _ _ _ Hw1 Hw2).
  - intros m. by rewrite Hv2, Hv1.
  - intros m. by rewrite Hd2, Hd1.
Qed.

(** The log as it is on disk: header [hd] of a transaction on [bns] with contents [ds]. *)
Record on_disk (L : Z) (bns : list Z) (ds : list (list Z)) (hd : list Z) (disk : list (list Z)) : Prop := {
  od_placed : placed L (Z.of_nat (length disk)) bns;
  od_head : disk !! Z.to_nat L = Some hd ∧ head_is bns hd;
  od_len : length ds = length bns;
  od_data : ∀ k d, ds !! k = Some d → disk !! Z.to_nat (L + Z.of_nat k + 1) = Some d;
}.

(** recover_from_log installs the transaction that the header describes, and then
    empties the header. *)
Lemma recover_run L bns ds hd s :
  io_ok s ∅ → (∀ m, ¬ mod_blocks s m) → on_disk L bns ds hd (k_disk s) →
  lg_dev (k_log s) = 1 → lg_start (k_log s) = L → length (lg_block (k_log s)) = Z.to_nat LOGSIZE →
  ∃ s', recover_from_log s = Ok tt s' ∧ io_ok s' ∅ ∧ log_is L [] (k_log s') ∧ (∀ m, ¬ mod_blocks s' m) ∧
    wrote (home_writes bns ds ++ [(Z.to_nat L, put_head [] hd)]) s s'.
Proof using Hw.
  intros Hio Hm [Hpl [Hhd Hh] Hlen Hds] Hdev HLs Hbl. fold (disk_len s) in Hpl.
  pose proof Hpl as [(HL0 & HLN & HN) Hlt _ _]. assert (0 ≤ L < disk_len s) as HL by (unfold LOGSIZE, MAXOPBLOCKS in *; lia).
  assert (∀ n s', (∀ m, ¬ mod_blocks s' m) → mod_le n s') as Hle.
  { intros n s' Hs'. apply (mod_le_list []); [intros m Hmm; by destruct (Hs' m)|simpl; lia]. }
  assert (∀ m, vw s m = k_disk s !! Z.to_nat m) as Hv by (intros m; by apply view_clean).
  destruct (read_head_run Hw L bns hd s) as (s1 & Hr1 & Hio1 & Hw1 & Hl1 & Hv1 & Hm1);
    [done|done|done|done|done|done|by rewrite Hv|done|done|by apply Hle|]. pose proof (wrote_len _ _ _ Hw1) as HN1.
  assert (∀ m, ¬ mod_blocks s1 m) as Hm1' by (intros m; by rewrite Hm1).
  destruct (install_trans_run Hw L bns ds s1) as (s2 & Hr2 & Hio2 & Hw2 & Hl2 & Hv2 & Hm2);
    [done|done|by rewrite HN1|done|intros k d Hd; rewrite Hv1, Hv; by apply Hds|by apply Hle|right; by apply Hle|].
  pose proof (wrote_len _ _ _ Hw2) as HN2. assert (∀ m, ¬ mod_blocks s2 m) as Hm2' by (intros m; rewrite Hm2; naive_solver).
  set (s2' := s2 <| k_log ::= λ lg, lg <| lg_n := 0 |> |>).
  assert (wrote [] s2 s2') as Hw2' by (split; [by destruct s2|apply woke_refl|done|done]).
  destruct (write_head_run Hw L [] hd s2') as (s3 & Hr3 & Hio3 & Hw3 & Hl3 & Hv3 & Hm3).
  { by destruct Hio2; split. } { apply (log_is_empty L bns). by rewrite Hl2. }
  { change (disk_len s2') with (disk_len s2). lia. } { change (disk_len s2') with (disk_len s2). lia. }
  { change (vw s2' L) with (vw s2 L). rewrite Hv2, Hv1, Hv; [done|lia|].
    destruct Hpl as [_ _ Hhome _]. rewrite list.Forall_forall in Hhome.
    intros [_ ?]%Hhome. unfold LOGSIZE, MAXOPBLOCKS in *; lia. }
  { by apply Hle. }
  exists s3. split_and!; [|done| | |].
  - unfold recover_from_log. rewrite (bind_ok _ _ _ _ _ Hr1), (bind_ok _ _ _ _ _ Hr2). step. exact Hr3.
  - rewrite Hl3. apply (log_is_empty L bns). by rewrite Hl2.
  - intros m [Hmm _]%Hm3. by destruct (Hm2' m).
  - exact (wrote_trans [] _ _ _ _ Hw1 (wrote_trans _ _ _ _ _ Hw2 (wrote_trans [] _ _ _ _ Hw2' Hw3))).
Qed.

(** initlog finds the log from the superblock and recovers. *)
Lemma initlog_run L bns ds hd sb s :
  io_ok s ∅ → (∀ m, ¬ mod_blocks s m) → on_disk L bns ds hd (k_disk s) →
  k_disk s !! 1%nat = Some sb → sb_logstart (parse_sb sb) = L → length (lg_block (k_log s)) = Z.to_nat LOGSIZE →
  ∃ s', initlog 1 s = Ok tt s' ∧ io_ok s' ∅ ∧ log_is L [] (k_log s') ∧ (∀ m, ¬ mod_blocks s' m) ∧
    wrote (home_writes bns ds ++ [(Z.to_nat L, put_head [] hd)]) s s'.
Proof using Hw.
  intros Hio Hm Hod Hsb HLs Hbl. pose proof (lookup_lt_Some _ _ _ Hsb) as H1.
  pose proof Hod as [[(HL0 & HLN & HN) _ _ _] _ _ _].
  destruct (peek_run 1 sb s) as (i & b & s1 & s2 & Hr & Hg & Hd & Hrel & Hio2 & Hw2 & Hl2 & Hv2 & Hm2);
    [done|unfold disk_len; lia|by rewrite view_clean|apply (mod_le_list []); [intros m Hmm; by destruct (Hm m)|simpl; lia]|].
  set (s3 := s2 <| k_log ::= λ lg, lg <| lg_start := s32 (sb_logstart (parse_sb sb)) |>
    <| lg_size := s32 (sb_nlog (parse_sb sb)) |> <| lg_dev := 1 |> |>).
  assert (wrote [] s2 s3) as Hw3 by (split; [by destruct s2|apply woke_refl|done|done]).
  destruct (recover_run L bns ds hd s3) as (s4 & Hrun & Hio4 & Hl4 & Hm4 & Hw4).
  { by destruct Hio2; split. } { intros m. change (¬ mod_blocks s2 m). by rewrite Hm2. }
  { change (k_disk s3) with (k_disk s2). by rewrite (w_disk _ _ _ Hw2). }
  { done. }
  { change (s32 (sb_logstart (parse_sb sb)) = L). rewrite HLs. apply s32_small. unfold LOGSIZE, MAXOPBLOCKS in *. lia. }
  { simpl. by rewrite Hl2. }
  exists s4. split_and!; [|done|done|done|exact (wrote_trans [] _ _ _ _ Hw2 (wrote_trans [] _ _ _ _ Hw3 Hw4))].
  unfold initlog. change (BSIZE <=? 4 + 4 * LOGSIZE) with false. cbv iota.
  erewrite (bind_ok (readsb 1)) with (a := parse_sb sb) (s' := s2).
  - step. exact Hrun.
  - unfold readsb. rewrite (bind_ok _ _ _ _ _ Hr), (bind_ok _ _ _ _ _ Hg), Hd. by rewrite (bind_ok _ _ _ _ _ Hrel).
Qed.
End recovery.

(** ** Crashes *)

(** Block [m] is outside the log. *)
Definition home (L N m : Z) : Prop := 0 ≤ m < N ∧ (m < L ∨ L + LOGSIZE ≤ m).

(** The blocks outside the log of [disk'] are [f]. *)
Definition homes (L : Z) (disk' : list (list Z)) (f : Z → option (list Z)) : Prop :=
  ∀ m, home L (Z.of_nat (length disk')) m → disk' !! Z.to_nat m = f m.

Section crash.
  Context (s : kst) (L : Z) (bns : list Z) (ds : list (list Z)) (hd : list Z).
  Context (Hcm : committing s L bns ds hd).

Lemma cr_len : length ds = length bns.
Proof using Hcm. symmetry. eapply Forall2_length, Hcm. Qed.

Lemma cr_bounds : 0 ≤ L ∧ L + LOGSIZE ≤ disk_len s ∧ disk_len s ≤ 2 ^ 31 ∧ Z.of_nat (length bns) < LOGSIZE.
Proof using Hcm. by destruct Hcm as [_ _ [(? & ? & ?) ? _ _] _ _ _]. Qed.

(** A home block is not a block of the log. *)
Lemma home_not_log m : home L (disk_len s) m → (Z.to_nat m ∉ (log_writes L ds).*1) ∧ Z.to_nat m ≠ Z.to_nat L.
Proof using Hcm.
  intros [Hm Hh]. pose proof cr_bounds as (HL & HLN & _ & Hl). pose proof cr_len as Hlen. split.
  - intros Hin%log_writes_fst; [|done]. lia.
  - unfold LOGSIZE, MAXOPBLOCKS in *. lia.
Qed.

Lemma homes_in m : m ∈ bns → home L (disk_len s) m.
Proof using Hcm. destruct Hcm as [_ _ [_ _ Hh _] _ _ _]. rewrite list.Forall_forall in Hh. apply Hh. Qed.

Lemma home_fst m : m ∈ (home_writes bns ds).*1 → ∃ bn, bn ∈ bns ∧ m = Z.to_nat bn.
Proof using Hcm. rewrite home_writes_fst by apply cr_len. intros (bn & -> & Hbn)%list_elem_of_fmap. eauto. Qed.

Lemma home_nodup : NoDup (home_writes bns ds).*1.
Proof using Hcm.
  rewrite home_writes_fst by apply cr_len. apply nodup_to_nat; [apply Hcm|]. apply list.Forall_forall.
  intros bn [? _]%homes_in. lia.
Qed.

(** The log blocks are not written by the installation. *)
Lemma log_not_home x : L ≤ x < L + LOGSIZE → Z.to_nat x ∉ (home_writes bns ds).*1.
Proof using Hcm.
  intros Hx (bn & Hbn & E)%home_fst. destruct (homes_in _ Hbn) as [? ?]. pose proof cr_bounds as (? & _). lia.
Qed.

(** Once all the homes are written, the blocks are the new ones. *)
Lemma homes_new disk :
  length disk = length (k_disk s) →
  (∀ m, home L (disk_len s) m → m ∉ bns → disk !! Z.to_nat m = k_disk s !! Z.to_nat m) →
  homes L (apply_writes (home_writes bns ds) disk) (vw s).
Proof using Hcm.
  intros Hlen Hold m Hm. rewrite length_apply_writes, Hlen in Hm. fold (disk_len s) in Hm.
  destruct (decide (m ∈ bns)) as [Hin|Hnin].
  - apply list_elem_of_lookup_1 in Hin as (k & Hk). destruct (Forall2_lookup_l _ _ _ _ _ (cm_data _ _ _ _ _ Hcm) Hk) as (d & Hd & Hv).
    rewrite Hv. apply apply_writes_eq; [apply home_nodup|by eapply home_writes_elem|]. destruct Hm as [? _]. unfold disk_len in *. lia.
  - rewrite apply_writes_ne, Hold, view_clean; [done|apply Hcm|by rewrite (cm_mod _ _ _ _ _ Hcm)|done|done|].
    intros (bn & Hbn & E)%home_fst. destruct (homes_in _ Hbn), Hm. assert (m = bn) by lia. congruence.
Qed.

Lemma take_fst k (ws : list (nat * list Z)) m : m ∉ ws.*1 → m ∉ (take k ws).*1.
Proof using. rewrite fmap_take. intros Hm (i & Hi & _)%elem_of_take. apply Hm. by eapply list_elem_of_lookup_2. Qed.

Lemma on_disk_empty disk h :
  length disk = length (k_disk s) → disk !! Z.to_nat L = Some h → lh_n h = 0 → on_disk L [] [] h disk.
Proof using Hcm.
  intros Hlen Hh Hn. pose proof cr_bounds as (HL & HLN & HN & _). split.
  - rewrite Hlen. fold (disk_len s). split; [done|done|constructor|constructor].
  - split; [done|]. by split.
  - done.
  - done.
Qed.

(** A crash before the header is written. *)
Lemma crash_early k :
  let disk := apply_writes (take k (log_writes L ds)) (k_disk s) in
  on_disk L [] [] hd disk ∧
  homes L (apply_writes (home_writes [] [] ++ [(Z.to_nat L, put_head [] hd)]) disk) (λ m, k_disk s !! Z.to_nat m).
Proof using Hcm.
  intros disk. pose proof cr_bounds as (HL & HLN & HN & _). destruct (cm_head _ _ _ _ _ Hcm) as (Hhd & Hn & _). split.
  - apply on_disk_empty; [apply length_apply_writes| |done]. unfold disk. rewrite apply_writes_ne; [done|].
    apply take_fst. intros Hin%log_writes_fst; [lia|done].
  - intros m Hm. rewrite length_apply_writes in Hm. unfold disk in Hm. rewrite length_apply_writes in Hm.
    destruct (home_not_log m Hm) as [Hm1 Hm2]. rewrite apply_writes_ne by (simpl; set_solver).
    unfold disk. rewrite apply_writes_ne; [done|by apply take_fst].
Qed.

(** A crash after the header is written and before it is emptied. *)
Lemma crash_middle j :
  let disk := apply_writes (log_writes L ds ++ (Z.to_nat L, put_head bns hd) :: take j (home_writes bns ds)) (k_disk s) in
  on_disk L bns ds (put_head bns hd) disk ∧
  homes L (apply_writes (home_writes bns ds ++ [(Z.to_nat L, put_head [] (put_head bns hd))]) disk) (vw s).
Proof using Hcm.
  intros disk. pose proof cr_bounds as (HL & HLN & HN & Hl). pose proof cr_len as Hlen.
  destruct (cm_head _ _ _ _ _ Hcm) as (Hhd & Hn & Hsz). pose proof (cm_placed _ _ _ _ _ Hcm) as Hpl.
  assert (length disk = length (k_disk s)) as Hdl by apply length_apply_writes.
  unfold disk in *. rewrite apply_writes_app in *. set (d1 := apply_writes (log_writes L ds) (k_disk s)) in *.
  assert (length d1 = length (k_disk s)) as Hd1 by apply length_apply_writes.
  change (apply_writes ((Z.to_nat L, put_head bns hd) :: take j (home_writes bns ds)) d1) with
    (apply_writes (take j (home_writes bns ds)) (<[Z.to_nat L := put_head bns hd]> d1)) in *.
  split; [split; [by rewrite Hdl|split|done|]|].
  - rewrite apply_writes_ne; [apply list_lookup_insert_eq; unfold disk_len in *; lia|].
    apply take_fst, log_not_home. unfold LOGSIZE, MAXOPBLOCKS in *. lia.
  - split; [apply put_upto_n; rewrite ?Hsz; unfold BSIZE, LOGSIZE, MAXOPBLOCKS in *; lia|].
    intros k bn Hk. apply put_upto_block; [rewrite Hsz; unfold BSIZE, LOGSIZE, MAXOPBLOCKS in *; lia| |done|].
    + apply lookup_lt_Some in Hk. lia.
    + destruct (homes_in bn) as [? _]; [by eapply list_elem_of_lookup_2|lia].
  - intros k d Hd. pose proof (lookup_lt_Some _ _ _ Hd) as Hk. rewrite apply_writes_ne by (apply take_fst, log_not_home; lia).
    rewrite list_lookup_insert_ne by lia. apply apply_writes_eq; [by apply log_writes_nodup|by apply log_writes_elem|].
    unfold disk_len in *. lia.
  - rewrite apply_writes_app. intros m Hm. rewrite !length_apply_writes, length_insert, Hd1 in Hm. fold (disk_len s) in Hm.
    destruct (home_not_log m Hm) as [Hm1 Hm2]. rewrite (apply_writes_ne [_]) by (simpl; set_solver).
    apply homes_new; [done| |by rewrite length_apply_writes, Hdl].
    intros n Hn' Hnb. destruct (home_not_log n Hn') as [Hn1 Hn2]. rewrite apply_writes_ne, list_lookup_insert_ne by
      (done || apply take_fst; intros (bn & Hbn & E)%home_fst; destruct (homes_in _ Hbn), Hn'; assert (n = bn) by lia; congruence).
    unfold d1. by rewrite apply_writes_ne.
Qed.

(** After the last write. *)
Lemma commit_homes : homes L (apply_writes (commit_writes L bns ds hd) (k_disk s)) (vw s).
Proof using Hcm.
  intros m Hm. rewrite length_apply_writes in Hm. destruct (home_not_log m Hm) as [Hm1 Hm2].
  unfold commit_writes. rewrite (app_assoc _ _ [_]), (app_assoc _ _ [_]), apply_writes_app.
  rewrite (apply_writes_ne [_]) by (simpl; set_solver). rewrite !apply_writes_app.
  apply (homes_new (<[Z.to_nat L := put_head bns hd]> (apply_writes (log_writes L ds) (k_disk s)))).
  - by rewrite length_insert, length_apply_writes.
  - intros n Hn' _. destruct (home_not_log n Hn') as [Hn1 Hn2]. by rewrite list_lookup_insert_ne, apply_writes_ne.
  - by rewrite length_apply_writes, length_insert, length_apply_writes.
Qed.

Lemma crash_late :
  let disk := apply_writes (commit_writes L bns ds hd) (k_disk s) in
  let h := put_head [] (put_head bns hd) in
  on_disk L [] [] h disk ∧ homes L (apply_writes (home_writes [] [] ++ [(Z.to_nat L, put_head [] h)]) disk) (vw s).
Proof using Hcm.
  intros disk h. pose proof cr_bounds as (HL & HLN & HN & Hl). destruct (cm_head _ _ _ _ _ Hcm) as (_ & _ & Hsz). split.
  - apply on_disk_empty; [apply length_apply_writes| |].
    + unfold disk, commit_writes. rewrite (app_assoc _ _ [_]), (app_assoc _ _ [_]), apply_writes_app.
      apply list_lookup_insert_eq. simpl. rewrite length_apply_writes. unfold disk_len, LOGSIZE, MAXOPBLOCKS in *. lia.
    + unfold h, put_head at 1. apply put_upto_n; [|done]. unfold put_head. rewrite length_put_upto, Hsz. unfold BSIZE. lia.
  - intros m Hm. rewrite length_apply_writes in Hm. pose proof Hm as Hm'. unfold disk in Hm'. rewrite length_apply_writes in Hm'.
    destruct (home_not_log m Hm') as [Hm1 Hm2]. rewrite apply_writes_ne by (simpl; set_solver). by apply commit_homes.
Qed.

(** The transaction does not write block [m]. *)
Lemma commit_writes_ne m :
  home L (disk_len s) m → m ∉ bns → Z.to_nat m ∉ (commit_writes L bns ds hd).*1.
Proof using Hcm.
  intros Hm Hmb. destruct (home_not_log m Hm) as [Hm1 Hm2]. unfold commit_writes.
  rewrite !fmap_app. simpl. rewrite !elem_of_app, elem_of_cons, elem_of_app, list_elem_of_singleton.
  intros [?|[?|[(bn & Hbn & E)%home_fst|?]]]; try done. destruct (homes_in _ Hbn), Hm. assert (m = bn) by lia. congruence.
Qed.
End crash.

(** *** Rebooting *)

(** The buffers as binit leaves them in zeroed memory. *)
Definition fresh_bufs (bufs : list buf) : Prop :=
  ∃ t t', k_bufs t = replicate (S NBUF) buf0 ∧ binit t = Ok tt t' ∧ bufs = k_bufs t'.

Lemma fresh_cache bufs disk : fresh_bufs bufs → cache bufs disk ∅ ∧ ∀ m, ¬ dirty bufs m.
Proof.
  intros (t & t' & Ht & Hrun & ->). destruct (binit_run t) as (bufs & Hrun' & Hr & Hl & Hc); [by rewrite Ht, length_replicate|].
  rewrite Hrun in Hrun'. injection Hrun' as ->. simpl.
  assert (∀ i b, (i < NBUF)%nat → bufs !! i = Some b → b_dev b = 0 ∧ b_flags b = 0 ∧ b_refcnt b = 0 ∧ b_lock b = Slock false 0) as Hb.
  { intros i b Hi Hb. specialize (Hc i buf0 Hi). rewrite Ht, lookup_replicate_2, Hb in Hc by lia.
    specialize (Hc eq_refl). apply (inj Some) in Hc.
    split_and!; [exact (f_equal b_dev Hc)|exact (f_equal b_flags Hc)|exact (f_equal b_refcnt Hc)|exact (f_equal b_lock Hc)]. }
  split; [split|].
  - done.
  - exists (rev (seq 0 NBUF)). split; [done|]. by rewrite <-Permutation_rev.
  - intros i b Hi Hib. destruct (Hb i b Hi Hib) as (Hd & Hf & Hrc & Hlk). rewrite bool_decide_false by set_solver.
    split_and!; [by rewrite Hlk|done|left; by rewrite Hd].
  - intros bno i j b c Hi Hj Hib Hjc [Hd _]%hit_spec. destruct (Hb i b Hi Hib). congruence.
  - intros m (i & b & Hi & Hib & [Hd _]%hit_spec & _). destruct (Hb i b Hi Hib). congruence.
Qed.

(** The system restarted on [disk], with a process running. *)
Record rebooted (r : kst) (disk : list (list Z)) : Prop := {
  rb_disk : k_disk r = disk;
  rb_bufs : fresh_bufs (k_bufs r);
  rb_held : k_held r = [];
  rb_cur : ∃ c p, k_cur r = Some c ∧ k_ptable r !! c = Some p;
  rb_log : length (lg_block (k_log r)) = Z.to_nat LOGSIZE;
}.

(** Whatever the number of writes that reached the disk, the log on it is well formed,
    and installing it gives the old blocks or the new ones. *)
Lemma crash_point s L bns ds hd k :
  committing s L bns ds hd →
  let disk := apply_writes (take k (commit_writes L bns ds hd)) (k_disk s) in
  ∃ bns' ds' hd', on_disk L bns' ds' hd' disk ∧ length hd' = Z.to_nat BSIZE ∧
    homes L (apply_writes (home_writes bns' ds' ++ [(Z.to_nat L, put_head [] hd')]) disk)
      (if decide (k ≤ length bns)%nat then λ m, k_disk s !! Z.to_nat m else vw s).
Proof.
  intros Hcm disk. pose proof (cr_len _ _ _ _ _ Hcm) as Hlen. destruct (cm_head _ _ _ _ _ Hcm) as (_ & _ & Hsz).
  assert (length (log_writes L ds) = length bns) as Hl1 by (unfold log_writes; rewrite length_imap; lia).
  assert (length (home_writes bns ds) = length bns) as Hl2 by (unfold home_writes; rewrite length_zip_with; lia).
  unfold disk, commit_writes. destruct (decide (k ≤ length bns)%nat) as [Hk|Hk].
  - exists [], [], hd. rewrite take_app_le by lia. destruct (crash_early _ _ _ _ _ Hcm k) as [??]. done.
  - rewrite take_app_ge, Hl1 by lia. replace (k - length bns)%nat with (S (k - length bns - 1))%nat by lia.
    set (j := (k - length bns - 1)%nat). simpl app. cbn [take]. destruct (decide (j ≤ length bns)%nat) as [Hj|Hj].
    + exists bns, ds, (put_head bns hd). rewrite take_app_le by lia.
      destruct (crash_middle _ _ _ _ _ Hcm j) as [??]. split_and!; [done|by unfold put_head; rewrite length_put_upto|done].
    + exists [], [], (put_head [] (put_head bns hd)). rewrite take_ge by (rewrite length_app, Hl2; simpl; lia).
      destruct (crash_late _ _ _ _ _ Hcm) as [??].
      split_and!; [done|unfold put_head; by rewrite !length_put_upto|done].
Qed.

(** initlog on the disk as a crash left it. *)
Lemma recover_crash `{Bound} s L bns ds hd sb k r :
  (0 < wakeups)%nat → committing s L bns ds hd →
  k_disk s !! 1%nat = Some sb → sb_logstart (parse_sb sb) = L → 1 < L → 1 ∉ bns →
  rebooted r (apply_writes (take k (commit_writes L bns ds hd)) (k_disk s)) →
  ∃ r' h, initlog 1 r = Ok tt r' ∧ io_ok r' ∅ ∧ k_disk r' !! Z.to_nat L = Some h ∧ lh_n h = 0 ∧
    length (k_disk r') = length (k_disk r) ∧ homes L (k_disk r') (if decide (k ≤ length bns)%nat then λ m, k_disk s !! Z.to_nat m else vw s).
Proof.
  intros Hw Hcm Hsb HL H1 H1b [Hdk Hb Hh Hc Hlg]. destruct (fresh_cache _ (k_disk r) Hb) as [Hca Hmod].
  destruct (crash_point _ _ _ _ _ k Hcm) as (bns' & ds' & hd' & Hod & Hsz & Hhomes). rewrite <-Hdk in Hod, Hhomes.
  assert (home L (disk_len s) 1) as H1h.
  { destruct (cr_bounds _ _ _ _ _ Hcm) as (_ & ? & _). split; unfold LOGSIZE, MAXOPBLOCKS in *; lia. }
  destruct (initlog_run Hw L bns' ds' hd' sb r) as (r' & Hr & Hio' & _ & _ & Hwr'); [by split|done|done| |done|done|].
  { rewrite Hdk, apply_writes_ne; [done|]. apply take_fst. by apply (commit_writes_ne _ _ _ _ _ Hcm 1). }
  exists r', (put_head [] hd'). rewrite (w_disk _ _ _ Hwr'). split_and!; [done|done| | |by rewrite length_apply_writes|done].
  - rewrite apply_writes_app. apply list_lookup_insert_eq. simpl. rewrite length_apply_writes.
    destruct Hod as [[(? & ? & _) _ _ _] _ _ _]. unfold LOGSIZE, MAXOPBLOCKS in *. lia.
  - apply put_upto_n; [|done]. rewrite Hsz. unfold BSIZE. lia.
Qed.
