(* ===== verification/Txn.v ===== *)
(** * Transactions (log.c)

    [txn s L bns]: no buffer is in use, and the blocks modified since the last commit
    are exactly those recorded in the log, [bns]; [txn_in] is the same while the buffers
    [H] are in use.  The pattern of fs.c - bread, change
    the buffer, log_write, brelse - changes the view of one block and leaves the disk
    alone; end_op of the last call writes the blocks out through commit. *)
From S2P Require Import Prelude Mmu KState Sched Bytes Bio Ring BioThm Log LogThm LogRun Crash.

Record txn_in {H : gset nat} (s : kst) (L : Z) (bns : list Z) : Prop := {
  tx_io : io_ok s H;
  tx_log : log_is L bns (k_log s);
  tx_size : lg_size (k_log s) = LOGSIZE;
  tx_placed : placed L (disk_len s) bns;
  tx_mod : ∀ m, mod_blocks s m ↔ m ∈ bns;
  tx_head : ∃ hd, k_disk s !! Z.to_nat L = Some hd ∧ lh_n hd = 0 ∧ length hd = Z.to_nat BSIZE;
}.

Abbreviation txn := (txn_in (H := ∅)).

(** The blocks of the transaction after block [x] is logged. *)
Definition logging (x : Z) (bns : list Z) : list Z := if decide (x ∈ bns) then bns else bns ++ [x].

Lemma log_is_ok L N bns lg : log_is L bns lg → placed L N bns → log_ok lg.
Proof.
  intros (_ & _ & Hn & Hl & Hlen) [(HL & HLN & HN) Hlt Hh Hnd]. split; rewrite ?Hl, ?Hn; [lia|done| |done].
  rewrite list.Forall_forall in *. intros b [? _]%Hh. lia.
Qed.

Lemma log_record_is L N bns lg x :
  log_is L bns lg → placed L N bns → home L N x → log_is L (logging x bns) (log_record x lg).
Proof.
  intros Hl Hpl [Hx _]. pose proof Hpl as [(HL & HLN & HN) Hlt Hh Hnd].
  pose proof Hl as (Hd & Hs & Hn & Hlg & Hlen).
  destruct (log_record_ok x lg) as [[Hn' Hlen' Hb' Hnd'] Hlg']; [by eapply log_is_ok|lia|lia|].
  rewrite Hlg in Hlg'. fold (logging x bns) in Hlg'.
  split_and!; [unfold log_record; by destruct (_ =? _)|unfold log_record; by destruct (_ =? _)| |done|done].
  rewrite <-Hlg'. unfold logged. rewrite length_take. unfold LOGSIZE, MAXOPBLOCKS in *. lia.
Qed.

Lemma log_record_rest x lg :
  lg_size (log_record x lg) = lg_size lg ∧ lg_outstanding (log_record x lg) = lg_outstanding lg ∧
  lg_committing (log_record x lg) = lg_committing lg.
Proof. unfold log_record. by destruct (_ =? _). Qed.

Lemma placed_logging L N bns x :
  placed L N bns → home L N x → Z.of_nat (length bns) < LOGSIZE - 1 → placed L N (logging x bns).
Proof.
  intros [HL Hlt Hh Hnd] Hx Hroom. unfold logging. case_decide; [by split|]. split; [done| | |].
  - rewrite length_app. simpl. lia.
  - apply Forall_app. split; [done|]. by apply list.Forall_singleton.
  - apply list.NoDup_app. split_and!; [done| |apply NoDup_singleton]. by intros y Hy ->%list_elem_of_singleton.
Qed.

Lemma elem_logging x bns m : m ∈ logging x bns ↔ m ∈ bns ∨ m = x.
Proof. unfold logging. case_decide; [naive_solver|]. rewrite elem_of_app, list_elem_of_singleton. done. Qed.

(** Marking a buffer in use as modified. *)
Lemma mark_dirty i b s H :
  io_ok s H → (i < NBUF)%nat → i ∈ H → k_bufs s !! i = Some b →
  let b' := b <| b_flags ::= λ f, Z.lor f B_DIRTY |> in
  b_flags b' = DIRTY ∧ cache (<[i := b']> (k_bufs s)) (k_disk s) H ∧
  (∀ m, 0 ≤ m → view (<[i := b']> (k_bufs s)) (k_disk s) m = vw s m) ∧
  (∀ m, dirty (<[i := b']> (k_bufs s)) m ↔ mod_blocks s m ∨ m = b_blockno b).
Proof.
  intros [Hc Hh Hcur] Hi HiH Hb b'. assert (i < length (k_bufs s))%nat by (by eapply lookup_lt_Some).
  destruct (c_buf _ _ _ Hc i b Hi Hb) as (Hlk & Hrc & Hst).
  rewrite bool_decide_true in Hlk, Hrc, Hst by done. destruct Hst as [(_ & _ & ?)|(Hd & Hr & Hst)]; [done|].
  assert (b_flags b' = DIRTY) as Hf by (simpl; by destruct Hst as [->|[-> _]]).
  assert (cache (<[i := b']> (k_bufs s)) (k_disk s) H) as Hc'.
  { eapply cache_update; [done|done|done|done|done|done| |].
    - rewrite bool_decide_true by done. split_and!; [done|done|]. right. split_and!; [done|apply Hr|apply Hr|by left].
    - intros m j c Hm Hj Hjl Hcj Hh'. assert (i = j); [|done]. by eapply (c_uniq _ _ _ Hc m). }
  split_and!; [done|done|intros m Hm; by eapply view_take|].
  intros m. split.
  - intros (j & c & Hj & Hcj & Hhit & Hfl). destruct (decide (i = j)) as [<-|Hij].
    + rewrite list_lookup_insert_eq in Hcj by done. injection Hcj as <-. right. by apply hit_spec in Hhit as [_ ?].
    + rewrite list_lookup_insert_ne in Hcj by done. left. by exists j, c.
  - intros [(j & c & Hj & Hcj & Hhit & Hfl)| -> ].
    + destruct (decide (i = j)) as [<-|Hij].
      * rewrite Hb in Hcj. injection Hcj as <-. exists i, b'. by rewrite list_lookup_insert_eq.
      * exists j, c. by rewrite list_lookup_insert_ne.
    + exists i, b'. rewrite list_lookup_insert_eq by done. split_and!; [done|done|by apply hit_spec|done].
Qed.

(** The counters of the log are as before. *)
Definition outs (s s' : kst) : Prop := lg_outstanding (k_log s') = lg_outstanding (k_log s) ∧ lg_committing (k_log s') = lg_committing (k_log s).

Lemma outs_record s s' x : k_log s' = log_record x (k_log s) → outs s s'.
Proof. intros E. unfold outs. rewrite E. by destruct (log_record_rest x (k_log s)) as (_ & -> & ->). Qed.

Lemma outs_trans s1 s2 s3 : outs s1 s2 → outs s2 s3 → outs s1 s3.
Proof. intros [] []. split; congruence. Qed.

Section update.
  Context {BD : Bound} (Hw : (0 < wakeups)%nat).

(** Logging a buffer in use and releasing it. *)
Lemma log_release H i b s L bns :
  txn_in (H := {[i]} ∪ H) s L bns → (i < NBUF)%nat → i ∉ H → k_bufs s !! i = Some b → home L (disk_len s) (b_blockno b) →
  1 ≤ lg_outstanding (k_log s) → Z.of_nat (length bns) < LOGSIZE - 1 →
  ∃ s', (log_write i;; brelse i) s = Ok tt s' ∧ txn_in (H := H) s' L (logging (b_blockno b) bns) ∧ wrote [] s s' ∧
    k_log s' = log_record (b_blockno b) (k_log s) ∧ (∀ m, 0 ≤ m → vw s' m = vw s m) ∧ same_bufs H s s'.
Proof using.
  clear Hw BD. intros [Hio Hlg Hsz Hpl Hmod Hhd] Hi HiH Hb Hhome Ho Hroom.
  destruct (mark_dirty i b s _ Hio Hi) as (Hf & Hc1 & Hv1 & Hd1); [set_solver|done|].
  pose proof Hio as [_ Hh Hcur]. pose proof Hlg as (_ & _ & Hn & _). set (x := b_blockno b) in *.
  pose proof (log_write_run i b s) as Hrun. cbv zeta in Hrun.
  specialize (Hrun ltac:(rewrite Hh; set_solver) Ho ltac:(lia) ltac:(lia) Hb).
  set (b' := b <| b_flags ::= λ f, Z.lor f B_DIRTY |>) in *.
  set (s1 := s <| k_log := log_record x (k_log s) |> <| k_bufs ::= <[i := b']> |>) in *.
  assert (wrote [] s s1) as Hw1 by (split; [by destruct s|apply woke_refl|done|done]).
  destruct (release_read i b' s1 ({[i]} ∪ H)) as (s2 & Hrel & Hio2 & Hw2 & Hl2 & Hv2 & Hm2 & Hc2).
  { by split. } { done. } { set_solver. } { apply list_lookup_insert_eq. by eapply lookup_lt_Some. }
  { rewrite Hf. done. }
  assert (wrote [] s s2) as Hw02 by exact (wrote_trans _ _ _ _ _ Hw1 Hw2).
  pose proof (wrote_len _ _ _ Hw02) as HN.
  exists s2. split_and!; [by rewrite (bind_ok _ _ _ _ _ Hrun)| |done|done| |].
  - split.
    + by replace (({[i]} ∪ H) ∖ {[i]} : gset nat) with H in Hio2 by set_solver.
    + rewrite Hl2. by eapply log_record_is.
    + rewrite Hl2. change (k_log s1) with (log_record x (k_log s)). by rewrite (proj1 (log_record_rest _ _)).
    + rewrite HN. by apply placed_logging.
    + intros m. rewrite Hm2, elem_logging. etransitivity; [apply Hd1|]. by rewrite Hmod.
    + by rewrite (w_disk _ _ _ Hw02).
  - intros m Hm0. rewrite Hv2. by apply Hv1.
  - intros j Hj. assert (i ≠ j) by (by intros ->). rewrite Hc2 by done. simpl. by rewrite list_lookup_insert_ne.
Qed.

(** A transaction while a buffer is edited. *)
Lemma editing_txn H s i x d s' L bns :
  txn_in (H := H) s L bns → editing H s i x d s' → txn_in (H := {[i]} ∪ H) s' L bns.
Proof using.
  clear Hw BD. intros [_ Hlg Hsz Hpl Hmod Hhd] (Hio & Hwr & Hl & _ & _ & _ & Hm & _).
  split; rewrite ?Hl, ?(wrote_len _ _ _ Hwr), ?(w_disk _ _ _ Hwr); try done. intros m. by rewrite Hm.
Qed.

Lemma editing_log H s i x d s' L bns :
  txn_in (H := H) s L bns → editing H s i x d s' → home L (disk_len s) x →
  1 ≤ lg_outstanding (k_log s) → Z.of_nat (length bns) < LOGSIZE - 1 →
  ∃ s'', (log_write i;; brelse i) s' = Ok tt s'' ∧ txn_in (H := H) s'' L (logging x bns) ∧ wrote [] s s'' ∧
    k_log s'' = log_record x (k_log s) ∧
    (∀ m, 0 ≤ m → vw s'' m = if decide (m = x) then Some d else vw s m) ∧ same_bufs H s s''.
Proof using.
  clear Hw BD. intros Htx He Hhome Ho Hroom. pose proof (editing_txn _ _ _ _ _ _ _ _ Htx He) as Htx'.
  destruct He as (_ & Hwr & Hl & [Hi HiH] & (b & Hb & <- & _) & Hv & _ & Hsb).
  destruct (log_release H i b s' L bns) as (s'' & Hrun & Htx'' & Hwr' & Hl' & Hv' & Hsb');
    [done|done|done|done|by rewrite (wrote_len _ _ _ Hwr)|by rewrite Hl|done|].
  exists s''. split_and!; [done|done|exact (wrote_trans _ _ _ _ _ Hwr Hwr')|by rewrite Hl', Hl| |by eapply same_bufs_trans].
  intros m Hm. by rewrite Hv', Hv.
Qed.

(** Changing a buffer in use. *)
Lemma modb_txn H i b f s L bns :
  txn_in (H := H) s L bns → (i < NBUF)%nat → i ∈ H → k_bufs s !! i = Some b →
  let s' := s <| k_bufs ::= <[i := b <| b_data ::= f |>]> |> in
  modb i (λ b, b <| b_data ::= f |>) s = Ok tt s' ∧ txn_in (H := H) s' L bns ∧
  (∀ m, 0 ≤ m → vw s' m = if decide (m = b_blockno b) then Some (f (b_data b)) else vw s m).
Proof using.
  clear Hw BD. intros [Hio Hlg Hsz Hpl Hmod Hhd] Hi HiH Hb s'.
  destruct (modb_data i b f s H Hio Hi HiH Hb) as (Hrun & Hio' & Hv & Hm). split_and!; [done| |done].
  split; try done. intros m. etransitivity; [apply Hm|apply Hmod].
Qed.

(** The room that is left in the cache during a transaction. *)
Lemma txn_can_read H s L bns x :
  txn_in (H := H) s L bns → 0 ≤ x < disk_len s → (size H + length bns < NBUF)%nat →
  (∀ j b, j ∈ H → k_bufs s !! j = Some b → b_blockno b ≠ x) → can_read H x s.
Proof using.
  clear Hw BD. intros [_ _ _ _ Hm _] Hx Hsz Hnh. split_and!; [lia|lia|done| |lia]. apply (mod_le_list bns); [intros m; apply Hm|lia].
Qed.

Lemma update_in_run H x d f s L bns :
  txn_in (H := H) s L bns → home L (disk_len s) x → vw s x = Some d → 1 ≤ lg_outstanding (k_log s) →
  Z.of_nat (length bns) < LOGSIZE - 1 → (size H + length bns < NBUF)%nat →
  (∀ j b, j ∈ H → k_bufs s !! j = Some b → b_blockno b ≠ x) →
  ∃ s', (i <- bread 1 x; modb i (λ b, b <| b_data ::= f |>);; log_write i;; brelse i) s = Ok tt s' ∧
    txn_in (H := H) s' L (logging x bns) ∧ wrote [] s s' ∧ k_log s' = log_record x (k_log s) ∧
    (∀ m, 0 ≤ m → vw s' m = if decide (m = x) then Some (f d) else vw s m) ∧ same_bufs H s s'.
Proof using Hw.
  intros Htx Hx Hd Ho Hroom Hsz Hnh. assert (can_read H x s) as Hcr by (by eapply txn_can_read; [|apply Hx|..]).
  destruct (editing_read H x d s Hw (tx_io _ _ _ Htx) Hd Hcr) as (i & s1 & Hr & He).
  destruct (editing_edit _ _ _ _ _ f _ He) as (s2 & Hm & He2).
  destruct (editing_log H s i x (f d) s2 L bns) as (s3 & Hrun & Htx3 & Hrest); [done..|].
  exists s3. split; [by rewrite (bind_ok _ _ _ _ _ Hr), (bind_ok _ _ _ _ _ Hm)|done].
Qed.

Lemma update_run x d f s L bns :
  txn s L bns → home L (disk_len s) x → vw s x = Some d →
  1 ≤ lg_outstanding (k_log s) → Z.of_nat (length bns) < LOGSIZE - 1 →
  ∃ s', (i <- bread 1 x; modb i (λ b, b <| b_data ::= f |>);; log_write i;; brelse i) s = Ok tt s' ∧
    txn s' L (logging x bns) ∧ wrote [] s s' ∧ k_log s' = log_record x (k_log s) ∧
    (∀ m, 0 ≤ m → vw s' m = if decide (m = x) then Some (f d) else vw s m).
Proof using Hw.
  intros Htx Hx Hd Ho Hroom. destruct (update_in_run ∅ x d f s L bns) as (s' & Hrun & Htx' & Hwr & Hl & Hv & _); try done.
  - rewrite size_empty. unfold LOGSIZE, MAXOPBLOCKS, NBUF in *. lia.
  - by exists s'.
Qed.
End update.

(** ** The end of a transaction *)

(** Every block has contents. *)
Lemma vw_some s H x : io_ok s H → 0 ≤ x < disk_len s → ∃ d, vw s x = Some d.
Proof.
  intros [Hc _ _] Hx. unfold vw. destruct (cached_dec (k_bufs s) x) as [(i & b & Hi & Hb & Hhit)|Hno].
  - exists (b_data b). by eapply view_hit.
  - rewrite view_miss by done. apply lookup_lt_is_Some_2. unfold disk_len in *. lia.
Qed.

Lemma txn_committing s L bns :
  txn s L bns → ∃ ds hd, committing s L bns ds hd.
Proof.
  intros [Hio Hlg _ Hpl Hm (hd & Hhd)].
  assert (∃ ds, Forall2 (λ bn d, vw s bn = Some d) bns ds) as [ds Hds].
  { destruct Hpl as [_ _ Hh _]. rewrite list.Forall_forall in Hh. clear Hm Hlg.
    induction bns as [|bn bns IH]; [by exists []|]. destruct IH as [ds Hds]; [intros x Hx; apply Hh; by right|].
    destruct (vw_some s ∅ bn Hio) as [d Hd]; [apply Hh; by left|]. exists (d :: ds). by constructor. }
  exists ds, hd. by split.
Qed.

Lemma log_is_mod L bns lg lg' :
  lg_dev lg' = lg_dev lg → lg_start lg' = lg_start lg → lg_n lg' = lg_n lg → lg_block lg' = lg_block lg →
  log_is L bns lg → log_is L bns lg'.
Proof. intros E1 E2 E3 E4 (? & ? & ? & ? & ?). unfold log_is, logged. by rewrite E1, E2, E3, E4. Qed.

(** Changes of the log's counters keep the transaction. *)
Lemma txn_log s s' L bns lg :
  txn s L bns → s' = s <| k_log := lg |> → lg_dev lg = lg_dev (k_log s) → lg_start lg = lg_start (k_log s) →
  lg_n lg = lg_n (k_log s) → lg_block lg = lg_block (k_log s) → lg_size lg = lg_size (k_log s) → txn s' L bns.
Proof.
  intros [Hio Hlg Hsz Hpl Hm Hhd] -> E1 E2 E3 E4 E5. split; try done.
  - by destruct Hio; split.
  - by eapply log_is_mod.
  - simpl. congruence.
Qed.

(** The writes of a commit, none when nothing was logged. *)
Definition txn_writes (L : Z) (bns : list Z) (ds : list (list Z)) (hd : list Z) : list (nat * list Z) :=
  match bns with [] => [] | _ => commit_writes L bns ds hd end.

Lemma vw_log s lg m : vw (s <| k_log := lg |>) m = vw s m.
Proof. done. Qed.

Lemma txn_vw_home s L m : txn s L [] → vw s m = k_disk s !! Z.to_nat m.
Proof. intros [Hio _ _ _ Hm _]. apply view_clean; [done|]. rewrite Hm. set_solver. Qed.

Section finish.
  Context {BD : Bound} (Hw : (0 < wakeups)%nat).

Lemma commit_any s L bns ds hd :
  committing s L bns ds hd →
  ∃ s', commit s = Ok tt s' ∧ io_ok s' ∅ ∧ wrote (txn_writes L bns ds hd) s s' ∧
    k_log s' = k_log s <| lg_n := 0 |> ∧ (∀ m, ¬ mod_blocks s' m).
Proof using Hw.
  intros Hcm. destruct (decide (bns = [])) as [->|Hne].
  - exists s. destruct Hcm as [Hio (_ & _ & Hn & _) _ Hm _ _]. simpl in Hn. split_and!; [|done|apply wrote_refl| |].
    + unfold commit. step. by rewrite Hn.
    + destruct (k_log s). simpl in Hn. by subst.
    + intros m. rewrite Hm. set_solver.
  - destruct (commit_run Hw s L bns ds hd Hcm Hne) as (s' & Hs'). exists s'. by destruct bns.
Qed.

(** The header after a commit, and the blocks outside the log. *)
Lemma txn_writes_disk s L bns ds hd :
  committing s L bns ds hd →
  let disk := apply_writes (txn_writes L bns ds hd) (k_disk s) in
  (∃ h, disk !! Z.to_nat L = Some h ∧ lh_n h = 0 ∧ length h = Z.to_nat BSIZE) ∧ homes L disk (vw s).
Proof using.
  clear Hw BD. intros Hcm disk. destruct (cm_head _ _ _ _ _ Hcm) as (Hhd & Hn & Hsz).
  unfold disk, txn_writes. destruct bns as [|bn bns'] eqn:Eb.
  - split; [by exists hd|]. intros m Hm. simpl. symmetry. apply view_clean; [apply Hcm|].
    rewrite (cm_mod _ _ _ _ _ Hcm). set_solver.
  - rewrite <-Eb in *. split; [|by apply commit_homes]. destruct (crash_late _ _ _ _ _ Hcm) as [[_ [Hh [Hn' _]] _ _] _].
    eexists. split_and!; [exact Hh|done|]. unfold put_head. by rewrite !length_put_upto.
Qed.

Lemma end_op_run s L bns :
  txn s L bns → lg_outstanding (k_log s) = 1 → lg_committing (k_log s) = false →
  ∃ s' ds hd, committing s L bns ds hd ∧ end_op s = Ok tt s' ∧ txn s' L [] ∧
    lg_outstanding (k_log s') = 0 ∧ lg_committing (k_log s') = false ∧
    wrote (txn_writes L bns ds hd) s s' ∧ (∀ m, home L (disk_len s) m → vw s' m = vw s m).
Proof using Hw.
  intros Htx Ho Hcf. destruct (txn_committing s L bns Htx) as (ds & hd & Hcm0).
  set (lg1 := k_log s <| lg_outstanding ::= λ n, s32 (n - 1) |> <| lg_committing := true |>).
  set (s1 := s <| k_log := lg1 |>).
  assert (committing s1 L bns ds hd) as Hcm.
  { destruct Hcm0 as [Hio Hlg Hpl Hm Hd Hh]. split; [by destruct Hio; split|by eapply log_is_mod|done..]. }
  destruct (commit_any s1 L bns ds hd Hcm) as (s2 & Hrun & Hio2 & Hw2 & Hl2 & Hm2).
  set (s3 := woken ChLog s2 <| k_log ::= λ lg, lg <| lg_committing := false |> |>).
  pose proof (tx_io _ _ _ Htx) as [_ Hh Hcur]. pose proof (io_held _ _ Hio2) as Hh2.
  assert (wrote [] s2 s3) as Hw3 by (split; [by destruct s2|exact (woke_woken ChLog s2)|done|done]).
  assert (wrote [] s s1) as Hw1 by (split; [by destruct s|apply woke_refl|done|done]).
  assert (wrote (txn_writes L bns ds hd) s s3) as Hw03.
  { pose proof (wrote_trans _ _ _ _ _ (wrote_trans _ _ _ _ _ Hw1 Hw2) Hw3) as Hx. by rewrite app_nil_r in Hx. }
  destruct (txn_writes_disk s L bns ds hd Hcm0) as [Hhead Hhomes]. rewrite <-(w_disk _ _ _ Hw03) in Hhead, Hhomes.
  assert (txn s3 L []) as Htx3.
  { pose proof Htx as [_ Hlg Hsz Hpl _ _]. split.
    - eapply wrote_io; [exact Hw03|done|done|]. apply Hio2.
    - eapply log_is_mod; [| | | |by eapply log_is_empty]; simpl; by rewrite Hl2.
    - simpl. by rewrite Hl2.
    - rewrite (wrote_len _ _ _ Hw03). destruct Hpl. split; [done|done|constructor|constructor].
    - intros m. split; [intros Hmm; by destruct (Hm2 m)|set_solver].
    - done. }
  exists s3, ds, hd. split_and!; [done| |done| | |done|].
  - unfold end_op. run acquire_run; [|rewrite Hh; set_solver]. step. step.
    change (lg_committing (k_log _)) with (lg_committing (k_log s)). rewrite Hcf.
    change (lg_outstanding (k_log _)) with (s32 (lg_outstanding (k_log s) - 1)). rewrite Ho. change (s32 (1 - 1) =? 0) with true. cbv iota.
    step. at_state (s1 <| k_held ::= cons Llog |>). run release_top; [|simpl; rewrite Hh; set_solver].
    cbn [when]. rewrite (bind_ok _ _ _ _ _ Hrun). run acquire_run; [|rewrite Hh2; set_solver]. step.
    run wakeup_run; [|simpl; rewrite Hh2; set_solver]. at_state (s3 <| k_held ::= cons Llog |>).
    apply release_top. simpl. rewrite Hh2. set_solver.
  - simpl. rewrite Hl2. simpl. by rewrite Ho.
  - done.
  - intros m Hm. rewrite (txn_vw_home s3 L m Htx3). apply Hhomes. fold (disk_len s3). by rewrite (wrote_len _ _ _ Hw03).
Qed.
End finish.

(** A restarted system whose log has been initialised is between transactions. *)
Lemma rebooted_txn r disk L :
  rebooted r disk → log_is L [] (k_log r) → lg_size (k_log r) = LOGSIZE → placed L (disk_len r) [] →
  (∃ hd, disk !! Z.to_nat L = Some hd ∧ lh_n hd = 0 ∧ length hd = Z.to_nat BSIZE) → txn r L [].
Proof.
  intros [Hdk Hb Hh Hc _] Hlg Hsz Hpl Hhd. destruct (fresh_cache _ (k_disk r) Hb) as [Hca Hmod].
  split; [by split|done|done|done| |by rewrite Hdk]. intros m. split; [intros Hm; by destruct (Hmod m)|set_solver].
Qed.

(** ** Whole transactions *)

Section transaction.
  Context {BD : Bound}.

(** Changing block [x] inside a transaction, as the routines of fs.c do it. *)
Definition update (x : Z) (f : list Z → list Z) : K unit :=
  i <- bread 1 x; modb i (λ b, b <| b_data ::= f |>);; log_write i;; brelse i.

(** A system call that changes the blocks [us]. *)
Definition transaction (us : list (Z * (list Z → list Z))) : K unit :=
  begin_op;; forM us (λ u, update u.1 u.2);; end_op.

(** What the changes make of the blocks. *)
Definition updated (us : list (Z * (list Z → list Z))) (v : Z → option (list Z)) : Z → option (list Z) :=
  foldl (λ v u m, if decide (m = u.1) then u.2 <$> v m else v m) v us.

Lemma updated_ext us v v' m : v m = v' m → updated us v m = updated us v' m.
Proof using.
  clear BD. unfold updated. revert v v'. induction us as [|u us IH]; intros v v' E; [done|]. simpl. apply IH. by rewrite E.
Qed.

Lemma updates_run (Hw : (0 < wakeups)%nat) us s L bns :
  txn s L bns → Forall (λ u, home L (disk_len s) u.1) us → 1 ≤ lg_outstanding (k_log s) →
  Z.of_nat (length bns + length us) < LOGSIZE →
  ∃ s' bns', forM us (λ u, update u.1 u.2) s = Ok tt s' ∧ txn s' L bns' ∧ wrote [] s s' ∧
    (∀ x, x ∈ bns' → x ∈ bns ∨ x ∈ us.*1) ∧
    lg_outstanding (k_log s') = lg_outstanding (k_log s) ∧ lg_committing (k_log s') = lg_committing (k_log s) ∧
    (∀ m, 0 ≤ m → vw s' m = updated us (vw s) m).
Proof using.
  revert s bns. induction us as [|[x f] us IH]; intros s bns Htx Hh Ho Hl.
  - exists s, bns. split_and!; try done; [apply wrote_refl|auto].
  - apply list.Forall_cons in Hh as [Hx Hh]. simpl in Hx, Hl.
    assert (∃ d, vw s x = Some d) as [d Hd] by (eapply vw_some; [apply Htx|apply Hx]).
    destruct (update_run Hw x d f s L bns) as (s1 & Hr1 & Htx1 & Hw1 & Hl1 & Hv1); [done|done|done|done|lia|].
    pose proof (log_record_rest x (k_log s)) as (_ & Ho1 & Hc1). rewrite <-Hl1 in Ho1, Hc1.
    assert (length (logging x bns) ≤ S (length bns))%nat as Hlen
      by (unfold logging; case_decide; rewrite ?length_app; simpl; lia).
    destruct (IH s1 (logging x bns)) as (s2 & bns2 & Hr2 & Htx2 & Hw2 & Hin2 & Ho2 & Hc2 & Hv2);
      [done|by rewrite (wrote_len _ _ _ Hw1)|lia|lia|].
    exists s2, bns2. split_and!; [|done|exact (wrote_trans [] [] _ _ _ Hw1 Hw2)| |congruence|congruence|].
    + simpl. unfold update at 1. by rewrite (bind_ok _ _ _ _ _ Hr1).
    + intros y [Hy|Hy]%Hin2; [apply elem_logging in Hy as [?| ->]; [by left|right; left]|right; by right].
    + intros m Hm. rewrite Hv2 by done. unfold updated at 2. cbn [foldl]. apply updated_ext. rewrite Hv1 by done.
      simpl. destruct (decide (m = x)) as [->|]; [by rewrite Hd|done].
Qed.

(** The state begin_op leaves when it admits the first system call. *)
Definition opened (s : kst) : kst := s <| k_log ::= λ lg, lg <| lg_outstanding ::= λ n, s32 (n + 1) |> |>.

(** Recovery from the disk as it is after a crash gives the blocks [old] or [new]. *)
Definition recovers (L : Z) (disk : list (list Z)) (old new : Z → option (list Z)) : Prop :=
  ∀ r, rebooted r disk →
    ∃ r' h, initlog 1 r = Ok tt r' ∧ io_ok r' ∅ ∧ k_disk r' !! Z.to_nat L = Some h ∧ lh_n h = 0 ∧
      length (k_disk r') = length disk ∧ (homes L (k_disk r') old ∨ homes L (k_disk r') new).

(** A system call that goes from [opened s] to [s2] by changing the blocks [bns]. *)
Lemma atomic_run s s2 L bns sb :
  (0 < wakeups)%nat → txn s L [] → lg_outstanding (k_log s) = 0 → lg_committing (k_log s) = false →
  txn s2 L bns → k_disk s2 = k_disk s → k_dlog s2 = k_dlog s → outs (opened s) s2 →
  k_disk s !! 1%nat = Some sb → sb_logstart (parse_sb sb) = L → 1 < L → 1 ∉ bns →
  ∃ ws s', begin_op s = Ok tt (opened s) ∧ end_op s2 = Ok tt s' ∧ txn s' L [] ∧
    k_disk s' = apply_writes ws (k_disk s) ∧ k_dlog s' = rev ws ++ k_dlog s ∧ wrote ws s2 s' ∧ homes L (k_disk s') (vw s2) ∧
    ∀ k, recovers L (apply_writes (take k ws) (k_disk s)) (vw s) (vw s2).
Proof using.
  intros Hw Htx Ho Hcf Htx2 Hdk2 Hdl2 [Ho2 Hc2] Hsb HL H1 H1u. pose proof (io_held _ _ (tx_io _ _ _ Htx)) as Hh.
  pose proof (tx_log _ _ _ Htx) as (_ & _ & Hn & _). simpl in Hn.
  assert (lg_outstanding (k_log (opened s)) = 1) as Ho1 by (simpl; by rewrite Ho).
  destruct (end_op_run Hw s2 L bns) as (s3 & ds & hd & Hcm & Hr3 & Htx3 & _ & _ & Hw3 & Hv3); [done|by rewrite Ho2|by rewrite Hc2|].
  exists (txn_writes L bns ds hd), s3. split_and!; [|done|done| | |done| |].
  - apply begin_op_admits; [done|rewrite Hh; set_solver|]. unfold log_busy. by rewrite Hcf, Ho, Hn.
  - rewrite <-Hdk2. apply Hw3.
  - rewrite <-Hdl2. apply Hw3.
  - intros m Hm. rewrite <-(txn_vw_home s3 L m Htx3). apply Hv3. rewrite <-(wrote_len _ _ _ Hw3). exact Hm.
  - intros k r Hr. destruct (recover_crash s2 L bns ds hd sb (if decide (bns = []) then O else k) r) as (r' & h & Hrun & Hio' & Hhd & Hn' & Hlr & Hhm).
    + done. + done. + by rewrite Hdk2. + done. + done. + done.
    + rewrite Hdk2. destruct bns; [cbn [txn_writes] in Hr; rewrite take_nil in Hr; by rewrite decide_True|]. rewrite decide_False by done. exact Hr.
    + exists r', h. split_and!; try done; [by rewrite Hlr, (rb_disk _ _ Hr)|]. case_decide; [left|right].
      * intros m Hm. rewrite Hhm by done. rewrite Hdk2. symmetry. by apply txn_vw_home with L.
      * intros m Hm. by rewrite Hhm.
Qed.

(** C2: a transaction is atomic across crashes.  A system call that changes up to
    MAXOPBLOCKS blocks between begin_op and end_op runs to its end and leaves every
    block outside the log, on disk, as its changes make it.  If the system stops after
    any number [k] of the writes to the disk and is restarted, initlog returns with an
    empty log, and the blocks outside the log are all as before the call or all as
    after it, never a mixture. *)
Theorem transaction_atomic us s L sb :
  (0 < wakeups)%nat → txn s L [] → lg_outstanding (k_log s) = 0 → lg_committing (k_log s) = false →
  Forall (λ u, home L (disk_len s) u.1) us → Z.of_nat (length us) ≤ MAXOPBLOCKS →
  k_disk s !! 1%nat = Some sb → sb_logstart (parse_sb sb) = L → 1 < L → 1 ∉ us.*1 →
  ∃ ws s', transaction us s = Ok tt s' ∧ txn s' L [] ∧
    k_disk s' = apply_writes ws (k_disk s) ∧ k_dlog s' = rev ws ++ k_dlog s ∧
    homes L (k_disk s') (updated us (vw s)) ∧
    ∀ k, recovers L (apply_writes (take k ws) (k_disk s)) (vw s) (updated us (vw s)).
Proof using.
  intros Hw Htx Ho Hcf Hus Hlen Hsb HL H1 H1u. assert (txn (opened s) L []) as Htx1 by (by eapply (txn_log s)).
  destruct (updates_run Hw us (opened s) L []) as (s2 & bns & Hr2 & Htx2 & Hw2 & Hin & Ho2 & Hc2 & Hv2);
    [done|done|simpl; rewrite Ho; done|simpl; unfold LOGSIZE, MAXOPBLOCKS in *; lia|].
  destruct (atomic_run s s2 L bns sb) as (ws & s' & Hb & He & Htx' & Hdk & Hdl & _ & Hhm & Hrec); try done.
  - apply Hw2.
  - apply Hw2.
  - intros [?|?]%Hin; set_solver.
  - exists ws, s'. split_and!; [|done|done|done| |].
    + unfold transaction. by rewrite (bind_ok _ _ _ _ _ Hb), (bind_ok _ _ _ _ _ Hr2).
    + intros m Hm. rewrite Hhm by done. apply Hv2, Hm.
    + intros k r Hr. destruct (Hrec k r Hr) as (r' & h & ? & ? & ? & ? & ? & Hor). exists r', h. split_and!; [done..|].
      destruct Hor as [?|Hnew]; [by left|right]. intros m Hm. rewrite Hnew by done. apply Hv2, Hm.
Qed.
End transaction.
