(* ===== verification/Fs.v ===== *)
(** * The file system (fs.c)

    Blocks, inodes, directories and path names, as fs.c has them over the buffer
    cache and the log.  A [char *] path or name is the list of its characters; a
    directory-entry name is a list of DIRSIZ bytes. *)
From S2P Require Import Prelude Mem CString Mmu Kalloc KState Sched Bytes Bio Log.

Definition T_DIR : Z := 1.
Definition T_FILE : Z := 2.
Definition T_DEV : Z := 3.
Definition ROOTINO : Z := 1.
Definition IPB : Z := 16.
Definition BPB : Z := BSIZE * 8.
Definition DIRSIZ : nat := 14.
Definition MAXFILE : Z := Z.of_nat NDIRECT + Z.of_nat NINDIRECT.
Definition IBLOCK (i : Z) (sb : superblock) : Z := u32 (i `div` IPB + sb_inodestart sb).
Definition BBLOCK (b : Z) (sb : superblock) : Z := u32 (b `div` BPB + sb_bmapstart sb).

(** [devsw]: the device drivers' read and write functions by major number. *)
Class Devices := {
  dev_read : Z → option (nat → Z → K (Z * list Z));
  dev_write : Z → option (nat → list Z → K Z);
}.

Definition geti (i : nat) : K inode := s <- get; deref "icache.inode" (k_icache s !! i).
Definition modi (i : nat) (f : inode → inode) : K unit :=
  x <- geti i; modify (λ s, s <| k_icache ::= <[i := f x]> |>).
Definition ilk (i : nat) : K sleeplock := x <- geti i; ret (i_lock x).
Definition mod_ilk (i : nat) (f : sleeplock → sleeplock) : K unit :=
  modi i (λ x, x <| i_lock ::= f |>).

(** The struct dinode at offset [o] of a block. *)
Record dinode := Dinode {
  d_type : Z; d_major : Z; d_minor : Z; d_nlink : Z; d_size : Z; d_addrs : list Z }.

Definition parse_dinode (o : nat) (d : list Z) : dinode :=
  Dinode (s16 (rd16 o d)) (s16 (rd16 (o + 2) d)) (s16 (rd16 (o + 4) d)) (s16 (rd16 (o + 6) d))
    (rd32 (o + 8) d) ((λ k, rd32 (o + 12 + 4 * k) d) <$> seq 0 (S NDIRECT)).

Definition enc_dinode (x : dinode) : list Z :=
  le_enc 2 (d_type x) ++ le_enc 2 (d_major x) ++ le_enc 2 (d_minor x) ++ le_enc 2 (d_nlink x)
    ++ le_enc 4 (d_size x) ++ concat (le_enc 4 <$> d_addrs x).

Definition dinode_off (inum : Z) : nat := Z.to_nat (64 * (inum `mod` IPB)).

Section fs.
  Context `{Bound} `{Devices}.

(** ** Blocks *)

Definition bzero (dev bno : Z) : K unit :=
  i <- bread dev bno;
  modb i (λ b, b <| b_data := replicate (Z.to_nat BSIZE) 0 |>);;
  log_write i;;
  brelse i.

(** [bp->data[bi/8] & (1 << (bi % 8))] *)
Definition bit_set (d : list Z) (bi : nat) : option bool :=
  (λ x, negb (Z.land x (Z.shiftl 1 (Z.of_nat bi `mod` 8)) =? 0)) <$> d !! (bi / 8)%nat.

(** The inner loop of balloc: the first clear bit of the [n] from [bi]. *)
Fixpoint first_clear (d : list Z) (bi n : nat) : option (option nat) :=
  match n with
  | O => Some None
  | S n =>
      match bit_set d bi with
      | None => None
      | Some true => first_clear d (S bi) n
      | Some false => Some (Some bi)
      end
  end.

(** The outer loop of balloc. *)
Fixpoint balloc_loop (n : nat) (dev b : Z) : K Z :=
  match n with
  | O => λ _, Fuel
  | S n =>
      sb <- gets k_sb;
      if negb (b <? sb_size sb) then panic "balloc: out of blocks" else
      i <- bread dev (BBLOCK b sb);
      x <- getb i;
      r <- deref "bp->data"
             (first_clear (b_data x) 0 (Z.to_nat (Z.min BPB (sb_size sb - b))));
      match r with
      | Some bi =>
          let m := Z.shiftl 1 (Z.of_nat bi `mod` 8) in
          modb i (λ x, x <| b_data ::= alter (λ v, Z.lor v m) (bi / 8)%nat |>);;
          log_write i;;
          brelse i;;
          bzero dev (b + Z.of_nat bi);;
          ret (b + Z.of_nat bi)
      | None => brelse i;; balloc_loop n dev (b + BPB)
      end
  end.

Definition balloc (dev : Z) : K Z :=
  sb <- gets k_sb;
  balloc_loop (S (Z.to_nat (sb_size sb `div` BPB + 1))) dev 0.

Definition bfree (dev b : Z) : K unit :=
  sb <- readsb dev;
  modify (λ s, s <| k_sb := sb |>);;
  i <- bread dev (BBLOCK b sb);
  let bi := Z.to_nat (b `mod` BPB) in
  let m := Z.shiftl 1 (Z.of_nat bi `mod` 8) in
  x <- getb i;
  u <- deref "bp->data" (bit_set (b_data x) bi);
  if negb u then panic "freeing free block" else
  modb i (λ x, x <| b_data ::= alter (λ v, Z.ldiff v m) (bi / 8)%nat |>);;
  log_write i;;
  brelse i.

(** ** Inodes *)

Definition iinit (dev : Z) : K unit :=
  modify (λ s, s <| k_icache ::= fmap (λ x, x <| i_lock := initsleeplock |>) |>);;
  sb <- readsb dev;
  modify (λ s, s <| k_sb := sb |>).

(** The scan of iget: a cached copy, or else the first unused entry. *)
Fixpoint iget_scan (dev inum : Z) (l : list inode) (i : nat) (empty : option nat) : nat + option nat :=
  match l with
  | [] => inr empty
  | x :: l =>
      if (0 <? i_ref x) && (i_dev x =? dev) && (i_inum x =? inum) then inl i
      else iget_scan dev inum l (S i)
             (if (match empty with None => true | Some _ => false end) && (i_ref x =? 0)
              then Some i else empty)
  end.

Definition iget (dev inum : Z) : K nat :=
  acquire Licache;;
  ic <- gets k_icache;
  match iget_scan dev inum ic 0 None with
  | inl i => modi i (λ x, x <| i_ref ::= λ n, s32 (n + 1) |>);; release Licache;; ret i
  | inr None => panic "iget: no inodes"
  | inr (Some i) =>
      modi i (λ x, x <| i_dev := dev |> <| i_inum := inum |> <| i_ref := 1 |> <| i_valid := false |>);;
      release Licache;;
      ret i
  end.

Fixpoint ialloc_loop (n : nat) (dev type inum : Z) : K nat :=
  match n with
  | O => λ _, Fuel
  | S n =>
      sb <- gets k_sb;
      if negb (inum <? sb_ninodes sb) then panic "ialloc: no inodes" else
      i <- bread dev (IBLOCK inum sb);
      b <- getb i;
      if d_type (parse_dinode (dinode_off inum) (b_data b)) =? 0 then
        modb i (λ b, b <| b_data ::= λ d,
          wr16 (dinode_off inum) type (list_inserts (dinode_off inum) (replicate 64 0) d) |>);;
        log_write i;;
        brelse i;;
        iget dev inum
      else brelse i;; ialloc_loop n dev type (inum + 1)
  end.

Definition ialloc (dev type : Z) : K nat :=
  sb <- gets k_sb;
  ialloc_loop (S (Z.to_nat (sb_ninodes sb))) dev type 1.

Definition iupdate (ip : nat) : K unit :=
  x <- geti ip;
  sb <- gets k_sb;
  i <- bread (i_dev x) (IBLOCK (i_inum x) sb);
  let di := Dinode (i_type x) (i_major x) (i_minor x) (i_nlink x) (i_size x) (i_addrs x) in
  modb i (λ b, b <| b_data ::= list_inserts (dinode_off (i_inum x)) (enc_dinode di) |>);;
  log_write i;;
  brelse i.

Definition idup (ip : nat) : K nat :=
  acquire Licache;;
  modi ip (λ x, x <| i_ref ::= λ n, s32 (n + 1) |>);;
  release Licache;;
  ret ip.

Definition ilock (ip : nat) : K unit :=
  x <- geti ip;
  if i_ref x <? 1 then panic "ilock" else
  acquiresleep (ChInode ip) (ilk ip) (mod_ilk ip);;
  x <- geti ip;
  when (negb (i_valid x))
    (sb <- gets k_sb;
     i <- bread (i_dev x) (IBLOCK (i_inum x) sb);
     b <- getb i;
     let di := parse_dinode (dinode_off (i_inum x)) (b_data b) in
     modi ip (λ x, x <| i_type := d_type di |> <| i_major := d_major di |>
                     <| i_minor := d_minor di |> <| i_nlink := d_nlink di |>
                     <| i_size := d_size di |> <| i_addrs := d_addrs di |>);;
     brelse i;;
     modi ip (λ x, x <| i_valid := true |>);;
     if d_type di =? 0 then panic "ilock: no type" else ret tt).

Definition iunlock (ip : nat) : K unit :=
  h <- holdingsleep (ChInode ip) (ilk ip);
  x <- geti ip;
  if negb h || (i_ref x <? 1) then panic "iunlock" else
  releasesleep (ChInode ip) (mod_ilk ip).

(** Writing [ip->addrs[k] = v]. *)
Definition set_addr (ip k : nat) (v : Z) : K unit :=
  modi ip (λ x, x <| i_addrs ::= <[k := v]> |>).

Definition get_addr (ip k : nat) : K Z :=
  x <- geti ip; deref "ip->addrs" (i_addrs x !! k).

(** [if ((addr = ip->addrs[k]) == 0) ip->addrs[k] = addr = balloc(ip->dev)] *)
Definition addr_alloc (ip k : nat) : K Z :=
  addr <- get_addr ip k;
  if addr =? 0 then
    x <- geti ip;
    addr <- balloc (i_dev x);
    set_addr ip k addr;;
    ret addr
  else ret addr.

Definition bmap (ip : nat) (bn : Z) : K Z :=
  if bn <? Z.of_nat NDIRECT then addr_alloc ip (Z.to_nat bn) else
  let bn := bn - Z.of_nat NDIRECT in
  if bn <? Z.of_nat NINDIRECT then
    addr <- addr_alloc ip NDIRECT;
    x <- geti ip;
    i <- bread (i_dev x) addr;
    b <- getb i;
    let o := Z.to_nat (4 * bn) in
    let addr := rd32 o (b_data b) in
    r <- (if addr =? 0 then
            a <- balloc (i_dev x);
            modb i (λ b, b <| b_data ::= wr32 o a |>);;
            log_write i;;
            ret a
          else ret addr);
    brelse i;;
    ret r
  else panic "bmap: out of range".

Definition itrunc (ip : nat) : K unit :=
  forM (seq 0 NDIRECT) (λ k,
    addr <- get_addr ip k;
    when (negb (addr =? 0))
      (x <- geti ip; bfree (i_dev x) addr;; set_addr ip k 0));;
  addr <- get_addr ip NDIRECT;
  when (negb (addr =? 0))
    (x <- geti ip;
     i <- bread (i_dev x) addr;
     forM (seq 0 NINDIRECT) (λ j,
       b <- getb i;
       let a := rd32 (4 * j) (b_data b) in
       when (negb (a =? 0)) (bfree (i_dev x) a));;
     brelse i;;
     bfree (i_dev x) addr;;
     set_addr ip NDIRECT 0);;
  modi ip (λ x, x <| i_size := 0 |>);;
  iupdate ip.

Definition iput (ip : nat) : K unit :=
  acquiresleep (ChInode ip) (ilk ip) (mod_ilk ip);;
  x <- geti ip;
  when (i_valid x && (i_nlink x =? 0))
    (acquire Licache;;
     x <- geti ip;
     release Licache;;
     when (i_ref x =? 1)
       (itrunc ip;;
        modi ip (λ x, x <| i_type := 0 |>);;
        iupdate ip;;
        modi ip (λ x, x <| i_valid := false |>)));;
  releasesleep (ChInode ip) (mod_ilk ip);;
  acquire Licache;;
  modi ip (λ x, x <| i_ref ::= λ n, s32 (n - 1) |>);;
  release Licache.

Definition iunlockput (ip : nat) : K unit := iunlock ip;; iput ip.

(** stati: dev, ino, type, nlink, size. *)
Definition stati (ip : nat) : K (Z * Z * Z * Z * Z) :=
  x <- geti ip; ret (i_dev x, i_inum x, i_type x, i_nlink x, i_size x).

(** The copying loop of readi; [acc] is what has been copied to [dst]. *)
Fixpoint readi_loop (k : nat) (ip : nat) (off n tot : Z) (acc : list Z) : K (list Z) :=
  match k with
  | O => λ _, Fuel
  | S k =>
      if negb (tot <? n) then ret acc else
      bn <- bmap ip (off `div` BSIZE);
      x <- geti ip;
      i <- bread (i_dev x) bn;
      let m := Z.min (n - tot) (BSIZE - off `mod` BSIZE) in
      b <- getb i;
      brelse i;;
      readi_loop k ip (u32 (off + m)) n (tot + m)
        (acc ++ slice (Z.to_nat (off `mod` BSIZE)) (Z.to_nat m) (b_data b))
  end.

Definition readi (ip : nat) (off n : Z) : K (Z * list Z) :=
  x <- geti ip;
  if i_type x =? T_DEV then
    if (i_major x <? 0) || (NDEV <=? i_major x) then ret (-1, []) else
    match dev_read (i_major x) with
    | None => ret (-1, [])
    | Some rd => rd ip n
    end
  else
  if (i_size x <? off) || (u32 (off + n) <? off) then ret (-1, []) else
  let n := if i_size x <? u32 (off + n) then u32 (i_size x - off) else n in
  d <- readi_loop (S (S (Z.to_nat (n `div` BSIZE + 1)))) ip off n 0 [];
  ret (s32 n, d).

(** The copying loop of writei; gives the final [off]. *)
Fixpoint writei_loop (k : nat) (ip : nat) (off n tot : Z) (src : list Z) : K Z :=
  match k with
  | O => λ _, Fuel
  | S k =>
      if negb (tot <? n) then ret off else
      bn <- bmap ip (off `div` BSIZE);
      x <- geti ip;
      i <- bread (i_dev x) bn;
      let m := Z.min (n - tot) (BSIZE - off `mod` BSIZE) in
      modb i (λ b, b <| b_data ::= list_inserts (Z.to_nat (off `mod` BSIZE)) (take (Z.to_nat m) src) |>);;
      log_write i;;
      brelse i;;
      writei_loop k ip (u32 (off + m)) n (tot + m) (drop (Z.to_nat m) src)
  end.

Definition writei (ip : nat) (src : list Z) (off n : Z) : K Z :=
  x <- geti ip;
  if i_type x =? T_DEV then
    if (i_major x <? 0) || (NDEV <=? i_major x) then ret (-1) else
    match dev_write (i_major x) with
    | None => ret (-1)
    | Some w => w ip src
    end
  else
  if (i_size x <? off) || (u32 (off + n) <? off) then ret (-1) else
  if MAXFILE * BSIZE <? u32 (off + n) then ret (-1) else
  off <- writei_loop (S (S (Z.to_nat (n `div` BSIZE + 1)))) ip off n 0 src;
  x <- geti ip;
  when ((0 <? n) && (i_size x <? off))
    (modi ip (λ x, x <| i_size := off |>);; iupdate ip);;
  ret (s32 n).

(** ** Directories *)

(** struct dirent: [inum], then [name[DIRSIZ]]. *)
Definition de_inum (d : list Z) : Z := rd16 0 d.
Definition de_name (d : list Z) : list Z := slice 2 DIRSIZ d.
Definition enc_dirent (inum : Z) (name : list Z) : list Z := le_enc 2 inum ++ name.

Definition namecmp (s t : list Z) : option Z := strncmp s t DIRSIZ.

Fixpoint dirlookup_loop (n dp : nat) (name : list Z) (off : Z) : K (option (nat * Z)) :=
  match n with
  | O => λ _, Fuel
  | S n =>
      x <- geti dp;
      if negb (off <? i_size x) then ret None else
      r <- readi dp off 16;
      if negb (r.1 =? 16) then panic "dirlookup read" else
      if de_inum r.2 =? 0 then dirlookup_loop n dp name (u32 (off + 16)) else
      c <- deref "namecmp" (namecmp name (de_name r.2));
      if c =? 0 then i <- iget (i_dev x) (de_inum r.2); ret (Some (i, off))
      else dirlookup_loop n dp name (u32 (off + 16))
  end.

Definition dirlookup (dp : nat) (name : list Z) : K (option (nat * Z)) :=
  x <- geti dp;
  if negb (i_type x =? T_DIR) then panic "dirlookup not DIR" else
  dirlookup_loop (S (Z.to_nat (i_size x `div` 16 + 1))) dp name 0.

(** The search of dirlink for an unused entry: its offset. *)
Fixpoint dirlink_scan (n dp : nat) (off : Z) : K Z :=
  match n with
  | O => λ _, Fuel
  | S n =>
      x <- geti dp;
      if negb (off <? i_size x) then ret off else
      r <- readi dp off 16;
      if negb (r.1 =? 16) then panic "dirlink read" else
      if de_inum r.2 =? 0 then ret off else dirlink_scan n dp (off + 16)
  end.

Definition dirlink (dp : nat) (name : list Z) (inum : Z) : K Z :=
  r <- dirlookup dp name;
  match r with
  | Some (ip, _) => iput ip;; ret (-1)
  | None =>
      x <- geti dp;
      off <- dirlink_scan (S (Z.to_nat (i_size x `div` 16 + 1))) dp 0;
      nm <- deref "strncpy" (strncpy (replicate DIRSIZ 0) name DIRSIZ);
      w <- writei dp (enc_dirent inum nm) off 16;
      if negb (w =? 16) then panic "dirlink" else ret 0
  end.

(** ** Paths *)

Definition SLASH : Z := 47.
Definition DOT : Z := 46.

Fixpoint skip_slashes (path : list Z) : list Z :=
  match path with
  | c :: p => if c =? SLASH then skip_slashes p else path
  | [] => []
  end.

(** The element at the front of a path, and the rest. *)
Fixpoint split_elem (path : list Z) : list Z * list Z :=
  match path with
  | [] => ([], [])
  | c :: p => if c =? SLASH then ([], path) else let '(e, r) := split_elem p in (c :: e, r)
  end.

(** [name] is the buffer of DIRSIZ bytes the element is copied to. *)
Definition skipelem (path name : list Z) : option (list Z * list Z) :=
  match skip_slashes path with
  | [] => None
  | p =>
      let '(s, r) := split_elem p in
      let name := if Nat.leb DIRSIZ (length s) then take DIRSIZ s
                  else list_inserts 0 (s ++ [0]) name in
      Some (skip_slashes r, name)
  end.

Fixpoint namex_loop (n ip : nat) (parent : bool) (path name : list Z) : K (option (nat * list Z)) :=
  match n with
  | O => λ _, Fuel
  | S n =>
      match skipelem path name with
      | None => if parent then iput ip;; ret None else ret (Some (ip, name))
      | Some (path, name) =>
          x <- geti ip;
          if i_ref x <? 1 then ret None else
          ilock ip;;
          x <- geti ip;
          if negb (i_type x =? T_DIR) then iunlockput ip;; ret None else
          if parent && bool_decide (path = []) then iunlock ip;; ret (Some (ip, name)) else
          r <- dirlookup ip name;
          match r with
          | None => iunlockput ip;; ret None
          | Some (next, _) =>
              y <- geti next;
              iunlockput ip;;
              if i_ref y <? 1 then ret None else namex_loop n next parent path name
          end
      end
  end.

(** The inode a path starts from, and the path, which namex overwrites with "."
    when a process in a container passes exactly "..". *)
Definition namex_start (path : list Z) : K (nat * list Z) :=
  s <- get;
  match k_cur s with
  | None =>
      if bool_decide (head path = Some SLASH) then i <- iget ROOTDEV ROOTINO; ret (i, path)
      else undef "myproc()->cwd"
  | Some c =>
      p <- getp c;
      if 0 <? p_container_id p then
        let path := if bool_decide (path = [DOT; DOT]) then [DOT] else path in
        if bool_decide (head path = Some SLASH) then
          ci <- deref "p->container" (p_container p);
          co <- deref "containers.Arr" (k_containers s !! ci);
          r <- deref "container->root" (c_root co);
          i <- idup r; ret (i, path)
        else r <- deref "cwd" (p_cwd p); i <- idup r; ret (i, path)
      else
        if bool_decide (head path = Some SLASH) then i <- iget ROOTDEV ROOTINO; ret (i, path)
        else r <- deref "cwd" (p_cwd p); i <- idup r; ret (i, path)
  end.

Definition namex (path : list Z) (parent : bool) : K (option (nat * list Z)) :=
  r <- namex_start path;
  namex_loop (S (length r.2)) r.1 parent r.2 (replicate DIRSIZ 0).

Definition namei (path : list Z) : K (option nat) :=
  r <- namex path false; ret (fst <$> r).

Definition nameiparent (path : list Z) : K (option (nat * list Z)) := namex path true.

Definition copy_file (dir file : list Z) : K Z :=
  d <- namei dir;
  f <- namei file;
  f <- deref "file_inode" f;
  x <- geti f;
  d <- deref "dir_inode" d;
  r <- dirlink d (cz file) (i_inum x);
  if r <? 0 then ret 0 else ret 1.

End fs.
