(* ===== verification/FsThm.v ===== *)
(** * Paths, the inode format and the block bitmap

    What the pieces of fs.c that do not depend on the buffer cache compute: the path
    elements namex walks, the on-disk form of an inode, the bits balloc and bfree
    change, and the inode a path of a container starts from. *)
From S2P Require Import Prelude CString KState Sched Bytes Bio Log Fs.

(** ** Path elements *)

(** The elements of a path: the pieces that are not empty. *)
Definition path_elems (path : list Z) : list (list Z) := filter (.≠ []) (split_on SLASH path).

Lemma path_elems_slash p : path_elems (SLASH :: p) = path_elems p.
Proof. unfold path_elems. simpl. by rewrite filter_cons_False by (intros ?; done). Qed.

Lemma path_elems_skip p : path_elems (skip_slashes p) = path_elems p.
Proof.
  induction p as [|c p IH]; [done|]. cbn [skip_slashes]. destruct (c =? SLASH) eqn:E; [|done].
  apply Z.eqb_eq in E as ->. by rewrite path_elems_slash.
Qed.

Lemma skip_slashes_head p : skip_slashes p = [] ∨ ∃ c r, skip_slashes p = c :: r ∧ c ≠ SLASH.
Proof.
  induction p as [|c p IH]; [by left|]. cbn [skip_slashes]. destruct (c =? SLASH) eqn:E; [done|].
  right. exists c, p. split; [done|]. by apply Z.eqb_neq.
Qed.

Lemma split_elem_spec p e r :
  split_elem p = (e, r) → p = e ++ r ∧ (SLASH ∉ e) ∧ (r = [] ∨ ∃ r', r = SLASH :: r').
Proof.
  revert e r. induction p as [|c p IH]; intros e r E; simpl in E.
  - injection E as <- <-. split_and!; [done|set_solver|by left].
  - destruct (c =? SLASH) eqn:Ec.
    + injection E as <- <-. apply Z.eqb_eq in Ec as ->. split_and!; [done|set_solver|eauto].
    + destruct (split_elem p) as [e' r']. injection E as <- <-. apply Z.eqb_neq in Ec.
      destruct (IH e' r' eq_refl) as (-> & ? & ?). split_and!; [done| |done].
      apply not_elem_of_cons. split; [congruence|done].
Qed.

Lemma split_on_app e r :
  SLASH ∉ e → (r = [] ∨ ∃ r', r = SLASH :: r') →
  split_on SLASH (e ++ r) = e :: match r with [] => [] | _ :: r' => split_on SLASH r' end.
Proof.
  intros He Hr. induction e as [|c e IH]; simpl.
  - destruct Hr as [->|[r' ->]]; done.
  - apply not_elem_of_cons in He as [??]. rewrite (proj2 (Z.eqb_neq _ _)) by congruence.
    by rewrite IH.
Qed.

Lemma path_elems_app e r :
  e ≠ [] → SLASH ∉ e → (r = [] ∨ ∃ r', r = SLASH :: r') → path_elems (e ++ r) = e :: path_elems r.
Proof.
  intros Hne He Hr. unfold path_elems. rewrite split_on_app by done. rewrite filter_cons_True by done.
  f_equal. destruct Hr as [->|[r' ->]]; simpl; [by rewrite filter_cons_False by (intros ?; done)|].
  by rewrite filter_cons_False by (intros ?; done).
Qed.

Lemma path_elems_nonempty c p : c ≠ SLASH → path_elems (c :: p) ≠ [].
Proof.
  intros Hc. unfold path_elems. cbn [split_on]. rewrite (proj2 (Z.eqb_neq _ _)) by done.
  destruct (split_on SLASH p); by rewrite filter_cons_True.
Qed.

Lemma skip_slashes_suffix p : ∃ pre, p = pre ++ skip_slashes p.
Proof.
  induction p as [|c p [pre IH]]; [by exists []|]. cbn [skip_slashes].
  destruct (c =? SLASH); [|by exists []]. exists (c :: pre). simpl. by rewrite <-IH.
Qed.

(** What the name buffer holds for the element [e]: the string, or its first DIRSIZ
    bytes without a NUL. *)
Definition holds_elem (name e : list Z) : Prop :=
  length name = DIRSIZ ∧ if decide (length e < DIRSIZ)%nat then cstr name = Some e else name = take DIRSIZ e.

Lemma holds_elem_copy e name :
  chars e → length name = DIRSIZ →
  holds_elem (if Nat.leb DIRSIZ (length e) then take DIRSIZ e else list_inserts 0 (e ++ [0]) name) e.
Proof.
  intros He Hn. unfold holds_elem. destruct (decide _) as [Hlt|Hge].
  - rewrite leb_correct_conv by done. split; [by rewrite length_inserts|].
    rewrite <-(take_drop (S (length e)) name), list_inserts_0_r
      by (rewrite length_app, length_take; cbn [length]; lia).
    rewrite <-app_assoc. simpl. by apply cstr_app.
  - rewrite leb_correct by lia. split; [|done]. rewrite length_take. lia.
Qed.

(** Skipelem agrees with the reference definition of a path's elements: it fails
    exactly on a path without elements; otherwise it copies the first element to the
    name buffer (cut to DIRSIZ bytes) and returns a path with the other elements,
    which is empty exactly when there are none. *)
Theorem skipelem_elems path name :
  chars path → length name = DIRSIZ →
  match path_elems path with
  | [] => skipelem path name = None
  | e :: es => ∃ rest name', skipelem path name = Some (rest, name') ∧ holds_elem name' e ∧
      path_elems rest = es ∧ (rest = [] ↔ es = []) ∧ chars rest ∧ (length rest < length path)%nat
  end.
Proof.
  intros Hc Hn. rewrite <-path_elems_skip. unfold skipelem.
  destruct (skip_slashes_suffix path) as [pre Hpre].
  destruct (skip_slashes_head path) as [->|(c & r & E & Hs)]; [done|]. rewrite E in *.
  destruct (split_elem (c :: r)) as [e t] eqn:Es. pose proof (split_elem_spec _ _ _ Es) as (Happ & He & Ht).
  assert (e ≠ []) as Hne.
  { intros ->. simpl in Happ. subst t. destruct Ht as [?|[??]]; congruence. }
  rewrite Hpre, Happ in Hc. apply Forall_app in Hc as [_ [Hce Hct]%Forall_app].
  rewrite Happ, path_elems_app by done.
  exists (skip_slashes t). eexists. split; [done|]. split; [by apply holds_elem_copy|].
  rewrite path_elems_skip. split; [done|]. destruct (skip_slashes_suffix t) as [pre' Hpre']. split_and!.
  - rewrite <-path_elems_skip. destruct (skip_slashes_head t) as [->|(c' & r' & -> & Hc')]; [done|].
    split; [done|]. by intros ?%path_elems_nonempty.
  - rewrite Hpre' in Hct. by apply Forall_app in Hct as [_ ?].
  - apply (f_equal length) in Hpre'. rewrite Hpre, Happ, !length_app. rewrite length_app in Hpre'.
    destruct e; [done|simpl; lia].
Qed.

(** ** Inodes on disk *)

Definition int16 (v : Z) : Prop := - 2 ^ 15 ≤ v < 2 ^ 15.

(** The values a struct dinode can hold. *)
Record dinode_ok (x : dinode) : Prop := {
  dk_type : int16 (d_type x); dk_major : int16 (d_major x);
  dk_minor : int16 (d_minor x); dk_nlink : int16 (d_nlink x);
  dk_size : 0 ≤ d_size x < 2 ^ 32;
  dk_addrs : Forall (λ a, 0 ≤ a < 2 ^ 32) (d_addrs x);
  dk_len : length (d_addrs x) = S NDIRECT;
}.

Lemma rd_inserts n k o bs d :
  (k + n ≤ length bs)%nat → (o + length bs ≤ length d)%nat →
  rd n (o + k) (list_inserts o bs d) = rd n k bs.
Proof.
  intros Hk Ho. unfold rd. f_equal. apply list_eq. intros i. destruct (decide (i < n)%nat).
  - rewrite !lookup_slice by done. rewrite list_lookup_inserts by lia. f_equal. lia.
  - unfold slice. by rewrite !lookup_take_ge by lia.
Qed.

Lemma s16_enc v : int16 v → s16 (le_dec (le_enc 2 v)) = v.
Proof.
  intros Hv. rewrite le_dec_enc. unfold s16, int16 in *. change (256 ^ Z.of_nat 2) with (2 ^ 16).
  rewrite Zplus_mod_idemp_l, Z.mod_small; lia.
Qed.

Lemma u32_enc v : 0 ≤ v < 2 ^ 32 → le_dec (le_enc 4 v) = v.
Proof. intros Hv. rewrite le_dec_enc. by apply Z.mod_small. Qed.

Lemma parse_enc_dinode x : dinode_ok x → parse_dinode 0 (enc_dinode x) = x.
Proof.
  intros [? ? ? ? ? Ha Hl]. destruct x as [ty ma mi nl sz ad]; simpl in *. unfold NDIRECT in Hl.
  do 13 (destruct ad as [|? ad]; [discriminate Hl|]). destruct ad; [clear Hl|discriminate Hl].
  rewrite !list.Forall_cons in Ha. destruct_and! Ha.
  transitivity (Dinode (s16 (le_dec (le_enc 2 ty))) (s16 (le_dec (le_enc 2 ma))) (s16 (le_dec (le_enc 2 mi)))
    (s16 (le_dec (le_enc 2 nl))) (le_dec (le_enc 4 sz)) ((λ a, le_dec (le_enc 4 a)) <$>
      [z; z0; z1; z2; z3; z4; z5; z6; z7; z8; z9; z10; z11])); [reflexivity|].
  cbn [fmap list_fmap]. by rewrite !s16_enc, !u32_enc.
Qed.

Lemma length_concat_enc l : length (concat (le_enc 4 <$> l)) = (4 * length l)%nat.
Proof. induction l as [|a l IH]; [done|]. cbn [fmap list_fmap concat]. rewrite length_app, length_le_enc, IH. simpl. lia. Qed.

Lemma length_enc_dinode x : dinode_ok x → length (enc_dinode x) = 64%nat.
Proof.
  intros Hx. unfold enc_dinode. by rewrite !length_app, !length_le_enc, length_concat_enc, (dk_len _ Hx).
Qed.

Lemma parse_dinode_ext o o' d d' :
  (∀ n k, (k + n ≤ 64)%nat → rd n (o + k) d = rd n (o' + k) d') → parse_dinode o d = parse_dinode o' d'.
Proof.
  intros Hr. unfold parse_dinode. rewrite !(Hr 2%nat), (Hr 4%nat) by lia. f_equal.
  - f_equal. pose proof (Hr 2%nat 0%nat) as E. rewrite !Nat.add_0_r in E. apply E. lia.
  - apply list_fmap_ext. intros i k Hk%lookup_seq. unfold NDIRECT in Hk.
    rewrite <-!Nat.add_assoc. apply Hr. lia.
Qed.

Lemma inode_slot d x inum inum' :
  length d = Z.to_nat BSIZE → dinode_ok x → 0 ≤ inum → 0 ≤ inum' →
  let d' := list_inserts (dinode_off inum) (enc_dinode x) d in
  parse_dinode (dinode_off inum) d' = x ∧
  (inum `mod` IPB ≠ inum' `mod` IPB →
   parse_dinode (dinode_off inum') d' = parse_dinode (dinode_off inum') d).
Proof.
  intros Hd Hx Hi Hi' d'. pose proof (length_enc_dinode x Hx) as Hl.
  change (Z.to_nat BSIZE) with 1024%nat in Hd. unfold d', dinode_off, IPB.
  pose proof (Z.mod_pos_bound inum 16). pose proof (Z.mod_pos_bound inum' 16). split.
  - rewrite <-(parse_enc_dinode x) at 2 by done. apply parse_dinode_ext. intros n k Hk.
    apply rd_inserts; lia.
  - intros Hne. apply parse_dinode_ext. intros n k Hk. unfold rd. f_equal.
    apply slice_inserts_ne. lia.
Qed.

(** Writing an inode to its slot of an inode block and reading it back gives the
    same inode, and leaves the other inodes of the block alone. *)
Theorem dinode_roundtrip d x inum inum' :
  length d = Z.to_nat BSIZE → dinode_ok x → 0 ≤ inum → 0 ≤ inum' →
  let d' := list_inserts (dinode_off inum) (enc_dinode x) d in
  parse_dinode (dinode_off inum) d' = x ∧
  (inum `mod` IPB ≠ inum' `mod` IPB →
   parse_dinode (dinode_off inum') d' = parse_dinode (dinode_off inum') d).
Proof. apply inode_slot. Qed.

(** ** The bitmap of free blocks *)

Lemma land_bit x k : 0 ≤ k → negb (Z.land x (Z.shiftl 1 k) =? 0) = Z.testbit x k.
Proof.
  intros Hk. rewrite Z.shiftl_1_l. destruct (Z.testbit x k) eqn:E.
  - rewrite (proj2 (Z.eqb_neq _ _)); [done|]. intros H0. apply (f_equal (λ z, Z.testbit z k)) in H0.
    by rewrite Z.land_spec, E, Z.pow2_bits_true, Z.bits_0 in H0 by done.
  - rewrite (proj2 (Z.eqb_eq _ _)); [done|]. apply Z.bits_inj'. intros j Hj.
    rewrite Z.land_spec, Z.bits_0, Z.pow2_bits_eqb by done.
    destruct (Z.eqb_spec k j) as [<-|]; [by rewrite E|by rewrite andb_false_r].
Qed.

Lemma bit_set_testbit d bi :
  bit_set d bi = (λ x, Z.testbit x (Z.of_nat bi `mod` 8)) <$> d !! (bi / 8)%nat.
Proof.
  unfold bit_set. destruct (d !! (bi / 8)%nat); simpl; [|done]. f_equal. apply land_bit.
  apply Z.mod_pos_bound. lia.
Qed.

Lemma same_bit i j : (i / 8)%nat = (j / 8)%nat → Z.of_nat i `mod` 8 = Z.of_nat j `mod` 8 → i = j.
Proof.
  intros E%(f_equal Z.of_nat) ?. rewrite !Nat2Z.inj_div in E. apply Nat2Z.inj.
  Z.to_euclidean_division_equations. lia.
Qed.

(** The update [f] of the byte changes the bit [bi] to [v]. *)
Lemma bit_set_alter f v d bi j :
  (∀ x k, 0 ≤ k < 8 → Z.testbit (f x) k = if decide (k = Z.of_nat bi `mod` 8) then v else Z.testbit x k) →
  bit_set (alter f (bi / 8)%nat d) j =
    if decide (j = bi) then (λ _, v) <$> d !! (bi / 8)%nat else bit_set d j.
Proof.
  intros Hf. rewrite !bit_set_testbit. destruct (decide (j = bi)) as [->|Hne].
  - rewrite list_lookup_alter_eq. destruct (d !! _); simpl; [|done].
    by rewrite Hf, decide_True by (done || apply Z.mod_pos_bound; lia).
  - destruct (decide ((bi / 8)%nat = (j / 8)%nat)) as [E|].
    + rewrite E, list_lookup_alter_eq. destruct (d !! _); simpl; [|done].
      rewrite Hf, decide_False; [done| |apply Z.mod_pos_bound; lia]. intros ?. by apply Hne, same_bit.
    + by rewrite list_lookup_alter_ne.
Qed.

Lemma lor_bit k x j : 0 ≤ k → 0 ≤ j →
  Z.testbit (Z.lor x (Z.shiftl 1 k)) j = if decide (j = k) then true else Z.testbit x j.
Proof.
  intros Hk Hj. rewrite Z.lor_spec, Z.shiftl_1_l, Z.pow2_bits_eqb by done.
  destruct (decide (j = k)) as [->|]; [by rewrite Z.eqb_refl, orb_true_r|].
  by rewrite (proj2 (Z.eqb_neq _ _)), orb_false_r by congruence.
Qed.

Lemma ldiff_bit k x j : 0 ≤ k → 0 ≤ j →
  Z.testbit (Z.ldiff x (Z.shiftl 1 k)) j = if decide (j = k) then false else Z.testbit x j.
Proof.
  intros Hk Hj. rewrite Z.ldiff_spec, Z.shiftl_1_l, Z.pow2_bits_eqb by done.
  destruct (decide (j = k)) as [->|]; [by rewrite Z.eqb_refl, andb_false_r|].
  by rewrite (proj2 (Z.eqb_neq _ _)), andb_true_r by congruence.
Qed.

Lemma first_clear_spec d bi n :
  (bi + n ≤ 8 * length d)%nat →
  ∃ r, first_clear d bi n = Some r ∧
    match r with
    | Some k => (bi ≤ k < bi + n)%nat ∧ bit_set d k = Some false ∧
        ∀ j, (bi ≤ j < k)%nat → bit_set d j = Some true
    | None => ∀ j, (bi ≤ j < bi + n)%nat → bit_set d j = Some true
    end.
Proof.
  revert bi. induction n as [|n IH]; intros bi Hlen; cbn [first_clear].
  - exists None. split; [done|]. lia.
  - destruct (bit_set d bi) as [[]|] eqn:E.
    + destruct (IH (S bi)) as (r & -> & Hr); [lia|]. exists r. split; [done|]. destruct r as [k|].
      * destruct Hr as (? & ? & Hj). split_and!; [lia..|done|]. intros j Hj'.
        destruct (decide (j = bi)) as [->|]; [done|]. apply Hj. lia.
      * intros j Hj. destruct (decide (j = bi)) as [->|]; [done|]. apply Hr. lia.
    + exists (Some bi). split; [done|]. split_and!; [lia..|done|lia].
    + exfalso. unfold bit_set in E. apply fmap_None, lookup_ge_None in E.
      assert (bi / 8 < length d)%nat; [|lia]. apply Nat.Div0.div_lt_upper_bound. lia.
Qed.

(** Balloc's search finds the first free block of a bitmap block when there is
    one; the bit it sets and the bit bfree clears are that block's and no other's,
    and freeing a block just allocated gives the old bitmap back. *)
Theorem bitmap_alloc_free d n :
  (n ≤ 8 * length d)%nat →
  ∃ r, first_clear d 0 n = Some r ∧
    match r with
    | None => ∀ j, (j < n)%nat → bit_set d j = Some true
    | Some bi =>
        let m := Z.shiftl 1 (Z.of_nat bi `mod` 8) in
        let d' := alter (λ v, Z.lor v m) (bi / 8)%nat d in
        (bi < n)%nat ∧ bit_set d bi = Some false ∧ (∀ j, (j < bi)%nat → bit_set d j = Some true) ∧
        (∀ j, bit_set d' j = if decide (j = bi) then Some true else bit_set d j) ∧
        (∀ j, bit_set (alter (λ v, Z.ldiff v m) (bi / 8)%nat d') j = bit_set d j)
    end.
Proof.
  intros Hn. destruct (first_clear_spec d 0 n) as (r & -> & Hr); [done|]. exists r. split; [done|].
  destruct r as [bi|]; [|intros; apply Hr; lia]. destruct Hr as (Hlt & Hbi & Hall).
  assert (0 ≤ Z.of_nat bi `mod` 8) by (apply Z.mod_pos_bound; lia).
  assert (∃ x, d !! (bi / 8)%nat = Some x) as [x Hx].
  { unfold bit_set in Hbi. destruct (d !! _); [eauto|done]. }
  cbv zeta. split_and!; [lia|done|intros; apply Hall; lia|intros j..].
  - rewrite (bit_set_alter _ true) by (intros; apply lor_bit; lia). by rewrite Hx.
  - rewrite (bit_set_alter _ false) by (intros; apply ldiff_bit; lia).
    rewrite list_lookup_alter_eq, Hx. cbn [fmap option_fmap option_map]. destruct (decide (j = bi)) as [->|]; [done|].
    rewrite (bit_set_alter _ true) by (intros; apply lor_bit; lia). by rewrite decide_False.
Qed.

(** ** Paths in a container *)

Lemma geti_run i x s : k_icache s !! i = Some x → geti i s = Ok x s.
Proof. intros Hx. unfold geti. step. by rewrite Hx. Qed.

Lemma modi_run i x f s :
  k_icache s !! i = Some x → modi i f s = Ok tt (s <| k_icache ::= <[i := f x]> |>).
Proof. intros Hx. unfold modi. by run (geti_run i x); [|done]. Qed.

(** The sleep lock of an inode: taken and given back without waiting. *)
Lemma ilk_run i x s : k_icache s !! i = Some x → ilk i s = Ok (i_lock x) s.
Proof. intros Hx. unfold ilk. by run (geti_run i x); [|done]. Qed.

Lemma iunlock_run i x s :
  k_icache s !! i = Some x → sl_locked (i_lock x) = true → 1 ≤ i_ref x → k_held s = [] →
  iunlock i s = Ok tt (woken (ChInode i) s <| k_icache ::= <[i := x <| i_lock := Slock false 0 |>]> |>).
Proof.
  intros Hx Hl Hr Hh. unfold iunlock, holdingsleep. rewrite (bind_ok _ _ _ (sl_locked (i_lock x)) s); cycle 1.
  { run acquire_run; [|rewrite Hh; set_solver]. run (ilk_run i x); [|done]. by run release_top; [|rewrite Hh; set_solver]. }
  run (geti_run i x); [|done]. rewrite Hl, (proj2 (Z.ltb_ge _ 1)) by lia. cbn [negb orb].
  unfold releasesleep, mod_ilk. run acquire_run; [|rewrite Hh; set_solver].
  run (modi_run i x); [|done]. run wakeup_run; [|simpl; rewrite Hh; set_solver].
  at_state (woken (ChInode i) s <| k_icache ::= <[i := x <| i_lock := Slock false 0 |>]> |> <| k_held ::= cons (Lsleep (ChInode i)) |>).
  apply release_top. simpl. rewrite Hh. set_solver.
Qed.

Lemma ilock_run {BD : Bound} i x c p s :
  (0 < wakeups)%nat → k_icache s !! i = Some x → sl_locked (i_lock x) = false → 1 ≤ i_ref x → i_valid x = true →
  Lsleep (ChInode i) ∉ k_held s → k_cur s = Some c → k_ptable s !! c = Some p →
  ilock i s = Ok tt (s <| k_icache ::= <[i := x <| i_lock := Slock true (p_pid p) |>]> |>).
Proof.
  intros Hw Hx Hl Hr Hv Hh Hcur Hp. unfold ilock. run (geti_run i x); [|done]. rewrite (proj2 (Z.ltb_ge _ 1)) by lia.
  set (s1 := s <| k_icache ::= <[i := x <| i_lock := Slock true (p_pid p) |>]> |>).
  rewrite (bind_ok _ _ _ tt s1); cycle 1.
  { unfold acquiresleep. run acquire_run; [|done]. destruct wakeups as [|w]; [lia|]. cbn [loop].
    erewrite bind_ok; [|erewrite bind_ok; [|run (ilk_run i x); [|done]; rewrite Hl; reflexivity]; reflexivity].
    cbn beta iota. run (myproc_run c); [|done]. run (getp_run c p); [|done].
    unfold mod_ilk. run (modi_run i x); [|done]. at_state (s1 <| k_held ::= cons (Lsleep (ChInode i)) |>). by rewrite release_top. }
  run (geti_run i (x <| i_lock := Slock true (p_pid p) |>)).
  - simpl. by rewrite Hv.
  - simpl. apply list_lookup_insert_eq. by eapply lookup_lt_Some.
Qed.

(** One more reference to inode [i]. *)
Definition ref_up (i : nat) (x : inode) (s : kst) : kst :=
  s <| k_icache ::= <[i := x <| i_ref ::= λ n, s32 (n + 1) |>]> |>.

Lemma idup_run i x s :
  Licache ∉ k_held s → k_icache s !! i = Some x → idup i s = Ok i (ref_up i x s).
Proof.
  intros Hl Hx. unfold idup. run acquire_run; [|done]. run (modi_run i x); [|done].
  at_state (ref_up i x s <| k_held ::= cons Licache |>). run release_top; done.
Qed.

Section container_paths.
  Context `{Bound} `{Devices}.

(** A process in a container starts an absolute path at the container's root and a
    relative one at its working directory, never at the root of the file system; the
    path ".." is taken as ".". *)
Theorem container_path_start path cur p ci co root cwd x y s :
  Licache ∉ k_held s → k_cur s = Some cur → k_ptable s !! cur = Some p → 0 < p_container_id p →
  p_container p = Some ci → k_containers s !! ci = Some co →
  c_root co = Some root → k_icache s !! root = Some x →
  p_cwd p = Some cwd → k_icache s !! cwd = Some y →
  namex_start path s =
    if decide (head path = Some SLASH) then Ok (root, path) (ref_up root x s)
    else Ok (cwd, if decide (path = [DOT; DOT]) then [DOT] else path) (ref_up cwd y s).
Proof.
  intros Hl Hcur Hp Hid Hci Hco Hroot Hx Hcwd Hy. unfold namex_start. step. rewrite Hcur.
  run (getp_run cur p); [|done]. rewrite (proj2 (Z.ltb_lt _ _)) by done.
  destruct (bool_decide (path = [DOT; DOT])) eqn:Ed.
  - apply bool_decide_eq_true in Ed as ->. rewrite !bool_decide_false by done. rewrite Hcwd. step.
    run (idup_run cwd y); done.
  - apply bool_decide_eq_false in Ed. rewrite (decide_False (P := path = _)) by done.
    destruct (decide (head path = Some SLASH)) as [Eh|Eh].
    + rewrite bool_decide_true by done. rewrite Hci. step. rewrite Hco. step. rewrite Hroot. step.
      run (idup_run root x); done.
    + rewrite bool_decide_false by done. rewrite Hcwd. step. run (idup_run cwd y); done.
Qed.

End container_paths.

Definition no_devices : Devices := {| dev_read _ := None; dev_write _ := None |}.

(** A process in container 1, whose root and working directory are the directory
    with inode number 2 (entry 0 of the inode cache).  Block 3 holds the directory:
    "." is inode 2 and ".." is the root directory, inode 1. *)
Definition contained : kst :=
  let dir := enc_dirent 2 (DOT :: zeros 13) ++ enc_dirent 1 (DOT :: DOT :: zeros 12) in
  let ip := inode0 <| i_dev := 1 |> <| i_inum := 2 |> <| i_ref := 2 |> <| i_valid := true |>
    <| i_type := T_DIR |> <| i_nlink := 1 |> <| i_size := 32 |> <| i_addrs := 3 :: zeros 12 |> in
  bss [zeros 1024; zeros 1024; zeros 1024; dir ++ zeros 992]
  <| k_icache ::= <[0%nat := ip]> |>
  <| k_containers ::= <[0%nat := container0 <| c_container_id := 1 |> <| c_root := Some 0%nat |>]> |>
  <| k_ptable ::= <[0%nat := proc0 <| p_pid := 3 |> <| p_state := RUNNING |> <| p_container_id := 1 |>
       <| p_container := Some 0%nat |> <| p_cwd := Some 0%nat |>]> |>
  <| k_cur := Some 0%nat |>.

(** The number of the inode a path of that process leads to. *)
Definition resolve (path : list Z) : K Z :=
  binit;;
  r <- @namei 1%nat no_devices path;
  ip <- deref "namei" r;
  x <- geti ip;
  ret (i_inum x).

(** The test for ".." does not keep a process in its container: from the
    container's root, ".." stays there, but "../" leads to the root directory of the
    file system. *)
Theorem container_escape :
  (∃ s, resolve [DOT; DOT] contained = Ok 2 s) ∧ (∃ s, resolve [DOT; DOT; SLASH] contained = Ok ROOTINO s).
Proof. split; eexists; vm_compute; reflexivity. Qed.
