(* ===== verification/Inode.v ===== *)
(** * The contents of files (fs.c: bmap, readi, writei)

    [ifile s x ind blk] says where the blocks of inode [x] are: file block [k] is disk
    block [blk k], or not there when that is 0, and [ind] is the indirect block.
    [holds s blk data] says that the blocks contain the bytes [data].  readi returns these
    bytes; writei replaces them, with blocks taken from the bitmap, inside a transaction. *)
From S2P Require Import Prelude KState Sched Bytes Bio Ring BioThm Log LogThm LogRun Crash Txn Fs FsThm.

Definition MAXBLK : nat := NDIRECT + NINDIRECT.
Definition BSZ : nat := 1024.
#[global] Arguments MAXBLK : simpl never.
#[global] Arguments BSZ : simpl never.

Record ifile (s : kst) (x : inode) (ind : Z) (blk : nat → Z) : Prop := {
  if_dev : i_dev x = 1;
  if_len : length (i_addrs x) = S NDIRECT;
  if_direct : ∀ k, (k < NDIRECT)%nat → i_addrs x !! k = Some (blk k);
  if_ind : i_addrs x !! NDIRECT = Some ind;
  if_none : ind = 0 → ∀ k, (NDIRECT ≤ k)%nat → blk k = 0;
  if_some : ind ≠ 0 → 0 ≤ ind < disk_len s ∧
    ∃ d, vw s ind = Some d ∧ length d = BSZ ∧ ∀ k, (k < NINDIRECT)%nat → rd32 (4 * k) d = blk (NDIRECT + k)%nat;
  if_range : ∀ k, (k < MAXBLK)%nat → blk k ≠ 0 → 0 ≤ blk k < disk_len s ∧ ∃ d, vw s (blk k) = Some d ∧ length d = BSZ;
}.

Definition holds_in (v : Z → option (list Z)) (blk : nat → Z) (data : list Z) : Prop :=
  ∀ n c, data !! n = Some c →
    blk (n / BSZ)%nat ≠ 0 ∧ ∃ d, v (blk (n / BSZ)%nat) = Some d ∧ d !! (n `mod` BSZ)%nat = Some c.
Definition holds (s : kst) : (nat → Z) → list Z → Prop := holds_in (vw s).

(** Only the cache has changed, and no block for a reader. *)
Record quiet (s s' : kst) : Prop := {
  q_io : io_ok s' ∅;
  q_wrote : wrote [] s s';
  q_log : k_log s' = k_log s;
  q_vw : ∀ m, vw s' m = vw s m;
  q_mod : ∀ m, mod_blocks s' m ↔ mod_blocks s m;
}.

Lemma quiet_refl s : io_ok s ∅ → quiet s s.
Proof. intros Hio. split; try done. apply wrote_refl. Qed.

Lemma quiet_trans s1 s2 s3 : quiet s1 s2 → quiet s2 s3 → quiet s1 s3.
Proof.
  intros [_ W1 L1 V1 M1] [I2 W2 L2 V2 M2]. split; [done|exact (wrote_trans _ _ _ _ _ W1 W2)|congruence|..]; intros m.
  - by rewrite V2.
  - by rewrite M2.
Qed.

Lemma wrote_icache ws s s' : wrote ws s s' → k_icache s' = k_icache s.
Proof. intros [-> _ _ _]. done. Qed.
Lemma wrote_sb ws s s' : wrote ws s s' → k_sb s' = k_sb s.
Proof. intros [-> _ _ _]. done. Qed.

Lemma ifile_ext s s' x ind blk :
  disk_len s' = disk_len s → (∀ m, 0 ≤ m → vw s' m = vw s m) → ifile s x ind blk → ifile s' x ind blk.
Proof.
  intros HN Hv [H1 H0 H2 H3 H4 H5 H6]. split; try done; rewrite HN.
  - intros Hi. destruct (H5 Hi) as (? & d & ? & ?). split; [done|]. exists d. by rewrite Hv by lia.
  - intros k Hk Hb. destruct (H6 k Hk Hb) as (? & d & ? & ?). split; [done|]. exists d. by rewrite Hv by lia.
Qed.

Lemma holds_ext s s' blk data :
  (∀ n, (n < length data)%nat → vw s' (blk (n / BSZ)%nat) = vw s (blk (n / BSZ)%nat)) → holds s blk data → holds s' blk data.
Proof. intros Hv Hh n c Hc. rewrite Hv by (by eapply lookup_lt_Some). by apply Hh. Qed.

(** Positions in a block. *)
Lemma in_block off i : (off `mod` BSZ + i < BSZ)%nat → ((off + i) / BSZ = off / BSZ ∧ (off + i) `mod` BSZ = off `mod` BSZ + i)%nat.
Proof.
  intros Hi. pose proof (Nat.div_mod_eq off BSZ) as E. assert (BSZ ≠ 0)%nat by done. split.
  - symmetry. apply (Nat.div_unique _ _ _ (off `mod` BSZ + i)); lia.
  - symmetry. apply (Nat.mod_unique _ _ (off / BSZ)); lia.
Qed.

Lemma chunk_of s blk data d off m :
  holds s blk data → vw s (blk (off / BSZ)%nat) = Some d → (off + m ≤ length data)%nat → (off `mod` BSZ + m ≤ BSZ)%nat →
  slice (off `mod` BSZ) m d = slice off m data.
Proof.
  intros Hh Hd Hlen Hm. apply list_eq. intros i. destruct (decide (i < m)%nat) as [Hi|Hi]; [|unfold slice; by rewrite !lookup_take_ge by lia].
  rewrite !lookup_slice by done. destruct (in_block off i) as [Eq Em]; [lia|].
  destruct (lookup_lt_is_Some_2 data (off + i)%nat) as [c Hc]; [lia|]. destruct (Hh _ _ Hc) as (_ & d' & Hd' & Hc').
  rewrite Eq in Hd'. rewrite Em in Hc'. rewrite Hc, <-Hc'. f_equal. congruence.
Qed.

Section read.
  Context {BD : Bound} {DV : Devices} (Hw : (0 < wakeups)%nat).

Lemma get_addr_run ip k x a s : k_icache s !! ip = Some x → i_addrs x !! k = Some a → get_addr ip k s = Ok a s.
Proof using. intros Hx Ha. unfold get_addr. run (geti_run ip x); [|done]. by rewrite Ha. Qed.

Lemma addr_alloc_old ip k x a s :
  k_icache s !! ip = Some x → i_addrs x !! k = Some a → a ≠ 0 → addr_alloc ip k s = Ok a s.
Proof using. intros Hx Ha Hne. unfold addr_alloc. run (get_addr_run ip k x a); [|done|done]. by rewrite (proj2 (Z.eqb_neq _ _)). Qed.

(** bmap of a block that is there. *)
Lemma bmap_old ip x ind blk k s :
  io_ok s ∅ → mod_le (NBUF - 1) s → k_icache s !! ip = Some x → ifile s x ind blk → (k < MAXBLK)%nat → blk k ≠ 0 →
  ∃ s', bmap ip (Z.of_nat k) s = Ok (blk k) s' ∧ quiet s s'.
Proof using Hw.
  intros Hio Hmod Hx Hf Hk Hb. unfold bmap. destruct (Z.ltb_spec (Z.of_nat k) (Z.of_nat NDIRECT)) as [Hd|Hd].
  - exists s. split; [|by apply quiet_refl]. rewrite Nat2Z.id. eapply addr_alloc_old; [done|by apply Hf; lia|done].
  - rewrite (proj2 (Z.ltb_lt _ _)) by (unfold MAXBLK in Hk; lia).
    assert (ind ≠ 0) as Hind by (intros ->; apply Hb; apply (if_none _ _ _ _ Hf); lia).
    destruct (if_some _ _ _ _ Hf Hind) as (Hr & d & Hvd & Hlen & Hblk).
    run (addr_alloc_old ip NDIRECT x ind); [|done|apply Hf|done]. run (geti_run ip x); [|done]. rewrite (if_dev _ _ _ _ Hf).
    destruct (peek_block ind d s ∅ Hw Hio Hvd (can_read_empty _ _ Hr Hmod)) as (i & b & s1 & s2 & Hr1 & Hb1 & Hd1 & Hr2 & Hw1 & Hio2 & Hw2 & Hl2 & Hv2 & Hm2 & _).
    rewrite (bind_ok _ _ _ _ _ Hr1). run (getb_run i b); [|done]. rewrite Hd1.
    replace (Z.to_nat (4 * (Z.of_nat k - Z.of_nat NDIRECT))) with (4 * (k - NDIRECT))%nat by lia.
    rewrite Hblk by (unfold MAXBLK in Hk; lia). replace (NDIRECT + (k - NDIRECT))%nat with k by lia.
    rewrite (proj2 (Z.eqb_neq _ _)) by done. step. rewrite (bind_ok _ _ _ _ _ Hr2). exists s2. split; [done|by split].
Qed.

(** The blocks of a file that holds [data] and the bound on the rounds left. *)
Definition enough (off n tot : Z) (k : nat) : Prop :=
  (0 < k)%nat ∧ (tot < n → off `mod` BSIZE + (n - tot) ≤ BSIZE * (Z.of_nat k - 1)).

Lemma enough_next off n tot k m :
  0 ≤ off → 0 ≤ tot < n → enough off n tot (S k) → m = Z.min (n - tot) (BSIZE - off `mod` BSIZE) →
  0 < m ∧ off `mod` BSIZE + m ≤ BSIZE ∧ tot + m ≤ n ∧ enough (off + m) n (tot + m) k.
Proof using.
  clear Hw BD DV. intros Hoff Ht [_ He] ->. unfold enough, BSIZE in *. specialize (He ltac:(lia)).
  pose proof (Z.mod_pos_bound off 1024 ltac:(lia)). split_and!; [lia..|]. intros Hlt.
  replace ((off + Z.min (n - tot) (1024 - off `mod` 1024)) `mod` 1024) with 0; [lia|].
  rewrite Z.min_r by lia. pose proof (Z.div_mod off 1024 ltac:(lia)). symmetry. apply Z.mod_divide; [lia|]. exists (off `div` 1024 + 1). lia.
Qed.

Lemma readi_loop_run ip x ind blk data k s off n tot acc :
  io_ok s ∅ → mod_le (NBUF - 1) s → k_icache s !! ip = Some x → ifile s x ind blk → holds s blk data →
  Z.of_nat (length data) ≤ MAXFILE * BSIZE → 0 ≤ off → 0 ≤ tot ≤ n → off + (n - tot) ≤ Z.of_nat (length data) → enough off n tot k →
  ∃ s', readi_loop k ip off n tot acc s = Ok (acc ++ slice (Z.to_nat off) (Z.to_nat (n - tot)) data) s' ∧ quiet s s'.
Proof using Hw.
  intros Hio Hmod Hx Hf Hh Hmax. revert s off tot acc Hio Hmod Hx Hf Hh.
  induction k as [|k IH]; intros s off tot acc Hio Hmod Hx Hf Hh Hoff Htot Hlen Hen; [destruct Hen; lia|]. cbn [readi_loop].
  destruct (Z.ltb_spec tot n) as [Hlt|Hge]; cbn [negb].
  2: { exists s. split; [|by apply quiet_refl]. replace (n - tot) with 0 by lia. unfold slice. by rewrite take_0, app_nil_r. }
  destruct (enough_next off n tot k _ Hoff ltac:(lia) Hen eq_refl) as (Hm & Hm1 & Hm2 & Hen').
  set (m := Z.min (n - tot) (BSIZE - off `mod` BSIZE)) in *.
  assert (off `div` BSIZE = Z.of_nat (Z.to_nat off / BSZ)) as Ek by (rewrite Nat2Z.inj_div, Z2Nat.id by lia; done).
  assert (off `mod` BSIZE = Z.of_nat (Z.to_nat off `mod` BSZ)) as Eo by (rewrite Nat2Z.inj_mod, Z2Nat.id by lia; done).
  assert (∃ c, data !! Z.to_nat off = Some c) as [c Hc] by (apply lookup_lt_is_Some_2; lia).
  destruct (Hh _ _ Hc) as (Hne & d & Hvd & _). rewrite Ek, Eo.
  assert (Z.to_nat off / BSZ < MAXBLK)%nat as HkM.
  { apply Nat.Div0.div_lt_upper_bound. unfold MAXBLK, BSZ, MAXFILE, BSIZE, NDIRECT, NINDIRECT in *. lia. }
  destruct (bmap_old ip x ind blk _ s Hio Hmod Hx Hf HkM Hne) as (s1 & Hr1 & [Hio1 Hw1 Hl1 Hv1 Hmd1]). rewrite (bind_ok _ _ _ _ _ Hr1).
  assert (k_icache s1 !! ip = Some x) as Hx1 by (by rewrite (wrote_icache _ _ _ Hw1)).
  assert (mod_le (NBUF - 1) s1) as Hmod1 by (by eapply mod_le_ext; [intros m'; apply Hmd1|]).
  run (geti_run ip x); [|done]. rewrite (if_dev _ _ _ _ Hf). destruct (if_range _ _ _ _ Hf _ HkM Hne) as (Hrg & d' & Hvd' & Hld).
  assert (d' = d) as -> by congruence. rewrite <-Hv1 in Hvd. rewrite <-(wrote_len _ _ _ Hw1) in Hrg.
  destruct (peek_block _ d s1 ∅ Hw Hio1 Hvd (can_read_empty _ _ Hrg Hmod1)) as (i & b & s2 & s3 & Hr2 & Hb2 & Hd2 & Hr3 & _ & Hio3 & Hw3 & Hl3 & Hv3 & Hm3 & _).
  rewrite (bind_ok _ _ _ _ _ Hr2). run (getb_run i b); [|done]. rewrite (bind_ok _ _ _ _ _ Hr3).
  assert (quiet s s3) as Hq by (apply (quiet_trans _ s1); by split).
  assert (off + m < 2 ^ 32) by (unfold MAXFILE, NDIRECT, NINDIRECT, BSIZE in *; lia).
  rewrite (u32_small (off + m)) by lia. destruct (IH s3 (off + m) (tot + m) (acc ++ slice (Z.to_nat (Z.of_nat (Z.to_nat off `mod` BSZ))) (Z.to_nat m) (b_data b)))
    as (s4 & Hr4 & Hq4); [by apply Hq| | | | |lia|lia|lia|done|].
  { eapply mod_le_ext; [|exact Hmod1]. intros m'. apply Hm3. }
  { by rewrite (wrote_icache _ _ _ Hw3). }
  { eapply ifile_ext; [|intros m' _; apply Hq|done]. by rewrite (wrote_len _ _ _ (q_wrote _ _ Hq)). }
  { eapply holds_ext; [|done]. intros m' _. apply Hq. }
  exists s4. split; [|by eapply quiet_trans]. rewrite Hr4. f_equal. rewrite <-app_assoc. f_equal. rewrite Nat2Z.id, Hd2.
  rewrite (chunk_of s1 blk data d (Z.to_nat off) (Z.to_nat m)); [|by eapply holds_ext; [|exact Hh]; intros ??; apply Hv1|done|lia|unfold BSZ, BSIZE in *; lia].
  unfold slice.
  replace (Z.to_nat (off + m)) with (Z.to_nat off + Z.to_nat m)%nat by lia.
  replace (Z.to_nat (n - tot)) with (Z.to_nat m + Z.to_nat (n - (tot + m)))%nat by lia. by rewrite <-drop_drop, take_take_drop.
Qed.

Lemma readi_run ip x ind blk data s off n :
  io_ok s ∅ → mod_le (NBUF - 1) s → k_icache s !! ip = Some x → i_type x ≠ T_DEV → ifile s x ind blk →
  i_size x = Z.of_nat (length data) → i_size x ≤ MAXFILE * BSIZE → holds s blk data → 0 ≤ off ≤ i_size x → 0 ≤ n < 2 ^ 31 →
  ∃ s', let r := slice (Z.to_nat off) (Z.to_nat n) data in
    readi ip off n s = Ok (Z.of_nat (length r), r) s' ∧ quiet s s'.
Proof using Hw.
  intros Hio Hmod Hx Hty Hf Hsz Hmax Hh Hoff Hn. unfold readi. run (geti_run ip x); [|done].
  rewrite (proj2 (Z.eqb_neq _ _)) by done. assert (i_size x < 2 ^ 31) by (unfold MAXFILE, NDIRECT, NINDIRECT, BSIZE in *; lia).
  rewrite (u32_small (off + n)), (u32_small (i_size x - off)) by lia. rewrite !(proj2 (Z.ltb_ge _ off)) by lia.
  cbn [orb].
  assert ((if i_size x <? off + n then i_size x - off else n) = Z.min n (i_size x - off)) as -> by (destruct (Z.ltb_spec (i_size x) (off + n)); lia).
  set (n' := Z.min n (i_size x - off)).
  destruct (readi_loop_run ip x ind blk data (S (S (Z.to_nat (n' `div` BSIZE + 1)))) s off n' 0 []) as (s' & Hr & Hq);
    [done..|lia|lia|lia|lia| |].
  { split; [lia|]. intros _. unfold BSIZE in *. pose proof (Z.mod_pos_bound off 1024 ltac:(lia)). pose proof (Z.div_mod n' 1024 ltac:(lia)).
    pose proof (Z.mod_pos_bound n' 1024 ltac:(lia)). rewrite !Nat2Z.inj_succ, Z2Nat.id by (pose proof (Z.div_pos n' 1024); lia). lia. }
  exists s'. cbv zeta. split; [|done]. rewrite (bind_ok _ _ _ _ _ Hr). cbn [app]. rewrite Z.sub_0_r.
  assert (slice (Z.to_nat off) (Z.to_nat n') data = slice (Z.to_nat off) (Z.to_nat n) data) as ->.
  { unfold slice, n'. destruct (Z.le_gt_cases n (i_size x - off)); [by rewrite Z.min_l|]. rewrite Z.min_r by lia.
    rewrite !take_ge; [done|rewrite length_drop; lia..]. }
  unfold ret. do 2 f_equal. rewrite s32_small by lia. unfold slice, n'. rewrite length_take, length_drop. lia.
Qed.
End read.

(** ** Free blocks *)

Definition bm (s : kst) : Z := sb_bmapstart (k_sb s).
Definition bits (s : kst) : list Z := default [] (vw s (bm s)).
Definition in_use (s : kst) (a : Z) : Prop := bit_set (bits s) (Z.to_nat a) = Some true.
Definition is_free (s : kst) (a : Z) : Prop := 0 ≤ a < sb_size (k_sb s) ∧ bit_set (bits s) (Z.to_nat a) = Some false.

(** The layout of mkfs.c: the log, the inodes, one block of bitmap, the data; the blocks
    before the data are marked in the bitmap. *)
Record fsys (s : kst) (L : Z) : Prop := {
  fs_log : L + LOGSIZE ≤ sb_inodestart (k_sb s) < bm s;
  fs_inodes : ∀ i, 0 ≤ i < sb_ninodes (k_sb s) → i `div` IPB + sb_inodestart (k_sb s) < bm s;
  fs_size : bm s < sb_size (k_sb s) ≤ disk_len s ∧ sb_size (k_sb s) ≤ BPB;
  fs_blocks : ∀ m, 0 ≤ m < disk_len s → ∃ d, vw s m = Some d ∧ length d = BSZ;
  fs_meta : ∀ a, 0 ≤ a ≤ bm s → in_use s a;
}.

Lemma free_data s L a : fsys s L → is_free s a → bm s < a < sb_size (k_sb s).
Proof.
  intros Hf [Ha Hb]. split; [|lia]. apply Znot_ge_lt. intros Hle. assert (in_use s a) as Hu by (apply (fs_meta _ _ Hf); lia).
  unfold in_use in Hu. congruence.
Qed.

Lemma data_home s L N bns a : fsys s L → placed L N bns → N = disk_len s → bm s ≤ a < sb_size (k_sb s) → home L N a.
Proof. intros [H1 H2 H3 _ _] [HL _ _ _] -> Ha. unfold home, LOGSIZE, MAXOPBLOCKS in *. lia. Qed.

Lemma same_bufs_blockno H s s' x :
  same_bufs H s s' → (∀ j b, j ∈ H → k_bufs s !! j = Some b → b_blockno b ≠ x) →
  ∀ j b, j ∈ H → k_bufs s' !! j = Some b → b_blockno b ≠ x.
Proof.
  intros Hs Hn j b Hj Hb. specialize (Hs j Hj). rewrite Hb in Hs. destruct (k_bufs s !! j) as [b0|] eqn:E; [|done].
  simpl in Hs. injection Hs as Hs. specialize (Hn j b0 Hj E). by replace (b_blockno b) with (b_blockno b0) by (by destruct b, b0; inversion Hs).
Qed.

Definition marked (a : nat) (d : list Z) : list Z := alter (λ v, Z.lor v (Z.shiftl 1 (Z.of_nat a `mod` 8))) (a / 8)%nat d.

Lemma marked_bits d a j : bit_set d a = Some false → bit_set (marked a d) j = if decide (j = a) then Some true else bit_set d j.
Proof.
  intros Ha. assert (∃ x, d !! (a / 8)%nat = Some x) as [x Hx] by (unfold bit_set in Ha; destruct (d !! _); [eauto|done]).
  unfold marked. assert (0 ≤ Z.of_nat a `mod` 8) by (apply Z.mod_pos_bound; lia).
  rewrite (bit_set_alter _ true) by (intros; apply lor_bit; lia). by rewrite Hx.
Qed.

(** Block [a] has been allocated and cleared. *)
Record allocated (s : kst) (a : Z) (s' : kst) : Prop := {
  al_free : is_free s a;
  al_data : bm s < a < sb_size (k_sb s);
  al_vw : ∀ m, 0 ≤ m → m ≠ a → m ≠ bm s → vw s' m = vw s m;
  al_zero : vw s' a = Some (replicate BSZ 0);
  al_bits : ∀ j, bit_set (bits s') j = if decide (j = Z.to_nat a) then Some true else bit_set (bits s) j;
  al_wrote : wrote [] s s';
  al_bm : vw s' (bm s) = Some (bits s') ∧ length (bits s') = BSZ;
}.

(** Free blocks that can still be taken. *)
Definition frees (n : nat) (s : kst) : Prop := ∃ l, NoDup l ∧ length l = n ∧ Forall (is_free s) l.

Lemma frees_some n s : frees (S n) s → ∃ a, is_free s a.
Proof. intros (l & _ & Hl & Hf). destruct l as [|a l]; [done|]. apply list.Forall_cons in Hf as [? _]. by exists a. Qed.

Lemma frees_le n m s : frees n s → (m ≤ n)%nat → frees m s.
Proof.
  intros (l & Hn & Hl & Hf) Hm. exists (take m l). split_and!; [|rewrite length_take; lia|by apply Forall_take].
  rewrite <-(take_drop m l) in Hn. by apply list.NoDup_app in Hn as [? _].
Qed.

Lemma frees_remove a n (s s' : kst) : frees (S n) s → (∀ b, is_free s b → b ≠ a → is_free s' b) → frees n s'.
Proof.
  intros (l & Hn & Hl & Hf) Hs. apply (frees_le (length (filter (λ b, b ≠ a) l))).
  - exists (filter (λ b, b ≠ a) l). split_and!; [by apply list.NoDup_filter|done|]. rewrite list.Forall_forall in *.
    intros b [Hb Hi]%list_elem_of_filter. auto.
  - clear Hs Hf. revert n Hl. induction l as [|b l IH]; intros n Hl; [done|]. apply list.NoDup_cons in Hn as [Hb Hn]. injection Hl as Hl.
    destruct (decide (b = a)) as [->|Hne].
    + rewrite filter_cons_False by (intros ?; done). rewrite filter_ne by done. lia.
    + rewrite filter_cons_True by done. simpl. destruct n as [|n]; [lia|]. specialize (IH Hn n Hl). lia.
Qed.

Lemma fsys_ext s s' L : k_sb s' = k_sb s → disk_len s' = disk_len s → (∀ m, 0 ≤ m → vw s' m = vw s m) → 0 ≤ bm s → fsys s L → fsys s' L.
Proof.
  intros Hsb HN Hv Hbm [H1 H2 H3 H4 H5]. split; unfold in_use, bits, bm in *; rewrite ?Hsb, ?HN, ?Hv by done; try done.
  intros m Hm. destruct (H4 m Hm) as (d & ? & ?). exists d. by rewrite Hv by lia.
Qed.

Lemma allocated_use s a s' b : allocated s a s' → in_use s b → in_use s' b.
Proof. intros Ha Hb. unfold in_use. rewrite (al_bits _ _ _ Ha). by case_decide. Qed.

Lemma allocated_taken s a s' : allocated s a s' → in_use s' a.
Proof. intros Ha. unfold in_use. rewrite (al_bits _ _ _ Ha). by rewrite decide_True. Qed.

Lemma allocated_fsys s a s' L : 0 ≤ bm s → fsys s L → allocated s a s' → fsys s' L.
Proof.
  intros Hbm [H1 H2 H3 H4 H5] Ha. pose proof (al_wrote _ _ _ Ha) as Hwr. pose proof (wrote_sb _ _ _ Hwr) as Hsb.
  assert (bm s' = bm s) as Eb by (unfold bm; by rewrite Hsb). pose proof (wrote_len _ _ _ Hwr) as HN.
  split; rewrite ?Eb, ?Hsb, ?HN; try done.
  - intros m Hm. destruct (decide (m = a)) as [->|]; [eexists; split; [apply Ha|by rewrite length_replicate]|].
    destruct (decide (m = bm s)) as [->|]; [eexists; apply Ha|]. rewrite (al_vw _ _ _ Ha) by (done || lia). by apply H4.
  - intros b Hb. eapply allocated_use; [done|by apply H5].
Qed.

Lemma allocated_frees s a s' n : allocated s a s' → frees (S n) s → frees n s'.
Proof.
  intros Ha Hf. apply (frees_remove a n s s' Hf). intros b [Hb Hbit] Hne. split.
  - by rewrite (wrote_sb _ _ _ (al_wrote _ _ _ Ha)).
  - rewrite (al_bits _ _ _ Ha). rewrite decide_False; [done|]. destruct (al_data _ _ _ Ha), (al_free _ _ _ Ha). lia.
Qed.

Section alloc.
  Context {BD : Bound} {DV : Devices} (Hw : (0 < wakeups)%nat).

Lemma balloc_run H s L bns :
  txn_in (H := H) s L bns → fsys s L → 1 ≤ lg_outstanding (k_log s) → (∃ a, is_free s a) →
  Z.of_nat (length bns) < LOGSIZE - 2 → (size H + length bns + 1 < NBUF)%nat →
  (∀ j b, j ∈ H → k_bufs s !! j = Some b → b_blockno b ≠ bm s ∧ in_use s (b_blockno b)) →
  ∃ a s', balloc 1 s = Ok a s' ∧ allocated s a s' ∧ txn_in (H := H) s' L (logging a (logging (bm s) bns)) ∧
    outs s s' ∧ same_bufs H s s'.
Proof using Hw.
  intros Htx Hfs Ho [a0 Ha0] Hlen Hsz Hheld. pose proof (fs_log _ _ Hfs) as Hlog. pose proof (fs_size _ _ Hfs) as [Hsize Hbpb].
  pose proof (pl_log _ _ _ (tx_placed _ _ _ Htx)) as (HL & _ & HN).
  assert (0 ≤ bm s < disk_len s) as Hbm by (unfold LOGSIZE, MAXOPBLOCKS in *; lia).
  destruct (fs_blocks _ _ Hfs _ Hbm) as (d & Hd & Hdl). assert (bits s = d) as Eb by (unfold bits; by rewrite Hd).
  destruct (first_clear_spec d 0 (Z.to_nat (sb_size (k_sb s)))) as (r & Hfc & Hr); [rewrite Hdl; unfold BSZ, BPB, BSIZE in *; lia|].
  destruct r as [bi|].
  2: { destruct Ha0 as [Ha0 Hf0]. rewrite Eb, Hr in Hf0; [done|lia]. }
  destruct Hr as (Hbi & Hclr & _). set (a := Z.of_nat bi).
  assert (is_free s a) as Hfree by (split; [unfold a; lia|unfold a; by rewrite Nat2Z.id, Eb]).
  pose proof (free_data _ _ _ Hfs Hfree) as Hda. exists a.
  assert (can_read H (bm s) s) as Hcr by (eapply txn_can_read; [done|lia|lia|intros j b Hj Hb; by apply (Hheld j b)]).
  destruct (editing_read H (bm s) d s Hw (tx_io _ _ _ Htx) Hd Hcr) as (i & s1 & Hr1 & He1).
  destruct (editing_edit _ _ _ _ _ (marked bi) _ He1) as (s2 & Hr2 & He2).
  destruct (editing_log H s i (bm s) (marked bi d) s2 L bns) as (s3 & Hr3 & Htx3 & Hw3 & Hl3 & Hv3 & Hs3);
    [done|done|eapply data_home; [done|apply Htx|done|lia]|done|lia|].
  assert (outs s s3) as Ho3 by (by eapply outs_record).
  assert (length (logging (bm s) bns) ≤ S (length bns))%nat as Hll by (unfold logging; case_decide; rewrite ?length_app; simpl; lia).
  destruct (fs_blocks _ _ Hfs a) as (da & Hva & Hla); [lia|].
  destruct (update_in_run Hw H a da (λ _, replicate (Z.to_nat BSIZE) 0) s3 L (logging (bm s) bns)) as (s4 & Hr4 & Htx4 & Hw4 & Hl4 & Hv4 & Hs4).
  { done. } { rewrite (wrote_len _ _ _ Hw3). eapply data_home; [done|apply Htx|done|lia]. } { by rewrite Hv3, decide_False by lia. }
  { destruct Ho3; lia. } { lia. } { lia. }
  { apply (same_bufs_blockno H s); [done|]. intros j b Hj Hb Ex. destruct (Hheld j b Hj Hb) as [_ Hu]. rewrite Ex in Hu.
    destruct Hfree as [_ Hf]. unfold in_use in Hu. congruence. }
  assert (wrote [] s s4) as Hw04 by exact (wrote_trans _ _ _ _ _ Hw3 Hw4).
  assert (bits s4 = marked bi d) as Eb4.
  { unfold bits, bm. rewrite (wrote_sb _ _ _ Hw04). fold (bm s). by rewrite Hv4, decide_False, Hv3, decide_True by lia. }
  exists s4. split_and!; [| |done|by eapply outs_trans; [|by eapply outs_record]|by eapply same_bufs_trans].
  - unfold balloc. step. cbn [balloc_loop]. step. rewrite (proj2 (Z.ltb_lt 0 _)) by lia. cbn [negb].
    replace (BBLOCK 0 (k_sb s)) with (bm s) by (unfold BBLOCK; change (0 `div` BPB) with 0; fold (bm s); rewrite u32_small; lia).
    rewrite (bind_ok _ _ _ _ _ Hr1). destruct He1 as (_ & _ & _ & _ & (b & Hb & _ & Hbd) & _). run (getb_run i b); [|done].
    rewrite Hbd, Z.sub_0_r, Z.min_r by lia. rewrite Hfc. step. cbv zeta. fold (marked bi).
    rewrite (bind_ok _ _ _ _ _ Hr2). rewrite (bind_assoc _ _ _ _ _ _ Hr3). unfold bzero. rewrite Z.add_0_l. by rewrite (bind_ok _ _ _ _ _ Hr4).
  - split; try done.
    + intros m Hm Hma Hmb. by rewrite Hv4, decide_False, Hv3, decide_False by done.
    + rewrite Hv4 by lia. by rewrite decide_True.
    + intros j. rewrite Eb4, Eb. unfold a. rewrite Nat2Z.id. by apply marked_bits.
    + rewrite Eb4. rewrite Hv4, decide_False, Hv3, decide_True by lia. split; [done|]. unfold marked. by rewrite length_alter.
Qed.
End alloc.

(** ** The blocks of a file, with allocation *)

(** The blocks of the file are data blocks, marked in the bitmap and all different. *)
Record owns (s : kst) (ind : Z) (blk : nat → Z) : Prop := {
  ow_ind : ind ≠ 0 → bm s < ind < sb_size (k_sb s) ∧ in_use s ind;
  ow_blk : ∀ k, (k < MAXBLK)%nat → blk k ≠ 0 → bm s < blk k < sb_size (k_sb s) ∧ in_use s (blk k) ∧ blk k ≠ ind;
  ow_inj : ∀ j k, (j < MAXBLK)%nat → (k < MAXBLK)%nat → blk j = blk k → blk j ≠ 0 → j = k;
}.

(** What routines of fs.c may change besides the views of blocks. *)
Record fs_step (s s' : kst) : Prop := {
  fst_frame : s' = s <| k_ptable := k_ptable s' |> <| k_bufs := k_bufs s' |> <| k_log := k_log s' |> <| k_icache := k_icache s' |>;
  fst_woke : woke (k_ptable s) (k_ptable s');
  fst_outs : outs s s';
}.

Lemma fs_step_refl s : fs_step s s.
Proof. split; [by destruct s|apply woke_refl|done]. Qed.

Lemma fs_step_trans s1 s2 s3 : fs_step s1 s2 → fs_step s2 s3 → fs_step s1 s3.
Proof.
  intros [F1 W1 O1] [F2 W2 O2]. split; [|by eapply woke_trans|by eapply outs_trans].
  rewrite F2 at 1. rewrite F1. by destruct s1.
Qed.

Lemma wrote_step s s' : wrote [] s s' → outs s s' → fs_step s s'.
Proof. intros [F W D E] Ho. split; [|done|done]. apply kst_ext; simpl; first [done|by rewrite D|by rewrite E|by rewrite F]. Qed.

Lemma step_sb s s' : fs_step s s' → k_sb s' = k_sb s.
Proof. by intros [-> _ _]. Qed.
Lemma step_disk s s' : fs_step s s' → k_disk s' = k_disk s.
Proof. by intros [-> _ _]. Qed.

Definition with_ic (ip : nat) (x : inode) (s : kst) : kst := s <| k_icache ::= <[ip := x]> |>.

Lemma txn_ic H ip x s L bns : txn_in (H := H) s L bns → txn_in (H := H) (with_ic ip x s) L bns.
Proof. intros [[] ? ? ? ? ?]. by split. Qed.

Lemma step_ic ip x s : fs_step s (with_ic ip x s).
Proof. split; [by destruct s|apply woke_refl|done]. Qed.

Lemma fsys_ic ip x s L : fsys s L → fsys (with_ic ip x s) L.
Proof. intros []. by split. Qed.
Lemma owns_ic ip x s ind blk : owns s ind blk → owns (with_ic ip x s) ind blk.
Proof. intros []. by split. Qed.
Lemma ifile_ic ip x y s ind blk : ifile s x ind blk → ifile (with_ic ip y s) x ind blk.
Proof. intros []. by split. Qed.

Lemma not_free_used s a : in_use s a → ¬ is_free s a.
Proof. unfold in_use. intros Hu [_ Hf]. congruence. Qed.

(** What stays when a block is allocated. *)
Lemma allocated_old s a s' m : allocated s a s' → 0 ≤ m → m ≠ bm s → ¬ is_free s m → vw s' m = vw s m.
Proof. intros Ha Hm Hbm Hf. apply (al_vw _ _ _ Ha); try done. intros ->. by apply Hf, Ha. Qed.

Lemma allocated_owns s a s' ind blk : allocated s a s' → owns s ind blk → owns s' ind blk.
Proof.
  intros Ha [H1 H2 H3]. pose proof (wrote_sb _ _ _ (al_wrote _ _ _ Ha)) as Hsb. split; unfold bm; rewrite ?Hsb; fold (bm s); try done.
  - intros Hi. destruct (H1 Hi). split; [done|by eapply allocated_use].
  - intros k Hk Hb. destruct (H2 k Hk Hb) as (? & ? & ?). split_and!; try lia. by eapply allocated_use.
Qed.

Lemma allocated_ifile s a s' x ind blk : 0 ≤ bm s → allocated s a s' → owns s ind blk → ifile s x ind blk → ifile s' x ind blk.
Proof.
  intros Hbm Ha Ho [H1 H0 H2 H3 H4 H5 H6]. pose proof (wrote_len _ _ _ (al_wrote _ _ _ Ha)) as HN. split; rewrite ?HN; try done.
  - intros Hi. destruct (H5 Hi) as (? & d & Hd & ?). split; [done|]. exists d. destruct (ow_ind _ _ _ Ho Hi) as [? Hu].
    rewrite (allocated_old s a s'); [done|done|lia|lia|by apply not_free_used].
  - intros k Hk Hb. destruct (H6 k Hk Hb) as (? & d & Hd & ?). split; [done|]. exists d. destruct (ow_blk _ _ _ Ho k Hk Hb) as (? & Hu & _).
    rewrite (allocated_old s a s'); [done|done|lia|lia|by apply not_free_used].
Qed.

Definition setb (blk : nat → Z) (k : nat) (a : Z) : nat → Z := λ j, if decide (j = k) then a else blk j.

Lemma setb_eq blk k a : setb blk k a k = a.
Proof. unfold setb. by rewrite decide_True. Qed.
Lemma setb_ne blk k a j : j ≠ k → setb blk k a j = blk j.
Proof. intros. unfold setb. by rewrite decide_False. Qed.

(** A new block [a] becomes file block [k]. *)
Lemma owns_set s ind blk k a :
  owns s ind blk → bm s < a < sb_size (k_sb s) → in_use s a → a ≠ ind →
  (∀ j, (j < MAXBLK)%nat → blk j ≠ a) → owns s ind (setb blk k a).
Proof.
  intros [H1 H2 H3] Ha Hu Hne Hnew. split; [done| |].
  - intros j Hj. unfold setb. case_decide; [done|]. by apply H2.
  - intros i j Hi Hj. unfold setb. repeat case_decide; subst; try done.
    + intros E _. by destruct (Hnew j Hj).
    + intros E _. by destruct (Hnew i Hi).
    + by apply H3.
Qed.

(** One block other than the bitmap is changed. *)
Lemma bits_upd s s' y d :
  k_sb s' = k_sb s → (∀ m, 0 ≤ m → vw s' m = if decide (m = y) then Some d else vw s m) → y ≠ bm s → 0 ≤ bm s → bits s' = bits s.
Proof. intros Hsb Hv Hy Hbm. unfold bits, bm. rewrite Hsb. fold (bm s). by rewrite Hv, decide_False. Qed.

Lemma fsys_upd s s' y d L :
  k_sb s' = k_sb s → disk_len s' = disk_len s → (∀ m, 0 ≤ m → vw s' m = if decide (m = y) then Some d else vw s m) →
  y ≠ bm s → 0 ≤ bm s → length d = BSZ → fsys s L → fsys s' L.
Proof.
  intros Hsb HN Hv Hy Hbm Hd [H1 H2 H3 H4 H5]. pose proof (bits_upd _ _ _ _ Hsb Hv Hy Hbm) as Eb.
  split; unfold in_use, bm in *; rewrite ?Hsb, ?HN, ?Eb; try done.
  intros m Hm. rewrite Hv by lia. case_decide; [by exists d|by apply H4].
Qed.

Lemma allocated_base s s1 a s2 :
  allocated s1 a s2 → wrote [] s s1 → (∀ m, 0 ≤ m → vw s1 m = vw s m) → 0 ≤ bm s → allocated s a s2.
Proof.
  intros [H1 H2 H3 H4 H5 H6 H7] Hwr Hv Hbm. pose proof (wrote_sb _ _ _ Hwr) as Hsb.
  assert (bits s1 = bits s) as Eb by (unfold bits, bm; rewrite Hsb; fold (bm s); by rewrite Hv).
  assert (bm s1 = bm s) as Ebm by (unfold bm; by rewrite Hsb). unfold is_free in H1. rewrite Ebm, Eb, Hsb in *. split; try done.
  - intros m Hm Hma Hmb. rewrite H3 by done. by apply Hv.
  - exact (wrote_trans _ _ _ _ _ Hwr H6).
Qed.

Lemma rd_zeros n off len : rd n off (replicate len 0) = 0.
Proof.
  unfold rd, slice. rewrite drop_replicate, take_replicate. induction (n `min` (len - off))%nat as [|k IH]; [done|]. simpl. lia.
Qed.

Record mapped (ip k : nat) (L : Z) (s : kst) (x : inode) (ind : Z) (blk : nat → Z) (bns : list Z)
    (s' : kst) (x' : inode) (ind' : Z) (blk' : nat → Z) (bns' : list Z) : Prop := {
  mp_blk : blk' k ≠ 0;
  mp_other : ∀ j, j ≠ k → blk' j = blk j;
  mp_same : blk k ≠ 0 → blk' k = blk k ∧ bns' = bns ∧ x' = x;
  mp_new : blk k = 0 → blk' k ∈ bns' ∧ is_free s (blk' k);
  mp_x : x' = x <| i_addrs := i_addrs x' |>;
  mp_ic : k_icache s' = <[ip := x']> (k_icache s);
  mp_txn : txn s' L bns';
  mp_len : (length bns' ≤ length bns + 3)%nat;
  mp_logged : ∀ m, m ∈ bns' → m ∈ bns ∨ L + LOGSIZE ≤ m;
  mp_fsys : fsys s' L;
  mp_file : ifile s' x' ind' blk';
  mp_owns : owns s' ind' blk';
  mp_step : fs_step s s';
  mp_vw : ∀ m, 0 ≤ m → m ≠ bm s → m ≠ ind' → ¬ is_free s m → vw s' m = vw s m;
  mp_ind : ind' = ind ∨ is_free s ind';
  mp_use : ∀ a, in_use s a → in_use s' a;
  mp_frees : ∀ n, frees (S (S n)) s → frees n s';
}.

Lemma length_logging x bns : (length (logging x bns) ≤ S (length bns))%nat.
Proof. unfold logging. case_decide; rewrite ?length_app; simpl; lia. Qed.

Lemma bm_range s L bns H : txn_in (H := H) s L bns → fsys s L → 0 < bm s < 2 ^ 31 ∧ sb_size (k_sb s) ≤ 2 ^ 31.
Proof.
  intros Htx Hfs. pose proof (pl_log _ _ _ (tx_placed _ _ _ Htx)). pose proof (fs_log _ _ Hfs). pose proof (fs_size _ _ Hfs).
  unfold LOGSIZE, MAXOPBLOCKS in *. lia.
Qed.

Section bmap_alloc.
  Context {BD : Bound} {DV : Devices} (Hw : (0 < wakeups)%nat).

Lemma addr_alloc_new ip k x s L bns :
  k_icache s !! ip = Some x → i_addrs x !! k = Some 0 → i_dev x = 1 → txn s L bns → fsys s L →
  1 ≤ lg_outstanding (k_log s) → (∃ a, is_free s a) → Z.of_nat (length bns) < LOGSIZE - 2 →
  ∃ a s1, addr_alloc ip k s = Ok a (with_ic ip (x <| i_addrs ::= <[k := a]> |>) s1) ∧ allocated s a s1 ∧
    txn s1 L (logging a (logging (bm s) bns)) ∧ outs s s1.
Proof using Hw.
  intros Hx Ha Hdev Htx Hfs Ho Hfree Hlen.
  destruct (balloc_run Hw ∅ s L bns Htx Hfs Ho Hfree Hlen) as (a & s1 & Hr & Hal & Htx1 & Ho1 & _);
    [rewrite size_empty; unfold LOGSIZE, MAXOPBLOCKS, NBUF in *; lia|set_solver|].
  exists a, s1. split_and!; try done. unfold addr_alloc. run (get_addr_run ip k x 0); [|done|done]. rewrite Z.eqb_refl.
  run (geti_run ip x); [|done]. rewrite Hdev. rewrite (bind_ok _ _ _ _ _ Hr).
  assert (k_icache s1 !! ip = Some x) as Hx1 by (by rewrite (wrote_icache _ _ _ (al_wrote _ _ _ Hal))).
  unfold set_addr. by run (modi_run ip x); [|done].
Qed.

(** A direct block that is not there yet. *)
Lemma bmap_direct ip k x ind blk s L bns :
  k_icache s !! ip = Some x → (k < NDIRECT)%nat → blk k = 0 → txn s L bns → fsys s L → ifile s x ind blk → owns s ind blk →
  1 ≤ lg_outstanding (k_log s) → frees 2 s → Z.of_nat (length bns) + 3 < LOGSIZE - 1 →
  ∃ s' x' blk' bns', bmap ip (Z.of_nat k) s = Ok (blk' k) s' ∧ mapped ip k L s x ind blk bns s' x' ind blk' bns'.
Proof using Hw.
  intros Hx Hk Hb Htx Hfs Hf Hown Ho Hfree Hlen. pose proof (bm_range _ _ _ _ Htx Hfs) as [Hbm _]. pose proof (fs_log _ _ Hfs) as Hlog.
  assert (i_addrs x !! k = Some 0) as Haddr by (rewrite (if_direct _ _ _ _ Hf) by done; by rewrite Hb).
  destruct (addr_alloc_new ip k x s L bns) as (a & s1 & Hr & Hal & Htx1 & Ho1); [done|done|apply Hf|done|done|done|by eapply frees_some|lia|].
  pose proof (al_data _ _ _ Hal) as Hda. pose proof (al_wrote _ _ _ Hal) as Hw1.
  set (x' := x <| i_addrs ::= <[k := a]> |>) in *. set (s2 := with_ic ip x' s1) in *.
  assert (k < MAXBLK)%nat as HkM by (unfold MAXBLK; lia).
  assert (∀ j, (j < MAXBLK)%nat → blk j ≠ a) as Hnew.
  { intros j Hj E. destruct (ow_blk _ _ _ Hown j Hj) as (_ & Hu & _); [lia|]. rewrite E in Hu. by apply (not_free_used s a), Hal. }
  assert (a ≠ ind) as Hai.
  { intros E. destruct (ow_ind _ _ _ Hown) as [_ Hu]; [lia|]. rewrite <-E in Hu. by apply (not_free_used s a), Hal. }
  assert (ifile s2 x' ind (setb blk k a)) as Hf2.
  { destruct (allocated_ifile s a s1 x ind blk ltac:(lia) Hal Hown Hf) as [E1 E0 E2 E3 E4 E5 E6]. apply ifile_ic. split; try done.
    - unfold x'. simpl. by rewrite length_insert.
    - intros j Hj. unfold x'. simpl. destruct (decide (j = k)) as [->|Hne].
      + rewrite setb_eq. apply list_lookup_insert_eq. by eapply lookup_lt_Some.
      + rewrite setb_ne, list_lookup_insert_ne by done. by apply E2.
    - unfold x'. simpl. rewrite list_lookup_insert_ne by lia. done.
    - intros Hi j Hj. rewrite setb_ne by lia. by apply E4.
    - intros Hi. destruct (E5 Hi) as (? & d & ? & ? & Hd). split; [done|]. exists d. split_and!; [done|done|].
      intros j Hj. rewrite setb_ne by lia. by apply Hd.
    - intros j Hj. destruct (decide (j = k)) as [->|Hne].
      + rewrite setb_eq. intros _. pose proof (fs_size _ _ Hfs). rewrite (wrote_len _ _ _ Hw1). split; [lia|]. eexists. split; [apply Hal|]. by rewrite length_replicate.
      + rewrite setb_ne by done. by apply E6. }
  assert (owns s2 ind (setb blk k a)) as Hown2.
  { apply owns_ic, owns_set; [by eapply allocated_owns| |by eapply allocated_taken|done|done].
    unfold bm. rewrite (wrote_sb _ _ _ Hw1). done. }
  exists s2, x', (setb blk k a), (logging a (logging (bm s) bns)). rewrite setb_eq. split.
  - unfold bmap. rewrite (proj2 (Z.ltb_lt _ _)) by lia. by rewrite Nat2Z.id.
  - split; rewrite ?setb_eq; try done.
    + lia.
    + intros j Hj. by apply setb_ne.
    + intros _. split; [|apply Hal]. apply elem_logging. by right.
    + unfold s2. simpl. by rewrite (wrote_icache _ _ _ Hw1).
    + by apply txn_ic.
    + pose proof (length_logging a (logging (bm s) bns)). pose proof (length_logging (bm s) bns). lia.
    + intros m. rewrite !elem_logging. intros [[?| ->]| ->]; [by left|right; lia..].
    + apply fsys_ic. apply (allocated_fsys s a s1 L); [lia|done|done].
    + eapply fs_step_trans; [by apply wrote_step|apply step_ic].
    + intros m Hm Hmb _ Hmf. exact (allocated_old _ _ _ _ Hal Hm Hmb Hmf).
    + by left.
    + intros b Hbu. exact (allocated_use _ _ _ _ Hal Hbu).
    + intros n Hn. by apply (allocated_frees s a s1 n Hal), (frees_le (S (S n))); [|lia].
Qed.

(** bmap after it has found the indirect block. *)
Definition ind_part (ip : nat) (bn addr : Z) : K Z :=
  x <- geti ip;
  i <- bread (i_dev x) addr;
  b <- getb i;
  let o := Z.to_nat (4 * bn) in
  let addr := rd32 o (b_data b) in
  r <- (if addr =? 0 then
          a <- balloc (i_dev x);
          modb i (λ b, b <| b_data ::= wr32 o a |>);;
          log_write i;;
          ret a
        else ret addr);
  brelse i;;
  ret r.

Lemma bmap_indirect ip k :
  (NDIRECT ≤ k < MAXBLK)%nat → bmap ip (Z.of_nat k) = (addr <- addr_alloc ip NDIRECT; ind_part ip (Z.of_nat (k - NDIRECT)) addr).
Proof using.
  clear Hw. intros Hk. unfold bmap, MAXBLK in *. rewrite (proj2 (Z.ltb_ge _ _)), (proj2 (Z.ltb_lt _ _)) by lia.
  by replace (Z.of_nat k - Z.of_nat NDIRECT) with (Z.of_nat (k - NDIRECT)) by lia.
Qed.

Lemma ind_part_run ip j x ind d s L bns :
  k_icache s !! ip = Some x → i_dev x = 1 → (j < NINDIRECT)%nat → txn s L bns → fsys s L → 
  vw s ind = Some d → length d = BSZ → bm s < ind < sb_size (k_sb s) → in_use s ind → rd32 (4 * j) d = 0 →
  1 ≤ lg_outstanding (k_log s) → (∃ a, is_free s a) → Z.of_nat (length bns) + 3 < LOGSIZE →
  ∃ a s1 s2, ind_part ip (Z.of_nat j) ind s = Ok a s2 ∧ allocated s a s1 ∧ a ≠ ind ∧
    txn s2 L (logging ind (logging a (logging (bm s) bns))) ∧ wrote [] s s2 ∧ outs s s2 ∧
    (∀ m, 0 ≤ m → vw s2 m = if decide (m = ind) then Some (wr32 (4 * j) a d) else vw s1 m).
Proof using Hw.
  intros Hx Hdev Hj Htx Hfs Hd Hdl Hind Hu Hrd Ho Hfree Hlen. pose proof (bm_range _ _ _ _ Htx Hfs) as [Hbm Hsz].
  pose proof (fs_size _ _ Hfs) as [Hsize _].
  assert (can_read ∅ ind s) as Hcr by (eapply txn_can_read; [done|lia|rewrite size_empty; unfold LOGSIZE, MAXOPBLOCKS, NBUF in *; lia|set_solver]).
  destruct (editing_read ∅ ind d s Hw (tx_io _ _ _ Htx) Hd Hcr) as (i & s0 & Hr0 & He0).
  pose proof (editing_txn _ _ _ _ _ _ _ _ Htx He0) as Htx0. destruct He0 as (_ & Hw0 & Hl0 & [Hi _] & (b & Hb & Hbx & Hbd) & Hv0 & _ & _).
  assert (∀ m, 0 ≤ m → vw s0 m = vw s m) as Hv0' by (intros m Hm; rewrite Hv0 by done; case_decide; [by subst|done]).
  assert (bits s0 = bits s) as Eb0 by (unfold bits, bm; rewrite (wrote_sb _ _ _ Hw0); fold (bm s); rewrite Hv0' by lia; done).
  destruct (balloc_run Hw ({[i]} ∪ ∅) s0 L bns) as (a & s1 & Hr1 & Hal & Htx1 & Ho1 & Hsb1).
  { done. } { eapply fsys_ext; [by eapply wrote_sb|by eapply wrote_len|done|lia|done]. } { by rewrite Hl0. }
  { destruct Hfree as (a & Ha & Hbit). exists a. split; [by rewrite (wrote_sb _ _ _ Hw0)|by rewrite Eb0]. } { lia. }
  { rewrite union_empty_r_L, size_singleton. unfold LOGSIZE, MAXOPBLOCKS, NBUF in *. lia. }
  { intros k c Hk Hc. assert (k = i) as -> by set_solver. assert (c = b) as -> by congruence. rewrite Hbx.
    unfold bm. rewrite (wrote_sb _ _ _ Hw0). fold (bm s). split; [lia|]. unfold in_use. by rewrite Eb0. }
  pose proof (allocated_base _ _ _ _ Hal Hw0 Hv0' ltac:(lia)) as Hal'.
  replace (bm s0) with (bm s) in Htx1 by (unfold bm; by rewrite (wrote_sb _ _ _ Hw0)).
  assert (∃ b1, k_bufs s1 !! i = Some b1 ∧ b_blockno b1 = ind ∧ b_data b1 = d) as (b1 & Hb1 & Hb1x & Hb1d).
  { specialize (Hsb1 i ltac:(set_solver)). rewrite Hb in Hsb1. destruct (k_bufs s1 !! i) as [b1|]; [|done]. exists b1. injection Hsb1 as Hc.
    split; [done|]. rewrite <-Hbx, <-Hbd. by destruct b, b1; inversion Hc. }
  destruct (modb_txn _ i b1 (wr32 (4 * j) a) s1 L _ Htx1 Hi ltac:(set_solver) Hb1) as (Hr2 & Htx2 & Hv2). rewrite Hb1x, Hb1d in Hv2.
  set (b2 := b1 <| b_data ::= wr32 (4 * j) a |>) in *. set (s2 := s1 <| k_bufs ::= <[i := b2]> |>) in *.
  pose proof (length_logging a (logging (bm s) bns)) as Hg1. pose proof (length_logging (bm s) bns) as Hg2.
  assert (wrote [] s s1) as Hw1 by exact (wrote_trans _ _ _ _ _ Hw0 (al_wrote _ _ _ Hal)).
  destruct (log_release ∅ i b2 s2 L (logging a (logging (bm s) bns))) as (s3 & Hr3 & Htx3 & Hw3 & Hl3 & Hv3 & _).
  { done. } { done. } { set_solver. } { apply list_lookup_insert_eq. by eapply lookup_lt_Some. }
  { change (b_blockno b2) with (b_blockno b1). rewrite Hb1x. change (disk_len s2) with (disk_len s1). rewrite (wrote_len _ _ _ Hw1).
    eapply data_home; [done|apply Htx|done|lia]. } { change (k_log s2) with (k_log s1). destruct Ho1. rewrite Hl0 in *. lia. } { lia. }
  change (b_blockno b2) with (b_blockno b1) in *. rewrite Hb1x in *. exists a, s1, s3. split_and!; try done.
  - unfold ind_part. run (geti_run ip x); [|done]. rewrite Hdev. rewrite (bind_ok _ _ _ _ _ Hr0). run (getb_run i b); [|done].
    replace (Z.to_nat (4 * Z.of_nat j)) with (4 * j)%nat by lia. rewrite Hbd, Hrd. cbn [Z.eqb].
    apply bind_Ok_inv in Hr3 as ([] & s3' & Hr3 & Hr4). 
    rewrite (bind_ok _ _ _ a s3') by (rewrite (bind_ok _ _ _ _ _ Hr1), (bind_ok _ _ _ _ _ Hr2), (bind_ok _ _ _ _ _ Hr3); done).
    by rewrite (bind_ok _ _ _ _ _ Hr4).
  - intros ->. by apply (not_free_used s ind), Hal'.
  - refine (wrote_trans [] [] _ _ _ Hw1 (wrote_trans [] [] _ _ _ _ Hw3)). split; [by destruct s1|apply woke_refl|done|done].
  - eapply (outs_trans _ s2); [|by eapply outs_record]. destruct Ho1. split; simpl; congruence.
  - intros m Hm. rewrite Hv3 by done. by apply Hv2.
Qed.

(** A block that is entered in the indirect block. *)
Lemma ifile_set_ind s1 s2 x ind blk k a d : ifile s1 x ind blk → (NDIRECT ≤ k < MAXBLK)%nat → ind ≠ 0 → disk_len s2 = disk_len s1 →
  length d = BSZ → (∀ k, (k < NINDIRECT)%nat → rd32 (4 * k) d = blk (NDIRECT + k)%nat) →
  (∀ m, 0 ≤ m → vw s2 m = if decide (m = ind) then Some (wr32 (4 * (k - NDIRECT)) a d) else vw s1 m) →
  0 ≤ a < 2 ^ 31 → a < disk_len s1 → a ≠ ind → vw s1 a = Some (replicate BSZ 0) → (∀ j, (j < MAXBLK)%nat → blk j ≠ 0 → blk j ≠ ind) →
  ifile s2 x ind (setb blk k a).
Proof using Hw.
  intros [E1 E0 E2 E3 E4 E5 E6] Hk Hi0 HN Hdl Hrd Hv Ha HaN Hai Hva Hni. destruct (E5 Hi0) as [Hind _]. split; try done.
  - intros j Hj. rewrite setb_ne by lia. by apply E2.
  - intros _. rewrite HN. split; [done|]. exists (wr32 (4 * (k - NDIRECT)) a d). rewrite Hv, decide_True by (done || lia).
    split_and!; [done|by rewrite length_wr|]. intros j Hj. unfold MAXBLK, BSZ, NDIRECT, NINDIRECT in *. destruct (decide (j = k - 12)%nat) as [->|Hne].
    + rewrite rd_wr_eq by lia. replace (12 + (k - 12))%nat with k by lia. rewrite setb_eq. apply Z.mod_small. lia.
    + rewrite rd_wr_ne by lia. rewrite setb_ne by lia. by apply Hrd.
  - intros j Hj. rewrite HN. destruct (decide (j = k)) as [->|Hne].
    + rewrite setb_eq. intros _. split; [lia|]. eexists. rewrite Hv, decide_False by (done || lia). split; [done|]. by rewrite length_replicate.
    + rewrite setb_ne by done. intros Hbj. destruct (E6 j Hj Hbj) as (Hrg & dj & Hvj & Hlj). split; [done|].
      exists dj. pose proof (Hni j Hj Hbj). by rewrite Hv, decide_False by (done || lia).
Qed.

(** A block that the indirect block does not have yet. *)
Lemma bmap_ind_new ip k x ind blk s L bns :
  k_icache s !! ip = Some x → (NDIRECT ≤ k < MAXBLK)%nat → blk k = 0 → ind ≠ 0 → txn s L bns → fsys s L → ifile s x ind blk → owns s ind blk →
  1 ≤ lg_outstanding (k_log s) → (∃ a, is_free s a) → Z.of_nat (length bns) + 3 < LOGSIZE →
  ∃ s' a, ind_part ip (Z.of_nat (k - NDIRECT)) ind s = Ok a s' ∧
    mapped ip k L s x ind blk bns s' x ind (setb blk k a) (logging ind (logging a (logging (bm s) bns))) ∧
    (∀ n, frees (S n) s → frees n s').
Proof using Hw.
  intros Hx Hk Hb Hi0 Htx Hfs Hf Hown Ho Hfree Hlen. pose proof (bm_range _ _ _ _ Htx Hfs) as [Hbm Hsz].
  destruct (if_some _ _ _ _ Hf Hi0) as (_ & d & Hvd & Hdl & Hrd). destruct (ow_ind _ _ _ Hown Hi0) as [Hind Hu].
  assert (rd32 (4 * (k - NDIRECT)) d = 0) as Hrd0.
  { rewrite Hrd by (unfold MAXBLK in Hk; lia). by replace (NDIRECT + (k - NDIRECT))%nat with k by lia. }
  destruct (ind_part_run ip (k - NDIRECT) x ind d s L bns) as (a & s1 & s2 & Hr & Hal & Hai & Htx2 & Hw2 & Ho2 & Hv2);
    [done|apply Hf|unfold MAXBLK in Hk; lia|done..|].
  pose proof (al_data _ _ _ Hal) as Hda. pose proof (al_wrote _ _ _ Hal) as Hw1.
  assert (k_sb s1 = k_sb s) as Hsb1 by (by eapply wrote_sb). assert (k_sb s2 = k_sb s) as Hsb2 by (by eapply wrote_sb).
  assert (disk_len s1 = disk_len s) as HN1 by (by eapply wrote_len). assert (disk_len s2 = disk_len s) as HN2 by (by eapply wrote_len).
  assert (bm s1 = bm s) as Ebm1 by (unfold bm; by rewrite Hsb1).
  assert (bits s2 = bits s1) as Eb2 by (eapply bits_upd; [by rewrite Hsb2|done|lia|lia]).
  assert (∀ j, (j < MAXBLK)%nat → blk j ≠ a) as Hnew.
  { intros j Hj E. destruct (ow_blk _ _ _ Hown j Hj) as (_ & Hub & _); [lia|]. rewrite E in Hub. by apply (not_free_used s a), Hal. }
  assert (∀ b, in_use s1 b → in_use s2 b) as Huse by (unfold in_use; by rewrite Eb2).
  exists s2, a. split; [done|]. split.
  - pose proof (allocated_ifile s a s1 x ind blk ltac:(lia) Hal Hown Hf) as Hf1.
    split; rewrite ?setb_eq; try done.
    + lia.
    + intros j Hj. by apply setb_ne.
    + intros _. split; [|apply Hal]. rewrite elem_logging. left. apply elem_logging. by right.
    + by destruct x.
    + rewrite (wrote_icache _ _ _ Hw2). by rewrite list_insert_id.
    + pose proof (length_logging ind (logging a (logging (bm s) bns))). pose proof (length_logging a (logging (bm s) bns)).
      pose proof (length_logging (bm s) bns). lia.
    + intros m. rewrite !elem_logging. pose proof (fs_log _ _ Hfs). intros [[[?| ->]| ->]| ->]; [by left|right; lia..].
    + apply (fsys_upd s1 s2 ind (wr32 (4 * (k - NDIRECT)) a d)); [congruence|congruence|done|lia|lia|by rewrite length_wr|].
      apply (allocated_fsys s a s1 L); [lia|done|done].
    + pose proof (fs_size _ _ Hfs). apply (ifile_set_ind s1 s2 x ind blk k a d); try done; try congruence; try lia; [apply Hal|].
      intros j Hj Hbj. by destruct (ow_blk _ _ _ Hown j Hj Hbj) as (_ & _ & Hji).
    + pose proof (allocated_owns _ _ _ _ _ Hal Hown) as Hown1. pose proof (allocated_taken _ _ _ Hal) as Htk.
      apply (owns_set s2 ind blk k a); [|unfold bm; rewrite Hsb2; fold (bm s); lia|by apply Huse|done|done].
      destruct Hown1 as [O1 O2 O3]. split; unfold bm in *; rewrite ?Hsb2, ?Hsb1 in *; try done.
      * intros Hne. destruct (O1 Hne). split; [done|by apply Huse].
      * intros j Hj Hbj. destruct (O2 j Hj Hbj) as (? & ? & ?). split_and!; try lia. by apply Huse.
    + by apply wrote_step.
    + intros m Hm Hmb Hmi Hmf. rewrite Hv2, decide_False by done. by eapply allocated_old.
    + by left.
    + intros b Hbu. apply Huse. by eapply allocated_use.
    + intros n Hn. assert (frees n s1) as (l & ? & ? & Hl) by (apply (allocated_frees s a s1 n Hal), (frees_le (S (S n))); [done|lia]).
      exists l. split_and!; try done. unfold is_free in *. by rewrite Eb2, Hsb2, <-Hsb1.
  - intros n Hn. destruct (allocated_frees s a s1 n Hal Hn) as (l & ? & ? & Hl).
    exists l. split_and!; try done. unfold is_free in *. by rewrite Eb2, Hsb2, <-Hsb1.
Qed.

(** The indirect block is allocated first. *)
Lemma new_indirect ip x blk s L bns :
  k_icache s !! ip = Some x → txn s L bns → fsys s L → ifile s x 0 blk → owns s 0 blk →
  1 ≤ lg_outstanding (k_log s) → (∃ a, is_free s a) → Z.of_nat (length bns) + 2 < LOGSIZE →
  ∃ a s1 s2 x', addr_alloc ip NDIRECT s = Ok a s2 ∧ s2 = with_ic ip x' s1 ∧ x' = x <| i_addrs := i_addrs x' |> ∧
    k_icache s2 = <[ip := x']> (k_icache s) ∧ allocated s a s1 ∧ txn s2 L (logging a (logging (bm s) bns)) ∧ outs s s1 ∧
    fsys s2 L ∧ ifile s2 x' a blk ∧ owns s2 a blk.
Proof using Hw.
  intros Hx Htx Hfs Hf Hown Ho Hfree Hlen. pose proof (bm_range _ _ _ _ Htx Hfs) as [Hbm Hsz].
  destruct (addr_alloc_new ip NDIRECT x s L bns) as (a & s1 & Hr & Hal & Htx1 & Ho1); [done|apply Hf|apply Hf|done|done|done|done|lia|].
  pose proof (al_data _ _ _ Hal) as Hda. pose proof (al_wrote _ _ _ Hal) as Hw1.
  set (x' := x <| i_addrs ::= <[NDIRECT := a]> |>) in *. exists a, s1, (with_ic ip x' s1), x'.
  destruct (allocated_ifile s a s1 x 0 blk ltac:(lia) Hal Hown Hf) as [E1 E0 E2 E3 E4 E5 E6].
  assert (∀ j, (j < MAXBLK)%nat → blk j ≠ a) as Hnew.
  { intros j Hj E. destruct (ow_blk _ _ _ Hown j Hj) as (_ & Hub & _); [lia|]. rewrite E in Hub. by apply (not_free_used s a), Hal. }
  split_and!; try done.
  - simpl. by rewrite (wrote_icache _ _ _ Hw1).
  - by apply txn_ic.
  - apply fsys_ic, (allocated_fsys s a s1 L); [lia|done|done].
  - apply ifile_ic. split; try done.
    + unfold x'. simpl. by rewrite length_insert.
    + intros k Hk. unfold x'. simpl. rewrite list_lookup_insert_ne by (unfold NDIRECT in *; lia). by apply E2.
    + unfold x'. simpl. apply list_lookup_insert_eq. by eapply lookup_lt_Some.
    + intros ->. lia.
    + intros _. rewrite (wrote_len _ _ _ Hw1). pose proof (fs_size _ _ Hfs). split; [lia|]. eexists. split_and!; [apply Hal|by rewrite length_replicate|].
      intros k Hk. rewrite rd_zeros, E4 by (done || lia). done.
  - apply owns_ic. destruct (allocated_owns _ _ _ _ _ Hal Hown) as [O1 O2 O3]. split; [| |done].
    + intros _. split; [unfold bm; by rewrite (wrote_sb _ _ _ Hw1)|by eapply allocated_taken].
    + intros k Hk Hbk. destruct (O2 k Hk Hbk) as (? & ? & _). split_and!; [lia|lia|done|by apply Hnew].
Qed.

(** A block that is there. *)
Lemma bmap_kept ip k x ind blk s L bns :
  k_icache s !! ip = Some x → (k < MAXBLK)%nat → blk k ≠ 0 → txn s L bns → fsys s L → ifile s x ind blk → owns s ind blk →
  Z.of_nat (length bns) + 4 < LOGSIZE - 1 →
  ∃ s', bmap ip (Z.of_nat k) s = Ok (blk k) s' ∧ mapped ip k L s x ind blk bns s' x ind blk bns.
Proof using Hw.
  intros Hx Hk Hb Htx Hfs Hf Hown Hlen.
  assert (mod_le (NBUF - 1) s) as Hml.
  { apply (mod_le_list bns); [intros m; apply (tx_mod _ _ _ Htx)|unfold LOGSIZE, MAXOPBLOCKS, NBUF in *; lia]. }
  destruct (bmap_old Hw ip x ind blk k s) as (s' & Hr & [Hio' Hw' Hl' Hv' Hm']); [apply Htx|done..|].
  pose proof (wrote_sb _ _ _ Hw') as Hsb. pose proof (wrote_len _ _ _ Hw') as HN.
  assert (bits s' = bits s) as Eb by (unfold bits, bm; by rewrite Hsb, Hv').
  exists s'. split; [done|]. split; try done.
  - by destruct x.
  - rewrite (wrote_icache _ _ _ Hw'). by rewrite list_insert_id.
  - destruct Htx as [T1 T2 T3 T4 T5 T6]. split; rewrite ?Hl', ?HN, ?(w_disk _ _ _ Hw'); try done. intros m. by rewrite Hm'.
  - lia.
  - by left.
  - destruct Hfs as [F1 F2 F3 F4 F5]. split; unfold in_use, bm in *; rewrite ?Hsb, ?HN, ?Eb; try done. intros m Hm0. rewrite Hv'. by apply F4.
  - eapply ifile_ext; [done|intros m _; apply Hv'|done].
  - destruct Hown as [O1 O2 O3]. split; unfold in_use, bm in *; rewrite ?Hsb, ?Eb; done.
  - apply wrote_step; [done|]. split; by rewrite Hl'.
  - by left.
  - unfold in_use. by rewrite Eb.
  - intros n Hn. unfold frees, is_free in *. rewrite Eb, Hsb. by apply (frees_le (S (S n)) n s); [|lia].
Qed.

(** Neither the block nor the indirect block is there. *)
Lemma bmap_both ip k x blk s L bns :
  k_icache s !! ip = Some x → (NDIRECT ≤ k < MAXBLK)%nat → blk k = 0 → txn s L bns → fsys s L → ifile s x 0 blk → owns s 0 blk →
  1 ≤ lg_outstanding (k_log s) → frees 2 s → Z.of_nat (length bns) + 4 < LOGSIZE - 1 →
  ∃ s' x' ind' blk' bns', bmap ip (Z.of_nat k) s = Ok (blk' k) s' ∧ mapped ip k L s x 0 blk bns s' x' ind' blk' bns'.
Proof using Hw.
  intros Hx Hk Hb Htx Hfs Hf Hown Ho Hfree Hlen. rewrite bmap_indirect by lia.
  destruct (new_indirect ip x blk s L bns) as (a1 & s1 & s2 & x2 & Hr1 & Es2 & Hx2 & Hic & Hal & Htx2 & Ho1 & Hfs2 & Hf2 & Hown2);
    [done|done|done|done|done|done|by eapply frees_some|lia|]. rewrite (bind_ok _ _ _ _ _ Hr1).
  pose proof (al_data _ _ _ Hal) as Hda. pose proof (al_wrote _ _ _ Hal) as Hw1. pose proof (bm_range _ _ _ _ Htx Hfs) as [Hbm _].
  assert (bm s2 = bm s) as Ebm by (rewrite Es2; unfold bm; simpl; by rewrite (wrote_sb _ _ _ Hw1)).
  assert (frees 1 s2) as Hfree2 by (rewrite Es2; exact (allocated_frees s a1 s1 1 Hal Hfree)).
  assert (logging (bm s) (logging a1 (logging (bm s) bns)) = logging a1 (logging (bm s) bns)) as El.
  { unfold logging at 1. rewrite decide_True; [done|]. rewrite elem_logging. left. apply elem_logging. by right. }
  pose proof (length_logging a1 (logging (bm s) bns)) as G1. pose proof (length_logging (bm s) bns) as G2.
  destruct (bmap_ind_new ip k x2 a1 blk s2 L (logging a1 (logging (bm s) bns))) as (s' & a & Hr2 & Hm & Hfr).
  { rewrite Hic. apply list_lookup_insert_eq. by eapply lookup_lt_Some. } { lia. } { done. } { lia. } { done. } { done. } { done. } { done. }
  { rewrite Es2. simpl. destruct Ho1. lia. } { by eapply frees_some. } { lia. }
  rewrite Ebm, El in Hm. exists s', x2, a1, (setb blk k a), (logging a1 (logging a (logging a1 (logging (bm s) bns)))).
  rewrite setb_eq. split; [done|]. assert (logging a1 (logging a (logging a1 (logging (bm s) bns))) = logging a (logging a1 (logging (bm s) bns))) as El2.
  { unfold logging at 1. rewrite decide_True; [done|]. rewrite elem_logging. left. apply elem_logging. by right. }
  rewrite El2 in *. assert (∀ m, is_free s2 m → is_free s m) as Hnf.
  { intros m [Hr3 Hb3]. rewrite Es2 in Hr3, Hb3. simpl in Hr3, Hb3. change (bits (with_ic ip x2 s1)) with (bits s1) in Hb3.
    rewrite (wrote_sb _ _ _ Hw1) in Hr3. split; [done|]. rewrite (al_bits _ _ _ Hal) in Hb3. by case_decide. }
  destruct Hm as [M1 M2 M3 M4 M5 M6 M7 M8 M0 M9 M10 M11 M12 M13 M14 M15 M16]. split; try done.
  - intros Hb0. destruct (M4 Hb0) as [? ?]. split; [done|by apply Hnf].
  - rewrite M6, Hic. by rewrite list_insert_insert_eq.
  - pose proof (length_logging a (logging a1 (logging (bm s) bns))). lia.
  - pose proof (fs_log _ _ Hfs). intros m [Hm|?]%M0; [|by right]. revert Hm. rewrite !elem_logging. intros [[?| ->]| ->]; [by left|right; lia..].
  - eapply fs_step_trans; [|exact M12]. rewrite Es2. eapply fs_step_trans; [by apply wrote_step|apply step_ic].
  - intros m Hm0 Hmb Hmi Hmf. rewrite M13 by (done || (rewrite ?Ebm; done) || by intros ?%Hnf). rewrite Es2.
    exact (allocated_old _ _ _ _ Hal Hm0 Hmb Hmf).
  - right. apply Hal.
  - intros b Hbu. apply M15. rewrite Es2. exact (allocated_use _ _ _ _ Hal Hbu).
  - intros n Hn. apply Hfr. rewrite Es2. by apply (allocated_frees s a1 s1 (S n) Hal).
Qed.

(** bmap gives the disk block of a file block that is there, and otherwise takes a
    free block, cleared and marked in the bitmap, and links it into the inode or its
    indirect block, which it takes too when there is none. *)
Lemma bmap_run ip k x ind blk s L bns :
  k_icache s !! ip = Some x → (k < MAXBLK)%nat → txn s L bns → fsys s L → ifile s x ind blk → owns s ind blk →
  1 ≤ lg_outstanding (k_log s) → frees 2 s → Z.of_nat (length bns) + 4 < LOGSIZE - 1 →
  ∃ s' x' ind' blk' bns', bmap ip (Z.of_nat k) s = Ok (blk' k) s' ∧ mapped ip k L s x ind blk bns s' x' ind' blk' bns'.
Proof using Hw.
  intros Hx Hk Htx Hfs Hf Hown Ho Hfree Hlen. destruct (decide (blk k = 0)) as [Hb|Hb].
  2: { destruct (bmap_kept ip k x ind blk s L bns) as (s' & Hr & Hm); [done..|]. by exists s', x, ind, blk, bns. }
  destruct (decide (k < NDIRECT)%nat) as [Hd|Hd].
  { destruct (bmap_direct ip k x ind blk s L bns) as (s' & x' & blk' & bns' & Hr & Hm); [done..|lia|]. by exists s', x', ind, blk', bns'. }
  destruct (decide (ind = 0)) as [->|Hi]; [apply bmap_both; by try lia|]. rewrite bmap_indirect by lia.
  rewrite (bind_ok _ _ _ ind s) by (eapply addr_alloc_old; [done|apply Hf|done]).
  destruct (bmap_ind_new ip k x ind blk s L bns) as (s' & a & Hr & Hm & _); [done|lia|done|done|done|done|done|done|done|by eapply frees_some|lia|].
  eexists s', x, ind, (setb blk k a), _. rewrite setb_eq. by split.
Qed.
End bmap_alloc.

(** ** Writing *)

(** [src] over the bytes from [off]. *)
Definition splice (off : nat) (src data : list Z) : list Z := take off data ++ src ++ drop (off + length src) data.

Lemma splice_nil off data : splice off [] data = data.
Proof. unfold splice. simpl. rewrite Nat.add_0_r. apply take_drop. Qed.

Lemma length_splice off src data :
  (off ≤ length data)%nat → length (splice off src data) = Nat.max (length data) (off + length src).
Proof. intros Hl. unfold splice. rewrite !length_app, length_take, length_drop. lia. Qed.

Lemma lookup_splice off src data n :
  (off ≤ length data)%nat →
  splice off src data !! n =
    if decide (n < off)%nat then data !! n else if decide (n < off + length src)%nat then src !! (n - off)%nat else data !! n.
Proof.
  intros Hl. unfold splice. assert (length (take off data) = off) as E by (rewrite length_take; lia). case_decide.
  - rewrite lookup_app_l by lia. by rewrite lookup_take_lt.
  - rewrite lookup_app_r by lia. rewrite E. case_decide.
    + by rewrite lookup_app_l by lia.
    + rewrite lookup_app_r by lia. rewrite lookup_drop. f_equal. lia.
Qed.

Lemma splice_app off src src' data :
  (off ≤ length data)%nat → splice (off + length src) src' (splice off src data) = splice off (src ++ src') data.
Proof.
  intros Hl. apply list_eq. intros n. rewrite lookup_splice by (rewrite length_splice by done; lia). rewrite !lookup_splice by done.
  rewrite length_app. repeat case_decide; try lia; try done.
  - by rewrite lookup_app_l by lia.
  - rewrite lookup_app_r by lia. f_equal. lia.
Qed.

(** A file that is being changed. *)
Record fstate (ip : nat) (L : Z) (s : kst) (x : inode) (ind : Z) (blk : nat → Z) (data : list Z) (bns : list Z) : Prop := {
  fs_x : k_icache s !! ip = Some x;
  fs_txn : txn s L bns;
  fs_sys : fsys s L;
  fs_file : ifile s x ind blk;
  fs_owns : owns s ind blk;
  fs_holds : holds s blk data;
  fs_max : (length data ≤ MAXBLK * BSZ)%nat;
}.

(** A block that is neither free, nor the bitmap, nor of the file. *)
Definition foreign (s : kst) (ind : Z) (blk : nat → Z) (m : Z) : Prop :=
  0 ≤ m ∧ m ≠ bm s ∧ ¬ is_free s m ∧ m ≠ ind ∧ ∀ k, (k < MAXBLK)%nat → m ≠ blk k.

Record changed (ip : nat) (s : kst) (x : inode) (ind : Z) (blk : nat → Z)
    (s' : kst) (x' : inode) (ind' : Z) (blk' : nat → Z) : Prop := {
  ch_step : fs_step s s';
  ch_x : x' = x <| i_addrs := i_addrs x' |>;
  ch_ic : k_icache s' = <[ip := x']> (k_icache s);
  ch_foreign : ∀ m, foreign s ind blk m → foreign s' ind' blk' m ∧ vw s' m = vw s m;
}.

Lemma changed_refl ip s x ind blk : k_icache s !! ip = Some x → changed ip s x ind blk s x ind blk.
Proof. intros Hx. split; [apply fs_step_refl|by destruct x|by rewrite list_insert_id|done]. Qed.

Lemma changed_trans ip s1 x1 i1 b1 s2 x2 i2 b2 s3 x3 i3 b3 :
  changed ip s1 x1 i1 b1 s2 x2 i2 b2 → changed ip s2 x2 i2 b2 s3 x3 i3 b3 → changed ip s1 x1 i1 b1 s3 x3 i3 b3.
Proof.
  intros [S1 X1 I1 F1] [S2 X2 I2 F2]. split.
  - by eapply fs_step_trans.
  - rewrite X2 at 1. rewrite X1. by destruct x1.
  - rewrite I2, I1. by rewrite list_insert_insert_eq.
  - intros m Hm. destruct (F1 m Hm) as [Hm1 E1]. destruct (F2 m Hm1) as [Hm2 E2]. split; [done|congruence].
Qed.

(** What writing a chunk to a block of the file does to its bytes. *)
Lemma holds_write (v v1 v2 : Z → option (list Z)) blk blk1 data c d off :
  holds_in v blk data → (off ≤ length data)%nat → (off `mod` BSZ + length c ≤ BSZ)%nat → length d = BSZ →
  (∀ n, data !! n = None ∨ blk1 (n / BSZ)%nat = blk (n / BSZ)%nat ∧ v1 (blk (n / BSZ)%nat) = v (blk (n / BSZ)%nat)) →
  (∀ n, is_Some (splice off c data !! n) → blk1 (n / BSZ)%nat = blk1 (off / BSZ)%nat → (n / BSZ = off / BSZ)%nat) →
  blk1 (off / BSZ)%nat ≠ 0 → v1 (blk1 (off / BSZ)%nat) = Some d →
  (∀ n, is_Some (splice off c data !! n) →
     v2 (blk1 (n / BSZ)%nat) = if decide (blk1 (n / BSZ)%nat = blk1 (off / BSZ)%nat) then Some (list_inserts (off `mod` BSZ) c d) else v1 (blk1 (n / BSZ)%nat)) →
  holds_in v2 blk1 (splice off c data).
Proof.
  intros Hh Hoff Hc Hd Hold Hinj Hne Hvd Hv2 n b Hb. assert (is_Some (splice off c data !! n)) as HS by eauto. rewrite Hv2 by done.
  rewrite lookup_splice in Hb by done. destruct (decide (blk1 (n / BSZ)%nat = blk1 (off / BSZ)%nat)) as [E|E].
  - split; [congruence|]. eexists. split; [done|]. assert (n / BSZ = off / BSZ)%nat as Ek by (by apply Hinj).
    pose proof (Nat.div_mod_eq n BSZ). pose proof (Nat.div_mod_eq off BSZ). assert (n `mod` BSZ < BSZ)%nat by (by apply Nat.mod_upper_bound).
    assert (data !! n = Some b → d !! (n `mod` BSZ)%nat = Some b) as Hkeep.
    { intros Hn. destruct (Hh n b Hn) as (_ & d' & Hd' & Hb'). destruct (Hold n) as [?|[E1 E2]]; [congruence|]. rewrite <-E2, <-E1, E, Hvd in Hd'. by injection Hd' as <-. }
    destruct (decide (n < off)%nat); [|destruct (decide (n < off + length c)%nat)].
    + rewrite list_lookup_inserts_lt by lia. auto.
    + rewrite list_lookup_inserts by lia. rewrite <-Hb. f_equal. lia.
    + rewrite list_lookup_inserts_ge by lia. auto.
  - destruct (decide (n < off + length c)%nat) as [Hn|Hn]; [destruct (decide (n < off)%nat) as [Hn'|Hn']|].
    + destruct (Hh n b Hb) as (Hz & Hx). destruct (Hold n) as [?|[-> ->]]; [congruence|done].
    + exfalso. apply E. f_equal. replace n with (off + (n - off))%nat by lia. apply in_block. lia.
    + rewrite decide_False in Hb by lia. destruct (Hh n b Hb) as (Hz & Hx). destruct (Hold n) as [?|[-> ->]]; [congruence|done].
Qed.

(** Blocks of no concern stay so when a block is mapped. *)
Lemma mapped_foreign ip k L s x ind blk bns s1 x1 ind1 blk1 bns1 :
  fsys s L → mapped ip k L s x ind blk bns s1 x1 ind1 blk1 bns1 →
  ∀ m, foreign s ind blk m → foreign s1 ind1 blk1 m ∧ vw s1 m = vw s m.
Proof.
  intros Hfs Hmp m (Hm0 & Hmb & Hmf & Hmi & Hmk). pose proof (step_sb _ _ (mp_step _ _ _ _ _ _ _ _ _ _ _ _ _ Hmp)) as Hsb.
  pose proof (fs_log _ _ Hfs) as Hlog. pose proof (fs_size _ _ Hfs) as Hsz. pose proof (mp_fsys _ _ _ _ _ _ _ _ _ _ _ _ _ Hmp) as Hfs1.
  pose proof (fs_size _ _ Hfs1) as Hsz1. pose proof (pl_log _ _ _ (tx_placed _ _ _ (mp_txn _ _ _ _ _ _ _ _ _ _ _ _ _ Hmp))) as (HL & _).
  assert (bm s1 = bm s) as Ebm by (unfold bm; by rewrite Hsb).
  destruct Hmp as [M1 M2 M3 M4 M5 M6 M7 M8 M0 M9 M10 M11 M12 M13 M14 M15 M16].
  assert (m ≠ ind1) as Hmi1 by (destruct M14 as [->|?]; [done|by intros ->]). split; [|by apply M13]. split_and!; [done|by rewrite Ebm| |done|].
  - intros [Hr Hb]. rewrite Hsb in Hr. destruct (bit_set (bits s) (Z.to_nat m)) as [[]|] eqn:E.
    + specialize (M15 m E). unfold in_use in M15. congruence.
    + by apply Hmf.
    + unfold bit_set in E, Hb. apply fmap_None, lookup_ge_None in E. apply fmap_Some in Hb as (v & Hb & _). apply lookup_lt_Some in Hb.
      assert (length (bits s) = BSZ ∧ length (bits s1) = BSZ) as [E1 E2]; [|lia]. unfold bits. unfold LOGSIZE, MAXOPBLOCKS in *.
      destruct (fs_blocks _ _ Hfs (bm s)) as (? & -> & ?); [lia|]. destruct (fs_blocks _ _ Hfs1 (bm s1)) as (? & -> & ?); [lia|]. done.
  - intros j Hj. destruct (decide (j = k)) as [->|]; [|rewrite M2 by done; by apply Hmk]. destruct (decide (blk k = 0)) as [Hz|Hz].
    + destruct (M4 Hz) as [_ ?]. by intros ->.
    + destruct (M3 Hz) as (-> & _ & _). by apply Hmk.
Qed.

Section write.
  Context {BD : Bound} {DV : Devices} (Hw : (0 < wakeups)%nat).

(** The file after block [a = blk k] of it has been changed to [d]. *)
Lemma block_changed L s s' x ind blk k d :
  fsys s L → ifile s x ind blk → owns s ind blk → 0 ≤ bm s → (k < MAXBLK)%nat → blk k ≠ 0 → length d = BSZ → wrote [] s s' →
  (∀ m, 0 ≤ m → vw s' m = if decide (m = blk k) then Some d else vw s m) →
  fsys s' L ∧ ifile s' x ind blk ∧ owns s' ind blk ∧ bits s' = bits s.
Proof using.
  clear Hw BD DV. intros Hfs Hf Hown Hbm Hk Hb Hd Hwr Hv. destruct (ow_blk _ _ _ Hown k Hk Hb) as (Hrg & _ & Hki).
  pose proof (wrote_sb _ _ _ Hwr) as Hsb. pose proof (wrote_len _ _ _ Hwr) as HN.
  assert (bits s' = bits s) as Eb by (eapply bits_upd; [done|done|lia|lia]). split_and!; [by eapply fsys_upd; first [done|lia]| | |done].
  - destruct Hf as [E1 E0 E2 E3 E4 E5 E6]. split; rewrite ?HN; try done.
    + intros Hi. destruct (E5 Hi) as (? & d' & ? & ?). split; [done|]. exists d'. by rewrite Hv, decide_False by (done || lia).
    + intros j Hj Hbj. destruct (E6 j Hj Hbj) as (? & d' & ? & ?). split; [done|]. rewrite Hv by lia. case_decide; eauto.
  - destruct Hown as [O1 O2 O3]. split; unfold in_use, bm in *; rewrite ?Hsb, ?Eb; done.
Qed.

Lemma write_round ip L s x ind blk data bns off c :
  fstate ip L s x ind blk data bns → (off ≤ length data ≤ MAXBLK * BSZ)%nat → (0 < length c)%nat → (off `mod` BSZ + length c ≤ BSZ)%nat →
  (off + length c ≤ MAXBLK * BSZ)%nat → 1 ≤ lg_outstanding (k_log s) → frees 2 s → Z.of_nat (length bns) + 4 < LOGSIZE - 1 →
  ∃ s1 s2 x' ind' blk' bns', bmap ip (Z.of_nat (off / BSZ)) s = Ok (blk' (off / BSZ)%nat) s1 ∧ k_icache s1 !! ip = Some x' ∧
    (i <- bread 1 (blk' (off / BSZ)%nat); modb i (λ b, b <| b_data ::= list_inserts (off `mod` BSZ) c |>);; log_write i;; brelse i) s1 = Ok tt s2 ∧
    fstate ip L s2 x' ind' blk' (splice off c data) bns' ∧ changed ip s x ind blk s2 x' ind' blk' ∧
    (length bns' ≤ length bns + 3)%nat ∧ (∀ n, frees (S (S n)) s → frees n s2) ∧ ((off < length data)%nat → x' = x) ∧ (∀ m, m ∈ bns' → m ∈ bns ∨ L + LOGSIZE ≤ m).
Proof using Hw.
  intros [Hx Htx Hfs Hf Hown Hh Hmx] Hoff Hc Hblk Hmax Ho Hfree Hlen. set (k := (off / BSZ)%nat).
  pose proof (bm_range _ _ _ _ Htx Hfs) as [Hbm _].
  assert (∀ n, (n < MAXBLK * BSZ)%nat → (n / BSZ < MAXBLK)%nat) as Hin by (intros n Hn; apply Nat.Div0.div_lt_upper_bound; lia).
  destruct (bmap_run Hw ip k x ind blk s L bns) as (s1 & x1 & ind1 & blk1 & bns1 & Hr1 & Hm); [done|apply Hin; lia|done..|].
  pose proof (mapped_foreign _ _ _ _ _ _ _ _ _ _ _ _ _ Hfs Hm) as Hfor. destruct Hm as [M1 M2 M3 M4 M5 M6 M7 M8 M0 M9 M10 M11 M12 M13 M14 M15 M16].
  destruct (ow_blk _ _ _ M11 k ltac:(apply Hin; lia) M1) as (Hrg & Hua & Hki).
  destruct (if_range _ _ _ _ M10 k ltac:(apply Hin; lia) M1) as (Hrd & d & Hvd & Hdl).
  pose proof (bm_range _ _ _ _ M7 M9) as [Hbm1 _]. assert (bm s1 = bm s) as Ebm by (unfold bm; by rewrite (step_sb _ _ M12)).
  destruct (update_run Hw (blk1 k) d (list_inserts (off `mod` BSZ) c) s1 L bns1) as (s2 & Hr2 & Htx2 & Hw2 & Hl2 & Hv2).
  { done. } { eapply data_home; [done|apply M7|done|lia]. } { done. } { destruct (fst_outs _ _ M12). lia. } { lia. }
  destruct (block_changed L s1 s2 x1 ind1 blk1 k (list_inserts (off `mod` BSZ) c d)) as (Hfs2 & Hf2 & Hown2 & Eb2);
    [done|done|done|lia|apply Hin; lia|done|by rewrite length_inserts|done|done|].
  assert (length (splice off c data) = Nat.max (length data) (off + length c)) as Hsl by (apply length_splice; lia).
  assert (∀ j, (j < MAXBLK)%nat → blk j ≠ 0 → blk1 j = blk j ∧ vw s1 (blk j) = vw s (blk j)) as Hold.
  { intros j Hj Hbj. assert (blk1 j = blk j) as Ej by (destruct (decide (j = k)) as [->|]; [by apply M3|by apply M2]). split; [done|].
    destruct (ow_blk _ _ _ Hown j Hj Hbj) as (Hr & Hu & _). apply M13; [lia|lia| |by apply not_free_used].
    rewrite <-Ej. apply (ow_blk _ _ _ M11 j Hj). by rewrite Ej. }
  exists s1, s2, x1, ind1, blk1, (logging (blk1 k) bns1). split_and!; [done| |done| | | | | |].
  - rewrite M6. apply list_lookup_insert_eq. by eapply lookup_lt_Some.
  - split; try done.
    + rewrite (wrote_icache _ _ _ Hw2), M6. apply list_lookup_insert_eq. by eapply lookup_lt_Some.
    + eapply (holds_write (vw s) (vw s1) (vw s2) blk blk1 data c d off); try done; [lia| | |].
      * intros n. destruct (data !! n) as [b|] eqn:E; [right|by left]. apply Hold; [apply Hin; apply lookup_lt_Some in E; lia|by apply (Hh n b)].
      * intros n Hn Ej. apply lookup_lt_is_Some in Hn. rewrite Hsl in Hn. apply (ow_inj _ _ _ M11); [apply Hin; lia|apply Hin; lia|done|rewrite Ej; exact M1].
      * intros n Hn. apply lookup_lt_is_Some in Hn. rewrite Hsl in Hn. apply Hv2. destruct (decide (blk1 (n / BSZ)%nat = 0)) as [->|Hz]; [lia|].
        destruct (ow_blk _ _ _ M11 (n / BSZ)%nat); [apply Hin; lia|done|lia].
    + lia.
  - split.
    + eapply fs_step_trans; [done|]. apply wrote_step; [done|by eapply outs_record].
    + done.
    + by rewrite (wrote_icache _ _ _ Hw2).
    + intros m Hm. destruct (Hfor m Hm) as [(Hm0 & Hmb & Hmf & Hmi & Hmk) Hvm]. split.
      * unfold foreign, is_free, bm in *. rewrite Eb2, (wrote_sb _ _ _ Hw2). done.
      * by rewrite Hv2, decide_False by (done || (apply Hmk, Hin; lia)).
  - destruct (decide (blk k = 0)) as [Hz|Hz].
    + destruct (M4 Hz) as [Hi _]. unfold logging. by rewrite decide_True.
    + destruct (M3 Hz) as (_ & -> & _). pose proof (length_logging (blk1 k) bns). lia.
  - intros n Hn. destruct (M16 n Hn) as (l & ? & ? & Hl). exists l. split_and!; try done. unfold is_free in *. by rewrite Eb2, (wrote_sb _ _ _ Hw2).
  - intros [c' Hc']%lookup_lt_is_Some_2. destruct (Hh off c' Hc') as [Hz _]. by apply M3.
  - intros m [?| ->]%elem_logging; [by apply M0|]. right. pose proof (fs_log _ _ M9). lia.
Qed.

Lemma writei_loop_run k ip L s x ind blk data bns off n tot src :
  fstate ip L s x ind blk data bns → 0 ≤ off ≤ Z.of_nat (length data) → Z.of_nat (length data) ≤ MAXFILE * BSIZE →
  0 ≤ tot ≤ n → Z.of_nat (length src) = n - tot → off + (n - tot) ≤ MAXFILE * BSIZE → enough off n tot k →
  1 ≤ lg_outstanding (k_log s) → frees (2 * (k - 1)) s → Z.of_nat (length bns) + 3 * (Z.of_nat k - 1) + 1 < LOGSIZE - 1 →
  ∃ s' x' ind' blk' bns', writei_loop k ip off n tot src s = Ok (off + (n - tot)) s' ∧
    fstate ip L s' x' ind' blk' (splice (Z.to_nat off) src data) bns' ∧ changed ip s x ind blk s' x' ind' blk' ∧
    (length bns' ≤ length bns + 3 * (k - 1))%nat ∧ (off + (n - tot) ≤ Z.of_nat (length data) → x' = x) ∧
    (∀ m, m ∈ bns' → m ∈ bns ∨ L + LOGSIZE ≤ m).
Proof using Hw.
  revert s x ind blk data bns off tot src.
  induction k as [|k IH]; intros s x ind blk data bns off tot src Hf Hoff Hmax Htot Hsrc Hend Hen Ho Hfree Hlen; [destruct Hen; lia|].
  cbn [writei_loop]. destruct (Z.ltb_spec tot n) as [Hlt|Hge]; cbn [negb].
  2: { exists s, x, ind, blk, bns. assert (src = []) as -> by (apply nil_length_inv; lia). rewrite splice_nil. replace (off + (n - tot)) with off by lia.
       split_and!; [done|done|apply changed_refl; apply Hf|lia|done|by left]. }
  destruct (enough_next off n tot k _ (proj1 Hoff) ltac:(lia) Hen eq_refl) as (Hm & Hm1 & Hm2 & Hen').
  set (m := Z.min (n - tot) (BSIZE - off `mod` BSIZE)) in *.
  assert (off `div` BSIZE = Z.of_nat (Z.to_nat off / BSZ)) as Ek by (rewrite Nat2Z.inj_div, Z2Nat.id by lia; done).
  assert (off `mod` BSIZE = Z.of_nat (Z.to_nat off `mod` BSZ)) as Eo by (rewrite Nat2Z.inj_mod, Z2Nat.id by lia; done).
  assert (length (take (Z.to_nat m) src) = Z.to_nat m) as Hcl by (rewrite length_take; lia).
  assert (MAXFILE * BSIZE = Z.of_nat (MAXBLK * BSZ)) as EM by done. assert (1 < S k)%nat as Hk by (destruct Hen'; lia).
  destruct (write_round ip L s x ind blk data bns (Z.to_nat off) (take (Z.to_nat m) src)) as (s1 & s2 & x2 & ind2 & blk2 & bns2 & Hr1 & Hx1 & Hr2 & Hf2 & Hch & Hl2 & Hfr & Hsame & Hlg);
    [done|lia|lia|unfold BSZ, BSIZE in *; lia|lia|done|apply (frees_le (2 * (S k - 1))); [done|lia]|lia|].
  rewrite Ek, Eo, Nat2Z.id. rewrite (bind_ok _ _ _ _ _ Hr1). run (geti_run ip x2); [|done]. rewrite (if_dev _ _ _ _ (fs_file _ _ _ _ _ _ _ _ Hf2)).
  cbv zeta. fold m. rewrite (bind_tail4 _ _ _ _ _ _ _ _ Hr2). assert (off + m < 2 ^ 32) by (unfold MAXFILE, NDIRECT, NINDIRECT, BSIZE in *; lia).
  rewrite (u32_small (off + m)) by lia.
  assert (length (splice (Z.to_nat off) (take (Z.to_nat m) src) data) = Nat.max (length data) (Z.to_nat off + Z.to_nat m)) as Hsl
    by (rewrite length_splice by lia; lia).
  destruct (IH s2 x2 ind2 blk2 (splice (Z.to_nat off) (take (Z.to_nat m) src) data) bns2 (off + m) (tot + m) (drop (Z.to_nat m) src))
    as (s3 & x3 & ind3 & blk3 & bns3 & Hr3 & Hf3 & Hch3 & Hl3 & Hsame3 & Hlg3); [done|lia|lia|lia|rewrite length_drop; lia|lia|done|destruct (fst_outs _ _ (ch_step _ _ _ _ _ _ _ _ _ Hch)); lia| |lia|].
  { destruct k as [|k]; [lia|]. apply Hfr. by replace (S (S (2 * (S k - 1)))) with (2 * (S (S k) - 1))%nat by lia. }
  exists s3, x3, ind3, blk3, bns3. split_and!; [| |by eapply changed_trans|lia| |].
  - rewrite Hr3. f_equal. lia.
  - replace (Z.to_nat (off + m)) with (Z.to_nat off + length (take (Z.to_nat m) src))%nat in Hf3 by lia.
    by rewrite splice_app, take_drop in Hf3 by lia.
  - intros Hin. rewrite Hsame3 by lia. apply Hsame. lia.
  - intros m' [?%Hlg|?]%Hlg3; [done|by right].
Qed.

(** The inode block, and the inode on disk. *)
Definition ib (s : kst) (x : inode) : Z := IBLOCK (i_inum x) (k_sb s).
Definition dinode_of (x : inode) : dinode := Dinode (i_type x) (i_major x) (i_minor x) (i_nlink x) (i_size x) (i_addrs x).
Definition synced (s : kst) (x : inode) : Prop :=
  ∃ d, vw s (ib s x) = Some d ∧ parse_dinode (dinode_off (i_inum x)) d = dinode_of x.

Record inode_ok (s : kst) (x : inode) : Prop := {
  io_inum : 0 ≤ i_inum x < sb_ninodes (k_sb s);
  io_shorts : int16 (i_type x) ∧ int16 (i_major x) ∧ int16 (i_minor x) ∧ int16 (i_nlink x);
  io_size : 0 ≤ i_size x ≤ MAXFILE * BSIZE;
}.

Lemma ib_range s x L bns : txn s L bns → fsys s L → inode_ok s x → home L (disk_len s) (ib s x) ∧ ib s x < bm s ∧ ib s x = i_inum x `div` IPB + sb_inodestart (k_sb s).
Proof using.
  clear Hw BD DV. intros Htx Hfs Hx. pose proof (bm_range _ _ _ _ Htx Hfs) as [Hbm _]. pose proof (fs_inodes _ _ Hfs _ (io_inum _ _ Hx)) as Hib.
  pose proof (fs_log _ _ Hfs). pose proof (pl_log _ _ _ (tx_placed _ _ _ Htx)). pose proof (fs_size _ _ Hfs). pose proof (io_inum _ _ Hx).
  assert (0 ≤ i_inum x `div` IPB) by (apply Z.div_pos; unfold IPB; lia). unfold ib, IBLOCK, home. rewrite u32_small by (unfold LOGSIZE, MAXOPBLOCKS in *; lia).
  unfold LOGSIZE, MAXOPBLOCKS in *. lia.
Qed.

Lemma dinode_of_ok s x ind blk : ifile s x ind blk → owns s ind blk → 0 ≤ bm s → sb_size (k_sb s) ≤ 2 ^ 31 → inode_ok s x → dinode_ok (dinode_of x).
Proof using.
  clear Hw BD DV. intros Hf Hown Hbm Hsz [_ (? & ? & ? & ?) Hsize]. split; simpl; try done.
  - unfold MAXFILE, NDIRECT, NINDIRECT, BSIZE in *. lia.
  - apply list.Forall_lookup. intros k a Ha. destruct (decide (k < NDIRECT)%nat) as [Hk|Hk].
    + rewrite (if_direct _ _ _ _ Hf) in Ha by done. injection Ha as <-. destruct (decide (blk k = 0)) as [->|Hb]; [lia|].
      destruct (ow_blk _ _ _ Hown k) as (? & _); [unfold MAXBLK; lia|done|lia].
    + assert (k = NDIRECT) as -> by (apply lookup_lt_Some in Ha; rewrite (if_len _ _ _ _ Hf) in Ha; lia).
      rewrite (if_ind _ _ _ _ Hf) in Ha. injection Ha as <-. destruct (decide (ind = 0)) as [->|Hi]; [lia|]. destruct (ow_ind _ _ _ Hown Hi). lia.
  - apply Hf.
Qed.

(** iupdate writes the inode to its slot of its block and changes nothing else. *)
Lemma iupdate_run ip L s x ind blk data bns :
  fstate ip L s x ind blk data bns → inode_ok s x → 1 ≤ lg_outstanding (k_log s) → Z.of_nat (length bns) < LOGSIZE - 1 →
  ∃ s', iupdate ip s = Ok tt s' ∧ fstate ip L s' x ind blk data (logging (ib s x) bns) ∧ synced s' x ∧ wrote [] s s' ∧ outs s s' ∧
    (∀ m, 0 ≤ m → m ≠ ib s x → vw s' m = vw s m) ∧ bits s' = bits s ∧
    (∀ d d' j, vw s (ib s x) = Some d → vw s' (ib s x) = Some d' → 0 ≤ j → j `mod` IPB ≠ i_inum x `mod` IPB →
       parse_dinode (dinode_off j) d' = parse_dinode (dinode_off j) d).
Proof using Hw.
  intros [Hx Htx Hfs Hf Hown Hh Hmx] Hok Ho Hlen. pose proof (bm_range _ _ _ _ Htx Hfs) as [Hbm Hsz].
  destruct (ib_range s x L bns Htx Hfs Hok) as (Hhome & Hib & _). destruct (fs_blocks _ _ Hfs (ib s x)) as (d & Hd & Hdl); [apply Hhome|].
  destruct (update_run Hw (ib s x) d (list_inserts (dinode_off (i_inum x)) (enc_dinode (dinode_of x))) s L bns) as (s' & Hr & Htx' & Hwr & Hl & Hv); [done..|].
  assert (bits s' = bits s) as Eb by (eapply bits_upd; [by eapply wrote_sb|done|lia|lia]).
  pose proof (dinode_of_ok _ _ _ _ Hf Hown ltac:(lia) Hsz Hok) as Hdk. pose proof (io_inum _ _ Hok) as Hinum.
  assert (vw s' (ib s x) = Some (list_inserts (dinode_off (i_inum x)) (enc_dinode (dinode_of x)) d)) as Hv' by (rewrite Hv, decide_True by (done || apply Hhome); done).
  assert (∀ a, a = ind ∧ ind ≠ 0 ∨ (∃ k, (k < MAXBLK)%nat ∧ a = blk k ∧ blk k ≠ 0) → vw s' a = vw s a) as Hkeep.
  { intros a Ha. assert (bm s < a) by (destruct Ha as [[-> Hi]|(k & Hk & -> & Hb)]; [destruct (ow_ind _ _ _ Hown Hi); lia|destruct (ow_blk _ _ _ Hown k Hk Hb); lia]).
    rewrite Hv, decide_False by lia. done. }
  exists s'. split_and!; try done.
  - unfold iupdate. run (geti_run ip x); [|done]. step. rewrite (if_dev _ _ _ _ Hf). exact Hr.
  - split; try done.
    + by rewrite (wrote_icache _ _ _ Hwr).
    + eapply fsys_upd; [by eapply wrote_sb|by eapply wrote_len|done|lia|lia|by rewrite length_inserts|done].
    + destruct Hf as [E1 E0 E2 E3 E4 E5 E6]. split; rewrite ?(wrote_len _ _ _ Hwr); try done.
      * intros Hi. rewrite Hkeep by (left; done). by apply E5.
      * intros k Hk Hb. rewrite Hkeep by (right; by exists k). by apply E6.
    + destruct Hown as [O1 O2 O3]. split; unfold in_use, bm in *; rewrite ?(wrote_sb _ _ _ Hwr), ?Eb; done.
    + intros n c Hc. destruct (Hh n c Hc) as (Hz & Hd'). split; [done|].
      rewrite Hkeep; [done|]. right. exists (n / BSZ)%nat. split_and!; [|done|done]. apply lookup_lt_Some in Hc. apply Nat.Div0.div_lt_upper_bound. lia.
  - exists (list_inserts (dinode_off (i_inum x)) (enc_dinode (dinode_of x)) d). unfold ib. rewrite (wrote_sb _ _ _ Hwr). split; [done|].
    destruct (inode_slot d (dinode_of x) (i_inum x) 0) as [E _]; [done|done|lia|lia|exact E].
  - by eapply outs_record.
  - intros m Hm Hne. by rewrite Hv, decide_False.
  - intros e e' j He He' Hj Hne. assert (e = d) as -> by congruence. rewrite Hv' in He'. injection He' as <-.
    destruct (inode_slot d (dinode_of x) (i_inum x) j) as [_ E]; [done|done|lia|done|apply E; congruence].
Qed.

Lemma ib_foreign ip L s x ind blk data bns : fstate ip L s x ind blk data bns → inode_ok s x → foreign s ind blk (ib s x).
Proof using.
  clear Hw BD DV. intros [Hx Htx Hfs Hf Hown Hh Hmx] Hok. pose proof (bm_range _ _ _ _ Htx Hfs) as [Hbm Hsz].
  destruct (ib_range s x L bns Htx Hfs Hok) as ([Hr _] & Hib & _). split_and!; [lia|lia| | |].
  - apply not_free_used, (fs_meta _ _ Hfs). lia.
  - intros E. destruct (decide (ind = 0)) as [Hi|Hi]; [|destruct (ow_ind _ _ _ Hown Hi); lia].
    pose proof (fs_log _ _ Hfs). pose proof (pl_log _ _ _ (tx_placed _ _ _ Htx)). destruct (ib_range s x L bns Htx Hfs Hok) as (_ & _ & Eib).
    assert (0 ≤ i_inum x `div` IPB) by (apply Z.div_pos; [apply (io_inum _ _ Hok)|done]). unfold LOGSIZE, MAXOPBLOCKS in *. lia.
  - intros k Hk E. destruct (decide (blk k = 0)) as [Hi|Hi]; [|destruct (ow_blk _ _ _ Hown k Hk Hi); lia].
    pose proof (fs_log _ _ Hfs). pose proof (pl_log _ _ _ (tx_placed _ _ _ Htx)). destruct (ib_range s x L bns Htx Hfs Hok) as (_ & _ & Eib).
    assert (0 ≤ i_inum x `div` IPB) by (apply Z.div_pos; [apply (io_inum _ _ Hok)|done]). unfold LOGSIZE, MAXOPBLOCKS in *. lia.
Qed.

Lemma fstate_size ip L s x ind blk data bns sz :
  fstate ip L s x ind blk data bns → let x' := x <| i_size := sz |> in fstate ip L (with_ic ip x' s) x' ind blk data bns.
Proof using.
  clear Hw BD DV. intros [Hx Htx Hfs Hf Hown Hh Hmx] x'. split; try done.
  - simpl. apply list_lookup_insert_eq. by eapply lookup_lt_Some.
  - by apply txn_ic.
  - by apply fsys_ic.
  - apply ifile_ic. by destruct Hf; split.
  - by apply owns_ic.
Qed.

(** What a call leaves as it was: every block that is not of the file, free, the bitmap
    or the inode's, and every other inode. *)
Definition others_kept (s : kst) (x : inode) (ind : Z) (blk : nat → Z) (s' : kst) : Prop :=
  (∀ m, foreign s ind blk m → m ≠ ib s x → vw s' m = vw s m) ∧
  (∀ d d' j, vw s (ib s x) = Some d → vw s' (ib s x) = Some d' → 0 ≤ j → j `mod` IPB ≠ i_inum x `mod` IPB →
     parse_dinode (dinode_off j) d' = parse_dinode (dinode_off j) d).

(** The blocks a write of [n] bytes may take and log. *)
Definition wrounds (n : Z) : Z := n `div` BSIZE + 2.

Lemma writei_run ip L s x ind blk data bns off src :
  fstate ip L s x ind blk data bns → i_type x ≠ T_DEV → inode_ok s x → synced s x → i_size x = Z.of_nat (length data) →
  0 ≤ off ≤ i_size x → let n := Z.of_nat (length src) in off + n ≤ MAXFILE * BSIZE →
  1 ≤ lg_outstanding (k_log s) → frees (2 * Z.to_nat (wrounds n)) s → Z.of_nat (length bns) + 3 * wrounds n + 1 < LOGSIZE - 1 →
  ∃ s' x' ind' blk' bns', writei ip src off n s = Ok n s' ∧
    fstate ip L s' x' ind' blk' (splice (Z.to_nat off) src data) bns' ∧ synced s' x' ∧ inode_ok s' x' ∧
    x' = x <| i_addrs := i_addrs x' |> <| i_size := Z.of_nat (length (splice (Z.to_nat off) src data)) |> ∧
    fs_step s s' ∧ others_kept s x ind blk s' ∧ (∀ m, m ∈ bns' → m ∈ bns ∨ L + LOGSIZE ≤ m).
Proof using Hw.
  intros Hf Hty Hok Hsy Hsz Hoff n Hmax Ho Hfree Hlen. pose proof (io_size _ _ Hok) as Hsize. pose proof (ib_foreign _ _ _ _ _ _ _ _ Hf Hok) as Hib.
  unfold writei. run (geti_run ip x); [|apply Hf]. rewrite (proj2 (Z.eqb_neq _ _)) by done.
  assert (MAXFILE * BSIZE < 2 ^ 31) as HM by done. rewrite (u32_small (off + n)) by lia. rewrite (proj2 (Z.ltb_ge _ _)), (proj2 (Z.ltb_ge (off + n) _)) by lia. cbn [orb].
  rewrite (proj2 (Z.ltb_ge _ _)) by lia. assert (0 ≤ n `div` BSIZE) as Hn0 by (apply Z.div_pos; unfold BSIZE; lia).
  assert (S (S (Z.to_nat (n `div` BSIZE + 1))) = S (Z.to_nat (wrounds n))) as Ek by (unfold wrounds; lia). rewrite Ek.
  destruct (writei_loop_run (S (Z.to_nat (wrounds n))) ip L s x ind blk data bns off n 0 src) as (s1 & x1 & ind1 & blk1 & bns1 & Hr1 & Hf1 & Hch & Hl1 & Hsame & Hlg);
    [done|lia|lia|lia|lia|lia| |done|by replace (S (Z.to_nat (wrounds n)) - 1)%nat with (Z.to_nat (wrounds n)) by lia|unfold wrounds in *; lia|].
  { split; [lia|]. intros _. unfold wrounds, BSIZE in *. pose proof (Z.mod_pos_bound off 1024 ltac:(lia)). pose proof (Z.div_mod n 1024 ltac:(lia)).
    pose proof (Z.mod_pos_bound n 1024 ltac:(lia)). lia. }
  rewrite (bind_ok _ _ _ _ _ Hr1). rewrite Z.sub_0_r in *. run (geti_run ip x1); [|apply Hf1].
  destruct Hch as [Hst Hx1 Hic Hfor]. assert (i_size x1 = i_size x) as Es1 by (by rewrite Hx1). assert (k_sb s1 = k_sb s) as Hsb by (by apply step_sb).
  assert (Z.of_nat (length (splice (Z.to_nat off) src data)) = Z.max (i_size x) (off + n)) as Hspl by (rewrite length_splice by lia; lia).
  rewrite Es1, s32_small by lia. destruct (Z.ltb_spec (i_size x) (off + n)) as [Hg|Hg].
  - rewrite (proj2 (Z.ltb_lt 0 n)) by lia. cbn [andb when]. pose proof (fstate_size _ _ _ _ _ _ _ _ (off + n) Hf1) as Hf2. cbv zeta in Hf2.
    set (x2 := x1 <| i_size := off + n |>) in *. set (s2 := with_ic ip x2 s1) in *.
    assert (inode_ok s2 x2) as Hok2.
    { destruct Hok as [I1 I2 I3]. unfold x2. rewrite Hx1. split; simpl; [by rewrite Hsb|done|lia]. }
    assert (i_inum x2 = i_inum x) as Einum by (unfold x2; rewrite Hx1; done). assert (ib s2 x2 = ib s x) as Eib by (unfold ib; rewrite Einum; simpl; by rewrite Hsb).
    destruct (iupdate_run ip L s2 x2 ind1 blk1 (splice (Z.to_nat off) src data) bns1 Hf2 Hok2) as (s3 & Hr3 & Hf3 & Hsy3 & Hw3 & Ho3 & Hv3 & Eb3 & Hoth);
      [simpl; destruct (fst_outs _ _ Hst); lia|unfold wrounds in *; lia|]. rewrite Eib, Einum in *.
    exists s3, x2, ind1, blk1, (logging (ib s x) bns1). split_and!; try done.
    + rewrite (bind_ok _ _ _ tt s3); [done|]. run (modi_run ip x1); [exact Hr3|apply Hf1].
    + destruct Hok2 as [I1 I2 I3]. split; [by rewrite (wrote_sb _ _ _ Hw3)|done|done].
    + unfold x2. rewrite Hx1. simpl. by rewrite Hspl, Z.max_r by lia.
    + eapply fs_step_trans; [exact Hst|]. eapply fs_step_trans; [apply step_ic|by apply wrote_step].
    + split; [intros m Hm Hne; rewrite Hv3 by (done || apply Hm); by apply Hfor|].
      intros d d' j Hd Hd'. apply Hoth; [|done]. change (vw s1 (ib s x) = Some d). by rewrite (proj2 (Hfor _ Hib)).
    + intros m [Hm| ->]%elem_logging; [by apply Hlg|right]. destruct (ib_range s x L bns) as (_ & _ & ->); [apply Hf|apply Hf|done|].
      pose proof (fs_log _ _ (fs_sys _ _ _ _ _ _ _ _ Hf)). pose proof (io_inum _ _ Hok). assert (0 ≤ i_inum x `div` IPB) by (apply Z.div_pos; [lia|done]). lia.
  - rewrite andb_false_r. cbn [when]. assert (x1 = x) as -> by (apply Hsame; lia). exists s1, x, ind1, blk1, bns1. split_and!; try done.
    + destruct Hsy as (d & Hd & Hp). exists d. split; [|done]. unfold ib. rewrite Hsb. transitivity (vw s (ib s x)); [exact (proj2 (Hfor _ Hib))|exact Hd].
    + destruct Hok as [I1 I2 I3]. split; [by rewrite Hsb|done|done].
    + rewrite Hspl, Z.max_l by lia. by destruct x.
    + split; [intros m Hm Hne; by apply Hfor|].
      intros d d' j Hd Hd'. rewrite (proj2 (Hfor _ Hib)) in Hd'. by replace d' with d by congruence.
Qed.
End write.
