(* ===== verification/FileThm.v ===== *)
(** * Reading, writing and crashing: files (fs.c over log.c)

    The bytes of a file as they are in its blocks: readi returns them, writei replaces
    them, and a write inside begin_op and end_op survives a crash as a whole or not at
    all. *)
From S2P Require Import Prelude Mem CString KState Sched Bytes Bio Ring BioThm Log LogThm LogRun Crash Txn Fs FsThm Inode.

(** The file with inode number [inum] holds [data], in a file system whose blocks are
    [v]: its inode has the size and the addresses of blocks that contain the bytes. *)
Definition file_at (v : Z → option (list Z)) (sb : superblock) (inum : Z) (data : list Z) : Prop :=
  ∃ d ind blk, v (IBLOCK inum sb) = Some d ∧ let di := parse_dinode (dinode_off inum) d in
    d_size di = Z.of_nat (length data) ∧
    (∀ k, (k < NDIRECT)%nat → d_addrs di !! k = Some (blk k)) ∧ d_addrs di !! NDIRECT = Some ind ∧
    (∀ k, (NDIRECT ≤ k)%nat → (k * BSZ < length data)%nat → ∃ e, v ind = Some e ∧ rd32 (4 * (k - NDIRECT)) e = blk k) ∧
    ∀ n c, data !! n = Some c → ∃ e, v (blk (n / BSZ)%nat) = Some e ∧ e !! (n `mod` BSZ)%nat = Some c.

(** The blocks of a disk. *)
Definition on_disk (disk : list (list Z)) (m : Z) : option (list Z) := disk !! Z.to_nat m.

Lemma block_there s blk data k : holds s blk data → (k * BSZ < length data)%nat → blk k ≠ 0.
Proof.
  intros Hh [c Hc]%lookup_lt_is_Some_2. destruct (Hh _ _ Hc) as [Hz _]. by rewrite Nat.div_mul in Hz.
Qed.

(** A file the kernel works on is on the disk when the disk has the blocks. *)
Lemma file_on_disk ip L s x ind blk data bns disk :
  fstate ip L s x ind blk data bns → synced s x → inode_ok s x → i_size x = Z.of_nat (length data) →
  length disk = length (k_disk s) → homes L disk (vw s) → file_at (on_disk disk) (k_sb s) (i_inum x) data.
Proof.
  intros [Hx Htx Hfs Hf Hown Hh Hmx] (d & Hd & Hp) Hok Hsz Hlen Hhm. destruct (ib_range s x L bns Htx Hfs Hok) as (Hib & _ & _).
  assert (∀ a, home L (disk_len s) a → on_disk disk a = vw s a) as Hv by (intros a Ha; apply Hhm; rewrite Hlen; exact Ha).
  pose proof (tx_placed _ _ _ Htx) as Hpl. exists d, ind, blk. split; [by rewrite Hv|]. cbv zeta. rewrite Hp. cbn [d_size d_addrs dinode_of]. split_and!; [done|apply Hf|apply Hf| |].
  - intros k Hk Hlt. pose proof (block_there _ _ _ _ Hh Hlt) as Hb.
    assert (ind ≠ 0) as Hi by (intros ->; apply Hb; by apply (if_none _ _ _ _ Hf)).
    destruct (if_some _ _ _ _ Hf Hi) as (_ & e & He & _ & Hrd). exists e. destruct (ow_ind _ _ _ Hown Hi) as [Hr _]. split.
    + rewrite Hv; [done|]. eapply data_home; [done|done|done|lia].
    + rewrite Hrd; [by replace (NDIRECT + (k - NDIRECT))%nat with k by lia|].
      assert (k < MAXBLK)%nat; [|unfold MAXBLK in *; lia]. apply (Nat.mul_lt_mono_pos_r BSZ); [unfold BSZ; lia|lia].
  - intros n c Hc. destruct (Hh n c Hc) as (Hz & e & He & Hb). exists e. split; [|done].
    destruct (ow_blk _ _ _ Hown (n / BSZ)%nat) as (Hr & _); [|done|].
    { apply lookup_lt_Some in Hc. apply Nat.Div0.div_lt_upper_bound. lia. }
    rewrite Hv; [done|]. eapply data_home; [done|done|done|lia].
Qed.

(** The file in a state that has the same blocks outside the log. *)
Lemma ifile_homes ip L s x ind blk data bns s' :
  fstate ip L s x ind blk data bns → disk_len s' = disk_len s → (∀ m, home L (disk_len s) m → vw s' m = vw s m) →
  ifile s' x ind blk ∧ holds s' blk data.
Proof.
  intros [Hx Htx Hfs Hf Hown Hh Hmx] HN Hv. pose proof (tx_placed _ _ _ Htx) as Hpl.
  assert (∀ k, (k < MAXBLK)%nat → blk k ≠ 0 → vw s' (blk k) = vw s (blk k)) as Hb.
  { intros k Hk Hz. apply Hv. destruct (ow_blk _ _ _ Hown k Hk Hz) as [Hr _]. eapply data_home; [done|done|done|lia]. }
  split.
  - destruct Hf as [E1 E0 E2 E3 E4 E5 E6]. split; rewrite ?HN; try done.
    + intros Hi. destruct (ow_ind _ _ _ Hown Hi) as [Hr _]. rewrite Hv; [by apply E5|]. eapply data_home; [done|done|done|lia].
    + intros k Hk Hz. rewrite Hb by done. by apply E6.
  - intros m c Hc. destruct (Hh m c Hc) as (Hz & He). split; [done|]. rewrite Hb; [done| |done].
    apply lookup_lt_Some in Hc. apply Nat.Div0.div_lt_upper_bound. lia.
Qed.

Lemma fstate_opened ip L s x ind blk data bns : fstate ip L s x ind blk data bns → fstate ip L (opened s) x ind blk data bns.
Proof. intros [Hx Htx [] [] [] Hh Hmx]. split; try done. by eapply (txn_log s). Qed.

Section files.
  Context {BD : Bound} {DV : Devices}.

(** C3: readi returns the bytes of the file from [off], as many as asked for and there
    are, from the blocks the inode and its indirect block name; only the buffer cache
    changes. *)
Theorem readi_reads ip x ind blk data s off n :
  (0 < wakeups)%nat → io_ok s ∅ → mod_le (NBUF - 1) s → k_icache s !! ip = Some x → i_type x ≠ T_DEV → ifile s x ind blk →
  i_size x = Z.of_nat (length data) → i_size x ≤ MAXFILE * BSIZE → holds s blk data → 0 ≤ off ≤ i_size x → 0 ≤ n < 2 ^ 31 →
  ∃ s', let r := take (Z.to_nat n) (drop (Z.to_nat off) data) in
    readi ip off n s = Ok (Z.of_nat (length r), r) s' ∧ quiet s s'.
Proof using. intros Hw. by apply readi_run. Qed.

(** A file write as a system call makes it. *)
Definition write_call (ip : nat) (src : list Z) (off : Z) : K Z :=
  begin_op;; r <- writei ip src off (Z.of_nat (length src)); end_op;; ret r.

End files.

(** ** Directories *)

(** The search of a directory with contents [data]: the first of the [n] entries from
    entry [k] that is in use and has the name, with its inode number. *)
Fixpoint dir_find (name data : list Z) (k n : nat) : option (Z * nat) :=
  match n with
  | O => None
  | S n =>
      let e := slice (16 * k) 16 data in
      if de_inum e =? 0 then dir_find name data (S k) n
      else if decide (upto DIRSIZ name = upto DIRSIZ (de_name e)) then Some (de_inum e, k)
      else dir_find name data (S k) n
  end.

Section directories.
  Context {BD : Bound} {DV : Devices} (Hw : (0 < wakeups)%nat).

Lemma dirlookup_loop_run dp x ind blk data name n k s :
  io_ok s ∅ → mod_le (NBUF - 1) s → k_icache s !! dp = Some x → i_type x ≠ T_DEV → ifile s x ind blk →
  i_size x = Z.of_nat (length data) → i_size x ≤ MAXFILE * BSIZE → holds s blk data →
  length data = (16 * (k + n))%nat → Forall byte data → Forall byte name → length name = DIRSIZ →
  ∃ s', quiet s s' ∧
    ∀ fuel, (n < fuel)%nat → dirlookup_loop fuel dp name (16 * Z.of_nat k) s =
      match dir_find name data k n with
      | Some (inum, j) => (i <- iget (i_dev x) inum; ret (Some (i, 16 * Z.of_nat j))) s'
      | None => Ok None s'
      end.
Proof using Hw.
  intros Hio Hmod Hx Hty Hf Hsz Hmax Hh Hlen Hb Hbn Hln. revert k s Hio Hmod Hx Hf Hh Hlen.
  induction n as [|n IH]; intros k s Hio Hmod Hx Hf Hh Hlen.
  { exists s. split; [by apply quiet_refl|]. intros [|fuel] Hfu; [lia|]. cbn [dirlookup_loop]. run (geti_run dp x); [|done].
    rewrite (proj2 (Z.ltb_ge _ _)) by lia. done. }
  destruct (readi_run Hw dp x ind blk data s (16 * Z.of_nat k) 16) as (s1 & Hr & Hq); [done..|lia|lia|]. cbv zeta in Hr.
  replace (Z.to_nat (16 * Z.of_nat k)) with (16 * k)%nat in Hr by lia. change (Z.to_nat 16) with 16%nat in Hr.
  set (e := slice (16 * k) 16 data) in *. assert (length e = 16%nat) as Hle by (unfold e, slice; rewrite length_take, length_drop; lia). rewrite Hle in Hr.
  destruct (IH (S k) s1) as (s2 & Hq2 & Hrun); [apply Hq| | | | |lia|].
  { eapply mod_le_ext; [|exact Hmod]. intros m. apply Hq. }
  { by rewrite (wrote_icache _ _ _ (q_wrote _ _ Hq)). }
  { eapply ifile_ext; [|intros m _; apply Hq|done]. by rewrite (wrote_len _ _ _ (q_wrote _ _ Hq)). }
  { eapply holds_ext; [|done]. intros m _. apply Hq. }
  assert (16 * Z.of_nat k + 16 < 2 ^ 32) by (unfold MAXFILE, NDIRECT, NINDIRECT, BSIZE in *; lia).
  assert (u32 (16 * Z.of_nat k + 16) = 16 * Z.of_nat (S k)) as Eu by (rewrite u32_small; lia).
  assert (length (de_name e) = DIRSIZ) as Hde by (unfold de_name, slice, DIRSIZ; rewrite length_take, length_drop; lia).
  assert (Forall byte (de_name e)) as Hbe by (unfold de_name, slice, e, slice; by repeat first [apply Forall_take|apply Forall_drop]).
  destruct (strncmp_upto DIRSIZ name (de_name e)) as (r & Hcmp & Hr0); [done|done|lia|lia|].
  assert (∀ fuel, (S n < fuel)%nat → dirlookup_loop fuel dp name (16 * Z.of_nat k) s =
    (if de_inum e =? 0 then dirlookup_loop (pred fuel) dp name (16 * Z.of_nat (S k)) else
     if r =? 0 then i <- iget (i_dev x) (de_inum e); ret (Some (i, 16 * Z.of_nat k)) else dirlookup_loop (pred fuel) dp name (16 * Z.of_nat (S k))) s1) as Hstep.
  { intros [|fuel] Hfu; [lia|]. cbn [dirlookup_loop]. run (geti_run dp x); [|done]. rewrite (proj2 (Z.ltb_lt _ _)) by lia. cbn [negb].
    rewrite (bind_ok _ _ _ _ _ Hr). cbn [fst snd]. change (Z.of_nat 16 =? 16) with true. cbn [negb]. rewrite Eu. destruct (de_inum e =? 0); [done|].
    unfold namecmp. rewrite Hcmp. by step. }
  cbn [dir_find]. fold e. destruct (de_inum e =? 0) eqn:Ei; [|destruct (Z.eqb_spec r 0) as [E0|E0]].
  - exists s2. split; [by eapply quiet_trans|]. intros fuel Hfu. rewrite Hstep by done. apply Hrun. lia.
  - exists s1. split; [done|]. intros fuel Hfu. rewrite Hstep by done. by rewrite decide_True by (by apply Hr0).
  - exists s2. split; [by eapply quiet_trans|]. intros fuel Hfu. rewrite Hstep by done. rewrite decide_False by (by intros ?%Hr0). apply Hrun. lia.
Qed.

(** C30: dirlookup finds the first entry in use that has the name, comparing at most
    DIRSIZ characters, and gives its inode and offset; it gives nothing exactly when
    there is no such entry. *)
Theorem dirlookup_finds dp x ind blk data name n s :
  io_ok s ∅ → mod_le (NBUF - 1) s → k_icache s !! dp = Some x → i_type x = T_DIR → ifile s x ind blk →
  i_size x = Z.of_nat (length data) → i_size x ≤ MAXFILE * BSIZE → holds s blk data →
  length data = (16 * n)%nat → Forall byte data → Forall byte name → length name = DIRSIZ →
  ∃ s', quiet s s' ∧ dirlookup dp name s =
    match dir_find name data 0 n with
    | Some (inum, j) => (i <- iget (i_dev x) inum; ret (Some (i, 16 * Z.of_nat j))) s'
    | None => Ok None s'
    end.
Proof using Hw.
  intros Hio Hmod Hx Hty Hf Hsz Hmax Hh Hlen Hb Hbn Hln.
  destruct (dirlookup_loop_run dp x ind blk data name n 0 s) as (s' & Hq & Hrun); try done; [by rewrite Hty|].
  exists s'. split; [done|]. unfold dirlookup. run (geti_run dp x); [|done]. rewrite Hty. cbn [Z.eqb negb].
  change (T_DIR =? T_DIR) with true. cbn [negb]. apply Hrun. rewrite Hsz, Hlen.
  replace (Z.of_nat (16 * n)) with (Z.of_nat n * 16) by lia. rewrite Z.div_mul by lia. lia.
Qed.
End directories.
