(* ===== verification/Pipe.v ===== *)
(** * Pipes (pipe.c) *)
From S2P Require Import Prelude Mem Mmu Kalloc KState Sched.

Definition getpipe (a : Z) : K pipe := s <- get; deref "pipe" (k_pipes s !! a).
Definition modpipe (a : Z) (f : pipe → pipe) : K unit :=
  p <- getpipe a; modify (λ s, s <| k_pipes ::= <[a := f p]> |>).

Definition my_killed : K bool := i <- myproc; p <- getp i; ret (negb (p_killed p =? 0)).

(** [p->nwrite == p->nread + PIPESIZE] *)
Definition pipe_full (p : pipe) : bool := pi_nwrite p =? u32 (pi_nread p + PIPESIZE).
Definition pipe_empty (p : pipe) : bool := pi_nread p =? pi_nwrite p.

(** [p->data[p->nwrite++ % PIPESIZE] = c] *)
Definition pipe_put (c : Z) (p : pipe) : pipe :=
  p <| pi_data ::= <[Z.to_nat (pi_nwrite p `mod` PIPESIZE) := c]> |>
    <| pi_nwrite ::= λ n, u32 (n + 1) |>.

(** [p->data[p->nread++ % PIPESIZE]] *)
Definition pipe_peek (p : pipe) : option Z :=
  pi_data p !! Z.to_nat (pi_nread p `mod` PIPESIZE).
Definition pipe_advance (p : pipe) : pipe := p <| pi_nread ::= λ n, u32 (n + 1) |>.

Section pipe.
  Context `{Linker} `{Bound}.

Definition pipeclose (a : Z) (writable : bool) : K unit :=
  acquire (Lpipe a);;
  (if writable then
     modpipe a (λ p, p <| pi_writeopen := false |>);; wakeup (ChPipeRead a)
   else
     modpipe a (λ p, p <| pi_readopen := false |>);; wakeup (ChPipeWrite a));;
  p <- getpipe a;
  if negb (pi_readopen p) && negb (pi_writeopen p) then
    release (Lpipe a);;
    modify (λ s, s <| k_pipes ::= delete a |>);;
    pm_do (kfree a)
  else release (Lpipe a).

(** The inner [while] of pipewrite: [true] when there is room, [false] when the
    write is given up. *)
Definition pipe_wait_room (a : Z) : K bool :=
  loop wakeups (λ _ : unit,
    p <- getpipe a;
    if negb (pipe_full p) then ret (inr true) else
    k <- my_killed;
    if negb (pi_readopen p) || k then ret (inr false) else
    wakeup (ChPipeRead a);;
    sleep (ChPipeWrite a) (Lpipe a);;
    ret (inl tt)) tt.

(** The loop of pipewrite over the bytes to write. *)
Fixpoint pipewrite_loop (a : Z) (src : list Z) : K bool :=
  match src with
  | [] => ret true
  | c :: src =>
      ok <- pipe_wait_room a;
      if negb ok then ret false else
      modpipe a (pipe_put c);;
      pipewrite_loop a src
  end.

Definition pipewrite (a : Z) (src : list Z) : K Z :=
  acquire (Lpipe a);;
  ok <- pipewrite_loop a src;
  if negb ok then release (Lpipe a);; ret (-1) else
  wakeup (ChPipeRead a);;
  release (Lpipe a);;
  ret (Z.of_nat (length src)).

(** The [while] of piperead: [false] when the reader has been killed. *)
Definition pipe_wait_data (a : Z) : K bool :=
  loop wakeups (λ _ : unit,
    p <- getpipe a;
    if negb (pipe_empty p && pi_writeopen p) then ret (inr true) else
    k <- my_killed;
    if k : bool then ret (inr false) else
    sleep (ChPipeRead a) (Lpipe a);;
    ret (inl tt)) tt.

Fixpoint piperead_loop (a : Z) (n : nat) : K (list Z) :=
  match n with
  | O => ret []
  | S n =>
      p <- getpipe a;
      if pipe_empty p then ret [] else
      c <- deref "p->data" (pipe_peek p);
      modpipe a pipe_advance;;
      cs <- piperead_loop a n;
      ret (c :: cs)
  end.

(** piperead: the count and the bytes stored at [addr]. *)
Definition piperead (a : Z) (n : Z) : K (Z * list Z) :=
  acquire (Lpipe a);;
  ok <- pipe_wait_data a;
  if negb ok then release (Lpipe a);; ret (-1, []) else
  cs <- piperead_loop a (Z.to_nat n);
  wakeup (ChPipeWrite a);;
  release (Lpipe a);;
  ret (Z.of_nat (length cs), cs).

End pipe.

(** ** The buffer as a queue

    [nread] and [nwrite] count bytes modulo 2^32 and index the buffer modulo
    PIPESIZE, which divides 2^32. *)

Record pipe_ok (p : pipe) : Prop := {
  po_len : length (pi_data p) = 512%nat;
  po_nread : 0 ≤ pi_nread p < 2 ^ 32;
  po_nwrite : 0 ≤ pi_nwrite p < 2 ^ 32;
  po_count : u32 (pi_nwrite p - pi_nread p) ≤ 512;
}.

#[global] Instance pipe_ok_dec p : Decision (pipe_ok p).
Proof.
  refine (cast_if (decide (length (pi_data p) = 512%nat ∧ (0 ≤ pi_nread p < 2 ^ 32) ∧
    (0 ≤ pi_nwrite p < 2 ^ 32) ∧ u32 (pi_nwrite p - pi_nread p) ≤ 512)));
    [by destruct a as (?&?&?&?)|by intros []; destruct n].
Defined.

(** The number of bytes in the pipe and the bytes, oldest first. *)
Definition pipe_count (p : pipe) : nat := Z.to_nat (u32 (pi_nwrite p - pi_nread p)).
Definition pipe_at (p : pipe) (i : nat) : Z :=
  pi_data p !!! Z.to_nat ((pi_nread p + Z.of_nat i) `mod` 512).
Definition contents (p : pipe) : list Z := pipe_at p <$> seq 0 (pipe_count p).

Lemma u32_mod512 z : u32 z `mod` 512 = z `mod` 512.
Proof. apply u32_mod; [by exists 8388608|lia]. Qed.

Lemma pipe_count_Z p : Z.of_nat (pipe_count p) = u32 (pi_nwrite p - pi_nread p).
Proof. unfold pipe_count. pose proof (u32_range (pi_nwrite p - pi_nread p)). lia. Qed.

(** The counters differ by exactly the count, up to the wrap-around. *)
Lemma pipe_count_cases p :
  pipe_ok p → pi_nwrite p = pi_nread p + Z.of_nat (pipe_count p) ∨
              pi_nwrite p + 2 ^ 32 = pi_nread p + Z.of_nat (pipe_count p).
Proof.
  intros []. rewrite pipe_count_Z. unfold u32 in *.
  change (2 ^ 32) with 4294967296 in *. Z.to_euclidean_division_equations. lia.
Qed.

Lemma pipe_empty_spec p : pipe_ok p → pipe_empty p = true ↔ contents p = [].
Proof.
  intros Hp. pose proof (pipe_count_cases p Hp). destruct Hp.
  unfold pipe_empty, contents. rewrite Z.eqb_eq. pose proof (pipe_count_Z p).
  destruct (pipe_count p) eqn:E; simpl; [split; [done|]|split; [|done]]; lia.
Qed.

Lemma pipe_full_spec p : pipe_ok p → pipe_full p = true ↔ length (contents p) = 512%nat.
Proof.
  intros Hp. pose proof (pipe_count_cases p Hp). destruct Hp.
  unfold pipe_full, contents, PIPESIZE. rewrite Z.eqb_eq, length_fmap, length_seq.
  pose proof (pipe_count_Z p). unfold u32 in *. change (2 ^ 32) with 4294967296 in *.
  Z.to_euclidean_division_equations. lia.
Qed.

Lemma contents_length p : length (contents p) = pipe_count p.
Proof. unfold contents. by rewrite length_fmap, length_seq. Qed.

Lemma pipe_room p : pipe_ok p → pipe_full p = false → (pipe_count p < 512)%nat.
Proof.
  intros Hp Hf. pose proof (po_count p Hp) as Hc. rewrite <-pipe_count_Z in Hc.
  assert (pipe_count p ≠ 512%nat); [|lia]. rewrite <-contents_length, <-pipe_full_spec by done.
  congruence.
Qed.

Lemma pipe_put_count c p :
  pipe_ok p → pipe_full p = false → pipe_count (pipe_put c p) = S (pipe_count p).
Proof.
  intros Hp Hf. pose proof (pipe_room p Hp Hf). pose proof (pipe_count_cases p Hp). destruct Hp.
  pose proof (pipe_count_Z (pipe_put c p)) as E. simpl in E. unfold u32 in *.
  change (2 ^ 32) with 4294967296 in *. Z.to_euclidean_division_equations. lia.
Qed.

(** Writing a byte appends it. *)
Lemma pipe_put_spec c p :
  pipe_ok p → pipe_full p = false → pipe_ok (pipe_put c p) ∧ contents (pipe_put c p) = contents p ++ [c].
Proof.
  intros Hp Hf. pose proof (pipe_room p Hp Hf) as Hlt. pose proof (pipe_put_count c p Hp Hf) as Hc.
  pose proof (pipe_count_cases p Hp) as Hcases.
  assert (pi_nwrite p `mod` 512 = (pi_nread p + Z.of_nat (pipe_count p)) `mod` 512) as Hw.
  { change (2 ^ 32) with (8388608 * 512) in Hcases. destruct Hcases as [->|<-]; [done|].
    by rewrite Z_mod_plus_full. }
  split.
  - pose proof (pipe_count_Z (pipe_put c p)) as E. destruct Hp. split; simpl in *; try done.
    + by rewrite length_insert.
    + apply u32_range.
    + rewrite <-E, Hc. lia.
  - unfold contents. rewrite Hc, seq_S, fmap_app. simpl. f_equal.
    + apply list_fmap_ext. intros i x [Hi Hx]%lookup_seq. simpl in Hi. subst x. unfold pipe_at. simpl.
      unfold PIPESIZE. rewrite list_lookup_total_insert_ne; [done|]. rewrite Hw.
      Z.to_euclidean_division_equations. lia.
    + unfold pipe_at. simpl. unfold PIPESIZE. rewrite Hw, list_lookup_total_insert_eq; [done|].
      rewrite (po_len p Hp). Z.to_euclidean_division_equations. lia.
Qed.

(** Reading takes the oldest byte. *)
Lemma pipe_get_spec p c cs :
  pipe_ok p → contents p = c :: cs →
  pipe_peek p = Some c ∧ pipe_ok (pipe_advance p) ∧ contents (pipe_advance p) = cs.
Proof.
  intros Hp Hcs. pose proof (pipe_count_cases p Hp) as Hcases.
  pose proof (f_equal length Hcs) as Hlen. rewrite contents_length in Hlen. simpl in Hlen.
  pose proof (pipe_count_Z p) as EZ. pose proof (pipe_count_Z (pipe_advance p)) as E.
  assert (pipe_count (pipe_advance p) = length cs) as Hc.
  { destruct Hp. simpl in E. unfold u32 in *. change (2 ^ 32) with 4294967296 in *.
    Z.to_euclidean_division_equations. lia. }
  unfold contents in Hcs. rewrite Hlen in Hcs. simpl in Hcs. injection Hcs as Hc0 Hcs'.
  split_and!.
  - unfold pipe_peek, PIPESIZE. rewrite list_lookup_lookup_total_lt.
    + by rewrite <-Hc0; unfold pipe_at; rewrite Z.add_0_r.
    + rewrite (po_len p Hp). Z.to_euclidean_division_equations. lia.
  - destruct Hp. split; simpl in *; [done|apply u32_range|done|]. rewrite <-E. lia.
  - unfold contents. rewrite Hc. etrans; [|exact Hcs']. change (list_fmap nat Z) with (fmap (M := list) (A := nat) (B := Z)).
    rewrite <-fmap_S_seq, <-list_fmap_compose.
    apply list_fmap_ext. intros i x Hx. unfold pipe_at, compose. simpl.
    do 2 f_equal. rewrite <-Zplus_mod_idemp_l, u32_mod512, Zplus_mod_idemp_l. f_equal. lia.
Qed.

Section pipe_ops.
  Context `{Linker} `{Bound}.

Definition set_pipe (a : Z) (p : pipe) (s : kst) : kst := s <| k_pipes ::= <[a := p]> |>.

Lemma set_pipe_set a p p' s : set_pipe a p' (set_pipe a p s) = set_pipe a p' s.
Proof. destruct s. unfold set_pipe, upd, upd_k_pipes; simpl. by rewrite insert_insert_eq. Qed.

Lemma set_pipe_id a p s : k_pipes s !! a = Some p → set_pipe a p s = s.
Proof. destruct s. intros Hp. unfold set_pipe, upd, upd_k_pipes; simpl in *. by rewrite insert_id. Qed.

Lemma getpipe_run a p s : k_pipes s !! a = Some p → getpipe a s = Ok p s.
Proof. intros Hp. unfold getpipe, bind. simpl. by rewrite Hp. Qed.

Lemma modpipe_run a p f s : k_pipes s !! a = Some p → modpipe a f s = Ok tt (set_pipe a (f p) s).
Proof. intros Hp. unfold modpipe, bind. by rewrite (getpipe_run a p). Qed.

Lemma set_pipe_lookup a p s : k_pipes (set_pipe a p s) !! a = Some p.
Proof. simpl. apply lookup_insert_eq. Qed.

Lemma pipe_wait_room_run a p s :
  (0 < wakeups)%nat → k_pipes s !! a = Some p → pipe_full p = false →
  pipe_wait_room a s = Ok true s.
Proof.
  intros Hw Hp Hf. unfold pipe_wait_room. destruct wakeups; [lia|]. cbn [loop]. unfold bind.
  rewrite (getpipe_run a p) by done. simpl. by rewrite Hf.
Qed.

Lemma pipewrite_loop_run a src p s :
  (0 < wakeups)%nat → k_pipes s !! a = Some p → pipe_ok p →
  (length (contents p) + length src ≤ 512)%nat →
  ∃ p', pipewrite_loop a src s = Ok true (set_pipe a p' s) ∧ pipe_ok p' ∧
    contents p' = contents p ++ src ∧ pi_readopen p' = pi_readopen p ∧ pi_writeopen p' = pi_writeopen p.
Proof.
  intros Hw. revert p s. induction src as [|c src IH]; intros p s Hp Hok Hlen; simpl in *.
  { exists p. rewrite app_nil_r, set_pipe_id by done. done. }
  assert (pipe_full p = false) as Hf.
  { destruct (pipe_full p) eqn:E; [|done]. apply pipe_full_spec in E; [lia|done]. }
  destruct (pipe_put_spec c p Hok Hf) as [Hok' Hc'].
  destruct (IH (pipe_put c p) (set_pipe a (pipe_put c p) s)) as (p' & Hr & Hok2 & Hc2 & Hro & Hwo);
    [apply set_pipe_lookup|done|rewrite Hc', length_app; simpl; lia|].
  exists p'. split; [|by rewrite Hc2, Hc', <-app_assoc].
  unfold bind. rewrite (pipe_wait_room_run a p) by done. simpl.
  rewrite (modpipe_run a p) by done. simpl. by rewrite Hr, set_pipe_set.
Qed.

Lemma piperead_loop_run a n p s :
  k_pipes s !! a = Some p → pipe_ok p →
  ∃ p', piperead_loop a n s = Ok (take n (contents p)) (set_pipe a p' s) ∧ pipe_ok p' ∧
    contents p' = drop n (contents p) ∧ pi_readopen p' = pi_readopen p ∧ pi_writeopen p' = pi_writeopen p.
Proof.
  revert p s. induction n as [|n IH]; intros p s Hp Hok; simpl.
  { exists p. by rewrite set_pipe_id. }
  unfold bind. rewrite (getpipe_run a p) by done. simpl.
  destruct (contents p) as [|c cs] eqn:E.
  { rewrite (proj2 (pipe_empty_spec p Hok)) by done. exists p. by rewrite set_pipe_id. }
  destruct (pipe_empty p) eqn:He; [apply pipe_empty_spec in He; [congruence|done]|].
  destruct (pipe_get_spec p c cs Hok E) as (Hpk & Hok' & Hc'). rewrite Hpk. simpl.
  rewrite (modpipe_run a p) by done. simpl.
  destruct (IH (pipe_advance p) (set_pipe a (pipe_advance p) s)) as (p' & Hr & ? & Hc2 & ?);
    [apply set_pipe_lookup|done|].
  exists p'. rewrite Hr. simpl. rewrite Hc', set_pipe_set in *. done.
Qed.

(** C28: pipewrite of [src] into a pipe with room for it returns the number of bytes,
    appends exactly [src] to the bytes in the pipe, wakes the readers and changes
    nothing else. *)
Theorem pipewrite_appends a src p s :
  (0 < wakeups)%nat → k_held s = [] → k_pipes s !! a = Some p → pipe_ok p →
  (length (contents p) + length src ≤ 512)%nat →
  ∃ p', pipewrite a src s =
          Ok (Z.of_nat (length src)) (woken (ChPipeRead a) (set_pipe a p' s)) ∧
    pipe_ok p' ∧ contents p' = contents p ++ src.
Proof.
  intros Hw Hh Hp Hok Hlen.
  destruct (pipewrite_loop_run a src p (s <| k_held ::= cons (Lpipe a) |>))
    as (p' & Hr & Hok' & Hc & _); [done..|].
  exists p'. split; [|done]. unfold pipewrite, bind.
  rewrite acquire_run by (rewrite Hh; set_solver). simpl. rewrite Hr. simpl.
  rewrite wakeup_run by (simpl; rewrite Hh; set_solver). simpl.
  rewrite (release_run _ _ []) by (simpl; rewrite ?Hh; set_solver). simpl.
  f_equal. destruct s; simpl in *. by subst.
Qed.

(** C29: piperead from a pipe that has bytes, or no writer any more, returns the
    oldest [n] bytes (all of them when there are fewer, none at end of file), leaves
    the others in order, and wakes the writers. *)
Theorem piperead_takes a n p s :
  (0 < wakeups)%nat → k_held s = [] → k_pipes s !! a = Some p → pipe_ok p →
  contents p ≠ [] ∨ pi_writeopen p = false →
  ∃ p', piperead a n s =
          Ok (Z.of_nat (length (take (Z.to_nat n) (contents p))), take (Z.to_nat n) (contents p))
             (woken (ChPipeWrite a) (set_pipe a p' s)) ∧
    pipe_ok p' ∧ contents p' = drop (Z.to_nat n) (contents p).
Proof.
  intros Hw Hh Hp Hok Hne.
  destruct (piperead_loop_run a (Z.to_nat n) p (s <| k_held ::= cons (Lpipe a) |>))
    as (p' & Hr & Hok' & Hc & _); [done..|].
  exists p'. split; [|done]. unfold piperead, bind.
  rewrite acquire_run by (rewrite Hh; set_solver). simpl.
  assert (pipe_wait_data a (s <| k_held ::= cons (Lpipe a) |>) =
          Ok true (s <| k_held ::= cons (Lpipe a) |>)) as ->.
  { unfold pipe_wait_data. destruct wakeups; [lia|]. cbn [loop]. unfold bind.
    rewrite (getpipe_run a p) by done. simpl.
    destruct (pipe_empty p) eqn:E; [|done]. apply pipe_empty_spec in E; [|done].
    destruct Hne as [?|Hne]; [done|]. by rewrite Hne. }
  simpl. rewrite Hr. simpl.
  rewrite wakeup_run by (simpl; rewrite Hh; set_solver). simpl.
  rewrite (release_run _ _ []) by (simpl; rewrite ?Hh; set_solver). simpl.
  f_equal. destruct s; simpl in *. by subst.
Qed.

(** A writer that finds the pipe full does not lose bytes: it wakes the readers
    and gives up the processor, asleep on the write channel, the pipe unchanged and
    its lock released. *)
Theorem pipewrite_blocks a c src p i q s :
  (0 < wakeups)%nat → k_held s = [] → k_pipes s !! a = Some p → pipe_full p = true →
  pi_readopen p = true → k_cur s = Some i → k_ptable s !! i = Some q → p_killed q = 0 →
  ∃ k, pipewrite a (c :: src) s =
    Switch (woken (ChPipeRead a) s
            <| k_ptable ::= <[i := asleep (ChPipeWrite a) (wake_proc (Some (ChPipeRead a)) q)]> |>
            <| k_held := [Lptable] |>) k.
Proof.
  intros Hw Hh Hp Hf Hro Hi Hq Hk. unfold pipewrite, bind.
  rewrite acquire_run by (rewrite Hh; set_solver). simpl. unfold bind at 1, pipe_wait_room.
  destruct wakeups; [lia|]. cbn [loop]. unfold bind.
  rewrite (getpipe_run a p) by done. simpl. rewrite Hf. simpl.
  unfold my_killed, bind. rewrite (myproc_run i) by done. simpl. rewrite (getp_run i q) by done. simpl.
  rewrite Hro, Hk. simpl. rewrite wakeup_run by (simpl; rewrite Hh; set_solver). simpl.
  edestruct (sleep_run (ChPipeWrite a) (Lpipe a) i) as (k & Hs & _); [| | | |rewrite Hs; simpl].
  - done.
  - simpl. rewrite list_lookup_fmap, Hq. done.
  - simpl. by rewrite Hh.
  - done.
  - eexists. f_equal.
Qed.

End pipe_ops.
