(* ===== verification/PipeThm.v ===== *)
(** * Writers and readers of a pipe (pipe.c)

    Any number of calls of pipewrite and piperead on one pipe run at the same time.  A call
    runs from one context switch to the next; between two stretches of it the other calls
    run, and the rest of the kernel does what it likes except to the bytes of the pipe. *)
From S2P Require Import Prelude Mem Mmu Kalloc KState Sched Pipe.

Section stretches.
  Context (a : Z).

Definition has_pipe (s : kst) : Prop := ∃ p, k_pipes s !! a = Some p ∧ pipe_ok p.

(** From [s] to [s'] the bytes [w] went into the pipe and [r] came out. *)
Definition moved (s : kst) (w r : list Z) (s' : kst) : Prop :=
  ∃ p p', k_pipes s !! a = Some p ∧ k_pipes s' !! a = Some p' ∧ pipe_ok p' ∧ contents p ++ w = r ++ contents p'.

(** Every stretch of [o] puts a part of the bytes [g] that are left to write into the
    pipe, in order; the last one takes out what the call returns, [rd]. *)
Fixpoint stretches {A} (rd : A → list Z) (Q : A → list Z → kst → Prop) (g : list Z) (s0 : kst) (o : outcome kst A) : Prop :=
  match o with
  | Ok x s => ∃ w g', g = w ++ g' ∧ moved s0 w (rd x) s ∧ Q x g' s
  | Switch s k => ∃ w g', g = w ++ g' ∧ moved s0 w [] s ∧ ∀ s', has_pipe s' → stretches rd Q g' s' (k s')
  | _ => True
  end.

Lemma moved_refl s : has_pipe s → moved s [] [] s.
Proof. intros (p & Hp & Hok). exists p, p. split_and!; try done. by rewrite app_nil_r. Qed.

Lemma moved_trans s1 w1 s2 w2 r s3 : moved s1 w1 [] s2 → moved s2 w2 r s3 → moved s1 (w1 ++ w2) r s3.
Proof.
  intros (p1 & p2 & H1 & H2 & _ & E1) (q & p3 & H2' & H3 & Hok & E2). simplify_eq. exists p1, p3. split_and!; try done.
  by rewrite app_assoc, E1.
Qed.

Lemma moved_has s w r s' : moved s w r s' → has_pipe s'.
Proof. intros (p & p' & _ & Hp' & Hok & _). by exists p'. Qed.

Lemma moved_quiet s s' : has_pipe s → k_pipes s' = k_pipes s → moved s [] [] s'.
Proof. intros (p & Hp & Hok) E. exists p, p. rewrite E. split_and!; try done. by rewrite app_nil_r. Qed.

Lemma stretches_from {A} (rd : A → list Z) Q w g s0 s o : moved s0 w [] s → stretches rd Q g s o → stretches rd Q (w ++ g) s0 o.
Proof.
  intros Hm. destruct o; simpl; try done; intros (w' & g' & -> & Hm' & HQ); exists (w ++ w'), g'; (split; [by rewrite app_assoc|]);
    (split; [by eapply moved_trans|done]).
Qed.

Lemma stretches_bind {A B} (rd : B → list Z) (Q1 : A → list Z → kst → Prop) Q2 (m : K A) (k : A → K B) g s :
  stretches (λ _, []) Q1 g s (m s) →
  (∀ x g' s', has_pipe s' → Q1 x g' s' → stretches rd Q2 g' s' (k x s')) → stretches rd Q2 g s (bind m k s).
Proof.
  intros Hm Hk. unfold bind. revert g s Hm. enough (∀ o g s, stretches (λ _, []) Q1 g s o → stretches rd Q2 g s (obind k o)) by eauto.
  intros o. induction o as [x s1| | | |s1 r IH]; intros g s0 Hm; simpl in *; try done.
  - destruct Hm as (w & g' & -> & Hm & HQ). eapply stretches_from; [done|]. apply Hk; [by eapply moved_has|done].
  - destruct Hm as (w & g' & -> & Hm & Hr). exists w, g'. split_and!; try done. intros s' Hs'. apply IH. by apply Hr.
Qed.

Lemma stretches_mono {A} (rd : A → list Z) (Q Q' : A → list Z → kst → Prop) g s o :
  (∀ x g s, Q x g s → Q' x g s) → stretches rd Q g s o → stretches rd Q' g s o.
Proof.
  intros HQ. revert g s. induction o as [x s1| | | |s1 r IH]; intros g s; simpl; try done.
  - intros (w & g' & ? & ? & ?). exists w, g'. split_and!; try done. by apply HQ.
  - intros (w & g' & ? & ? & Hr). exists w, g'. split_and!; try done. intros s' Hs'. by apply IH, Hr.
Qed.

Lemma stretches_ret {A} (rd : A → list Z) (Q : A → list Z → kst → Prop) x g s :
  has_pipe s → rd x = [] → Q x g s → stretches rd Q g s (ret x s).
Proof. intros Hs E HQ. exists [], g. split_and!; try done. rewrite E. by apply moved_refl. Qed.

End stretches.

(** ** Computations that leave the pipes alone *)

Definition still {A} (m : K A) : Prop := ∀ s, guar (λ _, True) (λ s s', k_pipes s' = k_pipes s) (λ _ _, True) s (m s).

Lemma still_bind {A B} (m : K A) (k : A → K B) : still m → (∀ x, still (k x)) → still (bind m k).
Proof.
  intros Hm Hk s. eapply (guar_bind _ _); [by intros ??? -> ->|done|done|apply Hm|]. intros x s' _ _. apply Hk.
Qed.
Lemma still_ret {A} (x : A) : still (ret x).
Proof. done. Qed.
Lemma still_get : still get.
Proof. done. Qed.
Lemma still_deref {A} msg (o : option A) : still (deref msg o).
Proof. by destruct o. Qed.
Lemma still_panic {A} msg : still (@panic kst A msg).
Proof. done. Qed.
Lemma still_acquire l : still (acquire l).
Proof. intros s. unfold acquire, holding, bind. simpl. by case_bool_decide. Qed.
Lemma still_release l : still (release l).
Proof. intros s. unfold release, holding, bind. simpl. by case_bool_decide. Qed.
Lemma still_getp j : still (getp j).
Proof. apply still_bind; [done|]. intros s. apply still_deref. Qed.
Lemma still_modp j f : still (modp j f).
Proof. apply still_bind; [apply still_getp|]. intros p s. done. Qed.
Lemma still_myproc : still myproc.
Proof. apply still_bind; [done|]. intros s. apply still_deref. Qed.
Create HintDb still.
#[local] Hint Resolve still_bind still_ret still_get still_deref still_panic still_acquire still_release still_getp still_modp still_myproc : still.

Lemma still_wakeup c : still (wakeup c).
Proof. unfold wakeup. apply still_bind; [apply still_acquire|]. intros _. apply still_bind; [done|]. intros _. apply still_release. Qed.
Lemma still_my_killed : still my_killed.
Proof. unfold my_killed. auto with still. Qed.
Lemma still_sched : still sched.
Proof.
  unfold sched, holding. apply still_bind; [apply still_myproc|]. intros i. apply still_bind; [done|]. intros [|]; [|done]. simpl.
  apply still_bind; [done|]. intros n. destruct (negb _); [done|]. apply still_bind; [apply still_getp|]. intros p. by case_decide.
Qed.
Lemma still_sleep c lk : still (sleep c lk).
Proof.
  unfold sleep. apply still_bind; [done|]. intros s. destruct (k_cur s) as [i|]; [|done].
  induction (sleep_acts c lk) as [|x l IH]; [done|]. simpl. apply still_bind; [|done].
  destruct x; simpl; first [done|apply still_sched|by auto with still].
Qed.
#[local] Hint Resolve still_wakeup still_my_killed still_sleep : still.

Section calls.
  Context `{Bound} (a : Z).
  Abbreviation stretches := (stretches a).
  Abbreviation has_pipe := (has_pipe a).

Lemma stretches_still {A B} (rd : B → list Z) Q (m : K A) (k : A → K B) g s :
  has_pipe s → still m → (∀ x s', has_pipe s' → stretches rd Q g s' (k x s')) → stretches rd Q g s (bind m k s).
Proof.
  intros Hs Hm Hk. apply (stretches_bind a rd (λ _ g' _, g' = g)); [|intros x ? s' Hs' ->; by apply Hk].
  specialize (Hm s). revert Hm Hs. generalize (m s). intros o. revert s.
  induction o as [x s1| | | |s1 r IH]; intros s; simpl; try done; intros [E HT] Hs; exists [], g.
  - split_and!; try done. by apply moved_quiet.
  - split_and!; try done; [by apply moved_quiet|]. intros s' Hs'. apply IH; [|done]. by apply HT.
Qed.

(** The waiting loop of pipewrite ends with room in the pipe or with the write given up. *)
Lemma wait_room_stretches g s :
  has_pipe s →
  stretches (λ _, []) (λ ok g' s', g' = g ∧ (ok = true → ∀ p, k_pipes s' !! a = Some p → pipe_full p = false)) g s (pipe_wait_room a s).
Proof.
  unfold pipe_wait_room. revert s. induction wakeups as [|n IH]; intros s Hs; [done|]. cbn [loop].
  apply (stretches_bind a _ (λ r g' s', g' = g ∧ match r with inr true => ∀ p, k_pipes s' !! a = Some p → pipe_full p = false | _ => True end)).
  - pose proof Hs as (p & Hp & Hok). run (getpipe_run a p); [|done]. destruct (pipe_full p) eqn:E; cbn [negb].
    + apply stretches_still; [done|apply still_my_killed|]. intros k s1 Hs1. destruct (_ || k).
      { by apply stretches_ret. }
      apply stretches_still; [done|apply still_wakeup|]. intros _ s2 Hs2.
      apply stretches_still; [done|apply still_sleep|]. intros _ s3 Hs3. by apply stretches_ret.
    + apply stretches_ret; [done..|]. split; [done|]. intros q Hq. by simplify_eq.
  - intros [[]|ok] g' s' Hs' [-> HQ]; [by apply IH|]. apply stretches_ret; [done..|]. split; [done|]. by intros ->.
Qed.

Lemma pipewrite_loop_stretches src s :
  has_pipe s → stretches (λ _, []) (λ ok g' _, ok = true → g' = []) src s (pipewrite_loop a src s).
Proof.
  revert s. induction src as [|c src IH]; intros s Hs; cbn [pipewrite_loop]; [by apply stretches_ret|].
  eapply stretches_bind; [by apply wait_room_stretches|]. intros ok g' s1 Hs1 [-> Hroom].
  destruct ok; cbn [negb]; [|by apply stretches_ret].
  destruct Hs1 as (p & Hp & Hok). run (modpipe_run a p); [|done]. specialize (Hroom eq_refl p Hp).
  destruct (pipe_put_spec c p Hok Hroom) as [Hok' Hc].
  apply (stretches_from a _ _ [c] src _ (set_pipe a (pipe_put c p) s1)).
  - exists p, (pipe_put c p). split_and!; [done|apply set_pipe_lookup|done|]. by rewrite Hc.
  - apply IH. exists (pipe_put c p). split; [apply set_pipe_lookup|done].
Qed.

Lemma wait_data_stretches g s :
  has_pipe s → stretches (λ _, []) (λ _ g' _, g' = g) g s (pipe_wait_data a s).
Proof.
  unfold pipe_wait_data. revert s. induction wakeups as [|n IH]; intros s Hs; [done|]. cbn [loop].
  apply (stretches_bind a _ (λ _ g' _, g' = g)).
  - pose proof Hs as (p & Hp & Hok). run (getpipe_run a p); [|done]. destruct (negb _); [by apply stretches_ret|].
    apply stretches_still; [done|apply still_my_killed|]. intros [] s1 Hs1; [by apply stretches_ret|].
    apply stretches_still; [done|apply still_sleep|]. intros _ s2 Hs2. by apply stretches_ret.
  - intros [[]|ok] g' s' Hs' ->; [by apply IH|by apply stretches_ret].
Qed.

(** The end of piperead, after the bytes have been taken. *)
Lemma read_end_stretches s0 s cs :
  moved a s0 [] cs s →
  stretches snd (λ x _ _, x = (Z.of_nat (length cs), cs)) [] s0
    ((wakeup (ChPipeWrite a);; release (Lpipe a);; ret (Z.of_nat (length cs), cs)) s).
Proof.
  intros Hm. destruct (decide (Lptable ∈ k_held s)) as [Hl|Hl].
  { unfold wakeup, acquire, holding, bind. simpl. by rewrite bool_decide_true. }
  run wakeup_run; [|done]. destruct (decide (Lpipe a ∈ k_held s)) as [Hr|Hr].
  - run release_any; [|done]. exists [], []. by split_and!.
  - unfold release, holding, bind. simpl. by rewrite bool_decide_false.
Qed.

(** ** Calls *)

Inductive pcall := PWrite (src : list Z) | PRead (n : Z).

(** What a call returns: its value and the bytes it has read. *)
Definition pipe_call (c : pcall) : K (Z * list Z) :=
  match c with
  | PWrite src => n <- pipewrite a src; ret (n, [])
  | PRead n => piperead a n
  end.

(** The bytes a call has to write, and what it may return when [g] is left of them. *)
Definition to_write (c : pcall) : list Z := match c with PWrite src => src | PRead _ => [] end.
Definition may_return (c : pcall) (x : Z * list Z) (g : list Z) : Prop :=
  match c with
  | PWrite src => x.2 = [] ∧ (x.1 = Z.of_nat (length src) ∧ g = [] ∨ x.1 = -1)
  | PRead n => x.1 = Z.of_nat (length x.2) ∧ (length x.2 ≤ Z.to_nat n)%nat ∨ x = (-1, [])
  end.

Lemma pipe_call_stretches c s :
  has_pipe s → stretches snd (λ x g _, may_return c x g) (to_write c) s (pipe_call c s).
Proof.
  intros Hs. destruct c as [src|n]; cbn [pipe_call to_write].
  - apply (stretches_bind a _ (λ n g _, n = Z.of_nat (length src) ∧ g = [] ∨ n = -1)).
    2: { intros n g s' Hs' HQ. by apply stretches_ret. }
    unfold pipewrite. apply stretches_still; [done|apply still_acquire|]. intros _ s1 Hs1.
    eapply stretches_bind; [by apply pipewrite_loop_stretches|]. intros ok g s2 Hs2 Hok. destruct ok; cbn [negb].
    + apply stretches_still; [done|apply still_wakeup|]. intros _ s3 Hs3.
      apply stretches_still; [done|apply still_release|]. intros _ s4 Hs4. apply stretches_ret; [done..|]. left. auto.
    + apply stretches_still; [done|apply still_release|]. intros _ s3 Hs3. apply stretches_ret; [done..|]. by right.
  - unfold piperead. apply stretches_still; [done|apply still_acquire|]. intros _ s1 Hs1.
    eapply stretches_bind; [by apply wait_data_stretches|]. intros ok g s2 Hs2 ->. destruct ok; cbn [negb].
    + pose proof Hs2 as (p & Hp & Hok). destruct (piperead_loop_run a (Z.to_nat n) p s2 Hp Hok) as (p' & Hr & Hok' & Hc & _).
      rewrite (bind_ok _ _ _ _ _ Hr). eapply stretches_mono; [|apply read_end_stretches].
      * intros x g s' ->. left. simpl. split; [done|]. rewrite length_take. lia.
      * exists p, p'. split_and!; [done|apply set_pipe_lookup|done|]. by rewrite app_nil_r, Hc, take_drop.
    + apply stretches_still; [done|apply still_release|]. intros _ s3 Hs3. apply stretches_ret; [done..|]. by right.
Qed.

(** ** Interleavings

    The calls made so far, the ones that wait with what they still have to do, and the
    values returned so far, in order. *)
Record calls := Calls {
  y_k : kst;
  y_calls : list pcall;
  y_wait : gmap nat (kst → outcome kst (Z * list Z));
  y_ret : list (nat * (Z * list Z));
}.

(** Where a stretch of call [i] ends. *)
Definition land (i : nat) (o : outcome kst (Z * list Z)) (y : calls) : option calls :=
  match o with
  | Ok x s => Some (Calls s (y_calls y) (delete i (y_wait y)) (y_ret y ++ [(i, x)]))
  | Switch s k => Some (Calls s (y_calls y) (<[i := k]> (y_wait y)) (y_ret y))
  | _ => None
  end.

Inductive turn := Start (c : pcall) | Resume (i : nat).

Definition take_turn (t : turn) (y : calls) : option calls :=
  match t with
  | Start c => land (length (y_calls y)) (pipe_call c (y_k y)) (Calls (y_k y) (y_calls y ++ [c]) (y_wait y) (y_ret y))
  | Resume i => k ← y_wait y !! i; land i (k (y_k y)) y
  end.

(** What the rest of the kernel does between two stretches: anything but to the bytes; in
    particular it may close an end, kill a process or wake it. *)
Definition same_bytes (s s' : kst) : Prop :=
  ∃ p p', k_pipes s !! a = Some p ∧ k_pipes s' !! a = Some p' ∧
    pi_data p' = pi_data p ∧ pi_nread p' = pi_nread p ∧ pi_nwrite p' = pi_nwrite p.

Inductive interleaving (s : kst) : calls → Prop :=
  | inter_start : interleaving s (Calls s [] ∅ [])
  | inter_turn y t y' : interleaving s y → take_turn t y = Some y' → interleaving s y'
  | inter_rest y s' : interleaving s y → same_bytes (y_k y) s' → interleaving s (Calls s' (y_calls y) (y_wait y) (y_ret y)).

(** The bytes read so far, and the bytes of a list that call [i] has written. *)
Definition bytes_read (y : calls) : list Z := concat ((λ x, x.2.2) <$> y_ret y).
Definition bytes_of (i : nat) (l : list (nat * Z)) : list Z := (filter (λ x, x.1 = i) l).*2.

Lemma bytes_of_app i j l w : bytes_of i (l ++ (pair j <$> w)) = bytes_of i l ++ (if decide (i = j) then w else []).
Proof.
  unfold bytes_of. rewrite list.filter_app, fmap_app. f_equal. induction w as [|z w IH]; [by case_decide|]. rewrite fmap_cons.
  destruct (decide (i = j)) as [->|Hne].
  - rewrite filter_cons_True by done. by rewrite fmap_cons, IH.
  - by rewrite filter_cons_False by (simpl; congruence).
Qed.

(** Invariant of an interleaving: [l] are the bytes written so far with their calls. *)
Record calls_ok (y : calls) (l : list (nat * Z)) : Prop := {
  co_pipe : ∃ p, k_pipes (y_k y) !! a = Some p ∧ pipe_ok p ∧ l.*2 = bytes_read y ++ contents p;
  co_call : ∀ i c, y_calls y !! i = Some c → bytes_of i l `prefix_of` to_write c;
  co_wait : ∀ i k, y_wait y !! i = Some k → (∀ x, (i, x) ∉ y_ret y) ∧ ∃ c g, y_calls y !! i = Some c ∧ to_write c = bytes_of i l ++ g ∧
    ∀ s, has_pipe s → stretches snd (λ x g _, may_return c x g) g s (k s);
  co_ret : ∀ i x, (i, x) ∈ y_ret y → ∃ c g, y_calls y !! i = Some c ∧ to_write c = bytes_of i l ++ g ∧ may_return c x g;
  co_new : ∀ i z, (i, z) ∈ l → (i < length (y_calls y))%nat;
}.

(** A stretch of call [i], which has [g] left to write. *)
Lemma land_ok y l i c g o y' :
  calls_ok y l → y_calls y !! i = Some c → to_write c = bytes_of i l ++ g → (∀ x, (i, x) ∉ y_ret y) →
  stretches snd (λ x g _, may_return c x g) g (y_k y) o → land i o y = Some y' → ∃ l', calls_ok y' l'.
Proof.
  intros [(p & Hp & Hok & Hl) Hcall Hwait Hret Hnew] Hi Hg Hnr Ho Hy.
  assert (∀ w r s' g' y', g = w ++ g' → moved a (y_k y) w r s' → y_k y' = s' → y_calls y' = y_calls y →
    bytes_read y' = bytes_read y ++ r → 
    (∀ j k, y_wait y' !! j = Some k → j ≠ i → y_wait y !! j = Some k) → (∀ j x, (j, x) ∈ y_ret y' → (j, x) ∈ y_ret y ∨ j = i ∧ may_return c x g') →
    (∀ k, y_wait y' !! i = Some k → y_ret y' = y_ret y ∧ ∀ s, has_pipe s → stretches snd (λ x g _, may_return c x g) g' s (k s)) →
    calls_ok y' (l ++ (pair i <$> w))) as Hstep.
  { intros w r s' g' z -> (p0 & p' & Hp0 & Hp' & Hok' & Hc) Hk Hcs Hbr Hw Hr Hwi. rewrite Hp in Hp0. injection Hp0 as <-. split; rewrite ?Hk, ?Hcs.
    - exists p'. split_and!; try done. rewrite fmap_app, Hl, Hbr, <-!app_assoc, <-Hc. do 2 f_equal. rewrite <-list_fmap_compose. by apply list_fmap_id.
    - intros j d Hj. rewrite bytes_of_app. case_decide as E; [|rewrite app_nil_r; by apply Hcall]. subst. simplify_eq. rewrite Hg, app_assoc. by eexists.
    - intros j k Hj. destruct (decide (j = i)) as [->|Hne].
      + destruct (Hwi k Hj) as [-> Hs]. split; [done|]. exists c, g'. split_and!; try done. rewrite bytes_of_app, decide_True by done. by rewrite Hg, app_assoc.
      + destruct (Hwait j k (Hw j k Hj Hne)) as (Hn & d & h & ? & ? & ?). split; [intros x [?|[-> _]]%Hr; [by eapply Hn|done]|].
        exists d, h. by rewrite bytes_of_app, decide_False, app_nil_r.
    - intros j x [Hx|[-> Hx]]%Hr; [|exists c, g'; split_and!; try done; rewrite bytes_of_app, decide_True by done; by rewrite Hg, app_assoc].
      destruct (Hret j x Hx) as (d & h & ? & ? & ?). exists d, h. rewrite bytes_of_app, decide_False, app_nil_r; [done|]. intros ->. by eapply Hnr.
    - intros j z' [?|(? & [= -> ->] & _)%list_elem_of_fmap]%elem_of_app; [by eapply Hnew|by eapply lookup_lt_Some]. }
  destruct o as [x s'| | | |s' k]; simpl in *; try done; injection Hy as <-; destruct Ho as (w & g' & E & Hm & HQ); eexists; eapply Hstep; try done; simpl.
  - unfold bytes_read. simpl. rewrite fmap_app, concat_app. simpl. by rewrite app_nil_r.
  - intros j k Hk Hne. by rewrite lookup_delete_ne in Hk.
  - intros j y' [?|Hj]%elem_of_app; [by left|]. right. apply list_elem_of_singleton in Hj. by injection Hj as -> ->.
  - intros k Hk. by rewrite lookup_delete_eq in Hk.
  - by rewrite app_nil_r.
  - intros j k' Hk Hne. by rewrite lookup_insert_ne in Hk.
  - intros j x Hx. by left.
  - intros k'. rewrite lookup_insert_eq. intros [= <-]. done.
Qed.

Lemma take_turn_ok t y y' l : calls_ok y l → take_turn t y = Some y' → ∃ l', calls_ok y' l'.
Proof.
  intros Hy Ht. pose proof Hy as [(p & Hp & Hok & Hl) Hcall Hwait Hret Hnew].
  assert (has_pipe (y_k y)) as Hh by (by exists p). destruct t as [c|i]; simpl in Ht.
  - assert (bytes_of (length (y_calls y)) l = []) as Hb.
    { destruct (bytes_of _ l) as [|z r] eqn:E; [done|]. assert (z ∈ bytes_of (length (y_calls y)) l) as Hz by (rewrite E; left).
      unfold bytes_of in Hz. apply list_elem_of_fmap in Hz as ([i z'] & _ & [Hi Hz]%list_elem_of_filter). simpl in Hi. subst.
      apply Hnew in Hz. lia. }
    assert (∀ i d, y_calls y !! i = Some d → (y_calls y ++ [c]) !! i = Some d) as Hold by (intros; by apply lookup_app_l_Some).
    eapply (land_ok (Calls (y_k y) (y_calls y ++ [c]) (y_wait y) (y_ret y)) l _ c (to_write c)); [| | | | |done]; simpl.
    + split; simpl; [by exists p| | | |intros i z Hz%Hnew; rewrite length_app; lia].
      * intros i d [Hd|[Hi Hd]]%lookup_app_Some; [by apply Hcall|]. destruct (i - length (y_calls y))%nat eqn:E; simplify_eq/=.
        replace i with (length (y_calls y)) by lia. rewrite Hb. apply prefix_nil.
      * intros i k Hk. destruct (Hwait i k Hk) as (? & d & g & ? & ? & ?). split; [done|]. exists d, g. split_and!; try done. by apply Hold.
      * intros i x Hx. destruct (Hret i x Hx) as (d & g & ? & ? & ?). exists d, g. split_and!; try done. by apply Hold.
    + by rewrite list_lookup_middle.
    + by rewrite Hb.
    + intros x (d & g & Hd & _)%Hret. apply lookup_lt_Some in Hd. lia.
    + by apply pipe_call_stretches.
  - destruct (y_wait y !! i) as [k|] eqn:Hk; [|done]. destruct (Hwait i k Hk) as (Hn & c & g & Hc & Hg & Hs).
    eapply land_ok; [done|exact Hc|exact Hg|done| |exact Ht]. by apply Hs.
Qed.

Lemma interleaving_ok s y p :
  k_pipes s !! a = Some p → pipe_ok p → contents p = [] → interleaving s y → ∃ l, calls_ok y l.
Proof.
  intros Hp Hok He. induction 1 as [|y t y' _ [l IH] Ht|y s' _ [l [(q & Hq & Hqok & Hl) H2 H3 H4 H5]] (q1 & q' & Hq1 & Hq' & E1 & E2 & E3)].
  - exists []. split; simpl; [exists p; by rewrite He| | | |]; intros ? ? H0; try done; by apply elem_of_nil in H0.
  - by eapply take_turn_ok.
  - exists l. rewrite Hq in Hq1. injection Hq1 as <-. split; simpl; try done. exists q'. split_and!; try done.
    + destruct Hqok. split; by rewrite ?E1, ?E2, ?E3.
    + rewrite Hl. unfold bytes_read, contents, pipe_count, pipe_at. simpl. by rewrite E1, E2, E3.
Qed.

(** A schedule: the process and the locks at the start of each turn. *)
Fixpoint schedule (l : list (nat * list lockid * turn)) (y : calls) : option calls :=
  match l with
  | [] => Some y
  | (i, held, t) :: l =>
      y ← take_turn t (Calls (y_k y <| k_cur := Some i |> <| k_held := held |>) (y_calls y) (y_wait y) (y_ret y));
      schedule l y
  end.

Lemma schedule_interleaving s l y y' p :
  k_pipes s !! a = Some p → pipe_ok p → contents p = [] → interleaving s y → schedule l y = Some y' → interleaving s y'.
Proof.
  intros Hp Hok He. revert y. induction l as [|[[i held] t] l IH]; intros y Hy Hs; simpl in Hs; [by injection Hs as <-|].
  destruct (take_turn t _) as [y1|] eqn:E; [|done]. simpl in Hs. apply (IH y1); [|done]. eapply inter_turn; [|exact E].
  apply inter_rest; [done|]. destruct (interleaving_ok s y p Hp Hok He Hy) as [l' [(q & Hq & _) _ _ _ _]]. by exists q, q.
Qed.
End calls.

(** C25: a pipe is first in, first out, whatever calls of pipewrite and piperead run on it
    at the same time, and however they interleave at their context switches with each
    other and with the rest of the kernel.  The bytes that the readers have returned, in
    the order of their returns, followed by the bytes in the pipe, are the bytes of the
    writers: none is lost, invented or doubled, and the bytes of each writer are a prefix
    of what it was given, in order, all of it when it returned its length and else it
    returned -1.  A reader returns the number of its bytes, at most what it asked for. *)
Theorem pipe_fifo `{Bound} a s p y :
  k_pipes s !! a = Some p → pipe_ok p → contents p = [] → interleaving a s y →
  ∃ p' l, k_pipes (y_k y) !! a = Some p' ∧ l.*2 = bytes_read y ++ contents p' ∧
    (∀ i z, (i, z) ∈ l → ∃ src, y_calls y !! i = Some (PWrite src)) ∧
    (∀ i src, y_calls y !! i = Some (PWrite src) → bytes_of i l `prefix_of` src ∧
       ∀ n r, (i, (n, r)) ∈ y_ret y → n = Z.of_nat (length src) ∧ bytes_of i l = src ∨ n = -1) ∧
    (∀ i m n r, y_calls y !! i = Some (PRead m) → (i, (n, r)) ∈ y_ret y →
       n = Z.of_nat (length r) ∧ (length r ≤ Z.to_nat m)%nat ∨ n = -1 ∧ r = []).
Proof.
  intros Hp Hok He Hy. destruct (interleaving_ok a s y p Hp Hok He Hy) as [l [(q & Hq & _ & Hl) Hcall _ Hret Hnew]].
  exists q, l. split_and!; try done.
  - intros i z Hz. destruct (lookup_lt_is_Some_2 (y_calls y) i) as [[src|n] Hc]; [by eapply Hnew|by exists src|].
    apply Hcall in Hc. apply prefix_nil_inv in Hc. exfalso. apply (not_elem_of_nil z). rewrite <-Hc. unfold bytes_of.
    apply list_elem_of_fmap. exists (i, z). split; [done|]. by apply list_elem_of_filter.
  - intros i src Hc. split; [by apply (Hcall i _ Hc)|]. intros n r (c & g & Hc' & Hg & Hx)%Hret. rewrite Hc in Hc'. injection Hc' as <-.
    destruct Hx as [_ [[Hn ->]|Hn]]; simpl in *; [left|by right]. split; [done|]. by rewrite Hg, app_nil_r.
  - intros i m n r Hc (c & g & Hc' & _ & Hx)%Hret. rewrite Hc in Hc'. injection Hc' as <-. destruct Hx as [?|[= -> ->]]; [by left|by right].
Qed.
