(* ===== verification/FileTab.v ===== *)
(** * Open files (file.c, and pipealloc of pipe.c) *)
From S2P Require Import Prelude Mem Mmu Kalloc KState Sched Bio Log Fs Pipe.

Definition getf (i : nat) : K file := s <- get; deref "ftable.file" (k_ftable s !! i).
Definition modf (i : nat) (f : file → file) : K unit :=
  x <- getf i; modify (λ s, s <| k_ftable ::= <[i := f x]> |>).

Section file.
  Context `{Linker} `{Bound} `{Devices}.

Definition filealloc : K (option nat) :=
  acquire Lftable;;
  ft <- gets k_ftable;
  match find_index (λ f, f_ref f =? 0) ft with
  | Some i => modf i (λ f, f <| f_ref := 1 |>);; release Lftable;; ret (Some i)
  | None => release Lftable;; ret None
  end.

Definition filedup (i : nat) : K nat :=
  acquire Lftable;;
  f <- getf i;
  if f_ref f <? 1 then panic "filedup" else
  modf i (λ f, f <| f_ref ::= λ n, s32 (n + 1) |>);;
  release Lftable;;
  ret i.

Definition fileclose (i : nat) : K unit :=
  acquire Lftable;;
  f <- getf i;
  if f_ref f <? 1 then panic "fileclose" else
  modf i (λ f, f <| f_ref ::= λ n, s32 (n - 1) |>);;
  ff <- getf i;
  if 0 <? f_ref ff then release Lftable else
  modf i (λ f, f <| f_ref := 0 |> <| f_type := FD_NONE |>);;
  release Lftable;;
  match f_type ff with
  | FD_PIPE => pipeclose (f_pipe ff) (f_writable ff)
  | FD_INODE =>
      begin_op;;
      ip <- deref "ff.ip" (f_ip ff);
      iput ip;;
      end_op
  | FD_NONE => ret tt
  end.

(** filestat: [None] for -1. *)
Definition filestat (i : nat) : K (option (Z * Z * Z * Z * Z)) :=
  f <- getf i;
  if decide (f_type f = FD_INODE) then
    ip <- deref "f->ip" (f_ip f);
    ilock ip;;
    st <- stati ip;
    iunlock ip;;
    ret (Some st)
  else ret None.

Definition fileread (i : nat) (n : Z) : K (Z * list Z) :=
  f <- getf i;
  if negb (f_readable f) then ret (-1, []) else
  match f_type f with
  | FD_PIPE => piperead (f_pipe f) n
  | FD_INODE =>
      ip <- deref "f->ip" (f_ip f);
      ilock ip;;
      r <- readi ip (f_off f) (u32 n);
      when (0 <? r.1) (modf i (λ f, f <| f_off ::= λ o, u32 (o + r.1) |>));;
      iunlock ip;;
      ret r
  | FD_NONE => panic "fileread"
  end.

(** The largest write of one transaction. *)
Definition filewrite_max : Z := ((LOGSIZE - 1 - 1 - 2) `div` 2) * 512.

(** The loop of filewrite: [i] of [n] bytes written so far. *)
Fixpoint filewrite_loop (k fi ip : nat) (i n : Z) (src : list Z) : K Z :=
  match k with
  | O => λ _, Fuel
  | S k =>
      if negb (i <? n) then ret i else
      let n1 := Z.min (n - i) filewrite_max in
      begin_op;;
      ilock ip;;
      f <- getf fi;
      r <- writei ip (take (Z.to_nat n1) src) (f_off f) n1;
      when (0 <? r) (modf fi (λ f, f <| f_off ::= λ o, u32 (o + r) |>));;
      iunlock ip;;
      end_op;;
      if r <? 0 then ret i else
      if negb (r =? n1) then panic "short filewrite" else
      filewrite_loop k fi ip (i + r) n (drop (Z.to_nat r) src)
  end.

Definition filewrite (i : nat) (src : list Z) (n : Z) : K Z :=
  f <- getf i;
  if negb (f_writable f) then ret (-1) else
  match f_type f with
  | FD_PIPE => pipewrite (f_pipe f) (take (Z.to_nat n) src)
  | FD_INODE =>
      ip <- deref "f->ip" (f_ip f);
      r <- filewrite_loop (S (S (Z.to_nat (n `div` filewrite_max + 1)))) i ip 0 n src;
      ret (if r =? n then n else -1)
  | FD_NONE => panic "filewrite"
  end.

(** [bad:] of pipealloc. *)
Definition pipealloc_bad (p : Z) (f0 f1 : option nat) : K (option (nat * nat)) :=
  when (negb (p =? 0)) (pm_do (kfree p));;
  match f0 with Some f => fileclose f | None => ret tt end;;
  match f1 with Some f => fileclose f | None => ret tt end;;
  ret None.

(** pipealloc: the two files, or [None] for -1.  The new struct's [data] is what
    the page held. *)
Definition pipealloc : K (option (nat * nat)) :=
  f0 <- filealloc;
  match f0 with
  | None => pipealloc_bad 0 None None
  | Some r =>
      f1 <- filealloc;
      match f1 with
      | None => pipealloc_bad 0 (Some r) None
      | Some w =>
          p <- pm_do kalloc;
          if p =? 0 then pipealloc_bad 0 (Some r) (Some w) else
          m <- gets (λ s, pm_mem (k_pm s));
          (* the struct starts with its spinlock; data is at offset 52 *)
          let data := (λ k, m (p + 52 + Z.of_nat k)) <$> seq 0 (Z.to_nat PIPESIZE) in
          modify (λ s, s <| k_pipes ::= <[p := Pipe data 0 0 true true]> |>);;
          modf r (λ f, f <| f_type := FD_PIPE |> <| f_readable := true |>
                         <| f_writable := false |> <| f_pipe := p |>);;
          modf w (λ f, f <| f_type := FD_PIPE |> <| f_readable := false |>
                         <| f_writable := true |> <| f_pipe := p |>);;
          ret (Some (r, w))
      end
  end.

End file.
