(* ===== verification/Kbd.v ===== *)
(** * The keyboard (kbd.c, kbd.h)

    Scan codes to characters: the tables of kbd.h and the state machine of kbdgetc. *)
From S2P Require Import Prelude KState Sched.

Abbreviation SHIFT := (Z.shiftl 1 0)%Z.
Abbreviation CTL := (Z.shiftl 1 1)%Z.
Abbreviation ALT := (Z.shiftl 1 2)%Z.
Abbreviation CAPSLOCK := (Z.shiftl 1 3)%Z.
Abbreviation NUMLOCK := (Z.shiftl 1 4)%Z.
Abbreviation SCROLLLOCK := (Z.shiftl 1 5)%Z.
Abbreviation E0ESC := (Z.shiftl 1 6)%Z.

(** [uchar t[256] = {dense..., [i] x, ...}] *)
Definition uchar_table (dense : list Z) (sparse : list (nat * Z)) : list Z :=
  foldl (λ t p, <[p.1 := p.2]> t) (dense ++ replicate (256 - length dense) 0) sparse.

Definition shiftcode : list Z := Eval vm_compute in
  uchar_table [] [(0x1D%nat, CTL); (0x2A%nat, SHIFT); (0x36%nat, SHIFT); (0x38%nat, ALT); (0x9D%nat, CTL); (0xB8%nat, ALT)].

Definition togglecode : list Z := Eval vm_compute in
  uchar_table [] [(0x3A%nat, CAPSLOCK); (0x45%nat, NUMLOCK); (0x46%nat, SCROLLLOCK)].

Definition normalmap : list Z := Eval vm_compute in
  uchar_table [
    0; 27; 49; 50; 51; 52; 53; 54; 55; 56; 57; 48; 45; 61; 8; 9;
    113; 119; 101; 114; 116; 121; 117; 105; 111; 112; 91; 93; 10; 0; 97; 115;
    100; 102; 103; 104; 106; 107; 108; 59; 39; 96; 0; 92; 122; 120; 99; 118;
    98; 110; 109; 44; 46; 47; 0; 42; 0; 32; 0; 0; 0; 0; 0; 0;
    0; 0; 0; 0; 0; 0; 0; 55; 56; 57; 45; 52; 53; 54; 43; 49;
    50; 51; 48; 46]
    [(0x97%nat, 224); (0x9C%nat, 10); (0xB5%nat, 47); (0xC8%nat, 226); (0xC9%nat, 230); (0xCB%nat, 228); (0xCD%nat, 229); (0xCF%nat, 225); (0xD0%nat, 227); (0xD1%nat, 231); (0xD2%nat, 232); (0xD3%nat, 233)].

Definition shiftmap : list Z := Eval vm_compute in
  uchar_table [
    0; 27; 33; 64; 35; 36; 37; 94; 38; 42; 40; 41; 95; 43; 8; 9;
    81; 87; 69; 82; 84; 89; 85; 73; 79; 80; 123; 125; 10; 0; 65; 83;
    68; 70; 71; 72; 74; 75; 76; 58; 34; 126; 0; 124; 90; 88; 67; 86;
    66; 78; 77; 60; 62; 63; 0; 42; 0; 32; 0; 0; 0; 0; 0; 0;
    0; 0; 0; 0; 0; 0; 0; 55; 56; 57; 45; 52; 53; 54; 43; 49;
    50; 51; 48; 46]
    [(0x97%nat, 224); (0x9C%nat, 10); (0xB5%nat, 47); (0xC8%nat, 226); (0xC9%nat, 230); (0xCB%nat, 228); (0xCD%nat, 229); (0xCF%nat, 225); (0xD0%nat, 227); (0xD1%nat, 231); (0xD2%nat, 232); (0xD3%nat, 233)].

Definition ctlmap : list Z := Eval vm_compute in
  uchar_table [
    0; 0; 0; 0; 0; 0; 0; 0; 0; 0; 0; 0; 0; 0; 0; 0;
    17; 23; 5; 18; 20; 25; 21; 9; 15; 16; 0; 0; 13; 0; 1; 19;
    4; 6; 7; 8; 10; 11; 12; 0; 0; 0; 0; 28; 26; 24; 3; 22;
    2; 14; 13; 0; 0; 239; 0; 0; 0; 0; 0; 0; 0; 0; 0; 0;
    0; 0; 0; 0; 0; 0; 0; 0; 0; 0; 0; 0; 0; 0; 0; 0;
    0; 0; 0; 0]
    [(0x97%nat, 224); (0x9C%nat, 13); (0xB5%nat, 239); (0xC8%nat, 226); (0xC9%nat, 230); (0xCB%nat, 228); (0xCD%nat, 229); (0xCF%nat, 225); (0xD0%nat, 227); (0xD1%nat, 231); (0xD2%nat, 232); (0xD3%nat, 233)].

(** [charcode[i]] *)
Definition charcode (i : Z) : list Z :=
  if i =? 0 then normalmap else if i =? 1 then shiftmap else ctlmap.

(** kbdgetc once a byte [data] has been read, with the static variable [shift]: the
    result and the new [shift]; [None] for an access outside a table. *)
Definition kbd_decode (shift data : Z) : option (Z * Z) :=
  if data =? 0xE0 then Some (0, Z.lor shift E0ESC)
  else if negb (Z.land data 0x80 =? 0) then
    let data := if negb (Z.land shift E0ESC =? 0) then data else Z.land data 0x7F in
    sc ← shiftcode !! Z.to_nat data;
    Some (0, Z.land shift (Z.lnot (Z.lor sc E0ESC)))
  else
    let '(data, shift) :=
      if negb (Z.land shift E0ESC =? 0) then (Z.lor data 0x80, Z.land shift (Z.lnot E0ESC)) else (data, shift) in
    sc ← shiftcode !! Z.to_nat data;
    tc ← togglecode !! Z.to_nat data;
    let shift := Z.lxor (Z.lor shift sc) tc in
    c ← charcode (Z.land shift (Z.lor CTL SHIFT)) !! Z.to_nat data;
    let c :=
      if negb (Z.land shift CAPSLOCK =? 0) then
        if (97 <=? c) && (c <=? 122) then u32 (c + (65 - 97))
        else if (65 <=? c) && (c <=? 90) then u32 (c + (97 - 65)) else c
      else c in
    Some (c, shift).

(** kbdgetc when the controller has the byte [data]. *)
Definition kbdgetc (data : Z) : K Z :=
  s <- get;
  r <- deref "kbd tables" (kbd_decode (cn_shift (k_cons s)) data);
  modify (λ s, s <| k_cons ::= λ c, c <| cn_shift := r.2 |> |>);;
  ret r.1.

(** ** The decoding *)

(** A property of all bytes and all values of [shift] can be evaluated. *)
Lemma all_below (n : nat) (P : nat → bool) z :
  forallb P (seq 0 n) = true → 0 ≤ z < Z.of_nat n → P (Z.to_nat z) = true.
Proof.
  intros HP Hz. rewrite forallb_forall in HP. apply HP. apply in_seq. lia.
Qed.

Definition decode_total (shift data : nat) : bool :=
  match kbd_decode (Z.of_nat shift) (Z.of_nat data) with
  | Some (c, s) => (0 <=? c) && (c <? 256) && (0 <=? s) && (s <? 128)
  | None => false
  end.

Lemma decode_total_all : forallb (λ s, forallb (decode_total s) (seq 0 256)) (seq 0 128) = true.
Proof. vm_compute. reflexivity. Qed.

Lemma decode_bounds shift data :
  0 ≤ shift < 128 → 0 ≤ data < 256 →
  ∃ c s, kbd_decode shift data = Some (c, s) ∧ 0 ≤ c < 256 ∧ 0 ≤ s < 128.
Proof.
  intros Hs Hd. pose proof (all_below 256 _ data (all_below 128 _ shift decode_total_all Hs) Hd) as H2. unfold decode_total in H2.
  rewrite !Z2Nat.id in H2 by lia. destruct (kbd_decode shift data) as [[c s]|]; [|done]. exists c, s.
  apply andb_prop in H2 as [[[?%Z.leb_le ?%Z.ltb_lt]%andb_prop ?%Z.leb_le]%andb_prop ?%Z.ltb_lt]. by split_and!.
Qed.

(** No scan code in any state leads outside a table: decoding gives a byte and one of
    the 128 states. *)
Theorem kbd_decode_total shift data :
  0 ≤ shift < 128 → 0 ≤ data < 256 →
  ∃ c s, kbd_decode shift data = Some (c, s) ∧ 0 ≤ c < 256 ∧ 0 ≤ s < 128.
Proof. apply decode_bounds. Qed.

(** What a letter key should give. *)
Definition letter (shift l : Z) : Z :=
  if Z.testbit shift 1 then l - 96
  else if xorb (Z.testbit shift 0) (Z.testbit shift 3) then l - 32
  else l.

Definition letter_right (shift data : nat) : bool :=
  match normalmap !! data with
  | Some l =>
      if (97 <=? l) && (l <=? 122) then
        bool_decide (kbd_decode (Z.of_nat shift) (Z.of_nat data) = Some (letter (Z.of_nat shift) l, Z.of_nat shift))
      else true
  | None => true
  end.

Lemma letter_right_all : forallb (λ s, forallb (letter_right s) (seq 0 128)) (seq 0 64) = true.
Proof. vm_compute. reflexivity. Qed.

(** A letter key gives the control character while Ctrl is held, otherwise the upper
    case letter when exactly one of Shift and CapsLock is on, otherwise the lower case
    letter; the state of the modifiers does not change. *)
Theorem kbd_letters shift data l :
  0 ≤ shift < 64 → 0 ≤ data < 128 → normalmap !! Z.to_nat data = Some l → 97 ≤ l ≤ 122 →
  kbd_decode shift data = Some (letter shift l, shift).
Proof.
  intros Hs Hd Hl Hr. pose proof (all_below 128 _ data (all_below 64 _ shift letter_right_all Hs) Hd) as H2. unfold letter_right in H2.
  rewrite Hl in H2. rewrite (proj2 (Z.leb_le _ _)), (proj2 (Z.leb_le l 122)) in H2 by lia. cbn [andb] in H2.
  apply bool_decide_eq_true in H2. by rewrite !Z2Nat.id in H2 by lia.
Qed.
