(* ===== verification/Console.v ===== *)
(** * The console (console.c, uart.c)

    The screen, the line editor fed by the keyboard and serial interrupts, and the
    console's read and write functions.  [panicked] is 0: the kernel runs.  The serial
    port is there; what is sent to it is kept, latest first. *)
From S2P Require Import Prelude Mem KState Sched Bytes Bio Log Fs Pipe Kbd.

Definition BACKSPACE : Z := 0x100.
Definition INPUT_BUF : Z := 128.
Definition ctl (x : Z) : Z := x - 64.
Definition CONSOLE : Z := 1.

Definition getcons : K console := gets k_cons.
Definition modcons (f : console → console) : K unit := modify (λ s, s <| k_cons ::= f |>).

(** [crt[i] = v] *)
Definition set_crt (i v : Z) : K unit :=
  c <- getcons;
  if (0 <=? i) && (i <? Z.of_nat (length (cn_crt c)))
  then modcons (λ c, c <| cn_crt ::= <[Z.to_nat i := v]> |>) else undef "crt".

(** memmove and memset on the words of the screen. *)
Definition crt_scroll (pos : Z) (crt : list Z) : list Z :=
  let crt := take (23 * 80) (drop 80 crt) ++ drop (23 * 80) crt in
  take (Z.to_nat pos) crt ++ replicate (24 * 80 - Z.to_nat pos) 0 ++ drop (24 * 80) crt.

Definition cgaputc (c : Z) : K unit :=
  s <- getcons;
  let pos := cn_pos s in
  pos <- (if c =? 10 then ret (pos + (80 - pos `mod` 80))
          else if c =? BACKSPACE then ret (if 0 <? pos then pos - 1 else pos)
          else set_crt pos (Z.lor (Z.land c 255) 0x0700);; ret (pos + 1));
  if (pos <? 0) || (25 * 80 <? pos) then panic "pos under/overflow" else
  pos <- (if 24 <=? pos `div` 80 then
            modcons (λ s, s <| cn_crt ::= crt_scroll (pos - 80) |>);; ret (pos - 80)
          else ret pos);
  modcons (λ s, s <| cn_pos := pos |>);;
  set_crt pos (Z.lor 32 0x0700).

Definition uartputc (c : Z) : K unit := modcons (λ s, s <| cn_uart ::= cons (u8 c) |>).

Definition consputc (c : Z) : K unit :=
  (if c =? BACKSPACE then uartputc 8;; uartputc 32;; uartputc 8 else uartputc c);;
  cgaputc c.

(** [input.buf[i % INPUT_BUF]] *)
Definition in_char (s : console) (i : Z) : option Z := cn_buf s !! Z.to_nat (u32 i `mod` INPUT_BUF).

(** The loop of the kill character. *)
Fixpoint kill_line (n : nat) : K unit :=
  match n with
  | O => λ _, Fuel
  | S n =>
      s <- getcons;
      if cn_e s =? cn_w s then ret tt else
      c <- deref "input.buf" (in_char s (cn_e s - 1));
      if c =? 10 then ret tt else
      modcons (λ s, s <| cn_e := u32 (cn_e s - 1) |>);;
      consputc BACKSPACE;;
      kill_line n
  end.

(** One character of consoleintr. *)
Definition console_char (c : Z) : K unit :=
  if c =? ctl 80 then ret tt
  else if c =? ctl 85 then kill_line (S (Z.to_nat INPUT_BUF))
  else if (c =? ctl 72) || (c =? 0x7f) then
    s <- getcons;
    when (negb (cn_e s =? cn_w s))
      (modcons (λ s, s <| cn_e := u32 (cn_e s - 1) |>);; consputc BACKSPACE)
  else
    s <- getcons;
    when (negb (c =? 0) && (u32 (cn_e s - cn_r s) <? INPUT_BUF))
      (let c := if c =? 13 then 10 else c in
       modcons (λ s, s <| cn_buf ::= <[Z.to_nat (cn_e s `mod` INPUT_BUF) := u8 c]> |>
                       <| cn_e := u32 (cn_e s + 1) |>);;
       consputc c;;
       s <- getcons;
       when ((c =? 10) || (c =? ctl 68) || (cn_e s =? u32 (cn_r s + INPUT_BUF)))
         (modcons (λ s, s <| cn_w := cn_e s |>);; wakeup ChInput)).

(** consoleintr, given the calls of [getc] that return a character; procdump only prints. *)
Definition consoleintr (getc : list (K Z)) : K unit :=
  acquire Lcons;;
  forM getc (λ g, c <- g; console_char c);;
  release Lcons.

(** The handlers of the two devices, given the bytes these deliver. *)
Definition kbdintr (data : list Z) : K unit := consoleintr (kbdgetc <$> data).
Definition uartintr (data : list Z) : K unit := consoleintr (ret <$> data).

Section console.
  Context `{Bound}.

(** The inner loop of consoleread: [false] when the process has been killed. *)
Definition console_wait : K bool :=
  loop wakeups (λ _ : unit,
    s <- getcons;
    if negb (cn_r s =? cn_w s) then ret (inr true) else
    k <- my_killed;
    if k : bool then ret (inr false) else
    sleep ChInput Lcons;;
    ret (inl tt)) tt.

(** The loop of consoleread, [n] bytes to go and [acc] stored: [false] when killed, and
    the bytes stored. *)
Fixpoint consoleread_loop (n : nat) (acc : list Z) : K (bool * list Z) :=
  match n with
  | O => ret (true, acc)
  | S n =>
      ok <- console_wait;
      if negb ok then ret (false, acc) else
      s <- getcons;
      c <- deref "input.buf" (in_char s (cn_r s));
      modcons (λ s, s <| cn_r := u32 (cn_r s + 1) |>);;
      if c =? ctl 68 then
        when (negb (bool_decide (acc = []))) (modcons (λ s, s <| cn_r := u32 (cn_r s - 1) |>));;
        ret (true, acc)
      else if c =? 10 then ret (true, acc ++ [c])
      else consoleread_loop n (acc ++ [c])
  end.

(** consoleread: the count and the bytes stored at [dst]. *)
Definition consoleread (ip : nat) (n : Z) : K (Z * list Z) :=
  iunlock ip;;
  acquire Lcons;;
  r <- consoleread_loop (Z.to_nat n) [];
  release Lcons;;
  ilock ip;;
  let '(ok, cs) := r in
  ret (if ok : bool then Z.of_nat (length cs) else -1, cs).

Definition consolewrite (ip : nat) (buf : list Z) : K Z :=
  iunlock ip;;
  acquire Lcons;;
  forM buf (λ c, consputc (u8 c));;
  release Lcons;;
  ilock ip;;
  ret (Z.of_nat (length buf)).

(** consoleinit's part of devsw. *)
#[global] Instance console_devices : Devices := {
  dev_read major := if major =? CONSOLE then Some consoleread else None;
  dev_write major := if major =? CONSOLE then Some consolewrite else None;
}.
End console.
