(* ===== verification/ConsoleThm.v ===== *)
(** * The console: the screen stays in bounds, and the line editor is a line editor *)
From S2P Require Import Prelude Mem KState Sched Bytes Bio Log Fs FsThm Pipe Kbd Console.

Definition with_cons (cn : console) (s : kst) : kst := s <| k_cons := cn |>.

Lemma with_cons_id s : with_cons (k_cons s) s = s.
Proof. by destruct s. Qed.

Lemma modcons_run f cn s : modcons f (with_cons cn s) = Ok tt (with_cons (f cn) s).
Proof. done. Qed.
Lemma getcons_run cn s : getcons (with_cons cn s) = Ok cn (with_cons cn s).
Proof. done. Qed.

(** ** The screen *)

(** The cursor is in the first 24 of the 25 rows. *)
Definition screen_ok (cn : console) : Prop := length (cn_crt cn) = 2000%nat ∧ 0 ≤ cn_pos cn < 24 * 80.

(** The cells before the cursor. *)
Definition written (cn : console) : list Z := take (Z.to_nat (cn_pos cn)) (cn_crt cn).
Definition cell (c : Z) : Z := Z.lor (Z.land c 255) 0x0700.

(** What the screen shows: the cells of the first 24 rows, and the cursor.  A character
    is put at the cursor, which moves on, a newline moves it to the next row and a
    backspace one cell back; when it leaves the rows they move up by one.  The cell at the
    cursor is blank. *)
Definition screen_of (cn : console) : list Z * nat := (take (24 * 80) (cn_crt cn), Z.to_nat (cn_pos cn)).
Definition roll (x : list Z * nat) : list Z * nat :=
  if decide (x.2 = 24 * 80)%nat then (drop 80 x.1 ++ replicate 80 0, (23 * 80)%nat) else x.
Definition blank_cursor (x : list Z * nat) : list Z * nat := (<[x.2 := cell 32]> x.1, x.2).
Definition show (c : Z) (x : list Z * nat) : list Z * nat :=
  blank_cursor (roll (if c =? 10 then (x.1, 80 * (x.2 `div` 80 + 1))%nat
                      else if c =? BACKSPACE then (x.1, pred x.2)
                      else (<[x.2 := cell c]> x.1, S x.2))).
Definition shows (cs : list Z) (x : list Z * nat) : list Z * nat := foldl (λ x c, show c x) x cs.

Lemma set_crt_run i v cn s :
  0 ≤ i < Z.of_nat (length (cn_crt cn)) →
  set_crt i v (with_cons cn s) = Ok tt (with_cons (cn <| cn_crt ::= <[Z.to_nat i := v]> |>) s).
Proof.
  intros Hi. unfold set_crt. step. simpl. rewrite (proj2 (Z.leb_le _ _)), (proj2 (Z.ltb_lt _ _)) by lia. done.
Qed.

Lemma length_scroll pos crt :
  length crt = 2000%nat → 0 ≤ pos ≤ 24 * 80 → length (crt_scroll pos crt) = 2000%nat.
Proof.
  intros Hl Hp. unfold crt_scroll. rewrite !length_app, !length_take, length_replicate, !length_drop, !length_app, length_take, !length_drop.
  lia.
Qed.

Lemma take_scroll pos crt :
  length crt = 2000%nat → (pos ≤ 23 * 80)%nat → take pos (crt_scroll (Z.of_nat pos) crt) = drop 80 (take (pos + 80) crt).
Proof.
  intros Hl Hp. unfold crt_scroll. rewrite Nat2Z.id. rewrite take_app_le by (rewrite length_take, !length_app, length_take, !length_drop; lia).
  rewrite take_take, Nat.min_id. rewrite take_app_le by (rewrite length_take, length_drop; lia). rewrite take_take, Nat.min_l by lia.
  rewrite take_drop_commute. by rewrite (Nat.add_comm 80).
Qed.

Lemma rows_scroll crt :
  length crt = 2000%nat → take (24 * 80) (crt_scroll (24 * 80 - 80) crt) = drop 80 (take (24 * 80) crt) ++ replicate 80 0.
Proof.
  intros Hl. pose proof (take_scroll (23 * 80) crt Hl ltac:(lia)) as E. unfold crt_scroll in *.
  change (Z.to_nat (24 * 80 - 80)) with (23 * 80)%nat. change (Z.to_nat (Z.of_nat (23 * 80))) with (23 * 80)%nat in E.
  set (l := take (23 * 80) (drop 80 crt) ++ drop (23 * 80) crt) in *.
  assert (length l = 2000%nat) as Hll by (unfold l; rewrite length_app, length_take, !length_drop; lia).
  rewrite take_app_le in E by (rewrite length_take; lia). rewrite take_take, Nat.min_id in E. rewrite E.
  rewrite app_assoc, take_app_le by (rewrite length_app, length_drop, length_take, length_replicate; lia).
  apply take_ge. rewrite length_app, length_drop, length_take, length_replicate. lia.
Qed.

(** The end of cgaputc, with the new position. *)
Lemma cga_finish cn s pos :
  length (cn_crt cn) = 2000%nat → 0 ≤ pos ≤ 24 * 80 →
  ∃ crt pos', (if (pos <? 0) || (25 * 80 <? pos) then panic "pos under/overflow" else
     p <- (if 24 <=? pos `div` 80 then
            modcons (λ s, s <| cn_crt ::= crt_scroll (pos - 80) |>);; ret (pos - 80)
          else ret pos);
     modcons (λ s, s <| cn_pos := p |>);; set_crt p (Z.lor 32 0x0700)) (with_cons cn s) =
    Ok tt (with_cons (cn <| cn_crt := crt |> <| cn_pos := pos' |>) s) ∧
    length crt = 2000%nat ∧ 0 ≤ pos' < 24 * 80 ∧
    (pos < 24 * 80 ∧ pos' = pos ∧ take (Z.to_nat pos) crt = take (Z.to_nat pos) (cn_crt cn) ∨
     pos = 24 * 80 ∧ pos' = 23 * 80 ∧ take (Z.to_nat pos') crt = drop 80 (take (Z.to_nat pos) (cn_crt cn))) ∧
    (take (24 * 80) crt, Z.to_nat pos') = blank_cursor (roll (take (24 * 80) (cn_crt cn), Z.to_nat pos)).
Proof.
  intros Hl Hp. rewrite (proj2 (Z.ltb_ge pos 0)), (proj2 (Z.ltb_ge _ pos)) by lia. cbn [orb].
  destruct (Z.leb_spec 24 (pos `div` 80)) as [Hs|Hs].
  - assert (pos = 24 * 80) as ->.
    { pose proof (Z.mul_div_le pos 80). lia. }
    set (cn1 := cn <| cn_crt ::= crt_scroll (24 * 80 - 80) |>).
    rewrite (bind_ok _ _ _ (24 * 80 - 80) (with_cons cn1 s)) by done. rewrite (bind_ok _ _ _ tt (with_cons (cn1 <| cn_pos := 24 * 80 - 80 |>) s)) by done.
    assert (length (crt_scroll (24 * 80 - 80) (cn_crt cn)) = 2000%nat) as Hl' by (apply length_scroll; lia).
    rewrite set_crt_run by (simpl; rewrite Hl'; lia).
    exists (<[Z.to_nat (24 * 80 - 80) := Z.lor 32 0x0700]> (crt_scroll (24 * 80 - 80) (cn_crt cn))), (24 * 80 - 80).
    split; [done|]. split_and!; [by rewrite length_insert|lia|lia| |].
    + right. split_and!; [done|done|]. rewrite take_insert_ge by lia. by apply (take_scroll 1840).
    + unfold roll, blank_cursor. cbn [fst snd]. rewrite decide_True by lia. cbn [fst snd]. rewrite take_insert_lt by lia. by rewrite rows_scroll.
  - assert (pos < 24 * 80) by (pose proof (Z.div_le_lower_bound pos 80 24); lia).
    rewrite (bind_ok _ _ _ pos (with_cons cn s)) by done. rewrite (bind_ok _ _ _ tt (with_cons (cn <| cn_pos := pos |>) s)) by done.
    rewrite set_crt_run by (simpl; rewrite Hl; lia).
    exists (<[Z.to_nat pos := Z.lor 32 0x0700]> (cn_crt cn)), pos. split; [done|].
    split_and!; [by rewrite length_insert|lia|lia| |].
    + left. split_and!; [done|done|]. by rewrite take_insert_ge by lia.
    + unfold roll, blank_cursor. cbn [fst snd]. rewrite decide_False by lia. cbn [fst snd]. by rewrite take_insert_lt by lia.
Qed.

(** What a character does to the screen. *)
Definition typed (c : Z) (cn cn' : console) : Prop :=
  if c =? 10 then cn_pos cn' `mod` 80 = 0 ∧ cn_pos cn ≤ cn_pos cn' + 80
  else if c =? BACKSPACE then cn_pos cn' = Z.max 0 (cn_pos cn - 1)
  else let cells := written cn ++ [cell c] in
       written cn' = if bool_decide (length cells = 24 * 80)%nat then drop 80 cells else cells.

Lemma cgaputc_run c cn s :
  screen_ok cn → ∃ crt pos, let cn' := cn <| cn_crt := crt |> <| cn_pos := pos |> in
    cgaputc c (with_cons cn s) = Ok tt (with_cons cn' s) ∧ screen_ok cn' ∧ typed c cn cn' ∧ screen_of cn' = show c (screen_of cn).
Proof.
  intros [Hl Hp]. unfold cgaputc. rewrite (bind_ok _ _ _ _ _ (getcons_run cn s)). cbv zeta. unfold typed, show.
  destruct (Z.eqb_spec c 10) as [_|_]; [|destruct (Z.eqb_spec c BACKSPACE) as [_|_]].
  - rewrite (bind_ok _ _ _ (cn_pos cn + (80 - cn_pos cn `mod` 80)) (with_cons cn s)) by done.
    pose proof (Z.mod_pos_bound (cn_pos cn) 80 ltac:(lia)) as Hm. pose proof (Z.div_mod (cn_pos cn) 80 ltac:(lia)) as Hd.
    set (q := cn_pos cn `div` 80) in *. replace (cn_pos cn + (80 - cn_pos cn `mod` 80)) with ((q + 1) * 80) by lia.
    destruct (cga_finish cn s ((q + 1) * 80) Hl) as (crt & pos & Hr & Hl' & Hp' & Hcase & Hsc); [lia|].
    exists crt, pos. split; [exact Hr|]. split; [by split|]. split.
    + simpl. destruct Hcase as [(_ & -> & _)|(E & -> & _)]; [rewrite Z.mod_mul by lia; lia|split; [done|lia]].
    + etrans; [exact Hsc|]. unfold screen_of. cbn [fst snd]. do 3 f_equal. unfold q.
      rewrite Z2Nat.inj_mul, Z2Nat.inj_add, Z2Nat.inj_div by lia. change (Z.to_nat 80) with 80%nat. change (Z.to_nat 1) with 1%nat.
      apply Nat.mul_comm.
  - rewrite (bind_ok _ _ _ (if 0 <? cn_pos cn then cn_pos cn - 1 else cn_pos cn) (with_cons cn s)) by done.
    assert ((if 0 <? cn_pos cn then cn_pos cn - 1 else cn_pos cn) = Z.max 0 (cn_pos cn - 1)) as -> by (destruct (Z.ltb_spec 0 (cn_pos cn)); lia).
    destruct (cga_finish cn s (Z.max 0 (cn_pos cn - 1)) Hl) as (crt & pos & Hr & Hl' & Hp' & Hcase & Hsc); [lia|].
    exists crt, pos. split; [exact Hr|]. split; [by split|]. split; [simpl; lia|].
    etrans; [exact Hsc|]. unfold screen_of. cbn [fst snd]. do 3 f_equal. lia.
  - set (cn1 := cn <| cn_crt ::= <[Z.to_nat (cn_pos cn) := cell c]> |>).
    rewrite (bind_ok _ _ _ (cn_pos cn + 1) (with_cons cn1 s)).
    2: { rewrite (bind_ok _ _ _ tt (with_cons cn1 s)); [done|]. apply set_crt_run. rewrite Hl. lia. }
    assert (length (cn_crt cn1) = 2000%nat) as Hl1 by (unfold cn1; simpl; by rewrite length_insert).
    assert (take (Z.to_nat (cn_pos cn + 1)) (cn_crt cn1) = written cn ++ [cell c]) as Ht.
    { replace (Z.to_nat (cn_pos cn + 1)) with (S (Z.to_nat (cn_pos cn))) by lia.
      rewrite (take_S_r _ _ (cell c)); [|apply list_lookup_insert_eq; lia]. unfold cn1. simpl. by rewrite take_insert_ge. }
    assert (length (written cn ++ [cell c]) = Z.to_nat (cn_pos cn + 1)) as Hlen.
    { rewrite <-Ht, length_take, Hl1. lia. }
    destruct (cga_finish cn1 s (cn_pos cn + 1) Hl1) as (crt & pos & Hr & Hl' & Hp' & Hcase & Hsc); [lia|].
    exists crt, pos. split; [exact Hr|]. split; [by split|]. split.
    + unfold written at 1. simpl. destruct Hcase as [(Hlt & -> & E)|(E1 & -> & E)];
        [rewrite bool_decide_false by lia|rewrite bool_decide_true by lia]; by rewrite E, Ht.
    + etrans; [exact Hsc|]. unfold screen_of, cn1. cbn [fst snd]. do 3 f_equal; [|lia].
      simpl cn_crt. by rewrite take_insert_lt by lia.
Qed.

(** No character moves the cursor out of the first 24 rows or makes cgaputc panic or
    write outside the screen.  An ordinary character is appended to the cells before the
    cursor, which lose their first row when 24 rows are full; a newline moves the cursor
    to the start of a row, a backspace one cell back. *)
Theorem cgaputc_screen c s :
  screen_ok (k_cons s) → ∃ s', cgaputc c s = Ok tt s' ∧ screen_ok (k_cons s') ∧ typed c (k_cons s) (k_cons s').
Proof.
  intros Hs. destruct (cgaputc_run c (k_cons s) s Hs) as (crt & pos & Hr & Hok & Ht & _).
  rewrite with_cons_id in Hr. eexists. split; [exact Hr|]. done.
Qed.

(** The fields of the line editor. *)
Definition same_input (cn cn' : console) : Prop :=
  cn_buf cn' = cn_buf cn ∧ cn_r cn' = cn_r cn ∧ cn_w cn' = cn_w cn ∧ cn_e cn' = cn_e cn ∧ cn_shift cn' = cn_shift cn.

Lemma consputc_run c cn s :
  screen_ok cn → ∃ cn', consputc c (with_cons cn s) = Ok tt (with_cons cn' s) ∧ screen_ok cn' ∧ same_input cn cn'.
Proof.
  intros Hs. unfold consputc.
  assert (∃ u, (if c =? BACKSPACE then uartputc 8;; uartputc 32;; uartputc 8 else uartputc c) (with_cons cn s) =
    Ok tt (with_cons (cn <| cn_uart := u |>) s)) as [u Hu] by (destruct (c =? BACKSPACE); by eexists).
  rewrite (bind_ok _ _ _ _ _ Hu). set (cn1 := cn <| cn_uart := u |>).
  destruct (cgaputc_run c cn1 s) as (crt & pos & Hr & Hok & _); [done|].
  eexists. split; [exact Hr|]. split; [done|]. by split_and!.
Qed.

(** ** The line editor

    The buffer holds the characters that can be read, [a], and the line being edited,
    [e].  The indices count modulo 2^32. *)

Definition slot (r : Z) (k : nat) : nat := Z.to_nat ((r + Z.of_nat k) `mod` 128).

Record line_pre (cn : console) (a e : list Z) : Prop := {
  lo_buf : length (cn_buf cn) = 128%nat;
  lo_r : 0 ≤ cn_r cn < 2 ^ 32;
  lo_w : cn_w cn = u32 (cn_r cn + Z.of_nat (length a));
  lo_e : cn_e cn = u32 (cn_r cn + Z.of_nat (length (a ++ e)));
  lo_cap : (length (a ++ e) ≤ 128)%nat;
  lo_at : ∀ k c, (a ++ e) !! k = Some c → cn_buf cn !! slot (cn_r cn) k = Some c }.

(** The line being edited has no newline or end-of-file character, and a full buffer can
    be read. *)
Definition line_ok (cn : console) (a e : list Z) : Prop :=
  line_pre cn a e ∧ Forall (λ c, c ≠ 10 ∧ c ≠ ctl 68) e ∧ (length (a ++ e) = 128%nat → e = []).

Lemma u32_mod128 z : u32 z `mod` 128 = z `mod` 128.
Proof. apply u32_mod; [by exists (2 ^ 25)|lia]. Qed.

Lemma u32_plus_inj x j k : 0 ≤ j < 2 ^ 31 → 0 ≤ k < 2 ^ 31 → u32 (x + j) = u32 (x + k) → j = k.
Proof.
  unfold u32. intros Hj Hk E. assert ((j - k) `mod` 2 ^ 32 = 0) as Hz.
  { replace (j - k) with ((x + j) - (x + k)) by lia. rewrite Zminus_mod, E, Z.sub_diag. done. }
  apply Z.mod_divide in Hz as [q Hq]; [|done]. lia.
Qed.

Lemma u32_diff r n : 0 ≤ n < 2 ^ 32 → u32 (u32 (r + n) - r) = n.
Proof.
  intros Hn. unfold Z.sub. rewrite u32_plus. replace (r + n + - r) with n by lia. by apply u32_small.
Qed.

Lemma slot_inj r j k : (j < 128)%nat → (k < 128)%nat → slot r j = slot r k → j = k.
Proof.
  unfold slot. intros Hj Hk E. pose proof (Z.mod_pos_bound (r + Z.of_nat j) 128). pose proof (Z.mod_pos_bound (r + Z.of_nat k) 128).
  apply Z2Nat.inj in E; [|lia..]. assert ((Z.of_nat j - Z.of_nat k) `mod` 128 = 0) as Hz.
  { replace (Z.of_nat j - Z.of_nat k) with ((r + Z.of_nat j) - (r + Z.of_nat k)) by lia. rewrite Zminus_mod, E, Z.sub_diag. done. }
  apply Z.mod_divide in Hz as [q Hq]; [|done]. lia.
Qed.

Lemma slot_lt r k : (slot r k < 128)%nat.
Proof. unfold slot. pose proof (Z.mod_pos_bound (r + Z.of_nat k) 128). lia. Qed.

Lemma slot_S r k : slot (u32 (r + 1)) k = slot r (S k).
Proof.
  unfold slot. f_equal. rewrite <-u32_mod128, u32_plus, u32_mod128. f_equal. lia.
Qed.

Lemma input_empty cn a e : line_pre cn a e → (cn_e cn =? cn_w cn) = bool_decide (e = []).
Proof.
  intros [_ _ Hw He Hcap _]. rewrite Hw, He, length_app. rewrite length_app in Hcap. destruct e as [|c e].
  - simpl. rewrite Nat.add_0_r, Z.eqb_refl. done.
  - rewrite bool_decide_false by done. apply Z.eqb_neq. intros E%u32_plus_inj; simpl in *; lia.
Qed.

Lemma input_unread cn a e : line_pre cn a e → (cn_r cn =? cn_w cn) = bool_decide (a = []).
Proof.
  intros [_ Hr Hw He Hcap _]. rewrite Hw. rewrite length_app in Hcap. destruct a as [|c a].
  - simpl. rewrite Z.add_0_r, u32_small by lia. by rewrite Z.eqb_refl.
  - rewrite bool_decide_false by done. apply Z.eqb_neq. intros E. rewrite <-(u32_small (cn_r cn)) in E at 1 by lia.
    rewrite <-(Z.add_0_r (cn_r cn)) in E at 1. apply u32_plus_inj in E; simpl in *; lia.
Qed.

Lemma input_used cn a e : line_pre cn a e → u32 (cn_e cn - cn_r cn) = Z.of_nat (length (a ++ e)).
Proof. intros [_ Hr Hw He Hcap _]. rewrite He. apply u32_diff. lia. Qed.

Lemma input_full cn a e : line_pre cn a e → (cn_e cn =? u32 (cn_r cn + INPUT_BUF)) = bool_decide (length (a ++ e) = 128%nat).
Proof.
  intros [_ Hr Hw He Hcap _]. rewrite He. unfold INPUT_BUF. case_bool_decide as E.
  - apply Z.eqb_eq. by rewrite E.
  - apply Z.eqb_neq. intros E'%u32_plus_inj; lia.
Qed.

(** The last character of the line being edited. *)
Lemma input_last cn a e c : line_pre cn a (e ++ [c]) → in_char cn (cn_e cn - 1) = Some c.
Proof.
  intros [_ Hr Hw He Hcap Hat]. unfold in_char, INPUT_BUF. rewrite He, u32_mod128. unfold Z.sub. rewrite <-u32_mod128, u32_plus, u32_mod128.
  rewrite app_assoc, length_app. simpl. specialize (Hat (length (a ++ e)) c). unfold slot in Hat.
  replace (cn_r cn + Z.of_nat (length (a ++ e) + 1) + - (1)) with (cn_r cn + Z.of_nat (length (a ++ e))) by lia.
  apply Hat. rewrite app_assoc. by apply list_lookup_middle.
Qed.

Lemma input_erase cn a e c :
  line_pre cn a (e ++ [c]) → line_pre (cn <| cn_e := u32 (cn_e cn - 1) |>) a e.
Proof.
  intros [Hb Hr Hw He Hcap Hat]. rewrite app_assoc, length_app in He, Hcap. simpl in He, Hcap. split; simpl; [done..| |lia|].
  - rewrite He. unfold Z.sub. rewrite u32_plus. f_equal. lia.
  - intros k d Hd. apply Hat. rewrite app_assoc. by apply lookup_app_l_Some.
Qed.

Lemma input_put cn a e c :
  line_pre cn a e → (length (a ++ e) < 128)%nat →
  line_pre (cn <| cn_buf ::= <[Z.to_nat (cn_e cn `mod` INPUT_BUF) := c]> |> <| cn_e := u32 (cn_e cn + 1) |>) a (e ++ [c]).
Proof.
  intros [Hb Hr Hw He Hcap Hat] Hlt. assert (Z.to_nat (cn_e cn `mod` INPUT_BUF) = slot (cn_r cn) (length (a ++ e))) as Es.
  { unfold slot, INPUT_BUF. by rewrite He, u32_mod128. }
  rewrite Es. split; simpl; rewrite ?app_assoc; [by rewrite length_insert|done|done| |rewrite length_app; simpl; lia|].
  - rewrite He, u32_plus, (length_app (a ++ e)). simpl. f_equal. lia.
  - intros k d Hd. pose proof (slot_lt (cn_r cn) (length (a ++ e))). apply lookup_app_Some in Hd as [Hd|[Hk Hd]].
    + pose proof (lookup_lt_Some _ _ _ Hd). rewrite list_lookup_insert_ne; [by apply Hat|].
      intros E%slot_inj; lia.
    + apply list_lookup_singleton_Some in Hd as [Hk' <-]. replace k with (length (a ++ e)) by lia.
      apply list_lookup_insert_eq. lia.
Qed.

Lemma input_commit cn a e : line_pre cn a e → line_ok (cn <| cn_w := cn_e cn |>) (a ++ e) [].
Proof.
  intros [Hb Hr Hw He Hcap Hat]. split; [|split; [by apply Forall_nil_2|done]].
  split; simpl; rewrite ?app_nil_r; done.
Qed.

(** Reading the first character. *)
Lemma input_first cn c a e : line_pre cn (c :: a) e → in_char cn (cn_r cn) = Some c.
Proof.
  intros [Hb Hr Hw He Hcap Hat]. unfold in_char, INPUT_BUF. rewrite u32_mod128. specialize (Hat O c eq_refl). unfold slot in Hat.
  by rewrite Z.add_0_r in Hat.
Qed.

Lemma input_take cn c a e :
  line_ok cn (c :: a) e → line_ok (cn <| cn_r := u32 (cn_r cn + 1) |>) a e.
Proof.
  intros [[Hb Hr Hw He Hcap Hat] [Hed Hfull]]. simpl in *. split; [|split; [done|intros E; lia]].
  split; simpl; [done|apply Z.mod_pos_bound; lia| | |lia|].
  - rewrite Hw, u32_plus. f_equal. lia.
  - rewrite He, u32_plus. f_equal. lia.
  - intros k d Hd. rewrite slot_S. by apply Hat.
Qed.

(** What a character typed does to the characters that can be read and the line being
    edited, and whether readers are woken. *)
Definition edit_char (c : Z) (l : list Z * list Z) : list Z * list Z * bool :=
  let '(a, e) := l in
  if c =? ctl 80 then (a, e, false)
  else if c =? ctl 85 then (a, [], false)
  else if (c =? ctl 72) || (c =? 0x7f) then (a, removelast e, false)
  else if (c =? 0) || bool_decide (length (a ++ e) = 128%nat) then (a, e, false)
  else
    let c := if c =? 13 then 10 else c in
    if (c =? 10) || (c =? ctl 68) || bool_decide (length (a ++ e ++ [c]) = 128%nat)
    then (a ++ e ++ [c], [], true) else (a, e ++ [c], false).

Definition rouse (w : bool) (s : kst) : kst := if w then woken ChInput s else s.

Lemma line_pre_same cn cn' a e : same_input cn cn' → line_pre cn a e → line_pre cn' a e.
Proof.
  intros (E1 & E2 & E3 & E4 & _) [Hb Hr Hw He Hcap Hat]. split; rewrite ?E1, ?E2, ?E3, ?E4; done.
Qed.

Lemma same_shift cn cn' : same_input cn cn' → cn_shift cn' = cn_shift cn.
Proof. by intros (_ & _ & _ & _ & E). Qed.

(** Erasing one character. *)
Lemma erase_run cn a e c s :
  line_pre cn a (e ++ [c]) → screen_ok cn →
  ∃ cn', (modcons (λ s, s <| cn_e := u32 (cn_e s - 1) |>);; consputc BACKSPACE) (with_cons cn s) = Ok tt (with_cons cn' s) ∧
    line_pre cn' a e ∧ screen_ok cn' ∧ cn_shift cn' = cn_shift cn.
Proof.
  intros Hl Hs. rewrite (bind_ok _ _ _ _ _ (modcons_run _ _ _)). apply input_erase in Hl. set (cn1 := cn <| cn_e := _ |>) in *.
  destruct (consputc_run BACKSPACE cn1 s) as (cn' & Hr & Hs' & Hsame); [done|].
  exists cn'. split_and!; [done|by eapply line_pre_same|done|by rewrite (same_shift _ _ Hsame)].
Qed.

Lemma kill_line_run n cn a e s :
  line_pre cn a e → Forall (λ c, c ≠ 10 ∧ c ≠ ctl 68) e → screen_ok cn → (length e < n)%nat →
  ∃ cn', kill_line n (with_cons cn s) = Ok tt (with_cons cn' s) ∧ line_pre cn' a [] ∧ screen_ok cn' ∧ cn_shift cn' = cn_shift cn.
Proof.
  revert n cn. induction e as [|c e IH] using rev_ind; intros [|n] cn Hl Hed Hs Hn; try lia; cbn [kill_line].
  - rewrite (bind_ok _ _ _ _ _ (getcons_run _ _)). rewrite (input_empty _ _ _ Hl), bool_decide_true by done. by exists cn.
  - rewrite (bind_ok _ _ _ _ _ (getcons_run _ _)). rewrite (input_empty _ _ _ Hl), bool_decide_false by (by destruct e).
    rewrite (input_last _ _ _ _ Hl). step. apply Forall_app in Hed as [Hed [[Hc _] _]%list.Forall_cons].
    rewrite (proj2 (Z.eqb_neq c 10)) by done. destruct (erase_run cn a e c s Hl Hs) as (cn1 & Hr & Hl1 & Hs1 & Hsh1).
    rewrite length_app in Hn. simpl in Hn. destruct (IH n cn1 Hl1 Hed Hs1) as (cn' & Hr' & Hl' & Hs' & Hsh'); [lia|].
    exists cn'. split_and!; [|done|done|congruence]. rewrite <-Hr'.
    apply (bind_assoc _ _ (λ _, kill_line n) _ tt _ Hr).
Qed.

(** One character refines [edit_char]. *)
Definition char_done (s : kst) (cn : console) (r : outcome kst unit) (l : list Z * list Z * bool) : Prop :=
  ∃ cn', r = Ok tt (rouse l.2 (with_cons cn' s)) ∧ line_ok cn' l.1.1 l.1.2 ∧ screen_ok cn' ∧ cn_shift cn' = cn_shift cn.

Lemma char_backspace cn a e s :
  line_ok cn a e → screen_ok cn →
  char_done s cn ((s <- getcons;
    when (negb (cn_e s =? cn_w s))
      (modcons (λ s, s <| cn_e := u32 (cn_e s - 1) |>);; consputc BACKSPACE)) (with_cons cn s)) (a, removelast e, false).
Proof.
  intros (Hl & Hed & Hfull) Hs. rewrite (bind_ok _ _ _ _ _ (getcons_run _ _)), (input_empty _ _ _ Hl).
  destruct e as [|c e _] using rev_ind; [exists cn; done|].
  rewrite bool_decide_false by (by destruct e). destruct (erase_run cn a e c s Hl Hs) as (cn1 & Hr & Hl1 & Hs1 & Hsh1).
  exists cn1. simpl. rewrite removelast_last. split_and!; [by rewrite <-Hr|split_and!|done|done]; [done|by apply Forall_app in Hed as [? _]|].
  intros E. destruct Hl as [_ _ _ _ Hcap _]. rewrite app_assoc, length_app in Hcap. simpl in Hcap. lia.
Qed.

Lemma char_stored c cn a e s :
  line_ok cn a e → screen_ok cn → Lptable ∉ k_held s → 0 ≤ c < 256 → (length (a ++ e) < 128)%nat →
  char_done s cn
    ((modcons (λ s, s <| cn_buf ::= <[Z.to_nat (cn_e s `mod` INPUT_BUF) := u8 c]> |> <| cn_e := u32 (cn_e s + 1) |>);;
      consputc c;;
      s <- getcons;
      when ((c =? 10) || (c =? ctl 68) || (cn_e s =? u32 (cn_r s + INPUT_BUF)))
        (modcons (λ s, s <| cn_w := cn_e s |>);; wakeup ChInput)) (with_cons cn s))
    (if (c =? 10) || (c =? ctl 68) || bool_decide (length (a ++ e ++ [c]) = 128%nat)
     then (a ++ e ++ [c], [], true) else (a, e ++ [c], false)).
Proof.
  intros (Hl & Hed & Hfull) Hs Hpt Hc Hlt. rewrite (bind_ok _ _ _ _ _ (modcons_run _ _ _)).
  assert (u8 c = c) as -> by (apply Z.mod_small; lia). apply (input_put _ _ _ c) in Hl; [|done].
  match goal with |- context [with_cons ?x s] => set (cn1 := x) in * end.
  destruct (consputc_run c cn1 s) as (cn2 & Hr & Hs2 & Hsame); [done|]. rewrite (bind_ok _ _ _ _ _ Hr).
  rewrite (bind_ok _ _ _ _ _ (getcons_run _ _)). assert (cn_shift cn2 = cn_shift cn) as Hsh by (by rewrite (same_shift _ _ Hsame)).
  apply (line_pre_same _ _ _ _ Hsame) in Hl. rewrite (input_full _ _ _ Hl).
  destruct ((c =? 10) || (c =? ctl 68) || _) eqn:Hend; simpl.
  - exists (cn2 <| cn_w := cn_e cn2 |>). split_and!; [|by apply input_commit|done|done].
    rewrite (bind_ok _ _ _ _ _ (modcons_run _ _ _)). by rewrite wakeup_run.
  - exists cn2. apply orb_false_iff in Hend as [[E1%Z.eqb_neq E2%Z.eqb_neq]%orb_false_iff E3%bool_decide_eq_false].
    split_and!; [done|split_and!|done|done]; [done| |done]. apply Forall_app_2; [done|]. by apply list.Forall_singleton.
Qed.

Lemma console_char_run c cn a e s :
  line_ok cn a e → screen_ok cn → Lptable ∉ k_held s → 0 ≤ c < 256 →
  char_done s cn (console_char c (with_cons cn s)) (edit_char c (a, e)).
Proof.
  intros Hl Hs Hpt Hc. unfold console_char, edit_char. destruct (c =? ctl 80); [by exists cn|].
  destruct (c =? ctl 85).
  { destruct Hl as (Hl & Hed & Hfull). destruct (kill_line_run (S (Z.to_nat INPUT_BUF)) cn a e s Hl Hed Hs) as (cn' & Hr & Hl' & Hs' & Hsh).
    - destruct Hl as [_ _ _ _ Hcap _]. rewrite length_app in Hcap. unfold INPUT_BUF. lia.
    - exists cn'. split_and!; [done|split_and!|done|done]; [done|by apply Forall_nil_2|done]. }
  destruct ((c =? ctl 72) || (c =? 0x7f)); [by apply char_backspace|].
  rewrite (bind_ok _ _ _ _ _ (getcons_run _ _)), (input_used _ _ _ (proj1 Hl)).
  pose proof (lo_cap _ _ _ (proj1 Hl)) as Hcap. destruct (c =? 0); [by exists cn|]. simpl. case_bool_decide as Efull.
  - replace (Z.of_nat (length (a ++ e)) <? INPUT_BUF) with false by (symmetry; apply Z.ltb_ge; unfold INPUT_BUF; lia). by exists cn.
  - replace (Z.of_nat (length (a ++ e)) <? INPUT_BUF) with true by (symmetry; apply Z.ltb_lt; unfold INPUT_BUF; lia). simpl.
    apply char_stored; [done..| |lia]. destruct (c =? 13); lia.
Qed.

(** ** The interrupt handler *)

(** A whole burst of characters. *)
Fixpoint edit_chars (cs : list Z) (l : list Z * list Z) : list Z * list Z * bool :=
  match cs with
  | [] => (l, false)
  | c :: cs => let '(l, w) := edit_char c l in let '(l', w') := edit_chars cs l in (l', w || w')
  end.

(** The calls of [getc] return [cs] and take the modifiers of the keyboard from [sh] to
    [sh']. *)
Inductive gives : Z → list (K Z) → list Z → Z → Prop :=
  | gives_nil sh : gives sh [] [] sh
  | gives_cons sh g c sh1 gs cs sh2 :
      (∀ cn s, cn_shift cn = sh → g (with_cons cn s) = Ok c (with_cons (cn <| cn_shift := sh1 |>) s)) →
      0 ≤ c < 256 → gives sh1 gs cs sh2 → gives sh (g :: gs) (c :: cs) sh2.

Lemma gives_uart sh data : Forall (λ c, 0 ≤ c < 256) data → gives sh (ret <$> data) data sh.
Proof.
  induction 1 as [|c data Hc _ IH]; simpl; [constructor|]. econstructor; [|done|done].
  intros cn s <-. unfold ret. f_equal. by destruct cn.
Qed.

(** The characters of the scan codes [data] and the state of the modifiers they leave. *)
Fixpoint kbd_chars (sh : Z) (data : list Z) : list Z * Z :=
  match data with
  | [] => ([], sh)
  | d :: data =>
      match kbd_decode sh d with
      | Some (c, sh) => let '(cs, sh) := kbd_chars sh data in (c :: cs, sh)
      | None => ([], sh)
      end
  end.

Lemma gives_kbd sh data :
  0 ≤ sh < 128 → Forall (λ d, 0 ≤ d < 256) data →
  gives sh (kbdgetc <$> data) (kbd_chars sh data).1 (kbd_chars sh data).2.
Proof.
  intros Hsh Hd. revert sh Hsh. induction Hd as [|d data Hd _ IH]; intros sh Hsh; simpl; [constructor|].
  destruct (decode_bounds sh d) as (c & sh1 & E & Hc & Hsh1); [done..|]. rewrite E. specialize (IH sh1 Hsh1).
  destruct (kbd_chars sh1 data) as [cs sh2]. econstructor; [|done|done]. intros cn s Esh. unfold kbdgetc. step. cbn [k_cons with_cons].
  unfold with_cons at 1. simpl. rewrite Esh, E. done.
Qed.

Lemma rouse_cons w cn cn' s : with_cons cn' (rouse w (with_cons cn s)) = rouse w (with_cons cn' s).
Proof. by destruct w. Qed.

Lemma rouse_rouse w w' s : rouse w' (rouse w s) = rouse (w || w') s.
Proof.
  destruct w, w'; try done. unfold rouse, woken. simpl. apply kst_ext; simpl; try done. rewrite <-list_fmap_compose. apply list_fmap_ext.
  intros _ p _. simpl. unfold wake_proc. destruct (decide (p_state p = SLEEPING ∧ p_chan p = Some ChInput)); simpl; [done|].
  by rewrite decide_False.
Qed.

Lemma held_rouse w cn s : k_held (rouse w (with_cons cn s)) = k_held s.
Proof. by destruct w. Qed.

Lemma intr_loop gs sh cs sh' cn a e s :
  gives sh gs cs sh' → cn_shift cn = sh → line_ok cn a e → screen_ok cn → Lptable ∉ k_held s →
  ∃ cn', forM gs (λ g, c <- g; console_char c) (with_cons cn s) = Ok tt (rouse (edit_chars cs (a, e)).2 (with_cons cn' s)) ∧
    line_ok cn' (edit_chars cs (a, e)).1.1 (edit_chars cs (a, e)).1.2 ∧ screen_ok cn' ∧ cn_shift cn' = sh'.
Proof.
  intros Hg. revert cn a e s. induction Hg as [sh|sh g c sh1 gs cs sh2 Hg Hc _ IH]; intros cn a e s Hsh Hl Hs Hpt; [by exists cn|].
  cbn [forM edit_chars]. set (cn1 := cn <| cn_shift := sh1 |>). assert (line_ok cn1 a e) as Hl1.
  { destruct Hl as ([? ? ? ? ? ?] & ? & ?). by split_and!. }
  destruct (console_char_run c cn1 a e s Hl1 Hs Hpt Hc) as (cn2 & Hr & Hl2 & Hs2 & Hsh2).
  destruct (edit_char c (a, e)) as [[a2 e2] w]. simpl in Hl2, Hr.
  destruct (IH cn2 a2 e2 (rouse w (with_cons cn2 s)) Hsh2 Hl2 Hs2) as (cn3 & Hr3 & Hl3 & Hs3 & Hsh3); [by rewrite held_rouse|].
  destruct (edit_chars cs (a2, e2)) as [[a3 e3] w3] eqn:E3. simpl in *. exists cn3. split_and!; [|done..].
  rewrite (bind_ok _ _ _ tt (rouse w (with_cons cn2 s))) by (rewrite (bind_ok _ _ _ _ _ (Hg _ _ Hsh)); exact Hr).
  rewrite rouse_cons in Hr3. rewrite Hr3, rouse_cons. by rewrite rouse_rouse.
Qed.

Lemma intr_run gs sh cs sh' cn a e s :
  gives sh gs cs sh' → cn_shift cn = sh → line_ok cn a e → screen_ok cn → Lptable ∉ k_held s → Lcons ∉ k_held s →
  ∃ cn', consoleintr gs (with_cons cn s) = Ok tt (rouse (edit_chars cs (a, e)).2 (with_cons cn' s)) ∧
    line_ok cn' (edit_chars cs (a, e)).1.1 (edit_chars cs (a, e)).1.2 ∧ screen_ok cn' ∧ cn_shift cn' = sh'.
Proof.
  intros Hg Hsh Hl Hs Hpt Hlk. set (s1 := s <| k_held ::= cons Lcons |>).
  destruct (intr_loop gs sh cs sh' cn a e s1 Hg Hsh Hl Hs) as (cn' & Hr & Hres); [simpl; set_solver|].
  exists cn'. split; [|done]. unfold consoleintr. run acquire_run; [|done]. at_state (with_cons cn s1).
  rewrite (bind_ok _ _ _ _ _ Hr). destruct (edit_chars cs (a, e)) as [l w]. cbn [snd].
  replace (rouse w (with_cons cn' s1)) with (rouse w (with_cons cn' s) <| k_held ::= cons Lcons |>) by (by destruct w).
  apply release_top. by rewrite held_rouse.
Qed.

(** C15: a keyboard interrupt runs the line editor on the characters of the scan codes the
    controller delivers, and a serial interrupt on the bytes received: the characters go
    to the line being edited, the erase and kill characters act on that line only, a
    newline, an end-of-file character or a full buffer hands the line over to readers and
    wakes them, and no index leaves the buffer or the screen. *)
Theorem console_edits data cn a e s :
  Forall (λ d, 0 ≤ d < 256) data → 0 ≤ cn_shift cn < 128 → line_ok cn a e → screen_ok cn →
  Lptable ∉ k_held s → Lcons ∉ k_held s →
  (let '(cs, sh) := kbd_chars (cn_shift cn) data in
   let '(a', e', wake) := edit_chars cs (a, e) in
   ∃ cn', kbdintr data (with_cons cn s) = Ok tt (rouse wake (with_cons cn' s)) ∧
     line_ok cn' a' e' ∧ screen_ok cn' ∧ cn_shift cn' = sh) ∧
  (let '(a', e', wake) := edit_chars data (a, e) in
   ∃ cn', uartintr data (with_cons cn s) = Ok tt (rouse wake (with_cons cn' s)) ∧
     line_ok cn' a' e' ∧ screen_ok cn' ∧ cn_shift cn' = cn_shift cn).
Proof.
  intros Hd Hsh Hl Hs Hpt Hlk. split.
  - pose proof (gives_kbd (cn_shift cn) data Hsh Hd) as Hg. destruct (kbd_chars (cn_shift cn) data) as [cs sh].
    destruct (intr_run _ _ _ _ cn a e s Hg eq_refl Hl Hs Hpt Hlk) as (cn' & H). simpl in H.
    destruct (edit_chars cs (a, e)) as [[a' e'] w]. by exists cn'.
  - destruct (intr_run _ _ _ _ cn a e s (gives_uart (cn_shift cn) data Hd) eq_refl Hl Hs Hpt Hlk) as (cn' & H).
    destruct (edit_chars data (a, e)) as [[a' e'] w]. by exists cn'.
Qed.

(** ** Reading *)

(** The bytes a read of [n] gives when [a] can be read, and what is left: up to a newline,
    or to an end-of-file character, which is left unless it comes first.  [None] when more
    characters are needed. *)
Fixpoint read_line (n : nat) (first : bool) (a : list Z) : option (list Z * list Z) :=
  match n, a with
  | O, _ => Some ([], a)
  | S n, [] => None
  | S n, c :: a' =>
      if c =? ctl 68 then Some ([], if first then a' else a)
      else if c =? 10 then Some ([c], a')
      else '(r, rest) ← read_line n false a'; Some (c :: r, rest)
  end.

Section read.
  Context {BD : Bound}.

Lemma wait_ready cn a e s :
  (0 < wakeups)%nat → line_pre cn a e → a ≠ [] → console_wait (with_cons cn s) = Ok true (with_cons cn s).
Proof using.
  intros Hw Hl Ha. unfold console_wait. destruct wakeups; [lia|]. cbn [loop]. 
  erewrite bind_ok; [|rewrite (bind_ok _ _ _ _ _ (getcons_run _ _)), (input_unread _ _ _ Hl), bool_decide_false by done; reflexivity].
  done.
Qed.

Lemma read_loop_run n acc cn a e s r rest :
  (0 < wakeups)%nat → line_ok cn a e → screen_ok cn → read_line n (bool_decide (acc = [])) a = Some (r, rest) →
  ∃ cn', consoleread_loop n acc (with_cons cn s) = Ok (true, acc ++ r) (with_cons cn' s) ∧
    line_ok cn' rest e ∧ screen_ok cn' ∧ cn_shift cn' = cn_shift cn.
Proof using.
  intros Hw. revert acc cn a r. induction n as [|n IH]; intros acc cn a r Hl Hs Hread; simpl in Hread.
  { simplify_eq. exists cn. by rewrite app_nil_r. }
  destruct a as [|c a]; [done|]. cbn [consoleread_loop].
  rewrite (bind_ok _ _ _ _ _ (wait_ready _ _ _ s Hw (proj1 Hl) (λ H, ltac:(discriminate H)))). cbn [negb].
  rewrite (bind_ok _ _ _ _ _ (getcons_run _ _)). rewrite (input_first _ _ _ _ (proj1 Hl)). step.
  rewrite (bind_ok _ _ _ _ _ (modcons_run _ _ _)). pose proof (input_take _ _ _ _ Hl) as Hl1.
  set (cn1 := cn <| cn_r := u32 (cn_r cn + 1) |>) in *. destruct (c =? ctl 68).
  - case_bool_decide as Eacc; cbn [when negb]; simplify_eq.
    + exists cn1. by rewrite app_nil_r.
    + exists cn. split_and!; [|done..]. rewrite app_nil_r. rewrite (bind_ok _ _ _ _ _ (modcons_run _ _ _)). unfold ret. do 2 f_equal.
      unfold cn1. simpl. unfold Z.sub. rewrite u32_plus. destruct Hl as [[_ Hr _ _ _ _] _].
      replace (cn_r cn + 1 + - (1)) with (cn_r cn) by lia. rewrite u32_small by lia. by destruct cn.
  - destruct (c =? 10); [simplify_eq; by exists cn1|].
    destruct (read_line n false a) as [[r' rest']|] eqn:E; simplify_eq/=.
    destruct (IH (acc ++ [c]) cn1 a r' Hl1 Hs) as (cn' & Hr & Hres); [by rewrite bool_decide_false by (by destruct acc)|].
    exists cn'. split; [|done]. by rewrite Hr, <-app_assoc.
Qed.

(** Process [i] runs and holds the lock of the inode at entry [ip]. *)
Definition reader (ip i : nat) (s : kst) : Prop :=
  ∃ x p, k_held s = [] ∧ k_cur s = Some i ∧ k_ptable s !! i = Some p ∧ k_icache s !! ip = Some x ∧
    i_lock x = Slock true (p_pid p) ∧ 1 ≤ i_ref x ∧ i_valid x = true.

Lemma pid_wake c p : p_pid (wake_proc c p) = p_pid p.
Proof using. unfold wake_proc. by destruct (decide _). Qed.

Lemma reader_rouse ip i w cn s : reader ip i s → reader ip i (rouse w (with_cons cn s)).
Proof using.
  intros (x & p & Hh & Hcur & Hp & Hx & Hlk & Hr & Hv). destruct w; [|by exists x, p].
  exists x, (wake_proc (Some ChInput) p). rewrite pid_wake. split_and!; try done. simpl. by rewrite list_lookup_fmap, Hp.
Qed.

Lemma consoleread_run ip i n cn a e s r rest :
  (0 < wakeups)%nat → reader ip i s → line_ok cn a e → screen_ok cn → read_line (Z.to_nat n) true a = Some (r, rest) →
  ∃ cn', consoleread ip n (with_cons cn s) = Ok (Z.of_nat (length r), r) (woken (ChInode ip) (with_cons cn' s)) ∧
    line_ok cn' rest e ∧ screen_ok cn' ∧ cn_shift cn' = cn_shift cn.
Proof using.
  intros Hw (x & p & Hh & Hcur & Hp & Hx & Hlk & Hr & Hv) Hl Hs Hread. unfold consoleread.
  run (iunlock_run ip x); [|done|by rewrite Hlk|done|done].
  set (x1 := x <| i_lock := Slock false 0 |>). set (s1 := woken (ChInode ip) s <| k_icache ::= <[ip := x1]> |>).
  run acquire_run; [|simpl; rewrite Hh; set_solver]. at_state (with_cons cn (s1 <| k_held ::= cons Lcons |>)).
  destruct (read_loop_run (Z.to_nat n) [] cn a e (s1 <| k_held ::= cons Lcons |>) r rest) as (cn' & Hrun & Hres); [done..|].
  rewrite (bind_ok _ _ _ _ _ Hrun). at_state (with_cons cn' s1 <| k_held ::= cons Lcons |>).
  run release_top; [|simpl; rewrite Hh; set_solver]. exists cn'. split; [|done].
  assert (k_icache s1 !! ip = Some x1) as Hx1 by (simpl; apply list_lookup_insert_eq; by eapply lookup_lt_Some).
  run (ilock_run ip x1 i (wake_proc (Some (ChInode ip)) p)); [|done|done|done|done|done|simpl; rewrite Hh; set_solver|done|simpl; by rewrite list_lookup_fmap, Hp].
  unfold ret. f_equal. rewrite pid_wake, <-Hlk. apply kst_ext; simpl; try done. unfold x1. simpl.
  rewrite list_insert_insert_eq. rewrite list_insert_id; [done|]. rewrite Hx. by destruct x.
Qed.

(** Consoleread gives the caller the characters up to a newline or up to the number
    asked for; an end-of-file character ends the read and is consumed only when nothing
    came before it, so that the next read returns 0; the other characters stay in order
    and the line being edited is untouched. *)
Theorem consoleread_line ip i n cn a e s r rest :
  (0 < wakeups)%nat → reader ip i s → line_ok cn a e → screen_ok cn → read_line (Z.to_nat n) true a = Some (r, rest) →
  ∃ cn', consoleread ip n (with_cons cn s) = Ok (Z.of_nat (length r), r) (woken (ChInode ip) (with_cons cn' s)) ∧
    line_ok cn' rest e ∧ screen_ok cn' ∧ cn_shift cn' = cn_shift cn.
Proof using. apply consoleread_run. Qed.

(** Characters that are only inserted. *)
Definition plain (c : Z) : Prop := 31 < c < 127.

Lemma edit_plain cs a e :
  Forall plain cs → (length (a ++ e ++ cs) < 128)%nat → edit_chars cs (a, e) = (a, e ++ cs, false).
Proof using.
  intros Hc. revert e. induction Hc as [|c cs Hc _ IH]; intros e Hlen; [by rewrite app_nil_r|]. cbn [edit_chars]. unfold plain in Hc.
  rewrite !length_app in Hlen. simpl in Hlen. unfold edit_char, ctl.
  rewrite !(proj2 (Z.eqb_neq c _)) by lia. cbn [orb]. rewrite !bool_decide_false by (rewrite !length_app; simpl; lia).
  rewrite IH by (rewrite !length_app; simpl; lia). by rewrite <-app_assoc.
Qed.

Lemma edit_chars_app cs ds l :
  edit_chars (cs ++ ds) l =
  let '(l1, w1) := edit_chars cs l in let '(l2, w2) := edit_chars ds l1 in (l2, w1 || w2).
Proof using.
  revert l. induction cs as [|c cs IH]; intros l; simpl; [by destruct (edit_chars ds l)|]. destruct (edit_char c l) as [l1 w1]. rewrite IH.
  destruct (edit_chars cs l1) as [l2 w2], (edit_chars ds l2) as [l3 w3]. by rewrite orb_assoc.
Qed.

Lemma edit_line cs : Forall plain cs → (length cs < 127)%nat → edit_chars (cs ++ [13]) ([], []) = (cs ++ [10], [], true).
Proof using.
  intros Hc Hlen. rewrite edit_chars_app, edit_plain by (simpl; first [done|lia]). cbn [edit_chars]. unfold edit_char. simpl.
  by rewrite bool_decide_false by lia.
Qed.

Lemma read_plain cs n first : Forall plain cs → (length cs < n)%nat → read_line n first (cs ++ [10]) = Some (cs ++ [10], []).
Proof using.
  intros Hc. revert n first. induction Hc as [|c cs Hc _ IH]; intros [|n] first Hn; simpl in Hn; try lia; [done|].
  simpl. unfold plain in Hc. unfold ctl. rewrite !(proj2 (Z.eqb_neq c _)) by lia. by rewrite IH by lia.
Qed.

(** C31: a line typed on the serial line reaches the reader: after an interrupt that
    delivers printable characters and the Enter key, a read of enough bytes returns these
    characters and a newline, and the buffer is empty again. *)
Theorem console_roundtrip ip i n text cn s :
  (0 < wakeups)%nat → reader ip i s → line_ok cn [] [] → screen_ok cn → 0 ≤ cn_shift cn < 128 →
  Forall plain text → Z.of_nat (length text) < n → (length text < 127)%nat →
  ∃ cn1 cn2, uartintr (text ++ [13]) (with_cons cn s) = Ok tt (woken ChInput (with_cons cn1 s)) ∧
    consoleread ip n (woken ChInput (with_cons cn1 s)) =
      Ok (Z.of_nat (length text) + 1, text ++ [10]) (woken (ChInode ip) (woken ChInput (with_cons cn2 s))) ∧
    line_ok cn2 [] [] ∧ screen_ok cn2.
Proof using.
  intros Hw Hrd Hl Hs Hsh Ht Hn Hcap. pose proof Hrd as (x & p & Hh & _).
  assert (gives (cn_shift cn) (ret <$> (text ++ [13])) (text ++ [13]) (cn_shift cn)) as Hg.
  { apply gives_uart. apply Forall_app_2; [|by apply list.Forall_singleton]. eapply list.Forall_impl; [exact Ht|]. unfold plain. intros; simpl in *; lia. }
  destruct (intr_run _ _ _ _ cn [] [] s Hg eq_refl Hl Hs) as (cn1 & Hr1 & Hl1 & Hs1 & _); [by rewrite Hh; apply not_elem_of_nil..|].
  rewrite edit_line in Hr1, Hl1 by done. exists cn1.
  destruct (consoleread_run ip i n cn1 (text ++ [10]) [] (rouse true (with_cons cn1 s)) (text ++ [10]) [] Hw) as (cn2 & Hr2 & Hl2 & Hs2 & _);
    [by apply reader_rouse|done|done|apply read_plain; [done|lia]|].
  exists cn2. split_and!; [done| |done|done]. rewrite length_app in Hr2. cbn [length] in Hr2.
  rewrite !rouse_cons in Hr2. replace (Z.of_nat (length text) + 1) with (Z.of_nat (length text + 1)) by lia. exact Hr2.
Qed.
End read.
