(* ===== verification/Proc.v ===== *)
(** * Processes, priorities and containers (proc.c) *)
From S2P Require Import Prelude Mem CString Mmu Kalloc Vm KState Sched Mutex Shm Bio Log Fs Pipe FileTab.

(** Offset of [refcount] in struct shared_mem. *)
Definition SHARED_MEM_REFCOUNT : Z := 20.

Definition CM : list Z := [99; 109].                                  (* "cm" *)
Definition INITCODE : list Z := [105; 110; 105; 116; 99; 111; 100; 101].  (* "initcode" *)

(** [strncmp(name, "cm", strlen(name)) == 0] *)
Definition is_cm (name : list Z) : option bool :=
  n ← strlen name; r ← strncmp name (cz CM) n; Some (r =? 0).

Definition getc (i : nat) : K container := s <- get; deref "containers.Arr" (k_containers s !! i).
Definition modc (i : nat) (f : container → container) : K unit :=
  c <- getc i; modify (λ s, s <| k_containers ::= <[i := f c]> |>).

Definition getbin (b : Z) : K plist :=
  s <- get; deref "pqueue.Arr" (if b <? 0 then None else k_pqueue s !! Z.to_nat b).
Definition modbin (b : Z) (f : plist → plist) : K unit :=
  l <- getbin b; modify (λ s, s <| k_pqueue ::= <[Z.to_nat b := f l]> |>).

(** ** The priority queue *)

Definition pqueue_enqueue (p : nat) (priority : Z) : K unit :=
  modp p (λ x, x <| p_priority := priority |>);;
  acquire Lpqueue;;
  bin <- getbin priority;
  match l_head bin with
  | None => modbin priority (λ b, b <| l_head := Some p |> <| l_tail := Some p |>)
  | Some _ =>
      t <- deref "bin->tail" (l_tail bin);
      modp t (λ x, x <| p_next := Some p |>);;
      modbin priority (λ b, b <| l_tail := Some p |>)
  end;;
  modbin priority (λ b, b <| l_size ::= λ n, s32 (n + 1) |>);;
  modp p (λ x, x <| p_next := None |>);;
  release Lpqueue.

Definition queueinit : K unit :=
  modify (λ s, s <| k_pqueue ::= fmap (λ _, Plist None None 0) |>).

Definition pinit : K unit :=
  modify (λ s, s <| k_ptable ::= fmap (λ p, p <| p_container_id := 0 |>) |>).

Definition cinit : K unit :=
  modify (λ s, s <| k_containers ::= fmap (λ c,
    c <| c_container_id := UINT_MAX |> <| c_nproc := UINT_MAX |>) |>).

(** The walk up the [parent] links in prio_set: [true] at [cur], [false] at init. *)
Fixpoint ancestry (n : nat) (cur temp : nat) : K bool :=
  match n with
  | O => λ _, Fuel
  | S n =>
      t <- getp temp;
      init <- gets k_initproc;
      if decide (p_parent t = Some cur) then ret true else
      if decide (p_parent t = init) then ret false else
      up <- deref "temp->parent" (p_parent t);
      ancestry n cur up
  end.

(** The walk along a bin in prio_set: unlinks the process with [pid] when some
    other entry points to it. *)
Fixpoint bin_unlink (n : nat) (pid : Z) (p : nat) : K (option nat) :=
  match n with
  | O => λ _, Fuel
  | S n =>
      x <- getp p;
      match p_next x with
      | None => ret None
      | Some q =>
          y <- getp q;
          if p_pid y =? pid then
            modp p (λ x, x <| p_next := p_next y |>);; ret (Some q)
          else bin_unlink n pid q
      end
  end.

(** The loop over the bins; [proc] is the process found so far. *)
Fixpoint bins_unlink (pid : Z) (bins : list plist) (proc : option nat) : K (option nat) :=
  match bins with
  | [] => ret proc
  | bin :: bins =>
      match l_head bin with
      | None => bins_unlink pid bins proc
      | Some h =>
          x <- getp h;
          if p_pid x =? pid then ret (Some h) else
          r <- bin_unlink (S NPROC) pid h;
          bins_unlink pid bins (match r with Some q => Some q | None => proc end)
      end
  end.

Definition prio_set (pid priority : Z) : K Z :=
  cur <- myproc;
  acquire Lptable;;
  pt <- gets k_ptable;
  release Lptable;;
  match find_index (λ p, p_pid p =? pid) pt with
  | None => undef "ptable.proc[NPROC]"
  | Some i =>
      p <- getp i;
      if u32 priority <? p_priority p then ret (-1) else
      me <- getp cur;
      ok <- (if pid =? p_pid me then ret true else ancestry (S NPROC) cur i);
      if negb ok then ret (-1) else
      if u32 priority =? p_priority p then ret 0 else
      acquire Lpqueue;;
      bins <- gets k_pqueue;
      proc <- bins_unlink pid bins None;
      release Lpqueue;;
      q <- deref "proc" proc;
      pqueue_enqueue q (u32 priority);;
      ret 0
  end.

(** ** Creating processes *)

(** The entries of [p->shared_mem] as copyuvm and freevm read them. *)
Fixpoint shviews (l : list shmem) : K (list shview) :=
  match l with
  | [] => ret []
  | e :: l =>
      v <- (if sh_in_use e =? 1 then
              gi <- deref "global_ptr" (sh_global e);
              g <- getsh gi;
              ret (Shv 1 (sh_va e) (g_pa g))
            else ret (Shv (sh_in_use e) (sh_va e) 0));
      vs <- shviews l;
      ret (v :: vs)
  end.

Section proc.
  Context `{Linker} `{Bound} `{Devices}.

(** switchuvm: its checks; the descriptors it installs are in Seg.v, the registers it loads are not modelled. *)
Definition switchuvm (i : nat) : K unit :=
  p <- getp i;
  if p_kstack p =? 0 then panic "switchuvm: no kstack" else
  if p_pgdir p =? 0 then panic "switchuvm: no pgdir" else ret tt.

Definition allocproc (priority : Z) : K (option nat) :=
  acquire Lptable;;
  pt <- gets k_ptable;
  match find_index (λ p, bool_decide (p_state p = UNUSED)) pt with
  | None => release Lptable;; ret None
  | Some i =>
      pid <- gets k_nextpid;
      modp i (λ p, p <| p_state := EMBRYO |> <| p_pid := pid |>);;
      modify (λ s, s <| k_nextpid ::= λ n, s32 (n + 1) |>);;
      pqueue_enqueue i priority;;
      modp i (λ p, p <| p_container_id := 0 |>
                     <| p_shared_mem ::= fmap (λ e, e <| sh_in_use := 0 |>) |>
                     <| p_mutex ::= fmap (λ _, None) |>);;
      release Lptable;;
      ks <- pm_do kalloc;
      modp i (λ p, p <| p_kstack := ks |>);;
      if ks =? 0 then modp i (λ p, p <| p_state := UNUSED |>);; ret None else
      modp i (λ p, p <| p_context := Ctx 0 0 0 0 kforkret |>);;
      ret (Some i)
  end.

Definition userinit : K unit :=
  o <- allocproc 0;
  i <- deref "userinit: p" o;
  modify (λ s, s <| k_initproc := Some i |>);;
  pd <- pm_do (setupkvm []);
  modp i (λ p, p <| p_pgdir := pd |>);;
  if pd =? 0 then panic "userinit: out of memory?" else
  pm_do (inituvm pd kinitcode (Z.of_nat (length kinitcode)));;
  p <- getp i;
  nm <- deref "p->name" (safestrcpy (p_name p) (cz INITCODE) 16);
  modp i (λ p, p <| p_sz := PGSIZE |>
    (* cs = (SEG_UCODE << 3) | DPL_USER, ds = es = ss = (SEG_UDATA << 3) | DPL_USER *)
    <| p_tf := Tf 0 0 0 0 0 0 0 0 0 0 35 35 0 0 0 27 512 PGSIZE 35 |>
    <| p_name := nm |>);;
  cwd <- namei [SLASH];
  modp i (λ p, p <| p_cwd := cwd |> <| p_container_id := 0 |>);;
  acquire Lptable;;
  modp i (λ p, p <| p_state := RUNNABLE |>);;
  release Lptable.

Definition growproc (n : Z) : K Z :=
  i <- myproc;
  p <- getp i;
  let sz := p_sz p in
  r <- (if 0 <? n then pm_do (allocuvm (p_pgdir p) sz (u32 (sz + n)))
        else if n <? 0 then pm_do (deallocuvm (p_pgdir p) sz (u32 (sz + n)))
        else ret sz);
  if negb (n =? 0) && (r =? 0) then ret (-1) else
  modp i (λ p, p <| p_sz := r |>);;
  switchuvm i;;
  ret 0.

(** [newproc_shmem->global_ptr->refcount++]; through a NULL [global_ptr] this is the
    word at user address 20 of the parent. *)
Definition shm_incref (pgdir : Z) (gp : option nat) : K unit :=
  match gp with
  | Some g => modsh g (λ g, g <| g_refcount ::= λ n, u32 (n + 1) |>)
  | None =>
      v <- pm_do (uload32 pgdir SHARED_MEM_REFCOUNT);
      pm_do (ustore32 pgdir SHARED_MEM_REFCOUNT (u32 (v + 1)))
  end.

(** The loop of fork over the shared pages. *)
Definition fork_shm (cur np : nat) : K unit :=
  forM (seq 0 SHM_MAXNUM) (λ j,
    p <- getp cur;
    cm <- deref "curproc->name" (is_cm (p_name p));
    when (negb cm)
      (e <- deref "shared_mem" (p_shared_mem p !! j);
       n <- getp np;
       e' <- deref "shared_mem" (p_shared_mem n !! j);
       len <- deref "parent_shmem->name" (strlen (sh_name e));
       nm <- deref "newproc_shmem->name" (strncpy (sh_name e') (sh_name e) len);
       modp np (λ p, p <| p_shared_mem ::= <[j := Shmem (sh_in_use e) nm (sh_va e) (sh_global e)]> |>);;
       shm_incref (p_pgdir p) (sh_global e))).

(** The open files and the current directory of the child. *)
Definition fork_files (cur np : nat) : K unit :=
  forM (seq 0 NOFILE) (λ fd,
    p <- getp cur;
    o <- deref "ofile" (p_ofile p !! fd);
    match o with
    | None => ret tt
    | Some f => f' <- filedup f; modp np (λ x, x <| p_ofile ::= <[fd := Some f']> |>)
    end);;
  p <- getp cur;
  d <- deref "curproc->cwd" (p_cwd p);
  d' <- idup d;
  modp np (λ x, x <| p_cwd := Some d' |>).

(** The name of the child: the parent's, or the string at [container->init]. *)
Definition fork_name (cur np : nat) : K unit :=
  p <- getp cur;
  n <- getp np;
  cm <- deref "curproc->name" (is_cm (p_name p));
  nm <- (if negb cm then deref "np->name" (safestrcpy (p_name n) (p_name p) 16)
         else
           ci <- deref "np->container" (p_container n);
           c <- getc ci;
           init <- pm_do (ucstr 4096 (p_pgdir p) (c_init c));
           deref "np->name" (safestrcpy (p_name n) (cz init) (Z.of_nat (length init))));
  modp np (λ x, x <| p_name := nm |>).

(** The check and the decrement of the container's process budget. *)
Definition fork_budget (cur : nat) : K bool :=
  p <- getp cur;
  if p_container_id p =? 0 then ret true else
  ci <- deref "curproc->container" (p_container p);
  c <- getc ci;
  if c_nproc c =? 0 then ret false else
  modc ci (λ c, c <| c_nproc ::= λ n, u32 (n - 1) |>);;
  ret true.

Definition fork : K Z :=
  cur <- myproc;
  ok <- fork_budget cur;
  if negb ok then ret (-1) else
  p <- getp cur;
  o <- allocproc (p_priority p);
  match o with
  | None => ret (-1)
  | Some np =>
      shm <- shviews (p_shared_mem p);
      cm <- deref "curproc->name" (is_cm (p_name p));
      pd <- pm_do (copyuvm shm cm (p_pgdir p) (p_sz p));
      modp np (λ x, x <| p_pgdir := pd |>);;
      if pd =? 0 then
        n <- getp np;
        pm_do (kfree (p_kstack n));;
        modp np (λ x, x <| p_kstack := 0 |> <| p_state := UNUSED |>);;
        ret (-1)
      else
      modp np (λ x, x <| p_sz := p_sz p |> <| p_parent := Some cur |> <| p_tf := p_tf p |>
                      <| p_container := p_container p |> <| p_container_id := p_container_id p |>);;
      fork_shm cur np;;
      modp np (λ x, x <| p_tf ::= λ t, t <| tf_eax := 0 |> |>);;
      fork_files cur np;;
      fork_name cur np;;
      n <- getp np;
      let pid := p_pid n in
      (if 1 <? p_pid p then
         ncm <- deref "np->name" (is_cm (p_name n));
         when (negb ncm) (prio_set pid 1;; ret tt)
       else ret tt);;
      prio_set pid (p_priority p);;
      acquire Lptable;;
      modp np (λ x, x <| p_state := RUNNABLE |>);;
      release Lptable;;
      ret pid
  end.

(** ** The end of processes *)

(** exit: the loop that hands the children to init. *)
Definition reparent (cur : nat) : K unit :=
  forM (seq 0 NPROC) (λ i,
    x <- getp i;
    init <- gets k_initproc;
    when (bool_decide (p_parent x = Some cur))
      (modp i (λ x, x <| p_parent := init |>);;
       when (bool_decide (p_state x = ZOMBIE)) (wakeup1 (ChProc <$> init)))).

(** exit up to the point where it takes ptable.lock. *)
Definition exit_release (cur : nat) : K unit :=
  forM (seq 0 NOFILE) (λ fd,
    p <- getp cur;
    o <- deref "ofile" (p_ofile p !! fd);
    match o with
    | None => ret tt
    | Some f => fileclose f;; modp cur (λ x, x <| p_ofile ::= <[fd := None]> |>)
    end);;
  forM (seq 0 SHM_MAXNUM) (λ j,
    p <- getp cur;
    e <- deref "shared_mem" (p_shared_mem p !! j);
    when (negb (sh_in_use e =? 0))
      (nm <- deref "shared_mem.name" (cstr (sh_name e)); shm_rem nm;; ret tt));;
  forM (seq 0 MUX_MAXNUM) (λ j,
    p <- getp cur;
    m <- deref "mutex" (p_mutex p !! j);
    when (bool_decide (is_Some m)) (mutex_delete (Z.of_nat j)));;
  begin_op;;
  p <- getp cur;
  d <- deref "curproc->cwd" (p_cwd p);
  iput d;;
  end_op;;
  modp cur (λ x, x <| p_cwd := None |>).

(** exit from the point where it takes ptable.lock; it does not come back. *)
Definition exit_zombie (cur : nat) : K unit :=
  acquire Lptable;;
  p <- getp cur;
  wakeup1 (ChProc <$> p_parent p);;
  reparent cur;;
  modp cur (λ x, x <| p_state := ZOMBIE |>);;
  sched;;
  panic "zombie exit".

Definition exit : K unit :=
  cur <- myproc;
  init <- gets k_initproc;
  if decide (init = Some cur) then panic "init exiting" else
  exit_release cur;;
  exit_zombie cur.

(** The scan of wait from entry [i]: the first zombie child, and whether there is
    any child. *)
Fixpoint wait_scan (cur : nat) (l : list proc) (i : nat) (havekids : bool) : option nat * bool :=
  match l with
  | [] => (None, havekids)
  | x :: l =>
      if decide (p_parent x = Some cur) then
        if decide (p_state x = ZOMBIE) then (Some i, true) else wait_scan cur l (S i) true
      else wait_scan cur l (S i) havekids
  end.

(** Freeing the process table entry of a zombie; its pid. *)
Definition reap (cur z : nat) : K Z :=
  x <- getp z;
  pm_do (kfree (p_kstack x));;
  modp z (λ x, x <| p_kstack := 0 |>);;
  p <- getp cur;
  shm <- shviews (p_shared_mem p);
  pm_do (freevm shm (p_pgdir x));;
  modp z (λ x, x <| p_pid := 0 |> <| p_parent := None |> <| p_name ::= <[O := 0]> |>
                 <| p_killed := 0 |> <| p_state := UNUSED |>);;
  ret (p_pid x).

Definition wait : K Z :=
  cur <- myproc;
  acquire Lptable;;
  loop wakeups (λ _ : unit,
    pt <- gets k_ptable;
    match wait_scan cur pt 0 false with
    | (Some z, _) =>
        pid <- reap cur z;
        release Lptable;;
        p <- getp cur;
        when (negb (p_container_id p =? 0))
          (ci <- deref "curproc->container" (p_container p);
           modc ci (λ c, c <| c_nproc ::= λ n, u32 (n + 1) |>));;
        ret (inr pid)
    | (None, havekids) =>
        p <- getp cur;
        if negb havekids || negb (p_killed p =? 0) then release Lptable;; ret (inr (-1)) else
        sleep (ChProc cur) Lptable;;
        ret (inl tt)
    end) tt.

(** The mutexes of a killed process: round [i] of the loop of kill. *)
Definition kill_mutex (p k : nat) : K unit :=
  x <- getp p;
  o <- deref "p->mutex" (p_mutex x !! k);
  match o with
  | None => ret tt
  | Some m =>
      when (bool_decide (p_state x = SLEEPING) && bool_decide (p_chan x = Some (ChMutex m)))
        (modmux m (λ x, x <| m_cv := (cas (m_cv x) 0 1).1 |>));;
      x <- getmux m;
      if m_refcount x =? 1 then modmux m (λ x, mux_dealloc x <| m_cv := 0 |>)
      else modmux m (λ x, x <| m_locked := 0 |> <| m_refcount ::= λ n, s32 (n - 1) |>)
  end.

Definition kill (pid : Z) : K Z :=
  cur <- myproc;
  me <- getp cur;
  acquire Lptable;;
  pt <- gets k_ptable;
  match find_index (λ p, (p_pid p =? pid) && (p_container_id p =? p_container_id me)) pt with
  | Some i =>
      modp i (λ p, p <| p_killed := 1 |>);;
      acquire Lmtable;;
      forM (seq 0 MUX_MAXNUM) (kill_mutex i);;
      release Lmtable;;
      p <- getp i;
      when (bool_decide (p_state p = SLEEPING)) (modp i (λ p, p <| p_state := RUNNABLE |>));;
      release Lptable;;
      ret 0
  | None => release Lptable;; ret (-1)
  end.

(** ** Scheduling *)

(** What the scheduler does for process [i] before its swtch. *)
Definition scheduler_run (i : nat) : K unit :=
  modify (λ s, s <| k_cur := Some i |>);;
  switchuvm i;;
  modp i (λ p, p <| p_state := RUNNING |>).

(** forkret; [first] is its static flag. *)
Definition forkret (first : bool) : K unit :=
  release Lptable;;
  when first (iinit ROOTDEV;; initlog ROOTDEV).

(** ** The container manager *)

Definition cm_maxproc (nproc : Z) : K Z :=
  if Z.of_nat NPROC <=? nproc then ret (-1) else
  i <- myproc;
  p <- getp i;
  ci <- deref "p->container" (p_container p);
  c <- getc ci;
  if negb (c_nproc c =? UINT_MAX) || (p_container_id p =? 0) then ret (-1) else
  modc ci (λ c, c <| c_nproc := u32 nproc |>);;
  ret 1.

(** [safestrcpy(container->fs, path, strlen(path))]: [container->fs] is a pointer
    nothing ever sets, so this stores at user address 0. *)
Definition cm_setroot (path : list Z) (path_len : Z) (c : option nat) : K Z :=
  if path_len <=? 0 then ret (-1) else
  root <- namei path;
  container <- deref "container" c;
  modc container (λ c, c <| c_root := root |>);;
  i <- myproc;
  p <- getp i;
  c <- getc container;
  when (negb (bool_decide (path = [])))
    (pm_do (ustore_bytes (p_pgdir p) (c_fs c) (take (length path - 1) path ++ [0])));;
  ret 1.

Definition cm_create_and_enter (init fs : list Z) (nproc : Z) : K Z :=
  i <- myproc;
  p <- getp i;
  nm <- deref "curproc->name" (strncpy (p_name p) (cz CM) 2);
  modp i (λ p, p <| p_name := nm |>);;
  acquire Lcontainers;;
  cs <- gets k_containers;
  match find_index (λ c, c_container_id c =? UINT_MAX) cs with
  | None => release Lcontainers;; ret (-1)
  | Some ci =>
      cid <- gets k_nextcid;
      modc ci (λ c, c <| c_container_id := u32 cid |>);;
      modify (λ s, s <| k_nextcid ::= λ n, s32 (n + 1) |>);;
      c <- getc ci;
      pm_do (ustore_bytes (p_pgdir p) (c_init c) init);;
      release Lcontainers;;
      modp i (λ p, p <| p_container := Some ci |>);;
      begin_op;;
      cm_setroot fs (Z.of_nat (length fs)) (Some ci);;
      c <- getc ci;
      r <- deref "c->root" (c_root c);
      d <- idup r;
      modp i (λ p, p <| p_cwd := Some d |>);;
      end_op;;
      modp i (λ p, p <| p_container_id := u32 cid |>);;
      cm_maxproc nproc;;
      child <- fork;
      if negb (child =? 0) then modp i (λ p, p <| p_container_id := 0 |>);; ret 1 else ret 0
  end.

End proc.
