(* ===== verification/Exec.v ===== *)
(** * Loading programs (exec.c, loaduvm of vm.c)

    [argv] is the list of the argument strings.  The freeing of a page directory
    reads the current process's shared pages ([shviews]). *)
From S2P Require Import Prelude Mem CString Mmu Kalloc Vm KState Sched Mutex Shm Bytes Bio Log Fs Pipe FileTab Proc.

Definition ELF_MAGIC : Z := 0x464C457F.
Definition ELF_PROG_LOAD : Z := 1.

(** The fields of struct elfhdr and struct proghdr that exec reads. *)
Record elfhdr := Elfhdr { eh_magic : Z; eh_entry : Z; eh_phoff : Z; eh_phnum : Z }.
Definition parse_elfhdr (d : list Z) : elfhdr :=
  Elfhdr (rd32 0 d) (rd32 24 d) (rd32 28 d) (rd16 44 d).
Definition SIZEOF_ELFHDR : Z := 52.

Record proghdr := Proghdr {
  ph_type : Z; ph_off : Z; ph_vaddr : Z; ph_filesz : Z; ph_memsz : Z }.
Definition parse_proghdr (d : list Z) : proghdr :=
  Proghdr (rd32 0 d) (rd32 4 d) (rd32 8 d) (rd32 16 d) (rd32 20 d).
Definition SIZEOF_PROGHDR : Z := 32.

(** The part of a path after the last '/'. *)
Fixpoint last_elem (path acc : list Z) : list Z :=
  match path with
  | [] => acc
  | c :: p => last_elem p (if c =? SLASH then p else acc)
  end.

Section exec.
  Context `{Linker} `{Bound} `{Devices}.

(** [for (i = 0; i < sz; i += PGSIZE)] of loaduvm. *)
Fixpoint loaduvm_loop (k : nat) (pgdir addr : Z) (ip : nat) (offset sz i : Z) : K Z :=
  match k with
  | O => λ _, Fuel
  | S k =>
      if negb (i <? sz) then ret 0 else
      pte <- pm_do (walkpgdir pgdir (u32 (addr + i)) false);
      if pte =? 0 then panic "loaduvm: address should exist" else
      w <- pm_do (load32 pte);
      let n := if sz - i <? PGSIZE then sz - i else PGSIZE in
      r <- readi ip (u32 (offset + i)) n;
      pm_do (set_mem (λ m, store_bytes m (P2V (PTE_ADDR w)) r.2));;
      if negb (u32 r.1 =? n) then ret (-1) else
      loaduvm_loop k pgdir addr ip offset sz (u32 (i + PGSIZE))
  end.

Definition loaduvm (pgdir addr : Z) (ip : nat) (offset sz : Z) : K Z :=
  if negb (addr `mod` PGSIZE =? 0) then panic "loaduvm: addr must be page aligned" else
  loaduvm_loop (S (Z.to_nat (sz `div` PGSIZE + 1))) pgdir addr ip offset sz 0.

Definition my_shviews : K (list shview) :=
  i <- myproc; p <- getp i; shviews (p_shared_mem p).

(** [bad:] of exec. *)
Definition exec_bad (pgdir : Z) (ip : option nat) : K Z :=
  when (negb (pgdir =? 0)) (shm <- my_shviews; pm_do (freevm shm pgdir));;
  match ip with Some ip => iunlockput ip;; end_op | None => ret tt end;;
  ret (-1).

(** The loop over the program headers: the size of the image, [None] for [bad]. *)
Fixpoint exec_segments (n : nat) (ip : nat) (pgdir off sz : Z) : K (option Z) :=
  match n with
  | O => ret (Some sz)
  | S n =>
      r <- readi ip (u32 off) SIZEOF_PROGHDR;
      if negb (r.1 =? SIZEOF_PROGHDR) then ret None else
      let ph := parse_proghdr r.2 in
      if negb (ph_type ph =? ELF_PROG_LOAD) then
        exec_segments n ip pgdir (s32 (off + SIZEOF_PROGHDR)) sz else
      if ph_memsz ph <? ph_filesz ph then ret None else
      if u32 (ph_vaddr ph + ph_memsz ph) <? ph_vaddr ph then ret None else
      sz <- pm_do (allocuvm pgdir sz (u32 (ph_vaddr ph + ph_memsz ph)));
      if sz =? 0 then ret None else
      if negb (ph_vaddr ph `mod` PGSIZE =? 0) then ret None else
      l <- loaduvm pgdir (ph_vaddr ph) ip (ph_off ph) (ph_filesz ph);
      if l <? 0 then ret None else
      exec_segments n ip pgdir (s32 (off + SIZEOF_PROGHDR)) sz
  end.

(** Pushing the argument strings: [sp] and the addresses of the strings. *)
Fixpoint exec_args (argc : nat) (pgdir sp : Z) (argv : list (list Z)) (acc : list Z)
    : K (option (Z * list Z)) :=
  match argv with
  | [] => ret (Some (sp, acc))
  | a :: argv =>
      if (MAXARG <=? argc)%nat then ret None else
      let sp := Z.land (u32 (sp - (Z.of_nat (length a) + 1))) 0xFFFFFFFC in
      c <- pm_do (copyout pgdir sp (cz a));
      if c <? 0 then ret None else exec_args (S argc) pgdir sp argv (acc ++ [sp])
  end.

(** exec from the point where the image is loaded. *)
Definition exec_commit (path : list Z) (argv : list (list Z)) (pgdir entry sz : Z) : K Z :=
  let sz := PGROUNDUP sz in
  sz <- pm_do (allocuvm pgdir sz (u32 (sz + 2 * PGSIZE)));
  if sz =? 0 then exec_bad pgdir None else
  pm_do (clearpteu pgdir (u32 (sz - 2 * PGSIZE)));;
  o <- exec_args 0 pgdir sz argv [];
  match o with
  | None => exec_bad pgdir None
  | Some (sp, args) =>
      let argc := Z.of_nat (length args) in
      let ustack := [0xFFFFFFFF; argc; u32 (sp - (argc + 1) * 4)] ++ args ++ [0] in
      let sp := u32 (sp - (3 + argc + 1) * 4) in
      c <- pm_do (copyout pgdir sp (concat (le_enc 4 <$> ustack)));
      if c <? 0 then exec_bad pgdir None else
      i <- myproc;
      p <- getp i;
      nm <- deref "curproc->name" (safestrcpy (p_name p) (cz (last_elem path path)) 16);
      let oldpgdir := p_pgdir p in
      modp i (λ p, p <| p_name := nm |> <| p_pgdir := pgdir |> <| p_sz := sz |>
                     <| p_tf ::= λ t, t <| tf_eip := entry |> <| tf_esp := sp |> |>);;
      switchuvm i;;
      shm <- my_shviews;
      pm_do (freevm shm oldpgdir);;
      ret 0
  end.

Definition exec (path : list Z) (argv : list (list Z)) : K Z :=
  begin_op;;
  o <- namei path;
  match o with
  | None => end_op;; ret (-1)
  | Some ip =>
      ilock ip;;
      r <- readi ip 0 SIZEOF_ELFHDR;
      if negb (r.1 =? SIZEOF_ELFHDR) then exec_bad 0 (Some ip) else
      let elf := parse_elfhdr r.2 in
      if negb (eh_magic elf =? ELF_MAGIC) then exec_bad 0 (Some ip) else
      shm <- my_shviews;
      pgdir <- pm_do (setupkvm shm);
      if pgdir =? 0 then exec_bad 0 (Some ip) else
      o <- exec_segments (Z.to_nat (eh_phnum elf)) ip pgdir (s32 (eh_phoff elf)) 0;
      match o with
      | None => exec_bad pgdir (Some ip)
      | Some sz =>
          iunlockput ip;;
          end_op;;
          exec_commit path argv pgdir (eh_entry elf) sz
      end
  end.

End exec.
