(* ===== verification/Syscall.v ===== *)
(** * System call arguments and the process system calls (syscall.c, sysproc.c)

    A pointer argument is a user address; a string argument is the list of the
    characters at the address, read when the call fetches it.  [None] is the C
    functions' -1. *)
From S2P Require Import Prelude Mem CString Mmu Kalloc Vm KState Sched Mutex Shm Bio Log Fs Pipe FileTab Proc.

Definition my : K proc := i <- myproc; getp i.

(** ** Fetching arguments *)

Definition fetchint (addr : Z) : K (option Z) :=
  p <- my;
  if (p_sz p <=? addr) || (p_sz p <? u32 (addr + 4)) then ret None else
  v <- pm_do (uload32 (p_pgdir p) addr);
  ret (Some (s32 v)).

(** The loop of fetchstr: [n] is [ep - s]. *)
Fixpoint fetchstr_loop (pgdir s : Z) (n : nat) : M pmem (option (list Z)) :=
  match n with
  | O => ret None
  | S n =>
      c <- uload pgdir s;
      if c =? 0 then ret (Some []) else
      r <- fetchstr_loop pgdir (s + 1) n;
      ret (cons c <$> r)
  end.

Definition fetchstr (addr : Z) : K (option (list Z)) :=
  p <- my;
  if p_sz p <=? addr then ret None else
  pm_do (fetchstr_loop (p_pgdir p) addr (Z.to_nat (p_sz p - addr))).

Definition argint (n : Z) : K (option Z) :=
  p <- my;
  fetchint (u32 (tf_esp (p_tf p) + 4 + 4 * n)).

Definition argptr (n size : Z) : K (option Z) :=
  p <- my;
  i <- argint n;
  match i with
  | None => ret None
  | Some i =>
      if (size <? 0) || (p_sz p <=? u32 i) || (p_sz p <? u32 (u32 i + size)) then ret None
      else ret (Some (u32 i))
  end.

Definition argstr (n : Z) : K (option (list Z)) :=
  a <- argint n;
  match a with None => ret None | Some a => fetchstr (u32 a) end.

(** Sequencing of calls that may return -1. *)
Definition or_fail {A} (m : K (option A)) (k : A → K Z) : K Z :=
  o <- m; match o with None => ret (-1) | Some a => k a end.
Notation "x <~ m ; k" := (or_fail m (λ x, k))
  (at level 100, m at level 90, k at level 200, right associativity) : kernel_scope.

Section sysproc.
  Context `{Linker} `{Bound} `{Devices}.

(** ** sysproc.c *)

Definition sys_fork : K Z := fork.

Definition sys_exit : K Z := exit;; ret 0.

Definition sys_wait : K Z := wait.

Definition sys_kill : K Z := pid <~ argint 0; kill pid.

Definition sys_getpid : K Z := p <- my; ret (p_pid p).

Definition sys_sbrk : K Z :=
  n <~ argint 0;
  p <- my;
  r <- growproc n;
  if r <? 0 then ret (-1) else ret (s32 (p_sz p)).

(** [ticks - ticks0 < n] compares as [uint]. *)
Definition sys_sleep : K Z :=
  n <~ argint 0;
  acquire Ltickslock;;
  ticks0 <- gets k_ticks;
  loop wakeups (λ _ : unit,
    ticks <- gets k_ticks;
    if u32 (ticks - ticks0) <? u32 n then
      k <- my_killed;
      if k : bool then release Ltickslock;; ret (inr (-1)) else
      sleep ChTicks Ltickslock;;
      ret (inl tt)
    else release Ltickslock;; ret (inr 0)) tt.

Definition sys_uptime : K Z :=
  acquire Ltickslock;;
  xticks <- gets k_ticks;
  release Ltickslock;;
  ret (s32 xticks).

(** The string at a user address the caller has not checked beyond its first bytes;
    past the end of the process the access faults. *)
Definition user_string (a : Z) : K (list Z) :=
  p <- my;
  pm_do (ucstr (S (S (Z.to_nat (p_sz p + PGSIZE - a)))) (p_pgdir p) a).

Definition sys_m_get : K Z :=
  a <~ argptr 0 4;
  name <- user_string a;
  shm_get name.

Definition sys_m_rem : K Z :=
  a <~ argptr 0 4;
  name <- user_string a;
  shm_rem name.

Definition sys_cm_create_and_enter : K Z :=
  init <~ argstr 0;
  fs <~ argstr 1;
  nproc <~ argint 2;
  cm_create_and_enter init fs nproc.

Definition sys_cm_maxproc : K Z := nproc <~ argint 0; cm_maxproc nproc.

Definition sys_mutex_create : K Z := name <~ argstr 0; mutex_create name.

(** The void system calls. *)
Definition void_arg (f : Z → K unit) : K unit :=
  o <- argint 0; match o with None => ret tt | Some muxid => f muxid end.

Definition sys_mutex_delete : K unit := void_arg mutex_delete.
Definition sys_mutex_lock : K unit := void_arg mutex_lock.
Definition sys_mutex_unlock : K unit := void_arg mutex_unlock.
Definition sys_cv_wait : K unit := void_arg cv_wait.
Definition sys_cv_signal : K unit := void_arg cv_signal.

Definition sys_prio_set : K Z :=
  pid <~ argint 0;
  priority <~ argint 1;
  prio_set pid priority.

End sysproc.
