(* ===== verification/Sysfile.v ===== *)
(** * The file system calls and the dispatch (sysfile.c, syscall.c)

    Data read from a file is stored at the user's buffer when the read returns, and
    data to write is loaded from it when the call starts. *)
From S2P Require Import Prelude Mem CString Mmu Kalloc Vm KState Sched Mutex Shm Bytes Bio Log Fs Pipe FileTab Proc Exec Syscall.

Abbreviation O_RDONLY := 0%Z.
Abbreviation O_WRONLY := 1%Z.
Abbreviation O_RDWR := 2%Z.
Abbreviation O_CREATE := 0x200%Z.

Definition argfd (n : Z) : K (option (nat * nat)) :=
  fd <- argint n;
  match fd with
  | None => ret None
  | Some fd =>
      if (fd <? 0) || (Z.of_nat NOFILE <=? fd) then ret None else
      p <- my;
      o <- deref "ofile" (p_ofile p !! Z.to_nat fd);
      ret ((λ f, (Z.to_nat fd, f)) <$> o)
  end.

Definition set_ofile (fd : nat) (o : option nat) : K unit :=
  i <- myproc; modp i (λ p, p <| p_ofile ::= <[fd := o]> |>).

Definition fdalloc (f : nat) : K (option nat) :=
  p <- my;
  match find_index (λ o, bool_decide (o = None)) (p_ofile p) with
  | Some fd => set_ofile fd (Some f);; ret (Some fd)
  | None => ret None
  end.

(** The [n] bytes at a user address. *)
Fixpoint uload_bytes (pgdir va : Z) (n : nat) : M pmem (list Z) :=
  match n with
  | O => ret []
  | S n => c <- uload pgdir va; cs <- uload_bytes pgdir (u32 (va + 1)) n; ret (c :: cs)
  end.

Definition store_user (a : Z) (bs : list Z) : K unit :=
  p <- my; pm_do (ustore_bytes (p_pgdir p) a bs).

Section sysfile.
  Context `{Linker} `{Bound} `{Devices}.

Definition sys_dup : K Z :=
  f <~ argfd 0;
  fd <~ fdalloc f.2;
  filedup f.2;;
  ret (Z.of_nat fd).

Definition sys_read : K Z :=
  f <~ argfd 0;
  n <~ argint 2;
  a <~ argptr 1 n;
  r <- fileread f.2 n;
  store_user a r.2;;
  ret r.1.

Definition sys_write : K Z :=
  f <~ argfd 0;
  n <~ argint 2;
  a <~ argptr 1 n;
  p <- my;
  src <- pm_do (uload_bytes (p_pgdir p) a (Z.to_nat n));
  filewrite f.2 src n.

Definition sys_close : K Z :=
  f <~ argfd 0;
  set_ofile f.1 None;;
  fileclose f.2;;
  ret 0.

(** struct stat is type (short), dev, ino, nlink (short), size at 0, 4, 8, 12, 16. *)
Definition sys_fstat : K Z :=
  f <~ argfd 0;
  a <~ argptr 1 20;
  o <- filestat f.2;
  match o with
  | None => ret (-1)
  | Some (dev, ino, type, nlink, size) =>
      store_user (u32 (a + 4)) (le_enc 4 dev);;
      store_user (u32 (a + 8)) (le_enc 4 ino);;
      store_user a (le_enc 2 type);;
      store_user (u32 (a + 12)) (le_enc 2 nlink);;
      store_user (u32 (a + 16)) (le_enc 4 size);;
      ret 0
  end.

(** [ip->nlink += d; iupdate(ip)] *)
Definition add_nlink (ip : nat) (d : Z) : K unit :=
  modi ip (λ x, x <| i_nlink ::= λ n, s16 (n + d) |>);; iupdate ip.

(** [bad:] of sys_link. *)
Definition link_bad (ip : nat) : K Z :=
  ilock ip;; add_nlink ip (-1);; iunlockput ip;; end_op;; ret (-1).

Definition sys_link : K Z :=
  old <~ argstr 0;
  new <~ argstr 1;
  begin_op;;
  o <- namei old;
  match o with
  | None => end_op;; ret (-1)
  | Some ip =>
      ilock ip;;
      x <- geti ip;
      if i_type x =? T_DIR then iunlockput ip;; end_op;; ret (-1) else
      add_nlink ip 1;;
      iunlock ip;;
      o <- nameiparent new;
      match o with
      | None => link_bad ip
      | Some (dp, name) =>
          ilock dp;;
          d <- geti dp;
          x <- geti ip;
          l <- (if negb (i_dev d =? i_dev x) then ret (-1) else dirlink dp name (i_inum x));
          if l <? 0 then iunlockput dp;; link_bad ip else
          iunlockput dp;;
          iput ip;;
          end_op;;
          ret 0
      end
  end.

Fixpoint isdirempty_loop (n dp : nat) (off : Z) : K bool :=
  match n with
  | O => λ _, Fuel
  | S n =>
      x <- geti dp;
      if negb (off <? i_size x) then ret true else
      r <- readi dp off 16;
      if negb (r.1 =? 16) then panic "isdirempty: readi" else
      if negb (de_inum r.2 =? 0) then ret false else isdirempty_loop n dp (off + 16)
  end.

Definition isdirempty (dp : nat) : K bool :=
  x <- geti dp;
  isdirempty_loop (S (Z.to_nat (i_size x `div` 16 + 1))) dp 32.

(** [bad:] of sys_unlink. *)
Definition unlink_bad (dp : nat) : K Z := iunlockput dp;; end_op;; ret (-1).

Definition sys_unlink : K Z :=
  path <~ argstr 0;
  begin_op;;
  o <- nameiparent path;
  match o with
  | None => end_op;; ret (-1)
  | Some (dp, name) =>
      ilock dp;;
      c1 <- deref "namecmp" (namecmp name (cz [DOT]));
      c2 <- deref "namecmp" (namecmp name (cz [DOT; DOT]));
      if (c1 =? 0) || (c2 =? 0) then unlink_bad dp else
      o <- dirlookup dp name;
      match o with
      | None => unlink_bad dp
      | Some (ip, off) =>
          ilock ip;;
          x <- geti ip;
          if i_nlink x <? 1 then panic "unlink: nlink < 1" else
          e <- (if i_type x =? T_DIR then isdirempty ip else ret true);
          if negb e then iunlockput ip;; unlink_bad dp else
          w <- writei dp (replicate 16 0) off 16;
          if negb (w =? 16) then panic "unlink: writei" else
          when (i_type x =? T_DIR) (add_nlink dp (-1));;
          iunlockput dp;;
          add_nlink ip (-1);;
          iunlockput ip;;
          end_op;;
          ret 0
      end
  end.

Definition create (path : list Z) (type major minor : Z) : K (option nat) :=
  o <- nameiparent path;
  match o with
  | None => ret None
  | Some (dp, name) =>
      ilock dp;;
      o <- dirlookup dp name;
      match o with
      | Some (ip, _) =>
          iunlockput dp;;
          ilock ip;;
          x <- geti ip;
          if (type =? T_FILE) && (i_type x =? T_FILE) then ret (Some ip) else
          iunlockput ip;;
          ret None
      | None =>
          d <- geti dp;
          ip <- ialloc (i_dev d) type;
          ilock ip;;
          modi ip (λ x, x <| i_major := s16 major |> <| i_minor := s16 minor |> <| i_nlink := 1 |>);;
          iupdate ip;;
          x <- geti ip;
          when (type =? T_DIR)
            (add_nlink dp 1;;
             r1 <- dirlink ip (cz [DOT]) (i_inum x);
             if r1 <? 0 then panic "create dots" else
             r2 <- dirlink ip (cz [DOT; DOT]) (i_inum d);
             if r2 <? 0 then panic "create dots" else ret tt);;
          r <- dirlink dp name (i_inum x);
          if r <? 0 then panic "create: dirlink" else
          iunlockput dp;;
          ret (Some ip)
      end
  end.

(** sys_open from the point where the inode is found and locked. *)
Definition open_inode (ip : nat) (omode : Z) : K Z :=
  fo <- filealloc;
  match fo with
  | None => iunlockput ip;; end_op;; ret (-1)
  | Some f =>
      o <- fdalloc f;
      match o with
      | None => fileclose f;; iunlockput ip;; end_op;; ret (-1)
      | Some fd =>
          iunlock ip;;
          end_op;;
          modf f (λ f, f <| f_type := FD_INODE |> <| f_ip := Some ip |> <| f_off := 0 |>
            <| f_readable := Z.land omode O_WRONLY =? 0 |>
            <| f_writable := negb (Z.land omode O_WRONLY =? 0) || negb (Z.land omode O_RDWR =? 0) |>);;
          ret (Z.of_nat fd)
      end
  end.

Definition sys_open : K Z :=
  path <~ argstr 0;
  omode <~ argint 1;
  begin_op;;
  if negb (Z.land omode O_CREATE =? 0) then
    o <- create path T_FILE 0 0;
    match o with None => end_op;; ret (-1) | Some ip => open_inode ip omode end
  else
    o <- namei path;
    match o with
    | None => end_op;; ret (-1)
    | Some ip =>
        ilock ip;;
        x <- geti ip;
        if (i_type x =? T_DIR) && negb (omode =? O_RDONLY) then iunlockput ip;; end_op;; ret (-1)
        else open_inode ip omode
    end.

(** The end of sys_mkdir and sys_mknod. *)
Definition created (o : option nat) : K Z :=
  match o with
  | None => end_op;; ret (-1)
  | Some ip => iunlockput ip;; end_op;; ret 0
  end.

Definition sys_mkdir : K Z :=
  begin_op;;
  path <- argstr 0;
  match path with
  | None => created None
  | Some path => o <- create path T_DIR 0 0; created o
  end.

Definition sys_mknod : K Z :=
  begin_op;;
  path <- argstr 0;
  match path with
  | None => created None
  | Some path =>
      major <- argint 1;
      match major with
      | None => created None
      | Some major =>
          minor <- argint 2;
          match minor with
          | None => created None
          | Some minor => o <- create path T_DEV major minor; created o
          end
      end
  end.

(** The test of [path] against ".." changes only a local variable that is not used
    again. *)
Definition sys_chdir : K Z :=
  i <- myproc;
  begin_op;;
  path <- argstr 0;
  o <- match path with None => ret None | Some path => namei path end;
  match o with
  | None => end_op;; ret (-1)
  | Some ip =>
      ilock ip;;
      x <- geti ip;
      if negb (i_type x =? T_DIR) then iunlockput ip;; end_op;; ret (-1) else
      iunlock ip;;
      p <- getp i;
      d <- deref "curproc->cwd" (p_cwd p);
      iput d;;
      end_op;;
      modp i (λ p, p <| p_cwd := Some ip |>);;
      ret 0
  end.

(** The loop of sys_exec over the user's [argv], [n] entries left. *)
Fixpoint exec_argv (n : nat) (uargv : Z) : K (option (list (list Z))) :=
  match n with
  | O => ret None
  | S n =>
      u <- fetchint uargv;
      match u with
      | None => ret None
      | Some u =>
          if u =? 0 then ret (Some []) else
          a <- fetchstr (u32 u);
          match a with
          | None => ret None
          | Some a => r <- exec_argv n (u32 (uargv + 4)); ret (cons a <$> r)
          end
      end
  end.

Definition sys_exec : K Z :=
  path <~ argstr 0;
  uargv <~ argint 1;
  argv <~ exec_argv MAXARG (u32 uargv);
  exec path argv.

Definition sys_pipe : K Z :=
  a <~ argptr 0 8;
  fs <~ pipealloc;
  fd0 <- fdalloc fs.1;
  fd1 <- match fd0 with None => ret None | Some _ => fdalloc fs.2 end;
  match fd0, fd1 with
  | Some fd0, Some fd1 =>
      store_user a (le_enc 4 (Z.of_nat fd0));;
      store_user (u32 (a + 4)) (le_enc 4 (Z.of_nat fd1));;
      ret 0
  | _, _ =>
      match fd0 with Some fd0 => set_ofile fd0 None | None => ret tt end;;
      fileclose fs.1;;
      fileclose fs.2;;
      ret (-1)
  end.

(** The early return leaves the transaction open, as in the source. *)
Definition sys_cm_setroot : K Z :=
  p <- my;
  begin_op;;
  path <~ argstr 0;
  len <~ argint 1;
  r <- cm_setroot path len (p_container p);
  end_op;;
  ret r.

Definition sys_copy_file : K Z :=
  dir <- argstr 0;
  match dir with
  | None => ret 0
  | Some dir =>
      file <- argstr 1;
      match file with
      | None => ret 0
      | Some file => begin_op;; r <- copy_file dir file; end_op;; ret r
      end
  end.

(** ** The dispatch

    [junk] is what a void system call leaves in %eax. *)
Definition syscalls (junk : Z) (num : Z) : option (K Z) :=
  let void (m : K unit) : K Z := m;; ret junk in
  match num with
  | 1 => Some sys_fork | 2 => Some sys_exit | 3 => Some sys_wait | 4 => Some sys_pipe
  | 5 => Some sys_read | 6 => Some sys_kill | 7 => Some sys_exec | 8 => Some sys_fstat
  | 9 => Some sys_chdir | 10 => Some sys_dup | 11 => Some sys_getpid | 12 => Some sys_sbrk
  | 13 => Some sys_sleep | 14 => Some sys_uptime | 15 => Some sys_open | 16 => Some sys_write
  | 17 => Some sys_mknod | 18 => Some sys_unlink | 19 => Some sys_link | 20 => Some sys_mkdir
  | 21 => Some sys_close | 22 => Some sys_m_get | 23 => Some sys_m_rem
  | 24 => Some sys_cm_create_and_enter | 25 => Some sys_cm_setroot | 26 => Some sys_cm_maxproc
  | 27 => Some sys_copy_file | 28 => Some sys_mutex_create | 29 => Some (void sys_mutex_delete)
  | 30 => Some (void sys_mutex_lock) | 31 => Some (void sys_mutex_unlock)
  | 32 => Some (void sys_cv_wait) | 33 => Some (void sys_cv_signal) | 34 => Some sys_prio_set
  | _ => None
  end.

Definition syscall (junk : Z) : K unit :=
  i <- myproc;
  p <- getp i;
  let set_eax (v : Z) := modp i (λ p, p <| p_tf ::= λ t, t <| tf_eax := u32 v |> |>) in
  match syscalls junk (s32 (tf_eax (p_tf p))) with
  | Some m => r <- m; set_eax r
  | None => set_eax (-1)
  end.

End sysfile.
