(* ===== verification/Trap.v ===== *)
(** * Traps (trap.c)

    One CPU: [cpuid()] is 0.  The interrupt controller's acknowledgement and console
    output change no state of the model. *)
From S2P Require Import Prelude Mem CString Mmu Kalloc Vm KState Sched Mutex Shm Bytes Bio Log Fs Pipe FileTab Proc Exec Syscall Sysfile.

Abbreviation T_IRQ0 := 32%Z.
Abbreviation T_SYSCALL := 64%Z.
Abbreviation IRQ_TIMER := 0%Z.
Abbreviation IRQ_KBD := 1%Z.
Abbreviation IRQ_COM1 := 4%Z.
Abbreviation IRQ_IDE := 14%Z.
Abbreviation IRQ_SPURIOUS := 31%Z.
Definition DPL_USER : Z := 3.

(** ideintr of memide.c. *)
Definition ideintr : K unit := ret tt.

(** [ticks++; wakeup(&ticks)] under the lock. *)
Definition tick : K unit :=
  acquire Ltickslock;;
  modify (λ s, s <| k_ticks ::= λ t, u32 (t + 1) |>);;
  wakeup ChTicks;;
  release Ltickslock.

Section trap.
  Context `{Linker} `{Bound} `{Devices}.
  (** The console's interrupt handlers. *)
  Context (kbdintr uartintr : K unit).

(** [if (myproc()->killed) exit()] *)
Definition exit_if_killed : K unit :=
  p <- my; if p_killed p =? 0 then ret tt else exit.

(** [if (myproc() && myproc()->killed && (tf->cs & 3) == DPL_USER) exit()] *)
Definition exit_if_user_killed (tf : trapframe) : K unit :=
  cur <- gets k_cur;
  match cur with
  | None => ret tt
  | Some i =>
      p <- getp i;
      if negb (p_killed p =? 0) && (Z.land (tf_cs tf) 3 =? DPL_USER) then exit else ret tt
  end.

(** The switch on [tf->trapno]. *)
Definition trap_irq (tf : trapframe) : K unit :=
  let no := tf_trapno tf in
  if no =? T_IRQ0 + IRQ_TIMER then tick else
  if no =? T_IRQ0 + IRQ_IDE then ideintr else
  if no =? T_IRQ0 + IRQ_IDE + 1 then ret tt else
  if no =? T_IRQ0 + IRQ_KBD then kbdintr else
  if no =? T_IRQ0 + IRQ_COM1 then uartintr else
  if (no =? T_IRQ0 + 7) || (no =? T_IRQ0 + IRQ_SPURIOUS) then ret tt else
  cur <- gets k_cur;
  match cur with
  | None => panic "trap"
  | Some i =>
      if Z.land (tf_cs tf) 3 =? 0 then panic "trap" else
      modp i (λ p, p <| p_killed := 1 |>)
  end.

Definition trap (junk : Z) (tf : trapframe) : K unit :=
  if tf_trapno tf =? T_SYSCALL then
    exit_if_killed;;
    i <- myproc;
    modp i (λ p, p <| p_tf := tf |>);;
    syscall junk;;
    exit_if_killed
  else
    trap_irq tf;;
    exit_if_user_killed tf;;
    cur <- gets k_cur;
    match cur with
    | None => ret tt
    | Some i =>
        p <- getp i;
        if decide (p_state p = RUNNING) then
          when (tf_trapno tf =? T_IRQ0 + IRQ_TIMER) yield
        else ret tt
    end;;
    exit_if_user_killed tf.

End trap.
