(* ===== verification/SysThm.v ===== *)
(** * System call arguments, the dispatch and the timer interrupt

    The checks on user pointers keep every access of a system call inside the
    process; unknown system calls are refused; a timer interrupt preempts. *)
From S2P Require Import Prelude Mem CString Mmu Kalloc Vm KState Sched Fs Syscall Sysfile Trap.

Lemma my_run i p s : k_cur s = Some i → k_ptable s !! i = Some p → my s = Ok p s.
Proof. intros Hi Hp. unfold my. by run (myproc_run i); [apply getp_run|]. Qed.

(** C39: a pointer argument that argptr accepts points to [size] bytes inside the
    process: the additions of its test do not wrap around. *)
Theorem argptr_in_bounds n size a i p s s' :
  k_cur s = Some i → k_ptable s !! i = Some p → p_sz p ≤ KERNBASE → size < 2 ^ 31 →
  argptr n size s = Ok (Some a) s' → 0 ≤ size ∧ 0 ≤ a < p_sz p ∧ a + size ≤ p_sz p.
Proof.
  intros Hi Hp Hsz Hs E. unfold argptr in E. erewrite bind_ok in E by (by eapply my_run).
  apply bind_Ok_inv in E as (v & s1 & _ & E). destruct v as [v|]; [|done].
  destruct (size <? 0) eqn:E1; [done|]. destruct (p_sz p <=? u32 v) eqn:E2; [done|].
  destruct (p_sz p <? u32 (u32 v + size)) eqn:E3; [done|]. injection E as <- <-.
  apply Z.ltb_ge in E1. apply Z.leb_gt in E2. apply Z.ltb_ge in E3.
  pose proof (Z.mod_pos_bound v (2 ^ 32)). unfold KERNBASE in Hsz.
  rewrite u32_small in E3; unfold u32 in *; lia.
Qed.

Lemma fetchstr_loop_spec pgdir a n str s s' :
  fetchstr_loop pgdir a n s = Ok (Some str) s' → (length str < n)%nat ∧ (0 ∉ str).
Proof.
  revert a str s. induction n as [|n IH]; intros a str s E; [done|]. cbn [fetchstr_loop] in E.
  apply bind_Ok_inv in E as (c & s1 & _ & E). destruct (Z.eqb_spec c 0) as [->|Hc].
  - injection E as <- <-. split; [simpl; lia|apply not_elem_of_nil].
  - apply bind_Ok_inv in E as (r & s2 & Hr & E). destruct r as [r|]; [|done]. injection E as <- <-.
    apply IH in Hr as [??]. split; [simpl; lia|]. apply not_elem_of_cons. by split.
Qed.

(** A string argument that fetchstr accepts, with its terminating NUL, lies inside
    the process. *)
Theorem fetchstr_in_bounds a str i p s s' :
  k_cur s = Some i → k_ptable s !! i = Some p → fetchstr a s = Ok (Some str) s' →
  a + Z.of_nat (length str) < p_sz p ∧ 0 ∉ str.
Proof.
  intros Hi Hp E. unfold fetchstr in E. erewrite bind_ok in E by (by eapply my_run).
  destruct (p_sz p <=? a) eqn:Ea; [done|]. apply Z.leb_gt in Ea. unfold pm_do, zoom in E.
  destruct (fetchstr_loop _ _ _ _) eqn:El in E; try done. simpl in E. injection E as -> <-.
  apply fetchstr_loop_spec in El as [??]. split; [lia|done].
Qed.

Section dispatch.
  Context `{Linker} `{Bound} `{Devices}.

Lemma syscalls_known junk num : 1 ≤ num ≤ 34 ↔ is_Some (syscalls junk num).
Proof.
  split.
  - intros Hn. assert (∃ k, num = Z.of_nat k ∧ k ∈ seq 1 34) as (k & -> & Hk).
    { exists (Z.to_nat num). rewrite elem_of_seq. lia. }
    repeat (apply elem_of_cons in Hk as [->|Hk]; [by eexists|]). by apply elem_of_nil in Hk.
  - intros [m Hm]. destruct (decide (1 ≤ num ≤ 34)) as [?|Hn]; [done|]. exfalso.
    unfold syscalls in Hm. destruct num as [|q|q]; [done| |done].
    do 6 (destruct q as [q|q|]; try done; simpl in Hm; try (exfalso; clear - Hn; lia)).
Qed.

(** The dispatch refuses exactly the numbers outside 1..34: the caller's %eax
    becomes -1 and nothing else changes. *)
Theorem syscall_unknown junk i p s :
  k_cur s = Some i → k_ptable s !! i = Some p →
  ¬ (1 ≤ s32 (tf_eax (p_tf p)) ≤ 34) →
  syscall junk s = Ok tt (s <| k_ptable ::= <[i := p <| p_tf ::= λ t, t <| tf_eax := 0xFFFFFFFF |> |>]> |>).
Proof.
  intros Hi Hp Hn. unfold syscall. run (myproc_run i); [|done]. run (getp_run i p); [|done].
  destruct (syscalls junk _) eqn:E.
  - exfalso. apply Hn, (syscalls_known junk). by eexists.
  - by rewrite (modp_run i p).
Qed.

(** A timer interrupt in user mode advances the tick count, wakes the processes
    that sleep on it and makes the running process give up the processor, runnable. *)
Theorem trap_timer_preempts kbd uart junk tf i p s :
  k_held s = [] → k_cur s = Some i → k_ptable s !! i = Some p → p_state p = RUNNING → p_killed p = 0 →
  tf_trapno tf = T_IRQ0 + IRQ_TIMER →
  ∃ k, trap kbd uart junk tf s =
    Switch (woken ChTicks s <| k_ticks ::= λ t, u32 (t + 1) |>
            <| k_ptable ::= <[i := p <| p_state := RUNNABLE |>]> |> <| k_held := [Lptable] |>) k.
Proof.
  intros Hh Hi Hp Hst Hk Ht.
  assert (wake_proc (Some ChTicks) p = p) as Hwp.
  { unfold wake_proc. rewrite decide_False; [done|]. rewrite Hst. by intros [??]. }
  assert (tick s = Ok tt (woken ChTicks s <| k_ticks ::= λ t, u32 (t + 1) |>)) as Htick.
  { unfold tick. run acquire_run; [|rewrite Hh; set_solver]. step.
    run wakeup_run; [|simpl; rewrite Hh; set_solver].
    at_state (woken ChTicks s <| k_ticks ::= λ t, u32 (t + 1) |> <| k_held ::= cons Ltickslock |>).
    apply release_top. simpl. rewrite Hh. set_solver. }
  set (s1 := woken ChTicks s <| k_ticks ::= λ t, u32 (t + 1) |>) in *.
  assert (k_ptable s1 !! i = Some p) as Hp1.
  { simpl. by rewrite list_lookup_fmap, Hp; simpl; rewrite Hwp. }
  unfold trap. rewrite Ht. simpl (T_IRQ0 + IRQ_TIMER =? T_SYSCALL). cbv iota.
  assert (trap_irq kbd uart tf s = Ok tt s1) as Hirq by (unfold trap_irq; by rewrite Ht).
  run Hirq. erewrite bind_ok.
  2: { unfold exit_if_user_killed. step. change (k_cur s1) with (k_cur s). rewrite Hi.
       run (getp_run i p); [|done]. by rewrite Hk. }
  cbv beta. step. change (k_cur s1) with (k_cur s). rewrite Hi. eexists. erewrite bind_switch; [reflexivity|].
  run (getp_run i p); [|done]. rewrite decide_True by done. simpl when. unfold yield.
  run acquire_run; [|simpl; rewrite Hh; set_solver]. run (myproc_run i); [|done].
  run (modp_run i p); [|done].
  at_state (s1 <| k_ptable ::= <[i := p <| p_state := RUNNABLE |>]> |> <| k_held := [Lptable] |>).
  erewrite bind_switch; [reflexivity|]. apply (sched_run i (p <| p_state := RUNNABLE |>)); try done. simpl.
  by rewrite list_lookup_insert_eq by (rewrite length_fmap; by eapply lookup_lt_Some).
Qed.
End dispatch.
