(* ===== verification/PQueue.v ===== *)
(** * The priority queue (pqueue_enqueue)

    Entering a process changes only queue fields, and keeps the [next] links free of
    cycles, also when the process is still linked in some bin. *)
From S2P Require Import Prelude Mem Mmu Kalloc KState Sched Proc.

(** ** Acyclic links *)

Definition next_of (tbl : list proc) (p : nat) : option nat := x ← tbl !! p; p_next x.

(** The links go down in some rank and stay in the table. *)
Definition ranked (rk : nat → nat) (tbl : list proc) : Prop :=
  ∀ p q, next_of tbl p = Some q → (q < length tbl)%nat ∧ (rk q < rk p)%nat.
Definition acyclic (tbl : list proc) : Prop := ∃ rk, ranked rk tbl.

Lemma next_of_insert tbl i x p :
  (i < length tbl)%nat → next_of (<[i := x]> tbl) p = if decide (p = i) then p_next x else next_of tbl p.
Proof.
  intros Hi. unfold next_of. case_decide; subst.
  - by rewrite list_lookup_insert_eq.
  - by rewrite list_lookup_insert_ne.
Qed.

Lemma acyclic_ext tbl tbl' :
  length tbl' = length tbl → (∀ p q, next_of tbl' p = Some q → next_of tbl p = Some q) →
  acyclic tbl → acyclic tbl'.
Proof. intros Hl Hn [rk Hrk]. exists rk. intros p q Hq%Hn%Hrk. by rewrite Hl. Qed.

(** Linking a process without successor behind another. *)
Lemma acyclic_link tbl t p y x :
  acyclic tbl → tbl !! t = Some y → (p < length tbl)%nat → p_next x = None →
  acyclic (<[p := x]> (<[t := y <| p_next := Some p |>]> tbl)).
Proof.
  intros [rk Hrk] Ht Hp Hx. exists (λ v, if decide (v = p) then O else S (rk v)).
  pose proof (lookup_lt_Some _ _ _ Ht). intros a b.
  rewrite next_of_insert by (by rewrite length_insert). case_decide; [by rewrite Hx|].
  rewrite next_of_insert by done. rewrite !length_insert. case_decide; simpl.
  - intros [= <-]. rewrite decide_True by done. lia.
  - intros [??]%Hrk. case_decide; lia.
Qed.

(** Taking out the successor of a process. *)
Lemma acyclic_unlink tbl p x q :
  acyclic tbl → tbl !! p = Some x → p_next x = Some q →
  acyclic (<[p := x <| p_next := next_of tbl q |>]> tbl).
Proof.
  intros [rk Hrk] Hp Hq. exists rk. pose proof (lookup_lt_Some _ _ _ Hp). intros a b.
  rewrite next_of_insert by done. rewrite length_insert. case_decide; subst; simpl; [|apply Hrk].
  intros Hb. destruct (Hrk q b Hb). destruct (Hrk p q); [unfold next_of; by rewrite Hp|]. lia.
Qed.

(** ** Entering a process *)

(** The bins of the priority queue: a bin with a head has a tail in the table. *)
Definition queue_ok (s : kst) : Prop :=
  length (k_pqueue s) = NBIN ∧
  ∀ b l, k_pqueue s !! b = Some l → is_Some (l_head l) →
    ∃ t, l_tail l = Some t ∧ (t < length (k_ptable s))%nat.

(** Two tables that differ only in the queue fields of their entries. *)
Definition same_but_queue (x y : proc) : Prop :=
  y <| p_priority := p_priority x |> <| p_next := p_next x |> = x.

#[export] Instance same_but_queue_refl : Reflexive same_but_queue.
Proof. by intros []. Qed.
#[export] Instance same_but_queue_trans : Transitive same_but_queue.
Proof. unfold same_but_queue. intros a b c <- <-. by destruct c. Qed.
Lemma same_but_queue_prio x y v : same_but_queue x y → same_but_queue x (y <| p_priority := v |>).
Proof. by destruct x, y. Qed.
Lemma same_but_queue_next x y v : same_but_queue x y → same_but_queue x (y <| p_next := v |>).
Proof. by destruct x, y. Qed.
Lemma same_but_queue_id x y : same_but_queue x y → p_pid y = p_pid x ∧ p_state y = p_state x.
Proof. intros <-. done. Qed.

Lemma Forall2_insert_queue l l' i f x :
  Forall2 same_but_queue l l' → l' !! i = Some x → (∀ y, same_but_queue y x → same_but_queue y (f x)) →
  Forall2 same_but_queue l (<[i := f x]> l').
Proof.
  intros HF Hx Hf. apply Forall2_same_length_lookup. split.
  { rewrite length_insert. by eapply list.Forall2_length. }
  intros j a b Ha Hb. destruct (decide (j = i)) as [->|].
  - rewrite list_lookup_insert_eq in Hb by (by eapply lookup_lt_Some). simplify_eq.
    apply Hf. by eapply Forall2_lookup_lr.
  - rewrite list_lookup_insert_ne in Hb by done. by eapply Forall2_lookup_lr.
Qed.

Lemma getbin_run b l s :
  0 ≤ b → k_pqueue s !! Z.to_nat b = Some l → getbin b s = Ok l s.
Proof.
  intros Hb Hl. unfold getbin, bind. simpl. rewrite (proj2 (Z.ltb_ge _ _)) by done. by rewrite Hl.
Qed.

Lemma modbin_run b l f s :
  0 ≤ b → k_pqueue s !! Z.to_nat b = Some l →
  modbin b f s = Ok tt (s <| k_pqueue ::= <[Z.to_nat b := f l]> |>).
Proof. intros Hb Hl. unfold modbin, bind. by rewrite (getbin_run b l). Qed.

(** The part of pqueue_enqueue that links the process in. *)
Definition enqueue_link (p : nat) (pr : Z) (bin : plist) : K unit :=
  match l_head bin with
  | None => modbin pr (λ b, b <| l_head := Some p |> <| l_tail := Some p |>)
  | Some _ =>
      t <- deref "bin->tail" (l_tail bin);
      modp t (λ x, x <| p_next := Some p |>);;
      modbin pr (λ b, b <| l_tail := Some p |>)
  end.

Lemma enqueue_link_run p pr bin s :
  0 ≤ pr → k_pqueue s !! Z.to_nat pr = Some bin → (p < length (k_ptable s))%nat → queue_ok s →
  ∃ tbl bin', enqueue_link p pr bin s =
      Ok tt (s <| k_ptable := tbl |> <| k_pqueue ::= <[Z.to_nat pr := bin']> |>) ∧
    Forall2 same_but_queue (k_ptable s) tbl ∧ l_tail bin' = Some p ∧
    (∀ j x y, k_ptable s !! j = Some x → tbl !! j = Some y → p_priority y = p_priority x) ∧
    (acyclic (k_ptable s) → ∀ x, p_next x = None → acyclic (<[p := x]> tbl)).
Proof.
  intros Hpr Hbin Hp [_ Hq]. unfold enqueue_link. destruct (l_head bin) as [h|] eqn:Eh.
  - destruct (Hq _ _ Hbin) as (t & Ht & Htl); [by rewrite Eh|]. rewrite Ht. step.
    destruct (lookup_lt_is_Some_2 (k_ptable s) t) as [y Hy]; [done|]. run (modp_run t y); [|done].
    rewrite (modbin_run pr bin) by done.
    eexists (<[t := y <| p_next := Some p |>]> (k_ptable s)), _. split; [f_equal; by apply kst_ext|].
    split; [|split; [done|split]].
    + apply (Forall2_insert_queue _ _ t (λ z, z <| p_next := Some p |>)); [|done|].
      * done.
      * intros z. apply same_but_queue_next.
    + intros j x z Hx. destruct (decide (j = t)) as [->|].
      * rewrite list_lookup_insert_eq by done. intros [= <-]. simpl. congruence.
      * rewrite list_lookup_insert_ne by done. congruence.
    + intros Hac z Hz. by apply acyclic_link.
  - rewrite (modbin_run pr bin) by done. exists (k_ptable s), (bin <| l_head := Some p |> <| l_tail := Some p |>).
    split; [f_equal; by apply kst_ext|]. split; [done|split; [done|split; [congruence|]]].
    intros Hac z Hz. eapply acyclic_ext; [| |exact Hac]; [by rewrite length_insert|].
    intros a b. rewrite next_of_insert by done. case_decide; [by rewrite Hz|done].
Qed.

(** Entering a process in the queue changes only queue fields. *)
Lemma pqueue_enqueue_run p x pr s :
  Lpqueue ∉ k_held s → k_ptable s !! p = Some x → 0 ≤ pr < Z.of_nat NBIN → queue_ok s →
  ∃ tbl pq, pqueue_enqueue p pr s = Ok tt (s <| k_ptable := tbl |> <| k_pqueue := pq |>) ∧
    Forall2 same_but_queue (k_ptable s) tbl ∧ queue_ok (s <| k_ptable := tbl |> <| k_pqueue := pq |>) ∧
    (∃ y, tbl !! p = Some y ∧ p_priority y = pr) ∧
    (∀ j x y, j ≠ p → k_ptable s !! j = Some x → tbl !! j = Some y → p_priority y = p_priority x) ∧
    (acyclic (k_ptable s) → acyclic tbl).
Proof.
  intros Hh Hp Hpr Hq. pose proof (lookup_lt_Some _ _ _ Hp) as Hlt.
  unfold pqueue_enqueue. run (modp_run p x); [|done]. run acquire_run; [|done].
  destruct (lookup_lt_is_Some_2 (k_pqueue s) (Z.to_nat pr)) as [bin Hbin]; [destruct Hq; lia|].
  run (getbin_run pr bin); [|lia|done]. fold (enqueue_link p pr bin).
  set (s1 := s <| k_ptable ::= <[p := x <| p_priority := pr |>]> |> <| k_held ::= cons Lpqueue |>).
  change (s <| k_ptable ::= _ |> <| k_held ::= _ |>) with s1.
  assert (Forall2 same_but_queue (k_ptable s) (k_ptable s1)) as HF1.
  { simpl. apply (Forall2_insert_queue _ _ p (λ z, z <| p_priority := pr |>)); [|done|].
    - done.
    - intros z. apply same_but_queue_prio. }
  assert (queue_ok s1) as Hq1 by (destruct Hq; split; [done|simpl; by rewrite length_insert]).
  destruct (enqueue_link_run p pr bin s1) as (tbl & bin' & Hr & HF & Htl & Hprio & Hac);
    [lia|done|by simpl; rewrite length_insert|done|].
  run Hr. run (modbin_run pr bin'); [|lia|simpl; by rewrite list_lookup_insert_eq by (by eapply lookup_lt_Some)].
  pose proof (list.Forall2_length _ _ _ HF) as Hlen. simpl in Hlen. rewrite length_insert in Hlen.
  destruct (lookup_lt_is_Some_2 tbl p) as [y Hy]; [lia|]. run (modp_run p y); [|done].
  rewrite (release_run _ _ (k_held s)) by done.
  eexists (<[p := y <| p_next := None |>]> tbl), _. split; [f_equal; by apply kst_ext|]. split_and!.
  - apply (Forall2_insert_queue _ _ p (λ z, z <| p_next := None |>)); [|done|intros z; apply same_but_queue_next].
    by etrans.
  - destruct Hq as [Hql Hq]. split; simpl; [by rewrite !length_insert|].
    intros b l Hb Hhd. rewrite length_insert. destruct (decide (b = Z.to_nat pr)) as [->|].
    + rewrite list_insert_insert_eq, list_lookup_insert_eq in Hb by (by eapply lookup_lt_Some).
      simplify_eq. exists p. split; [done|lia].
    + rewrite !list_lookup_insert_ne in Hb by done. destruct (Hq b l Hb Hhd) as (t & ? & ?).
      exists t. split; [done|lia].
  - eexists. split; [by rewrite list_lookup_insert_eq by lia|]. simpl.
    rewrite (Hprio p (x <| p_priority := pr |>) y); [done| |done].
    simpl. by rewrite list_lookup_insert_eq.
  - intros j a b Hj Ha. rewrite list_lookup_insert_ne by done. apply Hprio. simpl.
    by rewrite list_lookup_insert_ne.
  - intros Hcy. apply Hac; [|done]. simpl. eapply acyclic_ext; [| |exact Hcy]; [by rewrite length_insert|].
    intros a b. rewrite next_of_insert by done. case_decide as E; [|done]. subst. unfold next_of. by rewrite Hp.
Qed.
