(* ===== verification/ProcThm.v ===== *)
(** * Properties of processes and containers *)
From S2P Require Import Prelude Mem CString Mmu Kalloc Vm KState Sched Mutex Shm Bio Log Fs Pipe FileTab Proc PQueue.

(** ** kill *)

(** The mutexes a process can use are entries of mtable. *)
Definition mutexes_ok (p : proc) (s : kst) : Prop :=
  length (p_mutex p) = MUX_MAXNUM ∧
  ∀ k m, p_mutex p !! k = Some (Some m) → (m < length (k_mtable s))%nat.

Lemma kill_mutex_run i k p s :
  k_ptable s !! i = Some p → mutexes_ok p s → (k < MUX_MAXNUM)%nat →
  ∃ mt, kill_mutex i k s = Ok tt (s <| k_mtable := mt |>) ∧ length mt = length (k_mtable s) ∧
    ∀ m, Some m ∉ p_mutex p → mt !! m = k_mtable s !! m.
Proof.
  intros Hp [Hlen Hok] Hk. unfold kill_mutex. run (getp_run i p); [|done].
  destruct (lookup_lt_is_Some_2 (p_mutex p) k) as [o Ho]; [lia|]. rewrite Ho. simpl. unfold bind at 1. simpl.
  destruct o as [m|]; [|exists (k_mtable s); split; [by destruct s|done]].
  specialize (Hok k m Ho). destruct (lookup_lt_is_Some_2 (k_mtable s) m) as [x Hx]; [lia|].
  assert (∃ x1 s1, when (bool_decide (p_state p = SLEEPING) && bool_decide (p_chan p = Some (ChMutex m)))
      (modmux m (λ x, x <| m_cv := (cas (m_cv x) 0 1).1 |>)) s = Ok tt s1 ∧
      s1 = s <| k_mtable ::= <[m := x1]> |>) as (x1 & s1 & Hw & ->).
  { destruct (_ && _).
    - eexists _, _. split; [by apply modmux_run|]. done.
    - exists x, s. split; [done|]. destruct s; simpl in *. unfold upd, upd_k_mtable. simpl.
      by rewrite list_insert_id. }
  run Hw. assert (<[m := x1]> (k_mtable s) !! m = Some x1) as Hx1
    by (by rewrite list_lookup_insert_eq by lia).
  run (getmux_run m x1); [|done].
  destruct (m_refcount x1 =? 1); (eexists; split; [rewrite (modmux_run m x1) by done; by destruct s|]);
    simpl; rewrite !length_insert; (split; [done|]); intros m' Hm';
    rewrite !list_lookup_insert_ne; try done; intros ->; by eapply Hm', list_elem_of_lookup_2.
Qed.

(** What kill makes of a process. *)
Definition killed (p : proc) : proc :=
  if decide (p_state p = SLEEPING) then p <| p_killed := 1 |> <| p_state := RUNNABLE |>
  else p <| p_killed := 1 |>.

(** kill of the process at index [i]: only that process and mutexes change. *)
Lemma kill_found i p s :
  k_held s = [] → k_ptable s !! i = Some p → mutexes_ok p s →
  ∃ mt, (acquire Lptable;;
         modp i (λ p, p <| p_killed := 1 |>);;
         acquire Lmtable;;
         forM (seq 0 MUX_MAXNUM) (kill_mutex i);;
         release Lmtable;;
         p <- getp i;
         when (bool_decide (p_state p = SLEEPING)) (modp i (λ p, p <| p_state := RUNNABLE |>));;
         release Lptable;;
         ret 0) s =
    Ok 0 (s <| k_ptable ::= <[i := killed p]> |> <| k_mtable := mt |>) ∧
    length mt = length (k_mtable s) ∧ ∀ m, Some m ∉ p_mutex p → mt !! m = k_mtable s !! m.
Proof.
  intros Hh Hp Hok. set (p' := p <| p_killed := 1 |>). set (s1 := s <| k_ptable ::= <[i := p']> |> <| k_held := [Lmtable; Lptable] |>).
  destruct (forM_inv (λ t, ∃ mt, t = s1 <| k_mtable := mt |> ∧ length mt = length (k_mtable s) ∧
      ∀ m, Some m ∉ p_mutex p → mt !! m = k_mtable s !! m)
    (seq 0 MUX_MAXNUM) (kill_mutex i) s1) as (s2 & Hr & mt & -> & Hmt).
  { exists (k_mtable s). by destruct s. }
  { intros k t Hk%elem_of_seq (mt & -> & Hmt & Hms).
    destruct (kill_mutex_run i k p' (s1 <| k_mtable := mt |>)) as (mt' & Hr & Hl' & Hs'); [..|lia|].
    - simpl. by rewrite list_lookup_insert_eq by (by eapply lookup_lt_Some).
    - destruct Hok as [? Hm]. split; [done|]. simpl. by rewrite Hmt.
    - eexists. split; [exact Hr|]. exists mt'. split; [done|]. simpl in Hl', Hs'. split; [congruence|].
      intros m Hm. by rewrite Hs', Hms. }
  exists mt. split; [|done].
  run acquire_run; [|rewrite Hh; set_solver]. run (modp_run i p); [|done].
  run acquire_run; [|simpl; rewrite Hh; set_solver].
  at_state s1. run Hr. run (release_run Lmtable _ [Lptable]); [|done|set_solver].
  assert (k_ptable s1 !! i = Some p') as Hp1.
  { simpl. by rewrite list_lookup_insert_eq by (by eapply lookup_lt_Some). }
  run (getp_run i p'); [|done]. unfold killed. case_decide as Hst.
  - rewrite bool_decide_true by done. simpl. run (modp_run i p'); [|done].
    run (release_run Lptable _ []); [|done|set_solver]. unfold ret. f_equal.
    apply kst_ext; try done; simpl. by rewrite list_insert_insert_eq.
  - rewrite bool_decide_false by done. simpl. step.
    run (release_run Lptable _ []); [|done|set_solver]. unfold ret. f_equal. kst_eq.
Qed.

(** C36: kill acts inside the caller's container only.  It marks the first process with
    the given pid and the caller's container id as killed, makes it runnable when it
    sleeps, and changes no other process and no mutex that process has no access to;
    when there is none it returns -1 and changes nothing. *)
Theorem kill_contained pid cur me s :
  k_held s = [] → k_cur s = Some cur → k_ptable s !! cur = Some me →
  (∀ p, p ∈ k_ptable s → mutexes_ok p s) →
  match find_index (λ p, (p_pid p =? pid) && (p_container_id p =? p_container_id me)) (k_ptable s) with
  | None => kill pid s = Ok (-1) s
  | Some i => ∃ p mt, k_ptable s !! i = Some p ∧ p_pid p = pid ∧
      p_container_id p = p_container_id me ∧ length mt = length (k_mtable s) ∧
      (∀ m, Some m ∉ p_mutex p → mt !! m = k_mtable s !! m) ∧
      kill pid s = Ok 0
        (s <| k_ptable ::= <[i := killed p]> |> <| k_mtable := mt |>)
  end.
Proof.
  intros Hh Hc Hme Hok. unfold kill. destruct (find_index _ _) as [i|] eqn:E.
  - pose proof E as (p & Hp & [Hpid%Z.eqb_eq Hcid%Z.eqb_eq]%andb_true_iff & _)%find_index_Some.
    destruct (kill_found i p s Hh Hp) as (mt & Hr & Hmt & Hms); [by apply Hok; eapply list_elem_of_lookup_2|].
    exists p, mt. split_and!; try done. run (myproc_run cur); [|done]. run (getp_run cur me); [|done].
    run acquire_run; [|rewrite Hh; set_solver]. step.
    change (k_ptable (s <| k_held ::= cons Lptable |>)) with (k_ptable s). rewrite E.
    erewrite bind_ok in Hr; [|apply acquire_run; rewrite Hh; set_solver]. rewrite Hr.
    done.
  - run (myproc_run cur); [|done]. run (getp_run cur me); [|done].
    run acquire_run; [|rewrite Hh; set_solver]. step.
    change (k_ptable (s <| k_held ::= cons Lptable |>)) with (k_ptable s). rewrite E.
    run release_top; [|rewrite Hh; set_solver]. done.
Qed.

(** Two processes share mutex 0, which the first one has locked; the second runs. *)
Definition shared_mutex : kst :=
  let p1 := proc0 <| p_state := RUNNABLE |> <| p_pid := 1 |> <| p_mutex ::= <[O := Some O]> |> in
  let p2 := proc0 <| p_state := RUNNING |> <| p_pid := 2 |> <| p_mutex ::= <[O := Some O]> |> in
  bss [] <| k_ptable ::= λ l, <[0%nat := p1]> (<[1%nat := p2]> l) |> <| k_cur := Some 1%nat |>
         <| k_mtable ::= <[O := Mutex 1 1 1 (97 :: zeros 19) 2 0 0]> |>.

(** Kill breaks mutual exclusion.  Process 1 is inside its critical section; after
    process 2 is killed (which only shares the mutex) the mutex is unlocked, although
    process 1 has not unlocked it. *)
Theorem kill_unlocks_held_mutex :
  locked_by 0 1 shared_mutex ∧
  ∃ s' x, kill 2 shared_mutex = Ok 0 s' ∧ k_mtable s' !! 0%nat = Some x ∧ m_locked x = 0.
Proof.
  split; [by eexists|]. eexists _, _.
  split; [vm_compute; reflexivity|]. split; [vm_compute; reflexivity|]. reflexivity.
Qed.

(** Kill breaks the reference counts ([refs_ok]), and with them mutual exclusion, a second
    time: it drops a reference of the killed process and leaves the slot.  Process 1
    kills process 2 and locks the mutex; on its way out process 2 deletes the mutex of the
    slot, which has one reference left, and unlocks it under process 1. *)
Theorem kill_then_delete_steals :
  ∃ s1 s2, (kill 2;; @mutex_lock 1%nat 0) (shared_mutex <| k_cur := Some 0%nat |>) = Ok tt s1 ∧ locked_by 0 1 s1 ∧
    mutex_delete 0 (s1 <| k_cur := Some 1%nat |>) = Ok tt s2 ∧ ¬ locked_by 0 1 s2.
Proof.
  eexists _, _. split; [vm_compute; reflexivity|]. split; [eexists; split; [reflexivity|done]|].
  split; [vm_compute; reflexivity|]. intros (x & Hx & Hl & _). vm_compute in Hx. injection Hx as <-. done.
Qed.

(** ** The process budget of a container *)

Lemma getc_run i c s : k_containers s !! i = Some c → getc i s = Ok c s.
Proof. intros Hc. unfold getc, bind. simpl. by rewrite Hc. Qed.

Lemma modc_run i c f s :
  k_containers s !! i = Some c → modc i f s = Ok tt (s <| k_containers ::= <[i := f c]> |>).
Proof. intros Hc. unfold modc, bind. by rewrite (getc_run i c). Qed.

Section fork.
  Context `{Linker} `{Bound} `{Devices}.

(** The container's budget as fork's first lines leave it. *)
Definition spent (ci : nat) (c : container) (s : kst) : kst :=
  s <| k_containers ::= <[ci := c <| c_nproc ::= λ n, u32 (n - 1) |>]> |>.

Lemma fork_budget_run cur p ci c s :
  k_ptable s !! cur = Some p → p_container_id p ≠ 0 → p_container p = Some ci →
  k_containers s !! ci = Some c →
  fork_budget cur s = if decide (c_nproc c = 0) then Ok false s else Ok true (spent ci c s).
Proof.
  intros Hp Hid Hci Hc. unfold fork_budget. run (getp_run cur p); [|done].
  rewrite (proj2 (Z.eqb_neq _ _)) by done. rewrite Hci. simpl. step. run (getc_run ci c); [|done].
  case_decide as E; [by rewrite (proj2 (Z.eqb_eq _ _) E)|].
  rewrite (proj2 (Z.eqb_neq _ _) E). by run (modc_run ci c); [|done].
Qed.

Lemma allocproc_full pr s :
  Lptable ∉ k_held s → (∀ q, q ∈ k_ptable s → p_state q ≠ UNUSED) → allocproc pr s = Ok None s.
Proof.
  intros Hh Hfull. unfold allocproc. run acquire_run; [|done]. step.
  rewrite (proj2 (find_index_None _ _)); [|intros q Hq; by apply bool_decide_false, Hfull].
  by run release_top; [|done].
Qed.

(** In a container whose budget [nproc] is used up, fork returns -1 and changes
    nothing. *)
Theorem fork_at_limit cur p ci c s :
  k_cur s = Some cur → k_ptable s !! cur = Some p → p_container_id p ≠ 0 →
  p_container p = Some ci → k_containers s !! ci = Some c → c_nproc c = 0 →
  fork s = Ok (-1) s.
Proof.
  intros Hcur Hp Hid Hci Hc Hn. unfold fork. run (myproc_run cur); [|done].
  erewrite bind_ok; [|by rewrite (fork_budget_run cur p ci c), decide_True]. done.
Qed.

(** A fork that fails for want of a process table entry still costs the container
    one process: it returns -1 with the budget decremented. *)
Theorem fork_failure_spends cur p ci c s :
  k_held s = [] → k_cur s = Some cur → k_ptable s !! cur = Some p → p_container_id p ≠ 0 →
  p_container p = Some ci → k_containers s !! ci = Some c → c_nproc c ≠ 0 →
  (∀ q, q ∈ k_ptable s → p_state q ≠ UNUSED) →
  fork s = Ok (-1) (spent ci c s).
Proof.
  intros Hh Hcur Hp Hid Hci Hc Hn Hfull. unfold fork. run (myproc_run cur); [|done].
  erewrite bind_ok; [|rewrite (fork_budget_run cur p ci c), decide_False by done; done]. cbn beta iota. simpl.
  run (getp_run cur p); [|done]. run allocproc_full; [done|by simpl; rewrite Hh; set_solver|done].
Qed.

End fork.

(** The budget of a container can be set once: after cm_maxproc(n) has succeeded,
    every later call returns -1 and changes nothing. *)
Theorem cm_maxproc_once n n' i p ci c s :
  k_cur s = Some i → k_ptable s !! i = Some p → p_container_id p ≠ 0 → p_container p = Some ci →
  k_containers s !! ci = Some c → c_nproc c = UINT_MAX → 0 ≤ n < 64 →
  ∃ s', cm_maxproc n s = Ok 1 s' ∧
    k_containers s' = <[ci := c <| c_nproc := n |>]> (k_containers s) ∧
    cm_maxproc n' s' = Ok (-1) s'.
Proof.
  intros Hi Hp Hid Hci Hc Hn Hr. eexists. split; [|split].
  - unfold cm_maxproc. rewrite (proj2 (Z.leb_gt _ _)) by (unfold NPROC; lia).
    run (myproc_run i); [|done]. run (getp_run i p); [|done]. rewrite Hci. step. run (getc_run ci c); [|done].
    rewrite Hn, Z.eqb_refl, (proj2 (Z.eqb_neq _ _) Hid). simpl. run (modc_run ci c); done.
  - simpl. by rewrite u32_small by lia.
  - unfold cm_maxproc. case_match; [done|]. run (myproc_run i); [|done]. run (getp_run i p); [|done].
    rewrite Hci. step. run (getc_run ci (c <| c_nproc := n |>)).
    + simpl. rewrite (proj2 (Z.eqb_neq n UINT_MAX)) by (unfold UINT_MAX; lia). done.
    + simpl. rewrite list_lookup_insert_eq by (by eapply lookup_lt_Some).
      by rewrite u32_small by lia.
Qed.

(** ** exit *)

(** What the loop of exit may have done to a process by the time it has passed it
    ([done]): the parent [i] is replaced, and a sleeper may have been woken. *)
Definition passed (i ini : nat) (done : bool) (x y : proc) : Prop :=
  p_parent y = (if done && bool_decide (p_parent x = Some i) then Some ini else p_parent x) ∧
  p_chan y = p_chan x ∧
  (p_state y = p_state x ∨ p_state x = SLEEPING ∧ p_state y = RUNNABLE).

Lemma passed_wake i ini d x y c : passed i ini d x y → passed i ini d x (wake_proc c y).
Proof.
  unfold passed, wake_proc. intros (Hp & Hc & Hs).
  destruct (decide (p_state y = SLEEPING ∧ p_chan y = c)) as [[E _]|_]; [|by split_and!]. simpl.
  split_and!; [done..|]. right. destruct Hs as [Hs|[? Hs]]; [|congruence]. split; [congruence|done].
Qed.

Lemma wake_proc_awake c p : p_chan p = Some c → p_state (wake_proc (Some c) p) ≠ SLEEPING.
Proof. intros Hc. unfold wake_proc. case_decide as E; simpl; [done|]. naive_solver. Qed.

(** The table after the loop has passed [n] entries; [z]: one of them was a zombie
    child, so that init has been woken. *)
Record reparented (i ini n : nat) (tbl tbl' : list proc) : Prop := {
  rp_len : length tbl' = length tbl;
  rp_proc : ∀ j x, tbl !! j = Some x → ∃ y, tbl' !! j = Some y ∧ passed i ini (bool_decide (j < n)%nat) x y;
  rp_init : ∀ j x y, (j < n)%nat → tbl !! j = Some x → p_parent x = Some i → p_state x = ZOMBIE →
    tbl' !! ini = Some y → p_chan y = Some (ChProc ini) → p_state y ≠ SLEEPING;
}.

Lemma reparented_wake i ini n tbl tbl' c :
  reparented i ini n tbl tbl' → reparented i ini n tbl (wake_proc c <$> tbl').
Proof.
  intros [Hl Hp Hi]. split.
  - by rewrite length_fmap.
  - intros j x Hx. destruct (Hp j x Hx) as (y & Hy & Hpa). exists (wake_proc c y).
    rewrite list_lookup_fmap, Hy. split; [done|]. by apply passed_wake.
  - intros j x y Hj Hx Hpx Hz. rewrite list_lookup_fmap. destruct (tbl' !! ini) as [y'|] eqn:E; [|done].
    simpl. intros [= <-]. unfold wake_proc. case_decide; simpl; [done|]. by apply (Hi j x).
Qed.

Lemma wake_proc_chan c p : p_chan (wake_proc c p) = p_chan p.
Proof. unfold wake_proc. by case_decide. Qed.

Lemma wake_proc_parent c p : p_parent (wake_proc c p) = p_parent p.
Proof. unfold wake_proc. by case_decide. Qed.

(** One round of the loop. *)
Lemma reparented_step i ini n tbl tbl' x y :
  reparented i ini n tbl tbl' → tbl !! n = Some x → tbl' !! n = Some y →
  let tbl1 := if bool_decide (p_parent y = Some i) then <[n := y <| p_parent := Some ini |>]> tbl' else tbl' in
  let tbl2 := if bool_decide (p_parent y = Some i) && bool_decide (p_state y = ZOMBIE)
              then wake_proc (Some (ChProc ini)) <$> tbl1 else tbl1 in
  reparented i ini (n + 1) tbl tbl2.
Proof.
  intros [Hl Hp Hi] Hx Hy tbl1 tbl2. destruct (Hp n x Hx) as (y' & Hy' & Hpa & Hch & Hst).
  assert (y' = y) as -> by congruence. clear Hy'.
  rewrite bool_decide_false in Hpa by lia. simpl in Hpa.
  assert (∀ j x, tbl !! j = Some x → ∃ z, tbl1 !! j = Some z ∧ passed i ini (bool_decide (j < n + 1)%nat) x z) as Hp1.
  { intros j xj Hj. destruct (Hp j xj Hj) as (z & Hz & Hpz). unfold tbl1.
    destruct (decide (j = n)) as [->|Hne].
    - assert (xj = x) as -> by congruence. assert (z = y) as -> by congruence.
      rewrite (bool_decide_true (n < n + 1)%nat) by lia. unfold passed. simpl.
      destruct (bool_decide (p_parent y = Some i)) eqn:E;
        [apply bool_decide_eq_true in E|apply bool_decide_eq_false in E].
      + exists (y <| p_parent := Some ini |>).
        rewrite list_lookup_insert_eq by (by eapply lookup_lt_Some). split; [done|].
        rewrite bool_decide_true by congruence. by split_and!.
      + exists y. split; [done|]. rewrite bool_decide_false by congruence. by split_and!.
    - exists z. destruct (bool_decide (p_parent y = Some i)); rewrite ?list_lookup_insert_ne by done; (split; [done|]);
        by replace (bool_decide (j < n + 1)%nat) with (bool_decide (j < n)%nat)
          by (apply bool_decide_ext; lia). }
  assert (length tbl1 = length tbl) as Hl1 by (unfold tbl1; case_bool_decide; by rewrite ?length_insert).
  split.
  - unfold tbl2. destruct (_ && _); by rewrite ?length_fmap.
  - intros j xj Hj. destruct (Hp1 j xj Hj) as (z & Hz & Hpz). unfold tbl2. destruct (_ && _); [|eauto].
    exists (wake_proc (Some (ChProc ini)) z). rewrite list_lookup_fmap, Hz. split; [done|]. by apply passed_wake.
  - intros j xj z Hj Hxj Hpj Hzj Hz Hcz. destruct (decide (j = n)) as [->|Hne].
    + assert (xj = x) as -> by congruence. unfold tbl2 in Hz. destruct Hst as [Hst|[? _]]; [|congruence].
      rewrite !bool_decide_true in Hz by congruence. simpl in Hz.
      rewrite list_lookup_fmap in Hz. destruct (tbl1 !! ini) as [w|]; simplify_eq/=.
      apply wake_proc_awake. by rewrite wake_proc_chan in Hcz.
    + assert (∀ w, tbl1 !! ini = Some w → p_chan w = Some (ChProc ini) → p_state w ≠ SLEEPING) as H1.
      { intros w. unfold tbl1. case_bool_decide; [|by apply (Hi j xj); lia || done].
        destruct (decide (ini = n)) as [->|].
        - rewrite list_lookup_insert_eq by (by eapply lookup_lt_Some). intros [= <-]. simpl.
          by apply (Hi j xj); lia || done.
        - rewrite list_lookup_insert_ne by done. by apply (Hi j xj); lia || done. }
      unfold tbl2 in Hz. destruct (_ && _); [|eauto]. rewrite list_lookup_fmap in Hz.
      destruct (tbl1 !! ini) as [w|] eqn:Ew; simplify_eq/=. rewrite wake_proc_chan in Hcz.
      by apply wake_proc_awake.
Qed.

Lemma reparent_run i ini s :
  k_initproc s = Some ini → length (k_ptable s) = NPROC →
  ∃ tbl, reparent i s = Ok tt (s <| k_ptable := tbl |>) ∧ reparented i ini NPROC (k_ptable s) tbl.
Proof.
  intros Hini Hlen. unfold reparent.
  destruct (forM_seq_inv (λ n t, ∃ tbl, t = s <| k_ptable := tbl |> ∧ reparented i ini n (k_ptable s) tbl)
    NPROC (λ j, x <- getp j;
                init <- gets k_initproc;
                when (bool_decide (p_parent x = Some i))
                  (modp j (λ x, x <| p_parent := init |>);;
                   when (bool_decide (p_state x = ZOMBIE)) (wakeup1 (ChProc <$> init)))) 0 s)
    as (s' & Hr & tbl & -> & Hrp).
  - exists (k_ptable s). split; [by apply kst_ext|]. split; [done| |intros; lia].
    intros j x Hx. exists x. split; [done|]. split_and!; auto.
  - intros j t Hj (tbl & -> & Hrp).
    destruct (lookup_lt_is_Some_2 (k_ptable s) j) as [x Hx]; [lia|].
    destruct (rp_proc _ _ _ _ _ Hrp j x Hx) as (y & Hy & _).
    pose proof (reparented_step i ini j _ _ x y Hrp Hx Hy) as Hst.
    eexists. split; [|eexists; split; [|exact Hst]; reflexivity].
    run (getp_run j y); [|done]. step. simpl. rewrite Hini.
    destruct (bool_decide (p_parent y = Some i)); [|by apply f_equal, kst_ext].
    simpl. run (modp_run j y); [|done].
    destruct (bool_decide (p_state y = ZOMBIE)); simpl; unfold wakeup1, modify, ret; f_equal; by apply kst_ext.
  - eauto.
Qed.

Section exit.
  Context `{Linker} `{Bound} `{Devices}.

(** C37: exit leaves no orphan and loses no wakeup.  When the exiting process gives up
    the processor for the last time it is a zombie and its parent, if it was sleeping
    in wait, is runnable; every child has init as its parent, and init is awake when
    one of them is a zombie; all other processes are as they were.  The process never
    runs again: resuming it panics. *)
Theorem exit_zombie_reparents i p ini s :
  k_held s = [] → k_cur s = Some i → k_ptable s !! i = Some p → k_initproc s = Some ini → ini ≠ i →
  length (k_ptable s) = NPROC →
  ∃ tbl k, exit_zombie i s = Switch (s <| k_ptable := tbl |> <| k_held := [Lptable] |>) k ∧
    (∀ t, k t = Panic "zombie exit") ∧
    (∃ p', tbl !! i = Some p' ∧ p_state p' = ZOMBIE) ∧
    ∀ j x, j ≠ i → k_ptable s !! j = Some x → ∃ y, tbl !! j = Some y ∧
      p_parent y = (if decide (p_parent x = Some i) then Some ini else p_parent x) ∧
      (p_state y = p_state x ∨ p_state x = SLEEPING ∧ p_state y = RUNNABLE) ∧
      (p_parent p = Some j → p_chan x = Some (ChProc j) → p_state y ≠ SLEEPING) ∧
      (j = ini → p_chan x = Some (ChProc ini) →
       (∃ c, c ∈ k_ptable s ∧ p_parent c = Some i ∧ p_state c = ZOMBIE) → p_state y ≠ SLEEPING).
Proof.
  intros Hh Hcur Hp Hini Hne Hlen. unfold exit_zombie.
  run acquire_run; [|rewrite Hh; set_solver]. run (getp_run i p); [|done]. step.
  set (w := ChProc <$> p_parent p).
  set (s1 := s <| k_ptable ::= fmap (wake_proc w) |> <| k_held := [Lptable] |>). at_state s1.
  destruct (reparent_run i ini s1) as (tbl & Hr & [Hl Hrp Hz]); [done|by simpl; rewrite length_fmap|].
  run Hr. destruct (Hrp i (wake_proc w p)) as (pi & Hpi & _); [by simpl; rewrite list_lookup_fmap, Hp|].
  run (modp_run i pi); [|done]. erewrite bind_switch.
  2: { apply (sched_run i (pi <| p_state := ZOMBIE |>)); try done. simpl.
       by rewrite list_lookup_insert_eq by (by eapply lookup_lt_Some). }
  exists (<[i := pi <| p_state := ZOMBIE |>]> tbl), (λ _, Panic "zombie exit"). split_and!; [by f_equal|done|..].
  { eexists. by rewrite list_lookup_insert_eq by (by eapply lookup_lt_Some). }
  intros j x Hj Hx. rewrite list_lookup_insert_ne by done.
  destruct (Hrp j (wake_proc w x)) as (y & Hy & Hpa & Hch & Hst); [by simpl; rewrite list_lookup_fmap, Hx|].
  assert (j < NPROC)%nat as Hjn by (rewrite <-Hlen; by eapply lookup_lt_Some).
  pose proof (wake_proc_parent w) as Hpw.
  rewrite bool_decide_true in Hpa by done. simpl in Hpa. rewrite Hpw in Hpa. rewrite wake_proc_chan in Hch.
  exists y. split; [done|]. split_and!.
  - rewrite Hpa. case_decide; [by rewrite bool_decide_true|by rewrite bool_decide_false].
  - unfold wake_proc in Hst. destruct (decide (p_state x = SLEEPING ∧ p_chan x = w)) as [[E _]|_]; [|done].
    simpl in Hst. right. split; [done|]. destruct Hst as [Hst|[Hst _]]; congruence.
  - intros Hpj Hc. assert (p_state (wake_proc w x) ≠ SLEEPING) as Hnw.
    { unfold w. rewrite Hpj. by apply wake_proc_awake. }
    destruct Hst as [->|[? ->]]; done.
  - intros -> Hc (c & [k Hk]%list_elem_of_lookup_1 & Hcp & Hcz).
    apply (Hz k (wake_proc w c) y); [rewrite <-Hlen; by eapply lookup_lt_Some|..|done|congruence].
    + simpl. by rewrite list_lookup_fmap, Hk.
    + by rewrite Hpw.
    + unfold wake_proc. rewrite decide_False by (intros [? _]; congruence). done.
Qed.

End exit.

(** ** wait *)

Lemma wait_scan_spec cur l i h :
  match wait_scan cur l i h with
  | (Some z, h') => h' = true ∧ ∃ j x, z = (i + j)%nat ∧ l !! j = Some x ∧ p_parent x = Some cur ∧
      p_state x = ZOMBIE
  | (None, h') => (∀ x, x ∈ l → p_parent x = Some cur → p_state x ≠ ZOMBIE) ∧
      (h' = true ↔ h = true ∨ ∃ x, x ∈ l ∧ p_parent x = Some cur)
  end.
Proof.
  revert i h. induction l as [|x l IH]; intros i h; simpl.
  { split; [set_solver|]. split; [by left|]. intros [?|(x & ?%elem_of_nil & _)]; done. }
  destruct (decide (p_parent x = Some cur)) as [Hx|Hx].
  - destruct (decide (p_state x = ZOMBIE)) as [Hz|Hz].
    { split; [done|]. exists O, x. by rewrite Nat.add_0_r. }
    specialize (IH (S i) true). destruct (wait_scan cur l (S i) true) as [[z|] h'].
    + destruct IH as (-> & j & y & -> & ?). split; [done|]. exists (S j), y. split; [lia|done].
    + destruct IH as [IH1 IH2]. split; [set_solver|]. rewrite IH2. split; [|by left].
      intros _. right. exists x. split; [left|done].
  - specialize (IH (S i) h). destruct (wait_scan cur l (S i) h) as [[z|] h'].
    + destruct IH as (-> & j & y & -> & ?). split; [done|]. exists (S j), y. split; [lia|done].
    + destruct IH as [IH1 IH2]. split; [set_solver|]. rewrite IH2. set_solver.
Qed.

Section wait.
  Context `{Linker} `{Bound} `{Devices}.

(** Wait of a process without children returns -1 and changes nothing; with
    children, none of them a zombie, the process goes to sleep on itself, the channel
    exit wakes. *)
Theorem wait_without_zombie cur p s :
  (0 < wakeups)%nat → k_held s = [] → k_cur s = Some cur → k_ptable s !! cur = Some p → p_killed p = 0 →
  (∀ x, x ∈ k_ptable s → p_parent x = Some cur → p_state x ≠ ZOMBIE) →
  ((∀ x, x ∈ k_ptable s → p_parent x ≠ Some cur) → wait s = Ok (-1) s) ∧
  ((∃ x, x ∈ k_ptable s ∧ p_parent x = Some cur) →
   ∃ k, wait s = Switch (s <| k_ptable ::= <[cur := asleep (ChProc cur) p]> |> <| k_held := [Lptable] |>) k).
Proof.
  intros Hw Hh Hcur Hp Hk Hnz. unfold wait. destruct wakeups as [|n]; [lia|].
  pose proof (wait_scan_spec cur (k_ptable s) 0 false) as Hsc.
  destruct (wait_scan cur (k_ptable s) 0 false) as [[z|] h] eqn:E.
  { destruct Hsc as (_ & j & x & -> & Hx & Hpx & Hzx). exfalso. eapply Hnz; [|done..].
    by eapply list_elem_of_lookup_2. }
  destruct Hsc as [_ Hh']. split.
  - intros Hno. destruct h.
    { destruct (proj1 Hh' eq_refl) as [?|(x & Hx & Hpx)]; [done|]. by apply Hno in Hx. }
    run (myproc_run cur); [|done]. run acquire_run; [|rewrite Hh; set_solver]. cbn [loop].
    erewrite bind_ok; [|step; change (k_ptable (s <| k_held ::= cons Lptable |>)) with (k_ptable s);
      rewrite E; run (getp_run cur p); [|done]; simpl; run release_top; [done|rewrite Hh; set_solver]]. done.
  - intros Hyes. assert (h = true) as -> by (apply Hh'; by right).
    run (myproc_run cur); [|done]. run acquire_run; [|rewrite Hh; set_solver]. cbn [loop].
    destruct (sleep_ptable_run (ChProc cur) cur p (s <| k_held := [Lptable] |>)) as (k & Hs & _); [done..|].
    eexists. erewrite bind_switch; [reflexivity|]. step.
    change (k_ptable (s <| k_held ::= cons Lptable |>)) with (k_ptable s). rewrite E.
    run (getp_run cur p); [|done]. rewrite Hk. simpl. at_state (s <| k_held := [Lptable] |>).
    erewrite bind_switch; [|exact Hs]. f_equal.
Qed.
End wait.

(** ** allocproc *)

(** Live processes have different pids, all given out already. *)
Record pids_ok (s : kst) : Prop := {
  pid_uniq : ∀ i j p q, k_ptable s !! i = Some p → k_ptable s !! j = Some q →
    p_state p ≠ UNUSED → p_state q ≠ UNUSED → p_pid p = p_pid q → i = j;
  pid_bound : ∀ i p, k_ptable s !! i = Some p → p_state p ≠ UNUSED → p_pid p < k_nextpid s;
}.

Lemma pids_ok_pm s pm : pids_ok s → pids_ok (s <| k_pm := pm |>).
Proof. intros [Hu Hb]. by split. Qed.

(** A table in which the live processes are those of [s], and perhaps a new one at
    [i] with the next pid. *)
Lemma pids_ok_new s s' i :
  pids_ok s → k_nextpid s' = k_nextpid s + 1 →
  (∀ j y, k_ptable s' !! j = Some y → p_state y ≠ UNUSED →
     if decide (j = i) then p_pid y = k_nextpid s
     else ∃ x, k_ptable s !! j = Some x ∧ p_pid y = p_pid x ∧ p_state x ≠ UNUSED) →
  pids_ok s'.
Proof.
  intros [Hu Hb] Hn Hnew. split.
  - intros j k p q Hp Hq Hpu Hqu E. pose proof (Hnew j p Hp Hpu) as H1. pose proof (Hnew k q Hq Hqu) as H2.
    destruct (decide (j = i)) as [->|], (decide (k = i)) as [->|]; try done.
    + destruct H2 as (x & Hx & Ex & Hxu). pose proof (Hb k x Hx Hxu). lia.
    + destruct H1 as (x & Hx & Ex & Hxu). pose proof (Hb j x Hx Hxu). lia.
    + destruct H1 as (x & Hx & Ex & ?), H2 as (z & Hz & Ez & ?). eapply Hu; eauto. congruence.
  - intros j p Hp Hpu. pose proof (Hnew j p Hp Hpu) as H1. rewrite Hn. destruct (decide (j = i)); [lia|].
    destruct H1 as (x & Hx & -> & Hxu). pose proof (Hb j x Hx Hxu). lia.
Qed.

Section allocproc.
  Context `{LinkerOk}.

(** The part of allocproc under ptable.lock. *)
Definition embryo (p : proc) : proc :=
  p <| p_container_id := 0 |> <| p_shared_mem ::= fmap (λ e, e <| sh_in_use := 0 |>) |>
    <| p_mutex ::= fmap (λ _, None) |>.

Lemma allocproc_run i x pr s :
  k_held s = [] → find_index (λ p, bool_decide (p_state p = UNUSED)) (k_ptable s) = Some i →
  k_ptable s !! i = Some x → 0 ≤ pr < Z.of_nat NBIN → queue_ok s → 0 < k_nextpid s < 2 ^ 31 - 1 →
  ∃ tbl pq y,
    let s1 := s <| k_nextpid := k_nextpid s + 1 |> <| k_ptable := <[i := embryo y]> tbl |>
                <| k_pqueue := pq |> in
    Forall2 same_but_queue (<[i := x <| p_state := EMBRYO |> <| p_pid := k_nextpid s |>]> (k_ptable s)) tbl ∧
    tbl !! i = Some y ∧
    allocproc pr s =
      (ks <- pm_do kalloc;
       modp i (λ p, p <| p_kstack := ks |>);;
       if ks =? 0 then modp i (λ p, p <| p_state := UNUSED |>);; ret None else
       modp i (λ p, p <| p_context := Ctx 0 0 0 0 kforkret |>);;
       ret (Some i)) s1.
Proof.
  intros Hh Hf Hx Hpr Hq Hn. pose proof (lookup_lt_Some _ _ _ Hx) as Hlt.
  set (x1 := x <| p_state := EMBRYO |> <| p_pid := k_nextpid s |>).
  set (s0 := s <| k_nextpid := k_nextpid s + 1 |> <| k_ptable ::= <[i := x1]> |> <| k_held := [Lptable] |>).
  destruct (pqueue_enqueue_run i x1 pr s0) as (tbl & pq & Hr & HF & Hq' & (y & Hy & _) & _).
  { simpl. set_solver. }
  { simpl. by rewrite list_lookup_insert_eq. }
  { done. }
  { destruct Hq as [Hl Hq]. split; [done|]. intros b bin Hb Hhd. simpl. rewrite length_insert. eauto. }
  exists tbl, pq, y. split_and!; [done|done|]. unfold allocproc.
  run acquire_run; [|rewrite Hh; set_solver]. step.
  change (k_ptable (s <| k_held ::= cons Lptable |>)) with (k_ptable s). rewrite Hf. step.
  run (modp_run i x); [|done]. step.
  match goal with |- bind _ _ ?t = _ => replace t with s0 end.
  2: { apply kst_ext; try done; simpl; [|by rewrite Hh].
       unfold s32. rewrite Z.mod_small by lia. lia. }
  run Hr. run (modp_run i y); [|done]. run (release_run _ _ []); [|done|set_solver].
  f_equal. apply kst_ext; try done.
Qed.

(** The live entries after allocproc has picked [i] and set its fields by [f]. *)
Lemma allocproc_table i x y s tbl f :
  k_ptable s !! i = Some x →
  Forall2 same_but_queue (<[i := x <| p_state := EMBRYO |> <| p_pid := k_nextpid s |>]> (k_ptable s)) tbl →
  tbl !! i = Some y → p_pid (f y) = p_pid y →
  ∀ j z, <[i := f y]> tbl !! j = Some z → p_state z ≠ UNUSED →
    if decide (j = i) then p_pid z = k_nextpid s
    else ∃ w, k_ptable s !! j = Some w ∧ p_pid z = p_pid w ∧ p_state w ≠ UNUSED.
Proof.
  intros Hx HF Hy Hf j z Hz Hzu. pose proof (lookup_lt_Some _ _ _ Hx) as Hlt.
  destruct (decide (j = i)) as [->|Hne].
  - rewrite list_lookup_insert_eq in Hz by (by eapply lookup_lt_Some). injection Hz as <-. rewrite Hf.
    destruct (Forall2_lookup_r _ _ _ _ _ HF Hy) as (w & Hw & [-> _]%same_but_queue_id).
    rewrite list_lookup_insert_eq in Hw by done. by injection Hw as <-.
  - rewrite list_lookup_insert_ne in Hz by done.
    destruct (Forall2_lookup_r _ _ _ _ _ HF Hz) as (w & Hw & [Hp Hs]%same_but_queue_id).
    rewrite list_lookup_insert_ne in Hw by done. exists w. split_and!; [done..|congruence].
Qed.

(** C38: allocproc returns, keeps live pids distinct, and when it finds an entry and a
    page for the kernel stack gives the new process the next, fresh pid and a page
    that was free; it returns 0 only when the table is full or there is no page. *)
Theorem allocproc_fresh_pid pr l s :
  k_held s = [] → 0 ≤ pr < Z.of_nat NBIN → queue_ok s → pids_ok s → 0 < k_nextpid s < 2 ^ 31 - 1 →
  free_pages (k_pm s) l →
  ∃ r s', allocproc pr s = Ok r s' ∧ pids_ok s' ∧
    match r with
    | None => (∀ q, q ∈ k_ptable s → p_state q ≠ UNUSED) ∨ l = []
    | Some i => ∃ p, k_ptable s' !! i = Some p ∧ p_state p = EMBRYO ∧ p_pid p = k_nextpid s ∧
        head l = Some (p_kstack p) ∧ free_pages (k_pm s') (tail l)
    end.
Proof.
  intros Hh Hpr Hq Hpid Hn Hfp.
  destruct (find_index (λ p, bool_decide (p_state p = UNUSED)) (k_ptable s)) as [i|] eqn:Hf.
  2: { assert (∀ q, q ∈ k_ptable s → p_state q ≠ UNUSED) as Hfull.
       { intros q Hqin E. apply (proj1 (find_index_None _ _) Hf) in Hqin. by rewrite bool_decide_true in Hqin. }
       exists None, s. split_and!; [|done|by left]. apply allocproc_full; [rewrite Hh; set_solver|done]. }
  pose proof Hf as (x & Hx & _ & _)%find_index_Some.
  destruct (allocproc_run i x pr s) as (tbl & pq & y & HF & Hy & ->); [done..|].
  pose proof (lookup_lt_Some _ _ _ Hy) as Hlt.
  assert (p_state y = EMBRYO ∧ p_pid y = k_nextpid s) as [Hys Hyp].
  { destruct (Forall2_lookup_r _ _ _ _ _ HF Hy) as (w & Hw & [-> ->]%same_but_queue_id).
    rewrite list_lookup_insert_eq in Hw by (by eapply lookup_lt_Some). by injection Hw as <-. }
  set (s1 := s <| k_nextpid := _ |> <| k_ptable := _ |> <| k_pqueue := _ |>).
  assert (∀ g h : proc → proc, <[i := h (g (embryo y))]> (<[i := g (embryo y)]> (<[i := embryo y]> tbl)) =
    <[i := h (g (embryo y))]> tbl) as Hins by (intros; by rewrite !list_insert_insert_eq).
  destruct l as [|v l].
  - run (pm_do_run kalloc); [|by apply kalloc_empty].
    run (modp_run i (embryo y)); [|simpl; by rewrite list_lookup_insert_eq].
    eexists None, _. split; [|split; [|by right]].
    + rewrite Z.eqb_refl. run (modp_run i (embryo y <| p_kstack := 0 |>)); [done|].
      simpl. by rewrite list_lookup_insert_eq by (rewrite length_insert; done).
    + eapply (pids_ok_new s _ i); [done|done|]. simpl.
      rewrite (Hins (λ p, p <| p_kstack := 0 |>) (λ p, p <| p_state := UNUSED |>)).
      by apply (allocproc_table i x y s tbl (λ p, embryo p <| p_kstack := 0 |> <| p_state := UNUSED |>)).
  - destruct (kalloc_spec (k_pm s) v l Hfp) as (pm & Hk & Hfp' & _ & _).
    pose proof (fp_ok _ _ Hfp) as [Hv%page_ok_nz _]%Forall_cons_1.
    run (pm_do_run kalloc); [|exact Hk].
    run (modp_run i (embryo y)); [|simpl; by rewrite list_lookup_insert_eq].
    eexists (Some i), _. split; [|split].
    + rewrite (proj2 (Z.eqb_neq _ _) Hv). run (modp_run i (embryo y <| p_kstack := v |>)); [done|].
      simpl. by rewrite list_lookup_insert_eq by (rewrite length_insert; done).
    + eapply (pids_ok_new s _ i); [done|done|]. simpl.
      rewrite (Hins (λ p, p <| p_kstack := v |>) (λ p, p <| p_context := Ctx 0 0 0 0 kforkret |>)).
      by apply (allocproc_table i x y s tbl
        (λ p, embryo p <| p_kstack := v |> <| p_context := Ctx 0 0 0 0 kforkret |>)).
    + eexists. split; [simpl; by rewrite list_lookup_insert_eq by (rewrite !length_insert; done)|].
      by split_and!.
Qed.
End allocproc.
