(* ===== verification/Prio.v ===== *)
(** * Priorities: prio_set and the links of the priority queue

    The walks of prio_set along the bins end, because the links never form a cycle
    (PQueue.v).  A call that succeeds never gives a process a better
    (smaller) priority and comes from the process itself or an ancestor. *)
From S2P Require Import Prelude Mem CString Mmu Kalloc Vm KState Sched Mutex Shm Bio Log Fs Pipe FileTab Proc PQueue.

(** A path that avoids the distinct nodes [vs], all of higher rank, is shorter than
    the number of nodes left. *)
Lemma nodup_bound (vs : list nat) n : NoDup vs → Forall (λ v, v < n)%nat vs → (length vs ≤ n)%nat.
Proof.
  intros Hnd Hall. rewrite <-(length_seq n 0). apply submseteq_length, NoDup_submseteq; [done|].
  intros v Hv. eapply list.Forall_forall in Hall; [|done]. apply elem_of_seq. simpl in *. lia.
Qed.

(** Only [next] fields differ. *)
Definition same_but_next (x y : proc) : Prop := y <| p_next := p_next x |> = x.

#[export] Instance same_but_next_refl : Reflexive same_but_next.
Proof. by intros []. Qed.
#[export] Instance same_but_next_trans : Transitive same_but_next.
Proof. unfold same_but_next. intros a b c <- <-. by destruct c. Qed.

Lemma same_but_next_fields x y :
  same_but_next x y → p_pid y = p_pid x ∧ p_priority y = p_priority x.
Proof. intros <-. done. Qed.

Lemma same_but_next_insert tbl p x v :
  tbl !! p = Some x → Forall2 same_but_next tbl (<[p := x <| p_next := v |>]> tbl).
Proof.
  intros Hp. apply Forall2_same_length_lookup. split; [by rewrite length_insert|].
  intros j a b Ha Hb. destruct (decide (j = p)) as [->|].
  - rewrite list_lookup_insert_eq in Hb by (by eapply lookup_lt_Some). simplify_eq. by destruct x.
  - rewrite list_lookup_insert_ne in Hb by done. by simplify_eq.
Qed.

(** A walk along a bin ends, unlinks at most one entry, and returns the process with
    the pid looked for. *)
Lemma bin_unlink_run n pid p s rk vs :
  ranked rk (k_ptable s) → (p < length (k_ptable s))%nat → NoDup vs →
  Forall (λ v, v < length (k_ptable s) ∧ rk p < rk v)%nat vs →
  (length (k_ptable s) < n + length vs)%nat →
  ∃ r tbl, bin_unlink n pid p s = Ok r (s <| k_ptable := tbl |>) ∧
    Forall2 same_but_next (k_ptable s) tbl ∧ acyclic tbl ∧
    (∀ q, r = Some q → ∃ y, k_ptable s !! q = Some y ∧ p_pid y = pid).
Proof.
  intros Hrk. revert p vs. induction n as [|n IH]; intros p vs Hp Hnd Hvs Hn.
  { assert (length (p :: vs) ≤ length (k_ptable s))%nat; [|simpl in *; lia].
    apply nodup_bound; [|constructor; [done|eapply list.Forall_impl; [exact Hvs|by intros ? []]]].
    constructor; [|done]. intros Hin. eapply list.Forall_forall in Hvs; [|done]. simpl in *. lia. }
  destruct (lookup_lt_is_Some_2 (k_ptable s) p Hp) as [x Hx]. cbn [bin_unlink].
  run (getp_run p x); [|done]. destruct (p_next x) as [q|] eqn:Eq.
  2: { exists None, (k_ptable s). split; [f_equal; by apply kst_ext|]. split_and!; [done|by exists rk|done]. }
  assert (next_of (k_ptable s) p = Some q) as Hnx by (unfold next_of; by rewrite Hx).
  destruct (Hrk p q Hnx) as [Hql Hqr]. destruct (lookup_lt_is_Some_2 (k_ptable s) q Hql) as [y Hy].
  run (getp_run q y); [|done]. destruct (p_pid y =? pid) eqn:Epid.
  - run (modp_run p x); [|done]. eexists (Some q), _. split; [unfold ret; f_equal; by apply kst_ext|].
    split_and!.
    + by apply same_but_next_insert.
    + replace (p_next y) with (next_of (k_ptable s) q) by (unfold next_of; by rewrite Hy).
      by apply acyclic_unlink; [exists rk|..].
    + intros ? [= <-]. exists y. split; [done|]. by apply Z.eqb_eq.
  - apply (IH q (p :: vs)); [done|..|simpl; lia].
    + constructor; [|done]. intros Hin. eapply list.Forall_forall in Hvs; [|done]. simpl in *. lia.
    + constructor; [done|]. eapply list.Forall_impl; [exact Hvs|]. simpl. intros; lia.
Qed.

(** The heads of the bins are in the table. *)
Definition heads_ok (bins : list plist) (n : nat) : Prop :=
  ∀ b h, b ∈ bins → l_head b = Some h → (h < n)%nat.

(** [q] is the process to move, in both tables. *)
Definition has_pid (tbl : list proc) (pid : Z) (q : nat) : Prop :=
  ∃ y, tbl !! q = Some y ∧ p_pid y = pid.

Lemma has_pid_next tbl tbl' pid q :
  Forall2 same_but_next tbl tbl' → has_pid tbl' pid q → has_pid tbl pid q.
Proof.
  intros HF (y & Hy & <-). destruct (Forall2_lookup_r _ _ _ _ _ HF Hy) as (x & Hx & Hxy).
  exists x. split; [done|]. apply same_but_next_fields in Hxy. naive_solver.
Qed.

Lemma bins_unlink_run pid bins proc s :
  acyclic (k_ptable s) → heads_ok bins (length (k_ptable s)) → length (k_ptable s) = NPROC →
  (∀ q, proc = Some q → has_pid (k_ptable s) pid q) →
  ∃ r tbl, bins_unlink pid bins proc s = Ok r (s <| k_ptable := tbl |>) ∧
    Forall2 same_but_next (k_ptable s) tbl ∧ acyclic tbl ∧
    (∀ q, r = Some q → has_pid (k_ptable s) pid q).
Proof.
  revert s proc. induction bins as [|b bins IH]; intros s proc Hac Hhd Hlen Hproc; simpl.
  { exists proc, (k_ptable s). split; [unfold ret; f_equal; by apply kst_ext|]. by split_and!. }
  assert (heads_ok bins (length (k_ptable s))) as Hhd'.
  { intros b' h Hb'. apply Hhd. by right. }
  destruct (l_head b) as [h|] eqn:Eh; [|by apply IH].
  assert (h < length (k_ptable s))%nat as Hh by (eapply Hhd; [left|done]).
  destruct (lookup_lt_is_Some_2 (k_ptable s) h Hh) as [x Hx]. run (getp_run h x); [|done].
  destruct (p_pid x =? pid) eqn:Epid.
  { exists (Some h), (k_ptable s). split; [unfold ret; f_equal; by apply kst_ext|]. split_and!; [done..|].
    intros ? [= <-]. exists x. split; [done|]. by apply Z.eqb_eq. }
  destruct Hac as [rk Hrk].
  destruct (bin_unlink_run (S NPROC) pid h s rk []) as (r & tbl & Hr & HF & Hac' & Hpid);
    [done|done|apply NoDup_nil_2|apply Forall_nil_2|unfold NPROC in *; simpl; lia|].
  run Hr. pose proof (list.Forall2_length _ _ _ HF) as Hl.
  destruct (IH (s <| k_ptable := tbl |>) (match r with Some q => Some q | None => proc end))
    as (r' & tbl' & Hr' & HF' & Hac2 & Hpid'); simpl in *; try done; try (by rewrite <-Hl); [|].
  { intros q Hq. assert (has_pid (k_ptable s) pid q) as (y & Hy & Hpy).
    { destruct r as [q'|]; [injection Hq as <-; by apply Hpid|by apply Hproc]. }
    destruct (Forall2_lookup_l _ _ _ _ _ HF Hy) as (z & Hz & [Hpz _]%same_but_next_fields).
    exists z. split; [done|congruence]. }
  exists r', tbl'. split; [rewrite Hr'; f_equal; by apply kst_ext|]. split_and!; [by etrans|done|].
  intros q Hq. by eapply has_pid_next, Hpid'.
Qed.

(** ** Who may set a priority *)

Inductive ancestor (s : kst) (cur : nat) : nat → Prop :=
  | anc_parent t x : k_ptable s !! t = Some x → p_parent x = Some cur → ancestor s cur t
  | anc_up t x u : k_ptable s !! t = Some x → p_parent x = Some u → ancestor s cur u → ancestor s cur t.

(** [t] is a descendant of init, [n] generations below it. *)
Inductive below_init (s : kst) : nat → nat → Prop :=
  | below_child t x : k_ptable s !! t = Some x → p_parent x = k_initproc s → below_init s t 1
  | below_up t x u n : k_ptable s !! t = Some x → p_parent x = Some u → below_init s u n →
      below_init s t (S n).

Lemma ancestry_run cur t n m s :
  below_init s t n → (n ≤ m)%nat →
  ∃ b, ancestry m cur t s = Ok b s ∧ (b = true → ancestor s cur t).
Proof.
  intros Hb. revert m. induction Hb as [t x Hx Hp|t x u n Hx Hp Hb IH]; intros m Hm;
    (destruct m as [|m]; [lia|]); cbn [ancestry]; run (getp_run t x); try done; step;
    (destruct (decide (p_parent x = Some cur)); [exists true; split; [done|intros _; by eapply anc_parent]|]).
  - rewrite decide_True by done. by exists false.
  - destruct (decide (p_parent x = k_initproc s)); [by exists false|]. rewrite Hp. step.
    destruct (IH m) as (b & Hr & Han); [lia|]. exists b. split; [done|]. intros E.
    eapply anc_up; eauto.
Qed.

(** ** prio_set *)

Section prio_set.
  Context (pid pr : Z) (cur i : nat) (me p : proc) (s : kst).
  Context (Hh : k_held s = []) (Hcur : k_cur s = Some cur) (Hme : k_ptable s !! cur = Some me).
  Context (Hfind : find_index (λ p, p_pid p =? pid) (k_ptable s) = Some i) (Hp : k_ptable s !! i = Some p).
  Context (Huniq : ∀ j, has_pid (k_ptable s) pid j → j = i) (Hpr : 0 ≤ pr < Z.of_nat NBIN).
  Context (Hlen : length (k_ptable s) = NPROC) (Hq : queue_ok s) (Hac : acyclic (k_ptable s)).
  Context (Hhd : heads_ok (k_pqueue s) (length (k_ptable s))).

  (** What a successful call has done. *)
Definition prio_changed (s' : kst) : Prop :=
  acyclic (k_ptable s') ∧ queue_ok s' ∧ has_pid (k_ptable s') pid i ∧
  ∀ j x y, k_ptable s !! j = Some x → k_ptable s' !! j = Some y →
    p_pid y = p_pid x ∧ p_priority y = if decide (j = i) then pr else p_priority x.

Lemma prio_move :
  let m := (acquire Lpqueue;;
            bins <- gets k_pqueue;
            proc <- bins_unlink pid bins None;
            release Lpqueue;;
            q <- deref "proc" proc;
            pqueue_enqueue q pr;;
            ret 0) s in
  m = UB "proc" ∨ ∃ s', m = Ok 0 s' ∧ prio_changed s'.
Proof.
  intros m. unfold m. clear m.
  destruct (bins_unlink_run pid (k_pqueue s) None (s <| k_held ::= cons Lpqueue |>))
    as (r & tbl & Hr & HF & Hac' & Hr'); [done..|]. simpl in *.
  assert (∀ q, r = Some q → q = i) as Hri by eauto.
  pose proof (list.Forall2_length _ _ _ HF) as Hl.
  erewrite bind_ok by (apply acquire_run; rewrite Hh; set_solver). cbn beta.
  erewrite bind_ok by reflexivity. cbn beta. erewrite bind_ok by exact Hr. cbn beta.
  erewrite bind_ok by (apply (release_run _ _ []); [simpl; by rewrite Hh|set_solver]). cbn beta.
  destruct r as [q|]; [|by left]. right. rewrite (Hri q eq_refl).
  erewrite bind_ok by reflexivity. cbn beta.
  destruct (Forall2_lookup_l _ _ _ _ _ HF Hp) as (y & Hy & Hpy).
  destruct (Hr' q eq_refl) as (p' & Hp' & Hpid). rewrite (Hri q eq_refl) in Hp'. simplify_eq.
  set (s1 := s <| k_held ::= cons Lpqueue |> <| k_ptable := tbl |> <| k_held := [] |>).
  destruct (pqueue_enqueue_run i y pr s1) as (tbl' & pq & Hr2 & HF2 & Hq2 & (z & Hz & Hzp) & Hoth & Hac2);
    [simpl; set_solver|done|done| |].
  { destruct Hq as [Hql Hqb]. split; [done|]. simpl. rewrite <-Hl. done. }
  eexists. split; [run Hr2; reflexivity|]. split; [by apply Hac2|]. split; [done|].
  assert (∀ j x w, k_ptable s !! j = Some x → tbl' !! j = Some w →
    ∃ v, tbl !! j = Some v ∧ p_pid w = p_pid x ∧ p_priority v = p_priority x) as Hrel.
  { intros j x w Hx Hw. destruct (Forall2_lookup_l _ _ _ _ _ HF Hx) as (v & Hv & [Hv1 Hv2]%same_but_next_fields).
    destruct (Forall2_lookup_l _ _ _ _ _ HF2 Hv) as (w' & Hw' & [Hw1 _]%same_but_queue_id).
    exists v. split_and!; [done| |done]. simpl in *. congruence. }
  split.
  - exists z. split; [done|]. destruct (Hrel i p z Hp Hz) as (v & _ & -> & _). done.
  - simpl. intros j x w Hx Hw. destruct (Hrel j x w Hx Hw) as (v & Hv & Hpw & Hvp). split; [done|].
    case_decide as E; [subst; congruence|]. rewrite <-Hvp. by apply (Hoth j v w E).
Qed.

Lemma prio_set_run :
  (p_pid me ≠ pid → ∃ n, below_init s i n ∧ (n ≤ S NPROC)%nat) →
  prio_set pid pr s = Ok (-1) s ∨ prio_set pid pr s = UB "proc" ∨
  ∃ s', prio_set pid pr s = Ok 0 s' ∧ (p_pid me = pid ∨ ancestor s cur i) ∧ p_priority p ≤ pr ∧
    (s' = s ∧ p_priority p = pr ∨ prio_changed s').
Proof.
  intros Hbelow. unfold prio_set. assert (u32 pr = pr) as Hu by (apply u32_small; unfold NBIN in *; lia).
  erewrite bind_ok by (by apply (myproc_run cur)). cbn beta.
  erewrite bind_ok by (apply acquire_run; rewrite Hh; set_solver). cbn beta.
  erewrite bind_ok by reflexivity. cbn beta.
  erewrite bind_ok by (apply release_top; rewrite Hh; set_solver). cbn beta.
  change (k_ptable (s <| k_held ::= cons Lptable |>)) with (k_ptable s). rewrite Hfind.
  erewrite bind_ok by (by apply (getp_run i p)). cbn beta. rewrite Hu.
  destruct (pr <? p_priority p) eqn:Elt; [by left|]. apply Z.ltb_ge in Elt.
  erewrite bind_ok by (by apply (getp_run cur me)). cbn beta.
  assert (∃ ok, (if pid =? p_pid me then ret true else ancestry (S NPROC) cur i) s = Ok ok s ∧
    (ok = true → p_pid me = pid ∨ ancestor s cur i)) as (ok & Hok & Hauth).
  { destruct (Z.eqb_spec pid (p_pid me)) as [E|E]; [exists true; split; [done|auto]|].
    destruct Hbelow as (n & Hb & Hn); [congruence|].
    destruct (ancestry_run cur i n (S NPROC) s Hb Hn) as (b & Hr & Han). exists b. split; [done|auto]. }
  erewrite bind_ok by exact Hok. cbn beta. destruct ok; simpl; [|by left]. right.
  destruct (pr =? p_priority p) eqn:Eeq.
  { right. exists s. split; [done|]. apply Z.eqb_eq in Eeq. split_and!; [auto|done|left; done]. }
  destruct prio_move as [HU|(s' & HO & Hch)]; [by left|right]. exists s'. split; [done|]. auto.
Qed.
End prio_set.

(** Prio_set ends, never gives any process a better (smaller) priority, changes
    the priority of no process but the one named, succeeds only for the process itself
    or an ancestor of it, and keeps the queue's links acyclic.  The one other outcome is
    the dereference of the NULL [proc] when the process is linked in no bin. *)
Theorem prio_set_safe pid pr cur i me p s :
  k_held s = [] → k_cur s = Some cur → k_ptable s !! cur = Some me →
  find_index (λ p, p_pid p =? pid) (k_ptable s) = Some i → k_ptable s !! i = Some p →
  (∀ j, has_pid (k_ptable s) pid j → j = i) → 0 ≤ pr < Z.of_nat NBIN →
  length (k_ptable s) = NPROC → queue_ok s → acyclic (k_ptable s) →
  heads_ok (k_pqueue s) (length (k_ptable s)) →
  (p_pid me ≠ pid → ∃ n, below_init s i n ∧ (n ≤ S NPROC)%nat) →
  match prio_set pid pr s with
  | Ok r s' =>
      r = -1 ∧ s' = s ∨
      r = 0 ∧ (p_pid me = pid ∨ ancestor s cur i) ∧ acyclic (k_ptable s') ∧
      ∀ j x y, k_ptable s !! j = Some x → k_ptable s' !! j = Some y →
        p_priority x ≤ p_priority y ∧ (j ≠ i → p_priority y = p_priority x) ∧
        (j = i → p_priority y = pr)
  | UB msg => msg = "proc"
  | _ => False
  end.
Proof.
  intros Hh Hcur Hme Hf Hp Hu Hpr Hlen Hq Hac Hhd Hb.
  destruct (prio_set_run pid pr cur i me p s) as [->|[->|(s' & -> & Hauth & Hle & Hch)]]; try done.
  { by left. }
  right. split; [done|]. split; [done|].
  destruct Hch as [[-> Heq]|(Hac' & _ & _ & Hch)].
  - split; [done|]. intros j x y Hx Hy. simplify_eq. split_and!; [lia|done|]. intros ->. congruence.
  - split; [done|]. intros j x y Hx Hy. destruct (Hch j x y Hx Hy) as [_ ->].
    case_decide as E; [subst j; simplify_eq|]; split_and!; try done; lia.
Qed.

(** Three processes enter bin 1; the first one's table entry is then reused for a
    process that enters bin 0, as allocproc does when a process has exited. *)
Definition requeued : K unit :=
  pqueue_enqueue 1 1;; pqueue_enqueue 2 1;; pqueue_enqueue 3 1;; pqueue_enqueue 1 0.

Definition four_procs : kst :=
  let live pid := proc0 <| p_state := RUNNABLE |> <| p_pid := pid |> <| p_parent := Some O |> in
  bss [] <| k_ptable ::= λ l, <[0%nat := live 1 <| p_parent := None |>]>
             (<[1%nat := live 2]> (<[2%nat := live 3]> (<[3%nat := live 4]> l))) |>
         <| k_cur := Some 2%nat |> <| k_initproc := Some O |>.

(** Prio_set can dereference NULL.  Three processes are put in bin 1, and the
    table entry of the first is used again for a process in bin 0; the processes
    queued behind the first are then in no bin, and prio_set by one of them on itself
    uses the NULL [proc]. *)
Theorem prio_set_lost_process :
  (requeued;; prio_set 3 5) four_procs = UB "proc".
Proof. vm_compute. reflexivity. Qed.
