(* ===== verification/Ulib.v ===== *)
(** * The user library (ulib.c, printf.c)

    Strings are as in the kernel's string.c: the bytes from the pointer to the end of
    the object, [None] for an access past it.  Output is the list of characters given
    to putc. *)
From S2P Require Import Prelude CString.

(** ** ulib.c *)

Fixpoint strcpy (s t : list Z) : option (list Z) :=
  match s, t with
  | _ :: s, c :: t => if c =? 0 then Some (0 :: s) else cons c <$> strcpy s t
  | _, _ => None
  end.

Fixpoint strcmp (p q : list Z) : option Z :=
  match p, q with
  | a :: p, b :: q => if negb (a =? 0) && (a =? b) then strcmp p q else Some (u8 a - u8 b)
  | _, _ => None
  end.

(** The index of the first [c], [None] inside when there is none. *)
Fixpoint strchr (s : list Z) (c : Z) : option (option nat) :=
  match s with
  | [] => None
  | x :: s => if x =? 0 then Some None else if x =? c then Some (Some O) else (λ o : option nat, S <$> o) <$> strchr s c
  end.

(** gets, given the bytes that read(0, &c, 1) will deliver: the buffer and the bytes
    left.  [i] bytes have been stored. *)
Fixpoint gets_loop (buf : list Z) (max i : nat) (inp : list Z) : option (list Z * list Z) :=
  match inp with
  | c :: inp' =>
      if Nat.ltb (i + 1) max then
        if Nat.ltb i (length buf) then
          let buf' := <[i := c]> buf in
          if (c =? 10) || (c =? 13) then
            if Nat.ltb (i + 1) (length buf) then Some (<[(i + 1)%nat := 0]> buf', inp') else None
          else gets_loop buf' max (i + 1) inp'
        else None
      else if Nat.ltb i (length buf) then Some (<[i := 0]> buf, inp) else None
  | [] => if Nat.ltb i (length buf) then Some (<[i := 0]> buf, []) else None
  end.

Definition user_gets (buf : list Z) (max : nat) (inp : list Z) : option (list Z * list Z) :=
  gets_loop buf max 0 inp.

Fixpoint atoi_loop (s : list Z) (n : Z) : option Z :=
  match s with
  | [] => None
  | c :: s => if (48 <=? c) && (c <=? 57) then atoi_loop s (s32 (n * 10 + c - 48)) else Some n
  end.
Definition atoi (s : list Z) : option Z := atoi_loop s 0.

(** ** printf.c *)

(** [digits[d]] *)
Definition digit (d : Z) : Z := if d <? 10 then 48 + d else 65 + (d - 10).

(** The [do] loop of printint with [room] bytes left in [buf]; the characters come out
    last one first. *)
Fixpoint digits_loop (room : nat) (x base : Z) (acc : list Z) : option (list Z) :=
  match room with
  | O => None
  | S room =>
      let acc := digit (x `mod` base) :: acc in
      let x := x `div` base in
      if x =? 0 then Some acc else digits_loop room x base acc
  end.

Definition printint (xx base : Z) (sgn : bool) : option (list Z) :=
  let neg := sgn && (xx <? 0) in
  let x := if neg then u32 (- xx) else u32 xx in
  ds ← digits_loop 16 x base [];
  if neg then if Nat.ltb (length ds) 16 then Some (45 :: ds) else None else Some ds.

(** An argument of printf: a word, or a pointer to a string. *)
Inductive arg :=
  | AInt (z : Z)
  | AStr (s : option (list Z)).

Definition null_str : list Z := [40; 110; 117; 108; 108; 41].

(** The loop of printf: [pct] is [state == '%']. *)
Fixpoint printf (fmt : list Z) (args : list arg) (pct : bool) : option (list Z) :=
  match fmt with
  | [] => Some []
  | c :: fmt =>
      if negb pct then
        if c =? 37 then printf fmt args true else cons c <$> printf fmt args false
      else if c =? 100 then
        match args with
        | AInt z :: args => ds ← printint z 10 true; app ds <$> printf fmt args false
        | _ => None
        end
      else if (c =? 120) || (c =? 112) then
        match args with
        | AInt z :: args => ds ← printint z 16 false; app ds <$> printf fmt args false
        | _ => None
        end
      else if c =? 115 then
        match args with
        | AStr o :: args => app (default null_str o) <$> printf fmt args false
        | _ => None
        end
      else if c =? 99 then
        match args with
        | AInt z :: args => cons (u8 z) <$> printf fmt args false
        | _ => None
        end
      else if c =? 37 then cons c <$> printf fmt args false
      else (λ r, 37 :: c :: r) <$> printf fmt args false
  end.

(** ** Comparison *)

Lemma strcmp_cstr p q sp sq :
  cstr p = Some sp → cstr q = Some sq → chars sp → chars sq →
  ∃ r, strcmp p q = Some r ∧ (r = 0 ↔ sp = sq).
Proof.
  revert q sp sq. induction p as [|a p IH]; intros [|b q] sp sq Hp Hq Hcp Hcq; try done.
  simpl in *. destruct (Z.eqb_spec a 0) as [->|Ha].
  - injection Hp as <-. destruct (Z.eqb_spec b 0) as [->|Hb]; simpl.
    + injection Hq as <-. by exists 0.
    + apply fmap_Some in Hq as (sq' & _ & ->). apply list.Forall_cons in Hcq as [Hb' _].
      eexists. split; [done|]. unfold u8. rewrite (Z.mod_small b) by lia. rewrite Z.mod_0_l by lia. split; [lia|done].
  - apply fmap_Some in Hp as (sp' & Hp & ->). apply list.Forall_cons in Hcp as [Ha' Hcp]. simpl.
    destruct (Z.eqb_spec a b) as [<-|Hab].
    + rewrite (proj2 (Z.eqb_neq a 0)) in Hq by done. apply fmap_Some in Hq as (sq' & Hq & ->).
      apply list.Forall_cons in Hcq as [_ Hcq]. destruct (IH q sp' sq') as (r & Hr & Hiff); [done..|].
      exists r. split; [done|]. rewrite Hiff. split; [by intros ->|by intros [= ->]].
    + eexists. split; [done|]. destruct (Z.eqb_spec b 0) as [->|Hb].
      * injection Hq as <-. unfold u8. rewrite (Z.mod_small a), Z.mod_0_l by lia. split; [lia|done].
      * apply fmap_Some in Hq as (sq' & _ & ->). apply list.Forall_cons in Hcq as [Hb' _].
        unfold u8. rewrite !Z.mod_small by lia. split; [lia|]. by intros [= ? _].
Qed.

Lemma strchr_find s c t :
  cstr s = Some t → c ≠ 0 → strchr s c = Some (find_index (λ x, x =? c) t).
Proof.
  revert t. induction s as [|x s IH]; intros t Hs Hc; [done|]. simpl in *. destruct (x =? 0) eqn:E.
  - by injection Hs as <-.
  - apply fmap_Some in Hs as (t' & Ht & ->). simpl. destruct (x =? c); [done|]. by rewrite (IH t').
Qed.

Lemma strcpy_cstr s t u :
  cstr t = Some u → (length u < length s)%nat → strcpy s t = Some (u ++ 0 :: drop (S (length u)) s).
Proof.
  revert s u. induction t as [|c t IH]; intros s u Ht Hl; [done|]. simpl in Ht.
  destruct s as [|x s]; [simpl in Hl; lia|]. simpl. destruct (c =? 0).
  - by injection Ht as <-.
  - apply fmap_Some in Ht as (u' & Hu & ->). simpl in Hl. rewrite (IH s u') by (done || lia). done.
Qed.

(** ** Numbers *)

(** The value of a string of digits in [base]. *)
Definition digit_val (c : Z) : Z := if c <=? 57 then c - 48 else c - 65 + 10.
Definition eval_digits (base : Z) (ds : list Z) (n : Z) : Z := foldl (λ n c, n * base + digit_val c) n ds.

Lemma digit_val_digit d : 0 ≤ d < 16 → digit_val (digit d) = d.
Proof. intros Hd. unfold digit_val, digit. destruct (Z.ltb_spec d 10), (Z.leb_spec (48 + d) 57), (Z.leb_spec (65 + (d - 10)) 57); lia. Qed.

(** The digits of [x] before those of [acc]: [room] bytes are enough for [x < base^room]. *)
Lemma digits_loop_spec room x base acc :
  2 ≤ base ≤ 16 → 0 ≤ x < base ^ Z.of_nat room →
  (0 < room)%nat →
  ∃ ds, digits_loop room x base acc = Some (ds ++ acc) ∧ eval_digits base ds 0 = x ∧ ds ≠ [] ∧
    (∀ k, (0 < k)%nat → x < base ^ Z.of_nat k → (length ds ≤ k)%nat) ∧ (x ≠ 0 → head ds ≠ Some 48) ∧
    Forall (λ c, ∃ d, 0 ≤ d < base ∧ c = digit d) ds.
Proof.
  intros Hb. revert x acc. induction room as [|room IH]; intros x acc Hx Hr; [lia|]. cbn [digits_loop].
  assert (0 ≤ x `mod` base < base) as Hm by (apply Z.mod_pos_bound; lia).
  assert (0 ≤ x `div` base) as Hd by (apply Z.div_pos; lia).
  pose proof (Z.div_mod x base ltac:(lia)) as Hdm. destruct (Z.eqb_spec (x `div` base) 0) as [E|E].
  - exists [digit (x `mod` base)]. split_and!; [done| |done|intros k Hk _; simpl; lia| |].
    + unfold eval_digits. simpl. rewrite digit_val_digit by lia. lia.
    + intros Hx0. simpl. unfold digit. destruct (Z.ltb_spec (x `mod` base) 10); intros [= ?]; lia.
    + apply list.Forall_singleton. by exists (x `mod` base).
  - destruct (IH (x `div` base) (digit (x `mod` base) :: acc)) as (ds & Hds & Hev & Hne & Hlen & Hh & HF).
    { split; [done|]. apply Z.div_lt_upper_bound; [lia|]. rewrite Nat2Z.inj_succ, Z.pow_succ_r in Hx by lia. lia. }
    { destruct room; [|lia]. change (Z.of_nat 1) with 1 in Hx. rewrite Z.pow_1_r in Hx.
      rewrite Z.div_small in E by lia. done. }
    exists (ds ++ [digit (x `mod` base)]). split_and!.
    + by rewrite Hds, <-app_assoc.
    + unfold eval_digits in *. rewrite foldl_app, Hev. simpl. rewrite digit_val_digit by lia. lia.
    + by destruct ds.
    + intros [|k] Hk Hxk; [lia|]. rewrite length_app. simpl. rewrite Nat2Z.inj_succ, Z.pow_succ_r in Hxk by lia.
      assert (x `div` base < base ^ Z.of_nat k) by (apply Z.div_lt_upper_bound; lia).
      assert (k ≠ 0)%nat by (intros ->; change (base ^ Z.of_nat 0) with 1 in *; lia).
      specialize (Hlen k ltac:(lia) ltac:(done)). lia.
    + intros _. destruct ds as [|d ds]; [done|]. simpl in *. by apply Hh.
    + apply Forall_app. split; [done|]. apply list.Forall_singleton. by exists (x `mod` base).
Qed.

Lemma atoi_digits ds n rest :
  Forall (λ c, ∃ d, 0 ≤ d < 10 ∧ c = digit d) ds → 0 ≤ n → eval_digits 10 ds n < 2 ^ 31 →
  (∀ c, head rest = Some c → c < 48 ∨ 57 < c) → rest ≠ [] →
  atoi_loop (ds ++ rest) n = Some (eval_digits 10 ds n).
Proof.
  intros HF. revert n. induction HF as [|c ds (d & Hd & ->) HF IH]; intros n Hn Hv Hh Hr.
  - destruct rest as [|c rest]; [done|]. simpl. specialize (Hh c eq_refl).
    destruct (Z.leb_spec 48 c), (Z.leb_spec c 57); simpl; lia || done.
  - cbn [app atoi_loop eval_digits foldl] in *. fold (eval_digits 10 ds (n * 10 + digit_val (digit d))) in *.
    rewrite digit_val_digit in * by lia.
    assert (digit d = 48 + d) as -> by (unfold digit; destruct (Z.ltb_spec d 10); lia).
    rewrite (proj2 (Z.leb_le 48 _)), (proj2 (Z.leb_le _ 57)) by lia. cbn [andb]. cbv iota.
    assert (n * 10 + d ≤ eval_digits 10 ds (n * 10 + d)) as Hle.
    { clear -HF Hn Hd. assert (0 ≤ n * 10 + d) as H0 by lia. revert H0. generalize (n * 10 + d). induction HF as [|c ds (d' & Hd' & ->) _ IH]; intros m H0; [done|].
      cbn [eval_digits foldl]. fold (eval_digits 10 ds (m * 10 + digit_val (digit d'))). rewrite digit_val_digit by lia.
      etransitivity; [|apply IH]; lia. }
    replace (n * 10 + (48 + d) - 48) with (n * 10 + d) by lia. rewrite s32_small by lia.
    apply IH; [lia|done|done|done].
Qed.

Lemma atoi_printint x rest :
  0 ≤ x < 2 ^ 31 → (∀ c, head rest = Some c → c < 48 ∨ 57 < c) → rest ≠ [] →
  ∃ ds, printint x 10 true = Some ds ∧ atoi (ds ++ rest) = Some x ∧ (length ds ≤ 10)%nat ∧
    (x ≠ 0 → head ds ≠ Some 48).
Proof.
  intros Hx Hh Hr. unfold printint. rewrite (proj2 (Z.ltb_ge x 0)) by lia. cbn [andb]. cbv iota. rewrite u32_small by lia.
  destruct (digits_loop_spec 16 x 10 []) as (ds & Hds & Hev & Hne & Hlen & Hh0 & HF); [lia| |lia|].
  { change (10 ^ Z.of_nat 16) with 10000000000000000. lia. }
  rewrite app_nil_r in Hds. exists ds. rewrite Hds. split_and!; [done| | |done].
  - unfold atoi. by rewrite atoi_digits, Hev by (done || lia).
  - apply Hlen; [lia|]. change (10 ^ Z.of_nat 10) with 10000000000. lia.
Qed.

(** Printint and atoi are inverse on the non-negative integers, and printint never
    overruns its buffer of 16 characters. *)
Theorem printint_atoi x rest :
  0 ≤ x < 2 ^ 31 → (∀ c, head rest = Some c → c < 48 ∨ 57 < c) → rest ≠ [] →
  ∃ ds, printint x 10 true = Some ds ∧ atoi (ds ++ rest) = Some x ∧ (length ds ≤ 10)%nat ∧
    (x ≠ 0 → head ds ≠ Some 48).
Proof. apply atoi_printint. Qed.

Lemma printint_dec z :
  - 2 ^ 31 ≤ z < 2 ^ 31 →
  ∃ o, printint z 10 true = Some o ∧
    if decide (z < 0) then ∃ ds, o = 45 :: ds ∧ eval_digits 10 ds 0 = - z else eval_digits 10 o 0 = z.
Proof.
  intros Hz. unfold printint. cbn [andb].
  destruct (digits_loop_spec 16 (Z.abs z) 10 []) as (ds & Hds & Hev & _ & Hlen & _); [lia| |lia|].
  { change (10 ^ Z.of_nat 16) with 10000000000000000. lia. }
  assert (length ds ≤ 10)%nat as Hl by (apply Hlen; [lia|change (10 ^ Z.of_nat 10) with 10000000000; lia]).
  rewrite app_nil_r in Hds. destruct (Z.ltb_spec z 0).
  - rewrite u32_small by lia. rewrite (Z.abs_neq z) in * by lia. rewrite Hds. cbn [mbind option_bind].
    rewrite (proj2 (Nat.ltb_lt _ _)) by lia. eexists. split; [done|]. rewrite decide_True by done. eauto.
  - rewrite u32_small by lia. rewrite (Z.abs_eq z) in * by lia. rewrite Hds. eexists. split; [done|].
    by rewrite decide_False by lia.
Qed.

Lemma printint_hex z : ∃ o, printint z 16 false = Some o ∧ eval_digits 16 o 0 = u32 z.
Proof.
  unfold printint. cbn [andb]. assert (0 ≤ u32 z < 2 ^ 32) by (apply Z.mod_pos_bound; lia).
  destruct (digits_loop_spec 16 (u32 z) 16 []) as (ds & Hds & Hev & _); [lia| |lia|].
  { change (16 ^ Z.of_nat 16) with (2 ^ 64). lia. }
  rewrite app_nil_r in Hds. rewrite Hds. simpl. eauto.
Qed.

(** ** Formats *)

(** A piece of a format and the argument it takes. *)
Inductive piece :=
  | Text (s : list Z)
  | Dec (z : Z)
  | Hex (z : Z)
  | Str (s : option (list Z))
  | Chr (c : Z)
  | Percent.

Definition fmt_of (p : piece) : list Z :=
  match p with
  | Text s => s
  | Dec _ => [37; 100]
  | Hex _ => [37; 120]
  | Str _ => [37; 115]
  | Chr _ => [37; 99]
  | Percent => [37; 37]
  end.
Definition args_of (p : piece) : list arg :=
  match p with
  | Text _ | Percent => []
  | Dec z | Hex z | Chr z => [AInt z]
  | Str s => [AStr s]
  end.

(** What a piece should print. *)
Definition rendered (p : piece) (o : list Z) : Prop :=
  match p with
  | Text s => o = s
  | Dec z => if decide (z < 0) then ∃ ds, o = 45 :: ds ∧ eval_digits 10 ds 0 = - z else eval_digits 10 o 0 = z
  | Hex z => eval_digits 16 o 0 = u32 z
  | Str s => o = default null_str s
  | Chr c => o = [u8 c]
  | Percent => o = [37]
  end.
Definition piece_ok (p : piece) : Prop :=
  match p with Text s => 37 ∉ s | Dec z => - 2 ^ 31 ≤ z < 2 ^ 31 | _ => True end.

Lemma printf_text s fmt args o :
  37 ∉ s → printf fmt args false = Some o → printf (s ++ fmt) args false = Some (s ++ o).
Proof.
  intros Hs Ho. induction s as [|c s IH]; [done|]. apply not_elem_of_cons in Hs as [? Hs]. simpl.
  rewrite (proj2 (Z.eqb_neq c 37)) by congruence. by rewrite IH.
Qed.

(** Printf prints the pieces of its format in order: the text between the
    conversions as it is, an integer in decimal or hexadecimal, a string, a character. *)
Theorem printf_renders ps :
  Forall piece_ok ps →
  ∃ os, Forall2 rendered ps os ∧ printf (concat (fmt_of <$> ps)) (concat (args_of <$> ps)) false = Some (concat os).
Proof.
  induction 1 as [|p ps Hp _ (os & Hos & IH)]; [by exists []|].
  assert (∃ o, rendered p o ∧ printf (fmt_of p ++ concat (fmt_of <$> ps)) (args_of p ++ concat (args_of <$> ps)) false =
    Some (o ++ concat os)) as (o & Ho & Hrun); [|exists (o :: os); split; [by constructor|done]].
  destruct p as [s|z|z|s|c|]; simpl in Hp.
  - exists s. split; [done|]. by apply printf_text.
  - destruct (printint_dec z Hp) as (o & Ho & Hr). exists o. split; [done|]. cbn [fmt_of args_of app printf negb].
    change (37 =? 37) with true. cbv iota. change (100 =? 100) with true. cbv iota. by rewrite Ho, IH.
  - destruct (printint_hex z) as (o & Ho & Hr). exists o. split; [done|]. cbn [fmt_of args_of app printf negb].
    change (37 =? 37) with true. change (120 =? 100) with false. change (120 =? 120) with true. cbn [orb]. cbv iota.
    by rewrite Ho, IH.
  - exists (default null_str s). split; [done|]. simpl. by rewrite IH.
  - exists [u8 c]. split; [done|]. simpl. by rewrite IH.
  - exists [37]. split; [done|]. simpl. by rewrite IH.
Qed.
