(* ===== verification/Umalloc.v ===== *)
(** * The memory allocator of user programs (umalloc.c)

    The free blocks form a ring that starts at [base], linked through their headers:
    the word at a header is the next block, the word after it the size in headers.
    [free] puts a block back in address order and merges it with its neighbours,
    [malloc] takes the first block that is large enough and asks the kernel for more
    memory when there is none.  [rounds] bounds the loops over the ring. *)
From S2P Require Import Prelude Mem Mmu.

(** The memory of the process, the variable [freep] and the size of the process. *)
Record uheap := Uheap { u_mem : mem; u_freep : Z; u_brk : Z }.
Definition eta_uheap (r : uheap) : uheap := Uheap (u_mem r) (u_freep r) (u_brk r).
#[global] Instance upd_u_mem : Upd u_mem := ltac:(mk_upd eta_uheap u_mem).
#[global] Instance upd_u_freep : Upd u_freep := ltac:(mk_upd eta_uheap u_freep).
#[global] Instance upd_u_brk : Upd u_brk := ltac:(mk_upd eta_uheap u_brk).

Abbreviation U := (M uheap).

(** [p->s.ptr] and [p->s.size]; [p + n] for a header pointer. *)
Definition hptr (p : Z) : U Z := gets (λ s, ld32 (u_mem s) p).
Definition hsize (p : Z) : U Z := gets (λ s, ld32 (u_mem s) (p + 4)).
Definition set_hptr (p v : Z) : U unit := modify (λ s, s <| u_mem ::= λ m, st32 m p v |>).
Definition set_hsize (p v : Z) : U unit := modify (λ s, s <| u_mem ::= λ m, st32 m (p + 4) v |>).
Definition hplus (p n : Z) : Z := u32 (p + 8 * n).

Section umalloc.
  (** [&base], and whether the kernel finds the pages for a process to grow from one
      size to another. *)
  Context (base : Z) (enough : Z → Z → bool) (rounds : nat).

(** The system call sbrk: the process grows or shrinks by [n] bytes, the new pages are
    cleared, and the old size is returned. *)
Definition sbrk (n : Z) : U Z :=
  b <- gets u_brk;
  let n := s32 n in
  let new := u32 (b + n) in
  if 0 <? n then
    if KERNBASE <=? new then ret (2 ^ 32 - 1) else
    if new <? b then ret b else
    if enough b new then
      modify (λ s, s <| u_brk := new |>
                     <| u_mem ::= λ m x, if (PGROUNDUP b <=? x) && (x <? new) then 0 else m x |>);;
      ret b
    else ret (2 ^ 32 - 1)
  else if n <? 0 then
    if b <=? new then ret b else
    if new =? 0 then ret (2 ^ 32 - 1) else
    modify (λ s, s <| u_brk := new |>);; ret b
  else ret b.

(** The loop of free: the block after which [bp] belongs. *)
Fixpoint free_loop (n : nat) (bp p : Z) : U Z :=
  match n with
  | O => λ _, Fuel
  | S n =>
      q <- hptr p;
      if (p <? bp) && (bp <? q) then ret p else
      if (q <=? p) && ((p <? bp) || (bp <? q)) then ret p else
      free_loop n bp q
  end.

Definition free_next (bp p : Z) : U unit :=
  n <- hsize bp;
  q <- hptr p;
  if hplus bp n =? q then
    k <- hsize q;
    set_hsize bp (u32 (n + k));;
    q <- hptr p;
    r <- hptr q;
    set_hptr bp r
  else set_hptr bp q.

Definition free_prev (bp p : Z) : U unit :=
  k <- hsize p;
  if hplus p k =? bp then
    n <- hsize bp;
    set_hsize p (u32 (k + n));;
    r <- hptr bp;
    set_hptr p r
  else set_hptr p bp.

Definition free (ap : Z) : U unit :=
  let bp := hplus ap (-1) in
  f <- gets u_freep;
  p <- free_loop rounds bp f;
  free_next bp p;;
  free_prev bp p;;
  modify (λ s, s <| u_freep := p |>).

Definition morecore (nu : Z) : U Z :=
  let nu := if nu <? 4096 then 4096 else nu in
  p <- sbrk (u32 (nu * 8));
  if p =? 2 ^ 32 - 1 then ret 0 else
  set_hsize p nu;;
  free (hplus p 1);;
  gets u_freep.

(** A block [p] of [size] headers is large enough; [prevp] is the one before it. *)
Definition take_block (nunits prevp p size : Z) : U Z :=
  p <- (if size =? nunits then
          q <- hptr p; set_hptr prevp q;; ret p
        else
          set_hsize p (u32 (size - nunits));;
          k <- hsize p;
          let p := hplus p k in
          set_hsize p nunits;; ret p);
  modify (λ s, s <| u_freep := prevp |>);;
  ret (hplus p 1).

Fixpoint malloc_loop (n : nat) (nunits prevp p : Z) : U Z :=
  match n with
  | O => λ _, Fuel
  | S n =>
      size <- hsize p;
      if nunits <=? size then take_block nunits prevp p size else
      f <- gets u_freep;
      if p =? f then
        p <- morecore nunits;
        if p =? 0 then ret 0 else
        q <- hptr p; malloc_loop n nunits p q
      else q <- hptr p; malloc_loop n nunits p q
  end.

Definition malloc (nbytes : Z) : U Z :=
  let nunits := u32 (u32 (nbytes + 8 - 1) `div` 8 + 1) in
  f <- gets u_freep;
  prevp <- (if f =? 0 then
              modify (λ s, s <| u_freep := base |>);;
              set_hptr base base;;
              set_hsize base 0;; ret base
            else ret f);
  p <- hptr prevp;
  malloc_loop (rounds + rounds) nunits prevp p.
End umalloc.
