(* ===== verification/UmallocThm.v ===== *)
(** * Correctness of the user memory allocator (umalloc.c)

    The ring is the sorted list of the free blocks, no two of them adjacent; the blocks
    handed out are apart from it and from each other.  [free] and [malloc] keep this,
    do not touch the blocks handed out, and end. *)
From S2P Require Import Prelude Mem Mmu Umalloc.

(** ** Blocks and segments of the ring *)

(** A block: its address and its size in headers of 8 bytes. *)
Abbreviation block := (Z * Z)%type.
Definition inside (b : block) (x : Z) : Prop := b.1 ≤ x < b.1 + 8 * b.2.
Definition apart (b c : block) : Prop := b.1 + 8 * b.2 ≤ c.1 ∨ c.1 + 8 * c.2 ≤ b.1.

(** The headers of [l] are linked from [p] to [q]. *)
Fixpoint seg (m : mem) (p : Z) (l : list block) (q : Z) : Prop :=
  match l with
  | [] => p = q
  | b :: l => p = b.1 ∧ ld32 m (b.1 + 4) = b.2 ∧ seg m (ld32 m b.1) l q
  end.

(** In address order, with a gap after each block. *)
Fixpoint spaced (l : list block) : Prop :=
  match l with
  | [] => True
  | b :: l => Forall (λ c, b.1 + 8 * b.2 < c.1 ∧ b.1 + 8 ≤ c.1) l ∧ spaced l
  end.

Lemma seg_app m p l1 l2 q : seg m p (l1 ++ l2) q ↔ ∃ r, seg m p l1 r ∧ seg m r l2 q.
Proof.
  revert p. induction l1 as [|b l1 IH]; intros p; simpl; [naive_solver|].
  rewrite IH. naive_solver.
Qed.

Lemma seg_frame m m' p l q :
  (∀ b x, b ∈ l → b.1 ≤ x < b.1 + 8 → m' x = m x) → seg m p l q → seg m' p l q.
Proof.
  revert p. induction l as [|b l IH]; intros p Hm; simpl; [done|]. intros (-> & Hs & Hl).
  assert (ld32 m' b.1 = ld32 m b.1) as -> by (apply ld32_ext; intros i Hi; apply (Hm b); [left|lia]).
  split_and!; [done| |apply IH; [intros c x Hc; apply Hm; by right|done]].
  rewrite <-Hs. apply ld32_ext. intros i Hi. apply (Hm b); [left|lia].
Qed.

Lemma spaced_app l1 l2 :
  spaced (l1 ++ l2) ↔ spaced l1 ∧ spaced l2 ∧ ∀ b c, b ∈ l1 → c ∈ l2 → b.1 + 8 * b.2 < c.1 ∧ b.1 + 8 ≤ c.1.
Proof.
  induction l1 as [|b l1 IH]; simpl; [set_solver|].
  rewrite Forall_app, IH, !list.Forall_forall. split.
  - intros [[H1 H2] (? & ? & H3)]. split_and!; [done..|]. intros b' c [->|Hb]%elem_of_cons Hc; eauto.
  - intros [[? ?] [? H3]]. split_and!; [done| |done..|].
    + intros c Hc. apply H3; [left|done].
    + intros b' c Hb Hc. apply H3; [by right|done].
Qed.

Section heap.
  Context (base : Z) (rounds : nat).

(** The allocator's invariant: [free] are the free blocks, [A] the ones handed out. *)
Record heap_ok (s : uheap) (free : list block) (A : gmap Z Z) : Prop := HeapOk {
  ho_base : 0 < base ∧ base + 8 ≤ u_brk s ≤ KERNBASE;
  ho_freep : u_freep s ∈ ((base, 0) :: free).*1;
  ho_ring : seg (u_mem s) base ((base, 0) :: free) base;
  ho_spaced : spaced ((base, 0) :: free);
  ho_free : ∀ b, b ∈ free → 1 ≤ b.2 ∧ b.1 + 8 * b.2 ≤ u_brk s;
  ho_live : ∀ a n, A !! a = Some n → 1 ≤ n ∧ base + 8 ≤ a ∧ a + 8 * n ≤ u_brk s ∧ ld32 (u_mem s) (a + 4) = n;
  ho_apart : ∀ a n b, A !! a = Some n → b ∈ free → apart (a, n) b;
  ho_live_apart : ∀ a n a' n', A !! a = Some n → A !! a' = Some n' → a ≠ a' → apart (a, n) (a', n') }.

(** ** The search of free *)

Lemma free_loop_from n bp s p ps l :
  base < bp → p < bp → seg (u_mem s) p ((p, ps) :: l) base → spaced ((p, ps) :: l) → base ≤ p →
  (∀ b, b ∈ l → b.1 ≠ bp) → (length l < n)%nat →
  ∃ l1 p' ps' l2, (p, ps) :: l = l1 ++ (p', ps') :: l2 ∧ free_loop n bp p s = Ok p' s ∧
    p' < bp ∧ ∀ b, b ∈ l2 → bp < b.1.
Proof using.
  intros Hbp. revert n p ps. induction l as [|[q qs] l IH]; intros [|n] p ps Hp Hseg Hsp Hb Hne Hn; simpl in Hn; try lia.
  - exists [], p, ps, []. cbn [free_loop]. step. destruct Hseg as (_ & _ & Hq). simpl in Hq. rewrite Hq.
    rewrite (proj2 (Z.ltb_ge bp base)), andb_false_r by lia. rewrite (proj2 (Z.leb_le _ _)), (proj2 (Z.ltb_lt _ _)) by lia.
    split_and!; [done..|]. set_solver.
  - cbn [free_loop]. step. destruct Hseg as (_ & _ & Hseg). simpl in Hseg. pose proof Hseg as (Hq & _ & _). simpl in Hq.
    destruct Hsp as [Hlt Hsp]. pose proof (proj1 (list.Forall_forall _ _) Hlt (q, qs) ltac:(left)) as [_ Hpq]. simpl in Hpq.
    rewrite Hq. rewrite (proj2 (Z.ltb_lt p bp)) by lia. cbn [andb]. destruct (Z.ltb_spec bp q).
    + exists [], p, ps, ((q, qs) :: l). split_and!; [done..|]. intros b [->|Hin]%elem_of_cons; [done|].
      destruct Hsp as [Hsp _]. pose proof (proj1 (list.Forall_forall _ _) Hsp b Hin). simpl in *. lia.
    + rewrite (proj2 (Z.leb_gt q p)) by lia. cbn [andb].
      assert (q ≠ bp) by (apply (Hne (q, qs)); left). rewrite Hq in Hseg.
      destruct (IH n q qs ltac:(lia) Hseg Hsp ltac:(lia)) as (l1 & p' & ps' & l2 & E & Hr & ? & ?);
        [intros b Hin; apply Hne; by right|lia|].
      exists ((p, ps) :: l1), p', ps', l2. rewrite E. done.
Qed.

Lemma free_loop_past n bp s p ps l :
  base < bp → bp < p → seg (u_mem s) p ((p, ps) :: l) base → spaced ((p, ps) :: l) →
  (S (length l) ≤ n)%nat → ∃ k, (n - S (length l) ≤ k)%nat ∧ free_loop n bp p s = free_loop k bp base s.
Proof using.
  intros Hbp. revert n p ps. induction l as [|[q qs] l IH]; intros [|n] p ps Hp Hseg Hsp Hn; simpl in Hn; try lia.
  - exists n. split; [simpl; lia|]. cbn [free_loop]. step. destruct Hseg as (_ & _ & Hq). simpl in Hq. rewrite Hq.
    rewrite (proj2 (Z.ltb_ge p bp)), (proj2 (Z.ltb_ge bp base)) by lia. cbn [andb orb]. by rewrite andb_false_r.
  - cbn [free_loop]. step. destruct Hseg as (_ & _ & Hseg). simpl in Hseg. pose proof Hseg as (Hq & _ & _). simpl in Hq.
    destruct Hsp as [Hlt Hsp]. pose proof (proj1 (list.Forall_forall _ _) Hlt (q, qs) ltac:(left)) as [_ Hpq]. simpl in Hpq.
    rewrite Hq. rewrite (proj2 (Z.ltb_ge p bp)) by lia. cbn [andb]. rewrite (proj2 (Z.leb_gt q p)) by lia. cbn [andb].
    rewrite Hq in Hseg. destruct (IH n q qs ltac:(lia) Hseg Hsp ltac:(lia)) as (k & Hk & Hr).
    exists k. split; [simpl; lia|done].
Qed.

Lemma free_loop_run s fl A bp n :
  heap_ok s fl A → A !! bp = Some n → (2 * length fl + 2 < rounds)%nat →
  ∃ l1 p ps l2, (base, 0) :: fl = l1 ++ (p, ps) :: l2 ∧ free_loop rounds bp (u_freep s) s = Ok p s ∧
    p < bp ∧ ∀ b, b ∈ l2 → bp < b.1.
Proof using.
  intros [Hb Hf Hring Hsp Hfree Hlive Hap Hlap] Hbp Hr. destruct (Hlive _ _ Hbp) as (Hn & Hbase & _).
  assert (∀ b, b ∈ fl → b.1 ≠ bp) as Hne.
  { intros b Hb' E. destruct (Hfree b Hb'). destruct (Hap _ _ _ Hbp Hb') as [Hd|Hd]; simpl in Hd; lia. }
  assert (∀ k, (length fl < k)%nat → ∃ l1 p ps l2, (base, 0) :: fl = l1 ++ (p, ps) :: l2 ∧ free_loop k bp base s = Ok p s ∧
    p < bp ∧ ∀ b, b ∈ l2 → bp < b.1) as Hfrom.
  { intros k Hk. apply free_loop_from; [lia|lia|done..|lia]. }
  apply list_elem_of_fmap in Hf as ([f fs] & Ef & Hf). simpl in Ef. rewrite Ef.
  apply list_elem_of_split in Hf as (k1 & k2 & E). pose proof Hring as Hring'. pose proof Hsp as Hsp'.
  rewrite E in Hring', Hsp'. apply seg_app in Hring' as (r & _ & Hk2). apply spaced_app in Hsp' as (_ & Hsp2 & _).
  assert (r = f) as -> by apply Hk2. apply (f_equal length) in E as El. rewrite length_app in El. simpl in El.
  assert (f = base ∨ ∃ b, b ∈ fl ∧ b.1 = f) as Hfb.
  { assert ((f, fs) ∈ (base, 0) :: fl) as [Ei|Hi]%elem_of_cons by (rewrite E; set_solver); [left; congruence|right; eauto]. }
  assert (f ≠ bp) as Hfbp by (destruct Hfb as [->|(b & ? & <-)]; [lia|by apply Hne]).
  assert (base ≤ f) as Hbf.
  { destruct Hfb as [->|(b & Hin & <-)]; [lia|]. destruct Hsp as [Hall _].
    pose proof (proj1 (list.Forall_forall _ _) Hall b Hin). simpl in *. lia. }
  destruct (decide (f < bp)).
  - destruct (free_loop_from rounds bp s f fs k2) as (l1 & p & ps & l2 & E' & Hrun & Hp & Hl2); [lia|done..|lia| |lia|].
    + intros b Hin. assert (b ∈ (base, 0) :: fl) as [->|?]%elem_of_cons by (rewrite E; set_solver); [simpl; lia|by apply Hne].
    + exists (k1 ++ l1), p, ps, l2. rewrite E, E', app_assoc. done.
  - destruct (free_loop_past rounds bp s f fs k2) as (k & Hk & Hrun); [lia|lia|done|done|lia|].
    rewrite Hrun. apply Hfrom. lia.
Qed.

(** ** Merging *)

Definition covered (l : list block) (x : Z) : Prop := ∃ b, b ∈ l ∧ inside b x.

(** The header [bp] is linked in front of [l]. *)
Lemma seg_link m bp n q l :
  seg m q l base → ld32 m (bp + 4) = n → 0 ≤ q < 2 ^ 32 → (∀ b, b ∈ l → bp + 8 ≤ b.1 ∨ b.1 + 8 ≤ bp) →
  seg (st32 m bp q) bp ((bp, n) :: l) base.
Proof using.
  intros Hseg Hn Hq Hl. simpl. rewrite ld32_st32_eq, u32_small by done. split_and!; [done|by rewrite ld32_st32_ne by lia|].
  eapply seg_frame; [|done]. intros b x Hb Hx. specialize (Hl b Hb). apply st32_out. lia.
Qed.

Lemma free_next_run s bp n p ps l :
  seg (u_mem s) p ((p, ps) :: l) base → ld32 (u_mem s) (bp + 4) = n → 1 ≤ n → 0 < base < bp → p + 8 ≤ bp →
  bp + 8 * n ≤ KERNBASE → (∀ b, b ∈ l → bp + 8 * n ≤ b.1 ∧ 1 ≤ b.2 ∧ b.1 + 8 * b.2 ≤ KERNBASE) → spaced l →
  ∃ m1 n1 l', free_next bp p s = Ok tt (Uheap m1 (u_freep s) (u_brk s)) ∧
    (∀ x, ¬ (bp ≤ x < bp + 8) → m1 x = u_mem s x) ∧
    seg m1 bp ((bp, n1) :: l') base ∧ spaced ((bp, n1) :: l') ∧ n ≤ n1 ∧
    (∀ b, b ∈ l' → b ∈ l) ∧ (length l' ≤ length l)%nat ∧ (n1 = n ∨ ∃ b, b ∈ l ∧ bp + 8 * n1 = b.1 + 8 * b.2) ∧
    ∀ x, covered ((bp, n1) :: l') x ↔ covered ((bp, n) :: l) x.
Proof using.
  unfold KERNBASE. intros (_ & _ & Hseg) Hn Hn1 Hbase Hp Hbp Hl Hsp. simpl in Hseg. unfold free_next. step. rewrite Hn. step.
  remember (ld32 (u_mem s) p) as q eqn:Hpq. unfold hplus. rewrite u32_small by lia.
  destruct (Z.eqb_spec (bp + 8 * n) q) as [Eq|Hne].
  - destruct l as [|[q' k] l]; simpl in Hseg; [lia|]. destruct Hseg as (<- & Hk & Hseg).
    destruct (Hl (q, k)) as (_ & Hk1 & Hk2); [left|]. simpl in Hk1, Hk2. step. rewrite Hk. step. step.
    set (m0 := st32 (u_mem s) (bp + 4) (u32 (n + k))).
    assert (∀ x, ¬ (bp + 4 ≤ x < bp + 8) → m0 x = u_mem s x) as Hm0 by (intros x Hx; apply st32_out; lia).
    change (u_mem (s <| u_mem ::= λ m, st32 m (bp + 4) (u32 (n + k)) |>)) with m0.
    assert (ld32 m0 p = q) as -> by (rewrite Hpq; apply ld32_ext; intros i Hi; apply Hm0; lia).
    step. change (u_mem (s <| u_mem ::= λ m, st32 m (bp + 4) (u32 (n + k)) |>)) with m0.
    assert (ld32 m0 q = ld32 (u_mem s) q) as -> by (apply ld32_ext; intros i Hi; apply Hm0; lia).
    set (r := ld32 (u_mem s) q) in *. destruct Hsp as [Hall Hsp]. rewrite list.Forall_forall in Hall. simpl in Hall.
    exists (st32 m0 bp r), (n + k), l. split_and!; [done| | | |lia|set_solver|simpl; lia|right; exists (q, k); simpl; split; [left|lia]|].
    + intros x Hx. unfold m0. rewrite !st32_out by lia. done.
    + apply seg_link.
      * eapply seg_frame; [|exact Hseg]. intros b x Hb Hx. apply Hm0. destruct (Hall b Hb). lia.
      * unfold m0. rewrite ld32_st32_eq. assert (u32 (n + k) = n + k) as -> by (apply u32_small; lia). by apply u32_small; lia.
      * destruct l as [|b l]; simpl in Hseg; [lia|]. destruct (Hl b) as (? & ? & ?); [set_solver|]. destruct Hseg as [-> _]. lia.
      * intros b Hb. destruct (Hall b Hb). lia.
    + split; [|done]. apply list.Forall_forall. intros b Hb. simpl. destruct (Hall b Hb). lia.
    + intros x. split.
      * intros (b & [->|Hb]%elem_of_cons & Hx); [|exists b; split; [set_solver|done]]. unfold inside in Hx. simpl in Hx.
        destruct (decide (x < q)); [exists (bp, n)|exists (q, k)]; (split; [set_solver|unfold inside; simpl; lia]).
      * intros (b & [->|[->|Hb]%elem_of_cons]%elem_of_cons & Hx); [exists (bp, n + k)..|exists b]; (split; [set_solver|]);
          unfold inside in *; simpl in *; lia.
  - assert (0 ≤ q < 2 ^ 32) as Hq.
    { destruct l as [|b l]; simpl in Hseg; [lia|]. destruct (Hl b) as (? & ? & ?); [left|]. destruct Hseg as [-> _]. lia. }
    exists (st32 (u_mem s) bp q), n, l. split_and!; [done| | | | |done|done|by left|done].
    + intros x Hx. apply st32_out. lia.
    + apply seg_link; [done..|]. intros b Hb. destruct (Hl b Hb). lia.
    + split; [|done]. apply list.Forall_forall. intros b Hb. simpl. destruct l as [|c l]; [set_solver|].
      destruct Hseg as [Eq _]. destruct (Hl c) as (? & ? & ?); [left|]. apply elem_of_cons in Hb as [->|Hb]; [lia|].
      destruct Hsp as [Hall _]. rewrite list.Forall_forall in Hall. specialize (Hall b Hb). lia.
    + lia.
Qed.

Lemma free_prev_run s bp n p ps l :
  seg (u_mem s) bp ((bp, n) :: l) base → spaced ((bp, n) :: l) → ld32 (u_mem s) (p + 4) = ps → 1 ≤ n → 0 ≤ ps →
  0 < base ≤ p → p + 8 ≤ bp → p + 8 * ps ≤ bp → (∀ b, b ∈ (bp, n) :: l → b.1 + 8 * b.2 ≤ KERNBASE) →
  (∀ b, b ∈ l → 1 ≤ b.2) →
  ∃ m2 ps' l', free_prev bp p s = Ok tt (Uheap m2 (u_freep s) (u_brk s)) ∧
    (∀ x, ¬ (p ≤ x < p + 8) → m2 x = u_mem s x) ∧
    seg m2 p ((p, ps') :: l') base ∧ spaced ((p, ps') :: l') ∧ (p = base → ps = 0 → ps' = 0) ∧ ps ≤ ps' ∧
    (∀ b, b ∈ l' → b ∈ (bp, n) :: l) ∧ (length l' ≤ S (length l))%nat ∧ (ps' = ps ∨ p + 8 * ps' = bp + 8 * n) ∧
    (∃ b, b ∈ (p, ps') :: l' ∧ b.1 ≤ bp ∧ bp + 8 * n ≤ b.1 + 8 * b.2) ∧
    ∀ x, covered ((p, ps') :: l') x ↔ covered ((p, ps) :: (bp, n) :: l) x.
Proof using.
  unfold KERNBASE. intros Hseg Hsp Hps Hn Hps0 Hbase Hp Hpb Hle Hl. pose proof Hseg as (_ & Hn' & Hseg'). simpl in Hn', Hseg'.
  pose proof Hsp as [Hall Hsp']. rewrite list.Forall_forall in Hall. simpl in Hall.
  pose proof (Hle (bp, n) ltac:(left)) as Hbn. simpl in Hbn.
  unfold free_prev. step. rewrite Hps. unfold hplus. rewrite u32_small by lia.
  destruct (Z.eqb_spec (p + 8 * ps) bp) as [Eq|Hne].
  - step. rewrite Hn'. step. step. set (m0 := st32 (u_mem s) (p + 4) (u32 (ps + n))).
    assert (∀ x, ¬ (p + 4 ≤ x < p + 8) → m0 x = u_mem s x) as Hm0 by (intros x Hx; apply st32_out; lia).
    change (u_mem (s <| u_mem ::= λ m, st32 m (p + 4) (u32 (ps + n)) |>)) with m0.
    assert (ld32 m0 bp = ld32 (u_mem s) bp) as -> by (apply ld32_ext; intros i Hi; apply Hm0; lia).
    set (r := ld32 (u_mem s) bp) in *.
    exists (st32 m0 p r), (ps + n), l. split_and!; [done| | | |lia|lia|set_solver|lia|right; lia| |].
    + intros x Hx. unfold m0. rewrite !st32_out by lia. done.
    + apply seg_link.
      * eapply seg_frame; [|exact Hseg']. intros b x Hb Hx. apply Hm0. destruct (Hall b Hb). lia.
      * unfold m0. rewrite ld32_st32_eq. assert (u32 (ps + n) = ps + n) as -> by (apply u32_small; lia). apply u32_small; lia.
      * destruct l as [|b l]; simpl in Hseg'; [lia|]. pose proof (Hle b ltac:(set_solver)). specialize (Hl b ltac:(left)).
        destruct (Hall b ltac:(left)). destruct Hseg' as [-> _]. lia.
      * intros b Hb. destruct (Hall b Hb). lia.
    + split; [|done]. apply list.Forall_forall. intros b Hb. simpl. destruct (Hall b Hb). lia.
    + exists (p, ps + n). split; [left|simpl; lia].
    + intros x. split.
      * intros (b & [->|Hb]%elem_of_cons & Hx); [|exists b; split; [set_solver|done]]. unfold inside in Hx. simpl in Hx.
        destruct (decide (x < bp)); [exists (p, ps)|exists (bp, n)]; (split; [set_solver|unfold inside; simpl; lia]).
      * intros (b & [->|[->|Hb]%elem_of_cons]%elem_of_cons & Hx); [exists (p, ps + n)..|exists b]; (split; [set_solver|]);
          unfold inside in *; simpl in *; lia.
  - exists (st32 (u_mem s) p bp), ps, ((bp, n) :: l). split_and!; [done| | | |done|lia|done|simpl; lia|by left| |done].
    + intros x Hx. apply st32_out. lia.
    + apply seg_link; [done|done|lia|]. intros b [->|Hb]%elem_of_cons; simpl; [lia|]. destruct (Hall b Hb). lia.
    + split; [|done]. apply list.Forall_forall. intros b [->|Hb]%elem_of_cons; simpl; [lia|]. destruct (Hall b Hb). lia.
    + exists (bp, n). split; [set_solver|simpl; lia].
Qed.

Lemma covered_app l1 l2 x : covered (l1 ++ l2) x ↔ covered l1 x ∨ covered l2 x.
Proof using. unfold covered. setoid_rewrite elem_of_app. naive_solver. Qed.
Lemma covered_cons b l x : covered (b :: l) x ↔ inside b x ∨ covered l x.
Proof using. unfold covered. setoid_rewrite elem_of_cons. naive_solver. Qed.

(** The blocks around a live block. *)
Lemma live_between s fl A bp n l1 p ps l2 :
  heap_ok s fl A → A !! bp = Some n → (base, 0) :: fl = l1 ++ (p, ps) :: l2 → p < bp → (∀ b, b ∈ l2 → bp < b.1) →
  (∀ b, b ∈ l1 ++ [(p, ps)] → b.1 + 8 * b.2 ≤ bp ∧ b.1 + 8 ≤ bp) ∧
  (∀ b, b ∈ l2 → bp + 8 * n ≤ b.1 ∧ 1 ≤ b.2 ∧ b.1 + 8 * b.2 ≤ u_brk s) ∧ base ≤ p ∧ 0 ≤ ps.
Proof using.
  intros [Hb Hf Hring Hsp Hfree Hlive Hap Hlap] Hbp E Hp Hl2. destruct (Hlive _ _ Hbp) as (Hn & Hbase & _).
  assert (∀ b, b ∈ l1 ++ (p, ps) :: l2 → b = (base, 0) ∨ b ∈ fl) as Hin by (rewrite <-E; set_solver).
  pose proof Hsp as Hsp'. rewrite E in Hsp'. apply spaced_app in Hsp' as (_ & _ & H12).
  assert (∀ b, b ∈ l2 → b ∈ fl) as Hl2f.
  { intros b Hb2. destruct (Hin b ltac:(set_solver)) as [->|?]; [specialize (Hl2 _ Hb2); simpl in Hl2; lia|done]. }
  split_and!.
  - intros b Hb1. assert (b.1 < bp) as Hlt.
    { apply elem_of_app in Hb1 as [Hb1|Hb1]; [|apply list_elem_of_singleton in Hb1; by subst b].
      specialize (H12 b (p, ps) Hb1 ltac:(left)). simpl in H12. lia. }
    destruct (Hin b) as [->|Hbf]; [set_solver|simpl; lia|]. destruct (Hfree b Hbf). destruct (Hap _ _ _ Hbp Hbf) as [Hd|Hd]; simpl in Hd; lia.
  - intros b Hb2. pose proof (Hl2f b Hb2) as Hbf. specialize (Hl2 b Hb2). destruct (Hfree b Hbf).
    destruct (Hap _ _ _ Hbp Hbf) as [Hd|Hd]; simpl in Hd; lia.
  - destruct (Hin (p, ps)) as [[= -> _]|Hpf]; [set_solver|lia|]. destruct Hsp as [Hall _]. rewrite list.Forall_forall in Hall.
    specialize (Hall _ Hpf). simpl in Hall. lia.
  - destruct (Hin (p, ps)) as [[= _ ->]|Hpf]; [set_solver|lia|]. destruct (Hfree _ Hpf). simpl in *. lia.
Qed.

Lemma apart_no_common b c :
  1 ≤ b.2 → 1 ≤ c.2 → (∀ x, inside b x → inside c x → False) → apart b c.
Proof using. unfold apart, inside. intros ? ? Hx. specialize (Hx (Z.max b.1 c.1)). lia. Qed.
Lemma apart_inside b c x : apart b c → inside b x → inside c x → False.
Proof using. unfold apart, inside. lia. Qed.

(** Live blocks stay what they are when the new free blocks cover only what was free
    or has been given back. *)
Lemma heap_ok_freed s fl A bp n s' fl' :
  heap_ok s fl A → A !! bp = Some n → u_brk s' = u_brk s → u_freep s' ∈ ((base, 0) :: fl').*1 →
  seg (u_mem s') base ((base, 0) :: fl') base → spaced ((base, 0) :: fl') →
  (∀ b, b ∈ fl' → 1 ≤ b.2 ∧ b.1 + 8 * b.2 ≤ u_brk s) →
  (∀ x, covered fl' x → covered fl x ∨ inside (bp, n) x) →
  (∀ a k x, delete bp A !! a = Some k → inside (a, k) x → u_mem s' x = u_mem s x) →
  heap_ok s' fl' (delete bp A).
Proof using.
  intros [Hb Hf Hring Hsp Hfree Hlive Hap Hlap] Hbp Hbrk Hf' Hring' Hsp' Hfree' Hcov Hm. split.
  - by rewrite Hbrk.
  - done.
  - done.
  - done.
  - intros b Hb'. rewrite Hbrk. by apply Hfree'.
  - intros a k Ha. pose proof Ha as [_ Ha']%lookup_delete_Some. destruct (Hlive a k Ha') as (? & ? & ? & Hs). rewrite Hbrk.
    split_and!; [done..|]. etransitivity; [|exact Hs]. apply ld32_ext. intros i Hi. apply (Hm a k); [done|]. unfold inside. simpl. lia.
  - intros a k [b j] [Hne Ha]%lookup_delete_Some Hb'. destruct (Hlive a k Ha) as (Hk & _). destruct (Hfree' _ Hb') as [Hj _].
    apply apart_no_common; [done|done|]. intros x Hx1 Hx2. destruct (Hcov x) as [(c & Hc & Hx)|Hx]; [by exists (b, j)| |].
    + by apply (apart_inside (a, k) c x); [apply Hap|..].
    + by apply (apart_inside (a, k) (bp, n) x); [apply Hlap|..].
  - intros a k a' k' [_ Ha]%lookup_delete_Some [_ Ha']%lookup_delete_Some. by apply Hlap.
Qed.

(** The lists after merging: what [free_next_run] and [free_prev_run] give, put together. *)
Lemma free_lists fl l1 p ps l2 bp n n1 l2' ps' l' B :
  (base, 0) :: fl = l1 ++ (p, ps) :: l2 → spaced ((base, 0) :: fl) → (∀ b, b ∈ fl → 1 ≤ b.2 ∧ b.1 + 8 * b.2 ≤ B) →
  p < bp → base < bp → 1 ≤ n ≤ n1 → bp + 8 * n1 ≤ B →
  (∀ b, b ∈ l2' → b ∈ l2) → (∀ b, b ∈ l2 → bp < b.1) → (∀ x, covered ((bp, n1) :: l2') x ↔ covered ((bp, n) :: l2) x) →
  spaced ((p, ps') :: l') → (p = base → ps = 0 → ps' = 0) → ps ≤ ps' → (∀ b, b ∈ l' → b ∈ (bp, n1) :: l2') →
  (ps' = ps ∨ p + 8 * ps' = bp + 8 * n1) → (∃ b, b ∈ (p, ps') :: l' ∧ b.1 ≤ bp ∧ bp + 8 * n1 ≤ b.1 + 8 * b.2) →
  (∀ x, covered ((p, ps') :: l') x ↔ covered ((p, ps) :: (bp, n1) :: l2') x) →
  ∃ fl', (base, 0) :: fl' = l1 ++ (p, ps') :: l' ∧ spaced ((base, 0) :: fl') ∧
    (∀ b, b ∈ fl' → 1 ≤ b.2 ∧ b.1 + 8 * b.2 ≤ B) ∧ (∀ x, covered fl' x ↔ covered fl x ∨ inside (bp, n) x) ∧
    (∃ b, b ∈ fl' ∧ b.1 ≤ bp ∧ bp + 8 * n ≤ b.1 + 8 * b.2) ∧ (p = base ∨ (p, ps) ∈ fl ∧ 1 ≤ ps).
Proof using.
  intros E Hsp Hfree Hp Hbase Hn Hn1 Hsub1 Hl2 Hcov1 Hspc2 Hps' Hps Hsub2 Hend2 Hbig Hcov2.
  assert (∃ fl', (base, 0) :: fl' = l1 ++ (p, ps') :: l') as [fl' E'].
  { destruct l1 as [|b l1]; [|injection E as <- _; by exists (l1 ++ (p, ps') :: l')].
    injection E as <- <- <-. exists l'. simpl. by rewrite (Hps' eq_refl eq_refl). }
  assert (∀ b, b ∈ l1 ∨ b ∈ (p, ps) :: l2 → b = (base, 0) ∨ b ∈ fl) as Hin.
  { intros b Hb. apply elem_of_cons. rewrite E. by apply elem_of_app. }
  rewrite E in Hsp. apply spaced_app in Hsp as (Hsp1 & _ & H12).
  assert (spaced ((base, 0) :: fl')) as Hsp'.
  { rewrite E'. apply spaced_app. split_and!; [done|done|]. intros b c Hb1 Hc.
    pose proof (H12 b (p, ps) Hb1 ltac:(left)) as Hbp0. simpl in Hbp0.
    apply elem_of_cons in Hc as [->|Hc]; [done|]. apply Hsub2, elem_of_cons in Hc as [->|Hc]; [simpl; lia|].
    apply H12; [done|]. right. by apply Hsub1. }
  exists fl'. split_and!; [done|done| | | |].
  - intros b Hb1. destruct Hsp' as [Hall _]. rewrite list.Forall_forall in Hall. specialize (Hall b Hb1). simpl in Hall.
    assert (b ∈ l1 ++ (p, ps') :: l') as Hb2 by (rewrite <-E'; by right).
    apply elem_of_app in Hb2 as [Hb2|Hb2]; [|apply elem_of_cons in Hb2 as [->|Hb2]].
    + destruct (Hin b) as [->|?]; [by left|simpl in Hall; lia|by apply Hfree].
    + simpl in *. destruct (Hin (p, ps)) as [[= -> ->]|Hpf]; [right; left|lia|]. destruct (Hfree _ Hpf). simpl in *. lia.
    + apply Hsub2, elem_of_cons in Hb2 as [->|Hb2]; [simpl; lia|]. pose proof (Hl2 b (Hsub1 b Hb2)).
      destruct (Hin b) as [->|?]; [right; right; by apply Hsub1|simpl in *; lia|by apply Hfree].
  - clear -E E' Hcov1 Hcov2. intros x. assert (∀ l, covered l x ↔ covered ((base, 0) :: l) x) as Hbc.
    { intros l. rewrite covered_cons. unfold inside at 1. simpl. split; [by right|]. intros [?|?]; [lia|done]. }
    rewrite (Hbc fl), (Hbc fl'), E, E', !covered_app, Hcov2, (covered_cons (p, ps)), Hcov1, !covered_cons. tauto.
  - destruct Hbig as (b & Hb1 & Hb2 & Hb3). exists b. split_and!; [|done|lia].
    assert (b ∈ (base, 0) :: fl') as [->|?]%elem_of_cons by (rewrite E'; apply elem_of_app; by right); [simpl in Hb3; lia|done].
  - destruct (Hin (p, ps)) as [[= -> ->]|Hpf]; [right; left|by left|right]. split; [done|]. apply (Hfree _ Hpf).
Qed.

Lemma free_run s fl A bp n :
  heap_ok s fl A → A !! bp = Some n → (2 * length fl + 2 < rounds)%nat →
  ∃ m f fl', free rounds (bp + 8) s = Ok tt (Uheap m f (u_brk s)) ∧ heap_ok (Uheap m f (u_brk s)) fl' (delete bp A) ∧
    (length fl' ≤ S (length fl))%nat ∧
    (∃ b, b ∈ fl' ∧ b.1 ≤ bp ∧ bp + 8 * n ≤ b.1 + 8 * b.2) ∧
    (∀ x, covered fl' x ↔ covered fl x ∨ inside (bp, n) x) ∧
    (∀ x, ¬ covered fl' x → ¬ (base ≤ x < base + 8) → m x = u_mem s x).
Proof using.
  intros Hok Hbp Hr. pose proof Hok as [Hb Hf Hring Hsp Hfree Hlive Hap Hlap].
  destruct (free_loop_run s fl A bp n Hok Hbp Hr) as (l1 & p & ps & l2 & E & Hrun & Hp & Hl2).
  destruct (live_between s fl A bp n l1 p ps l2 Hok Hbp E Hp Hl2) as (Hbefore & Hafter & Hbp' & Hps).
  destruct (Hlive _ _ Hbp) as (Hn & Hbase & Hbrk & Hsz). pose proof (Hbefore (p, ps) ltac:(set_solver)) as [Hp1 Hp2]. simpl in Hp1, Hp2.
  pose proof Hring as Hring'. pose proof Hsp as Hsp'. rewrite E in Hring', Hsp'.
  apply seg_app in Hring' as (r & Hs1 & Hs2). assert (r = p) as -> by apply Hs2.
  apply spaced_app in Hsp' as (Hsp1 & Hsp2 & H12).
  destruct (free_next_run s bp n p ps l2 Hs2 Hsz Hn) as (m1 & n1 & l2' & Hrun1 & Hm1 & Hseg1 & Hspc1 & Hn1 & Hsub1 & Hlen1 & Hend1 & Hcov1);
    [lia|lia|lia|intros b Hb2; specialize (Hafter b Hb2); lia|apply Hsp2|].
  assert (bp + 8 * n1 ≤ u_brk s) as Hbrk1.
  { destruct Hend1 as [->|(b & Hb2 & ->)]; [lia|]. specialize (Hafter b Hb2). lia. }
  destruct (free_prev_run (Uheap m1 (u_freep s) (u_brk s)) bp n1 p ps l2' Hseg1 Hspc1) as
    (m2 & ps' & l' & Hrun2 & Hm2 & Hseg2 & Hspc2 & Hps' & Hps'' & Hsub2 & Hlen2 & Hend2 & Hbig & Hcov2); [|lia|lia|lia|lia|lia| | |].
  { destruct Hs2 as (_ & Hps2 & _). etransitivity; [|exact Hps2]. apply ld32_ext. intros i Hi. apply Hm1. simpl. lia. }
  { intros b [->|Hb2]%elem_of_cons; simpl; [lia|]. specialize (Hafter b (Hsub1 b Hb2)). lia. }
  { intros b Hb2. specialize (Hafter b (Hsub1 b Hb2)). lia. }
  destruct (free_lists fl l1 p ps l2 bp n n1 l2' ps' l' (u_brk s)) as (fl' & E' & Hsp' & Hfree' & Hcov & Hbig' & Hpin);
    [done..|lia|lia|done|done|done|done|done|done|done|done|done|done|done|].
  assert (∀ x, ¬ inside (bp, n) x → ¬ (p ≤ x < p + 8) → m2 x = u_mem s x) as Hch.
  { intros x Hx1 Hx2. rewrite Hm2 by done. apply Hm1. unfold inside in Hx1. simpl in *. lia. }
  exists m2, p, fl'. split_and!.
  - unfold free, hplus. rewrite u32_small by (unfold KERNBASE in *; lia). replace (bp + 8 + 8 * -1) with bp by lia. step.
    rewrite (bind_ok _ _ _ _ _ Hrun), (bind_ok _ _ _ _ _ Hrun1), (bind_ok _ _ _ _ _ Hrun2). done.
  - apply (heap_ok_freed s fl A bp n); [done|done|done| | |done|done|intros x; apply Hcov|].
    + rewrite E', fmap_app. apply elem_of_app. right. left.
    + rewrite E'. apply seg_app. exists p. split; [|done]. eapply seg_frame; [|exact Hs1]. intros b x Hb1 Hx.
      pose proof (H12 b (p, ps) Hb1 ltac:(left)) as Hbp0. simpl in Hbp0. apply Hch; [unfold inside; simpl; lia|lia].
    + intros a k x [Hne Ha]%lookup_delete_Some Hx. apply Hch.
      * intros Hx'. by apply (apart_inside (a, k) (bp, n) x); [apply Hlap|..].
      * intros Hx'. destruct Hpin as [->|[Hpf Hps1]]; [destruct (Hlive a k Ha); unfold inside in Hx; simpl in Hx; lia|].
        apply (apart_inside (a, k) (p, ps) x); [by apply Hap|done|unfold inside; simpl; lia].
  - apply (f_equal length) in E, E'. rewrite !length_app in *. simpl in *. lia.
  - done.
  - done.
  - intros x Hx Hx'. apply Hch; [intros ?; apply Hx, Hcov; by right|]. intros Hpx.
    destruct Hpin as [->|[Hpf Hps1]]; [done|]. apply Hx, Hcov. left. exists (p, ps). split; [done|]. unfold inside. simpl. lia.
Qed.

(** ** Taking a block *)

Lemma free_above s fl A b : heap_ok s fl A → b ∈ fl → base + 8 ≤ b.1.
Proof using.
  intros Hok Hb. destruct (ho_spaced _ _ _ Hok) as [Hall _]. rewrite list.Forall_forall in Hall. apply (Hall b Hb).
Qed.

(** A block cut out of the free ones is handed out. *)
Lemma heap_ok_taken s fl A p n s' fl' :
  heap_ok s fl A → 1 ≤ n → u_brk s' = u_brk s → u_freep s' ∈ ((base, 0) :: fl').*1 →
  seg (u_mem s') base ((base, 0) :: fl') base → spaced ((base, 0) :: fl') →
  (∀ b, b ∈ fl' → 1 ≤ b.2 ∧ b.1 + 8 * b.2 ≤ u_brk s) →
  (∀ x, covered fl' x → covered fl x) → (∀ x, inside (p, n) x → covered fl x ∧ ¬ covered fl' x) →
  ld32 (u_mem s') (p + 4) = n →
  (∀ x, ¬ covered fl x → ¬ (base ≤ x < base + 8) → u_mem s' x = u_mem s x) →
  A !! p = None ∧ heap_ok s' fl' (<[p := n]> A).
Proof using.
  intros Hok Hn Hbrk Hf' Hring' Hsp' Hfree' Hcov Hin Hpn Hm. pose proof Hok as [Hb Hf Hring Hsp Hfree Hlive Hap Hlap].
  assert (∀ a k x, A !! a = Some k → inside (a, k) x → ¬ covered fl x) as Hdis.
  { intros a k x Ha Hx (b & Hb1 & Hxb). by apply (apart_inside (a, k) b x); [apply Hap|..]. }
  assert (A !! p = None) as Hp.
  { destruct (A !! p) as [k|] eqn:Hk; [|done]. destruct (Hlive p k Hk) as [? _]. exfalso.
    apply (Hdis p k p Hk); [unfold inside; simpl; lia|]. apply Hin. unfold inside. simpl. lia. }
  assert (∀ a k, A !! a = Some k → apart (a, k) (p, n)) as Hpa.
  { intros a k Ha. apply apart_no_common; [apply (Hlive a k Ha)|done|]. intros x Hx1 Hx2. apply (Hdis a k x Ha Hx1), Hin, Hx2. }
  split; [done|]. split.
  - by rewrite Hbrk.
  - done.
  - done.
  - done.
  - intros b Hb'. rewrite Hbrk. by apply Hfree'.
  - intros a k [[<- <-]|[Hne Ha]]%lookup_insert_Some; rewrite Hbrk.
    + destruct (Hin p) as [(b & Hb1 & Hx1) _]; [unfold inside; simpl; lia|].
      destruct (Hin (p + 8 * n - 1)) as [(c & Hc1 & Hx2) _]; [unfold inside; simpl; lia|].
      pose proof (free_above s fl A b Hok Hb1). destruct (Hfree c Hc1). unfold inside in *. split_and!; [done|lia|lia|done].
    + destruct (Hlive a k Ha) as (? & ? & ? & Hs). split_and!; [done..|]. etransitivity; [|exact Hs]. apply ld32_ext.
      intros i Hi. apply Hm; [|lia]. apply (Hdis a k); [done|]. unfold inside. simpl. lia.
  - intros a k b [[<- <-]|[Hne Ha]]%lookup_insert_Some Hb'.
    + apply apart_no_common; [done|apply (Hfree' b Hb')|]. intros x Hx1 Hx2. apply (Hin x Hx1). by exists b.
    + apply apart_no_common; [apply (Hlive a k Ha)|apply (Hfree' b Hb')|]. intros x Hx1 Hx2.
      apply (Hdis a k x Ha Hx1), Hcov. by exists b.
  - intros a k a' k' [[<- <-]|[Hne Ha]]%lookup_insert_Some [[<- <-]|[Hne' Ha']]%lookup_insert_Some Hd; [done| | |by apply Hlap].
    + destruct (Hpa a' k' Ha'); [right|left]; done.
    + by apply Hpa.
Qed.

(** Where [malloc] found a block: after [w], the last of the blocks [k]. *)
Definition found (fl k : list block) (w : Z) (y : block) (l : list block) : Prop :=
  fl = k ++ y :: l ∧ ∃ l1 ws, (base, 0) :: k = l1 ++ [(w, ws)].

Lemma found_facts s fl A k w y ys l :
  heap_ok s fl A → found fl k w (y, ys) l →
  seg (u_mem s) base ((base, 0) :: k) y ∧ seg (u_mem s) (ld32 (u_mem s) y) l base ∧ ld32 (u_mem s) (y + 4) = ys ∧
  spaced ((base, 0) :: k) ∧ spaced l ∧
  (∀ b, b ∈ (base, 0) :: k → b.1 + 8 * b.2 < y ∧ b.1 + 8 ≤ y) ∧
  (∀ b, b ∈ l → y + 8 * ys < b.1) ∧
  (∀ b c, b ∈ (base, 0) :: k → c ∈ l → b.1 + 8 * b.2 < c.1 ∧ b.1 + 8 ≤ c.1) ∧
  1 ≤ ys ∧ y + 8 * ys ≤ u_brk s.
Proof using.
  intros [Hb Hf Hring Hsp Hfree Hlive Hap Hlap] [-> _]. destruct (Hfree (y, ys)) as [Hy1 Hy2]; [apply elem_of_app; right; left|].
  rewrite app_comm_cons in Hring, Hsp. apply seg_app in Hring as (r & Hs1 & -> & Hs2 & Hs3).
  apply spaced_app in Hsp as (? & [Hl Hsp2] & Hcross). rewrite list.Forall_forall in Hl. split_and!; try done.
  - intros b Hb'. apply (Hcross b (y, ys)); [done|left].
  - intros b Hb'. apply (Hl b Hb').
  - intros b c Hb' Hc. apply Hcross; [done|by right].
Qed.

(** The block is used up. *)
Lemma take_exact s fl A k w y ys l :
  heap_ok s fl A → found fl k w (y, ys) l →
  ∃ m, take_block ys w y ys s = Ok (y + 8) (Uheap m w (u_brk s)) ∧
    A !! y = None ∧ heap_ok (Uheap m w (u_brk s)) (k ++ l) (<[y := ys]> A) ∧
    (∀ x, ¬ covered fl x → ¬ (base ≤ x < base + 8) → m x = u_mem s x).
Proof using.
  intros Hok Hfound. pose proof (found_facts _ _ _ _ _ _ _ _ Hok Hfound) as (Hs1 & Hs2 & Hys & Hsp1 & Hsp2 & Hk & Hl & Hkl & Hy1 & Hy2).
  destruct Hfound as [E (l1 & ws & Ew)]. pose proof Hok as [Hb Hf Hring Hsp Hfree Hlive Hap Hlap].
  assert ((w, ws) ∈ (base, 0) :: k) as Hw by (rewrite Ew; apply elem_of_app; right; left).
  destruct (Hk _ Hw) as [Hw1 Hw2]. simpl in Hw1, Hw2. unfold KERNBASE in Hb.
  pose proof (Hk (base, 0) ltac:(left)) as [_ Hby]. simpl in Hby.
  set (r := ld32 (u_mem s) y) in *. set (m := st32 (u_mem s) w r).
  assert (∀ x, ¬ (w ≤ x < w + 8) → m x = u_mem s x) as Hm by (intros x Hx; apply st32_out; lia).
  assert (∀ x, ¬ covered fl x → ¬ (base ≤ x < base + 8) → m x = u_mem s x) as Hframe.
  { intros x Hx1 Hx2. apply Hm. intros Hx. apply elem_of_cons in Hw as [[= -> ->]|Hw]; [done|]. apply Hx1. exists (w, ws).
    assert ((w, ws) ∈ fl) as Hwf by (rewrite E; apply elem_of_app; by left).
    split; [done|]. destruct (Hfree _ Hwf). unfold inside. simpl in *. lia. }
  assert (0 ≤ r < 2 ^ 32) as Hr.
  { destruct l as [|b l]; simpl in Hs2; [lia|]. specialize (Hl b ltac:(left)). destruct (Hfree b) as [? ?];
    [rewrite E; apply elem_of_app; right; right; left|]. destruct Hs2 as [-> _]. lia. }
  exists m. split; [|].
  { unfold take_block. rewrite Z.eqb_refl. transitivity (Ok (hplus y 1) (Uheap m w (u_brk s))); [done|].
    unfold hplus. by rewrite u32_small by lia. }
  enough (A !! y = None ∧ heap_ok (Uheap m w (u_brk s)) (k ++ l) (<[y:=ys]> A)) by tauto.
  assert (∀ b, b ∈ k ++ l → b ∈ fl) as Hsub by (intros b; rewrite E, !elem_of_app, elem_of_cons; tauto).
  apply (heap_ok_taken s fl A); try done.
  - rewrite app_comm_cons, Ew, !fmap_app. apply elem_of_app. left. apply elem_of_app. right. left.
  - rewrite app_comm_cons. apply seg_app. exists r. split.
    + rewrite Ew in Hs1 |- *. rewrite Ew in Hsp1. apply spaced_app in Hsp1 as (_ & _ & Hcw).
      apply seg_app in Hs1 as (w' & Hs1 & -> & Hws & _). apply seg_app. exists w. split.
      * eapply seg_frame; [|exact Hs1]. intros b x Hb1 Hx. apply Hm. specialize (Hcw b (w, ws) Hb1 ltac:(left)). simpl in Hcw. lia.
      * simpl in *. unfold m. rewrite ld32_st32_eq, u32_small by done. split_and!; [done| |done].
        etransitivity; [|exact Hws]. apply ld32_st32_ne. lia.
    + eapply seg_frame; [|exact Hs2]. intros b x Hb1 Hx. apply Hm. specialize (Hl b Hb1). lia.
  - rewrite app_comm_cons. by apply spaced_app.
  - intros b Hb1. by apply Hfree, Hsub.
  - intros x (b & Hb1 & Hx). exists b. auto.
  - intros x Hx. split; [exists (y, ys); split; [rewrite E; apply elem_of_app; right; left|done]|].
    intros (b & [Hb1|Hb1]%elem_of_app & Hxb); unfold inside in *; simpl in *.
    + destruct (Hk b); [by right|]. lia.
    + specialize (Hl b Hb1). lia.
  - simpl. etransitivity; [|exact Hys]. apply ld32_st32_ne. lia.
Qed.

(** The block is split: its end is handed out. *)
Lemma take_split s fl A k w y ys l n :
  heap_ok s fl A → found fl k w (y, ys) l → 1 ≤ n < ys →
  let p := y + 8 * (ys - n) in
  ∃ m, take_block n w y ys s = Ok (p + 8) (Uheap m w (u_brk s)) ∧
    A !! p = None ∧ heap_ok (Uheap m w (u_brk s)) (k ++ (y, ys - n) :: l) (<[p := n]> A) ∧
    (∀ x, ¬ covered fl x → ¬ (base ≤ x < base + 8) → m x = u_mem s x).
Proof using.
  intros Hok Hfound Hn p. pose proof (found_facts _ _ _ _ _ _ _ _ Hok Hfound) as (Hs1 & Hs2 & Hys & Hsp1 & Hsp2 & Hk & Hl & Hkl & Hy1 & Hy2).
  destruct Hfound as [E (l1 & ws & Ew)]. pose proof Hok as [Hb Hf Hring Hsp Hfree Hlive Hap Hlap].
  unfold KERNBASE in Hb. pose proof (Hk (base, 0) ltac:(left)) as [_ Hby]. simpl in Hby.
  set (m0 := st32 (u_mem s) (y + 4) (ys - n)). set (m := st32 m0 (p + 4) n).
  assert ((y, ys) ∈ fl) as Hyf by (rewrite E; apply elem_of_app; right; left).
  assert (∀ x, ¬ (y + 4 ≤ x < y + 8) → ¬ (p + 4 ≤ x < p + 8) → m x = u_mem s x) as Hm.
  { intros x Hx1 Hx2. unfold m, m0. by rewrite !st32_out by lia. }
  assert (∀ x, ¬ inside (y, ys) x → m x = u_mem s x) as Hm'.
  { intros x Hx. unfold inside in Hx. simpl in Hx. apply Hm; lia. }
  assert (∀ x, ¬ covered fl x → ¬ (base ≤ x < base + 8) → m x = u_mem s x) as Hframe.
  { intros x Hx1 _. apply Hm'. intros Hx. apply Hx1. by exists (y, ys). }
  exists m. split.
  { unfold take_block. rewrite (proj2 (Z.eqb_neq _ _)) by lia. rewrite (u32_small (ys - n)) by lia.
    transitivity (Ok (hplus (hplus y (ld32 m0 (y + 4))) 1) (Uheap (st32 m0 (hplus y (ld32 m0 (y + 4)) + 4) n) w (u_brk s))); [done|].
    assert (hplus y (ld32 m0 (y + 4)) = p) as ->.
    { unfold m0. rewrite ld32_st32_eq, u32_small by lia. apply u32_small. lia. }
    unfold hplus. by rewrite u32_small by lia. }
  enough (A !! p = None ∧ heap_ok (Uheap m w (u_brk s)) (k ++ (y, ys - n) :: l) (<[p:=n]> A)) by tauto.
  assert (∀ x, covered (k ++ (y, ys - n) :: l) x ↔ covered (k ++ l) x ∨ inside (y, ys - n) x) as Hcov'.
  { intros x. rewrite !covered_app, covered_cons. tauto. }
  assert (∀ x, covered fl x ↔ covered (k ++ l) x ∨ inside (y, ys) x) as Hcov.
  { intros x. rewrite E, !covered_app, covered_cons. tauto. }
  apply (heap_ok_taken s fl A); try done.
  - lia.
  - rewrite app_comm_cons, Ew, !fmap_app. apply elem_of_app. left. apply elem_of_app. right. left.
  - rewrite app_comm_cons. apply seg_app. exists y. split.
    + eapply seg_frame; [|exact Hs1]. intros b x Hb1 Hx. destruct (Hk b Hb1). apply Hm; lia.
    + simpl. split_and!; [done| |].
      * unfold m. rewrite ld32_st32_ne by lia. unfold m0. rewrite ld32_st32_eq. apply u32_small. lia.
      * replace (ld32 m y) with (ld32 (u_mem s) y) by (apply ld32_ext; intros i Hi; symmetry; apply Hm; lia).
        eapply seg_frame; [|exact Hs2]. intros b x Hb1 Hx. specialize (Hl b Hb1). apply Hm; lia.
  - rewrite app_comm_cons. apply spaced_app. split_and!; [done| |].
    + split; [|done]. apply list.Forall_forall. intros b Hb1. simpl. specialize (Hl b Hb1). lia.
    + intros b c Hb1 [->|Hc]%elem_of_cons; [by apply Hk|by apply Hkl].
  - intros b [Hb1|[->|Hb1]%elem_of_cons]%elem_of_app; [apply Hfree; rewrite E; apply elem_of_app; by left|simpl; lia|].
    apply Hfree. rewrite E. apply elem_of_app. right. by right.
  - intros x. rewrite Hcov, Hcov'. unfold inside. simpl. intros [?|?]; [by left|right; lia].
  - intros x Hx. rewrite Hcov, Hcov'. unfold inside in *. simpl in *. split; [right; lia|]. intros [(b & Hb1 & Hxb)|?]; [|lia].
    unfold inside in Hxb. apply elem_of_app in Hb1 as [Hb1|Hb1]; [destruct (Hk b); [by right|lia]|specialize (Hl b Hb1); lia].
  - simpl. unfold m. rewrite ld32_st32_eq. apply u32_small. lia.
Qed.

(** ** The search of malloc *)

(** Blocks handed out keep their bytes. *)
Definition kept (s s' : uheap) (A : gmap Z Z) : Prop :=
  ∀ a k x, A !! a = Some k → inside (a, k) x → u_mem s' x = u_mem s x.

Lemma live_uncovered s fl A a k x :
  heap_ok s fl A → A !! a = Some k → inside (a, k) x → ¬ covered fl x ∧ ¬ (base ≤ x < base + 8).
Proof using.
  intros Hok Ha Hx. destruct (ho_live _ _ _ Hok a k Ha) as (_ & ? & _). unfold inside in Hx. simpl in Hx. split; [|lia].
  intros (b & Hb & Hxb). by apply (apart_inside (a, k) b x); [eapply ho_apart|..].
Qed.

(** What malloc gives for [n] headers: a block that was not handed out. *)
Definition granted (s : uheap) (A : gmap Z Z) (n : Z) (o : outcome uheap Z) : Prop :=
  ∃ p s' fl', o = Ok (p + 8) s' ∧ A !! p = None ∧ heap_ok s' fl' (<[p := n]> A) ∧ kept s s' A.

Lemma take_run s fl A k w y ys l n :
  heap_ok s fl A → found fl k w (y, ys) l → 1 ≤ n ≤ ys → granted s A n (take_block n w y ys s).
Proof using.
  intros Hok Hfound Hn. destruct (decide (n = ys)) as [->|].
  - destruct (take_exact s fl A k w y ys l Hok Hfound) as (m & Hr & Hp & Hok' & Hm). eexists _, _, _.
    split_and!; [exact Hr|done|exact Hok'|]. intros a j x Ha Hx. by apply Hm; apply (live_uncovered s fl A a j x Hok Ha Hx).
  - destruct (take_split s fl A k w y ys l n Hok Hfound ltac:(lia)) as (m & Hr & Hp & Hok' & Hm). eexists _, _, _.
    split_and!; [exact Hr|done|exact Hok'|]. intros a j x Ha Hx. by apply Hm; apply (live_uncovered s fl A a j x Hok Ha Hx).
Qed.

Fixpoint last_addr (d : Z) (l : list block) : Z :=
  match l with [] => d | b :: l => last_addr b.1 l end.

Lemma last_addr_snoc b l : ∃ l1 ws, b :: l = l1 ++ [(last_addr b.1 l, ws)].
Proof using.
  revert b. induction l as [|c l IH]; intros b; simpl; [exists [], b.2; by destruct b|].
  destruct (IH c) as (l1 & ws & E). exists (b :: l1), ws. simpl. by rewrite <-E.
Qed.

Context (enough : Z → Z → bool).

Lemma scan_run l N n prevp p q s :
  seg (u_mem s) p l q → (∀ b, b ∈ l → b.1 ≠ u_freep s) → (length l ≤ N)%nat →
  (∃ l1 y ys l2, l = l1 ++ (y, ys) :: l2 ∧ n ≤ ys ∧
     malloc_loop enough rounds N n prevp p s = take_block n (last_addr prevp l1) y ys s) ∨
  ((∀ b, b ∈ l → b.2 < n) ∧
     malloc_loop enough rounds N n prevp p s = malloc_loop enough rounds (N - length l) n (last_addr prevp l) q s).
Proof using.
  revert N prevp p. induction l as [|[a k] l IH]; intros N prevp p Hseg Hne HN.
  { right. split; [set_solver|]. simpl in Hseg. subst q. simpl. by rewrite Nat.sub_0_r. }
  destruct Hseg as (-> & Hk & Hseg). simpl in Hk. destruct N as [|N]; [simpl in HN; lia|]. cbn [malloc_loop fst].
  step. rewrite Hk. destruct (Z.leb_spec n k).
  - left. exists [], a, k, l. done.
  - step. rewrite (proj2 (Z.eqb_neq a _)) by (apply (Hne (a, k)); left). step.
    destruct (IH N a (ld32 (u_mem s) a) Hseg) as [(l1 & y & ys & l2 & E & Hy & Hr)|[Hall Hr]];
      [intros b Hb; apply Hne; by right|simpl in HN; lia| |].
    + left. exists ((a, k) :: l1), y, ys, l2. rewrite E. done.
    + right. split; [|done]. intros b [->|Hb]%elem_of_cons; [simpl; lia|auto].
Qed.

(** The search goes once around the ring, from the block after [freep]. *)
Lemma search_run s fl A N n :
  heap_ok s fl A → 1 ≤ n → (length fl + 1 < N)%nat →
  (∃ k w y ys l, found fl k w (y, ys) l ∧ n ≤ ys ∧
     malloc_loop enough rounds N n (u_freep s) (ld32 (u_mem s) (u_freep s)) s = take_block n w y ys s) ∨
  ((∀ b, b ∈ fl → b.2 < n) ∧ ∃ N', (N' = N - length fl - 1)%nat ∧
     malloc_loop enough rounds N n (u_freep s) (ld32 (u_mem s) (u_freep s)) s =
       (p <- morecore enough rounds n; if p =? 0 then ret 0 else q <- hptr p; malloc_loop enough rounds N' n p q) s).
Proof using.
  intros [Hb Hf Hring Hsp Hfree Hlive Hap Hlap] Hn HN.
  apply list_elem_of_fmap in Hf as ([f fs] & Ef & Hf). simpl in Ef. rewrite Ef.
  apply list_elem_of_split in Hf as (k1 & k2 & E). rewrite E in Hring, Hsp.
  apply seg_app in Hring as (r & Hs1 & -> & Hfs & Hs2). simpl in Hfs, Hs2.
  apply spaced_app in Hsp as (_ & [H2 _] & H1). rewrite list.Forall_forall in H2.
  apply (f_equal length) in E as El. rewrite length_app in El. simpl in El.
  assert (k1 = [] ∧ f = base ∧ fs = 0 ∧ fl = k2 ∨ ∃ k, k1 = (base, 0) :: k ∧ fl = k ++ (f, fs) :: k2) as Hk1.
  { destruct k1 as [|b k]; [left; by injection E as <- <- ->|right; injection E as <- ->; eauto]. }
  destruct (scan_run k2 N n f (ld32 (u_mem s) f) base s Hs2) as [(l1 & y & ys & l2 & E2 & Hy & Hr)|[Hsm2 Hr]]; [|lia| |].
  { intros b Hb'. rewrite Ef. specialize (H2 b Hb'). simpl in H2. lia. }
  { left. destruct (last_addr_snoc (f, fs) l1) as (l1' & ws & Ew). simpl in Ew.
    destruct Hk1 as [(-> & -> & -> & ->)|(k & -> & ->)].
    - exists l1, (last_addr base l1), y, ys, l2. split; [|done]. split; [done|]. eauto.
    - exists (k ++ (f, fs) :: l1), (last_addr f l1), y, ys, l2. split; [|done].
      split; [by rewrite E2, <-app_assoc|]. exists ((base, 0) :: k ++ l1'), ws. simpl. by rewrite Ew, app_assoc. }
  rewrite Hr. clear Hr.
  destruct (scan_run k1 (N - length k2) n (last_addr f k2) base f s Hs1) as [(l1 & y & ys & l2 & E1 & Hy & Hr)|[Hsm1 Hr]]; [|lia| |].
  { intros b Hb'. rewrite Ef. specialize (H1 b (f, fs) Hb' ltac:(left)). simpl in H1. lia. }
  { left. destruct Hk1 as [(-> & _)|(k & -> & ->)]; [by destruct l1|]. destruct l1 as [|b l1]; injection E1 as E0 E1.
    { subst. lia. }
    subst b. destruct (last_addr_snoc (base, 0) l1) as (l1' & ws & Ew).
    exists l1, (last_addr base l1), y, ys, (l2 ++ (f, fs) :: k2). split; [|done]. split; [by rewrite E1, <-app_assoc|]. eauto. }
  rewrite Hr. clear Hr. replace (N - length k2 - length k1)%nat with (S (N - length fl - 1)) by lia. cbn [malloc_loop].
  step. rewrite Hfs. destruct (Z.leb_spec n fs).
  - left. destruct Hk1 as [(_ & _ & -> & _)|(k & -> & ->)]; [lia|]. destruct (last_addr_snoc (base, 0) k) as (l1' & ws & Ew).
    exists k, (last_addr base k), f, fs, k2. split; [|done]. split; [done|]. eauto.
  - right. split.
    + destruct Hk1 as [(_ & _ & _ & ->)|(k & -> & ->)]; [done|].
      intros b [Hb'|[->|Hb']%elem_of_cons]%elem_of_app; [apply Hsm1; by right|done|by apply Hsm2].
    + eexists. split; [reflexivity|]. step. by rewrite Ef, Z.eqb_refl.
Qed.

(** ** More memory *)

Lemma heap_ok_grow s fl A nu m :
  heap_ok s fl A → 1 ≤ nu → u_brk s + 8 * nu ≤ KERNBASE → (∀ x, x < u_brk s → m x = u_mem s x) →
  ld32 m (u_brk s + 4) = nu →
  A !! u_brk s = None ∧ heap_ok (Uheap m (u_freep s) (u_brk s + 8 * nu)) fl (<[u_brk s := nu]> A).
Proof using.
  intros Hok Hnu Hle Hm Hsz. pose proof Hok as [Hb Hf Hring Hsp Hfree Hlive Hap Hlap]. set (B := u_brk s) in *.
  assert (∀ b, b ∈ (base, 0) :: fl → b.1 + 8 ≤ B) as Hhdr.
  { intros b [->|Hb']%elem_of_cons; [simpl; lia|]. destruct (Hfree b Hb'). lia. }
  assert (A !! B = None) as HB.
  { destruct (A !! B) as [k|] eqn:Hk; [|done]. destruct (Hlive _ _ Hk). lia. }
  split; [done|]. split; cbn [u_mem u_freep u_brk]; try done.
  - lia.
  - eapply seg_frame; [|exact Hring]. intros b x Hb' Hx. apply Hm. specialize (Hhdr b Hb'). lia.
  - intros b Hb'. destruct (Hfree b Hb'). lia.
  - intros a k [[<- <-]|[Hne Ha]]%lookup_insert_Some; [split_and!; [done|lia|lia|done]|].
    destruct (Hlive a k Ha) as (? & ? & ? & Hs). split_and!; [done|done|lia|]. etransitivity; [|exact Hs].
    apply ld32_ext. intros i Hi. apply Hm. lia.
  - intros a k b [[<- <-]|[Hne Ha]]%lookup_insert_Some Hb'; [|by apply Hap]. right. destruct (Hfree b Hb'). simpl. lia.
  - intros a k a' k' [[<- <-]|[Hne Ha]]%lookup_insert_Some [[<- <-]|[Hne' Ha']]%lookup_insert_Some Hd; [done| | |by apply Hlap].
    + right. destruct (Hlive _ _ Ha'). simpl. lia.
    + left. destruct (Hlive _ _ Ha). simpl. lia.
Qed.

Lemma sbrk_run n s :
  0 < n < 2 ^ 31 → 0 ≤ u_brk s ≤ KERNBASE →
  sbrk enough n s = Ok (2 ^ 32 - 1) s ∨
  ∃ m, sbrk enough n s = Ok (u_brk s) (Uheap m (u_freep s) (u_brk s + n)) ∧ u_brk s + n < KERNBASE ∧
    ∀ x, x < u_brk s → m x = u_mem s x.
Proof using.
  unfold KERNBASE. intros Hn Hb. unfold sbrk. step. rewrite s32_small by lia. rewrite u32_small by lia.
  rewrite (proj2 (Z.ltb_lt 0 n)) by lia. unfold KERNBASE. destruct (Z.leb_spec 0x80000000 (u_brk s + n)); [by left|].
  rewrite (proj2 (Z.ltb_ge (u_brk s + n) (u_brk s))) by lia. destruct (enough (u_brk s) (u_brk s + n)); [right|by left].
  eexists. split; [reflexivity|]. split; [done|]. intros x Hx. simpl.
  rewrite PGROUNDUP_eq by lia. assert (u_brk s ≤ (u_brk s + 4095) `div` 4096 * 4096).
  { pose proof (Z.div_mod (u_brk s + 4095) 4096 ltac:(lia)). pose proof (Z.mod_pos_bound (u_brk s + 4095) 4096 ltac:(lia)). lia. }
  by rewrite (proj2 (Z.leb_gt _ x)) by lia.
Qed.

Lemma morecore_run s fl A n :
  heap_ok s fl A → 1 ≤ n < 2 ^ 28 → (2 * length fl + 2 < rounds)%nat →
  morecore enough rounds n s = Ok 0 s ∨
  ∃ s' fl', morecore enough rounds n s = Ok (u_freep s') s' ∧ u_freep s' ≠ 0 ∧ heap_ok s' fl' A ∧
    (∃ b, b ∈ fl' ∧ n ≤ b.2) ∧ (length fl' ≤ S (length fl))%nat ∧ kept s s' A.
Proof using.
  intros Hok Hn Hr. pose proof (ho_base _ _ _ Hok) as Hb. unfold morecore. set (nu := if n <? 4096 then 4096 else n).
  assert (n ≤ nu ∧ 4096 ≤ nu < 2 ^ 28) as Hnu by (unfold nu; destruct (Z.ltb_spec n 4096); lia).
  rewrite u32_small by lia. destruct (sbrk_run (nu * 8) s) as [Hs|(m & Hs & Hlt & Hm)]; [lia|lia| |].
  { left. by rewrite (bind_ok _ _ _ _ _ Hs). }
  right. replace (u_brk s + nu * 8) with (u_brk s + 8 * nu) in Hs, Hlt by lia.
  rewrite (bind_ok _ _ _ _ _ Hs). unfold KERNBASE in *. rewrite (proj2 (Z.eqb_neq _ _)) by lia.
  set (s1 := Uheap (st32 m (u_brk s + 4) nu) (u_freep s) (u_brk s + 8 * nu)).
  destruct (heap_ok_grow s fl A nu (st32 m (u_brk s + 4) nu) Hok) as [HB Hok1]; [lia|unfold KERNBASE; lia| | |].
  { intros x Hx. rewrite st32_out by lia. by apply Hm. }
  { rewrite ld32_st32_eq. apply u32_small. lia. }
  fold s1 in Hok1. destruct (free_run s1 fl _ (u_brk s) nu Hok1) as (m' & f & fl' & Hrun & Hok' & Hlen & (b & Hb1 & Hb2 & Hb3) & Hcov & Hfr);
    [apply lookup_insert_eq|done|].
  rewrite delete_insert_id in Hok' by done.
  rewrite (bind_ok _ _ _ tt s1) by done. unfold hplus. rewrite u32_small by lia. rewrite Z.mul_1_r. rewrite (bind_ok _ _ _ _ _ Hrun).
  eexists _, fl'. split_and!; [reflexivity| |exact Hok'|exists b; split; [done|lia]|done|].
  - pose proof (ho_freep _ _ _ Hok') as (c & Hc & Hc')%list_elem_of_fmap. simpl in Hc |- *. rewrite Hc.
    apply elem_of_cons in Hc' as [->|Hc']; [simpl; lia|]. pose proof (free_above _ _ _ _ Hok' Hc'). lia.
  - intros a k x Ha Hx. simpl. destruct (live_uncovered _ _ _ a k x Hok' Ha Hx). rewrite Hfr by done. simpl.
    destruct (ho_live _ _ _ Hok a k Ha) as (_ & _ & Hend & _). unfold inside in Hx. simpl in Hx.
    rewrite st32_out by lia. apply Hm. lia.
Qed.

Lemma malloc_loop_run s fl A n N :
  heap_ok s fl A → 1 ≤ n < 2 ^ 28 → (2 * length fl + 2 < rounds)%nat → (2 * length fl + 5 < N)%nat →
  (∀ b, b ∈ fl → b.2 < n) ∧ malloc_loop enough rounds N n (u_freep s) (ld32 (u_mem s) (u_freep s)) s = Ok 0 s ∨
  granted s A n (malloc_loop enough rounds N n (u_freep s) (ld32 (u_mem s) (u_freep s)) s).
Proof using.
  intros Hok Hn Hr HN.
  destruct (search_run s fl A N n Hok) as [(k & w & y & ys & l & Hfd & Hys & Hrun)|[Hsm (N' & HN' & Hrun)]]; [lia|lia| |].
  { right. rewrite Hrun. apply (take_run s fl A k w y ys l); [done|done|lia]. }
  rewrite Hrun. destruct (morecore_run s fl A n Hok Hn Hr) as [Hm|(s1 & fl1 & Hm & Hf1 & Hok1 & (b & Hb & Hbn) & Hlen & Hk1)].
  { left. split; [done|]. by rewrite (bind_ok _ _ _ _ _ Hm). }
  right. rewrite (bind_ok _ _ _ _ _ Hm). rewrite (proj2 (Z.eqb_neq _ 0)) by done. step.
  destruct (search_run s1 fl1 A N' n Hok1) as [(k & w & y & ys & l & Hfd & Hys & Hrun1)|[Hsm1 _]]; [lia|lia| |].
  - rewrite Hrun1. destruct (take_run s1 fl1 A k w y ys l n Hok1 Hfd) as (p & s2 & fl2 & Hr2 & Hp & Hok2 & Hk2); [lia|].
    exists p, s2, fl2. split_and!; [done..|]. intros a j x Ha Hx. rewrite (Hk2 a j x Ha Hx). by apply (Hk1 a j x).
  - specialize (Hsm1 b Hb). lia.
Qed.

(** Before the first call [freep] is NULL. *)
Definition fresh (s : uheap) : Prop := u_freep s = 0 ∧ 0 < base ∧ base + 8 ≤ u_brk s ≤ KERNBASE.

End heap.

Lemma malloc_init base s : fresh base s → heap_ok base (Uheap (st32 (st32 (u_mem s) base base) (base + 4) 0) base (u_brk s)) [] ∅.
Proof.
  unfold fresh, KERNBASE. intros (_ & ? & ?). split; simpl; try done; try (intros; set_solver).
  - rewrite ld32_st32_eq, ld32_st32_ne by lia. rewrite ld32_st32_eq. split_and!; [done..|]. apply u32_small. lia.
Qed.

(** The headers of a request: one for the header and enough for the bytes. *)
Definition units (nbytes : Z) : Z := (nbytes + 7) `div` 8 + 1.

Lemma malloc_run base enough rounds s fl A nbytes :
  heap_ok base s fl A ∨ fresh base s ∧ fl = [] ∧ A = ∅ →
  0 ≤ nbytes < 2 ^ 30 → (2 * length fl + 5 < rounds)%nat →
  (∃ s', malloc base enough rounds nbytes s = Ok 0 s' ∧ heap_ok base s' fl A ∧ (∀ b, b ∈ fl → b.2 < units nbytes) ∧ kept s s' A) ∨
  granted base s A (units nbytes) (malloc base enough rounds nbytes s).
Proof.
  intros Hs Hn Hr. unfold malloc. assert (u32 (u32 (nbytes + 8 - 1) `div` 8 + 1) = units nbytes) as ->.
  { unfold units. rewrite (u32_small (nbytes + 8 - 1)) by lia. replace (nbytes + 8 - 1) with (nbytes + 7) by lia.
    apply u32_small. pose proof (Z.div_pos (nbytes + 7) 8). pose proof (Z.div_le_upper_bound (nbytes + 7) 8 (2 ^ 28)). lia. }
  assert (1 ≤ units nbytes < 2 ^ 28) as Hu.
  { unfold units. pose proof (Z.div_pos (nbytes + 7) 8). pose proof (Z.div_le_upper_bound (nbytes + 7) 8 (2 ^ 27 + 1)). lia. }
  step. destruct Hs as [Hok|(Hfresh & -> & ->)].
  - assert (u_freep s ≠ 0) as Hf.
    { pose proof (ho_freep _ _ _ _ Hok) as (c & -> & Hc)%list_elem_of_fmap. pose proof (ho_base _ _ _ _ Hok).
      apply elem_of_cons in Hc as [->|Hc]; [simpl; lia|]. pose proof (free_above _ _ _ _ _ Hok Hc). lia. }
    rewrite (proj2 (Z.eqb_neq _ 0)) by done. step. step.
    destruct (malloc_loop_run base rounds enough s fl A (units nbytes) (rounds + rounds) Hok) as [[Hsm Hrun]|Hg]; [done|lia|lia| |by right].
    left. exists s. split_and!; [done..|]. by intros a k x.
  - set (s0 := Uheap (st32 (st32 (u_mem s) base base) (base + 4) 0) base (u_brk s)). destruct Hfresh as (Hf & Hfr).
    rewrite (proj2 (Z.eqb_eq _ 0)) by done. rewrite (bind_ok _ _ _ base s0) by done. step.
    assert (heap_ok base s0 [] ∅) as Hok by (by apply malloc_init).
    destruct (malloc_loop_run base rounds enough s0 [] ∅ (units nbytes) (rounds + rounds) Hok) as [[Hsm Hrun]|Hg];
      [done|simpl in *; lia|simpl in *; lia| |].
    + left. exists s0. split_and!; [done..|]. by intros a k x ?%lookup_empty_Some.
    + right. destruct Hg as (p & s' & fl' & Hg & ? & ? & ?). exists p, s', fl'. split_and!; [done..|].
      by intros a k x ?%lookup_empty_Some.
Qed.

(** C10: malloc of fewer than 2^30 bytes on a consistent heap, or the first one, returns:
    NULL, and then no free block is large enough for the request and the heap is as before,
    or a pointer to a block of at least [nbytes] bytes that was not handed out, and the heap
    is consistent with it handed out. No byte of a block handed out before changes.  (For
    requests near 2^32 the number of units wraps, and from 2^31 on sbrk is asked to shrink.) *)
Theorem malloc_grants base enough rounds s fl A nbytes :
  heap_ok base s fl A ∨ fresh base s ∧ fl = [] ∧ A = ∅ →
  0 ≤ nbytes < 2 ^ 30 → (2 * length fl + 5 < rounds)%nat →
  ∃ r s', malloc base enough rounds nbytes s = Ok r s' ∧ kept s s' A ∧
    (r = 0 ∧ heap_ok base s' fl A ∧ (∀ b, b ∈ fl → b.2 < units nbytes) ∨
     ∃ p n fl', r = p + 8 ∧ nbytes ≤ 8 * (n - 1) ∧ A !! p = None ∧ heap_ok base s' fl' (<[p := n]> A)).
Proof.
  intros Hs Hn Hr. destruct (malloc_run base enough rounds s fl A nbytes Hs Hn Hr) as [(s' & Hrun & Hok & Hsm & Hk)|Hg].
  - exists 0, s'. split_and!; [done..|]. left. done.
  - destruct Hg as (p & s' & fl' & Hrun & Hp & Hok & Hk). exists (p + 8), s'. split_and!; [done..|]. right.
    exists p, (units nbytes), fl'. split_and!; [done| |done|done]. unfold units.
    pose proof (Z.div_mod (nbytes + 7) 8 ltac:(lia)). pose proof (Z.mod_pos_bound (nbytes + 7) 8 ltac:(lia)). lia.
Qed.

(** C21: free of a block handed out returns: the free blocks cover what they covered and
    the block, still in address order and with no two of them adjacent, so the block has
    been merged with its free neighbours. No byte of another block handed out changes. *)
Theorem free_coalesces base rounds s fl A bp n :
  heap_ok base s fl A → A !! bp = Some n → (2 * length fl + 2 < rounds)%nat →
  ∃ s' fl', free rounds (bp + 8) s = Ok tt s' ∧ heap_ok base s' fl' (delete bp A) ∧ kept s s' (delete bp A) ∧
    ∀ x, covered fl' x ↔ covered fl x ∨ inside (bp, n) x.
Proof.
  intros Hok Hbp Hr. destruct (free_run base rounds s fl A bp n Hok Hbp Hr) as (m & f & fl' & Hrun & Hok' & _ & _ & Hcov & Hm).
  exists (Uheap m f (u_brk s)), fl'. split_and!; [done|done| |done]. intros a k x Ha Hx.
  by apply Hm; apply (live_uncovered _ _ _ _ a k x Hok' Ha Hx).
Qed.
