(* ===== verification/Grep.v ===== *)
(** * The matcher of grep (grep.c)

    The functions of Kernighan and Pike, on strings as lists of characters without the
    NUL, and the loop over the reads of a file.  The reference semantics of a pattern is
    the set of texts its items describe. *)
From S2P Require Import Prelude CString Ulib.

Definition CARET : Z := 94.
Definition STAR : Z := 42.
Definition DOLLAR : Z := 36.
Definition PERIOD : Z := 46.
Definition NL : Z := 10.

(** ** The functions *)

(** The loop of matchstar, [here] being [matchhere(re, .)]. *)
Fixpoint matchstar (here : list Z → bool) (c : Z) (text : list Z) : bool :=
  if here text then true else
  match text with
  | [] => false
  | t :: text' => if (t =? c) || (c =? PERIOD) then matchstar here c text' else false
  end.

Fixpoint matchhere (re text : list Z) {struct re} : bool :=
  match re with
  | [] => true
  | c :: re1 =>
      match re1 with
      | d :: re2 =>
          if d =? STAR then matchstar (matchhere re2) c text else
          match text with
          | t :: text' => if (c =? PERIOD) || (c =? t) then matchhere re1 text' else false
          | [] => false
          end
      | [] =>
          if c =? DOLLAR then bool_decide (text = []) else
          match text with
          | t :: text' => if (c =? PERIOD) || (c =? t) then matchhere re1 text' else false
          | [] => false
          end
      end
  end.

(** The loop of match. *)
Fixpoint match_from (re text : list Z) : bool :=
  if matchhere re text then true else
  match text with [] => false | _ :: text' => match_from re text' end.

Definition grep_match (re text : list Z) : bool :=
  match re with
  | c :: re1 => if c =? CARET then matchhere re1 text else match_from re text
  | [] => match_from re text
  end.

(** The inner loop of grep, from [p]: the bytes written, and [p] at the end. *)
Fixpoint grep_lines (n : nat) (pattern p : list Z) : list Z * list Z :=
  match n with
  | O => ([], p)
  | S n =>
      match strchr (cz p) NL with
      | Some (Some q) =>
          let line := take q p in
          let '(out, p') := grep_lines n pattern (drop (S q) p) in
          ((if grep_match pattern line then line ++ [NL] else []) ++ out, p')
      | _ => ([], p)
      end
  end.

(** grep, given what its calls of read return; [kept] is [buf[0..m)]. *)
Fixpoint grep (pattern kept : list Z) (reads : list (list Z)) : list Z :=
  match reads with
  | [] => []
  | r :: reads =>
      let r := take (1024 - length kept - 1) r in
      if bool_decide (r = []) then [] else
      let b := kept ++ r in
      let '(out, p) := grep_lines (length b) pattern b in
      let kept' := if bool_decide (length p = length b) then [] else p in
      out ++ grep pattern kept' reads
  end.

(** ** Patterns *)

(** An item of a pattern: one character, any number of them, or the end of the text. *)
Inductive item :=
  | One (c : Z)
  | Many (c : Z)
  | End_of_text.

Definition fits (c t : Z) : Prop := c = PERIOD ∨ c = t.

(** [matches items text]: a prefix of [text] is what the items describe. *)
Fixpoint matches (re : list item) (text : list Z) : Prop :=
  match re with
  | [] => True
  | One c :: re => ∃ t text', text = t :: text' ∧ fits c t ∧ matches re text'
  | Many c :: re => ∃ ts text', text = ts ++ text' ∧ Forall (fits c) ts ∧ matches re text'
  | End_of_text :: re => text = [] ∧ matches re []
  end.

(** Reading a pattern: a character before a star is repeated, a dollar sign at the
    end stands for the end of the text. *)
Fixpoint items (re : list Z) : list item :=
  match re with
  | [] => []
  | c :: re1 =>
      match re1 with
      | d :: re2 => if d =? STAR then Many c :: items re2 else One c :: items re1
      | [] => if c =? DOLLAR then [End_of_text] else [One c]
      end
  end.

Lemma matchstar_spec here (P : list Z → Prop) c text :
  (∀ t, here t = true ↔ P t) →
  matchstar here c text = true ↔ ∃ ts text', text = ts ++ text' ∧ Forall (fits c) ts ∧ P text'.
Proof.
  intros HP. induction text as [|t text IH]; cbn [matchstar].
  - destruct (here []) eqn:E.
    + split; [|done]. intros _. exists [], []. split_and!; [done|constructor|by apply HP].
    + split; [done|]. intros (ts & text' & Heq & _ & Hp). symmetry in Heq. apply app_nil in Heq as [-> ->].
      apply HP in Hp. congruence.
  - destruct (here (t :: text)) eqn:E.
    + split; [|done]. intros _. exists [], (t :: text). split_and!; [done|constructor|by apply HP].
    + destruct ((t =? c) || (c =? PERIOD)) eqn:Ec.
      * rewrite IH. split; intros (ts & text' & Heq & Hts & Hp).
        -- exists (t :: ts), text'. split_and!; [by rewrite Heq| |done]. constructor; [|done].
           apply orb_true_iff in Ec as [Ex%Z.eqb_eq|Ex%Z.eqb_eq]; subst; [by right|by left].
        -- destruct ts as [|t' ts]; [simpl in Heq; subst; apply HP in Hp; congruence|].
           injection Heq as -> ->. apply list.Forall_cons in Hts as [_ Hts]. eauto.
      * split; [done|]. intros (ts & text' & Heq & Hts & Hp).
        destruct ts as [|t' ts]; [simpl in Heq; subst; apply HP in Hp; congruence|].
        injection Heq as <- _. apply list.Forall_cons in Hts as [[->| ->] _]; [by rewrite orb_true_r in Ec|].
        by rewrite Z.eqb_refl in Ec.
Qed.

Lemma fits_spec c t : (c =? PERIOD) || (c =? t) = true ↔ fits c t.
Proof. unfold fits. by rewrite orb_true_iff, !Z.eqb_eq. Qed.

Lemma matchhere_spec n re text : (length re ≤ n)%nat → matchhere re text = true ↔ matches (items re) text.
Proof.
  revert re text. induction n as [|n IH]; intros re text Hn.
  { destruct re; [done|simpl in Hn; lia]. }
  destruct re as [|c [|d re2]]; [done| |]; cbn [matchhere items].
  - destruct (c =? DOLLAR).
    + rewrite bool_decide_eq_true. simpl. tauto.
    + cbn [matches]. destruct text as [|t text]; [naive_solver|]. destruct (_ || _) eqn:E.
      * apply fits_spec in E. naive_solver.
      * split; [done|]. intros (t' & text' & [= <- <-] & Hf & _). apply fits_spec in Hf. congruence.
  - destruct (d =? STAR).
    + apply matchstar_spec. intros t. apply IH. simpl in Hn. lia.
    + cbn [matches]. destruct text as [|t text]; [naive_solver|]. destruct (_ || _) eqn:E.
      * etransitivity; [apply (IH (d :: re2) text); simpl in *; lia|]. apply fits_spec in E. naive_solver.
      * split; [done|]. intros (t' & text' & [= <- <-] & Hf & _). apply fits_spec in Hf. congruence.
Qed.

Lemma match_from_spec re text :
  match_from re text = true ↔ ∃ pre suf, text = pre ++ suf ∧ matches (items re) suf.
Proof.
  induction text as [|t text IH]; cbn [match_from].
  - destruct (matchhere re []) eqn:E.
    + split; [|done]. intros _. exists [], []. split; [done|]. by eapply matchhere_spec.
    + split; [done|]. intros (pre & suf & Heq & Hm). symmetry in Heq. apply app_nil in Heq as [-> ->].
      apply (matchhere_spec (length re)) in Hm; [congruence|done].
  - destruct (matchhere re (t :: text)) eqn:E.
    + split; [|done]. intros _. exists [], (t :: text). split; [done|]. by eapply matchhere_spec.
    + rewrite IH. split; intros (pre & suf & Heq & Hm).
      * exists (t :: pre), suf. by rewrite Heq.
      * destruct pre as [|t' pre]; [|injection Heq as -> ->; eauto].
        simpl in Heq. subst suf. apply (matchhere_spec (length re)) in Hm; [congruence|done].
Qed.

(** C40: grep's matcher implements the patterns.  It accepts a line exactly when the
    items of the pattern describe a piece of the line that starts anywhere, or at the
    beginning if the pattern starts with a caret. *)
Theorem grep_match_spec re text :
  grep_match re text = true ↔
  match re with
  | c :: re1 => if decide (c = CARET) then matches (items re1) text
                else ∃ pre suf, text = pre ++ suf ∧ matches (items re) suf
  | [] => True
  end.
Proof.
  destruct re as [|c re]; cbn [grep_match].
  - split; [done|]. intros _. by apply match_from_spec; exists [], text.
  - case_decide as E.
    + subst c. change (CARET =? CARET) with true. cbv iota. by eapply matchhere_spec.
    + rewrite (proj2 (Z.eqb_neq _ _)) by done. apply match_from_spec.
Qed.

(** ** Lines *)

(** What grep prints of a list of lines. *)
Definition print_matching (pattern : list Z) (ls : list (list Z)) : list Z :=
  concat ((λ l, if grep_match pattern l then l ++ [NL] else []) <$> ls).

Lemma find_nl p q :
  find_index (λ c, c =? NL) p = Some q → split_on NL p = take q p :: split_on NL (drop (S q) p).
Proof.
  revert q. induction p as [|c p IH]; intros q Hq; [done|]. simpl in Hq |- *. destruct (c =? NL).
  - by injection Hq as <-.
  - apply fmap_Some in Hq as (q' & Hq & ->). rewrite (IH q') by done. done.
Qed.

Lemma find_no_nl p : find_index (λ c, c =? NL) p = None → split_on NL p = [p].
Proof.
  induction p as [|c p IH]; [done|]. simpl. destruct (c =? NL); [done|]. intros Hn%fmap_None. by rewrite IH.
Qed.

Lemma cstr_cz p : 0 ∉ p → cstr (cz p) = Some p.
Proof.
  induction p as [|c p IH]; intros Hn; [done|]. apply not_elem_of_cons in Hn as [? Hn].
  change (cz (c :: p)) with (c :: cz p). cbn [cstr]. rewrite (proj2 (Z.eqb_neq c 0)) by congruence. by rewrite IH.
Qed.

Lemma grep_lines_spec n pattern p :
  (length p ≤ n)%nat → 0 ∉ p →
  grep_lines n pattern p =
    (print_matching pattern (removelast (split_on NL p)), List.last (split_on NL p) []).
Proof.
  revert p. induction n as [|n IH]; intros p Hn Hz.
  { destruct p; [done|simpl in Hn; lia]. }
  cbn [grep_lines]. rewrite (strchr_find _ _ p) by (done || by apply cstr_cz).
  destruct (find_index _ p) as [q|] eqn:E; [|by rewrite (find_no_nl p E)].
  rewrite (find_nl p q E). assert (q < length p)%nat.
  { apply find_index_Some in E as (x & Hx & _). by eapply lookup_lt_Some. }
  rewrite IH; [|rewrite length_drop; lia|].
  - destruct (split_on NL (drop (S q) p)) eqn:Es; [by destruct (split_on_nonempty NL (drop (S q) p))|done].
  - intros Hin. apply Hz. rewrite <-(take_drop (S q) p). apply elem_of_app. by right.
Qed.

(** The text after the last newline. *)
Definition tail_of (l : list Z) : list Z := List.last (split_on NL l) [].

Lemma split_on_two l : NL ∈ l → ∃ e e' es, split_on NL l = e :: e' :: es.
Proof.
  induction l as [|c l IH]; intros Hin; [by apply elem_of_nil in Hin|]. simpl.
  destruct (Z.eqb_spec c NL) as [->|Hc].
  - destruct (split_on NL l) eqn:E; [by destruct (split_on_nonempty NL l)|eauto].
  - apply elem_of_cons in Hin as [?|Hin]; [done|]. destruct (IH Hin) as (e & e' & es & ->). eauto.
Qed.

Lemma tail_of_app k r : NL ∈ r → tail_of (k ++ r) = tail_of r.
Proof.
  intros Hin. induction k as [|c k IH]; [done|]. unfold tail_of in *. simpl.
  destruct (split_on_two (k ++ r)) as (e & e' & es & E); [set_solver|]. rewrite E in *. by destruct (c =? NL).
Qed.

Lemma tail_of_spec l : NL ∈ l → (length (tail_of l) < length l)%nat ∧ (NL ∉ tail_of l) ∧ ∀ x, x ∈ tail_of l → x ∈ l.
Proof.
  induction l as [|c l IH]; intros Hin; [by apply elem_of_nil in Hin|].
  destruct (decide (NL ∈ l)) as [Hl|Hl].
  - destruct (IH Hl) as (H1 & H2 & H3).
    assert (tail_of (c :: l) = tail_of l) as -> by (by apply (tail_of_app [c])).
    split_and!; [simpl; lia|done|set_solver].
  - assert (c = NL) as -> by set_solver. assert (split_on NL l = [l]) as El.
    { apply find_no_nl, find_index_None. intros x Hx. apply Z.eqb_neq. set_solver. }
    unfold tail_of. simpl. rewrite El. simpl. split_and!; [lia|done|set_solver].
Qed.

(** Grep prints exactly the lines that match, whatever the pieces in which the
    file is read, as long as every read ends a line and at most half a buffer is read
    at a time. *)
Theorem grep_prints_matching pattern kept reads :
  Forall (λ r, NL ∈ r ∧ (0 ∉ r) ∧ (length r ≤ 511)%nat) reads →
  0 ∉ kept → NL ∉ kept → (length kept ≤ 511)%nat →
  grep pattern kept reads = print_matching pattern (removelast (split_on NL (kept ++ concat reads))).
Proof.
  intros Hr. revert kept. induction Hr as [|r reads (Hnl & Hz & Hlen) Hr IH]; intros kept Hk Hkn Hkl.
  - simpl. rewrite app_nil_r. assert (split_on NL kept = [kept]) as ->; [|done].
    apply find_no_nl, find_index_None. intros x Hx. apply Z.eqb_neq. set_solver.
  - cbn [grep concat]. rewrite take_ge by lia. rewrite bool_decide_false by (intros ->; by apply elem_of_nil in Hnl).
    rewrite grep_lines_spec by (done || set_solver). fold (tail_of (kept ++ r)).
    destruct (tail_of_spec (kept ++ r)) as (Ht1 & Ht2 & Ht3); [set_solver|].
    rewrite bool_decide_false by lia. rewrite tail_of_app in * by done.
    destruct (tail_of_spec r Hnl) as (Hr1 & _ & _).
    rewrite IH; [|intros Hin; apply Ht3 in Hin; set_solver|done|lia].
    rewrite (app_assoc kept r), (split_on_append NL (kept ++ r)). fold (tail_of (kept ++ r)). rewrite tail_of_app by done.
    assert (split_on NL (tail_of r ++ concat reads) ≠ []) as Hne by apply split_on_nonempty.
    rewrite removelast_app by done. unfold print_matching. by rewrite fmap_app, concat_app.
Qed.

(** A read that ends in the middle of a line loses it: the line abc, read in the
    two pieces ab and c, does not match the pattern abc. *)
Theorem grep_drops_partial_line :
  grep [97; 98; 99] [] [[97; 98]; [99; NL]] = [] ∧ grep [97; 98; 99] [] [[97; 98; 99; NL]] = [97; 98; 99; NL].
Proof. done. Qed.
