(* ===== verification/Sh.v ===== *)
(** * The command parser of the shell (sh.c)

    A command line is parsed by recursive descent into a tree whose words are pairs of
    pointers into the line, and [nulterminate] then ends the words with NULs.  Pointers
    are offsets in the buffer [buf]; the state is the pointer [*ps].  [panic] ends the
    shell's child.  The recursion of the parser and its loops are bounded by [n]. *)
From S2P Require Import Prelude CString Ulib.

(** struct cmd and its variants; a word is [(q, eq)].  The [argv] and [eargv] of an
    execcmd are the list of its words. *)
Inductive cmd :=
  | EXEC (argv : list (nat * nat))
  | REDIR (c : cmd) (file efile : nat) (mode fd : Z)
  | PIPE (left right : cmd)
  | LIST (left right : cmd)
  | BACK (c : cmd).

Definition MAXARGS : nat := 10.
Definition sh_RDONLY : Z := 0.
Definition sh_WRONLY_CREATE : Z := Z.lor 1 0x200.

(** [" \t\r\n\v"] and ["<|>&;()"] *)
Definition whitespace : list Z := [32; 9; 13; 10; 11].
Definition symbols : list Z := [60; 124; 62; 38; 59; 40; 41].

(** [strchr(set, c) != 0] for a string constant. *)
Definition in_set (set : list Z) (c : Z) : bool :=
  match strchr (cz set) c with Some (Some _) => true | _ => false end.

Abbreviation P := (M nat).

Section parser.
  Context (buf : list Z) (es : nat).

Definition ch (s : nat) : P Z := deref "*s" (buf !! s).

Fixpoint skip_space (n s : nat) : P nat :=
  match n with
  | O => λ _, Fuel
  | S n =>
      if negb (Nat.ltb s es) then ret s else
      c <- ch s;
      if in_set whitespace c then skip_space n (S s) else ret s
  end.

Fixpoint skip_word (n s : nat) : P nat :=
  match n with
  | O => λ _, Fuel
  | S n =>
      if negb (Nat.ltb s es) then ret s else
      c <- ch s;
      if negb (in_set whitespace c) && negb (in_set symbols c) then skip_word n (S s) else ret s
  end.

(** The token, its start and its end. *)
Definition gettoken : P (Z * nat * nat) :=
  s <- get;
  s <- skip_space (S es) s;
  let q := s in
  c <- ch s;
  r <- (if c =? 0 then ret (c, s) else
        if in_set [124; 40; 41; 59; 38; 60] c then ret (c, S s) else
        if c =? 62 then
          c' <- ch (S s);
          if c' =? 62 then ret (43, S (S s)) else ret (c, S s)
        else
          s <- skip_word (S es) s; ret (97, s));
  let '(tok, s) := r in
  let eq := s in
  s <- skip_space (S es) s;
  put s;;
  ret (tok, q, eq).

Definition peek (toks : list Z) : P bool :=
  s <- get;
  s <- skip_space (S es) s;
  put s;;
  c <- ch s;
  ret (negb (c =? 0) && in_set toks c).

(** One redirection: mode and descriptor for its token. *)
Definition redircmd (tok : Z) (c : cmd) (q eq : nat) : cmd :=
  if tok =? 60 then REDIR c q eq sh_RDONLY 0
  else if tok =? 62 then REDIR c q eq sh_WRONLY_CREATE 1
  else if tok =? 43 then REDIR c q eq sh_WRONLY_CREATE 1
  else c.

(** parseredirs wraps redirections around a command; the command may still be changed
    by the caller, so the wrapping is returned as a function. *)
Fixpoint parseredirs (n : nat) (wrap : cmd → cmd) : P (cmd → cmd) :=
  match n with
  | O => λ _, Fuel
  | S n =>
      b <- peek [60; 62];
      if negb b then ret wrap else
      t <- gettoken;
      let '(tok, _, _) := t in
      w <- gettoken;
      let '(tok', q, eq) := w in
      if negb (tok' =? 97) then panic "missing file for redirection" else
      parseredirs n (λ c, redircmd tok (wrap c) q eq)
  end.

(** The loop of parseexec: the words and the redirections around the command. *)
Fixpoint parseargs (n : nat) (argv : list (nat * nat)) (wrap : cmd → cmd) : P cmd :=
  match n with
  | O => λ _, Fuel
  | S n =>
      b <- peek [124; 41; 38; 59];
      if b then ret (wrap (EXEC argv)) else
      t <- gettoken;
      let '(tok, q, eq) := t in
      if tok =? 0 then ret (wrap (EXEC argv)) else
      if negb (tok =? 97) then panic "syntax" else
      let argv := argv ++ [(q, eq)] in
      if Nat.leb MAXARGS (length argv) then panic "too many args" else
      wrap <- parseredirs (S es) wrap;
      parseargs n argv wrap
  end.

(** The loop over the ampersands. *)
Fixpoint parseback (n : nat) (c : cmd) : P cmd :=
  match n with
  | O => λ _, Fuel
  | S n =>
      b <- peek [38];
      if b then gettoken;; parseback n (BACK c) else ret c
  end.

Fixpoint parseline (n : nat) : P cmd :=
  match n with
  | O => λ _, Fuel
  | S n =>
      c <- parsepipe n;
      c <- parseback (S es) c;
      b <- peek [59];
      if b then
        gettoken;;
        r <- parseline n;
        ret (LIST c r)
      else ret c
  end
with parsepipe (n : nat) : P cmd :=
  match n with
  | O => λ _, Fuel
  | S n =>
      c <- parseexec n;
      b <- peek [124];
      if b then
        gettoken;;
        r <- parsepipe n;
        ret (PIPE c r)
      else ret c
  end
with parseexec (n : nat) : P cmd :=
  match n with
  | O => λ _, Fuel
  | S n =>
      b <- peek [40];
      if b then parseblock n else
      wrap <- parseredirs (S es) (λ c, c);
      parseargs (S es) [] wrap
  end
with parseblock (n : nat) : P cmd :=
  match n with
  | O => λ _, Fuel
  | S n =>
      b <- peek [40];
      if negb b then panic "parseblock" else
      gettoken;;
      c <- parseline n;
      b <- peek [41];
      if negb b then panic "syntax - missing )" else
      gettoken;;
      wrap <- parseredirs (S es) (λ c, c);
      ret (wrap c)
  end.
End parser.

(** [*p = 0] *)
Definition end_word (buf : list Z) (p : nat) : option (list Z) :=
  if Nat.ltb p (length buf) then Some (<[p := 0]> buf) else None.

Fixpoint nulterminate (c : cmd) (buf : list Z) : option (list Z) :=
  match c with
  | EXEC argv => foldl (λ b w, b ← b; end_word b w.2) (Some buf) argv
  | REDIR c _ efile _ _ => b ← nulterminate c buf; end_word b efile
  | PIPE l r => b ← nulterminate l buf; nulterminate r b
  | LIST l r => b ← nulterminate l buf; nulterminate r b
  | BACK c => nulterminate c buf
  end.

(** The tree and the buffer with the ends of the words. *)
Definition parsecmd (buf : list Z) : P (cmd * list Z) :=
  es <- deref "strlen" (strlen buf);
  put O;;
  c <- parseline buf es (4 * es + 5);
  peek buf es [];;
  s <- get;
  if negb (Nat.eqb s es) then panic "syntax" else
  b <- deref "nulterminate" (nulterminate c buf);
  ret (c, b).
