(* ===== verification/ShThm.v ===== *)
(** * The command parser of the shell (sh.c): it ends, and words are delimited right *)
From S2P Require Import Prelude CString Ulib Sh.

Lemma in_set_spec set c : 0 ∉ set → in_set set c = bool_decide (c ∈ set).
Proof.
  unfold in_set, cz. induction set as [|x set IH]; intros H0; [done|].
  apply not_elem_of_cons in H0 as [Hx H0]. cbn [app strchr]. rewrite (proj2 (Z.eqb_neq x 0)) by done.
  destruct (Z.eqb_spec x c) as [->|Hne]; [by rewrite bool_decide_true by left|].
  transitivity (bool_decide (c ∈ set)); [|apply bool_decide_ext; rewrite elem_of_cons; naive_solver].
  rewrite <-IH by done. by destruct (strchr (set ++ [0]) c) as [[?|]|].
Qed.

Lemma no_nul (set : list Z) : bool_decide (0 ∈ set) = false → 0 ∉ set.
Proof. apply bool_decide_eq_false. Qed.

(** A character of a word. *)
Definition wordc (c : Z) : bool := negb (c =? 0) && negb (in_set whitespace c) && negb (in_set symbols c).

(** [parses m p Q]: [m] at [p] returns in [Q], or the command line is refused. *)
Definition parses {A} (m : P A) (p : nat) (Q : A → nat → Prop) : Prop :=
  match m p with Ok a p' => Q a p' | Panic _ => True | _ => False end.

Lemma parses_bind {A B} (m : P A) (k : A → P B) p Q :
  parses m p (λ a p', parses (k a) p' Q) → parses (bind m k) p Q.
Proof. unfold parses, bind. by destruct (m p). Qed.

Lemma parses_ok {A} (m : P A) p a p' Q : m p = Ok a p' → Q a p' → parses m p Q.
Proof. intros E HQ. unfold parses. by rewrite E. Qed.

Lemma parses_mono {A} (m : P A) p (Q Q' : A → nat → Prop) :
  (∀ a p', Q a p' → Q' a p') → parses m p Q → parses m p Q'.
Proof. unfold parses. destruct (m p); naive_solver. Qed.

Lemma parses_seq {A B} (m : P A) (k : A → P B) p Q Q' :
  parses m p Q → (∀ a p', Q a p' → parses (k a) p' Q') → parses (bind m k) p Q'.
Proof. unfold parses, bind. destruct (m p); naive_solver. Qed.

(** The words of a command, arguments and file names. *)
Fixpoint words (c : cmd) : list (nat * nat) :=
  match c with
  | EXEC argv => argv
  | REDIR c file efile _ _ => words c ++ [(file, efile)]
  | PIPE l r | LIST l r => words l ++ words r
  | BACK c => words c
  end.

(** ** The ends of the words *)

(** [b'] is [b] with NULs at the places [l]. *)
Definition zeroed (l : list nat) (b b' : list Z) : Prop :=
  length b' = length b ∧ (∀ i, i ∈ l → b' !! i = Some 0) ∧ ∀ i, i ∉ l → b' !! i = b !! i.

Lemma zeroed_nil b : zeroed [] b b.
Proof. split_and!; [done|set_solver|done]. Qed.

Lemma zeroed_trans l1 l2 b1 b2 b3 : zeroed l1 b1 b2 → zeroed l2 b2 b3 → zeroed (l1 ++ l2) b1 b3.
Proof.
  intros (L1 & Z1 & N1) (L2 & Z2 & N2). split_and!; [congruence| |].
  - intros i Hi. destruct (decide (i ∈ l2)); [auto|]. rewrite N2 by done. apply Z1. set_solver.
  - intros i Hi. rewrite N2, N1 by set_solver. done.
Qed.

Lemma end_word_run b e : (e < length b)%nat → ∃ b', end_word b e = Some b' ∧ zeroed [e] b b'.
Proof.
  intros He. unfold end_word. rewrite (proj2 (Nat.ltb_lt _ _)) by done. eexists. split; [done|].
  split_and!; [by rewrite length_insert| |].
  - intros i ->%list_elem_of_singleton. by apply list_lookup_insert_eq.
  - intros i Hi. apply list_lookup_insert_ne. set_solver.
Qed.

Lemma nulterminate_run c b :
  (∀ w, w ∈ words c → (w.2 < length b)%nat) → ∃ b', nulterminate c b = Some b' ∧ zeroed (words c).*2 b b'.
Proof.
  revert b. induction c as [argv|c IH q e mo fd|l IHl r IHr|l IHl r IHr|c IH]; intros b Hw; cbn [nulterminate words] in *.
  - assert (∃ b', foldl (λ b w, b ← b; end_word b w.2) (Some b) argv = Some b' ∧ zeroed argv.*2 b b') as Hgo; [|done].
    revert b Hw. induction argv as [|w argv IH]; intros b Hw; [exists b; split; [done|apply zeroed_nil]|].
    destruct (end_word_run b w.2) as (b1 & H1 & Hz1); [apply Hw; left|]. simpl. rewrite H1.
    destruct (IH b1) as (b2 & H2 & Hz2); [intros w' Hw'; destruct Hz1 as (-> & _); apply Hw; by right|].
    exists b2. split; [done|]. apply (zeroed_trans [w.2] argv.*2 b b1 b2); done.
  - destruct (IH b) as (b1 & H1 & Hz1); [intros w Hin; apply Hw; set_solver|]. rewrite H1. simpl.
    destruct (end_word_run b1 e) as (b2 & H2 & Hz2); [destruct Hz1 as (-> & _); apply (Hw (q, e)); set_solver|].
    exists b2. split; [done|]. rewrite fmap_app. by eapply zeroed_trans.
  - destruct (IHl b) as (b1 & H1 & Hz1); [intros w Hin; apply Hw; set_solver|]. rewrite H1. simpl.
    destruct (IHr b1) as (b2 & H2 & Hz2); [intros w Hin; destruct Hz1 as (-> & _); apply Hw; set_solver|].
    exists b2. split; [done|]. rewrite fmap_app. by eapply zeroed_trans.
  - destruct (IHl b) as (b1 & H1 & Hz1); [intros w Hin; apply Hw; set_solver|]. rewrite H1. simpl.
    destruct (IHr b1) as (b2 & H2 & Hz2); [intros w Hin; destruct Hz1 as (-> & _); apply Hw; set_solver|].
    exists b2. split; [done|]. rewrite fmap_app. by eapply zeroed_trans.
  - by apply IH.
Qed.

Lemma cstr_at b q k l :
  length l = k → (∀ i, (i < k)%nat → b !! (q + i)%nat = l !! i) → 0 ∉ l → b !! (q + k)%nat = Some 0 →
  cstr (drop q b) = Some l.
Proof.
  revert q k. induction l as [|c l IH]; intros q k Hk Hi H0 Hz; simpl in Hk; subst k.
  - rewrite Nat.add_0_r in Hz. rewrite (drop_S _ _ _ Hz). done.
  - assert (b !! q = Some c) as Hc by (specialize (Hi O ltac:(lia)); by rewrite Nat.add_0_r in Hi).
    rewrite (drop_S _ _ _ Hc). simpl. apply not_elem_of_cons in H0 as [Hc0 H0]. rewrite (proj2 (Z.eqb_neq c 0)) by done.
    rewrite (IH (S q) (length l)); [done|done| |done|by rewrite Nat.add_succ_l, <-Nat.add_succ_r].
    intros i Hlt. rewrite Nat.add_succ_l, <-Nat.add_succ_r. apply (Hi (S i)). lia.
Qed.

Lemma cstr_no_nul s l : cstr s = Some l → 0 ∉ l.
Proof.
  revert l. induction s as [|c s IH]; intros l; simpl; [done|]. destruct (Z.eqb_spec c 0); [by intros [= <-]; apply not_elem_of_nil|].
  intros (l' & Hl & ->)%fmap_Some. apply not_elem_of_cons. split; [done|]. by apply IH.
Qed.

(** ** The parser *)

Section buf.
  Context (buf line tail : list Z).
  Context (Hbuf : buf = line ++ 0 :: tail) (Hline : 0 ∉ line).
Local Abbreviation es := (length line).

(** [(q, e)] delimits a word of the line, as long as possible to the right. *)
Definition word (w : nat * nat) : Prop :=
  (w.1 < w.2 ≤ es)%nat ∧ (∀ i c, (w.1 ≤ i < w.2)%nat → line !! i = Some c → wordc c = true) ∧
  ∀ c, buf !! w.2 = Some c → wordc c = false.

Lemma buf_at s : (s < es)%nat → ∃ c, buf !! s = Some c ∧ line !! s = Some c ∧ c ≠ 0.
Proof using Hbuf Hline.
  intros Hs. destruct (lookup_lt_is_Some_2 line s Hs) as [c Hc]. exists c. split_and!; [|done|].
  - by rewrite Hbuf, lookup_app_l.
  - intros ->. by apply Hline, (list_elem_of_lookup_2 _ s).
Qed.

Lemma buf_end : buf !! es = Some 0.
Proof using Hbuf. rewrite Hbuf. by apply list_lookup_middle. Qed.

Lemma skip_space_run n s p :
  (s ≤ es)%nat → (es - s < n)%nat →
  ∃ s', skip_space buf es n s p = Ok s' p ∧ (s ≤ s' ≤ es)%nat ∧
    (∀ i c, (s ≤ i < s')%nat → line !! i = Some c → in_set whitespace c = true) ∧
    ∀ c, (s' < es)%nat → buf !! s' = Some c → in_set whitespace c = false.
Proof using Hbuf Hline.
  revert s. induction n as [|n IH]; intros s Hs Hn; [lia|]. cbn [skip_space].
  destruct (Nat.ltb_spec s es) as [Hlt|Hge]; cbn [negb].
  - destruct (buf_at s Hlt) as (c & Hc & Hl & _). unfold ch. rewrite Hc. step. destruct (in_set whitespace c) eqn:E.
    + destruct (IH (S s)) as (s' & Hr & ? & Hw & Hnw); [lia|lia|]. exists s'. split_and!; [done|lia|lia| |done].
      intros i d Hi Hd. destruct (decide (i = s)) as [->|]; [congruence|]. apply (Hw i); [lia|done].
    + exists s. split_and!; [done|lia|lia|intros; lia|]. intros d _ Hd. congruence.
  - exists s. split_and!; [done|lia|lia|intros; lia|intros; lia].
Qed.

Lemma skip_word_run n s p :
  (s ≤ es)%nat → (es - s < n)%nat →
  ∃ s', skip_word buf es n s p = Ok s' p ∧ (s ≤ s' ≤ es)%nat ∧
    (∀ i c, (s ≤ i < s')%nat → line !! i = Some c → wordc c = true) ∧
    ∀ c, buf !! s' = Some c → wordc c = false.
Proof using Hbuf Hline.
  revert s. induction n as [|n IH]; intros s Hs Hn; [lia|]. cbn [skip_word].
  destruct (Nat.ltb_spec s es) as [Hlt|Hge]; cbn [negb].
  - destruct (buf_at s Hlt) as (c & Hc & Hl & Hc0). unfold ch. rewrite Hc. step.
    assert (wordc c = negb (in_set whitespace c) && negb (in_set symbols c)) as Hwc
      by (unfold wordc; by rewrite (proj2 (Z.eqb_neq c 0))).
    rewrite <-Hwc. destruct (wordc c) eqn:E.
    + destruct (IH (S s)) as (s' & Hr & ? & Hw & Hnw); [lia|lia|]. exists s'. split_and!; [done|lia|lia| |done].
      intros i d Hi Hd. destruct (decide (i = s)) as [->|]; [congruence|]. apply (Hw i); [lia|done].
    + exists s. split_and!; [done|lia|lia|intros; lia|]. intros d Hd. congruence.
  - exists s. split_and!; [done|lia|lia|intros; lia|]. assert (s = es) as -> by lia. rewrite buf_end. by intros c [= <-].
Qed.

(** The next token: a NUL only at the end of the line, and otherwise at least one character. *)
Lemma gettoken_run p :
  (p ≤ es)%nat → parses (gettoken buf es) p (λ t p',
    let '(tok, q, e) := t in (p ≤ p' ≤ es)%nat ∧ (tok = 97 → word (q, e)) ∧
    (tok = 0 ∧ (∀ i c, (p ≤ i < es)%nat → line !! i = Some c → in_set whitespace c = true) ∨ tok ≠ 0 ∧ (p < p')%nat)).
Proof using Hbuf Hline.
  intros Hp. unfold gettoken. apply parses_bind. apply (parses_ok _ _ p p); [done|].
  destruct (skip_space_run (S es) p p) as (s & Hr & Hs & Hws & Hnw); [done|lia|].
  apply parses_bind. apply (parses_ok _ _ _ _ _ Hr). cbv zeta.
  assert (∀ tok e, (s ≤ e ≤ es)%nat → (tok = 97 → word (s, e)) → (tok = 0 ∧ s = es ∨ tok ≠ 0 ∧ (s < e)%nat) →
    parses (s' <- skip_space buf es (S es) e; put s';; ret (tok, s, e)) p (λ t p',
    let '(tok, q, e) := t in (p ≤ p' ≤ es)%nat ∧ (tok = 97 → word (q, e)) ∧
    (tok = 0 ∧ (∀ i c, (p ≤ i < es)%nat → line !! i = Some c → in_set whitespace c = true) ∨ tok ≠ 0 ∧ (p < p')%nat))) as Hend.
  { intros tok e He Hw Hz. destruct (skip_space_run (S es) e p) as (s' & Hr' & Hs' & _); [lia|lia|].
    apply parses_bind. apply (parses_ok _ _ _ _ _ Hr'). apply parses_bind. apply (parses_ok _ _ tt s'); [done|].
    split_and!; [lia|lia|done|]. destruct Hz as [[-> ->]|[? ?]]; [left; done|right; split; [done|lia]]. }
  apply parses_bind. unfold ch at 1. destruct (decide (s < es)%nat) as [Hlt|Hge].
  - destruct (buf_at s Hlt) as (c & Hc & Hl & Hc0). rewrite Hc. apply (parses_ok _ _ c p); [done|].
    apply parses_bind. rewrite (proj2 (Z.eqb_neq c 0)) by done. destruct (in_set [124; 40; 41; 59; 38; 60] c) eqn:Esym.
    { apply (parses_ok _ _ (c, S s) p); [done|]. apply Hend; [lia| |right; split; [done|lia]]. intros ->. done. }
    destruct (Z.eqb_spec c 62) as [->|Hne].
    { apply parses_bind. unfold ch. assert (∃ c', buf !! S s = Some c') as [c' Hc'].
      { destruct (decide (S s < es)%nat) as [H1|H1]; [destruct (buf_at _ H1) as (c' & ? & _); eauto|].
        replace (S s) with es by lia. eauto using buf_end. }
      rewrite Hc'. apply (parses_ok _ _ c' p); [done|]. destruct (Z.eqb_spec c' 62) as [->|_].
      - apply (parses_ok _ _ (43, S (S s)) p); [done|]. apply Hend; [|done|right; split; [done|lia]].
        split; [lia|]. destruct (decide (S s < es)%nat); [lia|]. replace (S s) with es in Hc' by lia. by rewrite buf_end in Hc'.
      - apply (parses_ok _ _ (62, S s) p); [done|]. apply Hend; [lia|done|right; split; [done|lia]]. }
    apply parses_bind. destruct (skip_word_run (S es) s p) as (e & Hr' & He & Hw & Hnw'); [lia|lia|].
    apply (parses_ok _ _ _ _ _ Hr'). apply (parses_ok _ _ (97, e) p); [done|].
    assert (s < e)%nat as Hse.
    { destruct (decide (s = e)) as [<-|]; [|lia]. specialize (Hnw' c Hc). specialize (Hnw c Hlt Hc).
      unfold wordc in Hnw'. rewrite (proj2 (Z.eqb_neq c 0)), Hnw in Hnw' by done. cbn [negb andb] in Hnw'.
      apply negb_false_iff in Hnw'. rewrite in_set_spec in Hnw', Esym by (by apply no_nul).
      apply bool_decide_eq_true in Hnw'. apply bool_decide_eq_false in Esym. exfalso.
      clear -Hnw' Esym Hne. unfold symbols in Hnw'. set_solver. }
    apply Hend; [lia| |right; split; [done|lia]]. intros _. split; [simpl; lia|]. by split.
  - replace s with es in * by lia. rewrite buf_end. apply (parses_ok _ _ 0 p); [done|]. apply parses_bind.
    apply (parses_ok _ _ (0, es) p); [done|]. apply Hend; [lia|done|by left].
Qed.

Lemma peek_bounds toks p :
  (p ≤ es)%nat → parses (peek buf es toks) p (λ b p',
    (p ≤ p' ≤ es)%nat ∧ (b = true → ∃ c, line !! p' = Some c ∧ in_set whitespace c = false)).
Proof using Hbuf Hline.
  intros Hp. unfold peek. apply parses_bind. apply (parses_ok _ _ p p); [done|].
  destruct (skip_space_run (S es) p p) as (s & Hr & Hs & _ & Hnw); [done|lia|].
  apply parses_bind. apply (parses_ok _ _ _ _ _ Hr). apply parses_bind. apply (parses_ok _ _ tt s); [done|].
  apply parses_bind. unfold ch. destruct (decide (s < es)%nat) as [Hlt|Hge].
  - destruct (buf_at s Hlt) as (c & Hc & Hl & _). rewrite Hc. apply (parses_ok _ _ c s); [done|]. split; [lia|]. eauto.
  - replace s with es in * by lia. rewrite buf_end. apply (parses_ok _ _ 0 es); [done|]. by split; [lia|].
Qed.

Definition advances (p : nat) (t : Z * nat * nat) (p' : nat) : Prop :=
  let '(tok, q, e) := t in (p < p' ≤ es)%nat ∧ (tok = 97 → word (q, e)).

(** After a successful [peek] the token is not the end of the line. *)
Lemma peek_spec toks p :
  (p ≤ es)%nat → parses (peek buf es toks) p (λ b p',
    (p ≤ p' ≤ es)%nat ∧ (b = true → parses (gettoken buf es) p' (advances p'))).
Proof using Hbuf Hline.
  intros Hp. eapply parses_mono; [|by apply peek_bounds]. intros b p1 [Hp1 Hb]. split; [done|]. intros ->.
  destruct (Hb eq_refl) as (c & Hc & Hnw). eapply parses_mono; [|apply gettoken_run; lia].
  intros [[tok q] e] p2 (Hp2 & Hw & Htok). split; [|done]. destruct Htok as [[-> Hall]|[_ ?]]; [|lia].
  assert (p1 < es)%nat by (by eapply lookup_lt_Some). rewrite (Hall p1 c) in Hnw by (done || lia). done.
Qed.

Definition words_ok (c : cmd) : Prop := Forall word (words c).

Lemma words_redircmd tok c q e : words_ok c → word (q, e) → words_ok (redircmd tok c q e).
Proof using.
  intros Hc Hw. unfold words_ok, redircmd.
  repeat (case_match; [apply Forall_app_2; [done|by apply list.Forall_singleton]|]). done.
Qed.

Lemma parseredirs_run n wrap p :
  (p ≤ es)%nat → (es - p < n)%nat → (∀ c, words_ok c → words_ok (wrap c)) →
  parses (parseredirs buf es n wrap) p (λ wrap' p', (p ≤ p' ≤ es)%nat ∧ ∀ c, words_ok c → words_ok (wrap' c)).
Proof using Hbuf Hline.
  revert wrap p. induction n as [|n IH]; intros wrap p Hp Hn Hw; [lia|]. cbn [parseredirs].
  eapply parses_seq; [by apply peek_spec|]. intros b p1 [Hp1 Hb]. simpl. destruct b; cbn [negb].
  - eapply parses_seq; [by apply Hb|]. intros [[tok q0] e0] p2 [Hp2 _]. simpl.
    eapply parses_seq; [apply gettoken_run; lia|]. intros [[tok' q] e] p3 (Hp3 & Hwq & _). simpl.
    destruct (Z.eqb_spec tok' 97) as [->|]; cbn [negb]; [|done].
    eapply parses_mono; [|apply IH; [lia|lia|]]; [|intros c Hc; apply words_redircmd; auto].
    intros wrap' p' [? ?]. split; [lia|done].
  - by apply (parses_ok _ _ wrap p1).
Qed.

Lemma parseargs_run n argv wrap p :
  (p ≤ es)%nat → (es - p < n)%nat → Forall word argv → (∀ c, words_ok c → words_ok (wrap c)) →
  parses (parseargs buf es n argv wrap) p (λ c p', (p ≤ p' ≤ es)%nat ∧ words_ok c).
Proof using Hbuf Hline.
  revert argv wrap p. induction n as [|n IH]; intros argv wrap p Hp Hn Ha Hw; [lia|]. cbn [parseargs].
  eapply parses_seq; [by apply peek_spec|]. intros b p1 [Hp1 Hb]. simpl. destruct b.
  - apply (parses_ok _ _ (wrap (EXEC argv)) p1); [done|]. split; [done|]. by apply Hw.
  - eapply parses_seq; [apply gettoken_run; lia|]. intros [[tok q] e] p2 (Hp2 & Hwq & Htok). simpl.
    destruct (Z.eqb_spec tok 0) as [->|Hz].
    { apply (parses_ok _ _ (wrap (EXEC argv)) p2); [done|]. split; [lia|]. by apply Hw. }
    destruct Htok as [[? _]|[_ Hlt]]; [done|]. destruct (Z.eqb_spec tok 97) as [->|]; cbn [negb]; [|done].
    case_match; [done|]. eapply parses_seq; [apply (parseredirs_run (S es) wrap p2); [lia|lia|done]|].
    intros wrap' p3 [Hp3 Hw']. simpl. eapply parses_mono; [|apply IH; [lia|lia| |done]].
    + intros c p4 [? ?]. split; [lia|done].
    + apply Forall_app_2; [done|]. apply list.Forall_singleton. auto.
Qed.

Lemma parseback_run n c p :
  (p ≤ es)%nat → (es - p < n)%nat → words_ok c →
  parses (parseback buf es n c) p (λ c' p', (p ≤ p' ≤ es)%nat ∧ words_ok c').
Proof using Hbuf Hline.
  revert c p. induction n as [|n IH]; intros c p Hp Hn Hc; [lia|]. cbn [parseback].
  eapply parses_seq; [by apply peek_spec|]. intros b p1 [Hp1 Hb]. simpl. destruct b.
  - eapply parses_seq; [by apply Hb|]. intros [[tok q] e] p2 [Hp2 _]. simpl.
    eapply parses_mono; [|apply (IH (BACK c)); [lia|lia|done]]. intros c' p' [? ?]. split; [lia|done].
  - by apply (parses_ok _ _ c p1).
Qed.

(** The recursive descent: enough fuel for four calls at each character. *)
Lemma parse_run n :
  (∀ p, (p ≤ es)%nat → (4 * (es - p) + 4 ≤ n)%nat → parses (parseline buf es n) p (λ c p', (p ≤ p' ≤ es)%nat ∧ words_ok c)) ∧
  (∀ p, (p ≤ es)%nat → (4 * (es - p) + 3 ≤ n)%nat → parses (parsepipe buf es n) p (λ c p', (p ≤ p' ≤ es)%nat ∧ words_ok c)) ∧
  (∀ p, (p ≤ es)%nat → (4 * (es - p) + 2 ≤ n)%nat → parses (parseexec buf es n) p (λ c p', (p ≤ p' ≤ es)%nat ∧ words_ok c)) ∧
  (∀ p, (p ≤ es)%nat → (4 * (es - p) + 1 ≤ n)%nat → parses (parseblock buf es n) p (λ c p', (p ≤ p' ≤ es)%nat ∧ words_ok c)).
Proof using Hbuf Hline.
  induction n as [|n (IHl & IHp & IHe & IHb)]; split_and!; intros p Hp Hn; try lia.
  - cbn [parseline]. eapply parses_seq; [apply IHp; lia|]. intros c p1 [Hp1 Hc]. simpl.
    eapply parses_seq; [apply (parseback_run (S es) c p1); [lia|lia|done]|]. intros c' p2 [Hp2 Hc']. simpl.
    eapply parses_seq; [apply peek_spec; lia|]. intros b p3 [Hp3 Hb]. simpl. destruct b.
    + eapply parses_seq; [by apply Hb|]. intros [[tok q] e] p4 [Hp4 _]. simpl.
      eapply parses_seq; [apply IHl; lia|]. intros r p5 [Hp5 Hr]. simpl.
      apply (parses_ok _ _ (LIST c' r) p5); [done|]. split; [lia|]. by apply Forall_app_2.
    + apply (parses_ok _ _ c' p3); [done|]. split; [lia|done].
  - cbn [parsepipe]. eapply parses_seq; [apply IHe; lia|]. intros c p1 [Hp1 Hc]. simpl.
    eapply parses_seq; [apply peek_spec; lia|]. intros b p3 [Hp3 Hb]. simpl. destruct b.
    + eapply parses_seq; [by apply Hb|]. intros [[tok q] e] p4 [Hp4 _]. simpl.
      eapply parses_seq; [apply IHp; lia|]. intros r p5 [Hp5 Hr]. simpl.
      apply (parses_ok _ _ (PIPE c r) p5); [done|]. split; [lia|]. by apply Forall_app_2.
    + apply (parses_ok _ _ c p3); [done|]. split; [lia|done].
  - cbn [parseexec]. eapply parses_seq; [apply peek_spec; lia|]. intros b p1 [Hp1 Hb]. simpl. destruct b.
    + eapply parses_mono; [|apply IHb; lia]. intros c p2 [? ?]. split; [lia|done].
    + eapply parses_seq; [apply (parseredirs_run (S es) (λ c, c) p1); [lia|lia|done]|]. intros w p2 [Hp2 Hw]. simpl.
      eapply parses_mono; [|apply (parseargs_run (S es) [] w p2); [lia|lia|by apply Forall_nil_2|done]]. intros c p3 [? ?]. split; [lia|done].
  - cbn [parseblock]. eapply parses_seq; [apply peek_spec; lia|]. intros b p1 [Hp1 Hb]. simpl.
    destruct b; cbn [negb]; [|done]. eapply parses_seq; [by apply Hb|]. intros [[tok q] e] p2 [Hp2 _]. simpl.
    eapply parses_seq; [apply IHl; lia|]. intros c p3 [Hp3 Hc]. simpl.
    eapply parses_seq; [apply peek_spec; lia|]. intros b p4 [Hp4 Hb']. simpl.
    destruct b; cbn [negb]; [|done]. eapply parses_seq; [by apply Hb'|]. intros [[tok' q'] e'] p5 [Hp5 _]. simpl.
    eapply parses_seq; [apply (parseredirs_run (S es) (λ c, c) p5); [lia|lia|done]|]. intros w p6 [Hp6 Hw]. simpl.
    apply (parses_ok _ _ (w c) p6); [done|]. split; [lia|auto].
Qed.

(** The piece of the line a word delimits. *)
Definition piece_of (w : nat * nat) : list Z := take (w.2 - w.1) (drop w.1 line).

(** A word is the string at its pointer once the words have been ended. *)
Lemma word_string c b w :
  words_ok c → w ∈ words c → zeroed (words c).*2 buf b → cstr (drop w.1 b) = Some (piece_of w).
Proof using Hbuf Hline.
  unfold words_ok. rewrite list.Forall_forall. intros Hok Hw (_ & Hz & Hn). destruct (Hok w Hw) as (Hb & Hc & _).
  assert (length (piece_of w) = w.2 - w.1)%nat as Hlen by (unfold piece_of; rewrite length_take, length_drop; lia).
  apply (cstr_at _ _ (w.2 - w.1)); [done| | |].
  - intros i Hi. unfold piece_of. rewrite lookup_take_lt, lookup_drop by done. rewrite Hn.
    + rewrite Hbuf. apply lookup_app_l. lia.
    + intros (w' & E & Hw')%list_elem_of_fmap. destruct (Hok w' Hw') as (_ & _ & Hend).
      destruct (buf_at (w.1 + i)) as (d & Hd & Hd' & _); [lia|]. rewrite E in Hd. specialize (Hend d Hd).
      rewrite (Hc (w.1 + i)%nat d) in Hend by (done || lia). done.
  - intros H0. unfold piece_of in H0. apply elem_of_take in H0 as (i & H0 & _). rewrite lookup_drop in H0.
    by apply Hline, (list_elem_of_lookup_2 _ _ _ H0).
  - replace (w.1 + (w.2 - w.1))%nat with w.2 by lia. apply Hz, list_elem_of_fmap. eauto.
Qed.
End buf.

(** The shell's parser ends on every command line, without an access outside it: it
    refuses the line with a message, or gives a tree in which every word delimits a
    non-empty piece of the line of ordinary characters, up to a character that is not
    one, and is this piece as a string once the ends of the words have been written. *)
Theorem parsecmd_words buf line s0 :
  cstr buf = Some line →
  parses (parsecmd buf) s0 (λ r _, let '(c, b) := r in
    ∀ w, w ∈ words c → (w.1 < w.2 ≤ length line)%nat ∧
      Forall (λ x, wordc x = true) (piece_of line w) ∧ cstr (drop w.1 b) = Some (piece_of line w)).
Proof.
  intros Hbuf. unfold parsecmd. rewrite strlen_cstr, Hbuf. pose proof Hbuf as [tail E]%cstr_Some.
  pose proof (cstr_no_nul _ _ Hbuf) as H0.
  apply parses_bind. apply (parses_ok _ _ (length line) s0); [done|].
  apply parses_bind. apply (parses_ok _ _ tt O); [done|].
  eapply parses_seq; [apply (parse_run buf line tail E H0); lia|]. intros c p [Hp Hc]. simpl.
  eapply parses_seq; [apply (peek_bounds buf line tail E H0); lia|]. intros _ p' _. simpl.
  apply parses_bind. apply (parses_ok _ _ p' p'); [done|]. case_match; [done|].
  destruct (nulterminate_run c buf) as (b & Hb & Hz).
  { intros w Hw. apply (proj1 (list.Forall_forall _ _) Hc) in Hw as [? _]. rewrite E, length_app. simpl. lia. }
  rewrite Hb. apply (parses_ok _ _ (c, b) p'); [done|]. intros w Hw.
  pose proof (proj1 (list.Forall_forall _ _) Hc w Hw) as (Hlt & Hch & _). split_and!; [lia|lia| |].
  - apply list.Forall_forall. intros x (i & Hx & Hi)%elem_of_take. rewrite lookup_drop in Hx. apply (Hch (w.1 + i)%nat); [lia|done].
  - by apply (word_string buf line tail E H0 c).
Qed.
