(* ===== verification/ShParse.v ===== *)
(** * The command parser of the shell (sh.c): it reads the grammar of command lines

    The syntax of command lines as trees, their tokens and their meaning as commands with
    strings; a command line made of the tokens of a tree, with white space where it is
    needed and anywhere else, is parsed to the tree's meaning. *)
From S2P Require Import Prelude CString Ulib Sh ShThm.

(** ** Tokens *)

Inductive token := TWord (w : list Z) | TSym (c : Z) | TAppend.

Definition text (t : token) : list Z :=
  match t with TWord w => w | TSym c => [c] | TAppend => [62; 62] end.
Definition code (t : token) : Z :=
  match t with TWord _ => 97 | TSym c => c | TAppend => 43 end.
Definition first (t : token) : Z := List.hd 0 (text t).

Definition token_ok (t : token) : Prop :=
  match t with
  | TWord w => w ≠ [] ∧ Forall (λ c, wordc c = true) w
  | TSym c => c ∈ symbols
  | TAppend => True
  end.
Definition space_ok (w : list Z) : Prop := Forall (λ c, in_set whitespace c = true) w.

(** Tokens, each followed by white space, which may be empty where the token ends by
    itself: a word before a symbol, and a symbol always, but for [>] before [>]. *)
Abbreviation spaced_token := (token * list Z)%type.
Definition ends (t : token) (ts : list spaced_token) : Prop :=
  match ts with
  | [] => True
  | (u, _) :: _ => match t with TWord _ => in_set symbols (first u) = true | TSym c => c = 62 → first u ≠ 62 | TAppend => True end
  end.
Fixpoint spaced_ok (ts : list spaced_token) : Prop :=
  match ts with
  | [] => True
  | (t, w) :: ts => (token_ok t ∧ space_ok w ∧ (w = [] → ends t ts)) ∧ spaced_ok ts
  end.

Lemma spaced_ok_app ts us : spaced_ok (ts ++ us) → spaced_ok us.
Proof. induction ts as [|[t w] ts IH]; [done|]. intros [_ H]. by apply IH. Qed.

Definition render (ts : list spaced_token) : list Z := ts ≫= λ tw, text tw.1 ++ tw.2.

Lemma render_app ts us : render (ts ++ us) = render ts ++ render us.
Proof. apply bind_app. Qed.
Lemma render_cons t w ts : render ((t, w) :: ts) = text t ++ w ++ render ts.
Proof. unfold render. simpl. by rewrite app_assoc. Qed.

Lemma in_ws c : in_set whitespace c = bool_decide (c ∈ whitespace).
Proof. by apply in_set_spec, no_nul. Qed.
Lemma in_sym c : in_set symbols c = bool_decide (c ∈ symbols).
Proof. by apply in_set_spec, no_nul. Qed.

Lemma wordc_spec c : wordc c = true → c ≠ 0 ∧ in_set whitespace c = false ∧ in_set symbols c = false.
Proof. unfold wordc. intros [[H1 H2]%andb_prop H3]%andb_prop. rewrite negb_true_iff in *. split_and!; [lia|done..]. Qed.

Lemma symbol_spec c : c ∈ symbols → c ≠ 0 ∧ in_set whitespace c = false.
Proof.
  intros Hc. rewrite in_ws. unfold symbols in Hc. rewrite !elem_of_cons, elem_of_nil in Hc.
  by destruct Hc as [->|[->|[->|[->|[->|[->|[->|[]]]]]]]].
Qed.

Lemma token_first t : token_ok t → ∃ rest, text t = first t :: rest ∧ first t ≠ 0 ∧ in_set whitespace (first t) = false.
Proof.
  destruct t as [[|c w]|c|]; simpl; [by intros [? _]| | |by eexists].
  - intros [_ [(? & ? & _)%wordc_spec _]%list.Forall_cons]. eauto.
  - intros [? ?]%symbol_spec. eauto.
Qed.

(** ** Command lines *)

Inductive rkind := RIn | ROut | RAppend.
Abbreviation redir := (rkind * list Z)%type.

(** A line is pipelines in the background or not, separated by semicolons; a pipeline is
    commands separated by bars; a command is words with redirections among them, or a
    line in parentheses with redirections after it. *)
Inductive sline :=
  | SLast (p : spipe) (bg : nat)
  | SSeq (p : spipe) (bg : nat) (l : sline)
with spipe :=
  | SExec (e : sexec)
  | SPipe (e : sexec) (p : spipe)
with sexec :=
  | SSimple (rs : list redir) (args : list (list Z * list redir))
  | SBlock (l : sline) (rs : list redir).

Scheme sline_mut := Induction for sline Sort Prop
  with spipe_mut := Induction for spipe Sort Prop
  with sexec_mut := Induction for sexec Sort Prop.
Combined Scheme syntax_ind from sline_mut, spipe_mut, sexec_mut.

Definition rtoken (k : rkind) : token := match k with RIn => TSym 60 | ROut => TSym 62 | RAppend => TAppend end.
Definition rtokens (rs : list redir) : list token := rs ≫= λ r, [rtoken r.1; TWord r.2].

Fixpoint ltokens (l : sline) : list token :=
  match l with
  | SLast p bg => ptokens p ++ replicate bg (TSym 38)
  | SSeq p bg l => ptokens p ++ replicate bg (TSym 38) ++ TSym 59 :: ltokens l
  end
with ptokens (p : spipe) : list token :=
  match p with
  | SExec e => etokens e
  | SPipe e p => etokens e ++ TSym 124 :: ptokens p
  end
with etokens (e : sexec) : list token :=
  match e with
  | SSimple rs args => rtokens rs ++ (args ≫= λ a, TWord a.1 :: rtokens a.2)
  | SBlock l rs => TSym 40 :: ltokens l ++ TSym 41 :: rtokens rs
  end.

(** Commands with strings for words. *)
Inductive scmd :=
  | XExec (argv : list (list Z))
  | XRedir (c : scmd) (file : list Z) (mode fd : Z)
  | XPipe (left right : scmd)
  | XList (left right : scmd)
  | XBack (c : scmd).

Definition sredir (c : scmd) (r : redir) : scmd :=
  match r.1 with
  | RIn => XRedir c r.2 sh_RDONLY 0
  | ROut | RAppend => XRedir c r.2 sh_WRONLY_CREATE 1
  end.

Fixpoint lmeaning (l : sline) : scmd :=
  match l with
  | SLast p bg => Nat.iter bg XBack (pmeaning p)
  | SSeq p bg l => XList (Nat.iter bg XBack (pmeaning p)) (lmeaning l)
  end
with pmeaning (p : spipe) : scmd :=
  match p with
  | SExec e => emeaning e
  | SPipe e p => XPipe (emeaning e) (pmeaning p)
  end
with emeaning (e : sexec) : scmd :=
  match e with
  | SSimple rs args => foldl sredir (XExec args.*1) (rs ++ (args ≫= snd))
  | SBlock l rs => foldl sredir (lmeaning l) rs
  end.

(** A command has at most nine words. *)
Fixpoint lfits (l : sline) : Prop :=
  match l with
  | SLast p _ => pfits p
  | SSeq p _ l => pfits p ∧ lfits l
  end
with pfits (p : spipe) : Prop :=
  match p with
  | SExec e => efits e
  | SPipe e p => efits e ∧ pfits p
  end
with efits (e : sexec) : Prop :=
  match e with
  | SSimple _ args => (length args < MAXARGS)%nat
  | SBlock l _ => lfits l
  end.

Section buf.
  Context (buf line tail : list Z).
  Context (Hbuf : buf = line ++ 0 :: tail) (Hline : 0 ∉ line).
Local Abbreviation es := (length line).

Lemma char_at_pre pre c suf : line = pre ++ c :: suf → buf !! length pre = Some c ∧ (length pre < es)%nat.
Proof using Hbuf Hline.
  intros ->. split; [|rewrite length_app; simpl; lia]. rewrite Hbuf, <-app_assoc. by apply list_lookup_middle.
Qed.

(** White space up to [rest]. *)
Lemma skip_space_at n pre w rest p :
  line = pre ++ w ++ rest → Forall (λ c, in_set whitespace c = true) w →
  match rest with c :: _ => in_set whitespace c = false | [] => True end → (length w < n)%nat →
  skip_space buf es n (length pre) p = Ok (length pre + length w)%nat p.
Proof using Hbuf Hline.
  revert n pre. induction w as [|c w IH]; intros [|n] pre Hl Hw Hr Hn; simpl in Hn; try lia; cbn [skip_space].
  - simpl in Hl. rewrite Nat.add_0_r. destruct rest as [|c rest].
    + rewrite app_nil_r in Hl. rewrite Hl, Nat.ltb_irrefl. done.
    + destruct (char_at_pre _ _ _ Hl) as [Hc Hlt]. rewrite (proj2 (Nat.ltb_lt _ _)) by done. cbn [negb].
      unfold ch. rewrite Hc. step. by rewrite Hr.
  - apply list.Forall_cons in Hw as [Hc Hw]. simpl in Hl. destruct (char_at_pre _ _ _ Hl) as [Hc' Hlt].
    rewrite (proj2 (Nat.ltb_lt _ _)) by done. cbn [negb]. unfold ch. rewrite Hc'. step. rewrite Hc.
    specialize (IH n (pre ++ [c])). rewrite length_app in IH. cbn [length] in IH |- *.
    rewrite Nat.add_1_r, Nat.add_succ_l, <-Nat.add_succ_r in IH. apply IH; [by rewrite <-app_assoc|done|done|lia].
Qed.

Lemma skip_word_at n pre w rest p :
  line = pre ++ w ++ rest → Forall (λ c, wordc c = true) w →
  match rest with c :: _ => in_set whitespace c || in_set symbols c = true | [] => True end → (length w < n)%nat →
  skip_word buf es n (length pre) p = Ok (length pre + length w)%nat p.
Proof using Hbuf Hline.
  revert n pre. induction w as [|c w IH]; intros [|n] pre Hl Hw Hr Hn; simpl in Hn; try lia; cbn [skip_word].
  - simpl in Hl. rewrite Nat.add_0_r. destruct rest as [|c rest].
    + rewrite app_nil_r in Hl. rewrite Hl, Nat.ltb_irrefl. done.
    + destruct (char_at_pre _ _ _ Hl) as [Hc Hlt]. rewrite (proj2 (Nat.ltb_lt _ _)) by done. cbn [negb].
      unfold ch. rewrite Hc. step. by rewrite <-negb_orb, Hr.
  - apply list.Forall_cons in Hw as [(_ & Hc & Hs)%wordc_spec Hw]. simpl in Hl. destruct (char_at_pre _ _ _ Hl) as [Hc' Hlt].
    rewrite (proj2 (Nat.ltb_lt _ _)) by done. cbn [negb]. unfold ch. rewrite Hc'. step. rewrite Hc, Hs. cbn [negb andb].
    specialize (IH n (pre ++ [c])). rewrite length_app in IH. cbn [length] in IH |- *.
    rewrite Nat.add_1_r, Nat.add_succ_l, <-Nat.add_succ_r in IH. apply IH; [by rewrite <-app_assoc|done|done|lia].
Qed.

Definition head_space (ts : list Z) : Prop := match ts with c :: _ => in_set whitespace c = false | [] => True end.

Lemma render_head ts : spaced_ok ts → head_space (render ts).
Proof using.
  destruct ts as [|[t w] ts]; [done|]. intros [[Ht _] _]. rewrite render_cons.
  destruct (token_first t Ht) as (rest & -> & _ & ?). done.
Qed.

Definition peeked (toks : list Z) (ts : list spaced_token) : bool :=
  match ts with [] => false | (t, _) :: _ => in_set toks (first t) end.

Lemma peek_at toks pre ts :
  line = pre ++ render ts → spaced_ok ts → peek buf es toks (length pre) = Ok (peeked toks ts) (length pre).
Proof using Hbuf Hline.
  intros Hl Hok. unfold peek. step. rewrite (bind_ok _ _ _ (length pre) (length pre)).
  2: { rewrite (skip_space_at (S es) pre [] (render ts)); [by rewrite Nat.add_0_r|done|by apply Forall_nil_2|by apply render_head|simpl; lia]. }
  step. unfold ch. destruct ts as [|[t w] ts].
  - simpl in Hl. rewrite app_nil_r in Hl. rewrite <-Hl, (buf_end buf line tail Hbuf). done.
  - destruct Hok as [[Ht _] _]. rewrite render_cons in Hl. destruct (token_first t Ht) as (rest & Et & Hz & _).
    rewrite Et in Hl. destruct (char_at_pre _ _ _ Hl) as [Hc _]. rewrite Hc. step. unfold ret.
    by rewrite (proj2 (Z.eqb_neq _ 0)).
Qed.

(** The character after a [>]. *)
Lemma after_gt pre w ts :
  line = (pre ++ [62]) ++ w ++ render ts → space_ok w → (w = [] → ends (TSym 62) ts) → spaced_ok ts →
  ∃ x, buf !! S (length pre) = Some x ∧ x ≠ 62.
Proof using Hbuf Hline.
  intros Hl Hw Hsep Hts.
  assert (∀ x suf, line = (pre ++ [62]) ++ x :: suf → buf !! S (length pre) = Some x) as Hat.
  { intros x suf E. destruct (char_at_pre _ _ _ E) as [Hx _]. rewrite length_app in Hx. simpl in Hx. by rewrite Nat.add_1_r in Hx. }
  destruct w as [|x w].
  - specialize (Hsep eq_refl). destruct ts as [|[u w'] ts].
    + exists 0. split; [|done]. rewrite <-(buf_end buf line tail Hbuf), Hl. f_equal. rewrite !length_app. simpl. lia.
    + destruct Hts as [[Hu _] _]. destruct (token_first u Hu) as (rest & Eu & _). exists (first u). split; [|by apply Hsep].
      rewrite render_cons, Eu in Hl. by eapply Hat.
  - apply list.Forall_cons in Hw as [Hx _]. exists x. split; [by eapply Hat|]. by intros ->.
Qed.

Lemma gettoken_at pre t w ts :
  line = pre ++ render ((t, w) :: ts) → spaced_ok ((t, w) :: ts) →
  gettoken buf es (length pre) =
    Ok (code t, length pre, length pre + length (text t))%nat (length pre + length (text t) + length w)%nat.
Proof using Hbuf Hline.
  intros Hl Hok. pose proof Hok as [(Ht & Hw & Hsep) Hts]. rewrite render_cons in Hl.
  set (p := length pre) in *. set (e := (p + length (text t))%nat).
  destruct (token_first t Ht) as (rest & Et & Hz & Hnw). unfold gettoken. step.
  rewrite (bind_ok _ _ _ p p).
  2: { pose proof (skip_space_at (S es) pre [] (text t ++ w ++ render ts) p) as E. rewrite Nat.add_0_r in E. apply E;
       [done|by apply Forall_nil_2|by rewrite Et|simpl; lia]. }
  cbv zeta. rewrite Et in Hl. destruct (char_at_pre _ _ _ Hl) as [Hc Hlt]. fold p in Hc.
  unfold ch at 1. rewrite Hc. step. rewrite (proj2 (Z.eqb_neq _ 0)) by done.
  assert (line = (pre ++ text t) ++ w ++ render ts) as Hl' by (by rewrite Et, Hl, <-app_assoc).
  assert (∀ r, r = (code t, e) → (let '(tok, s) := r in
    s' <- skip_space buf es (S es) s; put s';; ret (tok, p, s)) p = Ok (code t, p, e) (e + length w)%nat) as Hend.
  { intros r ->. pose proof (skip_space_at (S es) (pre ++ text t) w (render ts) p Hl' Hw (render_head ts Hts)) as E.
    rewrite length_app in E. fold p e in E. rewrite (bind_ok _ _ _ _ _ (E ltac:(rewrite Hl', !length_app; lia))). done. }
  destruct t as [wd|c|].
  - destruct Ht as [_ Hwd]. pose proof Hwd as Hwd'. simpl in Et. rewrite Et in Hwd'.
    apply list.Forall_cons in Hwd' as [(_ & _ & Hs)%wordc_spec _].
    rewrite in_sym in Hs. apply bool_decide_eq_false in Hs. unfold symbols in Hs. rewrite !not_elem_of_cons in Hs.
    assert (in_set [124; 40; 41; 59; 38; 60] (first (TWord wd)) = false) as ->.
    { rewrite in_set_spec by (by apply no_nul). apply bool_decide_eq_false. rewrite !not_elem_of_cons. naive_solver. }
    rewrite (proj2 (Z.eqb_neq _ 62)) by naive_solver.
    rewrite (bind_ok _ _ _ (97, e) p); [by apply (Hend (97, e))|].
    rewrite (bind_ok _ _ _ e p); [done|]. apply (skip_word_at (S es) pre wd (w ++ render ts)).
    + rewrite Hl'. by rewrite <-app_assoc.
    + done.
    + destruct w as [|x w]; [|apply list.Forall_cons in Hw as [Hx _]; simpl; by rewrite Hx]. specialize (Hsep eq_refl).
      destruct ts as [|[u w'] ts]; [done|]. destruct Hts as [[Hu _] _]. rewrite render_cons. destruct (token_first u Hu) as (rest' & -> & _).
      simpl. by rewrite Hsep, orb_true_r.
    + rewrite Hl', !length_app. simpl. lia.
  - simpl in Ht, e, Hc. assert (e = S p) as He by (unfold e; simpl; lia). destruct (decide (c = 62)) as [->|Hne].
    + destruct (after_gt pre w ts Hl' Hw Hsep Hts) as (x & Hx' & Hx). fold p in Hx'.
      cbn [first text List.hd]. change (in_set [124; 40; 41; 59; 38; 60] 62) with false. cbv iota. rewrite Z.eqb_refl.
      rewrite (bind_ok _ _ _ (62, e) p); [by apply (Hend (62, e))|]. unfold ch. rewrite Hx'. step.
      rewrite (proj2 (Z.eqb_neq x 62)) by done. by rewrite He.
    + assert (in_set [124; 40; 41; 59; 38; 60] c = true) as Hin.
      { rewrite in_set_spec by (by apply no_nul). apply bool_decide_eq_true. unfold symbols in Ht. set_solver. }
      cbn [first text List.hd]. rewrite Hin. rewrite (bind_ok _ _ _ (c, e) p); [by apply (Hend (c, e))|]. by rewrite He.
  - assert (e = S (S p)) as He by (unfold e; simpl; lia). cbn [first text List.hd].
    change (in_set [124; 40; 41; 59; 38; 60] 62) with false. cbv iota. rewrite Z.eqb_refl.
    assert (buf !! S p = Some 62) as Hx'.
    { assert (line = (pre ++ [62]) ++ 62 :: w ++ render ts) as Hl2 by (by rewrite Hl', <-!app_assoc).
      destruct (char_at_pre _ _ _ Hl2) as [Hx' _]. rewrite length_app in Hx'. simpl in Hx'. by rewrite Nat.add_1_r in Hx'. }
    rewrite (bind_ok _ _ _ (43, e) p); [by apply (Hend (43, e))|]. unfold ch. rewrite Hx'. step. by rewrite He.
Qed.

Lemma gettoken_end pre : line = pre → gettoken buf es (length pre) = Ok (0, es, es) es.
Proof using Hbuf Hline.
  intros <-. unfold gettoken. step.
  assert (∀ p, skip_space buf es (S es) es p = Ok es p) as Hs by (intros p; cbn [skip_space]; by rewrite Nat.ltb_irrefl).
  rewrite (bind_ok _ _ _ _ _ (Hs _)). cbv zeta. unfold ch at 1. rewrite (buf_end buf line tail Hbuf). step.
  rewrite (bind_ok _ _ _ (0, es) es) by done. rewrite (bind_ok _ _ _ _ _ (Hs _)). done.
Qed.

(** The strings of a command's words. *)
Fixpoint strings (c : cmd) : scmd :=
  match c with
  | EXEC argv => XExec (piece_of line <$> argv)
  | REDIR c q e mode fd => XRedir (strings c) (piece_of line (q, e)) mode fd
  | PIPE l r => XPipe (strings l) (strings r)
  | LIST l r => XList (strings l) (strings r)
  | BACK c => XBack (strings c)
  end.

(** The parser has read [ts] and stands before [k]. *)
Definition stands (pre : list Z) (k : list spaced_token) : Prop := line = pre ++ render k ∧ spaced_ok k.

Lemma stands_app pre ts k : stands pre (ts ++ k) → stands (pre ++ render ts) k.
Proof using.
  intros [Hl Hok]. split; [by rewrite Hl, render_app, app_assoc|]. by eapply spaced_ok_app.
Qed.

Lemma gettoken_next pre t w k :
  stands pre ((t, w) :: k) → ∃ pre', stands pre' k ∧ pre' = pre ++ render [(t, w)] ∧ (length pre < length pre')%nat ∧
    gettoken buf es (length pre) = Ok (code t, length pre, length pre + length (text t))%nat (length pre') ∧
    piece_of line (length pre, length pre + length (text t))%nat = text t.
Proof using Hbuf Hline.
  intros Hst. pose proof Hst as [Hl Hok]. exists (pre ++ render [(t, w)]). split_and!.
  - by apply (stands_app pre [(t, w)]).
  - done.
  - destruct Hok as [[Ht _] _]. destruct (token_first t Ht) as (rest & E & _). rewrite render_cons, !length_app, E. simpl. lia.
  - rewrite (gettoken_at pre t w k Hl Hok). f_equal. rewrite render_cons. simpl. rewrite !length_app. simpl. lia.
  - unfold piece_of. simpl. rewrite Hl, render_cons, drop_app_length. replace (length pre + length (text t) - length pre)%nat
      with (length (text t)) by lia. by rewrite take_app_length.
Qed.

Lemma peek_next toks pre k : stands pre k → peek buf es toks (length pre) = Ok (peeked toks k) (length pre).
Proof using Hbuf Hline. intros [Hl Hok]. by apply peek_at. Qed.

Lemma stands_fuel pre k : stands pre k → (length pre ≤ es ∧ length k ≤ es - length pre)%nat.
Proof using.
  intros [Hl Hok]. rewrite Hl, length_app. split; [lia|]. clear Hl. induction k as [|[t w] k IH]; [simpl; lia|].
  destruct Hok as [[Ht _] Hok]. specialize (IH Hok). destruct (token_first t Ht) as (rest & E & _).
  rewrite render_cons, E. rewrite !length_app in *. simpl in *. lia.
Qed.

Lemma redirs_next rs ts k pre n wrap sw :
  ts.*1 = rtokens rs → stands pre (ts ++ k) → peeked [60; 62] k = false → (length ts < n)%nat →
  (∀ c, strings (wrap c) = sw (strings c)) →
  ∃ wrap', parseredirs buf es n wrap (length pre) = Ok wrap' (length (pre ++ render ts)) ∧
    ∀ c, strings (wrap' c) = foldl sredir (sw (strings c)) rs.
Proof using Hbuf Hline.
  revert ts pre n wrap sw. induction rs as [|[kd f] rs IH]; intros ts pre [|n] wrap sw Hts Hst Hk Hn Hw; try (simpl in Hn; lia).
  - apply fmap_nil_inv in Hts as ->. exists wrap. cbn [parseredirs]. rewrite (bind_ok _ _ _ _ _ (peek_next _ _ _ Hst)). simpl in Hk |- *.
    rewrite Hk. cbn [negb]. rewrite app_nil_r. done.
  - unfold rtokens in Hts. simpl in Hts. apply fmap_cons_inv in Hts as ([t w1] & ts1 & Et & Hts1 & ->).
    symmetry in Hts1. apply fmap_cons_inv in Hts1 as ([t2 w2] & ts2 & Et2 & Hts2 & ->). simpl in Et, Et2. subst t t2.
    cbn [parseredirs]. rewrite (bind_ok _ _ _ _ _ (peek_next _ _ _ Hst)).
    assert (peeked [60; 62] (((rtoken kd, w1) :: (TWord f, w2) :: ts2) ++ k) = true) as -> by (by destruct kd). cbn [negb].
    destruct (gettoken_next _ _ _ _ Hst) as (pre1 & Hst1 & E1 & _ & Hr1 & _). rewrite (bind_ok _ _ _ _ _ Hr1).
    destruct (gettoken_next _ _ _ _ Hst1) as (pre2 & Hst2 & E2 & _ & Hr2 & Hp2). rewrite (bind_ok _ _ _ _ _ Hr2). cbn [code].
    change (negb (97 =? 97)) with false. cbv iota.
    destruct (IH ts2 pre2 n (λ c, redircmd (code (rtoken kd)) (wrap c) (length pre1) (length pre1 + length (text (TWord f))))
      (λ c, sredir (sw c) (kd, f))) as (wrap' & Hr & Hw').
    + done.
    + done.
    + done.
    + simpl in Hn. lia.
    + intros c. unfold redircmd, sredir. destruct kd; simpl in *; by rewrite Hp2, Hw.
    + exists wrap'. split; [|exact Hw']. rewrite Hr. f_equal. rewrite E2, E1, <-!app_assoc, <-!render_app. done.
Qed.

(** What may come after a phrase: the end of the line or one of the characters. *)
Definition follow (fs : list Z) (k : list spaced_token) : Prop := k = [] ∨ peeked fs k = true.

Lemma follow_not fs toks k : follow fs k → 0 ∉ fs → 0 ∉ toks → (∀ c, c ∈ fs → c ∉ toks) → peeked toks k = false.
Proof using.
  intros [->|Hk] Hf Ht Hd; [done|]. destruct k as [|[t w] k]; [done|]. simpl in *. rewrite in_set_spec in Hk |- * by done.
  apply bool_decide_eq_true in Hk. apply bool_decide_eq_false. auto.
Qed.

Lemma peeked_word toks w sp k : spaced_ok ((TWord w, sp) :: k) → 0 ∉ toks → (∀ c, c ∈ toks → c ∈ symbols) →
  peeked toks ((TWord w, sp) :: k) = false.
Proof using.
  intros [[[Hne Hw] _] _] H0 Hs. simpl. destruct w as [|c w]; [done|]. unfold first. simpl.
  apply list.Forall_cons in Hw as [(_ & _ & Hc)%wordc_spec _]. rewrite in_sym in Hc. apply bool_decide_eq_false in Hc.
  rewrite in_set_spec by done. apply bool_decide_eq_false. auto.
Qed.

Definition exec_follow : list Z := [124; 41; 38; 59].

Lemma args_head toks (args : list (list Z * list redir)) ta k :
  ta.*1 = (args ≫= λ a, TWord a.1 :: rtokens a.2) → spaced_ok (ta ++ k) → follow exec_follow k →
  toks = [60; 62] ∨ toks = [40] → peeked toks (ta ++ k) = false.
Proof using.
  clear Hbuf Hline. intros Ha Hok Hk Htoks. assert (0 ∉ toks) as H0 by (by destruct Htoks as [->| ->]; apply no_nul).
  destruct args as [|[w rs] args].
  - apply fmap_nil_inv in Ha as ->. simpl. apply (follow_not exec_follow); [done|by apply no_nul|done|].
    unfold exec_follow. destruct Htoks as [->| ->]; set_solver.
  - simpl in Ha. apply fmap_cons_inv in Ha as ([t w2] & ta' & Et & Ha & ->). simpl in Et. subst t.
    apply (peeked_word toks _ _ _ Hok H0). unfold symbols. destruct Htoks as [->| ->]; set_solver.
Qed.

Lemma args_next args ts k pre n argv wrap sw :
  ts.*1 = (args ≫= λ a, TWord a.1 :: rtokens a.2) → stands pre (ts ++ k) → follow exec_follow k → (length args < n)%nat →
  (length argv + length args < MAXARGS)%nat → (∀ c, strings (wrap c) = sw (strings c)) →
  ∃ c, parseargs buf es n argv wrap (length pre) = Ok c (length (pre ++ render ts)) ∧
    strings c = foldl sredir (sw (XExec ((piece_of line <$> argv) ++ args.*1))) (args ≫= snd).
Proof using Hbuf Hline.
  revert ts pre n argv wrap sw. induction args as [|[w rs] args IH]; intros ts pre [|n] argv wrap sw Hts Hst Hk Hn Hm Hw; try (simpl in Hn; lia).
  - apply fmap_nil_inv in Hts as ->. exists (wrap (EXEC argv)). cbn [parseargs]. rewrite (bind_ok _ _ _ _ _ (peek_next _ _ _ Hst)).
    simpl in Hst |- *. rewrite app_nil_r. fold exec_follow. split; [|rewrite Hw; simpl; by rewrite app_nil_r].
    destruct Hk as [->|Hk]; [|by rewrite Hk]. cbn [peeked]. destruct Hst as [Hl _]. simpl in Hl. rewrite app_nil_r in Hl.
    rewrite (bind_ok _ _ _ _ _ (gettoken_end pre Hl)). rewrite Hl. done.
  - simpl in Hts. apply fmap_cons_inv in Hts as ([t w1] & ts1 & Et & Hts1 & ->). simpl in Et. subst t. symmetry in Hts1.
    apply fmap_app_inv in Hts1 as (tr & ta & Hr & Ha & ->). symmetry in Hr, Ha. cbn [parseargs]. rewrite (bind_ok _ _ _ _ _ (peek_next _ _ _ Hst)).
    pose proof Hst as [_ Hok].
    cbn [app] in Hst, Hok |- *. rewrite peeked_word by (done || (by apply no_nul) || (unfold symbols; set_solver)).
    destruct (gettoken_next _ _ _ _ Hst) as (pre1 & Hst1 & E1 & _ & Hr1 & Hp1). rewrite (bind_ok _ _ _ _ _ Hr1). cbn [code].
    change (97 =? 0) with false. change (negb (97 =? 97)) with false. cbv iota zeta. simpl in Hm.
    rewrite leb_correct_conv by (rewrite length_app; simpl; lia).
    rewrite <-app_assoc in Hst1. pose proof (stands_fuel _ _ Hst1) as Hf. rewrite length_app in Hf.
    destruct (redirs_next rs tr (ta ++ k) pre1 (S es) wrap sw) as (wrap' & Hr2 & Hw'); [done|done| |lia|done|].
    { destruct Hst1 as [_ Hok1]. apply spaced_ok_app in Hok1. apply (args_head _ args ta k); [done|done|done|by left]. }
    rewrite (bind_ok _ _ _ _ _ Hr2).
    destruct (IH ta (pre1 ++ render tr) n (argv ++ [(length pre, length pre + length (text (TWord w)))%nat]) wrap'
      (λ c, foldl sredir (sw c) rs)) as (c & Hrun & Hc).
    + done.
    + by apply stands_app.
    + done.
    + simpl in Hn. lia.
    + rewrite length_app. simpl. lia.
    + done.
    + exists c. split.
      * rewrite Hrun. f_equal. rewrite E1, <-!app_assoc, <-!render_app. done.
      * rewrite Hc, fmap_app, <-app_assoc. simpl in Hp1 |- *. rewrite Hp1, foldl_app. done.
Qed.

Lemma back_next bg ts k pre n c :
  ts.*1 = replicate bg (TSym 38) → stands pre (ts ++ k) → peeked [38] k = false → (length ts < n)%nat →
  parseback buf es n c (length pre) = Ok (Nat.iter bg BACK c) (length (pre ++ render ts)).
Proof using Hbuf Hline.
  revert ts pre n c. induction bg as [|bg IH]; intros ts pre [|n] c Hts Hst Hk Hn; try lia.
  - apply fmap_nil_inv in Hts as ->. cbn [parseback]. rewrite (bind_ok _ _ _ _ _ (peek_next _ _ _ Hst)). simpl.
    rewrite Hk, app_nil_r. done.
  - simpl in Hts. apply fmap_cons_inv in Hts as ([t w] & ts' & Et & Hts & ->). simpl in Et. subst t. symmetry in Hts.
    cbn [parseback]. rewrite (bind_ok _ _ _ _ _ (peek_next _ _ _ Hst)). cbn [app peeked first text List.hd].
    change (in_set [38] 38) with true. cbv iota.
    destruct (gettoken_next _ _ _ _ Hst) as (pre1 & Hst1 & E1 & _ & Hr1 & _). rewrite (bind_ok _ _ _ _ _ Hr1).
    rewrite (IH ts' pre1 n (BACK c) Hts Hst1 Hk ltac:(simpl in Hn; lia)). rewrite <-Nat.iter_succ_r, E1, <-app_assoc, <-render_app. done.
Qed.

Lemma strings_back bg c : strings (Nat.iter bg BACK c) = Nat.iter bg XBack (strings c).
Proof using. induction bg as [|bg IH]; [done|]. simpl. by rewrite IH. Qed.

Lemma follow_sym c fs w k : in_set fs c = true → follow fs ((TSym c, w) :: k).
Proof using. intros Hc. by right. Qed.

Definition line_next (l : sline) : Prop := ∀ ts k pre n,
  lfits l → ts.*1 = ltokens l → stands pre (ts ++ k) → follow [41] k → (4 * (es - length pre) + 4 ≤ n)%nat →
  ∃ c, parseline buf es n (length pre) = Ok c (length (pre ++ render ts)) ∧ strings c = lmeaning l.
Definition pipe_next (p : spipe) : Prop := ∀ ts k pre n,
  pfits p → ts.*1 = ptokens p → stands pre (ts ++ k) → follow [41; 38; 59] k → (4 * (es - length pre) + 3 ≤ n)%nat →
  ∃ c, parsepipe buf es n (length pre) = Ok c (length (pre ++ render ts)) ∧ strings c = pmeaning p.
Definition exec_next (e : sexec) : Prop := ∀ ts k pre n,
  efits e → ts.*1 = etokens e → stands pre (ts ++ k) → follow exec_follow k → (4 * (es - length pre) + 2 ≤ n)%nat →
  ∃ c, parseexec buf es n (length pre) = Ok c (length (pre ++ render ts)) ∧ strings c = emeaning e.

Lemma simple_next rs args : exec_next (SSimple rs args).
Proof using Hbuf Hline.
  intros ts k pre [|n] Hfit Hts Hst Hk Hn; [lia|]. apply fmap_app_inv in Hts as (tr & ta & Hr & Ha & ->). symmetry in Hr, Ha.
  pose proof (stands_fuel _ _ Hst) as Hf. rewrite !length_app in Hf. rewrite <-app_assoc in Hst. pose proof Hst as [_ Hok].
  assert (spaced_ok (ta ++ k)) as Hok' by (by eapply spaced_ok_app).
  cbn [parseexec]. rewrite (bind_ok _ _ _ _ _ (peek_next _ _ _ Hst)).
  assert (peeked [40] (tr ++ ta ++ k) = false) as ->.
  { destruct rs as [|[kd f] rs]; [apply fmap_nil_inv in Hr as ->; apply (args_head _ args ta k); [done|done|done|by right]|].
    simpl in Hr. apply fmap_cons_inv in Hr as ([t w] & tr' & Et & _ & ->). simpl in Et. subst t. by destruct kd. }
  destruct (redirs_next rs tr (ta ++ k) pre (S es) (λ c, c) id) as (wrap & Hr2 & Hw); [done|done| |lia|done|].
  { apply (args_head _ args ta k); [done|done|done|by left]. }
  rewrite (bind_ok _ _ _ _ _ Hr2).
  assert (length args ≤ length ta)%nat as Hla.
  { rewrite <-(length_fmap fst ta), Ha. clear. induction args as [|a args IH]; [simpl; lia|].
    rewrite bind_cons, length_app. simpl. lia. }
  destruct (args_next args ta k (pre ++ render tr) (S es) [] wrap (λ c, foldl sredir c rs)) as (c & Hrun & Hc);
    [done|by apply stands_app|done|lia|done|done|].
  exists c. split; [by rewrite Hrun, render_app, app_assoc|]. rewrite Hc. simpl. by rewrite foldl_app.
Qed.

Lemma block_next l rs : line_next l → exec_next (SBlock l rs).
Proof using Hbuf Hline.
  intros IH ts k pre [|[|n]] Hfit Hts Hst Hk Hn; [lia|lia|].
  simpl in Hts. apply fmap_cons_inv in Hts as ([t w] & ts' & Et & Hts & ->). simpl in Et. subst t. symmetry in Hts.
  apply fmap_app_inv in Hts as (tl & tr & Hl & Hr & ->). symmetry in Hl, Hr.
  apply fmap_cons_inv in Hr as ([t w2] & tr' & Et & Hr & ->). simpl in Et. subst t. symmetry in Hr.
  rewrite <-app_comm_cons, <-app_assoc, <-app_comm_cons in Hst.
  cbn [parseexec]. rewrite (bind_ok _ _ _ _ _ (peek_next _ _ _ Hst)). cbn [peeked first text List.hd].
  change (in_set [40] 40) with true. cbv iota. cbn [parseblock].
  rewrite (bind_ok _ _ _ _ _ (peek_next _ _ _ Hst)). cbn [peeked first text List.hd]. change (in_set [40] 40) with true. cbv iota. cbn [negb].
  destruct (gettoken_next _ _ _ _ Hst) as (pre1 & Hst1 & E1 & Hlt1 & Hr1 & _). rewrite (bind_ok _ _ _ _ _ Hr1).
  pose proof (stands_fuel _ _ Hst1) as Hf1.
  destruct (IH tl ((TSym 41, w2) :: tr' ++ k) pre1 n Hfit Hl Hst1) as (c & Hrun & Hc); [by apply follow_sym|lia|].
  rewrite (bind_ok _ _ _ _ _ Hrun). apply stands_app in Hst1 as Hst2.
  rewrite (bind_ok _ _ _ _ _ (peek_next _ _ _ Hst2)). cbn [peeked first text List.hd]. change (in_set [41] 41) with true. cbv iota. cbn [negb].
  destruct (gettoken_next _ _ _ _ Hst2) as (pre3 & Hst3 & E3 & Hlt3 & Hr3 & _). rewrite (bind_ok _ _ _ _ _ Hr3).
  pose proof (stands_fuel _ _ Hst3) as Hf3. rewrite length_app in Hf3.
  destruct (redirs_next rs tr' k pre3 (S es) (λ c, c) id) as (wrap & Hr4 & Hw); [done|done| |lia|done|].
  { apply (follow_not exec_follow); [done|by apply no_nul|by apply no_nul|]. unfold exec_follow. set_solver. }
  rewrite (bind_ok _ _ _ _ _ Hr4). exists (wrap c). split; [|rewrite Hw, Hc; done].
  unfold ret. f_equal. rewrite E3, E1, <-!app_assoc, <-!render_app. done.
Qed.

Lemma pipe_next_exec e : exec_next e → pipe_next (SExec e).
Proof using Hbuf Hline.
  intros IH ts k pre [|n] Hfit Hts Hst Hk Hn; [lia|]. cbn [parsepipe].
  assert (follow exec_follow k) as Hk'.
  { destruct Hk as [->|Hk]; [by left|right]. destruct k as [|[t w] k]; [done|]. simpl in *. unfold exec_follow.
    rewrite in_set_spec in Hk |- * by (by apply no_nul). apply bool_decide_eq_true in Hk. apply bool_decide_eq_true. set_solver. }
  destruct (IH ts k pre n Hfit Hts Hst Hk') as (c & Hrun & Hc); [lia|]. rewrite (bind_ok _ _ _ _ _ Hrun).
  apply stands_app in Hst. rewrite (bind_ok _ _ _ _ _ (peek_next _ _ _ Hst)).
  rewrite (follow_not _ [124] k Hk) by ((by apply no_nul) || set_solver). by exists c.
Qed.

Lemma pipe_next_pipe e p : exec_next e → pipe_next p → pipe_next (SPipe e p).
Proof using Hbuf Hline.
  intros IHe IHp ts k pre [|n] [Hfit1 Hfit2] Hts Hst Hk Hn; [lia|]. cbn [parsepipe].
  simpl in Hts. apply fmap_app_inv in Hts as (te & tp & He & Hp & ->). symmetry in He, Hp.
  apply fmap_cons_inv in Hp as ([t w] & tp' & Et & Hp & ->). simpl in Et. subst t. symmetry in Hp.
  rewrite <-app_assoc, <-app_comm_cons in Hst.
  destruct (IHe te ((TSym 124, w) :: tp' ++ k) pre n Hfit1 He Hst) as (c & Hrun & Hc); [by apply follow_sym|lia|].
  rewrite (bind_ok _ _ _ _ _ Hrun). apply stands_app in Hst. rewrite (bind_ok _ _ _ _ _ (peek_next _ _ _ Hst)).
  cbn [peeked first text List.hd]. change (in_set [124] 124) with true. cbv iota.
  destruct (gettoken_next _ _ _ _ Hst) as (pre1 & Hst1 & E1 & Hlt1 & Hr1 & _). rewrite (bind_ok _ _ _ _ _ Hr1).
  pose proof (stands_fuel _ _ Hst1) as Hf1. rewrite length_app in Hlt1.
  destruct (IHp tp' k pre1 n Hfit2 Hp Hst1 Hk) as (c2 & Hrun2 & Hc2); [lia|]. rewrite (bind_ok _ _ _ _ _ Hrun2).
  exists (PIPE c c2). split; [|simpl; by rewrite Hc, Hc2]. unfold ret. f_equal.
  rewrite E1, <-!app_assoc, <-!render_app. done.
Qed.

(** A pipeline with its ampersands. *)
Lemma back_pipe_next p bg ts k pre n fs :
  pipe_next p → pfits p → ts.*1 = ptokens p ++ replicate bg (TSym 38) → stands pre (ts ++ k) →
  follow fs k → fs = [41] ∨ fs = [59] → (4 * (es - length pre) + 3 ≤ n)%nat →
  ∃ c, (c <- parsepipe buf es n; parseback buf es (S es) c) (length pre) = Ok c (length (pre ++ render ts)) ∧
    strings c = Nat.iter bg XBack (pmeaning p).
Proof using Hbuf Hline.
  intros IH Hfit Hts Hst Hk Hfs Hn. apply fmap_app_inv in Hts as (tp & tb & Hp & Hb & ->). symmetry in Hp, Hb.
  rewrite <-app_assoc in Hst. pose proof (stands_fuel _ _ Hst) as Hf. rewrite !length_app in Hf.
  destruct (IH tp (tb ++ k) pre n Hfit Hp Hst) as (c & Hrun & Hc); [|done|].
  { destruct bg as [|bg].
    - apply fmap_nil_inv in Hb as ->. simpl. destruct Hk as [->|Hk]; [by left|right]. destruct k as [|[t w] k]; [done|]. simpl in *.
      rewrite in_set_spec in Hk |- * by (destruct Hfs as [->| ->]; by apply no_nul). apply bool_decide_eq_true in Hk.
      apply bool_decide_eq_true. destruct Hfs as [->| ->]; set_solver.
    - simpl in Hb. apply fmap_cons_inv in Hb as ([t w] & tb' & Et & _ & ->). simpl in Et. subst t. by apply follow_sym. }
  rewrite (bind_ok _ _ _ _ _ Hrun). apply stands_app in Hst.
  rewrite (back_next bg tb k _ (S es) c Hb Hst).
  - eexists. split; [by rewrite render_app, app_assoc|]. by rewrite strings_back, Hc.
  - apply (follow_not fs); [done|destruct Hfs as [->| ->]; by apply no_nul|by apply no_nul|]. destruct Hfs as [->| ->]; set_solver.
  - lia.
Qed.

Lemma line_next_last p bg : pipe_next p → line_next (SLast p bg).
Proof using Hbuf Hline.
  intros IH ts k pre [|n] Hfit Hts Hst Hk Hn; [lia|]. cbn [parseline].
  destruct (back_pipe_next p bg ts k pre n [41] IH Hfit Hts Hst Hk) as (c & Hrun & Hc); [by left|lia|].
  rewrite (bind_assoc _ _ _ _ _ _ Hrun). apply stands_app in Hst. rewrite (bind_ok _ _ _ _ _ (peek_next _ _ _ Hst)).
  rewrite (follow_not _ [59] k Hk) by ((by apply no_nul) || set_solver). by exists c.
Qed.

Lemma line_next_seq p bg l : pipe_next p → line_next l → line_next (SSeq p bg l).
Proof using Hbuf Hline.
  intros IHp IHl ts k pre [|n] [Hfit1 Hfit2] Hts Hst Hk Hn; [lia|]. cbn [parseline].
  simpl in Hts. rewrite app_assoc in Hts. apply fmap_app_inv in Hts as (tp & tl & Hp & Hl & ->). symmetry in Hp, Hl.
  apply fmap_cons_inv in Hl as ([t w] & tl' & Et & Hl & ->). simpl in Et. subst t. symmetry in Hl.
  rewrite <-app_assoc, <-app_comm_cons in Hst.
  destruct (back_pipe_next p bg tp ((TSym 59, w) :: tl' ++ k) pre n [59] IHp Hfit1 Hp Hst) as (c & Hrun & Hc);
    [by apply follow_sym|by right|lia|].
  rewrite (bind_assoc _ _ _ _ _ _ Hrun). apply stands_app in Hst. rewrite (bind_ok _ _ _ _ _ (peek_next _ _ _ Hst)).
  cbn [peeked first text List.hd]. change (in_set [59] 59) with true. cbv iota.
  destruct (gettoken_next _ _ _ _ Hst) as (pre1 & Hst1 & E1 & Hlt1 & Hr1 & _). rewrite (bind_ok _ _ _ _ _ Hr1).
  pose proof (stands_fuel _ _ Hst1) as Hf1. rewrite length_app in Hlt1.
  destruct (IHl tl' k pre1 n Hfit2 Hl Hst1 Hk) as (c2 & Hrun2 & Hc2); [lia|]. rewrite (bind_ok _ _ _ _ _ Hrun2).
  exists (LIST c c2). split; [|simpl; by rewrite Hc, Hc2]. unfold ret. f_equal.
  rewrite E1, <-!app_assoc, <-!render_app. done.
Qed.

Lemma syntax_next : (∀ l, line_next l) ∧ (∀ p, pipe_next p) ∧ (∀ e, exec_next e).
Proof using Hbuf Hline.
  apply syntax_ind; eauto using line_next_last, line_next_seq, pipe_next_exec, pipe_next_pipe, simple_next, block_next.
Qed.
End buf.

(** ** The strings of the finished command *)

(** A command as runcmd sees it: the words are the strings at their pointers. *)
Fixpoint resolve (b : list Z) (c : cmd) : option scmd :=
  match c with
  | EXEC argv => XExec <$> mapM (λ w, cstr (drop w.1 b)) argv
  | REDIR c q _ mode fd => x ← resolve b c; f ← cstr (drop q b); Some (XRedir x f mode fd)
  | PIPE l r => x ← resolve b l; y ← resolve b r; Some (XPipe x y)
  | LIST l r => x ← resolve b l; y ← resolve b r; Some (XList x y)
  | BACK c => XBack <$> resolve b c
  end.

Lemma resolve_strings line b c :
  (∀ w, w ∈ words c → cstr (drop w.1 b) = Some (piece_of line w)) → resolve b c = Some (strings line c).
Proof.
  induction c as [argv|c IH q e mo fd|l IHl r IHr|l IHl r IHr|c IH]; intros Hw; cbn [resolve strings words] in *.
  - assert (mapM (λ w, cstr (drop w.1 b)) argv = Some (piece_of line <$> argv)) as ->; [|done].
    apply mapM_Some. induction argv as [|w argv IH]; [constructor|]. constructor; [apply Hw; left|].
    apply IH. intros w' Hw'. apply Hw. by right.
  - rewrite IH by (intros w ?; apply Hw, elem_of_app; by left). simpl.
    specialize (Hw (q, e) ltac:(apply elem_of_app; right; left)). simpl in Hw. by rewrite Hw.
  - rewrite IHl by (intros w ?; apply Hw, elem_of_app; by left). by rewrite IHr by (intros w ?; apply Hw, elem_of_app; by right).
  - rewrite IHl by (intros w ?; apply Hw, elem_of_app; by left). by rewrite IHr by (intros w ?; apply Hw, elem_of_app; by right).
  - by rewrite IH.
Qed.

Lemma render_no_nul ts : spaced_ok ts → 0 ∉ render ts.
Proof.
  induction ts as [|[t w] ts IH]; intros Hok; [apply not_elem_of_nil|]. destruct Hok as [(Ht & Hw & _) Hok].
  rewrite render_cons, !not_elem_of_app. split_and!; [| |by apply IH].
  - destruct t as [v|c|]; simpl in *; [| |by apply no_nul].
    2: { intros E%list_elem_of_singleton. apply symbol_spec in Ht as [? _]. congruence. }
    destruct Ht as [_ Hv]. intros H0. by apply (proj1 (list.Forall_forall _ _) Hv), wordc_spec in H0 as [? _].
  - intros H0. apply (proj1 (list.Forall_forall _ _) Hw) in H0. done.
Qed.

(** White space before a command line is skipped by the first peek of the parser. *)
Lemma parseline_lead buf line tail lead ts n :
  buf = line ++ 0 :: tail → 0 ∉ line → line = lead ++ render ts → space_ok lead → spaced_ok ts → (3 ≤ n)%nat →
  parseline buf (length line) n O = parseline buf (length line) n (length lead).
Proof.
  intros Hbuf H0 Hl Hlead Hok Hn. destruct n as [|[|[|n]]]; try lia.
  assert (peek buf (length line) [40] O = peek buf (length line) [40] (length lead)) as Hpk.
  { assert (∀ s, skip_space buf (length line) (S (length line)) s s = Ok (length lead) s →
      peek buf (length line) [40] s = (c <- ch buf (length lead); ret (negb (c =? 0) && in_set [40] c)) (length lead)) as Hs.
    { intros s Hs. unfold peek. step. by rewrite (bind_ok _ _ _ _ _ Hs). }
    rewrite !Hs; [done| |].
    - rewrite (skip_space_at buf line tail Hbuf H0 _ lead [] (render ts));
        [by rewrite Nat.add_0_r|done|by apply Forall_nil_2|by apply render_head|simpl; lia].
    - apply (skip_space_at buf line tail Hbuf H0 _ [] lead (render ts)); [done|done|by apply render_head|]. rewrite Hl, length_app. lia. }
  cbn [parseline parsepipe parseexec]. unfold bind at 1 2 3. unfold bind at 5 6 7. by rewrite Hpk.
Qed.

(** C12: the parser reads the grammar of command lines: for a line made of the tokens of
    a syntax tree, with any white space before and between them, and none where a token
    ends by itself, parsecmd returns the command the tree means, its words being the
    strings in the buffer.  A simple command of the tree has at most nine words. *)
Theorem parsecmd_reads l lead ts s0 :
  lfits l → ts.*1 = ltokens l → space_ok lead → spaced_ok ts →
  ∃ c b s, parsecmd (cz (lead ++ render ts)) s0 = Ok (c, b) s ∧ resolve b c = Some (lmeaning l).
Proof.
  intros Hfit Hts Hlead Hok. set (line := lead ++ render ts) in *. set (buf := cz line).
  assert (0 ∉ line) as H0.
  { apply not_elem_of_app. split; [|by apply render_no_nul]. intros E. by apply (proj1 (list.Forall_forall _ _) Hlead) in E. }
  assert (buf = line ++ 0 :: []) as Hbuf by done.
  assert (cstr buf = Some line) as Hcs.
  { clear -H0. unfold buf, cz. induction line as [|c l IH]; [done|]. apply not_elem_of_cons in H0 as [Hc H0]. simpl.
    rewrite (proj2 (Z.eqb_neq c 0)) by done. by rewrite IH. }
  assert (stands line lead (ts ++ [])) as Hst by (rewrite app_nil_r; by split).
  destruct (proj1 (syntax_next buf line [] Hbuf H0) l ts [] lead (4 * length line + 5)%nat Hfit Hts Hst) as (c & Hrun & Hc);
    [by left|lia|]. rewrite <-(parseline_lead buf line [] lead ts) in Hrun by (done || lia). fold line in Hrun.
  pose proof (parse_run buf line [] Hbuf H0 (4 * length line + 5)) as [Hpr _]. specialize (Hpr O ltac:(lia) ltac:(lia)).
  unfold parses in Hpr. rewrite Hrun in Hpr. destruct Hpr as [_ Hwok].
  destruct (nulterminate_run c buf) as (b & Hb & Hz).
  { intros w Hw. apply (proj1 (list.Forall_forall _ _) Hwok) in Hw as [? _]. rewrite Hbuf, length_app. simpl. lia. }
  exists c, b, (length line). split.
  - unfold parsecmd. rewrite strlen_cstr, Hcs. simpl. step. step. rewrite (bind_ok _ _ _ _ _ Hrun).
    rewrite (bind_ok _ _ _ _ _ (peek_at buf line [] Hbuf H0 [] line [] (eq_sym (app_nil_r line)) I)).
    step. rewrite Nat.eqb_refl. cbn [negb]. by rewrite Hb.
  - rewrite <-Hc. apply resolve_strings. intros w Hw. by apply (word_string buf line [] Hbuf H0 c).
Qed.
