(* ===== verification/ShRun.v ===== *)
(** * How the shell runs a command (sh.c: runcmd)

    A process is its table of descriptors; [runcmd] closes, opens, duplicates and makes
    pipes until it executes programs.  [runcmd] below gives what the process does, with the
    processes it forks; a child's table is a copy of its parent's.  [opens] says what opening
    a file gives, [execs] whether a program can be executed, [forks] whether the n-th fork
    succeeds. *)
From S2P Require Import Prelude Sh ShParse.

(** What a descriptor refers to: a file that was open or has been opened, or an end of
    a pipe. *)
Inductive obj :=
  | Ofile (id : Z)
  | Opipe_read (k : nat)
  | Opipe_write (k : nat).

Abbreviation fdtable := (list (option obj)).
Abbreviation program := (list (list Z) * fdtable)%type.

Definition is_free (o : option obj) : bool := match o with None => true | Some _ => false end.

(** The system calls on the table; an error changes nothing. *)
Definition fd_close (fd : nat) (t : fdtable) : fdtable := <[fd := None]> t.
Definition fd_alloc (o : obj) (t : fdtable) : option (nat * fdtable) :=
  i ← find_index is_free t; Some (i, <[i := Some o]> t).
Definition fd_dup (fd : nat) (t : fdtable) : fdtable :=
  match t !! fd with
  | Some (Some o) => match fd_alloc o t with Some (_, t') => t' | None => t end
  | _ => t
  end.
Definition fd_pipe (k : nat) (t : fdtable) : option (nat * nat * fdtable) :=
  '(i, t1) ← fd_alloc (Opipe_read k) t;
  '(j, t2) ← fd_alloc (Opipe_write k) t1;
  Some (i, j, t2).

(** What a process that runs a command does besides changing its descriptors: it executes
    a program, forks a process, waits for one of its children, with the descriptors it then
    has, reports an error, or exits.  After an [exec] that succeeds it does nothing more. *)
Inductive pact :=
  | Pexec (argv : list (list Z)) (t : fdtable)
  | Pfork (child : list pact)
  | Pwait (t : fdtable)
  | Pfailed (call : string) (name : list Z)
  | Ppanic (msg : string)
  | Pexit.

Section run.
  Context (opens : list Z → Z → option Z) (execs : list (list Z) → bool) (forks : nat → bool).

(** [k] pipes have been made and [f] forks tried. *)
Fixpoint runcmd (c : scmd) (t : fdtable) (k f : nat) : list pact * nat * nat :=
  match c with
  | XExec [] => ([Pexit], k, f)
  | XExec (name :: args) =>
      (Pexec (name :: args) t :: if execs (name :: args) then [] else [Pfailed "exec" name; Pexit], k, f)
  | XRedir c file mode fd =>
      let t := fd_close (Z.to_nat fd) t in
      match opens file mode with
      | None => ([Pfailed "open" file; Pexit], k, f)
      | Some id =>
          match fd_alloc (Ofile id) t with
          | None => ([Pfailed "open" file; Pexit], k, f)
          | Some (_, t) => runcmd c t k f
          end
      end
  | XList l r =>
      if forks f then
        let '(ps, k, f) := runcmd l t k (S f) in
        let '(qs, k, f) := runcmd r t k f in
        (Pfork ps :: Pwait t :: qs, k, f)
      else ([Ppanic "fork"], k, S f)
  | XPipe l r =>
      match fd_pipe k t with
      | None => ([Ppanic "pipe"], k, f)
      | Some (p0, p1, t) =>
          if forks f then
            let '(ps, k, f) := runcmd l (fd_close p1 (fd_close p0 (fd_dup p1 (fd_close 1 t)))) (S k) (S f) in
            if forks f then
              let '(qs, k, f) := runcmd r (fd_close p1 (fd_close p0 (fd_dup p0 (fd_close 0 t)))) k (S f) in
              let t := fd_close p1 (fd_close p0 t) in
              ([Pfork ps; Pfork qs; Pwait t; Pwait t; Pexit], k, f)
            else ([Pfork ps; Ppanic "fork"], k, S f)
          else ([Ppanic "fork"], S k, S f)
      end
  | XBack c =>
      if forks f then
        let '(ps, k, f) := runcmd c t k (S f) in
        ([Pfork ps; Pexit], k, f)
      else ([Ppanic "fork"], k, S f)
  end.

(** The programs a process and its descendants execute, in the order of the forks; the
    tables with which they wait; and how many processes they fork. *)
Fixpoint act_programs (a : pact) : list program :=
  match a with Pexec argv t => [(argv, t)] | Pfork ps => concat (map act_programs ps) | _ => [] end.
Fixpoint act_waits (a : pact) : list fdtable :=
  match a with Pwait t => [t] | Pfork ps => concat (map act_waits ps) | _ => [] end.
Fixpoint act_forks (a : pact) : nat :=
  match a with Pfork ps => S (sum_list (map act_forks ps)) | _ => O end.
Definition programs (ps : list pact) : list program := concat (map act_programs ps).
Definition waits (ps : list pact) : list fdtable := concat (map act_waits ps).
Definition nforks (ps : list pact) : nat := sum_list (map act_forks ps).

Lemma programs_fork ps l : programs (Pfork ps :: l) = programs ps ++ programs l.
Proof using. done. Qed.
Lemma programs_wait t l : programs (Pwait t :: l) = programs l.
Proof using. done. Qed.
Lemma waits_fork ps l : waits (Pfork ps :: l) = waits ps ++ waits l.
Proof using. done. Qed.
Lemma waits_wait t l : waits (Pwait t :: l) = t :: waits l.
Proof using. done. Qed.
Lemma nforks_fork ps l : nforks (Pfork ps :: l) = S (nforks ps + nforks l).
Proof using. done. Qed.
Lemma nforks_wait t l : nforks (Pwait t :: l) = nforks l.
Proof using. done. Qed.
Lemma programs_exit : programs [Pexit] = [].
Proof using. done. Qed.
Lemma waits_exit : waits [Pexit] = [].
Proof using. done. Qed.
Lemma nforks_exit : nforks [Pexit] = 0%nat.
Proof using. done. Qed.
Create Rewrite HintDb acts.
#[local] Hint Rewrite programs_fork programs_wait waits_fork waits_wait nforks_fork nforks_wait programs_exit waits_exit nforks_exit @app_nil_r : acts.

(** ** The wiring of a command line *)

(** The programs of a command with their standard input and output. *)
Fixpoint wired (c : scmd) (i o : obj) (k : nat) : list (list (list Z) * obj * obj) * nat :=
  match c with
  | XExec argv => (match argv with [] => [] | _ => [(argv, i, o)] end, k)
  | XRedir c file mode fd =>
      match opens file mode with
      | None => ([], k)
      | Some id => if fd =? 0 then wired c (Ofile id) o k else wired c i (Ofile id) k
      end
  | XList l r => let '(ps, k) := wired l i o k in let '(qs, k) := wired r i o k in (ps ++ qs, k)
  | XPipe l r => let '(ps, k') := wired l i (Opipe_write k) (S k) in let '(qs, k') := wired r (Opipe_read k) o k' in (ps ++ qs, k')
  | XBack c => wired c i o k
  end.

(** Redirections are of descriptors 0 and 1, as the parser makes them. *)
Fixpoint std (c : scmd) : Prop :=
  match c with
  | XExec _ => True
  | XRedir c _ _ fd => (fd = 0 ∨ fd = 1) ∧ std c
  | XPipe l r | XList l r => std l ∧ std r
  | XBack c => std c
  end.

(** Nothing is run in the background. *)
Fixpoint fg (c : scmd) : Prop :=
  match c with
  | XExec _ => True
  | XRedir c _ _ _ => fg c
  | XPipe l r | XList l r => fg l ∧ fg r
  | XBack _ => False
  end.

Definition table (i o : obj) (rest : fdtable) : fdtable := Some i :: Some o :: rest.

Lemma find_free (rest : fdtable) a : rest !! a = Some None → ∃ n, find_index is_free rest = Some n ∧ rest !! n = Some None.
Proof using.
  revert a. induction rest as [|[x|] rest IH]; intros [|a] Ha; simpl in *; try done; [|by exists O..].
  destruct (IH a Ha) as (n & -> & Hn). by exists (S n).
Qed.

(** At least two descriptors besides the first two are free. *)
Definition roomy (rest : fdtable) : Prop := ∃ a b, a ≠ b ∧ rest !! a = Some None ∧ rest !! b = Some None.

Lemma alloc_table i o x rest n :
  find_index is_free rest = Some n → fd_alloc x (table i o rest) = Some (S (S n), table i o (<[n := Some x]> rest)).
Proof using. intros Hn. unfold fd_alloc, table. simpl. by rewrite Hn. Qed.

Lemma pipe_table i o rest k :
  roomy rest → ∃ a b, a ≠ b ∧ rest !! a = Some None ∧ rest !! b = Some None ∧
    fd_pipe k (table i o rest) =
      Some (S (S a), S (S b), table i o (<[b := Some (Opipe_write k)]> (<[a := Some (Opipe_read k)]> rest))).
Proof using.
  intros (a & b & Hab & Ha & Hb). destruct (find_free rest a Ha) as (n & Hn & Hfn).
  assert (∃ m, m ≠ n ∧ rest !! m = Some None) as (m & Hmn & Hm) by (destruct (decide (a = n)) as [->|]; eauto).
  destruct (find_free (<[n := Some (Opipe_read k)]> rest) m) as (m' & Hm' & Hfm'); [by rewrite list_lookup_insert_ne by done|].
  assert (n ≠ m') as Hne.
  { intros ->. rewrite list_lookup_insert_eq in Hfm' by (by eapply lookup_lt_Some). done. }
  rewrite list_lookup_insert_ne in Hfm' by done. exists n, m'. split_and!; [done..|].
  unfold fd_pipe. rewrite (alloc_table _ _ _ _ _ Hn). simpl. by rewrite (alloc_table _ _ _ _ _ Hm').
Qed.

(** Freeing the two ends again leaves the rest of the table as it was. *)
Lemma close_ends i o rest a b x y :
  rest !! a = Some None → rest !! b = Some None →
  fd_close (S (S b)) (fd_close (S (S a)) (table i o (<[b := Some y]> (<[a := Some x]> rest)))) = table i o rest.
Proof using.
  intros Ha Hb. unfold fd_close, table. simpl. f_equal. f_equal.
  destruct (decide (a = b)) as [->|Hne].
  - rewrite !list_insert_insert_eq. by apply list_insert_id.
  - rewrite (list_insert_insert_ne _ a b) by done. rewrite !list_insert_insert_eq.
    rewrite (list_insert_id rest a) by done. by apply list_insert_id.
Qed.

(** What C18 says of the actions [r] of a command. *)
Record run_ok (c : scmd) (i o : obj) (rest : fdtable) (k : nat) (r : list pact * nat * nat) : Prop := {
  ru_programs : programs r.1.1 = (λ p, (p.1.1, table p.1.2 p.2 rest)) <$> (wired c i o k).1;
  ru_pipes : r.1.2 = (wired c i o k).2;
  ru_waits : Forall (λ t, ∃ i o, t = table i o rest) (waits r.1.1);
  ru_reaps : fg c → nforks r.1.1 = length (waits r.1.1);
}.

Lemma exec_ok argv i o rest k f : run_ok (XExec argv) i o rest k (runcmd (XExec argv) (table i o rest) k f).
Proof using.
  destruct argv as [|name args]; cbn [runcmd]; [by split|]. destruct (execs _); by split.
Qed.

Lemma pipe_ok l r i o rest k ps qs k1 k2 f1 f2 f3 :
  run_ok l i (Opipe_write k) rest (S k) (ps, k1, f1) → run_ok r (Opipe_read k) o rest k1 (qs, k2, f2) →
  run_ok (XPipe l r) i o rest k ([Pfork ps; Pfork qs; Pwait (table i o rest); Pwait (table i o rest); Pexit], k2, f3).
Proof using.
  intros [P1 K1 W1 R1] [P2 K2 W2 R2]. cbn [fst snd] in *. subst k1. split; cbn [fst snd wired]; autorewrite with acts.
  all: destruct (wired l i (Opipe_write k) (S k)) as [lp k1]; cbn [fst snd] in *; destruct (wired r (Opipe_read k) o k1) as [rp k2']; cbn [fst snd] in *.
  - by rewrite P1, P2, fmap_app.
  - done.
  - apply Forall_app; split; [done|]. apply Forall_app; split; [done|]. repeat constructor; eauto.
  - intros [Hl Hr]. rewrite !length_app. cbn. rewrite R1, R2 by done. lia.
Qed.

Lemma list_ok l r i o rest k ps qs k1 k2 f1 f2 f3 :
  run_ok l i o rest k (ps, k1, f1) → run_ok r i o rest k1 (qs, k2, f2) →
  run_ok (XList l r) i o rest k (Pfork ps :: Pwait (table i o rest) :: qs, k2, f3).
Proof using.
  intros [P1 K1 W1 R1] [P2 K2 W2 R2]. cbn [fst snd] in *. subst k1. split; cbn [fst snd wired]; autorewrite with acts.
  all: destruct (wired l i o k) as [lp k1]; cbn [fst snd] in *; destruct (wired r i o k1) as [rp k2']; cbn [fst snd] in *.
  - by rewrite P1, P2, fmap_app.
  - done.
  - apply Forall_app; split; [done|]. constructor; eauto.
  - intros [Hl Hr]. rewrite !length_app. cbn. rewrite R1, R2 by done. lia.
Qed.

End run.
