(* ===== verification/Jsmn.v ===== *)
(** * The JSON tokenizer (jsmn.h)

    The parser fills an array of tokens that delimit the values of a JSON text.  The
    state is the parser and the token array; an access outside the text or the array
    is undefined.  Positions are natural numbers: [pos] stays below [len]. *)
From S2P Require Import Prelude.

Inductive jsmntype := JSMN_UNDEFINED | JSMN_OBJECT | JSMN_ARRAY | JSMN_STRING | JSMN_PRIMITIVE.
#[global] Instance jsmntype_eq_dec : EqDecision jsmntype.
Proof. solve_decision. Defined.

Definition JSMN_ERROR_NOMEM : Z := -1.
Definition JSMN_ERROR_INVAL : Z := -2.
Definition JSMN_ERROR_PART : Z := -3.

Record jsmntok := Tok { t_type : jsmntype; t_start : Z; t_end : Z; t_size : Z }.

(** struct jsmn_parser and the [tokens] array, [None] for NULL. *)
Record jsmn := Jsmn { j_pos : nat; j_toknext : nat; j_toksuper : Z; j_toks : option (list jsmntok) }.
Definition eta_jsmn (r : jsmn) : jsmn := Jsmn (j_pos r) (j_toknext r) (j_toksuper r) (j_toks r).
#[global] Instance upd_j_pos : Upd j_pos := ltac:(mk_upd eta_jsmn j_pos).
#[global] Instance upd_j_toknext : Upd j_toknext := ltac:(mk_upd eta_jsmn j_toknext).
#[global] Instance upd_j_toksuper : Upd j_toksuper := ltac:(mk_upd eta_jsmn j_toksuper).
#[global] Instance upd_j_toks : Upd j_toks := ltac:(mk_upd eta_jsmn j_toks).

Abbreviation J := (M jsmn).

Definition jsmn_init (toks : option (list jsmntok)) : jsmn := Jsmn 0 0 (-1) toks.

Definition get_tok (i : nat) : J jsmntok :=
  s <- get; ts <- deref "tokens" (j_toks s); deref "tokens[i]" (ts !! i).
Definition mod_tok (i : nat) (f : jsmntok → jsmntok) : J unit :=
  t <- get_tok i; modify (λ s, s <| j_toks ::= fmap (M := option) <[i := f t]> |>).
Definition set_pos (p : nat) : J unit := modify (λ s, s <| j_pos := p |>).

Definition has_tokens : J bool := gets (λ s, match j_toks s with Some _ => true | None => false end).

(** [token->start != -1 && token->end == -1] *)
Definition is_open (t : jsmntok) : bool := negb (t_start t =? -1) && (t_end t =? -1).

Section jsmn.
  Context (js : list Z) (len num_tokens : nat).

Definition char_at (p : nat) : J Z := deref "js" (js !! p).

Definition jsmn_alloc_token : J (option nat) :=
  s <- get;
  if Nat.leb num_tokens (j_toknext s) then ret None else
  let i := j_toknext s in
  modify (λ s, s <| j_toknext := S i |>);;
  mod_tok i (λ t, Tok (t_type t) (-1) (-1) 0);;
  ret (Some i).

Definition jsmn_fill_token (i : nat) (type : jsmntype) (start tend : Z) : J unit :=
  mod_tok i (λ _, Tok type start tend 0).

(** The characters that end a primitive. *)
Definition ends_primitive (c : Z) : bool :=
  (c =? 58) || (c =? 9) || (c =? 13) || (c =? 10) || (c =? 32) || (c =? 44) || (c =? 93) || (c =? 125).

(** The loop of jsmn_parse_primitive: [true] at [found] or the end of the text,
    [false] for a character that is not allowed. *)
Fixpoint primitive_loop (n : nat) : J bool :=
  match n with
  | O => λ _, Fuel
  | S n =>
      p <- gets j_pos;
      if negb (Nat.ltb p len) then ret true else
      c <- char_at p;
      if c =? 0 then ret true else
      if ends_primitive c then ret true else
      if (c <? 32) || (127 <=? c) then ret false else
      set_pos (S p);; primitive_loop n
  end.

Definition jsmn_parse_primitive : J Z :=
  start <- gets j_pos;
  ok <- primitive_loop (S len);
  if negb ok then set_pos start;; ret JSMN_ERROR_INVAL else
  ht <- has_tokens;
  if negb ht then modify (λ s, s <| j_pos ::= pred |>);; ret 0 else
  r <- jsmn_alloc_token;
  match r with
  | None => set_pos start;; ret JSMN_ERROR_NOMEM
  | Some i =>
      p <- gets j_pos;
      jsmn_fill_token i JSMN_PRIMITIVE (Z.of_nat start) (Z.of_nat p);;
      modify (λ s, s <| j_pos ::= pred |>);;
      ret 0
  end.

Definition is_hex (c : Z) : bool :=
  ((48 <=? c) && (c <=? 57)) || ((65 <=? c) && (c <=? 70)) || ((97 <=? c) && (c <=? 102)).

(** The loop over the digits of an escape, [k] of them to go; [false] for a character
    that is not a digit. *)
Fixpoint hex_loop (k : nat) : J bool :=
  match k with
  | O => ret true
  | S k =>
      p <- gets j_pos;
      if negb (Nat.ltb p len) then ret true else
      c <- char_at p;
      if c =? 0 then ret true else
      if is_hex c then set_pos (S p);; hex_loop k else ret false
  end.

Definition simple_escape (c : Z) : bool :=
  (c =? 34) || (c =? 47) || (c =? 92) || (c =? 98) || (c =? 102) || (c =? 114) || (c =? 110) || (c =? 116).

(** The loop of jsmn_parse_string. *)
Fixpoint string_loop (n : nat) (start : nat) : J Z :=
  match n with
  | O => λ _, Fuel
  | S n =>
      p <- gets j_pos;
      if negb (Nat.ltb p len) then set_pos start;; ret JSMN_ERROR_PART else
      c <- char_at p;
      if c =? 0 then set_pos start;; ret JSMN_ERROR_PART else
      if c =? 34 then
        ht <- has_tokens;
        if negb ht then ret 0 else
        r <- jsmn_alloc_token;
        match r with
        | None => set_pos start;; ret JSMN_ERROR_NOMEM
        | Some i => jsmn_fill_token i JSMN_STRING (Z.of_nat start + 1) (Z.of_nat p);; ret 0
        end
      else
      if (c =? 92) && Nat.ltb (p + 1) len then
        set_pos (S p);;
        e <- char_at (S p);
        if simple_escape e then set_pos (S (S p));; string_loop n start else
        if e =? 117 then
          set_pos (S (S p));;
          ok <- hex_loop 4;
          if negb ok then set_pos start;; ret JSMN_ERROR_INVAL else
          (* pos--, then the pos++ of the loop *)
          string_loop n start
        else set_pos start;; ret JSMN_ERROR_INVAL
      else set_pos (S p);; string_loop n start
  end.

Definition jsmn_parse_string : J Z :=
  start <- gets j_pos;
  set_pos (S start);;
  string_loop (S len) start.

(** [for (i = k - 1; i >= 0; i--)] to the first open token. *)
Fixpoint find_open (k : nat) : J (option nat) :=
  match k with
  | O => ret None
  | S k => t <- get_tok k; if is_open t then ret (Some k) else find_open k
  end.

(** The same loop as written for a comma. *)
Fixpoint find_container (k : nat) : J (option nat) :=
  match k with
  | O => ret None
  | S k =>
      t <- get_tok k;
      if bool_decide (t_type t = JSMN_ARRAY ∨ t_type t = JSMN_OBJECT) && is_open t then ret (Some k)
      else find_container k
  end.

(** [tokens[parser->toksuper].size++] if there is a superior token. *)
Definition count_child : J unit :=
  s <- get;
  ht <- has_tokens;
  when (negb (j_toksuper s =? -1) && ht)
    (mod_tok (Z.to_nat (j_toksuper s)) (λ t, Tok (t_type t) (t_start t) (t_end t) (t_size t + 1))).

(** The body of the loop of jsmn_parse: what is added to [count], or the value
    returned. *)
Definition open_bracket (c : Z) : J (Z + Z) :=
  ht <- has_tokens;
  if negb ht then ret (inl 1) else
  r <- jsmn_alloc_token;
  match r with
  | None => ret (inr JSMN_ERROR_NOMEM)
  | Some i =>
      count_child;;
      p <- gets j_pos;
      mod_tok i (λ t, Tok (if c =? 123 then JSMN_OBJECT else JSMN_ARRAY) (Z.of_nat p) (t_end t) (t_size t));;
      modify (λ s, s <| j_toksuper := Z.of_nat (j_toknext s) - 1 |>);;
      ret (inl 1)
  end.

Definition close_bracket (c : Z) : J (Z + Z) :=
  ht <- has_tokens;
  if negb ht then ret (inl 0) else
  let type := if c =? 125 then JSMN_OBJECT else JSMN_ARRAY in
  s <- get;
  r <- find_open (j_toknext s);
  match r with
  | None => ret (inr JSMN_ERROR_INVAL)
  | Some i =>
      t <- get_tok i;
      if bool_decide (t_type t ≠ type) then ret (inr JSMN_ERROR_INVAL) else
      modify (λ s, s <| j_toksuper := -1 |>);;
      mod_tok i (λ t, Tok (t_type t) (t_start t) (Z.of_nat (j_pos s) + 1) (t_size t));;
      r <- find_open (S i);
      match r with
      | None => ret (inl 0)
      | Some k => modify (λ s, s <| j_toksuper := Z.of_nat k |>);; ret (inl 0)
      end
  end.

Definition comma : J (Z + Z) :=
  s <- get;
  ht <- has_tokens;
  if negb ht || (j_toksuper s =? -1) then ret (inl 0) else
  t <- get_tok (Z.to_nat (j_toksuper s));
  if bool_decide (t_type t = JSMN_ARRAY ∨ t_type t = JSMN_OBJECT) then ret (inl 0) else
  r <- find_container (j_toknext s);
  match r with
  | None => ret (inl 0)
  | Some k => modify (λ s, s <| j_toksuper := Z.of_nat k |>);; ret (inl 0)
  end.

Definition jsmn_char (c : Z) : J (Z + Z) :=
  if (c =? 123) || (c =? 91) then open_bracket c else
  if (c =? 125) || (c =? 93) then close_bracket c else
  if c =? 34 then
    r <- jsmn_parse_string;
    if r <? 0 then ret (inr r) else count_child;; ret (inl 1)
  else if (c =? 9) || (c =? 13) || (c =? 10) || (c =? 32) then ret (inl 0)
  else if c =? 58 then
    modify (λ s, s <| j_toksuper := Z.of_nat (j_toknext s) - 1 |>);; ret (inl 0)
  else if c =? 44 then comma
  else
    r <- jsmn_parse_primitive;
    if r <? 0 then ret (inr r) else count_child;; ret (inl 1).

Fixpoint parse_loop (n : nat) (count : Z) : J Z :=
  match n with
  | O => λ _, Fuel
  | S n =>
      p <- gets j_pos;
      let finish :=
        s <- get;
        ht <- has_tokens;
        if negb ht then ret count else
        r <- find_open (j_toknext s);
        match r with Some _ => ret JSMN_ERROR_PART | None => ret count end in
      if negb (Nat.ltb p len) then finish else
      c <- char_at p;
      if c =? 0 then finish else
      r <- jsmn_char c;
      match r with
      | inr r => ret r
      | inl d => modify (λ s, s <| j_pos ::= S |>);; parse_loop n (count + d)
      end
  end.

Definition jsmn_parse : J Z :=
  s <- get; parse_loop (S len) (Z.of_nat (j_toknext s)).
End jsmn.
