(* ===== verification/JsmnThm.v ===== *)
(** * The tokenizer stays in bounds (jsmn.h)

    jsmn_parse ends on every text, accesses neither the text nor the token array out of
    range, and gives only tokens that delimit a piece of the text. *)
From S2P Require Import Prelude Jsmn.

(** A token of a text of [len] characters: an open object or array, or a range. *)
Definition tok_ok (len : nat) (t : jsmntok) : Prop :=
  0 ≤ t_start t < Z.of_nat len ∧
  ((t_end t = -1 ∧ (t_type t = JSMN_OBJECT ∨ t_type t = JSMN_ARRAY)) ∨ t_start t ≤ t_end t ≤ Z.of_nat len).

Record jsmn_ok (len num : nat) (s : jsmn) (ts : list jsmntok) : Prop := {
  jo_toks : j_toks s = Some ts;
  jo_num : (j_toknext s ≤ num)%nat ∧ (num ≤ length ts)%nat;
  jo_super : -1 ≤ j_toksuper s < Z.of_nat (j_toknext s);
  jo_tok : ∀ i t, (i < j_toknext s)%nat → ts !! i = Some t → tok_ok len t;
}.

Lemma get_tok_run i t s ts : j_toks s = Some ts → ts !! i = Some t → get_tok i s = Ok t s.
Proof. intros Hs Ht. unfold get_tok. step. rewrite Hs. step. by rewrite Ht. Qed.

Lemma mod_tok_run i t f s ts :
  j_toks s = Some ts → ts !! i = Some t → mod_tok i f s = Ok tt (s <| j_toks := Some (<[i := f t]> ts) |>).
Proof.
  intros Hs Ht. unfold mod_tok. run (get_tok_run i t s ts); [|done|done]. unfold modify. f_equal.
  destruct s as [p n u o]. simpl in Hs. by subst o.
Qed.

Lemma has_tokens_run s ts : j_toks s = Some ts → has_tokens s = Ok true s.
Proof. intros Hs. unfold has_tokens, gets. by rewrite Hs. Qed.

Section ok.
  Context (js : list Z) (len num : nat).

Lemma char_at_run p s : (len ≤ length js)%nat → (p < len)%nat → ∃ c, js !! p = Some c ∧ char_at js p s = Ok c s.
Proof using.
  intros Hlen Hp. destruct (lookup_lt_is_Some_2 js p) as [c Hc]; [lia|]. exists c. unfold char_at. by rewrite Hc.
Qed.

Lemma jsmn_ok_pos s ts p : jsmn_ok len num s ts → jsmn_ok len num (s <| j_pos := p |>) ts.
Proof using. intros [? ? ? ?]. by split. Qed.

(** Taking a token. *)
Lemma alloc_token_run s ts :
  jsmn_ok len num s ts →
  (jsmn_alloc_token num s = Ok None s ∧ j_toknext s = num) ∨
  (∃ t, (j_toknext s < num)%nat ∧ ts !! j_toknext s = Some t ∧
    jsmn_alloc_token num s = Ok (Some (j_toknext s))
      (s <| j_toknext ::= S |> <| j_toks := Some (<[j_toknext s := Tok (t_type t) (-1) (-1) 0]> ts) |>)).
Proof using.
  intros [Hts [Hn1 Hn2] _ _]. unfold jsmn_alloc_token. destruct (decide (num ≤ j_toknext s)%nat).
  - left. step. rewrite leb_correct by done. split; [done|lia].
  - right. destruct (lookup_lt_is_Some_2 ts (j_toknext s)) as [t Ht]; [lia|]. exists t. split_and!; [lia|done|].
    step. rewrite leb_correct_conv by lia. step. run (mod_tok_run (j_toknext s) t); [|done|done]. done.
Qed.

(** A new token with a range keeps the invariant. *)
Lemma jsmn_ok_new s ts t :
  jsmn_ok len num s ts → (j_toknext s < num)%nat → tok_ok len t →
  jsmn_ok len num (s <| j_toknext ::= S |> <| j_toks := Some (<[j_toknext s := t]> ts) |>) (<[j_toknext s := t]> ts).
Proof using.
  intros [Hts [Hn1 Hn2] Hsup Htok] Hlt Ht. split; simpl.
  - done.
  - rewrite length_insert. lia.
  - lia.
  - intros i t' Hi Ht'. destruct (decide (i = j_toknext s)) as [->|].
    + rewrite list_lookup_insert_eq in Ht' by lia. by injection Ht' as <-.
    + rewrite list_lookup_insert_ne in Ht' by done. apply (Htok i); [lia|done].
Qed.

Lemma fill_new s ts t ty a b :
  jsmn_ok len num s ts → (j_toknext s < num)%nat → ts !! j_toknext s = Some t →
  let s1 := s <| j_toknext ::= S |> <| j_toks := Some (<[j_toknext s := Tok (t_type t) (-1) (-1) 0]> ts) |> in
  jsmn_fill_token (j_toknext s) ty a b s1 =
    Ok tt (s <| j_toknext ::= S |> <| j_toks := Some (<[j_toknext s := Tok ty a b 0]> ts) |>).
Proof using.
  intros [_ [_ Hn] _ _] Hlt Ht s1. unfold jsmn_fill_token.
  rewrite (mod_tok_run (j_toknext s) (Tok (t_type t) (-1) (-1) 0) _ s1 (<[j_toknext s := Tok (t_type t) (-1) (-1) 0]> ts));
    [|done|apply list_lookup_insert_eq; lia].
  unfold s1. by rewrite list_insert_insert_eq.
Qed.

(** The tokens start before the position. *)
Definition starts (s : jsmn) (ts : list jsmntok) : Prop :=
  ∀ i t, (i < j_toknext s)%nat → ts !! i = Some t → t_start t ≤ Z.of_nat (j_pos s).

Lemma starts_new s ts t p :
  (j_toknext s < length ts)%nat → (j_pos s ≤ p)%nat → t_start t ≤ Z.of_nat p → starts s ts →
  starts (s <| j_toknext ::= S |> <| j_toks := Some (<[j_toknext s := t]> ts) |> <| j_pos := p |>) (<[j_toknext s := t]> ts).
Proof using.
  intros Hl Hp Ht Hst i t' Hi Hi'. simpl in *. destruct (decide (i = j_toknext s)) as [->|].
  - rewrite list_lookup_insert_eq in Hi' by done. by injection Hi' as <-.
  - rewrite list_lookup_insert_ne in Hi' by done. specialize (Hst i t' ltac:(lia) Hi'). lia.
Qed.

(** The result of reading one string or primitive from [start]: an error that leaves
    the tokens alone, or a new token, with the position on its last character. *)
Definition read_token (start : nat) (s : jsmn) (ts : list jsmntok) (r : Z) (s' : jsmn) (ts' : list jsmntok) : Prop :=
  jsmn_ok len num s' ts' ∧ j_toksuper s' = j_toksuper s ∧
  ((-3 ≤ r < 0) ∨ (r = 0 ∧ (start ≤ j_pos s' < len)%nat ∧ j_toknext s' = S (j_toknext s) ∧ (starts s ts → starts s' ts'))).

Lemma hex_loop_run k s :
  (len ≤ length js)%nat → (j_pos s ≤ len)%nat →
  ∃ ok p, hex_loop js len k s = Ok ok (s <| j_pos := p |>) ∧ (j_pos s ≤ p ≤ len)%nat.
Proof using.
  intros Hlen. revert s. induction k as [|k IH]; intros s Hp; cbn [hex_loop].
  - exists true, (j_pos s). split; [by destruct s|lia].
  - step. destruct (decide (j_pos s < len)%nat) as [Hlt|Hge].
    + rewrite (proj2 (Nat.ltb_lt _ _)) by done. cbn [negb]. destruct (char_at_run (j_pos s) s) as (c & Hc & Hrun); [done..|].
      rewrite (bind_ok _ _ _ _ _ Hrun). destruct (c =? 0); [exists true, (j_pos s); split; [by destruct s|lia]|].
      destruct (is_hex c); [|exists false, (j_pos s); split; [by destruct s|lia]]. step.
      destruct (IH (s <| j_pos := S (j_pos s) |>)) as (ok & p & Hr & Hp'); [simpl; lia|].
      exists ok, p. rewrite Hr. simpl in Hp'. split; [done|lia].
    + rewrite (proj2 (Nat.ltb_ge _ _)) by lia. cbn [negb]. exists true, (j_pos s). split; [by destruct s|lia].
Qed.

Lemma string_loop_run n start s ts :
  (len ≤ length js)%nat → jsmn_ok len num s ts → (start < j_pos s ≤ len)%nat → (len < n + j_pos s)%nat →
  ∃ r s' ts', string_loop js len num n start s = Ok r s' ∧ read_token start s ts r s' ts'.
Proof using.
  intros Hlen. revert s. induction n as [|n IH]; intros s Hok Hp Hn; [lia|]. cbn [string_loop]. step.
  assert (∀ r, -3 ≤ r < 0 → ∃ r' s' ts', (set_pos start;; ret r) s = Ok r' s' ∧ read_token start s ts r' s' ts') as Herr.
  { intros r Hr. exists r, (s <| j_pos := start |>), ts. split; [done|]. split_and!; [by apply jsmn_ok_pos|done|by left]. }
  assert (∀ p, (j_pos s < p ≤ len)%nat → ∃ r s' ts', string_loop js len num n start (s <| j_pos := p |>) = Ok r s' ∧
    read_token start s ts r s' ts') as Hgo.
  { intros p Hp'. destruct (IH (s <| j_pos := p |>)) as (r & s' & ts' & Hr & Hres); [by apply jsmn_ok_pos|simpl; lia|simpl; lia|].
    exists r, s', ts'. split; [done|]. destruct Hres as (H1 & H2 & [H3|(H3 & H4 & H5 & H6)]); split_and!; try done; [by left|].
    right. split_and!; [done|lia|lia|done|]. intros Hst. apply H6. intros i t Hi Ht. specialize (Hst i t Hi Ht). simpl. lia. }
  destruct (decide (j_pos s < len)%nat) as [Hlt|Hge].
  2: { rewrite (proj2 (Nat.ltb_ge _ _)) by lia. cbn [negb]. by apply Herr. }
  rewrite (proj2 (Nat.ltb_lt _ _)) by done. cbn [negb].
  destruct (char_at_run (j_pos s) s) as (c & Hc & Hrun); [done..|]. rewrite (bind_ok _ _ _ _ _ Hrun).
  destruct (c =? 0); [by apply Herr|]. destruct (c =? 34).
  - run has_tokens_run; [|apply Hok]. cbn [negb]. destruct (alloc_token_run s ts Hok) as [[Hr _]|(t & Hlt' & Ht & Hr)].
    + rewrite (bind_ok _ _ _ _ _ Hr). by apply Herr.
    + rewrite (bind_ok _ _ _ _ _ Hr). rewrite (bind_ok _ _ _ _ _ (fill_new s ts t _ _ _ Hok Hlt' Ht)).
      eexists 0, _, _. split; [reflexivity|]. split_and!; [|done|right; split_and!; [done|simpl; lia|simpl; lia|done|]].
      * apply jsmn_ok_new; [done|done|]. split; simpl; lia.
      * intros Hst. apply (starts_new s ts _ (j_pos s)); [destruct Hok as [_ [? ?] _ _]; lia|done|simpl; lia|done].
  - destruct ((c =? 92) && _) eqn:E; [|step; apply Hgo; lia].
    apply andb_true_iff in E as [_ Hl%Nat.ltb_lt]. step.
    destruct (char_at_run (S (j_pos s)) (s <| j_pos := S (j_pos s) |>)) as (e & He & Hrun'); [done|lia|].
    rewrite (bind_ok _ _ _ _ _ Hrun'). destruct (simple_escape e); [step; apply Hgo; lia|].
    destruct (e =? 117); [|by apply (Herr JSMN_ERROR_INVAL)]. step.
    destruct (hex_loop_run 4 (s <| j_pos := S (S (j_pos s)) |>)) as (ok & p & Hr & Hp'); [done|simpl; lia|].
    simpl in Hp'. erewrite bind_ok; [|exact Hr]. destruct ok; cbn [negb]; [apply Hgo; lia|by apply (Herr JSMN_ERROR_INVAL)].
Qed.

Lemma primitive_loop_run n s :
  (len ≤ length js)%nat → (j_pos s ≤ len)%nat → (len < n + j_pos s)%nat →
  ∃ ok p, primitive_loop js len n s = Ok ok (s <| j_pos := p |>) ∧ (j_pos s ≤ p ≤ len)%nat ∧
    (ok = true → (j_pos s < len)%nat → ∀ c, js !! j_pos s = Some c → c ≠ 0 → ends_primitive c = false → (j_pos s < p)%nat).
Proof using.
  intros Hlen. revert s. induction n as [|n IH]; intros s Hp Hn; [lia|]. cbn [primitive_loop]. step.
  destruct (decide (j_pos s < len)%nat) as [Hlt|Hge].
  2: { rewrite (proj2 (Nat.ltb_ge _ _)) by lia. exists true, (j_pos s). split; [by destruct s|]. split; [lia|]. intros. lia. }
  rewrite (proj2 (Nat.ltb_lt _ _)) by done. cbn [negb].
  destruct (char_at_run (j_pos s) s) as (c & Hc & Hrun); [done..|]. rewrite (bind_ok _ _ _ _ _ Hrun).
  destruct (Z.eqb_spec c 0) as [->|Hz].
  { exists true, (j_pos s). split; [by destruct s|]. split; [lia|]. intros _ _ c' Hc' ? _. congruence. }
  destruct (ends_primitive c) eqn:Ee.
  { exists true, (j_pos s). split; [by destruct s|]. split; [lia|]. intros _ _ c' Hc' _ ?. congruence. }
  destruct (_ || _).
  { exists false, (j_pos s). split; [by destruct s|]. split; [lia|done]. }
  step. destruct (IH (s <| j_pos := S (j_pos s) |>)) as (ok & p & Hr & Hp' & _); [simpl; lia|simpl; lia|].
  exists ok, p. simpl in Hp'. split; [exact Hr|]. split; [lia|]. intros. lia.
Qed.

Lemma parse_primitive_run c s ts :
  (len ≤ length js)%nat → jsmn_ok len num s ts → (j_pos s < len)%nat →
  js !! j_pos s = Some c → c ≠ 0 → ends_primitive c = false →
  ∃ r s' ts', jsmn_parse_primitive js len num s = Ok r s' ∧ read_token (j_pos s) s ts r s' ts'.
Proof using.
  intros Hlen Hok Hp Hc Hz He. unfold jsmn_parse_primitive. step.
  destruct (primitive_loop_run (S len) s) as (ok & p & Hr & Hp' & Hgt); [done|lia|lia|].
  rewrite (bind_ok _ _ _ _ _ Hr). set (s1 := s <| j_pos := p |>).
  assert (jsmn_ok len num s1 ts) as Hok1 by (by apply jsmn_ok_pos).
  assert (∀ r, -3 ≤ r < 0 → ∃ r' s' ts', (set_pos (j_pos s);; ret r) s1 = Ok r' s' ∧ read_token (j_pos s) s ts r' s' ts') as Herr.
  { intros r Hr'. exists r, (s1 <| j_pos := j_pos s |>), ts. split; [done|]. split_and!; [by apply jsmn_ok_pos|done|by left]. }
  destruct ok; cbn [negb]; [|by apply (Herr JSMN_ERROR_INVAL)].
  specialize (Hgt eq_refl Hp c Hc Hz He). run has_tokens_run; [|apply Hok1]. cbn [negb].
  destruct (alloc_token_run s1 ts Hok1) as [[Ha _]|(t & Hlt' & Ht & Ha)].
  - rewrite (bind_ok _ _ _ _ _ Ha). by apply (Herr JSMN_ERROR_NOMEM).
  - rewrite (bind_ok _ _ _ _ _ Ha). step. rewrite (bind_ok _ _ _ _ _ (fill_new s1 ts t _ _ _ Hok1 Hlt' Ht)). step.
    eexists 0, _, _. split; [reflexivity|]. split_and!; [|done|right; split_and!; [done|simpl; lia|simpl; lia|done|]].
    + eapply (jsmn_ok_pos _ _ (pred p)). apply jsmn_ok_new; [done|done|]. split; simpl; lia.
    + intros Hst. apply (starts_new s ts _ (pred p)); [destruct Hok as [_ [? ?] _ _]; change (j_toknext s < num)%nat in Hlt'; lia|lia|simpl; lia|done].
Qed.

Lemma parse_string_run s ts :
  (len ≤ length js)%nat → jsmn_ok len num s ts → (j_pos s < len)%nat →
  ∃ r s' ts', jsmn_parse_string js len num s = Ok r s' ∧ read_token (j_pos s) s ts r s' ts'.
Proof using.
  intros Hlen Hok Hp. unfold jsmn_parse_string. step. step.
  destruct (string_loop_run (S len) (j_pos s) (s <| j_pos := S (j_pos s) |>) ts) as (r & s' & ts' & Hr & Hres);
    [done|by apply jsmn_ok_pos|simpl; lia|simpl; lia|]. exists r, s', ts'. split; [exact Hr|].
  destruct Hres as (H1 & H2 & [H3|(H3 & H4 & H5 & H6)]); split_and!; try done; [by left|].
  right. split_and!; [done|lia|lia|done|]. intros Hst. apply H6. intros i t Hi Ht. specialize (Hst i t Hi Ht). simpl. lia.
Qed.

(** The scans for an open token stay below [toknext]. *)
Lemma find_open_run k s ts :
  jsmn_ok len num s ts → (k ≤ j_toknext s)%nat →
  ∃ r, find_open k s = Ok r s ∧
    match r with
    | Some i => (i < k)%nat ∧ ∃ t, ts !! i = Some t ∧ is_open t = true
    | None => ∀ i t, (i < k)%nat → ts !! i = Some t → is_open t = false
    end.
Proof using.
  intros Hok. induction k as [|k IH]; intros Hk; cbn [find_open]; [exists None; split; [done|lia]|].
  destruct (lookup_lt_is_Some_2 ts k) as [t Ht]; [destruct Hok as [_ [? ?] _ _]; lia|].
  run (get_tok_run k t s ts); [|apply Hok|done]. destruct (is_open t) eqn:E.
  - exists (Some k). split; [done|]. split; [lia|eauto].
  - destruct IH as (r & Hr & Hres); [lia|]. exists r. split; [exact Hr|]. destruct r as [i|].
    + destruct Hres as [? ?]. split; [lia|done].
    + intros i t' Hi Ht'. destruct (decide (i = k)) as [->|]; [congruence|]. apply (Hres i); [lia|done].
Qed.

Lemma find_container_run k s ts :
  jsmn_ok len num s ts → (k ≤ j_toknext s)%nat →
  ∃ r, find_container k s = Ok r s ∧ match r with Some i => (i < k)%nat | None => True end.
Proof using.
  intros Hok. induction k as [|k IH]; intros Hk; cbn [find_container]; [by exists None|].
  destruct (lookup_lt_is_Some_2 ts k) as [t Ht]; [destruct Hok as [_ [? ?] _ _]; lia|].
  run (get_tok_run k t s ts); [|apply Hok|done]. destruct (_ && _).
  - exists (Some k). split; [done|lia].
  - destruct IH as (r & Hr & Hres); [lia|]. exists r. split; [exact Hr|]. destruct r; [lia|done].
Qed.

(** Changing a token without breaking its range. *)
Lemma jsmn_ok_mod s ts i t t' :
  jsmn_ok len num s ts → ts !! i = Some t → (tok_ok len t → tok_ok len t') →
  jsmn_ok len num (s <| j_toks := Some (<[i := t']> ts) |>) (<[i := t']> ts).
Proof using.
  intros [Hts [Hn1 Hn2] Hsup Htok] Hi Ht. split; simpl; [done|by rewrite length_insert|done|].
  intros j u Hj Hu. destruct (decide (i = j)) as [<-|].
  - rewrite list_lookup_insert_eq in Hu by (by eapply lookup_lt_Some). injection Hu as <-. apply Ht. by apply (Htok i).
  - rewrite list_lookup_insert_ne in Hu by done. by apply (Htok j).
Qed.

Lemma jsmn_ok_super s ts u :
  jsmn_ok len num s ts → -1 ≤ u < Z.of_nat (j_toknext s) → jsmn_ok len num (s <| j_toksuper := u |>) ts.
Proof using. intros [? ? ? ?] ?. by split. Qed.

(** The token array after count_child. *)
Definition counted (u : Z) (ts : list jsmntok) : list jsmntok :=
  if u =? -1 then ts else alter (λ t, Tok (t_type t) (t_start t) (t_end t) (t_size t + 1)) (Z.to_nat u) ts.

Lemma count_child_run s ts :
  j_toks s = Some ts → -1 ≤ j_toksuper s < Z.of_nat (length ts) →
  count_child s = Ok tt (s <| j_toks := Some (counted (j_toksuper s) ts) |>).
Proof using.
  intros Hts Hsup. unfold count_child, counted. step. run has_tokens_run; [|done].
  destruct (Z.eqb_spec (j_toksuper s) (-1)) as [E|E]; cbn [negb andb when].
  - unfold ret. f_equal. destruct s. simpl in *. by subst.
  - destruct (lookup_lt_is_Some_2 ts (Z.to_nat (j_toksuper s))) as [t Ht]; [lia|].
    rewrite (mod_tok_run _ t _ s ts) by done. by rewrite (alter_insert _ _ _ t).
Qed.

Lemma length_counted u ts : length (counted u ts) = length ts.
Proof using. unfold counted. destruct (u =? -1); [done|apply length_alter]. Qed.

Lemma counted_tok u ts i t' :
  counted u ts !! i = Some t' → ∃ t, ts !! i = Some t ∧ t_type t' = t_type t ∧ t_start t' = t_start t ∧ t_end t' = t_end t.
Proof using.
  unfold counted. destruct (u =? -1); [naive_solver|]. rewrite list_lookup_alter.
  destruct (decide (Z.to_nat u = i)) as [<-|]; [|naive_solver]. intros (t & Ht & ->)%fmap_Some. eauto.
Qed.

Lemma tok_ok_same t t' :
  t_type t' = t_type t → t_start t' = t_start t → t_end t' = t_end t → tok_ok len t → tok_ok len t'.
Proof using. intros E1 E2 E3. unfold tok_ok. by rewrite E1, E2, E3. Qed.

Lemma jsmn_ok_counted s ts :
  jsmn_ok len num s ts →
  count_child s = Ok tt (s <| j_toks := Some (counted (j_toksuper s) ts) |>) ∧
  jsmn_ok len num (s <| j_toks := Some (counted (j_toksuper s) ts) |>) (counted (j_toksuper s) ts).
Proof using.
  intros [Hts [Hn1 Hn2] Hsup Htok]. split; [apply count_child_run; [done|lia]|].
  split; simpl; [done|rewrite length_counted; lia|done|].
  intros i t' Hi Ht'. apply counted_tok in Ht' as (t & Ht & E1 & E2 & E3). eapply tok_ok_same; eauto.
Qed.

Lemma open_bracket_run c s ts :
  jsmn_ok len num s ts → (j_pos s < len)%nat →
  ∃ r s' ts', open_bracket num c s = Ok r s' ∧ jsmn_ok len num s' ts' ∧ j_pos s' = j_pos s ∧ (starts s ts → starts s' ts') ∧
    match r with inl d => Z.of_nat (j_toknext s') = Z.of_nat (j_toknext s) + d | inr e => -3 ≤ e < 0 end.
Proof using.
  intros Hok Hp. unfold open_bracket. run has_tokens_run; [|apply Hok]. cbn [negb].
  pose proof Hok as [Hts [Hn1 Hn2] Hsup Htok].
  destruct (alloc_token_run s ts Hok) as [[Ha _]|(t & Hlt & Ht & Ha)]; rewrite (bind_ok _ _ _ _ _ Ha).
  { exists (inr JSMN_ERROR_NOMEM), s, ts. split_and!; done. }
  set (i := j_toknext s) in *. set (ts1 := <[i := Tok (t_type t) (-1) (-1) 0]> ts).
  set (s1 := s <| j_toknext ::= S |> <| j_toks := Some ts1 |>).
  assert (length ts1 = length ts) as Hl1 by apply length_insert.
  erewrite bind_ok; [|apply (count_child_run s1 ts1); [done|simpl; lia]]. set (ts2 := counted (j_toksuper s1) ts1).
  step. assert (ts2 !! i = Some (Tok (t_type t) (-1) (-1) 0)) as Hi.
  { unfold ts2, counted. simpl. destruct (Z.eqb_spec (j_toksuper s) (-1)); [by apply list_lookup_insert_eq; lia|].
    rewrite list_lookup_alter_ne by lia. apply list_lookup_insert_eq. lia. }
  run mod_tok_run; [|reflexivity|exact Hi]. step.
  eexists (inl 1), _, (<[i := Tok (if c =? 123 then JSMN_OBJECT else JSMN_ARRAY) (Z.of_nat (j_pos s)) (-1) 0]> ts2).
  split; [reflexivity|]. split_and!; [|done| |simpl; lia].
  2: { intros Hst j u Hj Hu. simpl in Hj |- *. destruct (decide (i = j)) as [<-|].
       - rewrite list_lookup_insert_eq in Hu by (by eapply lookup_lt_Some). by injection Hu as <-.
       - rewrite list_lookup_insert_ne in Hu by done. apply counted_tok in Hu as (u' & Hu & _ & -> & _).
         unfold ts1 in Hu. rewrite list_lookup_insert_ne in Hu by done. apply (Hst j); [lia|done]. }
  split; simpl.
  - reflexivity.
  - rewrite length_insert. unfold ts2. rewrite length_counted. lia.
  - lia.
  - intros j u Hj Hu. destruct (decide (i = j)) as [<-|].
    + rewrite list_lookup_insert_eq in Hu by (by eapply lookup_lt_Some). injection Hu as <-.
      split; simpl; [lia|]. left. split; [done|]. by destruct (c =? 123); [left|right].
    + rewrite list_lookup_insert_ne in Hu by done. apply counted_tok in Hu as (u' & Hu & E1 & E2 & E3).
      unfold ts1 in Hu. rewrite list_lookup_insert_ne in Hu by done. eapply tok_ok_same; [done..|]. apply (Htok j); [lia|done].
Qed.

Lemma close_bracket_run c s ts :
  jsmn_ok len num s ts → (j_pos s < len)%nat → starts s ts →
  ∃ r s' ts', close_bracket c s = Ok r s' ∧ jsmn_ok len num s' ts' ∧ j_pos s' = j_pos s ∧ starts s' ts' ∧
    match r with inl d => Z.of_nat (j_toknext s') = Z.of_nat (j_toknext s) + d | inr e => -3 ≤ e < 0 end.
Proof using.
  intros Hok Hp Hst. unfold close_bracket. run has_tokens_run; [|apply Hok]. cbn [negb]. step.
  destruct (find_open_run (j_toknext s) s ts Hok) as (r & Hr & Hres); [done|]. rewrite (bind_ok _ _ _ _ _ Hr).
  destruct r as [i|]; [|exists (inr JSMN_ERROR_INVAL), s, ts; done]. destruct Hres as [Hi (t & Ht & _)].
  run (get_tok_run i t s ts); [|apply Hok|done].
  case_bool_decide; [exists (inr JSMN_ERROR_INVAL), s, ts; done|]. step.
  run (mod_tok_run i t); [|apply Hok|exact Ht].
  set (t' := Tok (t_type t) (t_start t) (Z.of_nat (j_pos s) + 1) (t_size t)).
  set (s1 := s <| j_toksuper := -1 |> <| j_toks := Some (<[i := t']> ts) |>).
  assert (jsmn_ok len num s1 (<[i := t']> ts)) as Hok1.
  { eapply (jsmn_ok_mod (s <| j_toksuper := -1 |>) ts i t); [apply jsmn_ok_super; [done|lia]|done|].
    intros [? _]. specialize (Hst i t Hi Ht). split; simpl; [done|]. right. lia. }
  assert (starts s1 (<[i := t']> ts)) as Hst1.
  { intros j u Hj Hu. simpl in Hj |- *. destruct (decide (i = j)) as [<-|].
    - rewrite list_lookup_insert_eq in Hu by (by eapply lookup_lt_Some). injection Hu as <-. by apply (Hst i t).
    - rewrite list_lookup_insert_ne in Hu by done. by apply (Hst j). }
  destruct (find_open_run (S i) s1 _ Hok1) as (r & Hr' & Hres'); [simpl; lia|]. erewrite bind_ok; [|exact Hr'].
  destruct r as [k|]; [step|]; eexists (inl 0), _, _; (split; [reflexivity|]); split_and!; try done; [|simpl; lia..].
  apply jsmn_ok_super; [done|]. simpl. lia.
Qed.

Lemma comma_run s ts :
  jsmn_ok len num s ts →
  ∃ s', comma s = Ok (inl 0) s' ∧ jsmn_ok len num s' ts ∧ j_pos s' = j_pos s ∧ j_toknext s' = j_toknext s ∧
    (starts s ts → starts s' ts).
Proof using.
  intros Hok. unfold comma. step. run has_tokens_run; [|apply Hok]. cbn [negb orb].
  destruct (Z.eqb_spec (j_toksuper s) (-1)); [by exists s|]. pose proof Hok as [Hts [Hn1 Hn2] Hsup Htok].
  destruct (lookup_lt_is_Some_2 ts (Z.to_nat (j_toksuper s))) as [t Ht]; [lia|].
  run (get_tok_run _ t s ts); [|done|done]. case_bool_decide; [by exists s|].
  destruct (find_container_run (j_toknext s) s ts Hok) as (r & Hr & Hres); [done|]. rewrite (bind_ok _ _ _ _ _ Hr).
  destruct r as [k|]; [|by exists s]. step. eexists. split; [reflexivity|]. split_and!; [|done|done|done].
  apply jsmn_ok_super; [done|lia].
Qed.

(** One round of jsmn_parse. *)
Definition round_ok (s : jsmn) (r : Z + Z) (s' : jsmn) (ts' : list jsmntok) : Prop :=
  jsmn_ok len num s' ts' ∧
  match r with
  | inl d => (j_pos s ≤ j_pos s' < len)%nat ∧ starts s' ts' ∧ Z.of_nat (j_toknext s') = Z.of_nat (j_toknext s) + d
  | inr e => -3 ≤ e < 0
  end.

(** A string or primitive, counted as a child of the superior token. *)
Lemma token_then_count (m : J Z) s ts :
  (j_pos s < len)%nat → starts s ts →
  (∃ r s' ts', m s = Ok r s' ∧ read_token (j_pos s) s ts r s' ts') →
  ∃ r s' ts', (r <- m; if r <? 0 then ret (inr r) else count_child;; ret (inl 1)) s = Ok r s' ∧ round_ok s r s' ts'.
Proof using.
  intros Hp Hst (r & s1 & ts1 & Hm & Hok1 & Hsup & Hres). rewrite (bind_ok _ _ _ _ _ Hm).
  destruct Hres as [He|(-> & Hp1 & Hn1 & Hst1)].
  - rewrite (proj2 (Z.ltb_lt _ _)) by lia. by exists (inr r), s1, ts1.
  - change (0 <? 0) with false. cbv iota. destruct (jsmn_ok_counted s1 ts1 Hok1) as [Hc Hok2].
    rewrite (bind_ok _ _ _ _ _ Hc). eexists (inl 1), _, _. split; [reflexivity|]. split; [done|].
    split_and!; [simpl; lia|simpl; lia| |simpl; lia].
    intros i t Hi Ht. simpl in *. apply counted_tok in Ht as (t' & Ht & _ & -> & _). by apply (Hst1 Hst i).
Qed.

Lemma jsmn_char_run c s ts :
  (len ≤ length js)%nat → jsmn_ok len num s ts → starts s ts → (j_pos s < len)%nat → js !! j_pos s = Some c → c ≠ 0 →
  ∃ r s' ts', jsmn_char js len num c s = Ok r s' ∧ round_ok s r s' ts'.
Proof using.
  intros Hlen Hok Hst Hp Hc Hz. unfold jsmn_char. destruct ((c =? 123) || (c =? 91)) eqn:E1.
  { destruct (open_bracket_run c s ts Hok Hp) as (r & s' & ts' & Hr & Hok' & Hp' & Hst' & Hres).
    exists r, s', ts'. split; [done|]. split; [done|]. destruct r; [split_and!; [lia|lia|auto|done]|done]. }
  destruct ((c =? 125) || (c =? 93)) eqn:E2.
  { destruct (close_bracket_run c s ts Hok Hp Hst) as (r & s' & ts' & Hr & Hok' & Hp' & Hst' & Hres).
    exists r, s', ts'. split; [done|]. split; [done|]. destruct r; [split_and!; [lia|lia|done|done]|done]. }
  destruct (c =? 34) eqn:E3.
  { apply (token_then_count (jsmn_parse_string js len num) s ts); [done|done|]. by apply parse_string_run. }
  destruct ((c =? 9) || (c =? 13) || (c =? 10) || (c =? 32)) eqn:E4.
  { exists (inl 0), s, ts. split; [done|]. split; [done|]. split_and!; [lia|lia|done|lia]. }
  destruct (c =? 58) eqn:E5.
  { step. eexists (inl 0), _, ts. split; [reflexivity|]. split; [apply jsmn_ok_super; [done|lia]|].
    split_and!; [simpl; lia|simpl; lia|exact Hst|simpl; lia]. }
  destruct (c =? 44) eqn:E6.
  { destruct (comma_run s ts Hok) as (s' & Hr & Hok' & Hp' & Hn' & Hst').
    exists (inl 0), s', ts. split; [done|]. split; [done|]. split_and!; [lia|lia|auto|lia]. }
  apply (token_then_count (jsmn_parse_primitive js len num) s ts); [done|done|].
  apply (parse_primitive_run c); [done|done|done|done|done|]. unfold ends_primitive.
  apply orb_false_iff in E2 as [-> ->]. rewrite E5, E6. apply orb_false_iff in E4 as [E4 ->].
  apply orb_false_iff in E4 as [E4 ->]. by apply orb_false_iff in E4 as [-> ->].
Qed.

Lemma parse_loop_run n count s ts :
  (len ≤ length js)%nat → jsmn_ok len num s ts → starts s ts → (j_pos s ≤ len)%nat → (len < n + j_pos s)%nat →
  count = Z.of_nat (j_toknext s) →
  ∃ r s' ts', parse_loop js len num n count s = Ok r s' ∧ jsmn_ok len num s' ts' ∧
    (-3 ≤ r < 0 ∨ (r = Z.of_nat (j_toknext s') ∧ ∀ i t, (i < j_toknext s')%nat → ts' !! i = Some t → is_open t = false)).
Proof using.
  intros Hlen. revert s ts count. induction n as [|n IH]; intros s ts count Hok Hst Hp Hn Hcnt; [lia|].
  cbn [parse_loop]. step. cbv zeta. set (finish := (s <- get; _) : J Z).
  assert (∃ r s' ts', finish s = Ok r s' ∧ jsmn_ok len num s' ts' ∧
    (-3 ≤ r < 0 ∨ (r = Z.of_nat (j_toknext s') ∧ ∀ i t, (i < j_toknext s')%nat → ts' !! i = Some t → is_open t = false))) as Hfin.
  { unfold finish. step. run has_tokens_run; [|apply Hok]. cbn [negb].
    destruct (find_open_run (j_toknext s) s ts Hok) as (r & Hr & Hres); [done|]. rewrite (bind_ok _ _ _ _ _ Hr).
    destruct r as [i|]; [exists JSMN_ERROR_PART, s, ts; split_and!; [done|done|by left]|].
    exists count, s, ts. split_and!; [done|done|by right]. }
  destruct (decide (j_pos s < len)%nat) as [Hlt|Hge].
  2: { rewrite (proj2 (Nat.ltb_ge _ _)) by lia. exact Hfin. }
  rewrite (proj2 (Nat.ltb_lt _ _)) by done. cbn [negb].
  destruct (char_at_run (j_pos s) s) as (c & Hc & Hrun); [done..|]. rewrite (bind_ok _ _ _ _ _ Hrun).
  destruct (Z.eqb_spec c 0) as [|Hz]; [exact Hfin|].
  destruct (jsmn_char_run c s ts) as (r & s1 & ts1 & Hr & Hok1 & Hres); [done..|]. rewrite (bind_ok _ _ _ _ _ Hr).
  destruct r as [d|e]; [|by exists e, s1, ts1; split_and!; [done|done|left]]. destruct Hres as (Hp1 & Hst1 & Hn1). step.
  destruct (IH (s1 <| j_pos ::= S |>) ts1 (count + d)) as (r & s' & ts' & Hr' & Hres');
    [by apply (jsmn_ok_pos _ _ (S (j_pos s1)))| |simpl; lia|simpl; lia|simpl; lia|by exists r, s', ts'].
  intros i t Hi Ht. specialize (Hst1 i t Hi Ht). simpl. lia.
Qed.
End ok.

(** ** The tokenizer looks at the first [len] characters only *)
Definition agrees {A} (o o' : outcome jsmn A) : Prop := ∀ a s, o = Ok a s → o' = Ok a s.

Lemma agrees_refl {A} (o : outcome jsmn A) : agrees o o.
Proof. by intros a s. Qed.

Section same_text.
  Context (js js' : list Z) (len num : nat) (Hjs : ∀ p, (p < len)%nat → js !! p = js' !! p).

Lemma char_at_same p s : (p < len)%nat → agrees (char_at js p s) (char_at js' p s).
Proof using Hjs. intros Hp. unfold char_at. rewrite Hjs by done. apply agrees_refl. Qed.

Lemma bind_same {A B} (m m' : J A) (k k' : A → J B) s :
  agrees (m s) (m' s) → (∀ a s', agrees (k a s') (k' a s')) → agrees (bind m k s) (bind m' k' s).
Proof using. intros Hm Hk b s2 (a & s1 & H1 & H2)%bind_Ok_inv. rewrite (bind_ok _ _ _ _ _ (Hm _ _ H1)). by apply Hk. Qed.

Lemma primitive_loop_same n s : agrees (primitive_loop js len n s) (primitive_loop js' len n s).
Proof using Hjs.
  revert s. induction n as [|n IH]; intros s; [apply agrees_refl|]. cbn [primitive_loop]. do 2 step.
  destruct (Nat.ltb_spec (j_pos s) len) as [Hp|Hp]; cbn [negb]; [|apply agrees_refl]. apply bind_same; [by apply char_at_same|]. intros c s'.
  repeat (case_match; [apply agrees_refl|]). apply bind_same; [apply agrees_refl|]. intros _ s''. apply IH.
Qed.

Lemma hex_loop_same k s : agrees (hex_loop js len k s) (hex_loop js' len k s).
Proof using Hjs.
  revert s. induction k as [|k IH]; intros s; [apply agrees_refl|]. cbn [hex_loop]. do 2 step.
  destruct (Nat.ltb_spec (j_pos s) len) as [Hp|Hp]; cbn [negb]; [|apply agrees_refl]. apply bind_same; [by apply char_at_same|]. intros c s'.
  repeat case_match; try apply agrees_refl. apply bind_same; [apply agrees_refl|]. intros _ s''. apply IH.
Qed.

Lemma string_loop_same n start s : agrees (string_loop js len num n start s) (string_loop js' len num n start s).
Proof using Hjs.
  revert s. induction n as [|n IH]; intros s; [apply agrees_refl|]. cbn [string_loop]. do 2 step.
  destruct (Nat.ltb_spec (j_pos s) len) as [Hp|Hp]; cbn [negb]; [|apply agrees_refl]. apply bind_same; [by apply char_at_same|]. intros c s'.
  case_match; [apply agrees_refl|]. case_match; [apply agrees_refl|]. destruct ((c =? 92) && _) eqn:E.
  - apply andb_prop in E as [_ E%Nat.ltb_lt]. apply bind_same; [apply agrees_refl|]. intros _ s2.
    apply bind_same; [apply char_at_same; lia|]. intros e s3. case_match; [apply bind_same; [apply agrees_refl|]; intros; apply IH|].
    case_match; [|apply agrees_refl]. apply bind_same; [apply agrees_refl|]. intros _ s4. apply bind_same; [apply hex_loop_same|]. intros ok s5.
    case_match; [apply agrees_refl|apply IH].
  - apply bind_same; [apply agrees_refl|]. intros; apply IH.
Qed.

Lemma jsmn_char_same c s : agrees (jsmn_char js len num c s) (jsmn_char js' len num c s).
Proof using Hjs.
  unfold jsmn_char. do 2 (case_match; [apply agrees_refl|]). case_match.
  - apply bind_same; [|intros; apply agrees_refl]. unfold jsmn_parse_string. do 2 (apply bind_same; [apply agrees_refl|]; intros ? ?). apply string_loop_same.
  - do 3 (case_match; [apply agrees_refl|]). apply bind_same; [|intros; apply agrees_refl]. unfold jsmn_parse_primitive. apply bind_same; [apply agrees_refl|]. intros start s1.
    apply bind_same; [apply primitive_loop_same|intros; apply agrees_refl].
Qed.

Lemma jsmn_parse_same s : agrees (jsmn_parse js len num s) (jsmn_parse js' len num s).
Proof using Hjs.
  unfold jsmn_parse. do 2 step. generalize (S len) (Z.of_nat (j_toknext s)). intros n. revert s.
  induction n as [|n IH]; intros s count; [apply agrees_refl|]. cbn [parse_loop]. do 2 step. cbv zeta.
  destruct (Nat.ltb_spec (j_pos s) len) as [Hp|Hp]; cbn [negb]; [|apply agrees_refl]. apply bind_same; [by apply char_at_same|]. intros c s'.
  case_match; [apply agrees_refl|]. apply bind_same; [apply jsmn_char_same|]. intros [d|r] s1; [|apply agrees_refl]. apply bind_same; [apply agrees_refl|]. intros; apply IH.
Qed.
End same_text.

(** C35: the tokenizer is safe.  On every text and every token array jsmn_parse returns,
    without reading or writing out of range: a negative error code, or the number of
    tokens it filled, at most [num], each of which delimits a piece of the text. *)
Theorem jsmn_parse_safe js len num ts :
  (len ≤ length js)%nat → (num ≤ length ts)%nat →
  ∃ r s' ts', jsmn_parse js len num (jsmn_init (Some ts)) = Ok r s' ∧ j_toks s' = Some ts' ∧
    (-3 ≤ r < 0 ∨
     r = Z.of_nat (j_toknext s') ∧ (j_toknext s' ≤ num)%nat ∧
     ∀ i t, (i < j_toknext s')%nat → ts' !! i = Some t → 0 ≤ t_start t ≤ t_end t ∧ t_end t ≤ Z.of_nat len).
Proof.
  intros Hlen Hnum. unfold jsmn_parse. step.
  destruct (parse_loop_run js len num (S len) 0 (jsmn_init (Some ts)) ts) as (r & s' & ts' & Hr & Hok & Hres);
    [done| |intros i t Hi; simpl in Hi; lia|simpl; lia|simpl; lia|done|].
  { split; simpl; [done|lia|lia|]. intros i t Hi. lia. }
  exists r, s', ts'. split; [exact Hr|]. split; [apply Hok|]. destruct Hres as [?|[-> Hno]]; [by left|right].
  destruct Hok as [_ [Hn1 Hn2] _ Htok]. split_and!; [done|done|]. intros i t Hi Ht.
  specialize (Hno i t Hi Ht). destruct (Htok i t Hi Ht) as [Hs [[He _]|He]]; [|lia].
  unfold is_open in Hno. rewrite He in Hno. rewrite (proj2 (Z.eqb_neq _ (-1))) in Hno by lia. done.
Qed.
