(* ===== verification/JsmnJson.v ===== *)
(** * The tokens of a JSON value (jsmn.h)

    The text of a JSON value is tokenized into the value's tokens in the order of the
    text: for each object and array its range and the number of its members, for each
    member its tokens. *)
From S2P Require Import Prelude Jsmn JsmnThm.

(** ** Values and their texts *)

(** A key with the white space around it. *)
Record jkey := Key { k_before : list Z; k_name : list Z; k_after : list Z }.

(** A value as it is written: [w] is the white space before the closing bracket, and
    [JSpace] has white space around a value. *)
Inductive json :=
  | JPrim (s : list Z)
  | JStr (s : list Z)
  | JArr (l : list json) (w : list Z)
  | JObj (l : list (jkey * json)) (w : list Z)
  | JSpace (a : list Z) (j : json) (b : list Z).

Section json_ind.
  Context (P : json → Prop).
  Context (Hprim : ∀ s, P (JPrim s)) (Hstr : ∀ s, P (JStr s)).
  Context (Harr : ∀ l w, Forall P l → P (JArr l w)) (Hobj : ∀ l w, Forall (λ kv, P kv.2) l → P (JObj l w)).
  Context (Hspace : ∀ a j b, P j → P (JSpace a j b)).

Fixpoint json_nested_ind (j : json) : P j :=
  match j with
  | JPrim s => Hprim s
  | JStr s => Hstr s
  | JArr l w => Harr l w ((fix go l := match l return Forall P l with
      | [] => Forall_nil_2 _ | j :: l => Forall_cons_2 _ _ _ (json_nested_ind j) (go l) end) l)
  | JObj l w => Hobj l w ((fix go l := match l return Forall (λ kv, P kv.2) l with
      | [] => Forall_nil_2 _ | kv :: l => Forall_cons_2 _ _ _ (json_nested_ind kv.2) (go l) end) l)
  | JSpace a j b => Hspace a j b (json_nested_ind j)
  end.
End json_ind.

(** The members of an array or object with commas between them. *)
Fixpoint commas {A} (f : A → list Z) (l : list A) : list Z :=
  match l with
  | [] => []
  | x :: l => f x ++ match l with [] => [] | _ => 44 :: commas f l end
  end.

Definition quoted (s : list Z) : list Z := 34 :: s ++ [34].

(** The text of a key and of the colon after it. *)
Definition show_key (k : jkey) : list Z := k_before k ++ quoted (k_name k) ++ k_after k ++ [58].

Fixpoint show (j : json) : list Z :=
  match j with
  | JPrim s => s
  | JStr s => quoted s
  | JArr l w => 91 :: commas show l ++ w ++ [93]
  | JObj l w => 123 :: commas (λ kv, show_key kv.1 ++ show kv.2) l ++ w ++ [125]
  | JSpace a j b => a ++ show j ++ b
  end.

(** The tokens of the members of a list whose text starts at [p]. *)
Fixpoint toks_list {A} (f : A → list Z) (g : nat → A → list jsmntok) (p : nat) (l : list A) : list jsmntok :=
  match l with
  | [] => []
  | x :: l => g p x ++ toks_list f g (p + length (f x) + 1) l
  end.

Definition string_tok (p : nat) (s : list Z) (size : Z) : jsmntok :=
  Tok JSMN_STRING (Z.of_nat p + 1) (Z.of_nat p + 1 + Z.of_nat (length s)) size.

(** The tokens of a value whose text starts at [p]. *)
Fixpoint toks (p : nat) (j : json) : list jsmntok :=
  match j with
  | JPrim s => [Tok JSMN_PRIMITIVE (Z.of_nat p) (Z.of_nat p + Z.of_nat (length s)) 0]
  | JStr s => [string_tok p s 0]
  | JArr l w =>
      Tok JSMN_ARRAY (Z.of_nat p) (Z.of_nat p + Z.of_nat (length (show j))) (Z.of_nat (length l)) ::
      toks_list show toks (p + 1) l
  | JObj l w =>
      Tok JSMN_OBJECT (Z.of_nat p) (Z.of_nat p + Z.of_nat (length (show j))) (Z.of_nat (length l)) ::
      toks_list (λ kv, show_key kv.1 ++ show kv.2)
        (λ p kv, string_tok (p + length (k_before kv.1)) (k_name kv.1) 1 :: toks (p + length (show_key kv.1)) kv.2) (p + 1) l
  | JSpace a j b => toks (p + length a) j
  end.

(** The characters of a primitive and the plain ones of a string. *)
Definition prim_char (c : Z) : Prop :=
  33 ≤ c < 127 ∧ c ∉ [58; 44; 93; 125; 123; 91; 34].
Definition str_char (c : Z) : Prop := c ≠ 0 ∧ c ≠ 34 ∧ c ≠ 92.

(** The text between the quotes: plain characters, a backslash with a quote, a slash, a
    backslash or one of [bfrnt], or a backslash, [u] and four hexadecimal digits. *)
Inductive str_body : list Z → Prop :=
  | body_nil : str_body []
  | body_char c s : str_char c → str_body s → str_body (c :: s)
  | body_escape c s : c ∈ [34; 47; 92; 98; 102; 114; 110; 116] → str_body s → str_body (92 :: c :: s)
  | body_unicode ds s : length ds = 4%nat → Forall (λ d, is_hex d = true) ds → str_body s → str_body (92 :: 117 :: ds ++ s).

Lemma str_body_plain s : Forall str_char s → str_body s.
Proof. induction 1; by constructor. Qed.

Lemma is_hex_nonzero d : is_hex d = true → d ≠ 0.
Proof. by intros H ->. Qed.

Lemma str_body_nonzero s : str_body s → Forall (λ c, c ≠ 0) s.
Proof.
  induction 1 as [|c s [Hc _] _ IH|c s Hc _ IH|ds s _ Hds _ IH].
  - by apply list.Forall_nil.
  - by constructor.
  - constructor; [done|]. constructor; [set_solver|done].
  - constructor; [done|]. constructor; [done|]. apply list.Forall_app. split; [|done].
    eapply list.Forall_impl; [exact Hds|]. apply is_hex_nonzero.
Qed.

Definition spaces (w : list Z) : Prop := Forall (λ c, c ∈ [9; 10; 13; 32]) w.
Definition key_ok (k : jkey) : Prop := spaces (k_before k) ∧ str_body (k_name k) ∧ spaces (k_after k).

Fixpoint json_ok (j : json) : Prop :=
  match j with
  | JPrim s => s ≠ [] ∧ Forall prim_char s
  | JStr s => str_body s
  | JArr l w => foldr (λ j P, json_ok j ∧ P) True l ∧ spaces w
  | JObj l w => foldr (λ kv P, (key_ok kv.1 ∧ json_ok kv.2) ∧ P) True l ∧ spaces w
  | JSpace a j b => spaces a ∧ json_ok j ∧ spaces b
  end.

(** ** The scans for open tokens *)

Fixpoint open_below (ts : list jsmntok) (k : nat) : option nat :=
  match k with
  | O => None
  | S k => if default false (is_open <$> ts !! k) then Some k else open_below ts k
  end.
Definition sup (o : option nat) : Z := match o with Some i => Z.of_nat i | None => -1 end.

Definition closed (ts : list jsmntok) : Prop := Forall (λ t, is_open t = false) ts.

Lemma find_open_pure k s ts :
  j_toks s = Some ts → (k ≤ length ts)%nat → find_open k s = Ok (open_below ts k) s.
Proof.
  intros Hts. induction k as [|k IH]; intros Hk; [done|]. cbn [find_open open_below].
  destruct (lookup_lt_is_Some_2 ts k) as [t Ht]; [lia|]. run (get_tok_run k t s ts); [|done|done].
  rewrite Ht. simpl. destruct (is_open t); [done|]. apply IH. lia.
Qed.

Lemma open_below_ext ts ts' k :
  (∀ i, (i < k)%nat → is_open <$> ts !! i = is_open <$> ts' !! i) → open_below ts k = open_below ts' k.
Proof. induction k as [|k IH]; intros Hi; [done|]. simpl. rewrite Hi by lia. rewrite IH; [done|]. intros i ?. apply Hi. lia. Qed.

Lemma open_below_app D rest : open_below (D ++ rest) (length D) = open_below D (length D).
Proof. apply open_below_ext. intros i Hi. by rewrite lookup_app_l. Qed.

Lemma open_below_closed D t T :
  closed T → is_open t = true → open_below (D ++ t :: T) (length (D ++ t :: T)) = Some (length D).
Proof.
  intros HT Ht. rewrite length_app. cbn [length].
  assert (∀ k, (k ≤ length T)%nat → open_below (D ++ t :: T) (length D + S k) = Some (length D)) as Hk.
  { induction k as [|k IH]; intros Hk; rewrite Nat.add_succ_r; cbn [open_below].
    - rewrite Nat.add_0_r, list_lookup_middle by done. simpl. by rewrite Ht.
    - destruct (lookup_lt_is_Some_2 T k) as [u Hu]; [lia|].
      rewrite lookup_app_r by lia. replace (length D + S k - length D)%nat with (S k) by lia. simpl. rewrite Hu. simpl.
      rewrite (proj1 (list.Forall_lookup _ _) HT k u Hu). apply IH. lia. }
  by apply Hk.
Qed.

Lemma find_container_closed D t T rest s :
  closed T → is_open t = true → (t_type t = JSMN_ARRAY ∨ t_type t = JSMN_OBJECT) →
  j_toks s = Some ((D ++ t :: T) ++ rest) → find_container (length (D ++ t :: T)) s = Ok (Some (length D)) s.
Proof.
  intros HT Ht Hty Hs. rewrite length_app. cbn [length].
  assert (∀ k, (k ≤ length T)%nat → find_container (length D + S k) s = Ok (Some (length D)) s) as Hk; [|by apply Hk].
  induction k as [|k IH]; intros Hk; rewrite Nat.add_succ_r; cbn [find_container].
  - rewrite Nat.add_0_r. run (get_tok_run (length D) t); [|exact Hs|].
    + by rewrite Ht, bool_decide_true.
    + rewrite <-app_assoc. simpl. by rewrite list_lookup_middle.
  - destruct (lookup_lt_is_Some_2 T k) as [u Hu]; [lia|].
    run (get_tok_run (length D + S k) u); [|exact Hs|].
    + rewrite (proj1 (list.Forall_lookup _ _) HT k u Hu), andb_false_r. apply IH. lia.
    + rewrite <-app_assoc, lookup_app_r by lia. replace (length D + S k - length D)%nat with (S k) by lia. simpl.
      rewrite lookup_app_l by (by eapply lookup_lt_Some). done.
Qed.

Lemma counted_app u D T : -1 ≤ u < Z.of_nat (length D) → counted u (D ++ T) = counted u D ++ T.
Proof.
  intros Hu. unfold counted. destruct (Z.eqb_spec u (-1)); [done|]. apply list_eq. intros i.
  rewrite list_lookup_alter. destruct (decide (Z.to_nat u = i)) as [<-|Hne].
  - rewrite !lookup_app_l by (rewrite ?length_alter; lia). by rewrite list_lookup_alter_eq.
  - destruct (decide (i < length D)%nat).
    + rewrite !lookup_app_l by (rewrite ?length_alter; lia). by rewrite list_lookup_alter_ne.
    + rewrite !lookup_app_r by (rewrite ?length_alter; lia). by rewrite length_alter.
Qed.

Definition bump (t : jsmntok) : jsmntok := Tok (t_type t) (t_start t) (t_end t) (t_size t + 1).

Lemma counted_middle D t T : counted (Z.of_nat (length D)) (D ++ t :: T) = D ++ bump t :: T.
Proof.
  unfold counted. rewrite (proj2 (Z.eqb_neq _ (-1))) by lia. rewrite Nat2Z.id.
  rewrite (alter_insert _ _ _ t) by (by rewrite list_lookup_middle). rewrite insert_app_r_alt by lia.
  by rewrite Nat.sub_diag.
Qed.

(** ** Runs of the parser *)

(** The parser at [p] with superior token [u], the tokens [D] filled and [rest] free. *)
Definition st (p : nat) (u : Z) (D rest : list jsmntok) : jsmn := Jsmn p (length D) u (Some (D ++ rest)).

Section run.
  Context (js : list Z) (num : nat).
Local Abbreviation len := (length js).

(** [goes s c s' c']: the loop of jsmn_parse comes from [s] to [s'], and [count] from
    [c] to [c'], with enough rounds left in both. *)
Definition goes (s : jsmn) (c : Z) (s' : jsmn) (c' : Z) : Prop :=
  ∀ n, (len < n + j_pos s)%nat → ∃ n', (len < n' + j_pos s')%nat ∧ parse_loop js len num n c s = parse_loop js len num n' c' s'.

Lemma goes_refl s c : goes s c s c.
Proof using. intros n Hn. eauto. Qed.

Lemma goes_trans s1 c1 s2 c2 s3 c3 : goes s1 c1 s2 c2 → goes s2 c2 s3 c3 → goes s1 c1 s3 c3.
Proof using.
  intros H1 H2 n Hn. destruct (H1 n Hn) as (n1 & Hn1 & E1). destruct (H2 n1 Hn1) as (n2 & Hn2 & E2).
  exists n2. split; [done|congruence].
Qed.

Lemma goes_round c s s1 d count :
  js !! j_pos s = Some c → c ≠ 0 → jsmn_char js len num c s = Ok (inl d) s1 → (j_pos s ≤ j_pos s1)%nat →
  goes s count (s1 <| j_pos ::= S |>) (count + d).
Proof using.
  intros Hc Hz Hr Hp n Hn. assert (j_pos s < len)%nat as Hlt by (by eapply lookup_lt_Some).
  destruct n as [|n]; [lia|]. exists n. split; [simpl; lia|]. cbn [parse_loop]. step. cbv zeta.
  rewrite (proj2 (Nat.ltb_lt _ _)) by done. cbn [negb]. unfold char_at at 1. rewrite Hc. step.
  rewrite (proj2 (Z.eqb_neq c 0)) by done. rewrite (bind_ok _ _ _ _ _ Hr). by step.
Qed.

Lemma st_alloc p u D t rest :
  (length D < num)%nat →
  jsmn_alloc_token num (st p u D (t :: rest)) = Ok (Some (length D)) (st p u (D ++ [Tok (t_type t) (-1) (-1) 0]) rest).
Proof using.
  intros Hn. unfold jsmn_alloc_token. step. cbn [st j_toknext]. rewrite leb_correct_conv by done. step.
  run (mod_tok_run (length D) t); [|reflexivity|by rewrite list_lookup_middle].
  unfold ret, st, upd. simpl. rewrite length_app, Nat.add_1_r, <-app_assoc. simpl.
  rewrite insert_app_r_alt by lia. by rewrite Nat.sub_diag.
Qed.

Lemma st_mod_last p u D t f rest :
  mod_tok (length D) f (st p u (D ++ [t]) rest) = Ok tt (st p u (D ++ [f t]) rest).
Proof using.
  rewrite (mod_tok_run (length D) t _ _ ((D ++ [t]) ++ rest));
    [|done|rewrite <-app_assoc; simpl; by rewrite list_lookup_middle].
  unfold st, upd. simpl. rewrite !length_app, <-!app_assoc. simpl. rewrite insert_app_r_alt by lia. by rewrite Nat.sub_diag.
Qed.

Lemma st_count p u D rest :
  -1 ≤ u < Z.of_nat (length D) → count_child (st p u D rest) = Ok tt (st p u (counted u D) rest).
Proof using.
  intros Hu. rewrite (count_child_run _ (D ++ rest)); [|done|simpl; rewrite length_app; lia].
  cbn [st j_toksuper]. rewrite counted_app by done. unfold st, upd. simpl. by rewrite length_counted.
Qed.

Lemma counted_last u D t : -1 ≤ u < Z.of_nat (length D) → counted u (D ++ [t]) = counted u D ++ [t].
Proof using. apply counted_app. Qed.

Lemma goes_open c p u D t rest count :
  js !! p = Some c → c = 123 ∨ c = 91 → -1 ≤ u < Z.of_nat (length D) → (length D < num)%nat →
  goes (st p u D (t :: rest)) count
    (st (p + 1) (Z.of_nat (length D))
       (counted u D ++ [Tok (if c =? 123 then JSMN_OBJECT else JSMN_ARRAY) (Z.of_nat p) (-1) 0]) rest) (count + 1).
Proof using.
  intros Hc Hcc Hu Hn. set (ty := if c =? 123 then JSMN_OBJECT else JSMN_ARRAY).
  pose (s1 := st p (Z.of_nat (length D)) (counted u D ++ [Tok ty (Z.of_nat p) (-1) 0]) rest).
  rewrite Nat.add_1_r. apply (goes_round c _ s1); [done|destruct Hcc as [->| ->]; done| |done].
  unfold jsmn_char. assert ((c =? 123) || (c =? 91) = true) as -> by (by destruct Hcc as [->| ->]).
  unfold open_bracket. run has_tokens_run; [|done]. cbn [negb]. rewrite (bind_ok _ _ _ _ _ (st_alloc p u D t rest Hn)).
  erewrite bind_ok; [|apply st_count; rewrite length_app; simpl; lia]. rewrite counted_last by done. step.
  rewrite <-(length_counted u D) at 1. erewrite bind_ok; [|apply st_mod_last]. step.
  assert (Z.of_nat (length (counted u D ++ [Tok ty (Z.of_nat p) (-1) 0])) - 1 = Z.of_nat (length D)) as E
    by (rewrite length_app, length_counted; simpl; lia).
  unfold ret, s1. by rewrite <-E.
Qed.

Lemma lookup_at pre (c : Z) suf : js = pre ++ c :: suf → js !! length pre = Some c.
Proof using. intros ->. by rewrite list_lookup_middle. Qed.

(** The digits of an escape. *)
Lemma hex_scan ds pre suf u D rest :
  js = pre ++ ds ++ suf → Forall (λ d, is_hex d = true) ds →
  hex_loop js len (length ds) (st (length pre) u D rest) = Ok true (st (length pre + length ds) u D rest).
Proof using.
  revert pre. induction ds as [|d ds IH]; intros pre Hjs Hd; cbn [length hex_loop]; [by rewrite Nat.add_0_r|].
  apply list.Forall_cons in Hd as [Hd Hds]. pose proof (lookup_at _ _ _ Hjs) as Hc. step. cbn [st j_pos].
  rewrite (proj2 (Nat.ltb_lt _ _)) by (by eapply lookup_lt_Some). cbn [negb]. unfold char_at at 1. rewrite Hc. step.
  rewrite (proj2 (Z.eqb_neq d 0)) by (by apply is_hex_nonzero). rewrite Hd. step.
  specialize (IH (pre ++ [d])). rewrite length_app in IH. cbn [length] in IH. rewrite Nat.add_1_r in IH.
  rewrite Nat.add_succ_r, <-Nat.add_succ_l. apply IH; [by rewrite <-app_assoc|done].
Qed.

Lemma simple_escape_in c : c ∈ [34; 47; 92; 98; 102; 114; 110; 116] → simple_escape c = true.
Proof using. rewrite !elem_of_cons, elem_of_nil. intros H. destruct_or! H; by subst. Qed.

(** What the loop of jsmn_parse_string does at the start of the rest [s] of a string. *)
Definition scans (s suf : list Z) : Prop := ∀ n start pre u D t rest,
  js = pre ++ s ++ 34 :: suf → (length s < n)%nat → (length D < num)%nat →
  string_loop js len num n start (st (length pre) u D (t :: rest)) =
    Ok 0 (st (length pre + length s) u
      (D ++ [Tok JSMN_STRING (Z.of_nat start + 1) (Z.of_nat (length pre + length s)) 0]) rest).

(** The loop after it has read [e]. *)
Lemma scans_after e s suf n start pre u D t rest p :
  scans s suf → js = pre ++ (e ++ s) ++ 34 :: suf → (length s < n)%nat → (length D < num)%nat → p = (length pre + length e)%nat →
  string_loop js len num n start (st p u D (t :: rest)) =
    Ok 0 (st (length pre + length (e ++ s)) u
      (D ++ [Tok JSMN_STRING (Z.of_nat start + 1) (Z.of_nat (length pre + length (e ++ s))) 0]) rest).
Proof using.
  intros IH Hjs Hn HD ->. rewrite length_app, Nat.add_assoc, <-length_app. apply IH; [|done..]. by rewrite Hjs, <-!app_assoc.
Qed.

Lemma string_scan s suf : str_body s → scans s suf.
Proof using.
  induction 1 as [|c s (Hc0 & Hc1 & Hc2) _ IH|c s Hesc _ IH|ds s Hlen Hds _ IH]; intros [|n] start pre u D t rest Hjs Hn HD;
    simpl in Hn; try lia; cbn [string_loop]; step; cbn [st j_pos]; pose proof (lookup_at _ _ _ Hjs) as Hc;
    rewrite (proj2 (Nat.ltb_lt _ _)) by (by eapply lookup_lt_Some); cbn [negb]; unfold char_at at 1; rewrite Hc; step.
  - change (34 =? 0) with false. change (34 =? 34) with true. cbv iota.
    run has_tokens_run; [|done]. cbn [negb]. rewrite (bind_ok _ _ _ _ _ (st_alloc (length pre) u D t rest HD)).
    unfold jsmn_fill_token. erewrite bind_ok; [|apply st_mod_last]. simpl. by rewrite Nat.add_0_r.
  - rewrite (proj2 (Z.eqb_neq c 0)), (proj2 (Z.eqb_neq c 34)), (proj2 (Z.eqb_neq c 92)) by done. cbn [andb]. cbv iota. step.
    apply (scans_after [c] s suf); [done|done|lia|done|simpl; lia].
  - change (92 =? 0) with false. change (92 =? 34) with false. change (92 =? 92) with true. cbn [andb]. cbv iota.
    assert (js !! S (length pre) = Some c) as He.
    { rewrite Hjs, lookup_app_r by lia. by replace (S (length pre) - length pre)%nat with 1%nat by lia. }
    rewrite (proj2 (Nat.ltb_lt _ _)) by (rewrite Nat.add_1_r; by eapply lookup_lt_Some). step. unfold char_at at 1. rewrite He. step.
    rewrite (simple_escape_in c Hesc). step. apply (scans_after [92; c] s suf); [done|done|lia|done|simpl; lia].
  - change (92 =? 0) with false. change (92 =? 34) with false. change (92 =? 92) with true. cbn [andb]. cbv iota.
    assert (js !! S (length pre) = Some 117) as He.
    { rewrite Hjs, lookup_app_r by lia. by replace (S (length pre) - length pre)%nat with 1%nat by lia. }
    rewrite (proj2 (Nat.ltb_lt _ _)) by (rewrite Nat.add_1_r; by eapply lookup_lt_Some). step. unfold char_at at 1. rewrite He. step.
    change (simple_escape 117) with false. change (117 =? 117) with true. cbv iota. step.
    pose proof (hex_scan ds (pre ++ [92; 117]) (s ++ 34 :: suf) u D (t :: rest)) as Hh. rewrite Hlen, length_app in Hh. cbn [length] in Hh.
    erewrite bind_ok; [|replace (S (S (length pre))) with (length pre + 2)%nat by lia; apply Hh; [|done]].
    + cbn [negb]. apply (scans_after (92 :: 117 :: ds) s suf); [done|done| |done|simpl; lia]. rewrite length_app in Hn. lia.
    + rewrite Hjs, <-app_assoc. simpl. by rewrite <-app_assoc.
Qed.

Lemma goes_string s pre suf u D t rest count :
  js = pre ++ quoted s ++ suf → str_body s → -1 ≤ u < Z.of_nat (length D) → (length D < num)%nat →
  goes (st (length pre) u D (t :: rest)) count
    (st (length pre + length (quoted s)) u (counted u D ++ [string_tok (length pre) s 0]) rest) (count + 1).
Proof using.
  intros Hjs Hs Hu HD. set (p := length pre).
  pose (s1 := st (S p + length s) u (counted u D ++ [string_tok p s 0]) rest).
  assert (p + length (quoted s) = S (S p + length s))%nat as -> by (unfold quoted; cbn [length]; rewrite length_app; simpl; lia).
  unfold quoted in Hjs. simpl in Hjs.
  apply (goes_round 34 _ s1); [by eapply lookup_at|done| |simpl; lia].
  change (jsmn_char js len num 34 (st p u D (t :: rest))) with
    ((r <- jsmn_parse_string js len num; if r <? 0 then ret (inr r) else count_child;; ret (inl 1)) (st p u D (t :: rest))).
  unfold jsmn_parse_string.
  pose proof (string_scan s suf Hs (S len) p (pre ++ [34]) u D t rest) as Hscan. rewrite length_app in Hscan. cbn [length] in Hscan.
  fold p in Hscan. rewrite Nat.add_1_r in Hscan. erewrite bind_ok; [|step; step; apply Hscan].
  - change (0 <? 0) with false. cbv iota. erewrite bind_ok; [|apply st_count; rewrite length_app; simpl; lia].
    unfold ret, s1. rewrite counted_last by done. unfold string_tok. by replace (Z.of_nat (S p + length s)) with
      (Z.of_nat p + 1 + Z.of_nat (length s)) by lia.
  - rewrite Hjs, <-app_assoc. simpl. by rewrite <-app_assoc.
  - rewrite Hjs, length_app. simpl. rewrite !length_app. lia.
  - done.
Qed.

(** What may follow a primitive. *)
Definition terminated (suf : list Z) : Prop := suf = [] ∨ ∃ c suf', suf = c :: suf' ∧ c ∈ [44; 93; 125; 9; 10; 13; 32].

Lemma terminated_space w suf : spaces w → terminated suf → terminated (w ++ suf).
Proof using.
  intros Hw Hs. destruct Hw as [|c w Hc Hw]; [done|]. right. exists c, (w ++ suf). split; [done|]. set_solver.
Qed.

Lemma goes_space w pre suf u D rest c :
  js = pre ++ w ++ suf → spaces w → goes (st (length pre) u D rest) c (st (length pre + length w) u D rest) c.
Proof using.
  intros Hjs Hw. revert pre Hjs. induction Hw as [|x w Hx _ IH]; intros pre Hjs.
  { rewrite Nat.add_0_r. apply goes_refl. }
  apply (goes_trans _ _ (st (S (length pre)) u D rest) c).
  { rewrite <-(Z.add_0_r c) at 2. apply (goes_round x _ (st (length pre) u D rest)); [by eapply lookup_at|set_solver| |done].
    rewrite !elem_of_cons, elem_of_nil in Hx. destruct_or! Hx; by subst. }
  specialize (IH (pre ++ [x])). rewrite length_app in IH. cbn [length] in IH |- *. rewrite Nat.add_1_r in IH.
  rewrite Nat.add_succ_r, <-Nat.add_succ_l. apply IH. by rewrite <-app_assoc.
Qed.

Lemma prim_char_spec c : prim_char c →
  ends_primitive c = false ∧ (c =? 0) = false ∧ ((c <? 32) || (127 <=? c)) = false ∧
  (c =? 123) = false ∧ (c =? 91) = false ∧ (c =? 125) = false ∧ (c =? 93) = false ∧ (c =? 34) = false ∧
  (c =? 9) = false ∧ (c =? 13) = false ∧ (c =? 10) = false ∧ (c =? 32) = false ∧ (c =? 58) = false ∧ (c =? 44) = false.
Proof using.
  intros [Hr Hn]. rewrite !not_elem_of_cons in Hn. destruct Hn as (? & ? & ? & ? & ? & ? & ? & _).
  assert (ends_primitive c = false) as -> by (unfold ends_primitive; rewrite !(proj2 (Z.eqb_neq _ _)) by lia; done).
  rewrite (proj2 (Z.ltb_ge _ _)), (proj2 (Z.leb_gt _ _)) by lia. rewrite !(proj2 (Z.eqb_neq _ _)) by lia. by split_and!.
Qed.

Lemma primitive_scan n s pre suf u D rest :
  js = pre ++ s ++ suf → Forall prim_char s → terminated suf → (length s < n)%nat →
  primitive_loop js len n (st (length pre) u D rest) = Ok true (st (length pre + length s) u D rest).
Proof using.
  revert n pre. induction s as [|c s IH]; intros [|n] pre Hjs Hs Ht Hn; simpl in Hn; try lia; cbn [primitive_loop]; step;
    cbn [st j_pos].
  - cbn [length]. rewrite Nat.add_0_r. destruct Ht as [->|(c & suf' & -> & Hc)].
    + rewrite (proj2 (Nat.ltb_ge _ _)); [done|]. rewrite Hjs, !app_nil_r. done.
    + simpl in Hjs. pose proof (lookup_at _ _ _ Hjs) as Hc'. rewrite (proj2 (Nat.ltb_lt _ _)) by (by eapply lookup_lt_Some).
      cbn [negb]. unfold char_at at 1. rewrite Hc'. step. rewrite !elem_of_cons, elem_of_nil in Hc.
      destruct_or! Hc; by subst.
  - apply list.Forall_cons in Hs as [Hc Hs]. simpl in Hjs. pose proof (lookup_at _ _ _ Hjs) as Hc'.
    rewrite (proj2 (Nat.ltb_lt _ _)) by (by eapply lookup_lt_Some). cbn [negb]. unfold char_at at 1. rewrite Hc'. step.
    destruct (prim_char_spec c Hc) as (-> & -> & -> & _). step. specialize (IH n (pre ++ [c])).
    rewrite length_app in IH. cbn [length] in IH |- *. rewrite Nat.add_1_r in IH. rewrite Nat.add_succ_r.
    rewrite Nat.add_succ_l in IH. apply IH; [by rewrite <-app_assoc|done|done|lia].
Qed.

Lemma goes_prim s pre suf u D t rest count :
  js = pre ++ s ++ suf → s ≠ [] → Forall prim_char s → terminated suf → -1 ≤ u < Z.of_nat (length D) → (length D < num)%nat →
  goes (st (length pre) u D (t :: rest)) count
    (st (length pre + length s) u
      (counted u D ++ [Tok JSMN_PRIMITIVE (Z.of_nat (length pre)) (Z.of_nat (length pre) + Z.of_nat (length s)) 0]) rest) (count + 1).
Proof using.
  intros Hjs Hne Hs Ht Hu HD. set (p := length pre). destruct s as [|c s]; [done|].
  assert (prim_char c) as Hc by (by apply list.Forall_cons in Hs as [? _]).
  pose (s1 := st (p + length s) u (counted u D ++ [Tok JSMN_PRIMITIVE (Z.of_nat p) (Z.of_nat p + Z.of_nat (length (c :: s))) 0]) rest).
  assert (p + length (c :: s) = S (p + length s))%nat as E by (simpl; lia).
  assert (jsmn_char js len num c (st p u D (t :: rest)) = Ok (inl 1) s1) as Hr.
  { unfold jsmn_char. destruct (prim_char_spec c Hc) as (_ & _ & _ & -> & -> & -> & -> & -> & -> & -> & -> & -> & -> & ->). cbn [orb]. cbv iota.
    unfold jsmn_parse_primitive. erewrite bind_ok.
    2: { step. cbn [st j_pos]. rewrite (bind_ok _ _ _ _ _ (primitive_scan (S len) (c :: s) pre suf u D (t :: rest) Hjs Hs Ht
           ltac:(rewrite Hjs, !length_app; lia))). cbn [negb]. run has_tokens_run; [|done]. cbn [negb].
         rewrite (bind_ok _ _ _ _ _ (st_alloc _ u D t rest HD)). step. unfold jsmn_fill_token.
         erewrite bind_ok; [|apply st_mod_last]. step. reflexivity. }
    change (0 <? 0) with false. cbv iota. cbn [st j_pos]. fold p. rewrite E.
    pose proof (st_count (p + length s) u (D ++ [Tok JSMN_PRIMITIVE (Z.of_nat p) (Z.of_nat (S (p + length s))) 0]) rest) as Hcnt.
    erewrite bind_ok; [|apply Hcnt; rewrite length_app; simpl; lia]. unfold ret, s1. rewrite counted_last by done.
    by replace (Z.of_nat (S (p + length s))) with (Z.of_nat p + Z.of_nat (length (c :: s))) by (simpl; lia). }
  rewrite E. apply (goes_round c _ s1); [by eapply lookup_at| |exact Hr|simpl; lia].
  destruct Hc. lia.
Qed.

Lemma goes_colon p u D rest count :
  js !! p = Some 58 → goes (st p u D rest) count (st (p + 1) (Z.of_nat (length D) - 1) D rest) count.
Proof using.
  intros Hc. rewrite Nat.add_1_r. rewrite <-(Z.add_0_r count) at 2.
  by apply (goes_round 58 _ (st p (Z.of_nat (length D) - 1) D rest)).
Qed.

(** A comma after a member of the bracket [t], whatever the superior token is now:
    the bracket, or the key of its last member. *)
Lemma goes_comma p u D t T rest count :
  js !! p = Some 44 → closed T → is_open t = true → (t_type t = JSMN_ARRAY ∨ t_type t = JSMN_OBJECT) →
  u = Z.of_nat (length D) ∨
    (∃ k, u = Z.of_nat (length D + S k) ∧ ∃ t', T !! k = Some t' ∧ t_type t' = JSMN_STRING) →
  goes (st p u (D ++ t :: T) rest) count (st (p + 1) (Z.of_nat (length D)) (D ++ t :: T) rest) count.
Proof using.
  intros Hc HT Ht Hty Hu. rewrite Nat.add_1_r. rewrite <-(Z.add_0_r count) at 2.
  apply (goes_round 44 _ (st p (Z.of_nat (length D)) (D ++ t :: T) rest)); [done|done| |done].
  change (comma (st p u (D ++ t :: T) rest) = Ok (inl 0) (st p (Z.of_nat (length D)) (D ++ t :: T) rest)).
  unfold comma. step. run has_tokens_run; [|done]. cbn [st j_toksuper negb orb].
  destruct Hu as [->|(k & -> & t' & Ht' & Hty')].
  - rewrite (proj2 (Z.eqb_neq _ (-1))) by lia. rewrite Nat2Z.id.
    run (get_tok_run (length D) t); [|reflexivity|rewrite <-app_assoc; simpl; by rewrite list_lookup_middle].
    by rewrite bool_decide_true.
  - rewrite (proj2 (Z.eqb_neq _ (-1))) by lia. rewrite Nat2Z.id. run (get_tok_run (length D + S k) t'); [|reflexivity|].
    2: { rewrite <-app_assoc, lookup_app_r by lia. replace (length D + S k - length D)%nat with (S k) by lia. simpl.
         rewrite lookup_app_l by (by eapply lookup_lt_Some). done. }
    rewrite bool_decide_false by (rewrite Hty'; naive_solver).
    run (find_container_closed D t T rest); [|done..]. by step.
Qed.

(** A closing bracket: the innermost open token is closed. *)
Lemma goes_close c p u D t T rest count :
  js !! p = Some c → c = 125 ∨ c = 93 → closed T → is_open t = true →
  t_type t = (if c =? 125 then JSMN_OBJECT else JSMN_ARRAY) →
  goes (st p u (D ++ t :: T) rest) count
    (st (p + 1) (sup (open_below D (length D))) (D ++ Tok (t_type t) (t_start t) (Z.of_nat p + 1) (t_size t) :: T) rest) count.
Proof using.
  intros Hc Hcc HT Ht Hty. rewrite Nat.add_1_r. rewrite <-(Z.add_0_r count) at 2.
  set (t' := Tok (t_type t) (t_start t) (Z.of_nat p + 1) (t_size t)).
  apply (goes_round c _ (st p (sup (open_below D (length D))) (D ++ t' :: T) rest)); [done|by destruct Hcc as [->| ->]| |done].
  assert (jsmn_char js len num c (st p u (D ++ t :: T) rest) = close_bracket c (st p u (D ++ t :: T) rest)) as ->
    by (by destruct Hcc as [->| ->]).
  unfold close_bracket. run has_tokens_run; [|done]. cbn [negb]. step.
  assert (open_below ((D ++ t :: T) ++ rest) (length (D ++ t :: T)) = Some (length D)) as Ho
    by (rewrite open_below_app; by apply open_below_closed).
  run find_open_pure; [|reflexivity|cbn [st j_toknext]; rewrite (length_app _ rest); lia].
  cbn [st j_toknext]. rewrite Ho.
  assert (∀ x, ((D ++ x :: T) ++ rest) !! length D = Some x) as Hx by (intros x; rewrite <-app_assoc; simpl; by rewrite list_lookup_middle).
  run (get_tok_run (length D) t); [|reflexivity|apply Hx]. rewrite bool_decide_false by (intros E; by apply E). step.
  run (mod_tok_run (length D) t); [|reflexivity|apply Hx].
  assert (<[length D := t']> ((D ++ t :: T) ++ rest) = (D ++ t' :: T) ++ rest) as E.
  { rewrite <-!app_assoc. simpl. rewrite insert_app_r_alt by lia. by rewrite Nat.sub_diag. }
  cbn [st j_pos j_toksuper upd]. fold t'. run find_open_pure; [|simpl; by rewrite E|rewrite <-app_assoc, length_app; simpl; lia].
  assert (open_below ((D ++ t' :: T) ++ rest) (S (length D)) = open_below D (length D)) as ->.
  { cbn [open_below]. rewrite Hx. simpl. assert (is_open t' = false) as ->.
    { unfold is_open, t'. cbn [t_end]. rewrite (proj2 (Z.eqb_neq (Z.of_nat p + 1) _)) by lia. apply andb_false_r. }
    rewrite <-app_assoc. apply open_below_app. }
  assert (length (D ++ t :: T) = length (D ++ t' :: T)) as El by (rewrite !length_app; done).
  destruct (open_below D (length D)) as [k|]; [step|]; unfold ret; f_equal; unfold st, upd; simpl; by rewrite E, El.
Qed.

(** Room for [n] more tokens. *)
Definition room (D rest : list jsmntok) (n : nat) : Prop := (length D + n ≤ num ∧ n ≤ length rest)%nat.

Lemma room_app D D' rest n m :
  room D rest (n + m) → length D' = (length D + n)%nat → room D' (drop n rest) m.
Proof using. intros [? ?] HD. split; [lia|]. rewrite length_drop. lia. Qed.

Definition bumps (n : nat) (t : jsmntok) : jsmntok := Tok (t_type t) (t_start t) (t_end t) (t_size t + Z.of_nat n).

(** The superior token between two members of the bracket at [length D]. *)
Definition back (D T : list jsmntok) (u : Z) : Prop :=
  u = Z.of_nat (length D) ∨ ∃ k, u = Z.of_nat (length D + S k) ∧ ∃ t', T !! k = Some t' ∧ t_type t' = JSMN_STRING.

Definition bracket (t : jsmntok) : Prop := is_open t = true ∧ (t_type t = JSMN_ARRAY ∨ t_type t = JSMN_OBJECT).

Lemma container_bumps t n : bracket t → bracket (bumps n t).
Proof using. done. Qed.

Section members.
  Context {A : Type} (f : A → list Z) (g : nat → A → list jsmntok).

(** The text of one member is read as its tokens, and counted as one. *)
Definition member_goes (x : A) : Prop := ∀ pre suf D t T rest c,
  js = pre ++ f x ++ suf → terminated suf → bracket t → closed T → room (D ++ t :: T) rest (length (g (length pre) x)) →
  ∃ u, back D (T ++ g (length pre) x) u ∧
    goes (st (length pre) (Z.of_nat (length D)) (D ++ t :: T) rest) c
      (st (length pre + length (f x)) u (D ++ bumps 1 t :: T ++ g (length pre) x) (drop (length (g (length pre) x)) rest))
      (c + Z.of_nat (length (g (length pre) x))).

Lemma members_goes l pre suf D t T rest c :
  Forall (λ x, member_goes x ∧ ∀ p, closed (g p x)) l →
  js = pre ++ commas f l ++ suf → terminated suf → bracket t → closed T →
  room (D ++ t :: T) rest (length (toks_list f g (length pre) l)) →
  ∃ u, goes (st (length pre) (Z.of_nat (length D)) (D ++ t :: T) rest) c
      (st (length pre + length (commas f l)) u (D ++ bumps (length l) t :: T ++ toks_list f g (length pre) l)
        (drop (length (toks_list f g (length pre) l)) rest))
      (c + Z.of_nat (length (toks_list f g (length pre) l))).
Proof using.
  revert pre t T rest c. induction l as [|x l IH]; intros pre t T rest c Hl Hjs Hsuf Ht HT Hroom.
  { exists (Z.of_nat (length D)). cbn [toks_list commas length]. rewrite app_nil_r, Nat.add_0_r, Z.add_0_r, drop_0.
    replace (bumps 0 t) with t by (destruct t; unfold bumps; simpl; f_equal; lia). apply goes_refl. }
  apply list.Forall_cons in Hl as [[Hx Hg] Hl]. cbn [toks_list length] in *. rewrite length_app in *.
  set (n := length (g (length pre) x)) in *. set (q := (length pre + length (f x) + 1)%nat) in *.
  assert (room (D ++ t :: T) rest n) as Hroom1 by (destruct Hroom; split; lia).
  destruct l as [|y l].
  - simpl in Hjs. rewrite app_nil_r in Hjs. destruct (Hx pre suf D t T rest c Hjs Hsuf Ht HT Hroom1) as (u & _ & Hgo).
    exists u. cbn [commas toks_list length]. rewrite !app_nil_r, Nat.add_0_r. exact Hgo.
  - assert (js = pre ++ f x ++ 44 :: commas f (y :: l) ++ suf) as Hjs1
      by (rewrite Hjs; change (commas f (x :: y :: l)) with (f x ++ 44 :: commas f (y :: l)); by rewrite <-!app_assoc).
    destruct (Hx pre _ D t T rest c Hjs1) as (u & Hu & Hgo); [right; eexists _, _; split; [done|set_solver]|done|done|done|].
    assert (js = (pre ++ f x) ++ 44 :: commas f (y :: l) ++ suf) as Hjs2 by (rewrite Hjs1; by rewrite <-app_assoc).
    assert (js = (pre ++ f x ++ [44]) ++ commas f (y :: l) ++ suf) as Hjs3 by (rewrite Hjs1; by rewrite <-!app_assoc).
    assert (length (pre ++ f x ++ [44]) = q) as Hq by (rewrite !length_app; unfold q; simpl; lia).
    assert (closed (T ++ g (length pre) x)) as HT' by (apply Forall_app_2; [done|apply Hg]).
    destruct (IH (pre ++ f x ++ [44]) (bumps 1 t) (T ++ g (length pre) x) (drop n rest) (c + Z.of_nat n) Hl Hjs3 Hsuf)
      as (u' & Hgo'); [done|done|rewrite Hq; eapply room_app; [done|rewrite !length_app; simpl; rewrite length_app; lia]|].
    exists u'. eapply goes_trans; [exact Hgo|]. eapply goes_trans.
    { apply goes_comma; [|done|apply Ht|apply Ht|exact Hu].
      rewrite <-(length_app pre). by eapply lookup_at. }
    rewrite Hq in Hgo'. rewrite drop_drop, <-app_assoc in Hgo'.
    replace (bumps (length (y :: l)) (bumps 1 t)) with (bumps (length (x :: y :: l)) t) in Hgo'
      by (unfold bumps; simpl; f_equal; lia).
    replace (length pre + length (commas f (x :: y :: l)))%nat with (q + length (commas f (y :: l)))%nat
      by (change (commas f (x :: y :: l)) with (f x ++ 44 :: commas f (y :: l)); unfold q; rewrite length_app; cbn [length]; lia).
    rewrite Nat2Z.inj_add, Z.add_assoc. exact Hgo'.
Qed.

Lemma closed_toks_list p l : Forall (λ x, ∀ p, closed (g p x)) l → closed (toks_list f g p l).
Proof using.
  intros Hl. revert p. induction Hl as [|x l Hx Hl IH]; intros p; [by apply Forall_nil_2|].
  apply Forall_app_2; [apply Hx|apply IH].
Qed.

Lemma container_goes o l w pre suf u D rest c :
  o = 123 ∨ o = 91 → Forall (λ x, member_goes x ∧ ∀ p, closed (g p x)) l → spaces w →
  js = pre ++ (o :: commas f l ++ w ++ [o + 2]) ++ suf → -1 ≤ u < Z.of_nat (length D) →
  room D rest (S (length (toks_list f g (length pre + 1) l))) →
  goes (st (length pre) u D rest) c
    (st (length pre + length (o :: commas f l ++ w ++ [o + 2])) (sup (open_below (counted u D) (length D)))
      (counted u D ++ Tok (if o =? 123 then JSMN_OBJECT else JSMN_ARRAY) (Z.of_nat (length pre))
         (Z.of_nat (length pre) + Z.of_nat (length (o :: commas f l ++ w ++ [o + 2]))) (Z.of_nat (length l)) ::
       toks_list f g (length pre + 1) l)
      (drop (S (length (toks_list f g (length pre + 1) l))) rest))
    (c + Z.of_nat (S (length (toks_list f g (length pre + 1) l)))).
Proof using.
  intros Ho Hl Hw Hjs Hu Hroom. set (p := length pre) in *. set (ts := toks_list f g (p + 1) l) in *.
  destruct rest as [|t rest]; [destruct Hroom; simpl in *; lia|].
  assert (js = (pre ++ [o]) ++ commas f l ++ w ++ [o + 2] ++ suf) as Hjs1 by (rewrite Hjs; simpl; by rewrite <-!app_assoc).
  assert (js = (pre ++ o :: commas f l) ++ w ++ (o + 2) :: suf) as Hjs2 by (rewrite Hjs1, <-!app_assoc; done).
  assert (js = (pre ++ o :: commas f l ++ w) ++ (o + 2) :: suf) as Hjs3 by (rewrite Hjs2, <-!app_assoc; simpl; by rewrite <-app_assoc).
  assert (length (pre ++ [o]) = p + 1)%nat as Hp by (by rewrite length_app).
  set (t0 := Tok (if o =? 123 then JSMN_OBJECT else JSMN_ARRAY) (Z.of_nat p) (-1) 0).
  assert (bracket t0) as Ht0.
  { split; [unfold is_open, t0; simpl; by rewrite (proj2 (Z.eqb_neq (Z.of_nat p) _)) by lia|].
    destruct Ho as [->| ->]; [by right|by left]. }
  destruct (members_goes l (pre ++ [o]) (w ++ [o + 2] ++ suf) (counted u D) t0 [] rest (c + 1) Hl Hjs1) as (u' & Hgo).
  { apply terminated_space; [done|]. right. exists (o + 2), suf. split; [done|]. destruct Ho as [->| ->]; set_solver. }
  { done. } { by apply Forall_nil_2. }
  { rewrite Hp. fold ts. destruct Hroom. split; [rewrite length_app, length_counted|]; simpl in *; lia. }
  rewrite Hp in Hgo. fold ts in Hgo. cbn [app] in Hgo. rewrite length_counted in Hgo.
  eapply goes_trans; [apply (goes_open o); [by eapply lookup_at|done|done|destruct Hroom; simpl in *; lia]|].
  eapply goes_trans; [exact Hgo|].
  eapply goes_trans; [|].
  { pose proof (goes_space w (pre ++ o :: commas f l) ([o + 2] ++ suf)) as Hsp.
    replace (length (pre ++ o :: commas f l)) with (p + 1 + length (commas f l))%nat in Hsp by (rewrite length_app; unfold p; simpl; lia).
    apply Hsp; done. }
  set (q := (p + 1 + length (commas f l) + length w)%nat).
  assert (length (pre ++ o :: commas f l ++ w) = q) as Hq by (rewrite length_app; unfold q, p; simpl; rewrite length_app; lia).
  replace (p + length (o :: commas f l ++ w ++ [(o + 2)%Z]))%nat with (q + 1)%nat by (unfold q; simpl; rewrite !length_app; simpl; lia).
  replace (Z.of_nat p + Z.of_nat (length (o :: commas f l ++ w ++ [o + 2]))) with (Z.of_nat q + 1)
    by (unfold q; simpl; rewrite !length_app; simpl; lia).
  replace (c + Z.of_nat (S (length ts))) with (c + 1 + Z.of_nat (length ts)) by lia.
  replace (open_below (counted u D) (length D)) with (open_below (counted u D) (length (counted u D)))
    by (by rewrite length_counted).
  apply (goes_close (o + 2) q u' (counted u D) (bumps (length l) t0) ts (drop (length ts) rest)).
  - rewrite <-Hq. by eapply lookup_at.
  - lia.
  - apply closed_toks_list. eapply list.Forall_impl; [exact Hl|]. by intros x [_ ?].
  - apply Ht0.
  - by destruct Ho as [->| ->].
Qed.
End members.

Lemma closed_toks p j : closed (toks p j).
Proof using.
  revert p. assert (∀ ty a b n, b ≠ -1 → is_open (Tok ty a b n) = false) as Hcl.
  { intros ty a b n Hb. unfold is_open. simpl. rewrite (proj2 (Z.eqb_neq b _)) by done. apply andb_false_r. }
  induction j as [s|s|l w IH|l w IH|a j b IH] using json_nested_ind; intros p; cbn [toks].
  - apply list.Forall_singleton, Hcl. lia.
  - apply list.Forall_singleton, Hcl. lia.
  - apply Forall_cons_2; [apply Hcl; lia|]. by apply closed_toks_list.
  - apply Forall_cons_2; [apply Hcl; lia|]. apply closed_toks_list. eapply list.Forall_impl; [exact IH|]. intros [k v] Hv q.
    apply Forall_cons_2; [apply Hcl; lia|apply Hv].
  - apply IH.
Qed.

(** The text of a value is read as its tokens, and counted as one member of the superior token. *)
Definition value_goes (j : json) : Prop := ∀ pre suf u D rest c,
  json_ok j → js = pre ++ show j ++ suf → terminated suf → -1 ≤ u < Z.of_nat (length D) →
  room D rest (length (toks (length pre) j)) →
  ∃ u', (u' = u ∨ u' = sup (open_below (counted u D) (length D))) ∧
    goes (st (length pre) u D rest) c
      (st (length pre + length (show j)) u' (counted u D ++ toks (length pre) j) (drop (length (toks (length pre) j)) rest))
      (c + Z.of_nat (length (toks (length pre) j))).

Lemma element_goes j : json_ok j → value_goes j → member_goes show toks j.
Proof using.
  intros Hok Hj pre suf D t T rest c Hjs Hsuf Ht HT Hroom.
  destruct (Hj pre suf (Z.of_nat (length D)) (D ++ t :: T) rest c Hok Hjs Hsuf) as (u & Hu & Hgo);
    [rewrite length_app; simpl; lia|done|].
  exists u. rewrite counted_middle in Hu, Hgo. rewrite <-app_assoc in Hgo. split; [|exact Hgo]. left.
  destruct Hu as [->| ->]; [done|]. pose proof (open_below_closed D (bump t) T HT (proj1 Ht)) as Ho.
  rewrite length_app in Ho |- *. cbn [length] in Ho |- *. by rewrite Ho.
Qed.

(** A key is read as a string token, which becomes the superior token. *)
Lemma key_goes k pre suf D t T t1 rest c :
  key_ok k → js = pre ++ show_key k ++ suf → (length (D ++ t :: T) < num)%nat →
  let u := length (D ++ t :: T) in
  goes (st (length pre) (Z.of_nat (length D)) (D ++ t :: T) (t1 :: rest)) c
    (st (length pre + length (show_key k)) (Z.of_nat u)
      ((D ++ bump t :: T) ++ [string_tok (length pre + length (k_before k)) (k_name k) 0]) rest) (c + 1).
Proof using.
  intros (Hb & Hn & Ha) Hjs Hr u. unfold show_key in *. destruct k as [w1 k w2]; cbn [k_before k_name k_after] in *.
  assert (js = pre ++ w1 ++ quoted k ++ w2 ++ 58 :: suf) as Hjs1 by (rewrite Hjs, <-!app_assoc; done).
  assert (js = (pre ++ w1) ++ quoted k ++ w2 ++ 58 :: suf) as Hjs2 by (by rewrite Hjs1, <-!app_assoc).
  assert (js = (pre ++ w1 ++ quoted k) ++ w2 ++ 58 :: suf) as Hjs3 by (by rewrite Hjs1, <-!app_assoc).
  assert (js = (pre ++ w1 ++ quoted k ++ w2) ++ 58 :: suf) as Hjs4 by (by rewrite Hjs1, <-!app_assoc).
  set (key := string_tok (length pre + length w1) k 0).
  eapply goes_trans; [by apply (goes_space w1 pre _ _ _ _ _ Hjs1)|]. eapply goes_trans.
  { pose proof (goes_string k (pre ++ w1) _ (Z.of_nat (length D)) (D ++ t :: T) t1 rest c Hjs2 Hn) as Hg. rewrite (length_app pre) in Hg.
    apply Hg; [rewrite length_app; simpl; lia|done]. }
  fold key. rewrite counted_middle. eapply goes_trans.
  { pose proof (goes_space w2 (pre ++ w1 ++ quoted k) _ (Z.of_nat (length D)) ((D ++ bump t :: T) ++ [key]) rest (c + 1) Hjs3 Ha) as Hg.
    rewrite !(length_app pre), (length_app w1), Nat.add_assoc in Hg. exact Hg. }
  pose proof (goes_colon (length (pre ++ w1 ++ quoted k ++ w2)) (Z.of_nat (length D)) ((D ++ bump t :: T) ++ [key]) rest (c + 1) (lookup_at _ _ _ Hjs4)) as Hg.
  replace (length pre + length (w1 ++ quoted k ++ w2 ++ [58%Z]))%nat with (length (pre ++ w1 ++ quoted k ++ w2) + 1)%nat
    by (rewrite !length_app; simpl; lia).
  replace (length pre + length w1 + length (quoted k) + length w2)%nat with (length (pre ++ w1 ++ quoted k ++ w2)) by (rewrite !length_app; lia).
  replace (Z.of_nat u) with (Z.of_nat (length ((D ++ bump t :: T) ++ [key])) - 1); [exact Hg|].
  unfold u. rewrite !length_app. simpl. lia.
Qed.

Lemma pair_goes k j :
  key_ok k → json_ok j → value_goes j →
  member_goes (λ kv : jkey * json, show_key kv.1 ++ show kv.2)
    (λ p kv, string_tok (p + length (k_before kv.1)) (k_name kv.1) 1 :: toks (p + length (show_key kv.1)) kv.2) (k, j).
Proof using.
  intros Hk Hok Hj pre suf D t T rest c Hjs Hsuf Ht HT Hroom. cbn [fst snd] in *.
  set (p := length pre) in *. set (q := (p + length (show_key k))%nat) in *. set (ts := toks q j) in *.
  destruct rest as [|t1 rest]; [destruct Hroom; simpl in *; lia|].
  assert (js = pre ++ show_key k ++ show j ++ suf) as Hjs1 by (rewrite Hjs, <-app_assoc; done).
  assert (js = (pre ++ show_key k) ++ show j ++ suf) as Hjs3 by (by rewrite Hjs1, <-app_assoc).
  assert (length (pre ++ show_key k) = q) as Hq by (by rewrite length_app).
  set (kp := (p + length (k_before k))%nat). set (key := string_tok kp (k_name k) 0). set (D' := (D ++ bump t :: T) ++ [key]).
  assert (length D' = length D + S (length T) + 1)%nat as HD' by (unfold D'; rewrite !length_app; simpl; lia).
  destruct (Hj (pre ++ show_key k) suf (Z.of_nat (length (D ++ bump t :: T))) D' rest (c + 1) Hok Hjs3 Hsuf) as (u & Hu & Hgo).
  { rewrite HD', length_app. simpl. lia. }
  { rewrite Hq. fold ts. destruct Hroom as [H1 H2]. split; [|simpl in H2; lia]. rewrite HD'. rewrite length_app in H1.
    simpl in H1. lia. }
  rewrite Hq in Hgo. fold ts in Hgo. unfold D' in Hu, Hgo. rewrite counted_middle in Hu, Hgo.
  exists u. split.
  - destruct Hu as [->| ->]; [right; exists (length T); split; [by rewrite length_app|]|left].
    + exists (bump key). split; [by rewrite list_lookup_middle|done].
    + assert (closed (T ++ [bump key])) as HT'.
      { apply Forall_app_2; [done|]. apply list.Forall_singleton. unfold is_open. simpl.
        rewrite (proj2 (Z.eqb_neq (Z.of_nat kp + 1 + _) _)) by lia. apply andb_false_r. }
      pose proof (open_below_closed D (bump t) (T ++ [bump key]) HT' (proj1 Ht)) as Ho.
      replace (length ((D ++ bump t :: T) ++ [key])) with (length (D ++ bump t :: T ++ [bump key]))
        by (rewrite !length_app; simpl; rewrite length_app; simpl; lia).
      rewrite <-app_assoc. cbn [app]. by rewrite Ho.
  - eapply goes_trans.
    { apply (key_goes k pre _ D t T t1 rest c Hk Hjs1). destruct Hroom as [H1 _]. simpl in H1. lia. }
    fold p kp key q. rewrite (length_app (show_key k)), Nat.add_assoc. fold q. cbn [length]. fold q ts.
    replace (length (D ++ t :: T)) with (length (D ++ bump t :: T)) by (rewrite !length_app; done).
    rewrite <-!app_assoc in Hgo. cbn [app] in Hgo. rewrite <-app_assoc. cbn [app drop].
    rewrite Nat2Z.inj_succ, <-Z.add_1_l, Z.add_assoc. exact Hgo.
Qed.

Lemma json_value_goes j : value_goes j.
Proof using.
  induction j as [s|s|l w IH|l w IH|a j b IH] using json_nested_ind; intros pre suf u D rest c Hok Hjs Hsuf Hu Hroom.
  - destruct rest as [|t rest]; [destruct Hroom; simpl in *; lia|]. exists u. split; [by left|].
    destruct Hok as [Hne Hs]. cbn [show toks length drop] in *. rewrite drop_0. destruct Hroom.
    apply (goes_prim s pre suf); [done..|lia].
  - destruct rest as [|t rest]; [destruct Hroom; simpl in *; lia|]. exists u. split; [by left|].
    cbn [show toks length drop] in *. rewrite drop_0. destruct Hroom. apply (goes_string s pre suf); [done..|lia].
  - eexists. split; [by right|]. destruct Hok as [Hok Hw].
    apply (container_goes show toks 91 l w pre suf); [by right| |done|done|done|exact Hroom].
    clear Hjs Hroom. induction IH as [|x l Hx _ IHl]; [by apply Forall_nil_2|].
    destruct Hok as [Hx' Hok]. apply Forall_cons_2; [|by apply IHl].
    split; [by apply element_goes|intros p; apply closed_toks].
  - eexists. split; [by right|]. destruct Hok as [Hok Hw].
    apply (container_goes _ (λ p (kv : jkey * json), string_tok (p + length (k_before kv.1)) (k_name kv.1) 1 :: toks (p + length (show_key kv.1)) kv.2)
      123 l w pre suf); [by left| |done|done|done|exact Hroom].
    clear Hjs Hroom. induction IH as [|[k x] l Hx _ IHl]; [by apply Forall_nil_2|].
    destruct Hok as [[Hk Hx'] Hok]. apply Forall_cons_2; [|by apply IHl].
    split; [by apply pair_goes|]. intros p. apply Forall_cons_2; [|apply closed_toks].
    unfold is_open. simpl. rewrite (proj2 (Z.eqb_neq (Z.of_nat _ + 1 + _) _)) by lia. apply andb_false_r.
  - destruct Hok as (Ha & Hj & Hb). cbn [show toks] in *.
    assert (js = pre ++ a ++ (show j ++ b ++ suf)) as Hjs1 by (rewrite Hjs, <-!app_assoc; done).
    assert (js = (pre ++ a) ++ show j ++ (b ++ suf)) as Hjs2 by (by rewrite Hjs1, <-!app_assoc).
    assert (js = (pre ++ a ++ show j) ++ b ++ suf) as Hjs3 by (by rewrite Hjs1, <-!app_assoc).
    rewrite <-(length_app pre a) in *. destruct (IH (pre ++ a) (b ++ suf) u D rest c Hj Hjs2) as (u' & Hu' & Hgo);
      [by apply terminated_space|done|done|].
    exists u'. split; [done|]. eapply goes_trans; [by apply (goes_space a pre _ _ _ _ _ Hjs1)|]. rewrite <-(length_app pre a).
    eapply goes_trans; [exact Hgo|].
    pose proof (λ D r c, goes_space b (pre ++ a ++ show j) suf u' D r c Hjs3 Hb) as Hg.
    rewrite !(length_app pre), (length_app a), !Nat.add_assoc in Hg. rewrite (length_app pre), !length_app, !Nat.add_assoc. apply Hg.
Qed.
End run.

Lemma open_below_all_closed ts : closed ts → open_below ts (length ts) = None.
Proof.
  intros Hts. assert (∀ k, (k ≤ length ts)%nat → open_below ts k = None) as Hk; [|by apply Hk].
  induction k as [|k IH]; intros Hk; [done|]. cbn [open_below]. destruct (lookup_lt_is_Some_2 ts k) as [t Ht]; [lia|].
  rewrite Ht. simpl. rewrite (proj1 (list.Forall_lookup _ _) Hts k t Ht). apply IH. lia.
Qed.

Lemma json_alone j num ts :
  json_ok j → (length (toks 0 j) ≤ num ≤ length ts)%nat →
  ∃ u, jsmn_parse (show j) (length (show j)) num (jsmn_init (Some ts)) =
    Ok (Z.of_nat (length (toks 0 j)))
       (Jsmn (length (show j)) (length (toks 0 j)) u (Some (toks 0 j ++ drop (length (toks 0 j)) ts))).
Proof.
  intros Hok Hn. destruct (json_value_goes (show j) num j [] [] (-1) [] ts 0 Hok) as (u & _ & Hgo).
  { by rewrite app_nil_r. } { by left. } { done. } { split; simpl; lia. }
  exists u. unfold jsmn_parse. step. destruct (Hgo (S (length (show j)))) as (n & Hn' & E); [simpl; lia|].
  cbn [j_toknext jsmn_init]. etransitivity; [exact E|]. destruct n as [|n]; [simpl in Hn'; lia|].
  change (counted (-1) [] ++ toks (length []) j) with (toks 0 j). change (0 + Z.of_nat (length (toks (length []) j))) with
    (Z.of_nat (length (toks 0 j))). change (length [] + length (show j))%nat with (length (show j)).
  cbn [parse_loop]. step. cbn [j_pos st]. rewrite (proj2 (Nat.ltb_ge _ _)) by lia. cbn [negb]. cbv zeta. step.
  run has_tokens_run; [|done]. cbn [negb]. run find_open_pure; [|reflexivity|cbn [st j_toknext]; rewrite length_app; lia].
  cbn [st j_toknext]. by rewrite open_below_app, open_below_all_closed by apply closed_toks.
Qed.

Lemma json_parsed j rest num ts :
  json_ok j → (length (toks 0 j) ≤ num ≤ length ts)%nat →
  ∃ u, jsmn_parse (show j ++ rest) (length (show j)) num (jsmn_init (Some ts)) =
    Ok (Z.of_nat (length (toks 0 j)))
       (Jsmn (length (show j)) (length (toks 0 j)) u (Some (toks 0 j ++ drop (length (toks 0 j)) ts))).
Proof.
  intros Hok Hn. destruct (json_alone j num ts Hok Hn) as (u & Hu). exists u. eapply jsmn_parse_same; [|exact Hu].
  intros p Hp. by rewrite lookup_app_l.
Qed.

(** C6: parsing the text of a JSON value, with any white space between its parts and any
    escapes in its strings and keys, into a token array that is large enough returns the
    number of the value's tokens, and the array holds exactly those tokens: each object,
    array, string and primitive with its range in the text and its number of members, in
    the order of the text. The free part of the array is untouched, and what follows the
    text in its buffer does not matter. *)
Theorem jsmn_parse_json j rest num ts :
  json_ok j → (length (toks 0 j) ≤ num ≤ length ts)%nat →
  ∃ u, jsmn_parse (show j ++ rest) (length (show j)) num (jsmn_init (Some ts)) =
    Ok (Z.of_nat (length (toks 0 j)))
       (Jsmn (length (show j)) (length (toks 0 j)) u (Some (toks 0 j ++ drop (length (toks 0 j)) ts))).
Proof. apply json_parsed. Qed.
