(* ===== verification/Dockv6.v ===== *)
(** * The container tool and the container manager (dockv6.c, cm.c)

    dockv6 reads the specification of a container, a JSON file, and leaves the program to
    run, the root directory and the number of processes in a shared memory page; cm takes
    them from there and enters the container.  The shared page is the list of its bytes.
    Arrays on the stack are not initialised: their contents at the start are arguments, as
    are the results of open, read, shm_get and mutex_create; an address that is negative is
    no page.  An outcome of the tokenizer other than a value is
    undefined. *)
From S2P Require Import Prelude CString Ulib Jsmn.

(** "init", "fs" and "nproc" *)
Abbreviation INIT := ([105; 110; 105; 116] : list Z).
Abbreviation FS := ([102; 115] : list Z).
Abbreviation NPROC_KEY := ([110; 112; 114; 111; 99] : list Z).

Definition jsoneq (json : list Z) (tok : jsmntok) (s : list Z) : option Z :=
  if bool_decide (t_type tok = JSMN_STRING) then
    n ← strlen s;
    if Z.of_nat n =? t_end tok - t_start tok then
      r ← strncmp (drop (Z.to_nat (t_start tok)) json) s (Z.to_nat (t_end tok - t_start tok));
      Some (if r =? 0 then 0 else -1)
    else Some (-1)
  else Some (-1).

(** The local variables that main fills. *)
Record spec := Spec { sp_init : list Z; sp_fs : list Z; sp_nproc_array : list Z; sp_nproc : Z }.
Definition eta_spec (r : spec) : spec := Spec (sp_init r) (sp_fs r) (sp_nproc_array r) (sp_nproc r).
#[global] Instance upd_sp_init : Upd sp_init := ltac:(mk_upd eta_spec sp_init).
#[global] Instance upd_sp_fs : Upd sp_fs := ltac:(mk_upd eta_spec sp_fs).
#[global] Instance upd_sp_nproc_array : Upd sp_nproc_array := ltac:(mk_upd eta_spec sp_nproc_array).
#[global] Instance upd_sp_nproc : Upd sp_nproc := ltac:(mk_upd eta_spec sp_nproc).

(** [for (j = 0; j < t.end - t.start; j++) a[j] = *(buf + t.start + j)], [n] rounds to go. *)
Fixpoint copy_value (buf : list Z) (start : nat) (n j : nat) (a : list Z) : option (list Z) :=
  match n with
  | O => Some a
  | S n =>
      c ← buf !! (start + j)%nat;
      if Nat.ltb j (length a) then copy_value buf start n (S j) (<[j := c]> a) else None
  end.

Definition copy_tok (buf : list Z) (t : jsmntok) (a : list Z) : option (list Z) :=
  copy_value buf (Z.to_nat (t_start t)) (Z.to_nat (t_end t - t_start t)) 0 a.

(** The loop over the tokens, from token [i]. *)
Fixpoint spec_loop (k : nat) (buf : list Z) (t : list jsmntok) (r i : Z) : M spec unit :=
  match k with
  | O => λ _, Fuel
  | S k =>
      if negb (i <? r) then ret tt else
      x <- deref "t[i]" (t !! Z.to_nat i);
      let next := t !! Z.to_nat (i + 1) in
      b <- deref "jsoneq" (jsoneq buf x (cz INIT));
      if b =? 0 then
        v <- deref "t[i + 1]" next;
        s <- get;
        a <- deref "init" (copy_tok buf v (sp_init s));
        modify (λ s, s <| sp_init := a |>);;
        spec_loop k buf t r (i + 2)
      else
      b <- deref "jsoneq" (jsoneq buf x (cz FS));
      if b =? 0 then
        v <- deref "t[i + 1]" next;
        s <- get;
        a <- deref "fs" (copy_tok buf v (sp_fs s));
        modify (λ s, s <| sp_fs := a |>);;
        spec_loop k buf t r (i + 2)
      else
      b <- deref "jsoneq" (jsoneq buf x (cz NPROC_KEY));
      if b =? 0 then
        v <- deref "t[i + 1]" next;
        s <- get;
        a <- deref "nproc_array" (copy_tok buf v (sp_nproc_array s));
        n <- deref "atoi" (atoi a);
        modify (λ s, s <| sp_nproc_array := a |> <| sp_nproc := n |>);;
        spec_loop k buf t r (i + 2)
      else spec_loop k buf t r (i + 1)
  end.

(** dockv6's variables, the shared page and the mutexes that cv_signal was called with. *)
Record dock := Dock { d_spec : spec; d_page : list Z; d_signals : list Z }.
Definition eta_dock (r : dock) : dock := Dock (d_spec r) (d_page r) (d_signals r).
#[global] Instance upd_d_spec : Upd d_spec := ltac:(mk_upd eta_dock d_spec).
#[global] Instance upd_d_page : Upd d_page := ltac:(mk_upd eta_dock d_page).
#[global] Instance upd_d_signals : Upd d_signals := ltac:(mk_upd eta_dock d_signals).

(** strcpy to address [off] of the page. *)
Definition page_strcpy (off : nat) (s : list Z) : M dock unit :=
  d <- get;
  rest <- deref "strcpy" (strcpy (drop off (d_page d)) s);
  modify (λ d, d <| d_page := take off (d_page d) ++ rest |>).

(** The end of main: passing the specification to cm, given what shm_get and mutex_create
    return. *)
Definition pass_spec (shmem muxid : Z) : M dock unit :=
  if shmem <? 0 then undef "shmem" else
  d <- get;
  let sp := d_spec d in
  page_strcpy 0 (sp_init sp);;
  n <- deref "strlen" (strlen (sp_init sp));
  let off := (n + 1)%nat in
  page_strcpy off (sp_fs sp);;
  n <- deref "strlen" (strlen (sp_fs sp));
  let off := (off + n + 1)%nat in
  d <- get;
  _ <- deref "*shmem" (d_page d !! off);
  modify (λ d, d <| d_page ::= <[off := u8 (sp_nproc sp)]> |>);;
  modify (λ d, d <| d_signals ::= λ l, l ++ [muxid] |>).

(** main, given [argc], the descriptor open returns, what the calls of read deliver, the
    last result of read, what the arrays [buf] and [t] hold at the start, and the results of
    shm_get and mutex_create. *)
Definition dockv6 (argc jfd : Z) (reads : list (list Z)) (n : Z) (buf : list Z) (t : list jsmntok) (shmem muxid : Z) : M dock unit :=
  if negb (argc =? 3) then ret tt else
  if jfd <? 0 then ret tt else
  let buf := foldl (λ b c, list_inserts 0 c b) buf reads in
  if n <? 0 then ret tt else
  len <- deref "strlen" (strlen buf);
  match jsmn_parse buf len 128 (jsmn_init (Some t)) with
  | Ok r p =>
      t <- deref "t" (j_toks p);
      zoom d_spec (λ sp d, d <| d_spec := sp |>) (spec_loop (S (Z.to_nat r)) buf t r 1);;
      pass_spec shmem muxid
  | _ => undef "jsmn_parse"
  end.

(** ** cm *)

(** The calls of cm. *)
Inductive cmcall :=
  | Cmutex_lock (muxid : Z)
  | Ccv_wait (muxid : Z)
  | Cmutex_unlock (muxid : Z)
  | Ccreate (init fs : list Z) (nproc : Z)
  | Cexec (init : list Z)
  | Cwait
  | Cexit.

(** The calls of create_and_enter, given what cm_create_and_enter returns. *)
Definition create_and_enter (child : Z) (init fs : list Z) (nproc : Z) : list cmcall :=
  Ccreate init fs nproc :: if child =? 0 then [Cexec init; Cexit] else [Cwait].

(** cm's variables: [shmem_addr] as an offset in the page, and the two arrays. *)
Record cm := Cm { c_addr : nat; c_init : list Z; c_fs : list Z }.

(** A [char] as an [int]. *)
Definition s8 (c : Z) : Z := (c + 128) `mod` 256 - 128.

(** A round of the loop of main; [page] is the shared page after cv_wait returns. *)
Definition cm_round (muxid child : Z) (page : list Z) : M cm (list cmcall) :=
  c <- get;
  init <- deref "strcpy" (strcpy (c_init c) (drop (c_addr c) page));
  n <- deref "strlen" (strlen init);
  let addr := (c_addr c + n + 1)%nat in
  fs <- deref "strcpy" (strcpy (c_fs c) (drop addr page));
  n <- deref "strlen" (strlen fs);
  let addr := (addr + n + 1)%nat in
  x <- deref "*shmem_addr" (page !! addr);
  put (Cm addr init fs);;
  i <- deref "init" (cstr init);
  f <- deref "fs" (cstr fs);
  ret ([Cmutex_lock muxid; Ccv_wait muxid; Cmutex_unlock muxid] ++ create_and_enter child i f (s8 x)).
