(* ===== verification/Dockv6Thm.v ===== *)
(** * A container specification reaches the container (dockv6.c, jsmn.h, cm.c)

    The text of a JSON object goes through the tokenizer, the loop over its tokens, the
    shared page and the loop of cm, and the container is created with the values of the
    members init, fs and nproc. *)
From S2P Require Import Prelude CString Ulib Jsmn JsmnThm JsmnJson Dockv6.

Lemma list_lookup_mid (pre x suf : list Z) j : (j < length x)%nat → (pre ++ x ++ suf) !! (length pre + j)%nat = x !! j.
Proof. intros Hj. rewrite lookup_app_r by lia. rewrite Nat.add_sub' . by rewrite lookup_app_l. Qed.

Lemma copy_value_run buf pre x suf n j a :
  buf = pre ++ x ++ suf → (j + n = length x)%nat → (length x ≤ length a)%nat →
  copy_value buf (length pre) n j a = Some (list_inserts j (drop j x) a).
Proof.
  intros Hbuf. revert j a. induction n as [|n IH]; intros j a Hj Hl; cbn [copy_value].
  - by rewrite drop_ge by lia.
  - destruct (lookup_lt_is_Some_2 x j) as [c Hc]; [lia|]. rewrite Hbuf, list_lookup_mid by lia. rewrite Hc. cbn [mbind option_bind].
    rewrite (proj2 (Nat.ltb_lt _ _)) by lia. rewrite <-Hbuf, IH by (rewrite ?length_insert; lia).
    rewrite (drop_S x c j Hc). cbn [list_inserts]. f_equal. symmetry. apply list_insert_inserts_lt. lia.
Qed.

Lemma upto_app s suf : Forall (λ c, c ≠ 0) s → upto (length s) (s ++ suf) = s.
Proof. induction 1 as [|c s Hc _ IH]; [by destruct suf|]. cbn. rewrite (proj2 (Z.eqb_neq c 0)) by done. by rewrite IH. Qed.

Lemma strlen_nul (s suf : list Z) : Forall (λ c, c ≠ 0) s → strlen (s ++ 0 :: suf) = Some (length s).
Proof. induction 1 as [|c s Hc _ IH]; [done|]. cbn. rewrite (proj2 (Z.eqb_neq c 0)) by done. by rewrite IH. Qed.

Lemma jsoneq_run pre x suf ty sz m :
  Forall byte (x ++ suf) → Forall (λ c, c ≠ 0) x → Forall byte m → Forall (λ c, c ≠ 0) m →
  jsoneq (pre ++ x ++ suf) (Tok ty (Z.of_nat (length pre)) (Z.of_nat (length pre) + Z.of_nat (length x)) sz) (cz m) =
    Some (if bool_decide (ty = JSMN_STRING ∧ x = m) then 0 else -1).
Proof.
  intros Hb Hx Hbm Hm. unfold jsoneq. cbn [t_type t_start t_end]. case_bool_decide as Ht; cycle 1.
  { rewrite bool_decide_eq_false_2 by tauto. done. }
  assert (strlen (cz m) = Some (length m)) as -> by (by apply strlen_nul). cbn [mbind option_bind].
  replace (Z.of_nat (length pre) + Z.of_nat (length x) - Z.of_nat (length pre)) with (Z.of_nat (length x)) by lia.
  destruct (Z.eqb_spec (Z.of_nat (length m)) (Z.of_nat (length x))) as [El|Hne]; cycle 1.
  { rewrite bool_decide_eq_false_2; [done|]. by intros [_ ->]. }
  rewrite !Nat2Z.id, drop_app_length. destruct (strncmp_upto (length x) (x ++ suf) (cz m)) as (r & -> & Hr).
  { done. } { apply Forall_app. split; [done|]. by apply list.Forall_singleton. } { rewrite length_app. lia. } { unfold cz. rewrite length_app. lia. }
  cbn [mbind option_bind]. f_equal. apply Nat2Z.inj in El. rewrite upto_app in Hr by done. rewrite <-El in Hr at 1. unfold cz in Hr. rewrite upto_app in Hr by done.
  destruct (Z.eqb_spec r 0) as [E|E].
  - rewrite bool_decide_eq_true_2; [done|]. split; [done|]. by apply Hr.
  - rewrite bool_decide_eq_false_2; [done|]. intros [_ E']. by apply E, Hr.
Qed.

(** ** The members of the object *)

(** The characters of a string or primitive. *)
Fixpoint scalar (j : json) : option (list Z) :=
  match j with
  | JPrim s | JStr s => Some s
  | JSpace _ j _ => scalar j
  | _ => None
  end.

(** Its token. *)
Lemma scalar_tok v x p : json_ok v → scalar v = Some x →
  ∃ ty a b, toks p v = [Tok ty (Z.of_nat (p + length a)) (Z.of_nat (p + length a) + Z.of_nat (length x)) 0] ∧
    show v = a ++ x ++ b ∧ Forall (λ c, c ≠ 0) x.
Proof.
  revert p. induction v as [s|s|l w IH|l w IH|a v b IH] using json_nested_ind; intros p Hok Hx; cbn [scalar] in Hx; simplify_eq.
  - exists JSMN_PRIMITIVE, [], []. rewrite Nat.add_0_r, app_nil_r. split_and!; [done|done|]. destruct Hok as [_ Hs].
    eapply list.Forall_impl; [exact Hs|]. intros c [? _]. lia.
  - exists JSMN_STRING, [34], [34]. split_and!; [|done|].
    + cbn [toks length]. unfold string_tok. by rewrite Nat2Z.inj_add.
    + by apply str_body_nonzero.
  - destruct Hok as (_ & Hv & _). destruct (IH (p + length a)%nat Hv Hx) as (ty & a' & b' & Ht & Hs & Hz).
    exists ty, (a ++ a'), (b' ++ b). split_and!; [|cbn [show]; by rewrite Hs, <-!app_assoc|done].
    cbn [toks]. rewrite Ht, length_app. by rewrite !Nat.add_assoc.
Qed.

(** What a member does to the variables. *)
Definition set_member (k x : list Z) (sp : spec) : option spec :=
  if decide (k = INIT) then
    if decide (length x ≤ length (sp_init sp))%nat then Some (sp <| sp_init ::= list_inserts 0 x |>) else None
  else if decide (k = FS) then
    if decide (length x ≤ length (sp_fs sp))%nat then Some (sp <| sp_fs ::= list_inserts 0 x |>) else None
  else if decide (k = NPROC_KEY) then
    if decide (length x ≤ length (sp_nproc_array sp))%nat then
      n ← atoi (list_inserts 0 x (sp_nproc_array sp));
      Some (sp <| sp_nproc_array ::= list_inserts 0 x |> <| sp_nproc := n |>)
    else None
  else Some sp.

Definition known : list (list Z) := [INIT; FS; NPROC_KEY].

(** A member the loop reads as a member: a string or primitive, which under another key
    is not itself one of the three words. *)
Definition member_ok (kv : jkey * json) : Prop :=
  key_ok kv.1 ∧ json_ok kv.2 ∧ ∃ x, scalar kv.2 = Some x ∧ (k_name kv.1 ∈ known ∨ x ∉ known).

(** What the members do to the variables, in their order. *)
Fixpoint set_members (l : list (jkey * json)) (sp : spec) : option spec :=
  match l with
  | [] => Some sp
  | kv :: l => x ← scalar kv.2; sp ← set_member (k_name kv.1) x sp; set_members l sp
  end.

Abbreviation show_member := (λ kv : jkey * json, show_key kv.1 ++ show kv.2).
Abbreviation member_toks := (λ p (kv : jkey * json),
  string_tok (p + length (k_before kv.1)) (k_name kv.1) 1 :: toks (p + length (show_key kv.1)) kv.2).

Section loop.
  Context (buf : list Z) (Hbuf : Forall byte buf).

Lemma known_word m : m ∈ known → Forall byte m ∧ Forall (λ c, c ≠ 0) m.
Proof using. unfold known. rewrite !elem_of_cons, elem_of_nil. intros [->|[->|[->|[]]]]; split; by apply (bool_decide_unpack _). Qed.

(** A piece of the text compared with one of the words. *)
Lemma piece_eq pre x suf ty sz m :
  buf = pre ++ x ++ suf → Forall (λ c, c ≠ 0) x → m ∈ known →
  jsoneq buf (Tok ty (Z.of_nat (length pre)) (Z.of_nat (length pre) + Z.of_nat (length x)) sz) (cz m) =
    Some (if bool_decide (ty = JSMN_STRING ∧ x = m) then 0 else -1).
Proof using Hbuf.
  intros E Hx [Hm Hz]%known_word. rewrite E at 1. apply jsoneq_run; [|done..]. rewrite E in Hbuf. by apply Forall_app in Hbuf as [_ ?].
Qed.

Lemma key_eq k pre suf m :
  key_ok k → buf = pre ++ show_key k ++ suf → m ∈ known →
  jsoneq buf (string_tok (length pre + length (k_before k)) (k_name k) 1) (cz m) = Some (if bool_decide (k_name k = m) then 0 else -1).
Proof using Hbuf.
  intros (_ & Hn & _) E Hm.
  pose proof (piece_eq (pre ++ k_before k ++ [34]) (k_name k) ([34] ++ k_after k ++ [58] ++ suf) JSMN_STRING 1 m) as Hp.
  rewrite !length_app in Hp. cbn [length] in Hp. unfold string_tok.
  replace (Z.of_nat (length pre + (length (k_before k) + 1))) with (Z.of_nat (length pre + length (k_before k)) + 1) in Hp by lia.
  rewrite Hp; [|rewrite E; unfold show_key, quoted; by repeat (rewrite <-app_assoc; cbn [app])| |done].
  - f_equal. by rewrite (bool_decide_ext (JSMN_STRING = JSMN_STRING ∧ k_name k = m) (k_name k = m)) by tauto.
  - by apply str_body_nonzero.
Qed.

(** The value of a member, at [q]. *)
Lemma value_tok v x pre suf :
  json_ok v → scalar v = Some x → buf = pre ++ show v ++ suf →
  ∃ t, toks (length pre) v = [t] ∧
    (∀ a, (length x ≤ length a)%nat → copy_tok buf t a = Some (list_inserts 0 x a)) ∧
    (∀ m, m ∈ known → x ≠ m → jsoneq buf t (cz m) = Some (-1)).
Proof using Hbuf.
  intros Hv Hx E. destruct (scalar_tok v x (length pre) Hv Hx) as (ty & a & b & Ht & Hs & Hz).
  assert (buf = (pre ++ a) ++ x ++ (b ++ suf)) as E' by (rewrite E, Hs; by rewrite <-!app_assoc).
  eexists. split; [exact Ht|]. split.
  - intros arr Hl. unfold copy_tok. cbn [t_start t_end].
    replace (Z.to_nat (Z.of_nat (length pre + length a) + Z.of_nat (length x) - Z.of_nat (length pre + length a))) with (length x) by lia.
    rewrite Nat2Z.id, <-length_app. rewrite (copy_value_run _ _ _ _ _ _ _ E') by lia. done.
  - intros m Hm Hne. rewrite <-length_app, (piece_eq _ _ _ _ _ _ E' Hz Hm). rewrite bool_decide_eq_false_2; [done|]. by intros [_ ?].
Qed.

Lemma round_none k t r i x sp :
  i < r → t !! Z.to_nat i = Some x → (∀ m, m ∈ known → jsoneq buf x (cz m) = Some (-1)) →
  spec_loop (S k) buf t r i sp = spec_loop k buf t r (i + 1) sp.
Proof using.
  clear Hbuf. intros Hi Ht Hn. cbn [spec_loop]. rewrite (proj2 (Z.ltb_lt _ _)) by done. cbn [negb]. rewrite Ht. step. cbv zeta.
  rewrite !Hn by (unfold known; set_solver). by do 3 (step; cbn [Z.eqb]).
Qed.

Lemma member_round k t r i key v x pre suf sp sp' :
  i + 1 < r → 0 ≤ i → member_ok (key, v) → scalar v = Some x → buf = pre ++ show_member (key, v) ++ suf →
  (∀ j y, member_toks (length pre) (key, v) !! j = Some y → t !! Z.to_nat (i + Z.of_nat j) = Some y) →
  set_member (k_name key) x sp = Some sp' →
  ∃ k', (k ≤ k')%nat ∧ spec_loop (S (S k)) buf t r i sp = spec_loop k' buf t r (i + 2) sp'.
Proof using Hbuf.
  intros Hi Hi0 (Hk & Hv & x' & Hx' & Hkn) Hx E Ht Hset. cbn [fst snd] in *. assert (x' = x) as -> by congruence.
  assert (buf = pre ++ show_key key ++ (show v ++ suf)) as E1 by (by rewrite E, <-!app_assoc).
  assert (buf = (pre ++ show_key key) ++ show v ++ suf) as E2 by (by rewrite E1, <-!app_assoc).
  destruct (value_tok v x _ _ Hv Hx E2) as (tv & Htv & Hcopy & Hnone). rewrite length_app in Htv. rewrite Htv in Ht.
  pose proof (Ht O _ eq_refl) as H0. pose proof (Ht 1%nat _ eq_refl) as H1. rewrite Z.add_0_r in H0. change (Z.of_nat 1) with 1 in H1.
  pose proof (λ m, key_eq key pre _ m Hk E1) as Hkey.
  assert (INIT ∈ known ∧ FS ∈ known ∧ NPROC_KEY ∈ known) as (KI & KF & KN) by (unfold known; set_solver).
  unfold set_member in Hset. destruct (decide (k_name key ∈ known)) as [Hin|Hout].
  - exists (S k). split; [lia|]. cbn [spec_loop]. rewrite (proj2 (Z.ltb_lt i r)) by lia. cbn [negb]. rewrite H0. step. cbv zeta.
    rewrite (Hkey INIT), (Hkey FS), (Hkey NPROC_KEY), H1 by done.
    destruct (decide (k_name key = INIT)) as [EI|NI]; [|destruct (decide (k_name key = FS)) as [EF|NF]; [|destruct (decide (k_name key = NPROC_KEY)) as [EN|NN]]].
    + rewrite bool_decide_eq_true_2 by done. case_decide; [|done]. injection Hset as <-. do 3 (step; cbn [Z.eqb]). rewrite Hcopy by done. by do 2 step.
    + rewrite bool_decide_eq_false_2, bool_decide_eq_true_2 by done. case_decide; [|done]. injection Hset as <-. do 4 (step; cbn [Z.eqb]). rewrite Hcopy by done. by do 2 step.
    + rewrite !bool_decide_eq_false_2, bool_decide_eq_true_2 by done. case_decide; [|done]. do 5 (step; cbn [Z.eqb]). rewrite Hcopy by done. step.
      destruct (atoi (list_inserts 0 x (sp_nproc_array sp))) as [n|]; [|done]. injection Hset as <-. by do 2 step.
    + exfalso. unfold known in Hin. rewrite !elem_of_cons, elem_of_nil in Hin. tauto.
  - rewrite !decide_False in Hset by (intros EE; apply Hout; by rewrite EE). injection Hset as <-. exists k. split; [done|].
    assert (i < r) as Hir by lia. rewrite (round_none _ _ _ _ _ _ Hir H0); cycle 1.
    { intros m Hm. rewrite Hkey by done. rewrite bool_decide_eq_false_2; [done|]. intros EE. apply Hout. by rewrite EE. }
    destruct Hkn as [?|Hxk]; [done|]. rewrite (round_none _ _ _ _ _ _ Hi H1); cycle 1.
    { intros m Hm. apply Hnone; [done|]. by intros ->. }
    by replace (i + 1 + 1) with (i + 2) by lia.
Qed.

(** The whole loop. *)
Lemma spec_loop_run l pre suf sp sp' T0 T1 k :
  Forall member_ok l → buf = pre ++ commas show_member l ++ suf → set_members l sp = Some sp' → (2 * length l < k)%nat →
  spec_loop k buf (T0 ++ toks_list show_member member_toks (length pre) l ++ T1)
    (Z.of_nat (length T0 + 2 * length l)) (Z.of_nat (length T0)) sp = Ok tt sp'.
Proof using Hbuf.
  intros Hl. revert k pre sp T0. induction Hl as [|[key v] l Hkv Hl IH]; intros k pre sp T0 E Hset Hk.
  { injection Hset as <-. destruct k as [|k]; [simpl in Hk; lia|]. cbn [spec_loop length]. by rewrite Nat.mul_0_r, Nat.add_0_r, Z.ltb_irrefl. }
  cbn [set_members fst snd] in Hset. destruct (scalar v) as [x|] eqn:Hx; [|done]. cbn [mbind option_bind] in Hset.
  destruct (set_member (k_name key) x sp) as [sp1|] eqn:Hs1; [|done]. cbn [mbind option_bind] in Hset.
  assert (∃ suf', buf = pre ++ show_member (key, v) ++ suf' ∧ (l = [] ∨ suf' = 44 :: commas show_member l ++ suf)) as (suf' & E1 & Hsuf).
  { destruct l as [|y l]; [exists suf; split; [by rewrite E; cbn [commas]; rewrite app_nil_r|by left]|].
    eexists. split; [|by right]. rewrite E. change (commas show_member ((key, v) :: y :: l)) with (show_member (key, v) ++ 44 :: commas show_member (y :: l)).
    by rewrite <-!app_assoc. }
  destruct k as [|[|k]]; [simpl in Hk; lia..|]. destruct Hkv as (Hk1 & Hv1 & Hrest) eqn:Ekv.
  destruct (scalar_tok v x (length pre + length (show_key key)) Hv1 Hx) as (ty & a & b & Ht & _).
  cbn [toks_list]. set (p' := (length pre + length (show_member (key, v)) + 1)%nat).
  set (T' := T0 ++ member_toks (length pre) (key, v)). assert (length T' = length T0 + 2)%nat as HT' by (unfold T'; rewrite length_app; cbn [fst snd]; by rewrite Ht).
  destruct (member_round k (T0 ++ (member_toks (length pre) (key, v) ++ toks_list show_member member_toks p' l) ++ T1)
    (Z.of_nat (length T0 + 2 * length ((key, v) :: l))) (Z.of_nat (length T0)) key v x pre suf' sp sp1) as (k' & Hk' & ->);
    [simpl; lia|lia|done|done|done| |done|].
  { intros j y Hy. rewrite <-Nat2Z.inj_add, Nat2Z.id. rewrite lookup_app_r by lia. rewrite Nat.add_sub'.
    pose proof (lookup_lt_Some _ _ _ Hy). rewrite <-app_assoc, lookup_app_l by done. done. }
  replace (Z.of_nat (length T0) + 2) with (Z.of_nat (length T')) by lia.
  replace (length T0 + 2 * length ((key, v) :: l))%nat with (length T' + 2 * length l)%nat by (simpl; lia).
  rewrite <-app_assoc, app_assoc. fold T'. destruct Hsuf as [->|Es].
  - cbn [set_members] in Hset. injection Hset as <-. destruct k' as [|k']; [simpl in *; lia|]. cbn [spec_loop length].
    by rewrite Nat.mul_0_r, Nat.add_0_r, Z.ltb_irrefl.
  - assert (length (pre ++ show_member (key, v) ++ [44]) = p') as Hp' by (rewrite !length_app; unfold p'; cbn [fst snd length]; rewrite ?length_app; lia).
    rewrite <-Hp'. apply IH; [|done|simpl in *; lia]. rewrite E1, Es. by rewrite <-!app_assoc.
Qed.
End loop.

(** ** The values of the members *)

Fixpoint assoc (m : list Z) (l : list (jkey * json)) : option (list Z) :=
  match l with
  | [] => None
  | kv :: l => if decide (k_name kv.1 = m) then scalar kv.2 else assoc m l
  end.

Abbreviation names_of l := ((λ kv : jkey * json, k_name kv.1) <$> l).

Lemma assoc_none m l : m ∉ names_of l → assoc m l = None.
Proof. induction l as [|kv l IH]; [done|]. rewrite fmap_cons, not_elem_of_cons. intros [Hne Hm]. cbn. rewrite decide_False by done. by apply IH. Qed.

(** An array after the member [m] has been copied to it. *)
Definition copied (m : list Z) (l : list (jkey * json)) (a : list Z) : list Z :=
  match assoc m l with Some x => list_inserts 0 x a | None => a end.

(** No value is longer than its array, and the number can be read. *)
Definition fit (l : list (jkey * json)) (sp : spec) (n : Z) : Prop :=
  (∀ x, assoc INIT l = Some x → (length x ≤ length (sp_init sp))%nat) ∧
  (∀ x, assoc FS l = Some x → (length x ≤ length (sp_fs sp))%nat) ∧
  (∀ x, assoc NPROC_KEY l = Some x → (length x ≤ length (sp_nproc_array sp))%nat ∧ atoi (list_inserts 0 x (sp_nproc_array sp)) = Some n).

Lemma set_members_run l sp n :
  Forall (λ kv, is_Some (scalar kv.2)) l → NoDup (names_of l) → fit l sp n →
  set_members l sp = Some (Spec (copied INIT l (sp_init sp)) (copied FS l (sp_fs sp)) (copied NPROC_KEY l (sp_nproc_array sp))
    (if assoc NPROC_KEY l is Some _ then n else sp_nproc sp)).
Proof.
  intros Hl. revert sp. induction Hl as [|[k v] l [x Hx] _ IH]; intros sp Hnd (F1 & F2 & F3); [by destruct sp|].
  rewrite fmap_cons, list.NoDup_cons in Hnd. destruct Hnd as [Hk Hnd]. cbn [fst snd] in *. cbn [set_members fst snd]. rewrite Hx. cbn [mbind option_bind].
  assert (∀ m, k_name k = m → assoc m ((k, v) :: l) = Some x) as Hat by (intros m Hm; cbn; by rewrite decide_True).
  assert (∀ m, k_name k ≠ m → assoc m ((k, v) :: l) = assoc m l) as Hoth by (intros m Hm; cbn; by rewrite decide_False).
  assert (∀ m, k_name k = m → assoc m l = None) as Hno by (intros m <-; by apply assoc_none).
  assert (INIT ≠ FS ∧ INIT ≠ NPROC_KEY ∧ FS ≠ NPROC_KEY) as (N1 & N2 & N3) by done. unfold set_member, copied, fit in *.
  destruct (decide (k_name k = INIT)) as [EI|NI]; [|destruct (decide (k_name k = FS)) as [EF|NF]; [|destruct (decide (k_name k = NPROC_KEY)) as [EN|NN]]].
  - rewrite decide_True by auto. cbn [mbind option_bind]. rewrite (Hat INIT), (Hoth FS), (Hoth NPROC_KEY) in * by congruence.
    rewrite IH; [|done|rewrite (Hno INIT) by done; split_and!; [done|exact F2|exact F3]]. by rewrite (Hno INIT).
  - rewrite decide_True by auto. cbn [mbind option_bind]. rewrite (Hat FS), (Hoth INIT), (Hoth NPROC_KEY) in * by congruence.
    rewrite IH; [|done|rewrite (Hno FS) by done; split_and!; [exact F1|done|exact F3]]. by rewrite (Hno FS).
  - rewrite (Hat NPROC_KEY), (Hoth INIT), (Hoth FS) in * by congruence. destruct (F3 x eq_refl) as [Hlen Hat3].
    rewrite decide_True by done. rewrite Hat3. cbn [mbind option_bind].
    rewrite IH; [|done|rewrite (Hno NPROC_KEY) by done; split_and!; [exact F1|exact F2|done]]. by rewrite (Hno NPROC_KEY).
  - cbn [mbind option_bind]. rewrite (Hoth INIT), (Hoth FS), (Hoth NPROC_KEY) in * by done. by apply IH.
Qed.

(** ** Through the shared page *)

Abbreviation nonzero := (Forall (λ c : Z, c ≠ 0)).

Lemma strcpy_run s x r : nonzero x → (length x < length s)%nat → strcpy s (x ++ 0 :: r) = Some (x ++ 0 :: drop (S (length x)) s).
Proof.
  intros Hx. revert s. induction Hx as [|c x Hc _ IH]; intros [|y s] Hl; cbn [length] in Hl; try lia; [done|].
  cbn. rewrite (proj2 (Z.eqb_neq c 0)) by done. by rewrite IH by lia.
Qed.

Lemma cstr_nul x r : nonzero x → cstr (x ++ 0 :: r) = Some x.
Proof. induction 1 as [|c x Hc _ IH]; [done|]. cbn. rewrite (proj2 (Z.eqb_neq c 0)) by done. by rewrite IH. Qed.

Lemma inserts_front (x a : list Z) : (length x ≤ length a)%nat → list_inserts 0 x a = x ++ drop (length x) a.
Proof.
  intros Hl. apply list_eq. intros i. destruct (decide (i < length x)%nat).
  - rewrite list_lookup_inserts by lia. rewrite Nat.sub_0_r. by rewrite lookup_app_l.
  - rewrite list_lookup_inserts_ge by lia. rewrite lookup_app_r, lookup_drop by lia. f_equal. lia.
Qed.

Lemma inserts_nul (x a : list Z) : a !! length x = Some 0 → list_inserts 0 x a = x ++ 0 :: drop (S (length x)) a.
Proof. intros H0. pose proof (lookup_lt_Some _ _ _ H0). rewrite inserts_front by lia. by rewrite (drop_S a 0 (length x)). Qed.

Lemma split_nul (x r : list Z) : drop (S (length x)) (x ++ 0 :: r) = r ∧ take (S (length x)) (x ++ 0 :: r) = x ++ [0].
Proof.
  rewrite cons_middle, app_assoc. split; [apply drop_app_length'|apply take_app_length']; rewrite length_app; simpl; lia.
Qed.

(** The page as dockv6 leaves it. *)
Definition message (x y : list Z) (n : Z) (rest : list Z) : list Z := x ++ 0 :: y ++ 0 :: u8 n :: rest.

Lemma page_strcpy_run off s rest sp page sig :
  strcpy (drop off page) s = Some rest → page_strcpy off s (Dock sp page sig) = Ok tt (Dock sp (take off page ++ rest) sig).
Proof. intros E. unfold page_strcpy. step. cbn [d_page]. rewrite E. by step. Qed.

Lemma pass_spec_run x y ri rf arr n page sig shmem muxid :
  0 ≤ shmem → nonzero x → nonzero y → (length x + length y + 3 ≤ length page)%nat →
  ∃ rest, pass_spec shmem muxid (Dock (Spec (x ++ 0 :: ri) (y ++ 0 :: rf) arr n) page sig) =
    Ok tt (Dock (Spec (x ++ 0 :: ri) (y ++ 0 :: rf) arr n) (message x y n rest) (sig ++ [muxid])).
Proof.
  intros Hs Hx Hy Hl. set (sp := Spec _ _ _ _). unfold pass_spec. rewrite (proj2 (Z.ltb_ge shmem 0)) by done. step. cbn [d_spec sp sp_init sp_fs sp_nproc].
  assert (strcpy (drop 0 page) (x ++ 0 :: ri) = Some (x ++ 0 :: drop (S (length x)) page)) as E0 by (apply strcpy_run; [done|cbn [drop]; lia]).
  rewrite (bind_ok _ _ _ _ _ (page_strcpy_run 0 _ _ sp page sig E0)).
  rewrite strlen_nul by done. step. cbn [take app].
  set (p1 := x ++ 0 :: drop (S (length x)) page). replace (length x + 1)%nat with (S (length x)) by lia.
  destruct (split_nul x (drop (S (length x)) page)) as [Ed Et]. fold p1 in Ed, Et.
  pose proof (strcpy_run (drop (S (length x)) page) y rf Hy) as E1. rewrite length_drop in E1. rewrite <-Ed in E1 at 1.
  rewrite (bind_ok _ _ _ _ _ (page_strcpy_run _ _ _ sp p1 sig (E1 ltac:(lia)))).
  rewrite strlen_nul by done. step. step. cbn [d_page]. rewrite Et.
  destruct (drop (S (length y)) (drop (S (length x)) page)) as [|c rest] eqn:Er.
  { apply (f_equal length) in Er. rewrite !length_drop in Er. simpl in Er. lia. }
  exists rest. assert (((x ++ [0]) ++ y ++ 0 :: c :: rest) = (x ++ 0 :: y ++ [0]) ++ c :: rest) as Ep by (by rewrite <-!app_assoc; cbn [app]; rewrite <-app_assoc).
  assert (S (length x) + length y + 1 = length (x ++ 0%Z :: y ++ [0%Z]))%nat as El by (rewrite length_app; cbn [length]; rewrite length_app; simpl; lia).
  rewrite Ep, El, list_lookup_middle by done. step. step. unfold modify. f_equal.
  assert (<[length (x ++ 0 :: y ++ [0]) := u8 n]> ((x ++ 0 :: y ++ [0]) ++ c :: rest) = message x y n rest) as Em.
  { rewrite insert_app_r_alt, Nat.sub_diag by done. cbn. unfold message. rewrite <-app_assoc. cbn [app]. by rewrite <-app_assoc. }
  exact (f_equal (λ p, Dock sp p (sig ++ [muxid])) Em).
Qed.

Lemma cm_round_run muxid child x y n rest ci cf :
  nonzero x → nonzero y → (length x < length ci)%nat → (length y < length cf)%nat → 0 ≤ n < 128 →
  ∃ ci' cf', cm_round muxid child (message x y n rest) (Cm 0 ci cf) =
    Ok ([Cmutex_lock muxid; Ccv_wait muxid; Cmutex_unlock muxid] ++ create_and_enter child x y n) (Cm (length x + length y + 2) ci' cf').
Proof.
  intros Hx Hy Hci Hcf Hn. unfold cm_round. step. cbn [c_addr c_init c_fs]. rewrite drop_0. unfold message at 1. rewrite strcpy_run by done. step.
  rewrite strlen_nul by done. step.
  assert (drop (0 + length x + 1) (message x y n rest) = y ++ 0 :: u8 n :: rest) as ->.
  { replace (0 + length x + 1)%nat with (S (length x)) by lia. apply split_nul. }
  rewrite strcpy_run by done. step. rewrite strlen_nul by done. step.
  assert (message x y n rest !! (0 + length x + 1 + length y + 1)%nat = Some (u8 n)) as ->.
  { assert (message x y n rest = (x ++ 0 :: y ++ [0]) ++ u8 n :: rest) as -> by (unfold message; rewrite <-app_assoc; cbn [app]; by rewrite <-app_assoc).
    apply list_lookup_middle. rewrite length_app. cbn [length]. rewrite length_app. simpl. lia. }
  do 2 step. rewrite !cstr_nul by done. do 2 step. do 2 eexists. unfold ret. f_equal; [|f_equal; lia]. do 2 f_equal. rewrite u8_small by lia. unfold s8. rewrite Z.mod_small by lia. lia.
Qed.

Lemma commas_nonzero {A} (f : A → list Z) l : Forall (λ x, nonzero (f x)) l → nonzero (commas f l).
Proof.
  induction 1 as [|x l Hx Hl IH]; [by constructor|]. cbn [commas]. apply Forall_app. split; [done|]. destruct l; [by constructor|]. by constructor.
Qed.

Lemma spaces_nonzero w : spaces w → nonzero w.
Proof. intros Hw. eapply list.Forall_impl; [exact Hw|]. intros c Hc. set_solver. Qed.

Lemma show_nonzero j : json_ok j → nonzero (show j).
Proof.
  induction j as [s|s|l w IH|l w IH|a j b IH] using json_nested_ind; intros Hok; cbn [show].
  - destruct Hok as [_ Hs]. eapply list.Forall_impl; [exact Hs|]. intros c [? _]. lia.
  - constructor; [done|]. apply Forall_app. split; [|by repeat constructor]. by apply str_body_nonzero.
  - destruct Hok as [Hl Hw]. constructor; [done|]. rewrite !Forall_app. split_and!; [|by apply spaces_nonzero|by repeat constructor].
    apply commas_nonzero. induction IH as [|x l Hx _ IHl]; [by constructor|]. destruct Hl. constructor; auto.
  - destruct Hok as [Hl Hw]. constructor; [done|]. rewrite !Forall_app. split_and!; [|by apply spaces_nonzero|by repeat constructor].
    apply commas_nonzero. induction IH as [|[k v] l Hx _ IHl]; [by constructor|]. destruct Hl as [[(K1 & K2 & K3) Hv] Hl]. constructor; [|auto].
    unfold show_key, quoted. rewrite !Forall_app, list.Forall_cons, Forall_app. cbn [fst snd] in *.
    split_and!; try (by apply spaces_nonzero); try done; try (by repeat constructor); [|by apply Hx].
    by apply str_body_nonzero.
  - destruct Hok as (Ha & Hj & Hb). rewrite !Forall_app. split_and!; [by apply spaces_nonzero|by apply IH|by apply spaces_nonzero].
Qed.

(** ** From the file to the container *)

(** A specification: an object with white space around it. *)
Definition config (a : list Z) (l : list (jkey * json)) (w b : list Z) : json := JSpace a (JObj l w) b.

Lemma config_ok a l w b : spaces a → spaces w → spaces b → Forall member_ok l → json_ok (config a l w b).
Proof.
  intros Ha Hw Hb Hl. split; [done|]. split; [|done]. split; [|done]. induction Hl as [|kv l (Hk & Hv & _) _ IH]; [done|]. by split.
Qed.

Lemma config_toks a l w b : Forall member_ok l →
  ∃ t, toks 0 (config a l w b) = t :: toks_list show_member member_toks (length a + 1) l ∧
    length (toks_list show_member member_toks (length a + 1) l) = (2 * length l)%nat.
Proof.
  intros Hl. eexists. split; [done|]. generalize (length a + 1)%nat. induction Hl as [|[k v] l (_ & Hv & x & Hx & _) _ IH]; intros p; [done|].
  cbn [toks_list]. rewrite length_app, IH. cbn [fst snd length] in *. destruct (scalar_tok v x (p + length (show_key k)) Hv Hx) as (ty & a' & b' & -> & _).
  simpl. lia.
Qed.

(** The memory dockv6 finds: the arrays on its stack have their sizes, and a NUL where
    the text ends that is put there; the page has room. *)
Record stack_ok (text x y d : list Z) (buf : list Z) (t : list jsmntok) (sp : spec) (page : list Z) : Prop := {
  sk_buf : length buf = 512%nat;
  sk_text : buf !! length text = Some 0;
  sk_byte : Forall byte buf;
  sk_toks : length t = 128%nat;
  sk_init : sp_init sp !! length x = Some 0;
  sk_fs : sp_fs sp !! length y = Some 0;
  sk_nproc : sp_nproc_array sp !! length d = Some 0;
  sk_page : (length x + length y + 3 ≤ length page)%nat;
}.

(** The text of the specification in the buffer. *)
Lemma text_in_buf text x y d buf t sp page : stack_ok text x y d buf t sp page → nonzero text → Forall byte text →
  ∃ rest, list_inserts 0 text buf = text ++ 0 :: rest ∧ strlen (list_inserts 0 text buf) = Some (length text) ∧ Forall byte (list_inserts 0 text buf).
Proof.
  intros Hsk Hz Hb. rewrite (inserts_nul _ _ (sk_text _ _ _ _ _ _ _ _ Hsk)). eexists. split; [done|]. split; [by apply strlen_nul|].
  apply Forall_app. split; [done|]. constructor; [done|]. apply Forall_drop, Hsk.
Qed.

Lemma copied_nul m l x a : assoc m l = Some x → a !! length x = Some 0 → copied m l a = x ++ 0 :: drop (S (length x)) a.
Proof. intros Hm H0. unfold copied. rewrite Hm. by apply inserts_nul. Qed.

Lemma assoc_nonzero m l x : Forall member_ok l → assoc m l = Some x → nonzero x.
Proof.
  induction 1 as [|[k v] l (_ & Hv & y & Hy & _) _ IH]; [done|]. cbn. case_decide; [|done]. intros Hx.
  by destruct (scalar_tok v x 0 Hv Hx) as (? & ? & ? & _ & _ & ?).
Qed.

Lemma fit_run l sp x y d n text buf t page :
  assoc INIT l = Some x → assoc FS l = Some y → assoc NPROC_KEY l = Some d → printint n 10 true = Some d → 0 ≤ n < 128 →
  stack_ok text x y d buf t sp page → fit l sp n.
Proof.
  intros Hx Hy Hd Hn Hr [_ _ _ _ S1 S2 S3 _]. unfold fit. rewrite Hx, Hy, Hd.
  pose proof (lookup_lt_Some _ _ _ S1). pose proof (lookup_lt_Some _ _ _ S2). pose proof (lookup_lt_Some _ _ _ S3).
  split_and!; intros ? [= <-]; [lia|lia|]. split; [lia|]. rewrite (inserts_nul d _ S3).
  destruct (atoi_printint n (0 :: drop (S (length d)) (sp_nproc_array sp))) as (ds & Hds & Hat & _); [lia|by intros ? [= <-]; left|done|]. congruence.
Qed.

(** The part of dockv6 before the page is written. *)
Lemma dockv6_reads a l w b x y d n buf t sp page jfd shmem muxid :
  let text := show (config a l w b) in
  spaces a → spaces w → spaces b → Forall member_ok l → NoDup (names_of l) → Forall byte text → (length l ≤ 63)%nat →
  assoc INIT l = Some x → assoc FS l = Some y → assoc NPROC_KEY l = Some d → printint n 10 true = Some d → 0 ≤ n < 128 →
  stack_ok text x y d buf t sp page → 0 ≤ jfd →
  ∃ ri rf arr, dockv6 3 jfd [text] 0 buf t shmem muxid (Dock sp page []) = pass_spec shmem muxid (Dock (Spec (x ++ 0 :: ri) (y ++ 0 :: rf) arr n) page []).
Proof.
  intros text Ha Hw Hb Hl Hnd Hby Hlen Hx Hy Hd Hn Hr Hsk Hj. pose proof (config_ok a l w b Ha Hw Hb Hl) as Hok.
  destruct (text_in_buf _ _ _ _ _ _ _ _ Hsk (show_nonzero _ Hok) Hby) as (rest & Ebuf & Hstr & Hbuf).
  destruct (config_toks a l w b Hl) as (t0 & Htk & Hln). set (T := toks_list show_member member_toks (length a + 1) l) in *.
  destruct (json_parsed (config a l w b) (0 :: rest) 128 t Hok) as (u & Hp).
  { rewrite Htk, (sk_toks _ _ _ _ _ _ _ _ Hsk). simpl. lia. }
  assert (set_members l sp = Some (Spec (x ++ 0 :: drop (S (length x)) (sp_init sp)) (y ++ 0 :: drop (S (length y)) (sp_fs sp))
    (copied NPROC_KEY l (sp_nproc_array sp)) n)) as Hset.
  { rewrite (set_members_run l sp n), Hd, (copied_nul _ _ _ _ Hx), (copied_nul _ _ _ _ Hy); [done|apply Hsk|apply Hsk| |done|by eapply fit_run].
    eapply list.Forall_impl; [exact Hl|]. intros kv (_ & _ & z & -> & _). done. }
  eexists _, _, _. unfold dockv6. rewrite (proj2 (Z.ltb_ge jfd 0)) by done. cbn [Z.eqb Z.ltb negb Pos.eqb Z.compare foldl].
  rewrite Hstr. step. rewrite Ebuf. fold text in Hp. rewrite Hp. cbn [j_toks]. step. rewrite Htk.
  assert (text ++ 0 :: rest = (a ++ [123]) ++ commas show_member l ++ w ++ [125] ++ b ++ 0 :: rest) as Et.
  { unfold text, config. cbn [show]. rewrite <-!app_assoc. cbn [app]. by rewrite <-!app_assoc. }
  pose proof (spec_loop_run (text ++ 0 :: rest) ltac:(by rewrite <-Ebuf) l (a ++ [123]) (w ++ [125] ++ b ++ 0 :: rest) sp _ [t0]
    (drop (length (t0 :: T)) t) (S (Z.to_nat (Z.of_nat (length (t0 :: T))))) Hl Et Hset) as Hloop.
  rewrite length_app in Hloop. cbn [length] in Hloop. fold T in Hloop.
  specialize (Hloop ltac:(lia)). replace (Z.of_nat (1 + 2 * length l)) with (Z.of_nat (S (length T))) in Hloop by lia.
  erewrite bind_ok; [|exact (f_equal (zoom_outcome _ _ _) Hloop)]. done.
Qed.

(** cm does not set [shmem_addr] back: in the round after one of a specification with strings
    of the same lengths it takes the number of processes for the name of the program. *)
Theorem second_round_misreads muxid child x y n rest ci cf x' y' n' rest' :
  nonzero x → nonzero y → (length x < length ci)%nat → (length y < length cf)%nat → 0 ≤ n < 128 → 0 < n' < 128 →
  length x' = length x → length y' = length y →
  ∃ r c, cm_round muxid child (message x y n rest) (Cm 0 ci cf) = Ok r c ∧
    ((2 ≤ length (c_init c))%nat → (1 ≤ length (c_fs c))%nat →
     ∃ c', cm_round muxid child (message x' y' n' (0 :: 0 :: 0 :: rest')) c =
       Ok ([Cmutex_lock muxid; Ccv_wait muxid; Cmutex_unlock muxid] ++ create_and_enter child [n'] [] 0) c').
Proof.
  intros Hx Hy Hci Hcf Hn Hn' Ex Ey. destruct (cm_round_run muxid child x y n rest ci cf) as (ci' & cf' & E); [done..|].
  exists ([Cmutex_lock muxid; Ccv_wait muxid; Cmutex_unlock muxid] ++ create_and_enter child x y n), (Cm (length x + length y + 2) ci' cf').
  split; [done|]. cbn [c_init c_fs]. intros L1 L2.
  set (pre := x' ++ 0 :: y' ++ [0]). set (m := message _ _ _ _).
  assert (m = pre ++ n' :: 0 :: 0 :: 0 :: rest') as Em.
  { unfold m, message, pre. rewrite u8_small by lia. rewrite <-app_assoc. cbn [app]. by rewrite <-app_assoc. }
  assert (length x + length y + 2 = length pre)%nat as Ep by (unfold pre; rewrite length_app; cbn [length]; rewrite length_app; simpl; lia).
  unfold cm_round. step. cbn [c_addr c_init c_fs]. rewrite Ep, Em, drop_app_length.
  assert (nonzero [n']) as Hz by (constructor; [lia|constructor]).
  change (n' :: 0 :: 0 :: 0 :: rest') with ([n'] ++ 0 :: 0 :: 0 :: rest') at 1. rewrite strcpy_run by (done || simpl; lia). step. rewrite strlen_nul by done. step.
  replace (length pre + length [n'] + 1)%nat with (length (pre ++ [n'; 0%Z])) by (rewrite length_app; simpl; lia).
  assert (pre ++ n' :: 0 :: 0 :: 0 :: rest' = (pre ++ [n'; 0]) ++ 0 :: 0 :: rest') as -> by (by rewrite <-app_assoc).
  rewrite drop_app_length. change (0 :: 0 :: rest') with ([] ++ 0 :: 0 :: rest') at 1. rewrite strcpy_run by (constructor || simpl; lia). step.
  rewrite strlen_nul by constructor. step. rewrite lookup_app_r by (simpl; lia).
  replace (length (pre ++ [n'; 0%Z]) + length ([] : list Z) + 1 - length (pre ++ [n'; 0%Z]))%nat with 1%nat by (simpl; lia). cbn [lookup list_lookup].
  do 2 step. rewrite !cstr_nul by (done || constructor). do 2 step. by eexists.
Qed.

