(* ===== verification/Spinlock.v ===== *)
(** * Spinlocks on several processors (spinlock.c)

    The rest of the kernel is modelled on one processor, where a spinlock is held or not
    (Sched.v).  Here are the routines themselves, on any number of processors that take
    and release one lock: every access to the shared struct is a step of its own, and the
    steps of the processors interleave.  The lock excludes, interrupts are off while it is
    wanted or held and are then as they were before, and no check of the code fails. *)
From S2P Require Import Prelude Mem Mmu.

(** struct cpu's fields and the interrupt flag of the processor. *)
Record cpu := Cpu { c_ncli : Z; c_intena : bool; c_if : bool }.

Definition pushcli (c : cpu) : cpu :=
  let eflags := c_if c in
  Cpu (s32 (c_ncli c + 1)) (if c_ncli c =? 0 then eflags else c_intena c) false.

(** [None] is a panic. *)
Definition popcli (c : cpu) : option cpu :=
  if c_if c then None else
  let n := s32 (c_ncli c - 1) in
  if n <? 0 then None else
  Some (Cpu n (c_intena c) (if (n =? 0) && c_intena c then true else c_if c)).

(** Pairs of pushcli and popcli nest. *)
Fixpoint pushes (n : nat) (c : cpu) : cpu := match n with O => c | S n => pushes n (pushcli c) end.
Fixpoint pops (n : nat) (c : cpu) : option cpu := match n with O => Some c | S n => c ← popcli c; pops n c end.

Lemma pops_app n m c : pops (n + m) c = c' ← pops n c; pops m c'.
Proof. revert c. induction n as [|n IH]; intros c; [done|]. cbn. destruct (popcli c); cbn; [apply IH|done]. Qed.

Lemma pushes_run n c : 0 ≤ c_ncli c → c_ncli c + Z.of_nat n < 2 ^ 31 → (0 < n)%nat →
  pushes n c = Cpu (c_ncli c + Z.of_nat n) (if c_ncli c =? 0 then c_if c else c_intena c) false.
Proof.
  revert c. induction n as [|n IH]; intros c H0 H1 Hn; [lia|]. cbn [pushes]. destruct n as [|n].
  - cbn [pushes]. unfold pushcli. by rewrite s32_small by lia.
  - rewrite IH; unfold pushcli; cbn [c_ncli c_if c_intena]; try rewrite s32_small by lia; [|lia..].
    rewrite (proj2 (Z.eqb_neq (c_ncli c + 1) 0)) by lia. f_equal. lia.
Qed.

Lemma pops_run n m b : 0 ≤ m → m + Z.of_nat n < 2 ^ 31 → (0 < n)%nat → pops n (Cpu (m + Z.of_nat n) b false) = Some (Cpu m b ((m =? 0) && b)).
Proof.
  intros H0 H1. induction n as [|n IH]; intros Hn; [lia|]. cbn [pops]. unfold popcli. cbn [c_if c_ncli c_intena].
  replace (m + Z.of_nat (S n) - 1) with (m + Z.of_nat n) by lia. rewrite s32_small by lia. rewrite (proj2 (Z.ltb_ge _ 0)) by lia. cbn [mbind option_bind].
  destruct n as [|n].
  - cbn [pops]. rewrite Z.add_0_r. by destruct (m =? 0), b.
  - rewrite (proj2 (Z.eqb_neq (m + Z.of_nat (S n)) 0)) by lia. cbn [andb]. apply IH; lia.
Qed.

(** ** The call stack *)

(** The loop, [n] rounds to go: pcs[i] and the ones after. *)
Fixpoint callerpcs (n : nat) (m : mem) (ebp : Z) : list Z :=
  match n with
  | O => []
  | S k =>
      if (ebp =? 0) || (ebp <? KERNBASE) || (ebp =? 0xffffffff) then replicate n 0
      else ld32 m (u32 (ebp + 4)) :: callerpcs k m (ld32 m ebp)
  end.

Definition getcallerpcs (m : mem) (v : Z) : list Z := callerpcs 10 m (u32 (v - 8)).

(** A chain of frames from [ebp] on, given by their addresses and return addresses. *)
Fixpoint frames (m : mem) (ebp : Z) (fs : list (Z * Z)) : Prop :=
  match fs with
  | [] => ebp = 0
  | (a, pc) :: fs => ebp = a ∧ KERNBASE ≤ a < 2 ^ 32 - 8 ∧ ld32 m (a + 4) = pc ∧ frames m (ld32 m a) fs
  end.

Lemma callerpcs_frames n m ebp fs : frames m ebp fs → callerpcs n m ebp = resize n 0 fs.*2.
Proof.
  revert ebp fs. induction n as [|n IH]; intros ebp fs Hf; [by rewrite resize_0|]. cbn [callerpcs]. destruct fs as [|[a pc] fs].
  - cbn in Hf. subst ebp. cbn [Z.eqb orb fmap list_fmap]. by rewrite resize_nil.
  - destruct Hf as (-> & Ha & Hpc & Hf). change KERNBASE with 2147483648 in *.
    rewrite (proj2 (Z.eqb_neq a 0)), (proj2 (Z.ltb_ge a _)), (proj2 (Z.eqb_neq a 0xffffffff)) by lia. cbn [orb].
    rewrite u32_small by lia. rewrite Hpc, (IH _ _ Hf). done.
Qed.

(** getcallerpcs records the return addresses of the innermost ten frames, then zeros. *)
Theorem getcallerpcs_stack m v fs : 8 ≤ v < 2 ^ 32 → frames m (v - 8) fs → getcallerpcs m v = resize 10 0 fs.*2.
Proof. intros Hv Hf. unfold getcallerpcs. rewrite u32_small by lia. by apply callerpcs_frames. Qed.

(** ** The lock *)

Record spinlock := Spin { lk_locked : Z; lk_cpu : option nat; lk_pcs : list Z }.

(** Where a processor is: outside; in acquire, before each access to the lock; in the
    critical section; in release, before each access; or in panic. *)
Inductive pc := Pout | Aholding | Aholding_cpu | Axchg | Acpu | Apcs | Pin | Rholding | Rholding_cpu | Rpcs | Rcpu | Rlocked | Rpopcli | Ppanic.
#[global] Instance pc_eq_dec : EqDecision pc.
Proof. solve_decision. Defined.

Record smp := Smp { m_lock : spinlock; m_cpus : list (pc * cpu) }.

(** The next step of processor [i]: of acquire when it is outside, of release when it is
    in the critical section; [pcs i] is what getcallerpcs finds on its stack. *)
Definition cpu_step (pcs : nat → list Z) (i : nat) (s : smp) : option smp :=
  x ← m_cpus s !! i;
  let '(p, c) := x in
  let lk := m_lock s in
  let go lk p c := Some (Smp lk (<[i := (p, c)]> (m_cpus s))) in
  let stop := go lk Ppanic c in
  match p with
  | Pout => go lk Aholding (pushcli c)
  | Aholding => go lk (if lk_locked lk =? 0 then Axchg else Aholding_cpu) c
  | Aholding_cpu => if bool_decide (lk_cpu lk = Some i) then stop else go lk Axchg c
  | Axchg => go (Spin 1 (lk_cpu lk) (lk_pcs lk)) (if lk_locked lk =? 0 then Acpu else Axchg) c
  | Acpu => go (Spin (lk_locked lk) (Some i) (lk_pcs lk)) Apcs c
  | Apcs => go (Spin (lk_locked lk) (lk_cpu lk) (pcs i)) Pin c
  | Pin => go lk Rholding c
  | Rholding => if lk_locked lk =? 0 then stop else go lk Rholding_cpu c
  | Rholding_cpu => if bool_decide (lk_cpu lk = Some i) then go lk Rpcs c else stop
  | Rpcs => go (Spin (lk_locked lk) (lk_cpu lk) (<[0%nat := 0]> (lk_pcs lk))) Rcpu c
  | Rcpu => go (Spin (lk_locked lk) None (lk_pcs lk)) Rlocked c
  | Rlocked => go (Spin 0 (lk_cpu lk) (lk_pcs lk)) Rpopcli c
  | Rpopcli => match popcli c with Some c => go lk Pout c | None => stop end
  | Ppanic => None
  end.

Definition initlock (pcs : list Z) : spinlock := Spin 0 None pcs.

(** The processors start outside, with interrupts on or off; initlock has run. *)
Definition smp0 (ifs : list bool) : smp := Smp (initlock (replicate 10 0)) ((λ b, (Pout, Cpu 0 false b)) <$> ifs).

Inductive reach (pcs : nat → list Z) (ifs : list bool) : smp → Prop :=
  | reach_start : reach pcs ifs (smp0 ifs)
  | reach_step s i s' : reach pcs ifs s → cpu_step pcs i s = Some s' → reach pcs ifs s'.

(** A schedule: which processor makes each step. *)
Fixpoint run_cpus (pcs : nat → list Z) (l : list nat) (s : smp) : option smp :=
  match l with [] => Some s | i :: l => s ← cpu_step pcs i s; run_cpus pcs l s end.

Lemma reach_run pcs ifs l s s' : reach pcs ifs s → run_cpus pcs l s = Some s' → reach pcs ifs s'.
Proof.
  revert s. induction l as [|i l IH]; intros s Hr Hs; [by simplify_eq/=|]. cbn in Hs. destruct (cpu_step pcs i s) as [s1|] eqn:E; [|done].
  apply (IH s1); [|done]. by eapply reach_step.
Qed.

(** The processors that have the lock, those that have recorded it, and those that have recorded their stack. *)
Definition owning (p : pc) : bool := bool_decide (p ∈ [Acpu; Apcs; Pin; Rholding; Rholding_cpu; Rpcs; Rcpu; Rlocked]).
Definition recorded (p : pc) : bool := bool_decide (p ∈ [Apcs; Pin; Rholding; Rholding_cpu; Rpcs; Rcpu]).

Definition described (p : pc) : bool := bool_decide (p ∈ [Pin; Rholding; Rholding_cpu; Rpcs]).

Record lock_inv (pcs : nat → list Z) (ifs : list bool) (s : smp) : Prop := {
  li_len : length (m_cpus s) = length ifs;
  li_free : lk_locked (m_lock s) = 0 → lk_cpu (m_lock s) = None;
  li_own : ∀ i p c, m_cpus s !! i = Some (p, c) → owning p = true →
    lk_locked (m_lock s) ≠ 0 ∧ ∀ j q d, m_cpus s !! j = Some (q, d) → owning q = true → j = i;
  li_rec : ∀ i, lk_cpu (m_lock s) = Some i ↔ ∃ p c, m_cpus s !! i = Some (p, c) ∧ recorded p = true;
  li_pcs : ∀ i p c, m_cpus s !! i = Some (p, c) → described p = true → lk_pcs (m_lock s) = pcs i;
  li_cpu : ∀ i p c b, m_cpus s !! i = Some (p, c) → ifs !! i = Some b →
    p ≠ Ppanic ∧ if decide (p = Pout) then c_ncli c = 0 ∧ c_if c = b else c = Cpu 1 b false;
}.

Lemma recorded_owning p : recorded p = true → owning p = true.
Proof. by destruct p. Qed.
Lemma described_owning p : described p = true → owning p = true.
Proof. by destruct p. Qed.

Lemma lock_inv_start pcs ifs : lock_inv pcs ifs (smp0 ifs).
Proof.
  assert (∀ i p c, m_cpus (smp0 ifs) !! i = Some (p, c) → ∃ b, ifs !! i = Some b ∧ p = Pout ∧ c = Cpu 0 false b) as Hout.
  { intros i p c. cbn [m_cpus smp0]. rewrite list_lookup_fmap. intros (b & Hb & [= -> ->])%fmap_Some. eauto. }
  split; cbn [m_lock smp0 initlock lk_locked lk_cpu].
  - apply length_fmap.
  - done.
  - intros i p c (b & _ & -> & _)%Hout. done.
  - intros i. split; [done|]. intros (p & c & (b & _ & -> & _)%Hout & ?). done.
  - intros i p c (b & _ & -> & _)%Hout. done.
  - intros i p c b (b' & Hb & -> & ->)%Hout Hb'. simplify_eq. done.
Qed.

(** A step of processor [i] keeps the invariant when it treats the lock as it should. *)
Lemma lock_inv_step pcs ifs s i p c lk' p' c' :
  lock_inv pcs ifs s → m_cpus s !! i = Some (p, c) →
  (owning p' = true → (owning p = true ∨ lk_locked (m_lock s) = 0) ∧ lk_locked lk' ≠ 0) →
  (owning p = false → lk_locked (m_lock s) ≠ 0 → lk_locked lk' ≠ 0) →
  lk_cpu lk' = (if recorded p' then Some i else if recorded p then None else lk_cpu (m_lock s)) →
  (owning p = false → lk_pcs lk' = lk_pcs (m_lock s)) → (described p' = true → lk_pcs lk' = pcs i) →
  (recorded p' = true → owning p = true) → (lk_locked lk' = 0 → lk_cpu lk' = None) →
  (∀ b, ifs !! i = Some b → p' ≠ Ppanic ∧ if decide (p' = Pout) then c_ncli c' = 0 ∧ c_if c' = b else c' = Cpu 1 b false) →
  lock_inv pcs ifs (Smp lk' (<[i := (p', c')]> (m_cpus s))).
Proof.
  intros [L F O R S C] Hi Hown Hkeep Hrec Hpk Hp Hro Hfree Hc. pose proof (lookup_lt_Some _ _ _ Hi) as Hlt.
  assert (∀ j q d, <[i := (p', c')]> (m_cpus s) !! j = Some (q, d) → (j = i ∧ q = p' ∧ d = c') ∨ (j ≠ i ∧ m_cpus s !! j = Some (q, d))) as Hl.
  { intros j q d [(-> & [= <- <-] & _)|[? ?]]%list_lookup_insert_Some; [by left|right; done]. }
  assert (∀ j q d, j ≠ i → m_cpus s !! j = Some (q, d) → owning q = true → owning p = false ∧ lk_locked (m_lock s) ≠ 0) as Hother.
  { intros j q d Hne Hj Hq. destruct (O j q d Hj Hq) as [Hk Hu]. split; [|done]. destruct (owning p) eqn:Ep; [|done]. by destruct Hne; symmetry; eapply Hu. }
  split; cbn [m_lock m_cpus].
  - by rewrite length_insert.
  - done.
  - intros j q d [(-> & -> & ->)|[Hne Hj]]%Hl Hq.
    + destruct (Hown Hq) as [Hor Hk]. split; [done|]. intros k r e [(-> & _ & _)|[Hne Hk']]%Hl Hr; [done|].
      destruct (Hother k r e Hne Hk' Hr) as [E1 E2]. destruct Hor; congruence.
    + destruct (Hother j q d Hne Hj Hq) as [E1 E2]. split; [by apply Hkeep|]. intros k r e [(-> & -> & ->)|[Hne' Hk']]%Hl Hr.
      * destruct (Hown Hr) as [[?|?] _]; congruence.
      * destruct (O j q d Hj Hq) as [_ Hu]. by eapply Hu.
  - intros j. rewrite Hrec. split.
    + destruct (recorded p') eqn:E1; [intros [= <-]; exists p', c'; rewrite list_lookup_insert_eq by done; done|].
      destruct (recorded p) eqn:E2; [done|]. intros (q & d & Hj & Hq)%R. exists q, d. split; [|done].
      rewrite list_lookup_insert_ne; [done|]. intros <-. congruence.
    + intros (q & d & [(-> & -> & ->)|[Hne Hj]]%Hl & Hq); [by rewrite Hq|]. pose proof (recorded_owning _ Hq) as Hoq.
      destruct (Hother j q d Hne Hj Hoq) as [E1 _]. destruct (recorded p') eqn:E2; [by rewrite Hro in E1|].
      destruct (recorded p) eqn:E3; [by rewrite recorded_owning in E1|]. apply R. eauto.
  - intros j q d [(-> & -> & ->)|[Hne Hj]]%Hl Hq; [by apply Hp|].
    destruct (Hother j q d Hne Hj (described_owning _ Hq)) as [E1 _]. rewrite Hpk by done. by eapply S.
  - intros j q d b [(-> & -> & ->)|[Hne Hj]]%Hl Hb; [by apply Hc|by eapply C].
Qed.

Lemma lock_inv_keeps pcs ifs s i s' : lock_inv pcs ifs s → cpu_step pcs i s = Some s' → lock_inv pcs ifs s'.
Proof.
  intros Hinv Hstep. unfold cpu_step in Hstep. destruct (m_cpus s !! i) as [[p c]|] eqn:Hi; [|done]. cbn [mbind option_bind] in Hstep.
  pose proof Hinv as [L F O R S C]. destruct (lookup_lt_is_Some_2 ifs i) as [b Hb]; [rewrite <-L; by eapply lookup_lt_Some|].
  destruct (C i p c b Hi Hb) as [Hnp Hc].
  assert (recorded p = true → lk_cpu (m_lock s) = Some i) as Hrec by (intros Hp; apply R; eauto).
  assert (recorded p = false → lk_cpu (m_lock s) ≠ Some i) as Hnrec by (intros Hp (q & d & Hq & E)%R; congruence).
  assert (described p = true → lk_pcs (m_lock s) = pcs i) as Hdes by (intros Hp; by eapply S).
  assert (owning p = true → lk_locked (m_lock s) ≠ 0) as Hown by (intros Hp; by destruct (O i p c Hi Hp)).
  assert (owning p = true → recorded p = false → lk_cpu (m_lock s) = None) as Hnone.
  { intros Hp Hr. destruct (lk_cpu (m_lock s)) as [j|] eqn:E; [|done]. destruct (proj1 (R j) eq_refl) as (q & d & Hq & Eq).
    destruct (O i p c Hi Hp) as [_ Hu]. rewrite (Hu j q d Hq (recorded_owning _ Eq)) in Hq. congruence. }
  assert (∀ b', ifs !! i = Some b' → b' = b) as Hbb by (intros; congruence).
  destruct p; cbn in Hc; try done; simplify_eq/=.
  all: try (rewrite bool_decide_eq_false_2 in Hstep by (by apply Hnrec)); try (rewrite bool_decide_eq_true_2 in Hstep by (by apply Hrec)).
  all: try (rewrite (proj2 (Z.eqb_neq _ 0)) in Hstep by (by apply Hown)).
  all: try (destruct (Z.eqb_spec (lk_locked (m_lock s)) 0)); simplify_eq/=.
  all: eapply lock_inv_step; [exact Hinv|exact Hi|..].
  all: intros; try match goal with H : _ !! _ = Some ?x |- _ => assert_fails (constr_eq x b); apply Hbb in H; subst x end.
  all: first [done|by split; [left|apply Hown]|by split; [right|]|by rewrite Hrec|by apply Hdes|by apply F|by apply Hnone|by destruct Hown|by destruct b|split; [done|]; cbn].
  all: destruct Hc as [Hn Hif]; unfold pushcli; by rewrite Hn, Hif.
Qed.

Lemma reach_inv pcs ifs s : reach pcs ifs s → lock_inv pcs ifs s.
Proof. induction 1; [apply lock_inv_start|by eapply lock_inv_keeps]. Qed.

(** C19: the spinlock works on any number of processors.  In every interleaving of their
    accesses at most one processor has the lock, from the exchange that gets it to the
    store that gives it back; the lock names that processor and its call stack while it is
    in the critical section; none of the tests of acquire, release and popcli panics;
    interrupts are off on every processor that waits for the lock or has it; and a
    processor outside has the interrupt flag it started with. *)
Theorem spinlock_excludes pcs ifs s :
  reach pcs ifs s →
  (∀ i j p c q d, m_cpus s !! i = Some (p, c) → m_cpus s !! j = Some (q, d) → owning p = true → owning q = true → i = j) ∧
  (∀ i c, m_cpus s !! i = Some (Pin, c) → lk_cpu (m_lock s) = Some i ∧ lk_pcs (m_lock s) = pcs i) ∧
  (∀ i p c b, m_cpus s !! i = Some (p, c) → ifs !! i = Some b →
    p ≠ Ppanic ∧ c_if c = if decide (p = Pout) then b else false).
Proof.
  intros [L F O R S C]%reach_inv. split_and!.
  - intros i j p c q d Hi Hj Hp Hq. destruct (O j q d Hj Hq) as [_ Hu]. by eapply Hu.
  - intros i c Hi. split; [apply R; eauto|by eapply S].
  - intros i p c b Hi Hb. destruct (C i p c b Hi Hb) as [Hp Hc]. split; [done|]. case_decide; [by destruct Hc|by subst c].
Qed.

(** Matched calls of pushcli and popcli leave the interrupt flag as it was, however deep
    they nest. *)
Theorem cli_nests n c :
  0 ≤ c_ncli c → c_ncli c + Z.of_nat n < 2 ^ 31 → (c_ncli c ≠ 0 → c_if c = false) →
  ∃ b, pops n (pushes n c) = Some (Cpu (c_ncli c) b (c_if c)).
Proof.
  intros H0 H1 Hif. destruct n as [|n]; [exists (c_intena c); by destruct c|]. rewrite pushes_run by lia. rewrite pops_run by lia. eexists. do 2 f_equal.
  destruct (Z.eqb_spec (c_ncli c) 0); [done|]. by rewrite Hif.
Qed.

(** The first processor has the lock, the second one spins. *)
Lemma spinlock_excludes_witness : let pcs := λ i, replicate 10 (Z.of_nat i) in
  ∃ s, reach pcs [true; false] s ∧ (fst <$> m_cpus s) = [Pin; Axchg] ∧
  ∀ i c, m_cpus s !! i = Some (Pin, c) → lk_cpu (m_lock s) = Some i ∧ lk_pcs (m_lock s) = pcs i.
Proof.
  intros pcs. destruct (run_cpus pcs [0; 1; 0; 0; 1; 0; 0; 1; 1]%nat (smp0 [true; false])) as [s|] eqn:E; [|by vm_compute in E].
  exists s. pose proof (reach_run _ _ _ _ _ (reach_start _ _) E) as Hr. split; [exact Hr|]. split; [|apply (spinlock_excludes _ _ _ Hr)].
  vm_compute in E. by injection E as <-.
Defined.
