(* ===== verification/Ide.v ===== *)
(** * The IDE disk driver (ide.c)

    The controller is not part of the sources: the class [Ata] has its port instructions,
    and [AtaOk] what the driver relies on.  The queue of requests is linked through the
    buffers.  iderw is modelled up to the sleep ([iderw_submit]), and the test after each
    wakeup ([iderw_done]); both and ideintr run with idelock held, so that each is a step.
    [wakeup(b)] is recorded.  A buffer's sleep lock is held by the caller of iderw. *)
From S2P Require Import Prelude Bytes KState Sched Bio.

(** The port instructions of x86.h: [insl] and [outsl] transfer the given number of words
    and bytes. *)
Class Ata := {
  ctl : Type;
  inb : Z → ctl → Z * ctl;
  outb : Z → Z → ctl → ctl;
  insl : Z → nat → ctl → list Z * ctl;
  outsl : Z → list Z → ctl → ctl;
}.

Abbreviation SECTOR_SIZE := 512%Z.
Abbreviation IDE_BSY := 0x80%Z.
Abbreviation IDE_DRDY := 0x40%Z.
Abbreviation IDE_DF := 0x20%Z.
Abbreviation IDE_ERR := 0x01%Z.
Abbreviation IDE_CMD_READ := 0x20%Z.
Abbreviation IDE_CMD_WRITE := 0x30%Z.
Abbreviation IDE_CMD_RDMUL := 0xc4%Z.
Abbreviation IDE_CMD_WRMUL := 0xc5%Z.

(** The fields of struct buf the driver uses. *)
Record idebuf := IdeBuf { ib_flags : Z; ib_dev : Z; ib_blockno : Z; ib_data : list Z; ib_qnext : option nat }.
Definition eta_idebuf (r : idebuf) : idebuf := IdeBuf (ib_flags r) (ib_dev r) (ib_blockno r) (ib_data r) (ib_qnext r).
#[global] Instance upd_ib_flags : Upd ib_flags := ltac:(mk_upd eta_idebuf ib_flags).
#[global] Instance upd_ib_data : Upd ib_data := ltac:(mk_upd eta_idebuf ib_data).
#[global] Instance upd_ib_qnext : Upd ib_qnext := ltac:(mk_upd eta_idebuf ib_qnext).

Section ide.
  Context `{Ata} (polls : nat).

Record ide := Ide { id_ctl : ctl; id_bufs : list idebuf; idequeue : option nat; havedisk1 : bool; id_woken : list nat }.
Definition eta_ide (r : ide) : ide := Ide (id_ctl r) (id_bufs r) (idequeue r) (havedisk1 r) (id_woken r).
#[global] Instance upd_id_ctl : Upd id_ctl := ltac:(mk_upd eta_ide id_ctl).
#[global] Instance upd_id_bufs : Upd id_bufs := ltac:(mk_upd eta_ide id_bufs).
#[global] Instance upd_idequeue : Upd idequeue := ltac:(mk_upd eta_ide idequeue).
#[global] Instance upd_havedisk1 : Upd havedisk1 := ltac:(mk_upd eta_ide havedisk1).
#[global] Instance upd_id_woken : Upd id_woken := ltac:(mk_upd eta_ide id_woken).

Local Abbreviation D := (M ide).

Definition in_b (p : Z) : D Z :=
  s <- get; let '(v, c) := inb p (id_ctl s) in modify (λ s, s <| id_ctl := c |>);; ret v.
Definition out_b (p v : Z) : D unit := modify (λ s, s <| id_ctl ::= outb p (u8 v) |>).
Definition get_buf (i : nat) : D idebuf := s <- get; deref "buf" (id_bufs s !! i).
Definition mod_buf (i : nat) (f : idebuf → idebuf) : D unit :=
  b <- get_buf i; modify (λ s, s <| id_bufs ::= <[i := f b]> |>).

(** The polling loop, at most [polls] rounds: the status. *)
Fixpoint poll (n : nat) : D Z :=
  match n with
  | O => λ _, Fuel
  | S n => r <- in_b 0x1f7; if Z.land r (Z.lor IDE_BSY IDE_DRDY) =? IDE_DRDY then ret r else poll n
  end.

Definition idewait (checkerr : bool) : D Z :=
  r <- poll polls;
  ret (if checkerr && negb (Z.land r (Z.lor IDE_DF IDE_ERR) =? 0) then -1 else 0).

(** [for (i = 0; i < 1000; i++) if (inb(0x1f7) != 0)], [n] rounds to go. *)
Fixpoint probe (n : nat) : D unit :=
  match n with
  | O => ret tt
  | S n => r <- in_b 0x1f7; if negb (r =? 0) then modify (λ s, s <| havedisk1 := true |>) else probe n
  end.

(** ideinit without initlock and ioapicenable, which are in Spinlock.v and Apic.v. *)
Definition ideinit : D unit :=
  _ <- idewait false;
  out_b 0x1f6 (Z.lor 0xe0 (Z.shiftl 1 4));;
  probe 1000;;
  out_b 0x1f6 (Z.lor 0xe0 (Z.shiftl 0 4)).

(** A buffer is an index, so that the test for a null pointer has no counterpart. *)
Definition idestart (i : nat) : D unit :=
  b <- get_buf i;
  if FSSIZE <=? ib_blockno b then panic "incorrect blockno" else
  let sector_per_block := BSIZE `div` SECTOR_SIZE in
  let sector := s32 (ib_blockno b * sector_per_block) in
  let read_cmd := if sector_per_block =? 1 then IDE_CMD_READ else IDE_CMD_RDMUL in
  let write_cmd := if sector_per_block =? 1 then IDE_CMD_WRITE else IDE_CMD_WRMUL in
  if 7 <? sector_per_block then panic "idestart" else
  _ <- idewait false;
  out_b 0x3f6 0;;
  out_b 0x1f2 sector_per_block;;
  out_b 0x1f3 (Z.land sector 0xff);;
  out_b 0x1f4 (Z.land (Z.shiftr sector 8) 0xff);;
  out_b 0x1f5 (Z.land (Z.shiftr sector 16) 0xff);;
  out_b 0x1f6 (Z.lor (Z.lor 0xe0 (Z.shiftl (Z.land (ib_dev b) 1) 4)) (Z.land (Z.shiftr sector 24) 0x0f));;
  if negb (Z.land (ib_flags b) B_DIRTY =? 0) then
    out_b 0x1f7 write_cmd;;
    modify (λ s, s <| id_ctl ::= outsl 0x1f0 (take (Z.to_nat BSIZE) (ib_data b)) |>)
  else out_b 0x1f7 read_cmd.

Definition ideintr : D unit :=
  s <- get;
  match idequeue s with
  | None => ret tt
  | Some i =>
      b <- get_buf i;
      modify (λ s, s <| idequeue := ib_qnext b |>);;
      (if Z.land (ib_flags b) B_DIRTY =? 0 then
         r <- idewait true;
         when (0 <=? r)
           (s <- get;
            let '(d, c) := insl 0x1f0 (Z.to_nat (BSIZE `div` 4)) (id_ctl s) in
            modify (λ s, s <| id_ctl := c |>);;
            mod_buf i (λ b, b <| ib_data := d |>))
       else ret tt);;
      mod_buf i (λ b, b <| ib_flags ::= λ f, Z.ldiff (Z.lor f B_VALID) B_DIRTY |>);;
      modify (λ s, s <| id_woken ::= cons i |>);;
      s <- get;
      match idequeue s with None => ret tt | Some j => idestart j end
  end.

(** The walk to the end of the queue, at most [n] buffers: the last one. *)
Fixpoint last_of (n : nat) (i : nat) : D nat :=
  match n with
  | O => λ _, Fuel
  | S n => b <- get_buf i; match ib_qnext b with None => ret i | Some j => last_of n j end
  end.

(** iderw until it waits. *)
Definition iderw_submit (locked : bool) (i : nat) : D unit :=
  b <- get_buf i;
  if negb locked then panic "iderw: buf not locked" else
  if Z.land (ib_flags b) (Z.lor B_VALID B_DIRTY) =? B_VALID then panic "iderw: nothing to do" else
  s <- get;
  if negb (ib_dev b =? 0) && negb (havedisk1 s) then panic "iderw: ide disk 1 not present" else
  mod_buf i (λ b, b <| ib_qnext := None |>);;
  match idequeue s with
  | None => modify (λ s, s <| idequeue := Some i |>)
  | Some j => k <- last_of (length (id_bufs s)) j; mod_buf k (λ b, b <| ib_qnext := Some i |>)
  end;;
  s <- get;
  when (bool_decide (idequeue s = Some i)) (idestart i).

(** The condition of its loop: whether iderw returns. *)
Definition iderw_done (i : nat) : D bool :=
  b <- get_buf i; ret (Z.land (ib_flags b) (Z.lor B_VALID B_DIRTY) =? B_VALID).
End ide.
