(* ===== verification/IdeThm.v ===== *)
(** * The IDE driver serves its requests in order (ide.c)

    The abstract disk is a table of blocks with a queue of requests; iderw and ideintr
    implement it on every controller that keeps the promises of [AtaOk]. *)
From S2P Require Import Prelude Bytes KState Sched Bio Ide.

(** What the driver relies on: the controller's registers, the number of polls until it
    is ready, the command it executes, and the sectors of the two disks. *)
Class AtaOk (A : Ata) (polls : nat) := {
  reg : ctl → Z → Z;
  busy : ctl → nat;
  cmd : ctl → option (bool * Z * Z * Z);   (* write?, disk, first sector, count *)
  sector : ctl → Z → Z → list Z;
  sector_len c d l : length (sector c d l) = 512%nat;
  busy_polls c : (busy c < polls)%nat;
  inb_status c v c' : inb 0x1f7 c = (v, c') →
    (∀ d l, sector c' d l = sector c d l) ∧ cmd c' = cmd c ∧
    match busy c with
    | O => Z.land v (Z.lor IDE_BSY IDE_DRDY) = IDE_DRDY ∧ Z.land v (Z.lor IDE_DF IDE_ERR) = 0 ∧ busy c' = O
    | S n => Z.land v (Z.lor IDE_BSY IDE_DRDY) ≠ IDE_DRDY ∧ busy c' = n
    end;
  outb_reg p v c : p ∈ [0x3f6; 0x1f2; 0x1f3; 0x1f4; 0x1f5; 0x1f6] →
    (∀ q, reg (outb p v c) q = if decide (q = p) then v else reg c q) ∧ (∀ d l, sector (outb p v c) d l = sector c d l);
  outb_cmd v c : v ∈ [IDE_CMD_READ; IDE_CMD_WRITE; IDE_CMD_RDMUL; IDE_CMD_WRMUL] →
    cmd (outb 0x1f7 v c) = Some ((v =? IDE_CMD_WRITE) || (v =? IDE_CMD_WRMUL), Z.land (Z.shiftr (reg c 0x1f6) 4) 1,
      reg c 0x1f3 + 2 ^ 8 * reg c 0x1f4 + 2 ^ 16 * reg c 0x1f5 + 2 ^ 24 * Z.land (reg c 0x1f6) 0x0f, reg c 0x1f2) ∧
    (∀ d l, sector (outb 0x1f7 v c) d l = sector c d l);
  insl_data c d l n w x c' : cmd c = Some (false, d, l, n) → busy c = O → 4 * Z.of_nat w = 512 * n → insl 0x1f0 w c = (x, c') →
    x = concat ((λ i, sector c d (l + Z.of_nat i)) <$> seq 0 (Z.to_nat n)) ∧ (∀ d l, sector c' d l = sector c d l);
  outsl_data c d l n x : cmd c = Some (true, d, l, n) → Z.of_nat (length x) = 512 * n →
    ∀ e m, sector (outsl 0x1f0 x c) e m =
      if decide (e = d ∧ l ≤ m < l + n) then slice (Z.to_nat (512 * (m - l))) 512 x else sector c e m;
}.

Section ide.
  Context {A : Ata} {polls : nat} {AO : AtaOk A polls}.

(** The block [bno] of a disk. *)
Definition block (c : ctl) (d bno : Z) : list Z := sector c d (2 * bno) ++ sector c d (2 * bno + 1).

Definition same_disk (c c' : ctl) : Prop := ∀ d l, sector c' d l = sector c d l.

Lemma same_block c c' d b : same_disk c c' → block c' d b = block c d b.
Proof. intros Hs. unfold block. by rewrite !Hs. Qed.

Lemma poll_run n s : (busy (id_ctl s) < n)%nat →
  ∃ v c, poll n s = Ok v (s <| id_ctl := c |>) ∧ same_disk (id_ctl s) c ∧ cmd c = cmd (id_ctl s) ∧ busy c = O ∧
    Z.land v (Z.lor IDE_DF IDE_ERR) = 0.
Proof.
  revert s. induction n as [|n IH]; intros s Hb; [lia|]. cbn [poll]. unfold in_b.
  destruct (inb 0x1f7 (id_ctl s)) as [v c] eqn:Ei. destruct (inb_status _ _ _ Ei) as (Hs & Hc & Hst).
  erewrite bind_ok; [|step; rewrite Ei; step; reflexivity].
  destruct (busy (id_ctl s)) as [|k] eqn:Eb.
  - destruct Hst as (H1 & H2 & H3). rewrite H1, Z.eqb_refl. exists v, c. split_and!; [by destruct s|done..].
  - destruct Hst as (H1 & H2). rewrite (proj2 (Z.eqb_neq _ _)) by done.
    destruct (IH (s <| id_ctl := c |>)) as (v' & c' & Hr & Hs' & Hc' & Hrest); [cbn; lia|]. exists v', c'.
    split_and!; [by rewrite Hr; destruct s|intros d l; rewrite Hs'; apply Hs|by rewrite Hc'|apply Hrest..].
Qed.

Lemma idewait_run e s :
  ∃ c, idewait polls e s = Ok 0 (s <| id_ctl := c |>) ∧ same_disk (id_ctl s) c ∧ cmd c = cmd (id_ctl s) ∧ busy c = O.
Proof.
  destruct (poll_run polls s (busy_polls _)) as (v & c & Hr & Hs & Hc & Hb & Hv). exists c. split_and!; try done.
  unfold idewait. rewrite (bind_ok _ _ _ _ _ Hr), Hv. by destruct e.
Qed.

Definition dirty (b : idebuf) : bool := negb (Z.land (ib_flags b) B_DIRTY =? 0).

Record buf_ok (b : idebuf) : Prop := {
  bo_no : 0 ≤ ib_blockno b < FSSIZE;
  bo_dev : ib_dev b = 0 ∨ ib_dev b = 1;
  bo_data : length (ib_data b) = Z.to_nat BSIZE;
}.

(** The controller after the registers of the request have been written. *)
Definition regs_set (c : ctl) (b : idebuf) (c' : ctl) : Prop :=
  same_disk c c' ∧ ∀ v, v ∈ [IDE_CMD_READ; IDE_CMD_WRITE; IDE_CMD_RDMUL; IDE_CMD_WRMUL] →
    cmd (outb 0x1f7 v c') = Some ((v =? IDE_CMD_WRITE) || (v =? IDE_CMD_WRMUL), ib_dev b, 2 * ib_blockno b, 2).

Lemma sector_bytes n : 0 ≤ n < 2 ^ 24 →
  u8 (Z.land n 0xff) + 2 ^ 8 * u8 (Z.land (Z.shiftr n 8) 0xff) + 2 ^ 16 * u8 (Z.land (Z.shiftr n 16) 0xff) = n ∧
  Z.land (Z.shiftr n 24) 0x0f = 0.
Proof.
  intros Hn. change 0xff with (Z.ones 8). change 0x0f with (Z.ones 4). rewrite !Z.land_ones by lia. rewrite !Z.shiftr_div_pow2 by lia. unfold u8.
  change (2 ^ 8) with 256 in *. change (2 ^ 16) with 65536. change (2 ^ 24) with 16777216 in *. change (2 ^ 4) with 16.
  rewrite (Z.div_small n 16777216) by lia. split; [|done]. rewrite !Zmod_mod. Z.to_euclidean_division_equations. lia.
Qed.

Lemma drive_byte d : d = 0 ∨ d = 1 → let r := u8 (Z.lor (Z.lor 0xe0 (Z.shiftl (Z.land d 1) 4)) 0) in
  Z.land (Z.shiftr r 4) 1 = d ∧ Z.land r 0x0f = 0.
Proof. by intros [->| ->]. Qed.

Lemma reg_outb p v c q : p ∈ [0x3f6; 0x1f2; 0x1f3; 0x1f4; 0x1f5; 0x1f6] → reg (outb p v c) q = if decide (q = p) then v else reg c q.
Proof. intros Hp. apply (outb_reg _ _ _ Hp). Qed.

Lemma sector_outb p v c d l : p ∈ [0x3f6; 0x1f2; 0x1f3; 0x1f4; 0x1f5; 0x1f6] → sector (outb p v c) d l = sector c d l.
Proof. intros Hp. apply (outb_reg _ _ _ Hp). Qed.

Lemma outs_run c b : buf_ok b →
  let n := 2 * ib_blockno b in
  regs_set c b (outb 0x1f6 (u8 (Z.lor (Z.lor 0xe0 (Z.shiftl (Z.land (ib_dev b) 1) 4)) (Z.land (Z.shiftr n 24) 0x0f)))
    (outb 0x1f5 (u8 (Z.land (Z.shiftr n 16) 0xff)) (outb 0x1f4 (u8 (Z.land (Z.shiftr n 8) 0xff))
    (outb 0x1f3 (u8 (Z.land n 0xff)) (outb 0x1f2 (u8 2) (outb 0x3f6 (u8 0) c)))))).
Proof.
  intros [Hno Hdev Hd] n. change FSSIZE with 1000 in Hno. destruct (sector_bytes n) as [E1 E2]; [unfold n; lia|]. destruct (drive_byte _ Hdev) as [D1 D2]. rewrite E2.
  split.
  - intros d l. by rewrite !sector_outb by set_solver.
  - intros v Hv. match goal with |- cmd (outb _ _ ?c0) = _ => destruct (outb_cmd v c0 Hv) as [-> _] end.
    rewrite !reg_outb by set_solver. repeat first [rewrite decide_False by done|rewrite decide_True by done].
    rewrite D1, D2. by rewrite Z.mul_0_r, Z.add_0_r, E1.
Qed.

Lemma get_buf_run i b s : id_bufs s !! i = Some b → get_buf i s = Ok b s.
Proof. intros Hi. unfold get_buf. step. by rewrite Hi. Qed.

Lemma mod_buf_run i b f s : id_bufs s !! i = Some b → mod_buf i f s = Ok tt (s <| id_bufs ::= <[i := f b]> |>).
Proof. intros Hi. unfold mod_buf. by run get_buf_run. Qed.

(** The disk after a request has been started: a dirty buffer is written. *)
Definition started (c : ctl) (b : idebuf) (c' : ctl) : Prop :=
  (dirty b = false → same_disk c c' ∧ cmd c' = Some (false, ib_dev b, 2 * ib_blockno b, 2)) ∧
  ∀ d n, block c' d n = if decide (dirty b = true ∧ d = ib_dev b ∧ n = ib_blockno b) then ib_data b else block c d n.

Lemma write_block c b : buf_ok b → cmd c = Some (true, ib_dev b, 2 * ib_blockno b, 2) →
  ∀ d n, block (outsl 0x1f0 (ib_data b) c) d n = if decide (d = ib_dev b ∧ n = ib_blockno b) then ib_data b else block c d n.
Proof.
  intros [Hno Hdev Hd] Hc d n. change (Z.to_nat BSIZE) with 1024%nat in Hd. unfold block.
  rewrite !(outsl_data _ _ _ _ _ Hc) by (rewrite Hd; lia). destruct (decide (d = ib_dev b ∧ n = ib_blockno b)) as [[-> ->]|Hne].
  - rewrite !decide_True by lia. replace (512 * (2 * ib_blockno b - 2 * ib_blockno b)) with 0 by lia.
    replace (512 * (2 * ib_blockno b + 1 - 2 * ib_blockno b)) with 512 by lia. unfold slice. rewrite drop_0.
    change (Z.to_nat 512) with 512%nat. rewrite (take_ge (drop 512 _)) by (rewrite length_drop; lia). apply take_drop.
  - rewrite !decide_False; [done|..]; intros [-> ?]; apply Hne; split; try done; lia.
Qed.

Lemma idestart_run i b s : id_bufs s !! i = Some b → buf_ok b →
  ∃ c, idestart polls i s = Ok tt (s <| id_ctl := c |>) ∧ started (id_ctl s) b c.
Proof.
  intros Hi Hb. pose proof Hb as [Hno _ Hd]. unfold idestart. run get_buf_run; [|exact Hi]. change FSSIZE with 1000 in *.
  rewrite (proj2 (Z.leb_gt _ _)) by lia. change (BSIZE `div` SECTOR_SIZE) with 2. cbn [Z.eqb Z.ltb Z.compare Pos.compare Pos.compare_cont].
  rewrite s32_small by lia. rewrite (Z.mul_comm _ 2). destruct (idewait_run false s) as (c & Hw & Hs & _ & _). rewrite (bind_ok _ _ _ _ _ Hw).
  unfold out_b. do 6 step. pose proof (outs_run c b Hb) as Ho. cbv zeta in Ho. fold (dirty b). rewrite take_ge by (rewrite Hd; done).
  set (c6 := outb 0x1f6 _ _) in Ho. destruct Ho as [Hs6 Hcmd].
  assert (∀ d n, block c6 d n = block (id_ctl s) d n) as Hblk by (intros d n; rewrite (same_block c c6) by exact Hs6; apply same_block; exact Hs).
  destruct (dirty b) eqn:Ed.
  - exists (outsl 0x1f0 (ib_data b) (outb 0x1f7 IDE_CMD_WRMUL c6)). split; [by step; destruct s|]. split; [by rewrite Ed|]. intros d n.
    rewrite (write_block _ b Hb) by (rewrite Hcmd by set_solver; done). pose proof (outb_cmd IDE_CMD_WRMUL c6 ltac:(set_solver)) as [_ Hk].
    rewrite (same_block c6) by exact Hk. rewrite Hblk. apply decide_ext. tauto.
  - exists (outb 0x1f7 IDE_CMD_RDMUL c6). pose proof (outb_cmd IDE_CMD_RDMUL c6 ltac:(set_solver)) as [_ Hk]. split; [by destruct s|]. split.
    + intros _. split; [|by rewrite Hcmd by set_solver]. intros d l. by rewrite Hk, Hs6, Hs.
    + intros d n. rewrite (same_block c6) by exact Hk. rewrite Hblk, decide_False; [done|]. intros [? _]. congruence.
Qed.

(** ** The abstract disk *)

Definition strip (b : idebuf) : idebuf := b <| ib_qnext := None |>.

Record adisk := ADisk { a_blocks : Z → Z → list Z; a_bufs : list idebuf; a_queue : list nat; a_woken : list nat }.

(** A request that gets to the head of the queue: a dirty buffer is written. *)
Definition a_start (bufs : list idebuf) (q : list nat) (f : Z → Z → list Z) : Z → Z → list Z :=
  match q with
  | [] => f
  | i :: _ => match bufs !! i with
      | Some b => λ d n, if decide (dirty b = true ∧ d = ib_dev b ∧ n = ib_blockno b) then ib_data b else f d n
      | None => f end
  end.

Definition a_submit (i : nat) (a : adisk) : adisk :=
  ADisk (if decide (a_queue a = []) then a_start (a_bufs a) [i] (a_blocks a) else a_blocks a)
    (a_bufs a) (a_queue a ++ [i]) (a_woken a).

(** A request is finished: a read buffer has the block. *)
Definition finished (f : Z → Z → list Z) (b : idebuf) : idebuf :=
  b <| ib_data := if dirty b then ib_data b else f (ib_dev b) (ib_blockno b) |>
    <| ib_flags ::= λ x, Z.ldiff (Z.lor x B_VALID) B_DIRTY |>.

Definition a_intr (a : adisk) : adisk :=
  match a_queue a with
  | [] => a
  | i :: q => ADisk (a_start (a_bufs a) q (a_blocks a)) (alter (finished (a_blocks a)) i (a_bufs a)) q (i :: a_woken a)
  end.

(** The driver's data are the abstract ones; the head of the queue may not be executing yet. *)
Record queued (s : ide) (a : adisk) : Prop := {
  rf_bufs : strip <$> id_bufs s = a_bufs a;
  rf_blocks : ∀ d n, block (id_ctl s) d n = a_blocks a d n;
  rf_woken : id_woken s = a_woken a;
  rf_queue : idequeue s = head (a_queue a);
  rf_links : ∀ k i, a_queue a !! k = Some i → ∃ b, id_bufs s !! i = Some b ∧ buf_ok b ∧ ib_qnext b = a_queue a !! S k;
  rf_nodup : NoDup (a_queue a);
}.

Record refines (s : ide) (a : adisk) : Prop := {
  rf_q :> queued s a;
  rf_cmd : ∀ i b, head (a_queue a) = Some i → id_bufs s !! i = Some b → dirty b = false →
    cmd (id_ctl s) = Some (false, ib_dev b, 2 * ib_blockno b, 2);
}.

Lemma strip_at s a i b : queued s a → id_bufs s !! i = Some b → a_bufs a !! i = Some (strip b).
Proof. intros Hr Hi. by rewrite <-(rf_bufs _ _ Hr), list_lookup_fmap, Hi. Qed.

Lemma strip_relink (bufs : list idebuf) i b x : bufs !! i = Some b → strip <$> <[i := b <| ib_qnext := x |>]> bufs = strip <$> bufs.
Proof. intros Hi. rewrite list_fmap_insert. apply list_insert_id. by rewrite list_lookup_fmap, Hi. Qed.

(** The end of the queue. *)
Lemma last_of_run s (q : list nat) n k i :
  (∀ k i, q !! k = Some i → ∃ b, id_bufs s !! i = Some b ∧ ib_qnext b = q !! S k) →
  q !! k = Some i → (length q ≤ n + k)%nat → ∃ j, last_of n i s = Ok j s ∧ list.last q = Some j.
Proof.
  intros Hl. revert k i. induction n as [|n IH]; intros k i Hk Hn; [apply lookup_lt_Some in Hk; lia|].
  destruct (Hl k i Hk) as (b & Hb & Hq). cbn [last_of]. run get_buf_run; [|done]. destruct (ib_qnext b) as [j|].
  - apply (IH (S k)); [done|lia].
  - exists i. split; [done|]. symmetry in Hq. apply lookup_ge_None in Hq. pose proof (lookup_lt_Some _ _ _ Hk).
    rewrite last_lookup. by replace (pred (length q)) with k by lia.
Qed.

Lemma queue_short s a : queued s a → (length (a_queue a) ≤ length (id_bufs s))%nat.
Proof.
  intros Hr. rewrite <-(length_seq (length (id_bufs s)) 0). apply submseteq_length, NoDup_submseteq; [apply (rf_nodup _ _ Hr)|].
  intros i (k & Hk)%list_elem_of_lookup. destruct (rf_links _ _ Hr k i Hk) as (b & Hb & _). apply elem_of_seq.
  apply lookup_lt_Some in Hb. lia.
Qed.

(** ** The two operations *)

(** A buffer at the end of the queue. *)
Definition linked (q : list nat) (i : nat) (bufs : list idebuf) : list idebuf :=
  match list.last q with Some k => alter (λ b, b <| ib_qnext := Some i |>) k bufs | None => bufs end.

Lemma linked_lookup q i bufs k b : NoDup (q ++ [i]) → (q ++ [i]) !! k = Some b →
  linked q i bufs !! b = (λ x, x <| ib_qnext := if decide (S k = length q) then Some i else ib_qnext x |>) <$> bufs !! b.
Proof.
  intros Hnd Hk. unfold linked. destruct (list.last q) as [j|] eqn:El.
  - rewrite last_lookup in El. destruct (decide (S k = length q)) as [E|E].
    + rewrite lookup_app_l in Hk by lia. replace (pred (length q)) with k in El by lia. simplify_eq. by rewrite list_lookup_alter_eq.
    + rewrite list_lookup_alter_ne; [by destruct (bufs !! b) as [[]|]|]. intros ->. apply E.
      pose proof (lookup_lt_Some _ _ _ El). assert (k = pred (length q)) as ->; [|lia].
      eapply (NoDup_lookup (q ++ [i])); [done..|]. by rewrite lookup_app_l.
  - apply last_None in El as ->. cbn. destruct (decide _); [lia|]. by destruct (bufs !! b) as [[]|].
Qed.

Lemma strip_linked q i bufs : strip <$> linked q i bufs = strip <$> bufs.
Proof.
  unfold linked. destruct (list.last q) as [j|]; [|done]. apply list_eq. intros k. rewrite !list_lookup_fmap.
  destruct (decide (k = j)) as [->|]; [rewrite list_lookup_alter_eq|by rewrite list_lookup_alter_ne by done]. by destruct (bufs !! j).
Qed.

(** What iderw's caller guarantees: a buffer of the disk that is not yet queued, with something to do. *)
Record can_submit (s : ide) (a : adisk) (i : nat) (b : idebuf) : Prop := {
  cs_buf : id_bufs s !! i = Some b;
  cs_ok : buf_ok b;
  cs_work : Z.land (ib_flags b) (Z.lor B_VALID B_DIRTY) ≠ B_VALID;
  cs_dev : ib_dev b = 0 ∨ havedisk1 s = true;
  cs_new : i ∉ a_queue a;
}.

(** The queue after the append, before the disk is started. *)
Definition appended (s : ide) (q : list nat) (i : nat) (b : idebuf) : ide :=
  s <| id_bufs := linked q i (<[i := b <| ib_qnext := None |>]> (id_bufs s)) |> <| idequeue := head (q ++ [i]) |>.

Lemma append_run s a i b : refines s a → can_submit s a i b →
  iderw_submit polls true i s = when (bool_decide (head (a_queue a ++ [i]) = Some i)) (idestart polls i) (appended s (a_queue a) i b).
Proof.
  intros Hr [Hb Hok Hw Hd Hnew]. unfold iderw_submit. run get_buf_run; [|exact Hb]. cbn [negb]. rewrite (proj2 (Z.eqb_neq _ _) Hw). step.
  replace (negb (ib_dev b =? 0) && negb (havedisk1 s)) with false by (destruct Hd as [->| ->]; [done|by rewrite andb_false_r]).
  rewrite (bind_ok _ _ _ _ _ (mod_buf_run _ _ _ _ Hb)). rewrite (rf_queue _ _ Hr).
  pose proof (queue_short _ _ Hr) as Hlen. pose proof (rf_links _ _ Hr) as Hl. unfold appended, linked. destruct (a_queue a) as [|j q] eqn:Eq; cbn [head].
  - step. by destruct s.
  - set (s1 := s <| id_bufs ::= _ |>). assert (i ≠ j ∧ i ∉ q) as [Hij Hiq] by set_solver.
    assert (∀ k l, (j :: q) !! k = Some l → ∃ c, id_bufs s1 !! l = Some c ∧ ib_qnext c = (j :: q) !! S k) as Hl1.
    { intros k l Hk. destruct (Hl k l Hk) as (c & Hc & _ & Hn). exists c. split; [|done]. cbn. rewrite list_lookup_insert_ne; [done|].
      intros ->. apply Hnew. by eapply list_elem_of_lookup_2. }
    destruct (last_of_run s1 (j :: q) (length (id_bufs s)) 0 j Hl1) as (k & Hk & El); [done|lia|].
    destruct (Hl1 (pred (length (j :: q))) k) as (c & Hc & _); [by rewrite <-last_lookup|].
    erewrite bind_ok; [|rewrite (bind_ok _ _ _ _ _ Hk); apply (mod_buf_run _ _ _ _ Hc)]. step. rewrite El.
    assert (idequeue s = Some j) as Hq by (rewrite (rf_queue _ _ Hr); by rewrite Eq).
    rewrite (alter_insert _ _ _ _ Hc). unfold s1. destruct s; cbn in *. by rewrite Hq.
Qed.

(** Starting the head of the queue. *)
Lemma start_refines s a i q : queued s a → a_queue a = i :: q →
  ∃ s', idestart polls i s = Ok tt s' ∧ havedisk1 s' = havedisk1 s ∧
    refines s' (ADisk (a_start (a_bufs a) (i :: q) (a_blocks a)) (a_bufs a) (i :: q) (a_woken a)).
Proof.
  intros Hr Hq. destruct (rf_links _ _ Hr 0 i) as (b & Hb & Hok & _); [by rewrite Hq|].
  destruct (idestart_run i b s Hb Hok) as (c & Hrun & Hrd & Hblk). eexists. split; [exact Hrun|]. split; [done|].
  destruct Hr as [H1 H2 H3 H4 H5 H6]. rewrite Hq in *. split; [split; cbn; try done|].
  - intros d n. rewrite Hblk, <-H1, list_lookup_fmap, Hb. cbn. by rewrite H2.
  - intros j x [= <-] Hx Hdx. cbn in Hx. rewrite Hb in Hx. simplify_eq. by apply Hrd.
Qed.

Lemma submit_refines s a i b : refines s a → can_submit s a i b →
  ∃ s', iderw_submit polls true i s = Ok tt s' ∧ havedisk1 s' = havedisk1 s ∧ refines s' (a_submit i a).
Proof.
  intros Hr Hc. rewrite (append_run s a i b Hr Hc). destruct Hc as [Hb Hok _ _ Hnew].
  assert (NoDup (a_queue a ++ [i])) as Hnd by (apply list.NoDup_app; split_and!; [apply (rf_nodup _ _ Hr)|set_solver|apply NoDup_singleton]).
  assert (queued (appended s (a_queue a) i b) (ADisk (a_blocks a) (a_bufs a) (a_queue a ++ [i]) (a_woken a))) as Hq.
  { destruct Hr as [[H1 H2 H3 H4 H5 H6] H7]. split; cbn; try done.
    - by rewrite strip_linked, strip_relink.
    - intros k j Hk. rewrite (linked_lookup _ _ _ _ _ Hnd Hk). apply lookup_app_Some in Hk as [Hk|[Hk Hj]].
      + destruct (H5 k j Hk) as (x & Hx & Hxo & Hxn). pose proof (lookup_lt_Some _ _ _ Hk).
        rewrite list_lookup_insert_ne by (intros ->; apply Hnew; by eapply list_elem_of_lookup_2). rewrite Hx. eexists. split; [done|]. split; [by destruct Hxo|].
        cbn. destruct (decide _) as [E|E]; [by rewrite lookup_app_r, E, Nat.sub_diag by lia|]. rewrite Hxn, lookup_app_l; [done|lia].
      + apply list_lookup_singleton_Some in Hj as [Hj ->]. rewrite list_lookup_insert_eq by (by eapply lookup_lt_Some).
        eexists. split; [done|]. split; [by destruct Hok|]. cbn. rewrite decide_False by lia. symmetry. apply lookup_ge_None. rewrite length_app. cbn. lia. }
  unfold a_submit. destruct (a_queue a) as [|j q] eqn:Eq.
  - cbn [head app]. rewrite bool_decide_eq_true_2 by done. by apply (start_refines _ _ i [] Hq).
  - cbn [head app]. rewrite bool_decide_eq_false_2 by set_solver. eexists. split; [done|]. split; [done|]. rewrite decide_False by done.
    split; [exact Hq|]. cbn. intros k x [= <-] Hx Hdx.
    destruct (rf_links _ _ Hr 0 j) as (y & Hy & _); [by rewrite Eq|]. rewrite (linked_lookup _ _ _ 0) in Hx by done.
    rewrite list_lookup_insert_ne, Hy in Hx by set_solver. cbn in Hx. simplify_eq. by apply (rf_cmd _ _ Hr j y); [rewrite Eq|..].
Qed.

(** The data of a finished read. *)
Lemma read_run s a i b (q : list nat) : refines s a → a_queue a = i :: q → id_bufs s !! i = Some b →
  let m := if Z.land (ib_flags b) B_DIRTY =? 0 then
         r <- idewait polls true;
         when (0 <=? r)
           (s <- get;
            let '(d, c) := insl 0x1f0 (Z.to_nat (BSIZE `div` 4)) (id_ctl s) in
            modify (λ s, s <| id_ctl := c |>);;
            mod_buf i (λ b, b <| ib_data := d |>))
       else ret tt in
  ∃ c, m (s <| idequeue := ib_qnext b |>) = Ok tt (s <| idequeue := ib_qnext b |> <| id_ctl := c |>
      <| id_bufs ::= <[i := b <| ib_data := if dirty b then ib_data b else a_blocks a (ib_dev b) (ib_blockno b) |>]> |>) ∧
    same_disk (id_ctl s) c.
Proof.
  intros Hr Hq Hb m. unfold m, dirty. destruct (Z.land (ib_flags b) B_DIRTY =? 0) eqn:Ed; cbn [negb].
  - destruct (idewait_run true (s <| idequeue := ib_qnext b |>)) as (c & Hw & Hs & Hc & Hbusy). rewrite (bind_ok _ _ _ _ _ Hw). cbn [when Z.leb Z.compare].
    step. cbn [id_ctl]. destruct (insl 0x1f0 _ _) as [d c'] eqn:Ei.
    assert (cmd c = Some (false, ib_dev b, 2 * ib_blockno b, 2)) as Hcmd.
    { rewrite Hc. apply (rf_cmd _ _ Hr i b); [by rewrite Hq|done|]. unfold dirty. by rewrite Ed. }
    apply (insl_data _ _ _ _ _ _ _ Hcmd Hbusy) in Ei as [-> Hs']; [|done]. step. exists c'. split; [|by intros e l; rewrite Hs', Hs].
    erewrite mod_buf_run by exact Hb. rewrite <-(rf_blocks _ _ Hr). unfold block. change (seq 0 (Z.to_nat 2)) with [0; 1]%nat. cbn. rewrite app_nil_r, Z.add_0_r.
    by rewrite !Hs.
  - exists (id_ctl s). split; [|done]. replace (b <| ib_data := ib_data b |>) with b by (by destruct b).
    transitivity (Ok tt (s <| idequeue := ib_qnext b |> <| id_bufs := <[i := b]> (id_bufs s) |>)); [|by destruct s].
    rewrite list_insert_id by done. by destruct s.
Qed.

Lemma intr_refines s a : refines s a → ∃ s', ideintr polls s = Ok tt s' ∧ havedisk1 s' = havedisk1 s ∧ refines s' (a_intr a).
Proof.
  intros Hr. unfold ideintr, a_intr. step. rewrite (rf_queue _ _ Hr). destruct (a_queue a) as [|i q] eqn:Hq; cbn [head]; [by exists s|].
  destruct (rf_links _ _ Hr 0 i) as (b & Hb & Hok & Hn); [by rewrite Hq|]. run get_buf_run; [|exact Hb]. step.
  destruct (read_run s a i b q Hr Hq Hb) as (c & Hrun & Hs). rewrite (bind_ok _ _ _ _ _ Hrun).
  erewrite bind_ok; [|apply mod_buf_run; cbn; apply list_lookup_insert_eq; by eapply lookup_lt_Some]. do 2 step.
  set (s2 := _ <| id_woken ::= _ |>).
  assert (queued s2 (ADisk (a_blocks a) (alter (finished (a_blocks a)) i (a_bufs a)) q (i :: a_woken a))) as H2.
  { rewrite (alter_insert _ _ _ _ (strip_at _ _ _ _ Hr Hb)). destruct Hr as [[H1 H2 H3 H4 H5 H6] H7]. rewrite Hq in *. unfold s2. split; cbn.
    - by rewrite list_insert_insert_eq, list_fmap_insert, H1.
    - intros d n. by rewrite (same_block (id_ctl s)).
    - by rewrite H3.
    - by rewrite Hn; destruct q.
    - intros k j Hk. destruct (H5 (S k) j Hk) as (x & Hx & Hrest). exists x. split; [|done].
      apply list.NoDup_cons in H6 as [Hni _]. rewrite !list_lookup_insert_ne; [done|..]; intros ->; apply Hni; by eapply list_elem_of_lookup_2.
    - by apply list.NoDup_cons in H6 as [_ H6]. }
  rewrite (rf_queue _ _ H2). cbn [a_queue]. destruct q as [|j q]; cbn [head].
  - exists s2. split; [done|]. split; [done|]. by split.
  - destruct (start_refines s2 _ j q H2 eq_refl) as (s' & Hst & Hh & Hr'). exists s'. split; [exact Hst|]. split; [by rewrite Hh|].
    cbn [a_bufs a_blocks a_woken a_start] in Hr'. rewrite list_lookup_alter_ne in Hr'; [exact Hr'|].
    pose proof (rf_nodup _ _ Hr) as Hnd. rewrite Hq in Hnd. apply list.NoDup_cons in Hnd as [Hnd _]. set_solver.
Qed.

(** ** Sequences of requests, interrupts and writes of the buffers' holders *)

(** [Fill i d]: the holder of buffer [i] writes it and marks it dirty (bwrite). *)
Inductive event := Submit (i : nat) | Intr | Fill (i : nat) (d : list Z).

Definition filled (d : list Z) (b : idebuf) : idebuf := b <| ib_data := d |> <| ib_flags ::= λ f, Z.lor f B_DIRTY |>.

Definition ide_step (e : event) : M ide unit :=
  match e with
  | Submit i => iderw_submit polls true i
  | Intr => ideintr polls
  | Fill i d => mod_buf i (filled d)
  end.

Definition a_step (a : adisk) (e : event) : adisk :=
  match e with
  | Submit i => a_submit i a
  | Intr => a_intr a
  | Fill i d => ADisk (a_blocks a) (alter (filled d) i (a_bufs a)) (a_queue a) (a_woken a)
  end.

(** The callers' obligations; [h]: the second disk is there. *)
Definition allowed (h : bool) (e : event) (a : adisk) : Prop :=
  match e with
  | Submit i => ∃ b, a_bufs a !! i = Some b ∧ buf_ok b ∧ Z.land (ib_flags b) (Z.lor B_VALID B_DIRTY) ≠ B_VALID ∧
      (ib_dev b = 0 ∨ h = true) ∧ i ∉ a_queue a
  | Intr => True
  | Fill i d => (i < length (a_bufs a))%nat ∧ length d = Z.to_nat BSIZE ∧ i ∉ a_queue a
  end.

Fixpoint all_allowed (h : bool) (es : list event) (a : adisk) : Prop :=
  match es with [] => True | e :: es => allowed h e a ∧ all_allowed h es (a_step a e) end.

Lemma bufs_at s a i b : queued s a → a_bufs a !! i = Some b → ∃ x, id_bufs s !! i = Some x ∧ b = strip x.
Proof.
  intros Hq. rewrite <-(rf_bufs _ _ Hq), list_lookup_fmap. destruct (id_bufs s !! i) as [x|]; [|done]. intros [= <-]. by exists x.
Qed.

Lemma fill_refines s a i d : refines s a → allowed (havedisk1 s) (Fill i d) a →
  ∃ s', mod_buf i (filled d) s = Ok tt s' ∧ havedisk1 s' = havedisk1 s ∧ refines s' (a_step a (Fill i d)).
Proof.
  intros Hr (Hi & Hd & Hnew). destruct (lookup_lt_is_Some_2 _ _ Hi) as [b Hb]. destruct (bufs_at _ _ _ _ Hr Hb) as (x & Hx & ->).
  rewrite (mod_buf_run _ _ _ _ Hx). eexists. split; [done|]. split; [done|]. cbn [a_step]. rewrite (alter_insert _ _ _ _ Hb).
  assert (∀ k j, a_queue a !! k = Some j → j ≠ i) as Hne by (intros k j Hk ->; apply Hnew; by eapply list_elem_of_lookup_2).
  destruct Hr as [[H1 H2 H3 H4 H5 H6] H7]. split; [split|]; cbn; try done.
  - by rewrite list_fmap_insert, H1.
  - intros k j Hk. rewrite list_lookup_insert_ne by (symmetry; by eapply Hne). by apply H5.
  - intros j y Hj. rewrite head_lookup in Hj. rewrite list_lookup_insert_ne by (symmetry; by eapply Hne). apply H7. by rewrite head_lookup.
Qed.

Lemma step_refines s a e : refines s a → allowed (havedisk1 s) e a →
  ∃ s', ide_step e s = Ok tt s' ∧ havedisk1 s' = havedisk1 s ∧ refines s' (a_step a e).
Proof.
  intros Hr Ha. destruct e as [i| |i d]; [|by apply intr_refines|by apply fill_refines].
  destruct Ha as (b & Hb & Hok & Hw & Hd & Hn). destruct (bufs_at _ _ _ _ Hr Hb) as (x & Hx & ->).
  apply (submit_refines s a i x Hr). split; try done. by destruct Hok.
Qed.

Lemma run_refines es s a : refines s a → all_allowed (havedisk1 s) es a →
  ∃ s', forM es ide_step s = Ok tt s' ∧ refines s' (foldl a_step a es).
Proof.
  revert s a. induction es as [|e es IH]; intros s a Hr Ha; [by exists s|]. destruct Ha as [He Ha].
  destruct (step_refines _ _ _ Hr He) as (s1 & H1 & Hh & Hr1). cbn [forM foldl]. rewrite (bind_ok _ _ _ _ _ H1). apply IH; [done|by rewrite Hh].
Qed.

(** ** Serving the requests one after the other *)

Definition disk_bufs : Type := (Z → Z → list Z) * list idebuf.

Definition serve (i : nat) (p : disk_bufs) : disk_bufs := (a_start p.2 [i] p.1, alter (finished p.1) i p.2).

(** What an event means when every request is served at once. *)
Definition effect (p : disk_bufs) (e : event) : disk_bufs :=
  match e with Submit i => serve i p | Intr => p | Fill i d => (p.1, alter (filled d) i p.2) end.

Definition db_eq (p q : disk_bufs) : Prop := (∀ d n, p.1 d n = q.1 d n) ∧ p.2 = q.2.

#[local] Instance db_eq_equiv : Equivalence db_eq.
Proof.
  split; [by intros p|intros p q [H1 H2]; split; [by intros d n; rewrite H1|done]|].
  intros p q r [H1 H2] [H3 H4]. split; [by intros d n; rewrite H1|by rewrite H2].
Qed.

Lemma a_start_ext bufs bufs' i f g : bufs !! i = bufs' !! i → (∀ d n, f d n = g d n) → ∀ d n, a_start bufs [i] f d n = a_start bufs' [i] g d n.
Proof. intros Hb Hf d n. unfold a_start. rewrite Hb. destruct (bufs' !! i); [|done]. destruct (decide _); [done|apply Hf]. Qed.

Lemma finished_ext f g i (bufs : list idebuf) :
  (∀ b, bufs !! i = Some b → dirty b = false → f (ib_dev b) (ib_blockno b) = g (ib_dev b) (ib_blockno b)) →
  alter (finished f) i bufs = alter (finished g) i bufs.
Proof.
  intros Hfg. destruct (bufs !! i) as [b|] eqn:Hb.
  - rewrite !(alter_insert _ _ _ _ Hb). unfold finished. destruct (dirty b) eqn:Ed; [done|]. by rewrite Hfg.
  - apply list_eq. intros j. rewrite !list_lookup_alter. by destruct (decide (i = j)) as [<-|]; [rewrite Hb|].
Qed.

#[local] Instance serve_proper i : Proper (db_eq ==> db_eq) (serve i).
Proof. intros [f bufs] [g bufs'] [H1 H2]. cbn in *. subst. split; cbn; [by apply a_start_ext|]. apply finished_ext. auto. Qed.

#[local] Instance effect_proper : Proper (db_eq ==> eq ==> db_eq) effect.
Proof. intros p q H e ? <-. destruct e as [i| |i d]; [by apply serve_proper|done|]. destruct H as [H1 H2]. by split; cbn; [|rewrite H2]. Qed.

#[local] Instance serve_all_proper : Proper (db_eq ==> eq ==> db_eq) (foldl (flip serve)).
Proof. intros p q H l ? <-. revert p q H. induction l as [|i l IH]; intros p q H; [done|]. cbn. apply IH. by apply serve_proper. Qed.

(** Starting a write early changes nothing. *)
Lemma serve_started i f bufs bufs' : bufs !! i = bufs' !! i → db_eq (serve i (a_start bufs' [i] f, bufs)) (serve i (f, bufs)).
Proof.
  intros Hi. split; cbn -[a_start].
  - intros d n. unfold a_start. rewrite Hi. destruct (bufs' !! i); [|done]. by destruct (decide _).
  - apply finished_ext. intros b Hb Hd. unfold a_start. rewrite <-Hi, Hb. rewrite decide_False; [done|]. intros [? _]. congruence.
Qed.

(** The outcome of the queued requests. *)
Definition settle (a : adisk) : disk_bufs := foldl (flip serve) (a_blocks a, a_bufs a) (a_queue a).

Record serving (a : adisk) : Prop := {
  sv_nodup : NoDup (a_queue a);
  sv_head : ∀ d n, a_start (a_bufs a) (a_queue a) (a_blocks a) d n = a_blocks a d n;
}.

Lemma a_start_idem bufs q f d n : a_start bufs q (a_start bufs q f) d n = a_start bufs q f d n.
Proof. destruct q as [|i q]; [done|]. unfold a_start. destruct (bufs !! i); [|done]. by destruct (decide _). Qed.

Lemma settle_intr a : serving a → serving (a_intr a) ∧ db_eq (settle (a_intr a)) (settle a).
Proof.
  intros [Hnd Hh]. unfold a_intr. destruct (a_queue a) as [|i q] eqn:Hq; [by split; [split; rewrite ?Hq|]|].
  apply list.NoDup_cons in Hnd as [Hni Hnd]. destruct q as [|j q].
  - split; [by split|]. unfold settle. rewrite Hq. cbn -[a_start]. split; cbn -[a_start]; [|done]. intros d n. symmetry. apply Hh.
  - assert (alter (finished (a_blocks a)) i (a_bufs a) !! j = a_bufs a !! j) as Hj by (apply list_lookup_alter_ne; set_solver).
    split; [split; cbn -[a_start]; [done|]|].
    + intros d n. rewrite <-(a_start_idem (a_bufs a) (j :: q)). by apply a_start_ext.
    + unfold settle. rewrite Hq. cbn -[a_start]. apply serve_all_proper; [|done].
      etransitivity; [by apply serve_started|]. apply serve_proper. split; cbn -[a_start]; [|done]. intros d n. symmetry. apply Hh.
Qed.

Lemma settle_submit a i : serving a → i ∉ a_queue a → serving (a_submit i a) ∧ db_eq (settle (a_submit i a)) (serve i (settle a)).
Proof.
  intros [Hnd Hh] Hi. unfold a_submit, settle. cbn -[a_start]. destruct (a_queue a) as [|j q] eqn:Hq.
  - rewrite decide_True by done. split; [split; cbn -[a_start]; [apply NoDup_singleton|apply a_start_idem]|]. by apply serve_started.
  - rewrite decide_False by done. split; [|by rewrite foldl_snoc]. split; cbn -[a_start]; [|exact Hh].
    apply (list.NoDup_app (j :: q) [i]). split_and!; [done|set_solver|apply NoDup_singleton].
Qed.

Lemma serve_fill i d j f bufs : j ≠ i →
  serve j (f, alter (filled d) i bufs) = ((serve j (f, bufs)).1, alter (filled d) i (serve j (f, bufs)).2).
Proof.
  intros Hne. unfold serve. cbn. rewrite list_lookup_alter_ne by done. f_equal.
  apply list_eq. intros k. by rewrite !list_lookup_alter; repeat destruct (decide _); simplify_eq; rewrite ?list_lookup_alter_ne by done.
Qed.

Lemma settle_fill a i d : serving a → i ∉ a_queue a →
  serving (a_step a (Fill i d)) ∧ settle (a_step a (Fill i d)) = ((settle a).1, alter (filled d) i (settle a).2).
Proof.
  intros [Hnd Hh] Hi. split.
  - split; [done|]. cbn -[a_start]. destruct (a_queue a) as [|j q]; [done|]. intros e n. etransitivity; [|apply Hh].
    apply (a_start_ext _ _ j); [|done]. apply list_lookup_alter_ne. set_solver.
  - unfold settle. cbn. generalize (a_blocks a) (a_bufs a). clear Hh Hnd. induction (a_queue a) as [|j q IH]; intros f bufs; [done|].
    cbn [foldl]. change (flip serve ?p j) with (serve j p). rewrite serve_fill by set_solver. rewrite IH by set_solver. by destruct (serve j (f, bufs)).
Qed.

Lemma settle_step h a e : serving a → allowed h e a → serving (a_step a e) ∧ db_eq (settle (a_step a e)) (effect (settle a) e).
Proof.
  intros Hs Ha. destruct e as [i| |i d]; [|by apply settle_intr|].
  - destruct Ha as (b & _ & _ & _ & _ & Hi). by apply settle_submit.
  - destruct Ha as (_ & _ & Hi). destruct (settle_fill a i d Hs Hi) as [H1 H2]. split; [done|]. by rewrite H2.
Qed.

Lemma settle_run h es a p : serving a → all_allowed h es a → db_eq (settle a) p →
  serving (foldl a_step a es) ∧ db_eq (settle (foldl a_step a es)) (foldl effect p es).
Proof.
  revert a p. induction es as [|e es IH]; intros a p Hs Ha Hp; [done|]. destruct Ha as [He Ha]. cbn.
  destruct (settle_step h a e Hs He) as [H1 H2]. apply IH; [done..|]. rewrite H2. by apply effect_proper.
Qed.

(** The requests, in order. *)
Definition requests (es : list event) : list nat := omap (λ e, if e is Submit i then Some i else None) es.

Lemma order_run es a : rev (a_queue (foldl a_step a es)) ++ a_woken (foldl a_step a es) = rev (requests es) ++ rev (a_queue a) ++ a_woken a.
Proof.
  revert a. induction es as [|e es IH]; intros a; [done|]. cbn [foldl]. rewrite IH. destruct e as [i| |i d]; cbn; [|f_equal|done].
  - by rewrite rev_app_distr, <-!app_assoc.
  - unfold a_intr. destruct (a_queue a) as [|i q] eqn:Hq; [by rewrite Hq|]. cbn. by rewrite <-app_assoc.
Qed.

Lemma queue_run es a : (length (a_queue (foldl a_step a es)) ≤ length (requests es) + length (a_queue a))%nat.
Proof.
  revert a. induction es as [|e es IH]; intros a; [done|]. cbn [foldl]. etransitivity; [apply IH|]. destruct e as [i| |i d]; cbn; [|apply Nat.add_le_mono_l|done].
  - rewrite length_app. fold (requests es). cbn. lia.
  - unfold a_intr. destruct (a_queue a) eqn:Hq; [by rewrite Hq|]. cbn. lia.
Qed.

Lemma queue_intrs n a : a_queue (foldl a_step a (replicate n Intr)) = drop n (a_queue a).
Proof.
  revert a. induction n as [|n IH]; intros a; [by rewrite drop_0|]. cbn [replicate foldl]. rewrite IH. cbn [a_step]. unfold a_intr.
  destruct (a_queue a) as [|i q] eqn:Hq; [by rewrite Hq, !drop_nil|done].
Qed.

Lemma allowed_intrs h es n a : all_allowed h es a → all_allowed h (es ++ replicate n Intr) a.
Proof.
  revert a. induction es as [|e es IH]; intros a; [intros _; revert a; induction n; intros a; cbn; auto|].
  intros [H1 H2]. split; [done|]. by apply IH.
Qed.

Lemma effect_intrs p es n : foldl effect p (es ++ replicate n Intr) = foldl effect p es.
Proof. rewrite foldl_app. generalize (foldl effect p es). induction n as [|n IH]; intros x; [done|apply IH]. Qed.

Lemma requests_intrs es n : requests (es ++ replicate n Intr) = requests es.
Proof. unfold requests. rewrite omap_app. induction n as [|n IH]; [apply app_nil_r|apply IH]. Qed.

Lemma idle_serving a : a_queue a = [] → serving a.
Proof. intros Hq. split; rewrite Hq; [apply NoDup_nil_2|done]. Qed.

(** The abstract state of a driver with an empty queue. *)
Definition idle_disk (s : ide) : adisk := ADisk (block (id_ctl s)) (strip <$> id_bufs s) [] (id_woken s).

Lemma idle_refines s : idequeue s = None → refines s (idle_disk s).
Proof. intros Hq. split; [split|]; cbn; try done. apply NoDup_nil_2. Qed.

(** C7: The disk driver serves its requests as if one at a time, in the order they were made: an idle
    driver goes through any sequence of iderw calls, interrupts and writes of idle buffers without a panic;
    once it got an interrupt for each request the queue is empty, both disks and all buffers are what
    serving every request at once gives (a dirty buffer is on the disk, a read buffer has the block of its
    time), and the callers were woken in order. *)
Theorem ide_serves_in_order es s : idequeue s = None → all_allowed (havedisk1 s) es (idle_disk s) →
  let result := foldl effect (block (id_ctl s), strip <$> id_bufs s) es in
  ∃ s', forM (es ++ replicate (length (requests es)) Intr) ide_step s = Ok tt s' ∧ idequeue s' = None ∧
    (∀ d n, block (id_ctl s') d n = result.1 d n) ∧ strip <$> id_bufs s' = result.2 ∧ id_woken s' = rev (requests es) ++ id_woken s.
Proof.
  intros Hr%idle_refines Ha result. set (n := length (requests es)). apply (allowed_intrs _ _ n) in Ha.
  destruct (run_refines _ _ _ Hr Ha) as (s' & Hrun & Hr'). exists s'. split; [done|]. set (a' := foldl a_step _ _) in Hr'.
  assert (a_queue a' = []) as Hq.
  { unfold a'. rewrite foldl_app, queue_intrs. apply drop_ge. pose proof (queue_run es (idle_disk s)) as Hl. cbn in Hl. lia. }
  destruct (settle_run _ _ _ (block (id_ctl s), strip <$> id_bufs s) (idle_serving (idle_disk s) eq_refl) Ha) as [_ [H1 H2]]; [done|].
  fold a' in H1, H2. unfold settle in H1, H2. rewrite Hq, effect_intrs in H1, H2. cbn [foldl fst snd] in H1, H2. split_and!.
  - by rewrite (rf_queue _ _ Hr'), Hq.
  - intros d m. by rewrite (rf_blocks _ _ Hr'), H1.
  - by rewrite (rf_bufs _ _ Hr').
  - rewrite (rf_woken _ _ Hr'). pose proof (order_run (es ++ replicate n Intr) (idle_disk s)) as Ho. fold a' in Ho.
    by rewrite Hq, requests_intrs in Ho.
Qed.
End ide.

(** ** A controller that keeps the promises *)

Record ctl0 := Ctl0 { c_reg : Z → Z; c_busy : nat; c_cmd : option (bool * Z * Z * Z); c_disk : Z → Z → list Z }.

Definition busy0 (c : ctl0) : nat := c_busy c `min` 3.
Definition sector0 (c : ctl0) (d l : Z) : list Z := resize 512 0 (c_disk c d l).

#[local] Instance ata0 : Ata := {|
  ctl := ctl0;
  inb p c := match busy0 c with
    | O => (IDE_DRDY, Ctl0 (c_reg c) 0 (c_cmd c) (c_disk c))
    | S n => (IDE_BSY, Ctl0 (c_reg c) n (c_cmd c) (c_disk c)) end;
  outb p v c := if p =? 0x1f7 then
      Ctl0 (c_reg c) 3 (Some ((v =? IDE_CMD_WRITE) || (v =? IDE_CMD_WRMUL), Z.land (Z.shiftr (c_reg c 0x1f6) 4) 1,
        c_reg c 0x1f3 + 2 ^ 8 * c_reg c 0x1f4 + 2 ^ 16 * c_reg c 0x1f5 + 2 ^ 24 * Z.land (c_reg c 0x1f6) 0x0f, c_reg c 0x1f2)) (c_disk c)
    else Ctl0 (λ q, if decide (q = p) then v else c_reg c q) (c_busy c) (c_cmd c) (c_disk c);
  insl p w c := (if c_cmd c is Some (false, d, l, n) then concat ((λ i, sector0 c d (l + Z.of_nat i)) <$> seq 0 (Z.to_nat n)) else [], c);
  outsl p x c := if c_cmd c is Some (true, d, l, n) then
      Ctl0 (c_reg c) (c_busy c) (c_cmd c)
        (λ e m, if decide (e = d ∧ l ≤ m < l + n) then slice (Z.to_nat (512 * (m - l))) 512 x else c_disk c e m)
    else c;
|}.

#[local] Instance ata0_ok : AtaOk ata0 4.
Proof.
  refine {| reg := c_reg : @ctl ata0 → _; busy := busy0 : @ctl ata0 → _; cmd := c_cmd : @ctl ata0 → _; sector := sector0 : @ctl ata0 → _ |}.
  - intros c d l. apply length_resize.
  - intros c. unfold busy0. lia.
  - intros c v c' Hi. cbn in Hi. destruct (busy0 c) as [|n] eqn:Eb; injection Hi as <- <-; split_and!; try done.
    unfold busy0 in *. cbn. lia.
  - intros p v c Hp. cbn. destruct (Z.eqb_spec p 0x1f7) as [->|]; [set_solver|done].
  - intros v c Hv. done.
  - intros c d l n w x c' Hc Hb Hw Hi. cbn in Hi. rewrite Hc in Hi. by injection Hi as <- <-.
  - intros c d l n x Hc Hx e m. cbn. rewrite Hc. unfold sector0. cbn. destruct (decide _) as [[_ Hm]|]; [|done].
    apply resize_all_alt. unfold slice. rewrite length_take, length_drop. lia.
Defined.

Definition ide0 : ide := Ide (Ctl0 (λ _, 0) 2 None (λ d l, [d; l]))
  [IdeBuf 0 0 7 (replicate 1024 1) None; IdeBuf 0 0 7 (replicate 1024 2) None; IdeBuf 0 1 8 (replicate 1024 3) None] None true [].

Lemma ide_serves_in_order_witness : ∃ s',
  forM [Fill 0 (replicate 1024 5); Submit 0; Submit 2; Intr; Submit 1; Intr; Intr; Intr] (ide_step (polls := 4)) ide0 = Ok tt s' ∧
  (ib_data <$> id_bufs s' !! 1%nat) = Some (replicate 1024 5) ∧ id_woken s' = [1; 2; 0]%nat.
Proof.
  destruct (ide_serves_in_order [Fill 0 (replicate 1024 5); Submit 0; Submit 2; Intr; Submit 1] ide0) as (s' & H1 & _ & _ & H4 & H5).
  - done.
  - cbn -[replicate]. split_and!; try lia; try done; try apply not_elem_of_nil.
    all: eexists; split; [reflexivity|]; split_and!; [|done|auto|set_solver].
    all: split; cbn -[replicate]; [|auto|by rewrite length_replicate]; done.
  - exists s'. split; [exact H1|]. split; [|exact H5]. apply (f_equal (λ l, ib_data <$> l !! 1%nat)) in H4.
    rewrite list_lookup_fmap in H4. destruct (id_bufs s' !! 1%nat); [|by vm_compute in H4]. etransitivity; [exact H4|]. by vm_compute.
Defined.
