(* ===== verification/Boot.v ===== *)
(** * The boot loader (bootmain.c)

    The loader reads the kernel, an ELF file from sector 1 of the first disk on, into
    physical memory.  The disk controller is the one of Ide.v; the memory is that of
    Mem.v.  The call of the kernel's entry point is the result of [bootmain]. *)
From S2P Require Import Prelude Mem Bytes KState Bio Ide IdeThm Exec.

Abbreviation SECTSIZE := 512%Z.
Abbreviation ELF_SCRATCH := 0x10000%Z.   (* scratch space *)

Section boot.
  Context `{Ata} (polls : nat).

Record boot := Boot { bt_ctl : ctl; bt_mem : mem }.
Definition eta_boot (r : boot) : boot := Boot (bt_ctl r) (bt_mem r).
#[global] Instance upd_bt_ctl : Upd bt_ctl := ltac:(mk_upd eta_boot bt_ctl).
#[global] Instance upd_bt_mem : Upd bt_mem := ltac:(mk_upd eta_boot bt_mem).

Local Abbreviation B := (M boot).

Definition bout (p v : Z) : B unit := modify (λ s, s <| bt_ctl ::= outb p (u8 v) |>).

(** The loop of waitdisk, at most [n] rounds. *)
Fixpoint wait_loop (n : nat) : B unit :=
  match n with
  | O => λ _, Fuel
  | S n =>
      s <- get;
      let '(v, c) := inb 0x1f7 (bt_ctl s) in
      modify (λ s, s <| bt_ctl := c |>);;
      if negb (Z.land v 0xc0 =? 0x40) then wait_loop n else ret tt
  end.

Definition waitdisk : B unit := wait_loop polls.

Definition readsect (dst offset : Z) : B unit :=
  waitdisk;;
  bout 0x1f2 1;;
  bout 0x1f3 offset;;
  bout 0x1f4 (Z.shiftr offset 8);;
  bout 0x1f5 (Z.shiftr offset 16);;
  bout 0x1f6 (Z.lor (Z.shiftr offset 24) 0xe0);;
  bout 0x1f7 0x20;;
  waitdisk;;
  s <- get;
  let '(d, c) := insl 0x1f0 (Z.to_nat (SECTSIZE `div` 4)) (bt_ctl s) in
  put (Boot c (store_bytes (bt_mem s) dst d)).

(** [for (; pa < epa; pa += SECTSIZE, offset++) readsect(pa, offset)], at most [k] rounds. *)
Fixpoint readseg_loop (k : nat) (pa epa offset : Z) : B unit :=
  match k with
  | O => λ _, Fuel
  | S k =>
      if pa <? epa then readsect pa offset;; readseg_loop k (u32 (pa + SECTSIZE)) epa (u32 (offset + 1)) else ret tt
  end.

Definition readseg (pa count offset : Z) : B unit :=
  let epa := u32 (pa + count) in
  let pa := u32 (pa - offset `mod` SECTSIZE) in
  let offset := u32 (offset `div` SECTSIZE + 1) in
  readseg_loop (S (Z.to_nat ((epa - pa) `div` SECTSIZE + 1))) pa epa offset.

(** The loop over the program headers, from address [ph] on, at most [k] rounds. *)
Fixpoint load_segments (k : nat) (ph eph : Z) : B unit :=
  match k with
  | O => λ _, Fuel
  | S k =>
      if negb (ph <? eph) then ret tt else
      s <- get;
      let pa := ld32 (bt_mem s) (ph + 12) in
      readseg pa (ld32 (bt_mem s) (ph + 16)) (ld32 (bt_mem s) (ph + 4));;
      s <- get;
      let memsz := ld32 (bt_mem s) (ph + 20) in
      let filesz := ld32 (bt_mem s) (ph + 16) in
      when (filesz <? memsz) (modify (λ s, s <| bt_mem ::= λ m, stosb m (u32 (pa + filesz)) 0 (Z.to_nat (memsz - filesz)) |>));;
      load_segments k (u32 (ph + 32)) eph
  end.

(** [None]: bootmain returns. *)
Definition bootmain : B (option Z) :=
  readseg ELF_SCRATCH 4096 0;;
  s <- get;
  let m := bt_mem s in
  if negb (ld32 m ELF_SCRATCH =? ELF_MAGIC) then ret None else
  let ph := u32 (ELF_SCRATCH + ld32 m (ELF_SCRATCH + 28)) in
  let phnum := m (ELF_SCRATCH + 44) + 2 ^ 8 * m (ELF_SCRATCH + 45) in
  load_segments (S (Z.to_nat phnum)) ph (u32 (ph + 32 * phnum));;
  s <- get;
  ret (Some (ld32 (bt_mem s) (ELF_SCRATCH + 24))).
End boot.
Arguments Boot {_} _ _.
Arguments boot _ : clear implicits.
