(* ===== verification/BootThm.v ===== *)
(** * The boot loader loads the kernel (bootmain.c) *)
From S2P Require Import Prelude Mem Bytes KState Bio Ide IdeThm Exec Boot.

Section boot.
  Context {A : Ata} {polls : nat} {AO : AtaOk A polls}.

(** A byte of the kernel file, which starts at sector 1. *)
Definition kbyte (c : ctl) (off : Z) : Z := u8 (sector c 0 (off `div` 512 + 1) !!! Z.to_nat (off `mod` 512)).

Lemma same_kbyte c c' off : same_disk c c' → kbyte c' off = kbyte c off.
Proof. intros Hs. unfold kbyte. by rewrite Hs. Qed.

Lemma store_bytes_spec m a bs x :
  store_bytes m a bs x = if decide (a ≤ x < a + Z.of_nat (length bs)) then u8 (bs !!! Z.to_nat (x - a)) else m x.
Proof.
  revert m a. induction bs as [|b bs IH]; intros m a; cbn [store_bytes length]; [by rewrite decide_False by lia|].
  rewrite IH. unfold st8. destruct (decide (x = a)) as [->|Hne].
  - rewrite decide_False, decide_True by lia. by rewrite Z.eqb_refl, Z.sub_diag.
  - rewrite (proj2 (Z.eqb_neq _ _) Hne). destruct (decide (a + 1 ≤ x < _)); [|by rewrite decide_False by lia].
    rewrite decide_True by lia. by replace (Z.to_nat (x - a)) with (S (Z.to_nat (x - (a + 1)))) by lia.
Qed.

Lemma wait_loop_run n s : (busy (bt_ctl s) < n)%nat →
  ∃ c, wait_loop n s = Ok tt (s <| bt_ctl := c |>) ∧ same_disk (bt_ctl s) c ∧ cmd c = cmd (bt_ctl s) ∧ busy c = O.
Proof.
  revert s. induction n as [|n IH]; intros s Hb; [lia|]. cbn [wait_loop]. step.
  destruct (inb 0x1f7 (bt_ctl s)) as [v c] eqn:Ei. destruct (inb_status _ _ _ Ei) as (Hs & Hc & Hst). step.
  change 0xc0 with (Z.lor IDE_BSY IDE_DRDY). change 0x40 with IDE_DRDY. destruct (busy (bt_ctl s)) as [|k] eqn:Eb.
  - destruct Hst as (H1 & H2 & H3). rewrite H1, Z.eqb_refl. exists c. by split_and!.
  - destruct Hst as (H1 & H2). rewrite (proj2 (Z.eqb_neq _ _)) by done. cbn [negb].
    destruct (IH (s <| bt_ctl := c |>)) as (c' & Hr & Hs' & Hc' & Hrest); [cbn; lia|]. exists c'.
    split_and!; [by rewrite Hr; destruct s|intros d l; rewrite Hs'; apply Hs|by rewrite Hc'|done].
Qed.

Lemma waitdisk_run s :
  ∃ c, waitdisk polls s = Ok tt (s <| bt_ctl := c |>) ∧ same_disk (bt_ctl s) c ∧ cmd c = cmd (bt_ctl s) ∧ busy c = O.
Proof. apply wait_loop_run, busy_polls. Qed.

Lemma offset_bytes n : 0 ≤ n < 2 ^ 24 →
  u8 n + 2 ^ 8 * u8 (Z.shiftr n 8) + 2 ^ 16 * u8 (Z.shiftr n 16) = n ∧ Z.shiftr n 24 = 0.
Proof.
  intros Hn. rewrite !Z.shiftr_div_pow2 by lia. unfold u8.
  change (2 ^ 8) with 256 in *. change (2 ^ 16) with 65536. change (2 ^ 24) with 16777216 in *.
  rewrite (Z.div_small n 16777216) by lia. split; [|done]. Z.to_euclidean_division_equations. lia.
Qed.

(** The sector command. *)
Lemma sect_cmd c n : 0 ≤ n < 2 ^ 24 →
  let c' := outb 0x1f7 (u8 0x20) (outb 0x1f6 (u8 (Z.lor (Z.shiftr n 24) 0xe0)) (outb 0x1f5 (u8 (Z.shiftr n 16))
    (outb 0x1f4 (u8 (Z.shiftr n 8)) (outb 0x1f3 (u8 n) (outb 0x1f2 (u8 1) c))))) in
  cmd c' = Some (false, 0, n, 1) ∧ same_disk c c'.
Proof.
  intros Hn. destruct (offset_bytes n Hn) as [E1 E2]. rewrite E2. cbv zeta. change (u8 0x20) with IDE_CMD_READ.
  match goal with |- cmd (outb _ _ ?c0) = _ ∧ _ => destruct (outb_cmd IDE_CMD_READ c0) as [-> Hs]; [set_solver|] end. split.
  - rewrite !reg_outb by set_solver. repeat first [rewrite decide_False by done|rewrite decide_True by done].
    rewrite <-E1 at 4. by rewrite Z.add_0_r.
  - intros d l. by rewrite Hs, !sector_outb by set_solver.
Qed.

Lemma readsect_run dst n s : 0 ≤ n < 2 ^ 24 →
  ∃ c, readsect polls dst n s = Ok tt (Boot c (store_bytes (bt_mem s) dst (sector (bt_ctl s) 0 n))) ∧ same_disk (bt_ctl s) c.
Proof.
  intros Hn. unfold readsect. destruct (waitdisk_run s) as (c & Hw & Hs & _). rewrite (bind_ok _ _ _ _ _ Hw).
  unfold bout. do 6 step. destruct (sect_cmd c n Hn) as [Hcmd Hs1]. cbv zeta in Hcmd, Hs1. set (c1 := outb 0x1f7 _ _) in *.
  match goal with |- context [bind (waitdisk polls) _ ?x] => set (s1 := x) end.
  assert (bt_ctl s1 = c1) as E1 by done. destruct (waitdisk_run s1) as (c2 & Hw2 & Hs2 & Hc2 & Hb2). rewrite (bind_ok _ _ _ _ _ Hw2).
  step. change (bt_ctl (s1 <| bt_ctl := c2 |>)) with c2. change (bt_mem (s1 <| bt_ctl := c2 |>)) with (bt_mem s).
  destruct (insl 0x1f0 (Z.to_nat (SECTSIZE `div` 4)) c2) as [d c3] eqn:Ei. rewrite E1 in *. rewrite Hcmd in Hc2.
  apply (insl_data _ _ _ _ _ _ _ Hc2 Hb2) in Ei as [-> Hs3]; [|done]. exists c3. split.
  - change (seq 0 (Z.to_nat 1)) with [0%nat]. cbn [fmap list_fmap concat]. by rewrite app_nil_r, Z.add_0_r, Hs2, Hs1, Hs.
  - intros e l. by rewrite Hs3, Hs2, Hs1, Hs.
Qed.

(** The memory after sectors have been read: up to [hi] it holds the file. *)
Definition loaded (c : ctl) (pa off lo hi : Z) (m m' : mem) : Prop :=
  ∀ x, m' x = if decide (lo ≤ x < hi) then kbyte c (x - pa + off) else m x.

Lemma readseg_loop_run k pa off p epa s :
  (p - pa + off) `mod` 512 = 0 → 0 ≤ p - pa + off → 0 ≤ p → epa < 2 ^ 32 - 512 → epa - pa + off ≤ 2 ^ 32 →
  epa - p < 512 * Z.of_nat k → p < epa + 512 →
  ∃ c m hi, readseg_loop polls (S k) p epa ((p - pa + off) `div` 512 + 1) s = Ok tt (Boot c m) ∧ same_disk (bt_ctl s) c ∧
    Z.max p epa ≤ hi < Z.max (p + 1) (epa + 512) ∧ loaded (bt_ctl s) pa off p hi (bt_mem s) m.
Proof.
  change (2 ^ 32) with 4294967296. revert p s. induction k as [|k IH]; intros p s Hm H0 Hp He Hn Hk Hpe.
  { cbn [readseg_loop]. rewrite (proj2 (Z.ltb_ge _ _)) by lia. exists (bt_ctl s), (bt_mem s), p. split_and!; [by destruct s|done|lia|lia|].
    intros x. by rewrite decide_False by lia. }
  cbn [readseg_loop]. destruct (Z.ltb_spec p epa) as [Hlt|Hge].
  - set (n := p - pa + off) in *. assert (n = 512 * (n `div` 512)) as En by (rewrite (Z.div_mod n 512) at 1 by lia; lia).
    assert (0 ≤ n `div` 512 < 8388608) as Hd by lia.
    destruct (readsect_run p (n `div` 512 + 1) s) as (c & Hr & Hs); [lia|]. rewrite (bind_ok _ _ _ _ _ Hr). change SECTSIZE with 512.
    rewrite !u32_small by (change (2 ^ 32) with 4294967296; lia).
    replace (n `div` 512 + 1 + 1) with ((p + 512 - pa + off) `div` 512 + 1).
    2: { replace (p + 512 - pa + off) with (n + 1 * 512) by lia. rewrite Z.div_add by lia. lia. }
    destruct (IH (p + 512) (Boot c (store_bytes (bt_mem s) p (sector (bt_ctl s) 0 (n `div` 512 + 1))))) as (c' & m & hi & Hrun & Hs' & Hhi & Hl);
      [|lia..|].
    { replace (p + 512 - pa + off) with (n + 1 * 512) by lia. by rewrite Z.mod_add by lia. }
    exists c', m, hi. split; [exact Hrun|]. split; [by intros e l; rewrite Hs', <-Hs|]. split; [lia|]. intros x. rewrite Hl. cbn [bt_ctl bt_mem].
    rewrite store_bytes_spec, sector_len. change (Z.of_nat 512) with 512. destruct (decide (p + 512 ≤ x < hi)); [rewrite decide_True by lia; by apply same_kbyte|].
    destruct (decide (p ≤ x < p + 512)); [|by rewrite decide_False by lia]. rewrite decide_True by lia. unfold kbyte.
    replace (x - pa + off) with ((x - p) + n `div` 512 * 512) by lia. rewrite Z.div_add, Z.mod_add by lia. by rewrite (Z.div_small (x - p)), (Z.mod_small (x - p)) by lia.
  - exists (bt_ctl s), (bt_mem s), p. split_and!; [by destruct s|done|lia|lia|]. intros x. by rewrite decide_False by lia.
Qed.

Lemma readseg_run pa count off s :
  0 ≤ off → 0 ≤ count → off `mod` 512 ≤ pa → pa + count < 2 ^ 32 - 512 → off + count ≤ 2 ^ 32 →
  ∃ c m hi, readseg polls pa count off s = Ok tt (Boot c m) ∧ same_disk (bt_ctl s) c ∧
    pa + count ≤ hi < pa + count + 512 ∧ loaded (bt_ctl s) pa off (pa - off `mod` 512) hi (bt_mem s) m.
Proof.
  change (2 ^ 32) with 4294967296. intros Ho Hc Hpa Hend Hoff. unfold readseg. change SECTSIZE with 512. pose proof (Z.mod_pos_bound off 512).
  assert (off = 512 * (off `div` 512) + off `mod` 512) as Eo by (by apply Z.div_mod).
  rewrite !u32_small by (change (2 ^ 32) with 4294967296; lia).
  set (p := pa - off `mod` 512). assert (p - pa + off = 512 * (off `div` 512)) as Ep by lia.
  replace (off `div` 512 + 1) with ((p - pa + off) `div` 512 + 1).
  2: { rewrite Ep, Z.mul_comm, Z.div_mul by lia. done. }
  assert (0 ≤ (pa + count - p) `div` 512 ∧ pa + count - p < 512 * ((pa + count - p) `div` 512 + 1)) as [Hd1 Hd2].
  { pose proof (Z.div_mod (pa + count - p) 512). pose proof (Z.mod_pos_bound (pa + count - p) 512). lia. }
  destruct (readseg_loop_run (Z.to_nat ((pa + count - p) `div` 512 + 1)) pa off p (pa + count) s) as (c & m & hi & Hr & Hs & Hhi & Hl);
    [rewrite Ep, Z.mul_comm, Z.mod_mul; lia|change (2 ^ 32) with 4294967296; lia..|].
  exists c, m, hi. split_and!; [exact Hr|done|lia|lia|exact Hl].
Qed.

(** ** The kernel file *)

Record segment := Segment { g_pa : Z; g_off : Z; g_filesz : Z; g_memsz : Z }.

Definition segment_at (f : mem) (a : Z) : segment := Segment (ld32 f (a + 12)) (ld32 f (a + 4)) (ld32 f (a + 16)) (ld32 f (a + 20)).
Definition phnum (f : mem) : Z := f 44 + 2 ^ 8 * f 45.
Definition segments (f : mem) : list segment := (λ i, segment_at f (ld32 f 28 + 32 * Z.of_nat i)) <$> seq 0 (Z.to_nat (phnum f)).

(** Above the scratch page, and inside the address space with the sectors that are read. *)
Record segment_ok (g : segment) : Prop := {
  go_size : g_filesz g ≤ g_memsz g;
  go_low : ELF_SCRATCH + 4096 ≤ g_pa g - g_off g `mod` 512;
  go_high : g_pa g + g_memsz g < 2 ^ 32 - 512;
  go_file : g_off g + g_filesz g ≤ 2 ^ 32;
}.

(** The sectors of [h] start after [g]. *)
Definition below (g h : segment) : Prop := g_pa g + g_memsz g ≤ g_pa h - g_off h `mod` 512.
Fixpoint ascending (gs : list segment) : Prop :=
  match gs with [] => True | g :: gs => Forall (below g) gs ∧ ascending gs end.

Record kernel_ok (f : mem) : Prop := {
  ko_magic : ld32 f 0 = ELF_MAGIC;
  ko_headers : ld32 f 28 + 32 * phnum f ≤ 4096;
  ko_segments : Forall segment_ok (segments f);
  ko_ascending : ascending (segments f);
}.

(** What a segment's memory holds: the bytes of the file, then zeros. *)
Definition segment_loaded (f m : mem) (g : segment) : Prop :=
  (∀ k, 0 ≤ k < g_filesz g → m (g_pa g + k) = f (g_off g + k)) ∧ (∀ k, g_filesz g ≤ k < g_memsz g → m (g_pa g + k) = 0).

Definition header_loaded (f m : mem) : Prop := ∀ x, 0 ≤ x < 4096 → m (ELF_SCRATCH + x) = f x.

Lemma header_ld32 f m a : header_loaded f m → 0 ≤ a → a + 4 ≤ 4096 → ld32 m (ELF_SCRATCH + a) = ld32 f a.
Proof. intros Hh H0 H1. unfold ld32. rewrite <-!Z.add_assoc. by rewrite !Hh by lia. Qed.

Lemma kbyte_ok c : mem_ok (kbyte c).
Proof. intros x. apply u8_range. Qed.

(** One segment. *)
Lemma load_segment g s f : (∀ x, kbyte (bt_ctl s) x = f x) → segment_ok g → 0 ≤ g_off g → 0 ≤ g_filesz g →
  ∃ c m, readseg polls (g_pa g) (g_filesz g) (g_off g) s = Ok tt (Boot c m) ∧ same_disk (bt_ctl s) c ∧
    let m' := if g_filesz g <? g_memsz g then stosb m (u32 (g_pa g + g_filesz g)) 0 (Z.to_nat (g_memsz g - g_filesz g)) else m in
    segment_loaded f m' g ∧ ∀ x, x < g_pa g - g_off g `mod` 512 → m x = bt_mem s x ∧ m' x = bt_mem s x.
Proof.
  intros Hf [Hsz Hlow Hhigh Hfile] Ho Hfs. change ELF_SCRATCH with 65536 in *. change (2 ^ 32) with 4294967296 in *.
  pose proof (Z.mod_pos_bound (g_off g) 512).
  destruct (readseg_run (g_pa g) (g_filesz g) (g_off g) s) as (c & m & hi & Hr & Hs & Hhi & Hl); [change (2 ^ 32) with 4294967296; lia..|].
  exists c, m. split; [exact Hr|]. split; [done|]. intros m'.
  assert (∀ x, m' x = if decide (g_pa g + g_filesz g ≤ x < g_pa g + g_memsz g) then 0 else m x) as Hm.
  { intros x. unfold m'. rewrite u32_small by (change (2 ^ 32) with 4294967296; lia). destruct (Z.ltb_spec (g_filesz g) (g_memsz g)); [|by rewrite decide_False by lia].
    rewrite stosb_spec. apply decide_ext. lia. }
  split; [split|].
  - intros k Hk. rewrite Hm, decide_False, Hl, decide_True by lia. rewrite Hf. f_equal. lia.
  - intros k Hk. by rewrite Hm, decide_True by lia.
  - intros x Hx. rewrite Hm, decide_False, Hl, decide_False by lia. done.
Qed.

Lemma segment_below f m m' g h : below g h → g_filesz g ≤ g_memsz g → (∀ x, x < g_pa h - g_off h `mod` 512 → m' x = m x) →
  segment_loaded f m g → segment_loaded f m' g.
Proof. unfold below. intros Hb Hs Hm [H1 H2]. split; intros k Hk; rewrite Hm by lia; auto. Qed.

Lemma load_segments_run f gs pre a s :
  mem_ok f → (∀ x, kbyte (bt_ctl s) x = f x) → header_loaded f (bt_mem s) → 0 ≤ a → a + 32 * Z.of_nat (length gs) ≤ 4096 →
  (∀ j g, gs !! j = Some g → g = segment_at f (a + 32 * Z.of_nat j)) → Forall segment_ok gs → Forall segment_ok pre →
  Forall (λ g, Forall (below g) gs) pre → ascending gs → Forall (segment_loaded f (bt_mem s)) pre →
  ∃ s', load_segments polls (S (length gs)) (ELF_SCRATCH + a) (ELF_SCRATCH + a + 32 * Z.of_nat (length gs)) s = Ok tt s' ∧
    Forall (segment_loaded f (bt_mem s')) (pre ++ gs) ∧ header_loaded f (bt_mem s').
Proof.
  intros Hfok. revert pre a s. induction gs as [|g gs IH]; intros pre a s Hf Hh Ha Hlen Hgs Hok Hpok Hbel Hasc Hpre.
  { exists s. cbn -[Z.mul]. rewrite (proj2 (Z.ltb_ge _ _)) by lia. by rewrite app_nil_r. }
  cbn [length] in *. rewrite Nat2Z.inj_succ in *. remember (S (length gs)) as k eqn:Ek. cbn [load_segments]. rewrite (proj2 (Z.ltb_lt _ _)) by lia. cbn [negb]. step.
  pose proof (Hgs 0%nat g eq_refl) as Eg. rewrite Z.mul_0_r, Z.add_0_r in Eg. apply list.Forall_cons in Hok as [Hg Hok].
  rewrite <-!Z.add_assoc. rewrite !(header_ld32 f) by (done || lia).
  change (ld32 f (a + 12)) with (g_pa (segment_at f a)). change (ld32 f (a + 16)) with (g_filesz (segment_at f a)).
  change (ld32 f (a + 4)) with (g_off (segment_at f a)). rewrite <-Eg.
  destruct (load_segment g s f Hf Hg) as (c & m & Hr & Hs & Hld & Hlow); [rewrite Eg; apply ld32_range, Hfok..|].
  assert (header_loaded f m) as Hhm by (intros x Hx; destruct Hg; destruct (Hlow (ELF_SCRATCH + x)) as [-> _]; [lia|by apply Hh]).
  rewrite (bind_ok _ _ _ _ _ Hr). step. cbn [bt_mem]. rewrite !(header_ld32 f) by (done || lia).
  change (ld32 f (a + 20)) with (g_memsz (segment_at f a)). change (ld32 f (a + 16)) with (g_filesz (segment_at f a)). rewrite <-Eg.
  set (m' := if g_filesz g <? g_memsz g then _ else _) in *.
  assert (∀ r : M (boot A) unit, (when (g_filesz g <? g_memsz g) (modify (λ s, s <| bt_mem ::= λ m, stosb m (u32 (g_pa g + g_filesz g)) 0 (Z.to_nat (g_memsz g - g_filesz g)) |>));; r) (Boot c m) = r (Boot c m')) as Hw
    by (intros r; unfold m'; by destruct (g_filesz g <? g_memsz g)).
  rewrite Hw. clear Hw. change ELF_SCRATCH with 65536 in *. rewrite u32_small by (change (2 ^ 32) with 4294967296; lia).
  destruct Hasc as [Hbg Hasc]. destruct (IH (pre ++ [g]) (a + 32) (Boot c m')) as (s' & Hrun & Hall & Hh'); cbn [bt_ctl bt_mem]; try done; try lia.
  - intros x. by rewrite (same_kbyte _ _ _ Hs).
  - intros x Hx. destruct (Hlow (ELF_SCRATCH + x)) as [_ ->]; [destruct Hg; change ELF_SCRATCH with 65536 in *; lia|by apply Hh].
  - intros j h Hj. rewrite (Hgs (S j) h Hj). f_equal. lia.
  - apply list.Forall_app; split; [done|by apply list.Forall_singleton].
  - apply list.Forall_app; split; [|by apply list.Forall_singleton]. eapply list.Forall_impl; [exact Hbel|]. intros h Hh'. by apply list.Forall_cons in Hh' as [_ ?].
  - apply list.Forall_app; split; [|by apply list.Forall_singleton]. rewrite list.Forall_forall in *. intros h Hin.
    eapply segment_below; [by eapply list.Forall_cons; apply (Hbel h Hin)|apply (Hpok h Hin)|apply Hlow|by apply Hpre].
  - exists s'. rewrite <-app_assoc in Hall. split; [|done]. subst k. rewrite <-Hrun. f_equal; lia.
Qed.

(** C8: the boot loader loads the kernel.  If the file at sector 1 of the first disk is an ELF file with
    its headers in the first page and its segments in increasing order, above the loader's scratch page and
    apart by whole sectors, then bootmain returns its entry point, every segment's memory holds the bytes
    of the file followed by zeros up to its size, and a file with another magic number is refused. *)
Theorem bootmain_loads s :
  let f := kbyte (bt_ctl s) in
  (kernel_ok f → ∃ s', bootmain polls s = Ok (Some (ld32 f 24)) s' ∧ Forall (segment_loaded f (bt_mem s')) (segments f)) ∧
  (ld32 f 0 ≠ ELF_MAGIC → ∃ s', bootmain polls s = Ok None s').
Proof.
  intros f. unfold bootmain. destruct (readseg_run ELF_SCRATCH 4096 0 s) as (c & m & hi & Hr & Hs & Hhi & Hl); [done..|].
  rewrite (bind_ok _ _ _ _ _ Hr). step. cbn [bt_mem].
  assert (header_loaded f m) as Hh.
  { intros x Hx. rewrite Hl. change (0 `mod` 512) with 0. rewrite decide_True by lia. unfold f. f_equal. lia. }
  assert (ld32 m ELF_SCRATCH = ld32 f 0) as E0 by (rewrite <-(Z.add_0_r ELF_SCRATCH); by apply header_ld32). rewrite E0. split.
  - intros [Hmagic Hhdr Hok Hasc]. rewrite Hmagic, Z.eqb_refl. cbn [negb]. pose proof (kbyte_ok (bt_ctl s)) as Hfok.
    pose proof (ld32_range f 28 Hfok) as H28. pose proof (Hfok 44) as H44. pose proof (Hfok 45) as H45. fold f in H44, H45. unfold phnum in *.
    rewrite (header_ld32 f m 28), !Hh by (done || lia). set (n := f 44 + 2 ^ 8 * f 45) in *. assert (0 ≤ n) as Hn by (unfold n; lia).
    assert (length (segments f) = Z.to_nat n) as Hlen by (unfold segments; by rewrite length_fmap, length_seq).
    destruct (load_segments_run f (segments f) [] (ld32 f 28) (Boot c m)) as (s' & Hrun & Hall & Hh'); try done; try lia.
    + intros x. by apply same_kbyte.
    + intros j g Hj. unfold segments in Hj. rewrite list_lookup_fmap in Hj. apply fmap_Some in Hj as (i & Hi & ->).
      by apply lookup_seq in Hi as [-> _].
    + rewrite Hlen, Z2Nat.id in Hrun by lia. change ELF_SCRATCH with 65536 in *. rewrite !u32_small by (change (2 ^ 32) with 4294967296; lia).
      rewrite (bind_ok _ _ _ _ _ Hrun). step. exists s'. split; [|done]. change 65536 with ELF_SCRATCH. by rewrite (header_ld32 f).
  - intros Hne. rewrite (proj2 (Z.eqb_neq _ _) Hne). by eexists.
Qed.
End boot.

(** A kernel with a text segment and a data segment, whose last 100 bytes are zeros. *)
Definition tiny_kernel : list Z :=
  let word a v := wr32 a v in
  word 0%nat ELF_MAGIC (word 24%nat 0x100000 (word 28%nat 52 (word 44%nat 2
    (word 56%nat 600 (word 64%nat 0x100000 (word 68%nat 1000 (word 72%nat 1000
    (word 88%nat 2048 (word 96%nat 0x101000 (word 100%nat 900 (word 104%nat 1000
    (replicate 120 0 ++ (Z.of_nat <$> seq 0 200) ++ replicate 4000 7)))))))))))).

#[local] Existing Instance ata0_ok.

Definition boot0 : boot ata0 := @Boot ata0 (Ctl0 (λ _, 0) 2 None (λ d l, slice (Z.to_nat (512 * (l - 1))) 512 tiny_kernel)) (λ _, 0).

Definition tiny_segments : list segment := [Segment 0x100000 600 1000 1000; Segment 0x101000 2048 900 1000].

Lemma tiny_fields : let f := kbyte (bt_ctl boot0) in
  ld32 f 0 = ELF_MAGIC ∧ ld32 f 24 = 0x100000 ∧ ld32 f 28 = 52 ∧ phnum f = 2 ∧ segments f = tiny_segments.
Proof. split_and!; vm_compute; reflexivity. Qed.

Lemma tiny_ok : kernel_ok (kbyte (bt_ctl boot0)).
Proof.
  pose proof tiny_fields as (H1 & H2 & H3 & H4 & H5). split; [exact H1|rewrite H3, H4; lia|rewrite H5..].
  - unfold tiny_segments. repeat apply list.Forall_cons_2; [split; refine (bool_decide_unpack _ _); by vm_compute..|by apply list.Forall_nil].
  - cbn [ascending tiny_segments]. split; [|split; [by apply list.Forall_nil|done]]. apply list.Forall_singleton. clear. vm_compute. discriminate.
Qed.

Lemma bootmain_loads_witness : ∃ s', bootmain 4 boot0 = Ok (Some 0x100000) s' ∧
  Forall (segment_loaded (kbyte (bt_ctl boot0)) (bt_mem s')) tiny_segments.
Proof.
  pose proof tiny_fields as (_ & H2 & _ & _ & H5). destruct (bootmain_loads boot0) as [H _]. destruct (H tiny_ok) as (s' & Hr & Hl).
  exists s'. rewrite H2 in Hr. rewrite H5 in Hl. split; [exact Hr|exact Hl].
Defined.
