(* ===== verification/Mp.v ===== *)
(** * The multiprocessor tables (mp.c)

    The firmware leaves the tables in memory.  [mpinit] finds them and takes the local
    APIC ids of the processors and the id of the I/O APIC from them; a pointer is an
    address of Mem.v's memory, and 0 the null pointer.  The writes to the ports of the
    interrupt mode register are part of the result; what is read there is an argument. *)
From S2P Require Import Prelude Mem Mmu.

Local Abbreviation NCPU := 8%Z.
Local Abbreviation MPPROC := 0x00%Z.
Local Abbreviation MPBUS := 0x01%Z.
Local Abbreviation MPIOAPIC := 0x02%Z.
Local Abbreviation MPIOINTR := 0x03%Z.
Local Abbreviation MPLINTR := 0x04%Z.

(** sizeof of struct mp, struct mpconf, struct mpproc and struct mpioapic. *)
Local Abbreviation SIZEOF_MP := 16%Z.
Local Abbreviation SIZEOF_MPCONF := 44%Z.
Local Abbreviation SIZEOF_MPPROC := 20%Z.
Local Abbreviation SIZEOF_MPIOAPIC := 8%Z.

Fixpoint sum_loop (m : mem) (addr : Z) (n : nat) (sum : Z) : Z :=
  match n with O => sum | S n => sum_loop m (addr + 1) n (s32 (sum + m addr)) end.

Definition sum (m : mem) (addr len : Z) : Z := u8 (sum_loop m addr (Z.to_nat len) 0).

(** memcmp with the bytes of a string. *)
Definition sig_at (m : mem) (a : Z) (s : list Z) : bool := bool_decide ((λ i, m (a + Z.of_nat i)) <$> seq 0 (length s) = s).
Local Abbreviation MP_SIG := ([95; 77; 80; 95] : list Z).
Local Abbreviation PCMP_SIG := ([80; 67; 77; 80] : list Z).

(** [for (p = addr; p < e; p += sizeof(struct mp))], at most [k] rounds. *)
Fixpoint mpsearch1_loop (k : nat) (m : mem) (p e : Z) : Z :=
  match k with
  | O => 0
  | S k =>
      if p <? e then
        if sig_at m p MP_SIG && (sum m p SIZEOF_MP =? 0) then p else mpsearch1_loop k m (p + SIZEOF_MP) e
      else 0
  end.

Definition mpsearch1 (m : mem) (a len : Z) : Z :=
  let addr := P2V a in
  mpsearch1_loop (S (Z.to_nat (len `div` SIZEOF_MP + 1))) m addr (addr + len).

Definition mpsearch (m : mem) : Z :=
  let bda := P2V 0x400 in
  let p := Z.shiftl (Z.lor (Z.shiftl (m (bda + 0x0f)) 8) (m (bda + 0x0e))) 4 in
  let mp :=
    if negb (p =? 0) then mpsearch1 m p 1024
    else
      let p := Z.lor (Z.shiftl (m (bda + 0x14)) 8) (m (bda + 0x13)) * 1024 in
      mpsearch1 m (u32 (p - 1024)) 1024 in
  if negb (mp =? 0) then mp else mpsearch1 m 0xf0000 0x10000.

Definition ld16 (m : mem) (a : Z) : Z := m a + 2 ^ 8 * m (a + 1).

(** The addresses of the two structures. *)
Definition mpconfig (m : mem) : option (Z * Z) :=
  let mp := mpsearch m in
  if (mp =? 0) || (ld32 m (mp + 4) =? 0) then None else
  let conf := P2V (ld32 m (mp + 4)) in
  if negb (sig_at m conf PCMP_SIG) then None else
  let version := m (conf + 6) in
  if negb (version =? 1) && negb (version =? 4) then None else
  if negb (sum m conf (ld16 m (conf + 4)) =? 0) then None else
  Some (mp, conf).

(** The variables mpinit sets: the apicid of cpus[0], ..., cpus[ncpu - 1], ioapicid and
    lapic; and the port writes. *)
Record mpst := Mpst { mp_cpus : list Z; mp_ioapicid : Z; mp_lapic : Z; mp_ports : list (Z * Z) }.
Definition eta_mpst (r : mpst) : mpst := Mpst (mp_cpus r) (mp_ioapicid r) (mp_lapic r) (mp_ports r).
#[global] Instance upd_mp_cpus : Upd mp_cpus := ltac:(mk_upd eta_mpst mp_cpus).
#[global] Instance upd_mp_ioapicid : Upd mp_ioapicid := ltac:(mk_upd eta_mpst mp_ioapicid).
#[global] Instance upd_mp_lapic : Upd mp_lapic := ltac:(mk_upd eta_mpst mp_lapic).
#[global] Instance upd_mp_ports : Upd mp_ports := ltac:(mk_upd eta_mpst mp_ports).

(** The loop over the entries of the table: ismp.  The [break] of the default case leaves
    the switch, not the loop. *)
Fixpoint mp_entries (k : nat) (m : mem) (p e : Z) (ismp : bool) : M mpst bool :=
  match k with
  | O => λ _, Fuel
  | S k =>
      if negb (p <? e) then ret ismp else
      let t := m p in
      if t =? MPPROC then
        modify (λ s, if Z.of_nat (length (mp_cpus s)) <? NCPU then s <| mp_cpus ::= λ l, l ++ [m (p + 1)] |> else s);;
        mp_entries k m (p + SIZEOF_MPPROC) e ismp
      else if t =? MPIOAPIC then
        modify (λ s, s <| mp_ioapicid := m (p + 1) |>);;
        mp_entries k m (p + SIZEOF_MPIOAPIC) e ismp
      else if (t =? MPBUS) || (t =? MPIOINTR) || (t =? MPLINTR) then mp_entries k m (p + 8) e ismp
      else mp_entries k m p e false
  end.

(** [imcr]: what the port 0x23 holds; [k]: the rounds of the loop. *)
Definition mpinit (k : nat) (imcr : Z) (m : mem) : M mpst unit :=
  match mpconfig m with
  | None => panic "Expect to run on an SMP"
  | Some (mp, conf) =>
      modify (λ s, s <| mp_lapic := ld32 m (conf + 36) |>);;
      ismp <- mp_entries k m (conf + SIZEOF_MPCONF) (conf + ld16 m (conf + 4)) true;
      if negb ismp then panic "Didn't find a suitable machine" else
      when (negb (m (mp + 12) =? 0))
        (modify (λ s, s <| mp_ports ::= λ l, l ++ [(0x22, 0x70); (0x23, Z.lor imcr 1)] |>))
  end.

(** ** The entries of a table *)

Inductive mpentry :=
  | EProc (apicid : Z) (rest : list Z)
  | EIoapic (apicno : Z) (rest : list Z)
  | EOther (t : Z) (rest : list Z).

Definition enc_entry (x : mpentry) : list Z :=
  match x with EProc a r => MPPROC :: a :: r | EIoapic a r => MPIOAPIC :: a :: r | EOther t r => t :: r end.

Definition entry_ok (x : mpentry) : Prop :=
  match x with
  | EProc _ r => length r = 18%nat
  | EIoapic _ r => length r = 6%nat
  | EOther t r => t ∈ [MPBUS; MPIOINTR; MPLINTR] ∧ length r = 7%nat
  end.

Definition mem_has (m : mem) (a : Z) (bs : list Z) : Prop := ∀ i b, bs !! i = Some b → m (a + Z.of_nat i) = b.

Lemma mem_has_app m a l1 l2 : mem_has m a (l1 ++ l2) ↔ mem_has m a l1 ∧ mem_has m (a + Z.of_nat (length l1)) l2.
Proof.
  split.
  - intros Hm. split; intros i b Hi; [apply Hm; by apply lookup_app_l_Some|].
    rewrite <-Z.add_assoc, <-Nat2Z.inj_add. apply Hm. by rewrite lookup_app_r, Nat.add_comm, Nat.add_sub by lia.
  - intros [H1 H2] i b [Hi|[Hl Hi]]%lookup_app_Some; [by apply H1|]. apply H2 in Hi. rewrite <-Hi. f_equal. lia.
Qed.

Definition table (es : list mpentry) : list Z := concat (enc_entry <$> es).

Definition procs (es : list mpentry) : list Z := omap (λ x, if x is EProc a _ then Some a else None) es.
Definition ioapics (es : list mpentry) : list Z := omap (λ x, if x is EIoapic a _ then Some a else None) es.

(** The state after an entry. *)
Definition take_entry (s : mpst) (x : mpentry) : mpst :=
  match x with
  | EProc a _ => if Z.of_nat (length (mp_cpus s)) <? NCPU then s <| mp_cpus ::= λ l, l ++ [a] |> else s
  | EIoapic a _ => s <| mp_ioapicid := a |>
  | EOther _ _ => s
  end.

Lemma entry_size x : entry_ok x → (0 < length (enc_entry x))%nat.
Proof. intros _. destruct x; cbn; lia. Qed.

Lemma mp_entry_run k m p e x ismp s : entry_ok x → mem_has m p (enc_entry x) → p < e →
  mp_entries (S k) m p e ismp s = mp_entries k m (p + Z.of_nat (length (enc_entry x))) e ismp (take_entry s x).
Proof.
  intros Hok Hm Hlt. cbn [mp_entries]. rewrite (proj2 (Z.ltb_lt _ _) Hlt). cbn [negb].
  assert (∀ t, enc_entry x !! 0%nat = Some t → m p = t) as H0 by (intros t Ht; rewrite <-(Hm 0%nat t Ht); f_equal; lia).
  destruct x as [a r|a r|t r]; rewrite (H0 _ eq_refl); cbn [entry_ok enc_entry length] in *.
  - change (MPPROC =? MPPROC) with true. cbv beta iota. step. rewrite Hok. change 1 with (Z.of_nat 1). by rewrite (Hm 1%nat a eq_refl).
  - change (MPIOAPIC =? MPPROC) with false. change (MPIOAPIC =? MPIOAPIC) with true. cbv beta iota. step. rewrite Hok. change 1 with (Z.of_nat 1). by rewrite (Hm 1%nat a eq_refl).
  - destruct Hok as [Ht Hr]. rewrite Hr. assert (t = MPBUS ∨ t = MPIOINTR ∨ t = MPLINTR) as [->|[->| ->]] by set_solver; done.
Qed.

Lemma mp_entries_run es k m p e ismp s : Forall entry_ok es → mem_has m p (table es) → p + Z.of_nat (length (table es)) ≤ e →
  mp_entries (length es + k) m p e ismp s = mp_entries k m (p + Z.of_nat (length (table es))) e ismp (foldl take_entry s es).
Proof.
  revert p s. induction es as [|x es IH]; intros p s Hok Hm He; [by cbn; rewrite Z.add_0_r|].
  apply list.Forall_cons in Hok as [Hx Hok]. cbn [table fmap list_fmap concat] in *. fold (table es) in *. apply mem_has_app in Hm as [Hmx Hm].
  rewrite length_app in *. pose proof (entry_size x Hx). cbn [length Nat.add foldl].
  rewrite (mp_entry_run _ _ _ _ _ _ _ Hx Hmx) by lia. rewrite IH by (done || lia). f_equal. lia.
Qed.

Lemma take_entries es s : (length (mp_cpus s) ≤ 8)%nat →
  foldl take_entry s es = Mpst (take 8 (mp_cpus s ++ procs es)) (default (mp_ioapicid s) (list.last (ioapics es))) (mp_lapic s) (mp_ports s).
Proof.
  revert s. induction es as [|x es IH]; intros s Hs; cbn [foldl].
  { cbn. rewrite app_nil_r, take_ge by lia. by destruct s. }
  destruct x as [a r|a r|t r]; cbn [take_entry procs ioapics omap list_omap].
  - destruct (Z.ltb_spec (Z.of_nat (length (mp_cpus s))) NCPU) as [Hlt|Hge]; change NCPU with 8 in *.
    + rewrite IH by (cbn; rewrite length_app; cbn; lia). cbn [mp_cpus mp_ioapicid mp_lapic mp_ports]. f_equal. cbn. by rewrite <-app_assoc.
    + rewrite IH by done. f_equal. rewrite !take_app_ge by lia. by replace (8 - length (mp_cpus s))%nat with 0%nat by lia.
  - rewrite IH by done. cbn [mp_cpus mp_ioapicid mp_lapic mp_ports]. f_equal. fold (ioapics es). rewrite last_cons. cbn. by destruct (list.last (ioapics es)).
  - by rewrite IH.
Qed.

(** C27: mpinit finds the processors.  When mpconfig finds and accepts the firmware's structures and the table has
    entries of the known types, mpinit takes the APIC ids of the first NCPU processors, in order, the id of
    the last I/O APIC and the address of the local APIC, and switches the interrupt mode if the machine
    has the register for it. *)
Theorem mpinit_finds m es mp conf imcr k s :
  mpconfig m = Some (mp, conf) → Forall entry_ok es → mem_has m (conf + SIZEOF_MPCONF) (table es) →
  ld16 m (conf + 4) = SIZEOF_MPCONF + Z.of_nat (length (table es)) → (length es < k)%nat → mp_cpus s = [] →
  mpinit k imcr m s = Ok tt (Mpst (take (Z.to_nat NCPU) (procs es)) (default (mp_ioapicid s) (list.last (ioapics es))) (ld32 m (conf + 36))
    (mp_ports s ++ if m (mp + 12) =? 0 then [] else [(0x22, 0x70); (0x23, Z.lor imcr 1)])).
Proof.
  intros Hc Hok Hm Hlen Hk Hs. destruct s as [cs io la po]. cbn in Hs. subst cs. unfold mpinit. rewrite Hc. step. replace k with (length es + S (k - S (length es)))%nat by lia.
  erewrite bind_ok; [|rewrite mp_entries_run by (done || lia); cbn [mp_entries]; rewrite (proj2 (Z.ltb_ge _ _)) by lia; reflexivity].
  rewrite take_entries by (cbn; lia). cbn [negb]. destruct (m (mp + 12) =? 0); [|done]. cbn [negb when mp_ports]. by rewrite app_nil_r.
Qed.

Lemma mp_entries_stuck es k m p e b s : Forall entry_ok es → mem_has m p (table es) → p + Z.of_nat (length (table es)) < e →
  MPLINTR < m (p + Z.of_nat (length (table es))) → mp_entries k m p e b s = Fuel.
Proof.
  revert k p b s. induction es as [|x es IH]; intros k p b s Hok Hm He Ht.
  - cbn [table fmap list_fmap concat length] in *. rewrite Z.add_0_r in *. revert b. induction k as [|k IH]; intros b; [done|].
    cbn [mp_entries]. rewrite (proj2 (Z.ltb_lt _ _) He). cbn [negb].
    rewrite !(proj2 (Z.eqb_neq (m p) _)) by lia. apply IH.
  - destruct k as [|k]; [done|]. apply list.Forall_cons in Hok as [Hx Hok]. cbn [table fmap list_fmap concat] in *. fold (table es) in *.
    apply mem_has_app in Hm as [Hmx Hm]. rewrite length_app, Nat2Z.inj_add in *. rewrite Z.add_assoc in *. pose proof (entry_size x Hx).
    rewrite (mp_entry_run _ _ _ _ _ _ _ Hx Hmx) by lia. by apply IH.
Qed.

(** An entry of another type makes mpinit loop forever instead of panicking: the [break] of its case
    leaves only the switch, and the pointer is not advanced. *)
Theorem mpinit_hangs m es mp conf imcr k s :
  mpconfig m = Some (mp, conf) → Forall entry_ok es → mem_has m (conf + SIZEOF_MPCONF) (table es) →
  SIZEOF_MPCONF + Z.of_nat (length (table es)) < ld16 m (conf + 4) → MPLINTR < m (conf + SIZEOF_MPCONF + Z.of_nat (length (table es))) →
  mpinit k imcr m s = Fuel.
Proof.
  intros Hc Hok Hm Hlen Ht. unfold mpinit. rewrite Hc. step. unfold bind at 1. by rewrite (mp_entries_stuck es) by (done || lia).
Qed.

(** Tables in the ROM: two processors and an I/O APIC. *)
Definition some_entries : list mpentry := [EProc 0 (replicate 18 1); EProc 1 (replicate 18 2); EOther 1 (replicate 7 3); EIoapic 2 (replicate 6 4)].
Definition rom (last : list Z) : list Z :=
  [95; 77; 80; 95; 16; 0; 15; 0; 1; 4; 1; 0; 128; 0; 0; 0] ++
  [80; 67; 77; 80; 100; 0; 4; 33; 0; 0; 0; 0; 0; 0; 0; 0; 0; 0; 0; 0; 0; 0; 0; 0; 0; 0; 0; 0; 0; 0; 0; 0; 0; 0; 0; 0; 0; 0; 224; 254; 0; 0; 0; 0] ++ last.
Definition rom_mem (last : list Z) : mem := λ a, if a <? P2V 0xf0000 then 0 else default 0 (rom last !! Z.to_nat (a - P2V 0xf0000)).

Lemma mem_has_slice m a bs : (λ i, m (a + Z.of_nat i)) <$> seq 0 (length bs) = bs → mem_has m a bs.
Proof.
  intros H i b Hi. rewrite <-H in Hi. rewrite list_lookup_fmap in Hi. apply fmap_Some in Hi as (j & Hj & ->). by apply lookup_seq in Hj as [-> _].
Qed.

Lemma mpinit_finds_witness :
  mpinit 5 0 (rom_mem (table some_entries)) (Mpst [] 0 0 []) = Ok tt (Mpst [0; 1] 2 0xfee00000 [(0x22, 0x70); (0x23, 1)]).
Proof.
  assert (Forall entry_ok some_entries) as Hok.
  { repeat apply list.Forall_cons_2; try reflexivity; [|by apply list.Forall_nil]. split; [set_solver|reflexivity]. }
  rewrite (mpinit_finds (rom_mem (table some_entries)) some_entries (P2V 0xf0000) (P2V 0xf0010) 0 5 (Mpst [] 0 0 []));
    [vm_compute; reflexivity|vm_compute; reflexivity|exact Hok|apply mem_has_slice; vm_compute; reflexivity|vm_compute; reflexivity|cbn; lia|reflexivity].
Defined.
