(* ===== verification/Apic.v ===== *)
(** * The interrupt controllers and the clock (lapic.c, ioapic.c)

    The registers of the controllers are memory cells: what is written to one is found
    there until the next write, except for the delivery status bit of the local APIC,
    which a given number of reads find set after a command.  The clock is an argument:
    what the n-th read of the CMOS finds in each register. *)
From S2P Require Import Prelude Mem Mmu Trap.

(** ** The local APIC *)

(** Registers as indices of uint[]; flags. *)
Local Abbreviation ID := 0x8.
Local Abbreviation VER := 0xc.
Local Abbreviation TPR := 0x20.
Local Abbreviation EOI := 0x2c.
Local Abbreviation SVR := 0x3c.
Local Abbreviation ESR := 0xa0.
Local Abbreviation ICRLO := 0xc0.
Local Abbreviation ICRHI := 0xc4.
Local Abbreviation TIMER := 0xc8.
Local Abbreviation PCINT := 0xd0.
Local Abbreviation LINT0 := 0xd4.
Local Abbreviation LINT1 := 0xd8.
Local Abbreviation ERROR := 0xdc.
Local Abbreviation TICR := 0xe0.
Local Abbreviation TDCR := 0xf8.
Local Abbreviation ENABLE := 0x100.
Local Abbreviation A_INIT := 0x500.
Local Abbreviation STARTUP := 0x600.
Local Abbreviation ASSERT := 0x4000.
Local Abbreviation LEVEL := 0x8000.
Local Abbreviation BCAST := 0x80000.
Local Abbreviation X1 := 0xb.
Local Abbreviation PERIODIC := 0x20000.
Local Abbreviation MASKED := 0x10000.
Local Abbreviation IRQ_ERROR := 19.

(** The registers, if the global [lapic] is set; the commands sent through ICRLO with
    what ICRHI held, the newest first; the ports and the memory. *)
Record apic := Apic { la_regs : option (Z → Z); la_cmds : list (Z * Z); la_ports : list (Z * Z); la_mem : mem }.
Definition eta_apic (r : apic) : apic := Apic (la_regs r) (la_cmds r) (la_ports r) (la_mem r).
#[global] Instance upd_la_regs : Upd la_regs := ltac:(mk_upd eta_apic la_regs).
#[global] Instance upd_la_cmds : Upd la_cmds := ltac:(mk_upd eta_apic la_cmds).
#[global] Instance upd_la_ports : Upd la_ports := ltac:(mk_upd eta_apic la_ports).
#[global] Instance upd_la_mem : Upd la_mem := ltac:(mk_upd eta_apic la_mem).

Definition set_reg (i v : Z) (r : Z → Z) : Z → Z := λ j, if j =? i then u32 v else r j.

Definition lapicw (index value : Z) : M apic unit :=
  s <- get;
  r <- deref "lapic" (la_regs s);
  when (index =? ICRLO) (modify (λ s, s <| la_cmds ::= cons (r ICRHI, u32 value) |>));;
  modify (λ s, s <| la_regs := Some (set_reg index value r) |>).

(** [busy]: the reads of ICRLO that find a command in delivery; at most [k] reads. *)
Fixpoint wait_delivery (k busy : nat) : M apic unit :=
  match k, busy with
  | O, _ => λ _, Fuel
  | S _, O => ret tt
  | S k, S busy => wait_delivery k busy
  end.

Definition lapicinit (k busy : nat) : M apic unit :=
  s <- get;
  match la_regs s with
  | None => ret tt
  | Some r =>
      lapicw SVR (Z.lor ENABLE (T_IRQ0 + IRQ_SPURIOUS));;
      lapicw TDCR X1;;
      lapicw TIMER (Z.lor PERIODIC (T_IRQ0 + IRQ_TIMER));;
      lapicw TICR 10000000;;
      lapicw LINT0 MASKED;;
      lapicw LINT1 MASKED;;
      when (4 <=? Z.land (Z.shiftr (r VER) 16) 0xff) (lapicw PCINT MASKED);;
      lapicw ERROR (T_IRQ0 + IRQ_ERROR);;
      lapicw ESR 0;;
      lapicw ESR 0;;
      lapicw EOI 0;;
      lapicw ICRHI 0;;
      lapicw ICRLO (Z.lor (Z.lor BCAST A_INIT) LEVEL);;
      wait_delivery k busy;;
      lapicw TPR 0
  end.

Definition lapicid : M apic Z := s <- get; ret (match la_regs s with None => 0 | Some r => Z.shiftr (r ID) 24 end).

Definition lapiceoi : M apic unit := s <- get; match la_regs s with None => ret tt | Some _ => lapicw EOI 0 end.

Local Abbreviation CMOS_PORT := 0x70.
Definition a_outb (p v : Z) : M apic unit := modify (λ s, s <| la_ports ::= cons (p, u8 v) |>).
Definition st16 (m : mem) (a v : Z) : mem := st8 (st8 m a v) (a + 1) (v `div` 2 ^ 8).

Definition lapicstartap (apicid addr : Z) : M apic unit :=
  a_outb CMOS_PORT 0xf;;
  a_outb (CMOS_PORT + 1) 0x0a;;
  let wrv := P2V (Z.lor (Z.shiftl 0x40 4) 0x67) in
  modify (λ s, s <| la_mem ::= λ m, st16 m wrv 0 |>);;
  modify (λ s, s <| la_mem ::= λ m, st16 m (wrv + 2) (Z.shiftr addr 4) |>);;
  lapicw ICRHI (Z.shiftl apicid 24);;
  lapicw ICRLO (Z.lor (Z.lor A_INIT LEVEL) ASSERT);;
  lapicw ICRLO (Z.lor A_INIT LEVEL);;
  forM (seq 0 2) (λ _,
    lapicw ICRHI (Z.shiftl apicid 24);;
    lapicw ICRLO (Z.lor STARTUP (Z.shiftr addr 12))).

(** ** The I/O APIC *)

Local Abbreviation REG_ID := 0x00.
Local Abbreviation REG_VER := 0x01.
Local Abbreviation REG_TABLE := 0x10.
Local Abbreviation INT_DISABLED := 0x10000.

(** struct ioapic: the register selected and the registers. *)
Record ioapic := Ioapic { io_reg : Z; io_regs : Z → Z }.

Definition ioapicread (reg : Z) : M ioapic Z :=
  modify (λ s, Ioapic (u32 reg) (io_regs s));; s <- get; ret (io_regs s (io_reg s)).
Definition ioapicwrite (reg data : Z) : M ioapic unit :=
  modify (λ s, Ioapic (u32 reg) (io_regs s));; modify (λ s, Ioapic (io_reg s) (set_reg (io_reg s) data (io_regs s))).

(** The result: whether the message is printed. *)
Definition ioapicinit (ioapicid : Z) : M ioapic bool :=
  v <- ioapicread REG_VER;
  let maxintr := Z.land (Z.shiftr v 16) 0xff in
  i <- ioapicread REG_ID;
  let id := Z.shiftr i 24 in
  forM (seq 0 (Z.to_nat (maxintr + 1))) (λ i,
    ioapicwrite (REG_TABLE + 2 * Z.of_nat i) (Z.lor INT_DISABLED (T_IRQ0 + Z.of_nat i));;
    ioapicwrite (REG_TABLE + 2 * Z.of_nat i + 1) 0);;
  ret (negb (id =? ioapicid)).

Definition ioapicenable (irq cpunum : Z) : M ioapic unit :=
  ioapicwrite (REG_TABLE + 2 * irq) (T_IRQ0 + irq);;
  ioapicwrite (REG_TABLE + 2 * irq + 1) (Z.shiftl cpunum 24).

(** ** The clock *)

Section clock.
  (** [clock n r]: what the [n]-th read of the CMOS finds in register [r]. *)
  Context (clock : nat → Z → Z).

Definition cmos_read (reg : Z) : M nat Z := n <- get; put (S n);; ret (u8 (clock n reg)).

Record rtcdate := Rtc { second : Z; minute : Z; hour : Z; day : Z; month : Z; year : Z }.
#[local] Instance rtcdate_eq_dec : EqDecision rtcdate.
Proof. solve_decision. Defined.

Definition fill_rtcdate : M nat rtcdate :=
  s <- cmos_read 0x00; mi <- cmos_read 0x02; h <- cmos_read 0x04;
  d <- cmos_read 0x07; mo <- cmos_read 0x08; y <- cmos_read 0x09;
  ret (Rtc s mi h d mo y).

(** [for (;;)], at most [k] rounds: t1. *)
Fixpoint read_clock (k : nat) : M nat rtcdate :=
  match k with
  | O => λ _, Fuel
  | S k =>
      t1 <- fill_rtcdate;
      a <- cmos_read 0x0a;
      if negb (Z.land a (Z.shiftl 1 7) =? 0) then read_clock k else
      t2 <- fill_rtcdate;
      if bool_decide (t1 = t2) then ret t1 else read_clock k
  end.

Definition CONV (x : Z) : Z := Z.shiftr x 4 * 10 + Z.land x 0xf.

Definition cmostime (k : nat) : M nat rtcdate :=
  sb <- cmos_read 0x0b;
  let bcd := Z.land sb (Z.shiftl 1 2) =? 0 in
  t1 <- read_clock k;
  let t := if bcd then Rtc (CONV (second t1)) (CONV (minute t1)) (CONV (hour t1)) (CONV (day t1)) (CONV (month t1)) (CONV (year t1)) else t1 in
  ret (Rtc (second t) (minute t) (hour t) (day t) (month t) (u32 (year t + 2000))).
End clock.

(** ** The time read is one the clock showed *)

(** A field of the clock, binary or two decimal digits. *)
Definition enc_field (bcd : bool) (x : Z) : Z := if bcd then 16 * (x `div` 10) + x `mod` 10 else x.
Definition date_ok (d : rtcdate) : Prop :=
  (0 ≤ second d < 100 ∧ 0 ≤ minute d < 100 ∧ 0 ≤ hour d < 100) ∧ (0 ≤ day d < 100 ∧ 0 ≤ month d < 100 ∧ 0 ≤ year d < 100).

Definition shows (bcd : bool) (d : rtcdate) (r : Z) : Z :=
  enc_field bcd (if r =? 0x00 then second d else if r =? 0x02 then minute d else if r =? 0x04 then hour d
    else if r =? 0x07 then day d else if r =? 0x08 then month d else year d).

Lemma enc_range bcd x : 0 ≤ x < 100 → 0 ≤ enc_field bcd x < 256.
Proof. intros Hx. unfold enc_field. destruct bcd; [|lia]. Z.to_euclidean_division_equations. lia. Qed.

Lemma conv_enc x : 0 ≤ x < 100 → CONV (enc_field true x) = x.
Proof.
  intros Hx. unfold CONV, enc_field. change 0xf with (Z.ones 4). rewrite Z.land_ones, Z.shiftr_div_pow2 by lia. change (2 ^ 4) with 16.
  Z.to_euclidean_division_equations. lia.
Qed.

Lemma cmos_read_run clock r m : cmos_read clock r m = Ok (u8 (clock m r)) (S m).
Proof. done. Qed.

Section reads.
  Context (clock : nat → Z → Z) (bcd : bool) (A B : rtcdate) (n k : nat).

(** From read [n] on the clock shows [A] for [k] reads and then [B]; no update is reported. *)
Record steady : Prop := {
  st_time : ∀ j r, (j < 27)%nat → r ∈ [0x00; 0x02; 0x04; 0x07; 0x08; 0x09] → clock (n + j)%nat r = shows bcd (if Nat.ltb j k then A else B) r;
  st_mode : Z.land (u8 (clock n 0x0b)) (Z.shiftl 1 2) = if bcd then 0 else 4;
  st_uip : ∀ j, (j < 27)%nat → Z.land (u8 (clock (n + j)%nat 0x0a)) (Z.shiftl 1 7) = 0;
  st_dates : date_ok A ∧ date_ok B;
}.

Definition raw (d : rtcdate) : rtcdate :=
  Rtc (enc_field bcd (second d)) (enc_field bcd (minute d)) (enc_field bcd (hour d)) (enc_field bcd (day d)) (enc_field bcd (month d)) (enc_field bcd (year d)).

Lemma field_read j r : steady → (j < 27)%nat → r ∈ [0x00; 0x02; 0x04; 0x07; 0x08; 0x09] →
  u8 (clock (n + j)%nat r) = shows bcd (if Nat.ltb j k then A else B) r.
Proof.
  intros [Ht _ _ [HA HB]] Hj Hr. rewrite (Ht j r Hj Hr). apply Z.mod_small, enc_range.
  unfold date_ok in *. repeat destruct (_ =? _); destruct (Nat.ltb j k); lia.
Qed.

(** Six reads in a row: all of them old, or all of them new, or a mixture. *)
Lemma fill_run i : steady → (i + 6 ≤ 27)%nat →
  ∃ t, fill_rtcdate clock (n + i)%nat = Ok t (n + (i + 6))%nat ∧ ((i + 6 ≤ k)%nat → t = raw A) ∧ ((k ≤ i)%nat → t = raw B).
Proof.
  intros Hs Hi. eexists. split.
  - replace (n + (i + 6))%nat with (S (S (S (S (S (S (n + i))))))) by lia. reflexivity.
  - assert (∀ j r, (j < 6)%nat → r ∈ [0x00; 0x02; 0x04; 0x07; 0x08; 0x09] →
      u8 (clock (j + (n + i))%nat r) = shows bcd (if Nat.ltb (i + j) k then A else B) r) as F.
    { intros j r Hj Hr. rewrite <-field_read by (done || lia). do 2 f_equal. lia. }
    rewrite (F 0%nat), (F 1%nat), (F 2%nat), (F 3%nat), (F 4%nat), (F 5%nat) by (lia || set_solver). split; intros Hk.
    + by rewrite !(proj2 (Nat.ltb_lt _ _)) by lia.
    + by rewrite !(proj2 (Nat.ltb_ge _ _)) by lia.
Qed.

(** A round of the loop. *)
Lemma round_run i j : steady → (i + 13 ≤ 27)%nat →
  (∃ t, read_clock clock (S j) (n + i)%nat = Ok t (n + (i + 13))%nat ∧ (t = raw A ∨ t = raw B)) ∨
  (k ≤ i + 13 ∧ i < k)%nat ∧ read_clock clock (S j) (n + i)%nat = read_clock clock j (n + (i + 13))%nat.
Proof.
  intros Hs Hi. cbn [read_clock]. destruct (fill_run i Hs) as (t1 & H1 & HA1 & HB1); [lia|]. destruct (fill_run (i + 7) Hs) as (t2 & H2 & HA2 & HB2); [lia|].
  rewrite (bind_ok _ _ _ _ _ H1), (bind_ok _ _ _ _ _ (cmos_read_run _ _ _)).
  pose proof (st_uip Hs (i + 6) ltac:(lia)) as Hu. rewrite Hu. cbn [Z.eqb negb]. replace (S (n + (i + 6)))%nat with (n + (i + 7))%nat by lia.
  rewrite (bind_ok _ _ _ _ _ H2). replace (i + 7 + 6)%nat with (i + 13)%nat in * by lia. case_bool_decide as E.
  - left. exists t1. split; [done|]. destruct (decide (i + 6 ≤ k)%nat); [left; by apply HA1|right]. rewrite E. apply HB2. lia.
  - right. split; [|done]. destruct (decide (k ≤ i)%nat); [destruct E; rewrite HB1, HB2 by lia; done|].
    destruct (decide (i + 13 ≤ k)%nat) as [|]; [destruct E; rewrite HA1, HA2 by lia; done|lia].
Qed.
End reads.

(** C26: cmostime reads a time the clock showed: if the date changes at most once while it reads and the
    clock reports no update, it returns within two rounds, with the date before or after the change and
    never a mixture, whether the clock counts in binary or in decimal digits. *)
Theorem cmostime_consistent clock bcd A B n k j :
  steady clock bcd A B n k →
  ∃ d m, cmostime clock (S (S j)) n = Ok (Rtc (second d) (minute d) (hour d) (day d) (month d) (year d + 2000)) m ∧ (d = A ∨ d = B).
Proof.
  intros Hs. assert (∃ t m, read_clock clock (S (S j)) (n + 1)%nat = Ok t m ∧ (t = raw bcd A ∨ t = raw bcd B)) as (t & m & Hr & Ht).
  { destruct (round_run _ _ _ _ _ _ 1 (S j) Hs) as [(t & H1 & H2)|[Hk ->]]; [lia|by eauto|].
    destruct (round_run _ _ _ _ _ _ 14 j Hs) as [(t & H1 & H2)|[Hk' _]]; [lia|by eauto|lia]. }
  unfold cmostime. rewrite (bind_ok _ _ _ _ _ (cmos_read_run _ _ _)),  (st_mode _ _ _ _ _ _ Hs).
  replace (S n) with (n + 1)%nat by lia. rewrite (bind_ok _ _ _ _ _ Hr). destruct (st_dates _ _ _ _ _ _ Hs) as [HA HB].
  assert (∃ d, t = raw bcd d ∧ date_ok d ∧ (d = A ∨ d = B)) as (d & -> & Hd & Hor) by (destruct Ht; eauto).
  exists d, m. split; [|done]. unfold date_ok in Hd. unfold ret. f_equal. destruct bcd; cbn [Z.eqb raw second minute hour day month year].
  - rewrite !conv_enc by lia. by rewrite u32_small by lia.
  - cbn [enc_field]. by rewrite u32_small by lia.
Qed.

(** New year while the first fields are read. *)
Definition old_year : rtcdate := Rtc 59 59 23 31 12 24.
Definition new_year : rtcdate := Rtc 0 0 0 1 1 25.
Definition a_clock (n : nat) (r : Z) : Z :=
  if r =? 0x0a then 0 else if r =? 0x0b then 2 else shows true (if Nat.ltb n 4 then old_year else new_year) r.

Lemma cmostime_consistent_witness :
  ∃ d m, cmostime a_clock 2 0%nat = Ok (Rtc (second d) (minute d) (hour d) (day d) (month d) (year d + 2000)) m ∧ (d = old_year ∨ d = new_year).
Proof.
  apply (cmostime_consistent a_clock true old_year new_year 0 4 0). split; [|done|done|by vm_compute].
  intros j r _ Hr. unfold a_clock. rewrite !(proj2 (Z.eqb_neq r _)) by (intros ->; revert Hr; vm_compute; set_solver). done.
Defined.

(** ** Routing of interrupts *)

Definition redirection (r : Z → Z) (irq : Z) : Z * Z := (r (REG_TABLE + 2 * irq), r (REG_TABLE + 2 * irq + 1)).

Lemma ioapicread_run reg s : ioapicread reg s = Ok (io_regs s (u32 reg)) (Ioapic (u32 reg) (io_regs s)).
Proof. done. Qed.

Lemma ioapicwrite_run reg v s : 0 ≤ reg < 2 ^ 32 → ioapicwrite reg v s = Ok tt (Ioapic reg (set_reg reg v (io_regs s))).
Proof. intros Hr. unfold ioapicwrite. step. cbn. by rewrite u32_small. Qed.

Lemma set_pair irq v w r i : 0 ≤ irq → 0 ≤ i →
  redirection (set_reg (REG_TABLE + 2 * irq + 1) w (set_reg (REG_TABLE + 2 * irq) v r)) i =
  if decide (i = irq) then (u32 v, u32 w) else redirection r i.
Proof.
  intros H1 H2. unfold redirection, set_reg. destruct (decide (i = irq)) as [->|Hne].
  - rewrite !Z.eqb_refl. by rewrite (proj2 (Z.eqb_neq (REG_TABLE + 2 * irq) _)) by lia.
  - by rewrite !(proj2 (Z.eqb_neq _ _)) by lia.
Qed.

(** The entries after ioapicinit: every interrupt is masked. *)
Lemma masked_run n s : (n ≤ 256)%nat →
  ∃ s', forM (seq 0 n) (λ i, ioapicwrite (REG_TABLE + 2 * Z.of_nat i) (Z.lor INT_DISABLED (T_IRQ0 + Z.of_nat i));;
      ioapicwrite (REG_TABLE + 2 * Z.of_nat i + 1) 0) s = Ok tt s' ∧
    ∀ i, (i < n)%nat → redirection (io_regs s') (Z.of_nat i) = (u32 (Z.lor INT_DISABLED (T_IRQ0 + Z.of_nat i)), 0).
Proof.
  intros Hn. destruct (forM_seq_inv (λ k s, (k ≤ n)%nat ∧ ∀ i, (i < k)%nat → redirection (io_regs s) (Z.of_nat i) = (u32 (Z.lor INT_DISABLED (T_IRQ0 + Z.of_nat i)), 0)) n
    (λ i, ioapicwrite (REG_TABLE + 2 * Z.of_nat i) (Z.lor INT_DISABLED (T_IRQ0 + Z.of_nat i));; ioapicwrite (REG_TABLE + 2 * Z.of_nat i + 1) 0) 0 s) as (s' & Hr & _ & Hi).
  - split; [lia|]. intros i Hi. lia.
  - intros k s1 Hk [Hkn Hi]. erewrite bind_ok by (apply ioapicwrite_run; lia). rewrite ioapicwrite_run by lia. eexists. split; [done|].
    split; [lia|]. intros i Hik. cbn [io_regs]. rewrite set_pair by lia. destruct (decide _) as [E|E]; [by replace i with k by lia|]. apply Hi. lia.
  - exists s'. split; [done|]. intros i Hi'. apply Hi. lia.
Qed.

(** The processor that a sequence of calls of ioapicenable gives an interrupt to. *)
Definition routed (es : list (Z * Z)) (irq : Z) : option Z := list.last (omap (λ x, if decide (x.1 = irq) then Some x.2 else None) es).

Lemma enables_run es s : Forall (λ x, 0 ≤ x.1 < 256) es →
  ∃ s', forM es (λ x, ioapicenable x.1 x.2) s = Ok tt s' ∧ ∀ irq, 0 ≤ irq →
    redirection (io_regs s') irq = match routed es irq with Some c => (u32 (T_IRQ0 + irq), u32 (Z.shiftl c 24)) | None => redirection (io_regs s) irq end.
Proof.
  revert s. induction es as [|[i c] es IH]; intros s Hes; [by exists s|]. apply list.Forall_cons in Hes as [Hi Hes]. cbn [fst snd] in Hi. cbn [forM fst snd].
  unfold ioapicenable. erewrite bind_ok.
  2: { erewrite bind_ok by (apply ioapicwrite_run; lia). apply ioapicwrite_run. lia. }
  match goal with |- context [forM es _ ?s1] => destruct (IH s1 Hes) as (s' & Hr & Hs') end. exists s'. split; [exact Hr|]. intros irq H0. rewrite (Hs' irq H0). cbn [io_regs]. rewrite set_pair by lia.
  unfold routed. cbn [omap list_omap fst snd]. destruct (decide (i = irq)) as [->|Hne].
  - rewrite last_cons, decide_True by done. by destruct (list.last _).
  - by rewrite decide_False by done.
Qed.

(** Only the interrupts that were enabled are delivered, each to the processor given last: after
    ioapicinit and any sequence of calls of ioapicenable, the redirection entry of an enabled interrupt has
    its vector, unmasked, and that processor, and every other entry is masked. *)
Theorem ioapic_routes ioapicid es s :
  let maxintr := Z.land (Z.shiftr (io_regs s REG_VER) 16) 0xff in
  Forall (λ x, 0 ≤ x.1 ≤ maxintr ∧ 0 ≤ x.2 < 256) es →
  ∃ b s', (b <- ioapicinit ioapicid; forM es (λ x, ioapicenable x.1 x.2);; ret b) s = Ok b s' ∧
    ∀ irq, 0 ≤ irq ≤ maxintr → redirection (io_regs s') irq =
      match routed es irq with Some c => (T_IRQ0 + irq, c * 2 ^ 24) | None => (INT_DISABLED + T_IRQ0 + irq, 0) end.
Proof.
  intros maxintr Hes. assert (0 ≤ maxintr < 256) as Hmax by (unfold maxintr; change 0xff with (Z.ones 8); rewrite Z.land_ones by lia; by apply Z.mod_pos_bound).
  set (s0 := Ioapic (u32 REG_ID) (io_regs s)).
  destruct (masked_run (Z.to_nat (maxintr + 1)) s0) as (s1 & H1 & Hm); [lia|].
  assert (ioapicinit ioapicid s = Ok (negb (Z.shiftr (io_regs s REG_ID) 24 =? ioapicid)) s1) as Hi.
  { unfold ioapicinit. do 2 rewrite (bind_ok _ _ _ _ _ (ioapicread_run _ _)). by rewrite (bind_ok _ _ _ _ _ H1). }
  rewrite (bind_ok _ _ _ _ _ Hi). destruct (enables_run es s1) as (s2 & H2 & He).
  { eapply list.Forall_impl; [exact Hes|]. intros x Hx. cbn in Hx. lia. }
  rewrite (bind_ok _ _ _ _ _ H2). do 2 eexists. split; [reflexivity|]. intros irq Hirq. rewrite He by lia. change T_IRQ0 with 32 in *.
  destruct (routed es irq) as [c|] eqn:Er.
  - assert (0 ≤ c < 256) as Hc.
    { apply last_Some_elem_of in Er. apply list_elem_of_omap in Er as ([i c'] & Hin & E). rewrite list.Forall_forall in Hes. apply Hes in Hin. case_decide; [|done].
      injection E as ->. apply Hin. }
    rewrite Z.shiftl_mul_pow2, !u32_small by (change (2 ^ 32) with 4294967296; change (2 ^ 24) with 16777216; lia). done.
  - specialize (Hm (Z.to_nat irq) ltac:(lia)). rewrite Z2Nat.id in Hm by lia. rewrite Hm. change INT_DISABLED with (Z.shiftl 1 16). change T_IRQ0 with 32.
    rewrite lor_shiftl_add by (change (2 ^ 16) with 65536; lia). change (2 ^ 16) with 65536. rewrite u32_small by (change (2 ^ 32) with 4294967296; lia). f_equal. change (Z.shiftl 1 16) with 65536. lia.
Qed.

Lemma ioapic_routes_witness : ∃ b s',
  (b <- ioapicinit 0; forM [(1, 0); (14, 1); (1, 3)] (λ x, ioapicenable x.1 x.2);; ret b) (Ioapic 0 (λ r, if r =? 1 then 0x170011 else 0)) = Ok b s' ∧
  redirection (io_regs s') 1 = (33, 3 * 2 ^ 24) ∧ redirection (io_regs s') 2 = (0x10022, 0).
Proof.
  destruct (ioapic_routes 0 [(1, 0); (14, 1); (1, 3)] (Ioapic 0 (λ r, if r =? 1 then 0x170011 else 0))) as (b & s' & Hr & Hi).
  - repeat apply list.Forall_cons_2; [by vm_compute..|by apply list.Forall_nil].
  - exists b, s'. split; [exact Hr|]. split; rewrite Hi by (by vm_compute); reflexivity.
Defined.

(** ** Starting a processor *)

Lemma lapicw_run i v r s : la_regs s = Some r →
  lapicw i v s = Ok tt (Apic (Some (set_reg i v r)) (if i =? ICRLO then (r ICRHI, u32 v) :: la_cmds s else la_cmds s) (la_ports s) (la_mem s)).
Proof. intros Hr. unfold lapicw. step. rewrite Hr. step. destruct (i =? ICRLO); by destruct s. Qed.

(** lapicstartap sends the processor INIT and then twice the startup command; for a page below 1 Mbyte both
    the command's vector and the warm reset vector, a real-mode segment and offset, lead to that page. *)
Theorem lapicstartap_starts apicid addr r s : la_regs s = Some r → 0 ≤ addr < 2 ^ 20 → addr `mod` 4096 = 0 → 0 ≤ apicid < 256 →
  ∃ s' v, lapicstartap apicid addr s = Ok tt s' ∧ 4096 * v = addr ∧ 0 ≤ v < 256 ∧
    la_cmds s' = [(apicid * 2 ^ 24, STARTUP + v); (apicid * 2 ^ 24, STARTUP + v);
      (apicid * 2 ^ 24, A_INIT + LEVEL); (apicid * 2 ^ 24, A_INIT + LEVEL + ASSERT)] ++ la_cmds s ∧
    let word a := la_mem s' (P2V a) + 2 ^ 8 * la_mem s' (P2V a + 1) in 16 * word 0x469 + word 0x467 = addr.
Proof.
  intros Hr Ha Hp Hid. destruct s as [regs cmds ports m]. cbn in Hr. subst regs. change (2 ^ 20) with 1048576 in Ha.
  assert (addr = 4096 * (addr `div` 4096)) as Ev by (rewrite (Z.div_mod addr 4096) at 1 by lia; lia). set (v := addr `div` 4096) in *.
  unfold lapicstartap, a_outb. cbn [forM seq]. repeat first [erewrite bind_ok by (apply lapicw_run; reflexivity)|step].
  eexists _, v. split; [reflexivity|]. split; [lia|]. split; [lia|].
  assert (u32 (Z.shiftl apicid 24) = apicid * 2 ^ 24) as E1.
  { rewrite Z.shiftl_mul_pow2 by lia. change (2 ^ 24) with 16777216. apply u32_small. change (2 ^ 32) with 4294967296. lia. }
  assert (u32 (Z.lor STARTUP (Z.shiftr addr 12)) = STARTUP + v) as E2.
  { rewrite Z.shiftr_div_pow2 by lia. change (2 ^ 12) with 4096. fold v. change STARTUP with (Z.shiftl 6 8).
    rewrite lor_shiftl_add by (change (2 ^ 8) with 256; lia). change (2 ^ 8) with 256. change (Z.shiftl 6 8) with 1536. apply u32_small. change (2 ^ 32) with 4294967296. lia. }
  split.
  - rewrite <-E1, <-E2. reflexivity.
  - set (m' := la_mem _). change m' with (st16 (st16 m (P2V 0x467) 0) (P2V 0x467 + 2) (Z.shiftr addr 4)).
    change (P2V 0x469) with (P2V 0x467 + 2). generalize (P2V 0x467). intros a. unfold st16, st8.
    rewrite !Z.eqb_refl, !(proj2 (Z.eqb_neq _ _)) by lia. clear - Ev Ha. rewrite Z.shiftr_div_pow2 by lia. unfold u8.
    change (2 ^ 4) with 16. change (2 ^ 8) with 256. clearbody v. Z.to_euclidean_division_equations. lia.
Qed.
