(* ===== verification/ShMain.v ===== *)
(** * The shell's command loop (main of sh.c)

    Input is the list of bytes that reads of descriptor 0 deliver.  The results of the
    system calls are arguments: of chdir by path, of the n-th fork, and, after the n-th fork,
    of shm_get (the shared page, or nothing when it fails) and of mutex_create.  The actions of the shell are recorded in order; a child
    goes on in ShRun.v with the command it parsed. *)
From S2P Require Import Prelude CString Ulib Sh.

Inductive shact :=
  | Aprompt
  | Achdir (path : list Z)
  | Acannot_cd (path : list Z)
  | Afork (line : list Z)
  | Arun (c : cmd)
  | Await
  | Ashm_get (name : list Z)
  | Amutex_create (name : list Z)
  | Amutex_lock (muxid : Z)
  | Acv_wait (muxid : Z)
  | Amutex_unlock (muxid : Z)
  | Apanic (msg : string)
  | Aexit.

Record shell := Shell { sh_buf : list Z; sh_in : list Z; sh_forks : nat; sh_acts : list shact }.
Definition eta_shell (r : shell) : shell := Shell (sh_buf r) (sh_in r) (sh_forks r) (sh_acts r).
#[global] Instance upd_sh_buf : Upd sh_buf := ltac:(mk_upd eta_shell sh_buf).
#[global] Instance upd_sh_in : Upd sh_in := ltac:(mk_upd eta_shell sh_in).
#[global] Instance upd_sh_forks : Upd sh_forks := ltac:(mk_upd eta_shell sh_forks).
#[global] Instance upd_sh_acts : Upd sh_acts := ltac:(mk_upd eta_shell sh_acts).

Local Abbreviation NBUF_SH := 100%nat.

Definition act (a : shact) : M shell unit := modify (λ s, s <| sh_acts ::= λ l, l ++ [a] |>).

Definition getcmd : M shell Z :=
  act Aprompt;;
  modify (λ s, s <| sh_buf := replicate NBUF_SH 0 |>);;
  s <- get;
  r <- deref "gets" (user_gets (sh_buf s) NBUF_SH (sh_in s));
  modify (λ s, s <| sh_buf := r.1 |> <| sh_in := r.2 |>);;
  c <- deref "buf[0]" (r.1 !! 0%nat);
  ret (if c =? 0 then -1 else 0).

(** "dockv6 create" and "/sh" *)
Local Abbreviation DOCKV6_CREATE := ([100; 111; 99; 107; 118; 54; 32; 99; 114; 101; 97; 116; 101] : list Z).
Local Abbreviation SLASH_SH := ([47; 115; 104] : list Z).

(** "dockv6" and "shellmux" *)
Local Abbreviation DOCKV6 := ([100; 111; 99; 107; 118; 54] : list Z).
Local Abbreviation SHELLMUX := ([115; 104; 101; 108; 108; 109; 117; 120] : list Z).

Section shell.
  Context (chdir : list Z → Z) (fork : nat → Z) (shm_get : nat → option (list Z)) (mutex_create : nat → Z) (cm_initproc : list Z).

(** The child: runcmd(parsecmd(buf)). *)
Definition run_child (buf : list Z) : M shell unit :=
  match parsecmd buf O with
  | Ok (c, _) _ => act (Arun c)
  | Panic e => act (Apanic e)
  | UB e => undef e
  | _ => λ _, Fuel
  end.

(** The body of the loop of main; the result: whether the loop goes on. *)
Definition shell_line : M shell bool :=
  s <- get;
  let buf := sh_buf s in
  if bool_decide (take 3 buf = [99; 100; 32]) then
    n <- deref "strlen" (strlen buf);
    let buf := <[(n - 1)%nat := 0]> buf in
    modify (λ s, s <| sh_buf := buf |>);;
    path <- deref "buf + 3" (cstr (drop 3 buf));
    act (Achdir path);;
    when (chdir path <? 0) (act (Acannot_cd path));;
    ret true
  else
    let main_name := take 13 buf ++ [0] in
    line <- deref "buf" (cstr buf);
    act (Afork line);;
    modify (λ s, s <| sh_forks ::= S |>);;
    let pid := fork (sh_forks s) in
    if pid =? -1 then act (Apanic "fork");; ret false else
    if pid =? 0 then run_child buf;; ret false else
    r <- deref "strcmp" (strcmp main_name (cz DOCKV6_CREATE));
    if r =? 0 then
      act Await;;
      act (Ashm_get DOCKV6);;
      shm <- deref "shm" (shm_get (sh_forks s));
      ip <- deref "strcpy" (strcpy cm_initproc shm);
      r <- deref "strcmp" (strcmp ip (cz SLASH_SH));
      when (r =? 0)
        (act (Amutex_create SHELLMUX);;
         let muxid := mutex_create (sh_forks s) in
         act (Amutex_lock muxid);;
         act (Acv_wait muxid);;
         act (Amutex_unlock muxid));;
      ret true
    else act Await;; ret true.

(** [while (getcmd(buf, sizeof(buf)) >= 0)], at most [k] rounds. *)
Fixpoint shell_loop (k : nat) : M shell unit :=
  match k with
  | O => λ _, Fuel
  | S k =>
      r <- getcmd;
      if r <? 0 then act Aexit else
      go <- shell_line;
      if (go : bool) then shell_loop k else ret tt
  end.
End shell.

(** ** Lines *)

Definition line_chars (l : list Z) : Prop := Forall (λ c, 0 < c < 256 ∧ c ≠ 10 ∧ c ≠ 13) l.
Definition input_line (l : list Z) : Prop := line_chars l ∧ (length l ≤ 98)%nat.

Lemma insert_middle (l1 l2 : list Z) x y : <[length l1 := y]> (l1 ++ x :: l2) = l1 ++ y :: l2.
Proof. induction l1 as [|z l1 IH]; [done|]. cbn. f_equal. exact IH. Qed.

Lemma gets_line l pre m rest : line_chars l → (length pre + m = 100)%nat → (length pre + length l ≤ 98)%nat →
  gets_loop (pre ++ replicate m 0) 100 (length pre) (l ++ 10 :: rest) = Some ((pre ++ l ++ [10]) ++ replicate (m - length l - 1) 0, rest).
Proof.
  intros Hl. revert pre m. induction Hl as [|c l Hc Hl IH]; intros pre m Hm Hlen; cbn [app gets_loop length] in *;
    rewrite (proj2 (Nat.ltb_lt _ _)) by lia; rewrite length_app, length_replicate, (proj2 (Nat.ltb_lt _ _)) by lia;
    destruct m as [|m]; try lia; cbn [replicate]; rewrite insert_middle.
  - cbn [Z.eqb orb]. rewrite (proj2 (Nat.ltb_lt _ _)) by lia. f_equal. f_equal. rewrite cons_middle, app_assoc.
    destruct m as [|m]; [lia|]. cbn [replicate]. replace (length pre + 1)%nat with (length (pre ++ [10])) by (rewrite length_app; cbn; lia).
    rewrite insert_middle. do 2 f_equal.
  - rewrite (proj2 (Z.eqb_neq c 10)), (proj2 (Z.eqb_neq c 13)) by lia. cbn [orb]. rewrite cons_middle, app_assoc.
    replace (length pre + 1)%nat with (length (pre ++ [c])) by (rewrite length_app; cbn; lia).
    rewrite IH by (rewrite ?length_app; cbn; lia). f_equal. f_equal. rewrite <-!app_assoc. cbn [app]. by rewrite <-!app_assoc.
Qed.

(** The buffer with a line. *)
Definition line_buf (l : list Z) : list Z := (l ++ [10]) ++ 0 :: replicate (98 - length l) 0.

Lemma getcmd_line l rest s : input_line l → sh_in s = l ++ 10 :: rest →
  getcmd s = Ok 0 (Shell (line_buf l) rest (sh_forks s) (sh_acts s ++ [Aprompt])).
Proof.
  intros [Hl Hlen] Hin. destruct s as [b i n a]. cbn in Hin. subst i. unfold getcmd, act. do 3 step.
  pose proof (gets_line l [] 100 rest Hl eq_refl) as E. cbn [app length] in E. specialize (E ltac:(lia)).
  change (user_gets _ _ _) with (gets_loop (replicate 100 0) 100 0 (l ++ 10 :: rest)). rewrite E. step.
  replace (100 - length l - 1)%nat with (S (98 - length l)) by lia. cbn [replicate]. fold (line_buf l).
  assert (∃ c t, line_buf l = c :: t ∧ c ≠ 0) as (c & t & Ec & Hc).
  { unfold line_buf. destruct Hl as [|c l' Hc _]; [by do 2 eexists|]. do 2 eexists. split; [done|]. lia. }
  cbn [fst snd]. rewrite Ec. cbn [lookup list_lookup]. step. cbn [deref]. step. by rewrite (proj2 (Z.eqb_neq c 0) Hc).
Qed.

Lemma getcmd_eof s : sh_in s = [] → getcmd s = Ok (-1) (Shell (replicate 100 0) [] (sh_forks s) (sh_acts s ++ [Aprompt])).
Proof. destruct s as [b i n a]. cbn. by intros ->. Qed.

Lemma line_nonzero l : line_chars l → chars (l ++ [10]).
Proof. intros Hl. apply list.Forall_app. split; [|by apply list.Forall_singleton]. eapply list.Forall_impl; [exact Hl|]. intros c Hc. cbn in Hc. lia. Qed.

Lemma take_chars n l : chars l → chars (take n l).
Proof. intros Hl. by apply Forall_take. Qed.

(** A prefix of the buffer that has to match a string without newlines. *)
Lemma line_prefix l x n t : length t = n → Forall (λ c, c ≠ 0 ∧ c ≠ 10) t → take n (l ++ 10 :: x) = t ↔ take n l = t.
Proof.
  intros Hn Ht. destruct (decide (n ≤ length l)%nat) as [Hle|Hgt]; [by rewrite take_app_le by lia|]. split; intros E.
  - assert (t !! length l = Some 10) as H10 by (rewrite <-E, lookup_take_lt, lookup_app_r by lia; by rewrite Nat.sub_diag).
    rewrite list.Forall_forall in Ht. apply list_elem_of_lookup_2, Ht in H10. lia.
  - rewrite take_ge in E by lia. subst t. lia.
Qed.

Lemma line_buf_cons l : line_buf l = l ++ 10 :: 0 :: replicate (98 - length l) 0.
Proof. unfold line_buf. by rewrite <-app_assoc. Qed.

Lemma main_name_cstr n l : line_chars l → cstr (take n (line_buf l) ++ [0]) = Some (take n (l ++ [10])).
Proof.
  intros Hl%line_nonzero. unfold line_buf. destruct (decide (n ≤ length (l ++ [10%Z]))%nat).
  - rewrite take_app_le by lia. by apply cstr_app, take_chars.
  - rewrite take_app_ge, (take_ge (l ++ [10])) by lia. destruct (n - length (l ++ [10%Z]))%nat eqn:E; [lia|]. cbn [firstn]. rewrite <-app_assoc. by apply cstr_app.
Qed.

Lemma act_run x s : act x s = Ok tt (Shell (sh_buf s) (sh_in s) (sh_forks s) (sh_acts s ++ [x])).
Proof. by destruct s. Qed.

Section shell.
  Context (chdir : list Z → Z) (fork : nat → Z) (shm_get : nat → option (list Z)) (mutex_create : nat → Z) (cm_initproc : list Z) (init : nat → list Z).

Definition is_cd (l : list Z) : bool := bool_decide (take 3 l = [99; 100; 32]).
Definition is_dockv6 (l : list Z) : bool := bool_decide (take 13 l = DOCKV6_CREATE).

(** What the shell does for a line, as the parent of the [n]-th process it forks. *)
Definition line_acts (n : nat) (l : list Z) : list shact :=
  if is_cd l then Achdir (drop 3 l) :: if chdir (drop 3 l) <? 0 then [Acannot_cd (drop 3 l)] else []
  else Afork (l ++ [10]) :: Await ::
    if is_dockv6 l then
      Ashm_get DOCKV6 ::
      if bool_decide (init n = SLASH_SH) then
        [Amutex_create SHELLMUX; Amutex_lock (mutex_create n); Acv_wait (mutex_create n); Amutex_unlock (mutex_create n)]
      else []
    else [].

(** What it does for lines, [n] processes having been forked. *)
Fixpoint lines_acts (n : nat) (ls : list (list Z)) : list shact :=
  match ls with
  | [] => [Aprompt; Aexit]
  | l :: ls => Aprompt :: line_acts n l ++ lines_acts (if is_cd l then n else S n) ls
  end.

(** After the n-th fork shm_get gives a page with a string that fits into [cm_initproc]. *)
Definition page_ok (n : nat) : Prop :=
  ∃ page, shm_get n = Some page ∧ cstr page = Some (init n) ∧ chars (init n) ∧ (length (init n) < length cm_initproc)%nat.

(** It does after every dockv6 create of the lines. *)
Fixpoint pages_ok (n : nat) (ls : list (list Z)) : Prop :=
  match ls with
  | [] => True
  | l :: ls => (is_dockv6 l = true → page_ok n) ∧ pages_ok (if is_cd l then n else S n) ls
  end.

Lemma cd_line l s : input_line l → sh_buf s = line_buf l → is_cd l = true →
  ∃ b, shell_line chdir fork shm_get mutex_create cm_initproc s = Ok true (Shell b (sh_in s) (sh_forks s) (sh_acts s ++ line_acts (sh_forks s) l)).
Proof using.
  intros [Hl Hlen] Hb Hcd. destruct s as [b i n a]. cbn in Hb. subst b. unfold shell_line, line_acts. rewrite Hcd. step. cbn [sh_buf].
  apply bool_decide_eq_true_1 in Hcd. rewrite bool_decide_eq_true_2 by (rewrite line_buf_cons; by apply line_prefix; [done|repeat constructor; done|]).
  assert (3 ≤ length l)%nat as H3 by (apply (f_equal length) in Hcd; rewrite length_take in Hcd; change (length [99; 100; 32]) with 3%nat in Hcd; lia).
  rewrite strlen_cstr. unfold line_buf. rewrite cstr_app by (by apply line_nonzero). cbn [fmap option_fmap option_map]. step.
  rewrite length_app. cbn [length]. replace (length l + 1 - 1)%nat with (length l) by lia. rewrite <-app_assoc. cbn [app]. rewrite insert_middle. step.
  rewrite drop_app_le by lia. rewrite cstr_app by (apply Forall_drop; eapply list.Forall_impl; [exact Hl|]; intros c Hc; cbn in Hc; lia). step.
  rewrite (bind_ok _ _ _ _ _ (act_run _ _)). eexists. destruct (chdir (drop 3 l) <? 0); cbn [when].
  - rewrite (bind_ok _ _ _ _ _ (act_run _ _)). unfold ret. f_equal. cbn. by rewrite <-app_assoc.
  - done.
Qed.

Lemma run_line l s : input_line l → sh_buf s = line_buf l → is_cd l = false → (is_dockv6 l = true → page_ok (sh_forks s)) → 0 < fork (sh_forks s) →
  shell_line chdir fork shm_get mutex_create cm_initproc s = Ok true (Shell (sh_buf s) (sh_in s) (S (sh_forks s)) (sh_acts s ++ line_acts (sh_forks s) l)).
Proof using.
  intros [Hl Hlen] Hb Hcd Hpg Hf. unfold shell_line, line_acts. rewrite Hcd. step. rewrite Hb.
  apply bool_decide_eq_false_1 in Hcd. rewrite bool_decide_eq_false_2 by (rewrite line_buf_cons, line_prefix; [done|done|repeat constructor; done]).
  assert (cstr (line_buf l) = Some (l ++ [10])) as Hc by (apply cstr_app; by apply line_nonzero). rewrite Hc. step.
  rewrite (bind_ok _ _ _ _ _ (act_run _ _)). step. rewrite (proj2 (Z.eqb_neq _ (-1))), (proj2 (Z.eqb_neq _ 0)) by lia.
  destruct (strcmp_cstr (take 13 (line_buf l) ++ [0]) (cz DOCKV6_CREATE) (take 13 (l ++ [10])) DOCKV6_CREATE) as (r & Hr & Hiff);
    [|done|by apply take_chars, line_nonzero|by repeat constructor|].
  { by apply main_name_cstr. }
  rewrite Hr. step. assert ((r =? 0) = is_dockv6 l) as ->.
  { apply Bool.eq_iff_eq_true. unfold is_dockv6. rewrite Z.eqb_eq, bool_decide_eq_true, Hiff. apply line_prefix; [done|]. repeat constructor; done. }
  destruct (is_dockv6 l).
  - destruct (Hpg eq_refl) as (page & Hp & Hci & Hch & Hfit). do 2 rewrite (bind_ok _ _ _ _ _ (act_run _ _)). rewrite Hp. step.
    rewrite (strcpy_cstr _ _ _ Hci Hfit). step.
    destruct (strcmp_cstr (init (sh_forks s) ++ 0 :: drop (S (length (init (sh_forks s)))) cm_initproc) (cz SLASH_SH) (init (sh_forks s)) SLASH_SH) as (q & Hq & Hiq);
      [by apply cstr_app|done|done|by repeat constructor|]. rewrite Hq. step.
    rewrite (bool_decide_ext _ (q = 0)) by tauto. case_bool_decide as Eq.
    + subst q. cbn [Z.eqb when]. erewrite bind_ok by (do 3 rewrite (bind_ok _ _ _ _ _ (act_run _ _)); apply act_run).
      unfold ret. f_equal. destruct s; cbn in *. subst. by rewrite <-!app_assoc.
    + rewrite (proj2 (Z.eqb_neq q 0) Eq). cbn [when]. unfold ret. f_equal. destruct s; cbn in *. subst. by rewrite <-!app_assoc.
  - rewrite (bind_ok _ _ _ _ _ (act_run _ _)). unfold ret. f_equal. destruct s; cbn in *. subst. by rewrite <-!app_assoc.
Qed.

(** C13: the shell executes its input line by line.  For an input of lines of at most 98 characters, when
    every fork succeeds, the shell prompts for each line and, for a line that starts with cd, changes its
    own directory; for any other line it starts a process with exactly that line and waits for it, and after
    a dockv6 create, when shm_get gives it the page, it waits for the container's shell with the mutex
    shellmux if the page names /sh; at the end of the input it exits. *)
Theorem shell_runs_lines ls n : Forall input_line ls → (∀ i, 0 < fork i) → pages_ok n ls →
  ∃ b m, shell_loop chdir fork shm_get mutex_create cm_initproc (S (length ls)) (Shell (replicate 100 0) (concat ((λ l, l ++ [10]) <$> ls)) n []) =
    Ok tt (Shell b [] m (lines_acts n ls)).
Proof using.
  intros Hls Hf Hpg. enough (∀ b a, ∃ b' m, shell_loop chdir fork shm_get mutex_create cm_initproc (S (length ls)) (Shell b (concat ((λ l, l ++ [10]) <$> ls)) n a) =
    Ok tt (Shell b' [] m (a ++ lines_acts n ls))) as H by apply H.
  revert n Hpg. induction Hls as [|l ls Hl Hls IH]; intros n Hpg b a.
  - cbn [length shell_loop fmap list_fmap concat app]. erewrite bind_ok by (by apply getcmd_eof). cbn [Z.ltb Z.compare]. rewrite act_run. do 2 eexists. f_equal. cbn. by rewrite <-app_assoc.
  - cbn [length shell_loop fmap list_fmap concat lines_acts pages_ok] in *. destruct Hpg as [Hpl Hpg]. remember (S (length ls)) as k eqn:Ek.
    erewrite bind_ok by (apply (getcmd_line l); [done|cbn [sh_in]; rewrite <-app_assoc; reflexivity]). cbn [Z.ltb Z.compare sh_forks sh_acts sh_buf].
    destruct (is_cd l) eqn:Hcd.
    + destruct (cd_line l (Shell (line_buf l) (concat ((λ l, l ++ [10]) <$> ls)) n (a ++ [Aprompt])) Hl eq_refl Hcd) as (b' & Hr).
      rewrite (bind_ok _ _ _ _ _ Hr). cbn [sh_in sh_forks sh_acts]. subst k. destruct (IH n Hpg b' ((a ++ [Aprompt]) ++ line_acts n l)) as (b2 & m & Hr2).
      exists b2, m. etransitivity; [exact Hr2|]. f_equal. f_equal. cbn. by rewrite <-!app_assoc.
    + erewrite bind_ok by (apply run_line; [done|done|done|exact Hpl|apply Hf]). cbn [sh_in sh_forks sh_acts sh_buf]. subst k.
      destruct (IH (S n) Hpg (line_buf l) ((a ++ [Aprompt]) ++ line_acts n l)) as (b2 & m & Hr2).
      exists b2, m. etransitivity; [exact Hr2|]. f_equal. f_equal. cbn. by rewrite <-!app_assoc.
Qed.
End shell.

(** cd a, ls, and the start of a container with a shell. *)
Definition some_lines : list (list Z) := [[99; 100; 32; 97]; [108; 115]; DOCKV6_CREATE ++ [32; 99]].

Lemma shell_runs_lines_witness : ∃ b m,
  shell_loop (λ _, 0) (λ _, 7) (λ _, Some (cz SLASH_SH)) (λ _, 2) (replicate 16 0) 4 (Shell (replicate 100 0) (concat ((λ l, l ++ [10]) <$> some_lines)) 0 []) =
    Ok tt (Shell b [] m ([Aprompt; Achdir [97]; Aprompt; Afork [108; 115; 10]; Await; Aprompt; Afork (DOCKV6_CREATE ++ [32; 99; 10]); Await;
      Ashm_get DOCKV6; Amutex_create SHELLMUX; Amutex_lock 2; Acv_wait 2; Amutex_unlock 2] ++ [Aprompt; Aexit])).
Proof.
  apply (shell_runs_lines (λ _, 0) (λ _, 7) (λ _, Some (cz SLASH_SH)) (λ _, 2) (replicate 16 0) (λ _, SLASH_SH) some_lines 0); [|lia|].
  - repeat apply list.Forall_cons_2; [split; [repeat constructor; done|cbn; lia]..|by apply list.Forall_nil].
  - repeat split; intros _; exists (cz SLASH_SH); (split_and!; [done|done|by repeat constructor|cbn; lia]).
Defined.
