(* ===== verification/Programs.v ===== *)
(** * Programs: wc, cat and ls (wc.c, cat.c, ls.c)

    The results of the system calls are arguments: the blocks that the calls of read
    deliver with the last result, the results of write, and for ls those of open, fstat and
    stat and the entries of the directory.  A program's output is the list of its bytes, or
    [None] when it accesses memory it must not. *)
From S2P Require Import Prelude CString Ulib Fs.

(** ** wc *)

Record wcst := Wc { wl : Z; ww : Z; wch : Z; inword : bool }.

(** The string " \r\t\n\v" *)
Local Abbreviation WC_SPACE := ([32; 13; 9; 10; 11] : list Z).

(** The body of the loop over a block. *)
Definition wc_char (s : wcst) (ch : Z) : option wcst :=
  let c := s32 (wch s + 1) in
  let l := if ch =? 10 then s32 (wl s + 1) else wl s in
  r ← strchr (cz WC_SPACE) ch;
  Some (if (r : option nat) is Some _ then Wc l (ww s) c false
        else if inword s then Wc l (ww s) c true else Wc l (s32 (ww s + 1)) c true).

Fixpoint wc_block (s : wcst) (b : list Z) : option wcst :=
  match b with [] => Some s | ch :: b => s ← wc_char s ch; wc_block s b end.

Fixpoint wc_loop (s : wcst) (blocks : list (list Z)) : option wcst :=
  match blocks with [] => Some s | b :: bs => s ← wc_block s b; wc_loop s bs end.

(** "%d %d %d %s\n" and "wc: read error\n" *)
Local Abbreviation WC_FMT := ([37; 100; 32; 37; 100; 32; 37; 100; 32; 37; 115; 10] : list Z).
Local Abbreviation WC_ERROR := ([119; 99; 58; 32; 114; 101; 97; 100; 32; 101; 114; 114; 111; 114; 10] : list Z).

Definition wc (blocks : list (list Z)) (n : Z) (name : list Z) : option (list Z) :=
  s ← wc_loop (Wc 0 0 0 false) blocks;
  if n <? 0 then printf WC_ERROR [] false
  else printf WC_FMT [AInt (wl s); AInt (ww s); AInt (wch s); AStr (Some name)] false.

(** The words of a text, for comparison: the parts between white space that are not empty. *)
Definition is_space (c : Z) : bool := bool_decide (c ∈ WC_SPACE).
Fixpoint split_words (t : list Z) : list (list Z) :=
  match t with
  | [] => [[]]
  | c :: t =>
      if is_space c then [] :: split_words t
      else match split_words t with w :: ws => (c :: w) :: ws | [] => [[c]] end
  end.
Definition words (t : list Z) : list (list Z) := filter (λ w, w ≠ []) (split_words t).
Definition newlines (t : list Z) : nat := length (filter (λ c, c = 10) t).

(** Whether a text starts inside a word. *)
Definition starts (t : list Z) : nat := match t with c :: _ => if is_space c then 0%nat else 1%nat | [] => 0%nat end.

Lemma split_cons t : ∃ w ws, split_words t = w :: ws ∧ (w = [] ↔ starts t = 0%nat).
Proof.
  induction t as [|c t (w & ws & E & _)]; [by exists [], []|]. cbn. destruct (is_space c); [by eexists [], _|].
  rewrite E. by exists (c :: w), ws.
Qed.

Lemma words_cons c t : length (words (c :: t)) = if is_space c then length (words t) else (S (length (words t)) - starts t)%nat.
Proof.
  unfold words. cbn [split_words]. destruct (is_space c); [done|]. destruct (split_cons t) as (w & ws & -> & Hw).
  rewrite filter_cons_True by done. destruct (decide (w = [])) as [->|Hne].
  - rewrite filter_cons_False by tauto. rewrite (proj1 Hw) by done. cbn. lia.
  - rewrite filter_cons_True by done. assert (starts t = 1%nat) as ->; [|cbn; lia].
    destruct t as [|d t]; cbn in *; [tauto|]. destruct (is_space d); [tauto|done].
Qed.

Lemma words_starts t : (starts t ≤ length (words t))%nat.
Proof.
  unfold words. destruct (split_cons t) as (w & ws & -> & Hw). destruct (decide (w = [])) as [->|Hne].
  - rewrite (proj1 Hw) by done. lia.
  - rewrite filter_cons_True by done. cbn. destruct t as [|d t]; cbn; [lia|]. destruct (is_space d); lia.
Qed.

Lemma wc_block_app s b1 b2 : wc_block s (b1 ++ b2) = s ← wc_block s b1; wc_block s b2.
Proof. revert s. induction b1 as [|c b1 IH]; intros s; [done|]. cbn [wc_block app]. destruct (wc_char s c); [apply IH|done]. Qed.

Lemma wc_loop_concat s bs : wc_loop s bs = wc_block s (concat bs).
Proof. revert s. induction bs as [|b bs IH]; intros s; [done|]. cbn [wc_loop concat]. rewrite wc_block_app. destruct (wc_block s b); [apply IH|done]. Qed.

Lemma strchr_in s c : chars s → ∃ r, strchr (cz s) c = Some r ∧ (is_Some r ↔ c ∈ s).
Proof.
  induction 1 as [|x s Hx _ (r & Hr & Hi)]; [exists None; split; [done|split; [by intros []|by intros ?%elem_of_nil]]|].
  change (cz (x :: s)) with (x :: cz s). cbn [strchr]. rewrite (proj2 (Z.eqb_neq x 0)) by lia. destruct (Z.eqb_spec x c) as [->|Hne].
  - exists (Some O). split; [done|]. split; [intros _; apply list_elem_of_here|by eexists].
  - rewrite Hr. exists (S <$> r). split; [done|]. rewrite fmap_is_Some, Hi, elem_of_cons. naive_solver.
Qed.

Lemma wc_char_run s ch : 0 ≤ wl s → 0 ≤ ww s → 0 ≤ wch s → wl s + 1 < 2 ^ 31 → ww s + 1 < 2 ^ 31 → wch s + 1 < 2 ^ 31 →
  wc_char s ch = Some (Wc (wl s + if decide (ch = 10) then 1 else 0) (ww s + if is_space ch || inword s then 0 else 1) (wch s + 1) (negb (is_space ch))).
Proof.
  intros H1 H2 H3 H4 H5 H6. unfold wc_char. rewrite (s32_small (wch s + 1)) by lia.
  replace (if ch =? 10 then s32 (wl s + 1) else wl s) with (wl s + if decide (ch = 10) then 1 else 0).
  2: { destruct (Z.eqb_spec ch 10), (decide (ch = 10)); try done; [by rewrite s32_small by lia|lia]. }
  assert (∃ r : option nat, strchr (cz WC_SPACE) ch = Some r ∧ is_space ch = bool_decide (is_Some r)) as (r & -> & ->).
  { destruct (strchr_in WC_SPACE ch) as (r & Hr & Hi); [by repeat constructor|]. exists r. split; [done|]. unfold is_space. apply bool_decide_ext. by rewrite Hi. }
  cbn [mbind option_bind]. destruct r; cbn; [by rewrite Z.add_0_r|]. destruct (inword s); cbn; [by rewrite Z.add_0_r|by rewrite s32_small by lia].
Qed.

Lemma wc_block_run t s : 0 ≤ wl s → 0 ≤ ww s → 0 ≤ wch s →
  wl s + Z.of_nat (length t) < 2 ^ 31 → ww s + Z.of_nat (length t) < 2 ^ 31 → wch s + Z.of_nat (length t) < 2 ^ 31 →
  ∃ b, wc_block s t = Some (Wc (wl s + Z.of_nat (newlines t)) (ww s + Z.of_nat (length (words t) - if inword s then starts t else 0)) (wch s + Z.of_nat (length t)) b).
Proof.
  revert s. induction t as [|c t IH]; intros s H1 H2 H3 H4 H5 H6.
  { exists (inword s). cbn. rewrite !Z.add_0_r. by destruct s as [? ? ? []]. }
  cbn [length] in *. cbn [wc_block]. rewrite wc_char_run by lia. cbn [mbind option_bind]. edestruct IH as (b & ->); cbn [wl ww wch inword]; [repeat case_match; lia..|].
  exists b. f_equal. rewrite words_cons. pose proof (words_starts t). unfold newlines. rewrite filter_cons. f_equal.
  - destruct (decide (c = 10)); cbn [length]; lia.
  - cbn [starts]. destruct (is_space c), (inword s); cbn [negb orb]; lia.
  - lia.
Qed.

Lemma newlines_le t : (newlines t ≤ length t)%nat.
Proof. apply length_filter. Qed.

Lemma words_le t : (length (words t) ≤ length t)%nat.
Proof. induction t as [|c t IH]; [done|]. rewrite words_cons. cbn [length]. destruct (is_space c); lia. Qed.

(** C33: wc counts.  Whatever the blocks its input arrives in, wc prints the number of newlines, the number
    of words, that is of maximal runs of characters other than white space, and the number of bytes. *)
Theorem wc_counts blocks n name : let t := concat blocks in
  Z.of_nat (length t) < 2 ^ 31 → 0 ≤ n →
  ∃ os, Forall2 rendered [Dec (Z.of_nat (newlines t)); Text [32]; Dec (Z.of_nat (length (words t))); Text [32]; Dec (Z.of_nat (length t)); Text [32]; Str (Some name); Text [10]] os ∧
    wc blocks n name = Some (concat os).
Proof.
  intros t Ht Hn. unfold wc. rewrite wc_loop_concat. fold t. destruct (wc_block_run t (Wc 0 0 0 false)) as (b & ->); try done.
  cbn [mbind option_bind wl ww wch inword Z.add]. rewrite (proj2 (Z.ltb_ge n 0)) by done. rewrite Nat.sub_0_r.
  match goal with |- ∃ os, Forall2 rendered ?ps os ∧ _ => destruct (printf_renders ps) as (os & Hos & Hp) end.
  - pose proof (newlines_le t). pose proof (words_le t). repeat apply list.Forall_cons_2; try by apply list.Forall_nil.
    all: cbn [piece_ok]; try lia; set_solver.
  - exists os. split; [done|exact Hp].
Qed.

(** ** cat *)

(** "cat: write error\n" and "cat: read error\n" *)
Local Abbreviation CAT_WRITE_ERROR := ([99; 97; 116; 58; 32; 119; 114; 105; 116; 101; 32; 101; 114; 114; 111; 114; 10] : list Z).
Local Abbreviation CAT_READ_ERROR := ([99; 97; 116; 58; 32; 114; 101; 97; 100; 32; 101; 114; 114; 111; 114; 10] : list Z).

(** The bytes that reach the output, and whether cat returns; [write b] is the result of a
    write of [b], of which that many bytes are written. *)
Fixpoint cat (write : list Z → Z) (blocks : list (list Z)) (n : Z) : list Z * bool :=
  match blocks with
  | b :: bs =>
      let r := write b in
      if negb (r =? Z.of_nat (length b)) then (take (Z.to_nat r) b ++ CAT_WRITE_ERROR, false)
      else let '(o, ok) := cat write bs n in (b ++ o, ok)
  | [] => if n <? 0 then (CAT_READ_ERROR, false) else ([], true)
  end.

(** ** ls *)

(** [for (p = path + strlen(path); p >= path && *p != '/'; p--); p++], with [k] = p + 1. *)
Fixpoint after_slash (path : list Z) (k : nat) : nat :=
  match k with O => O | S q => if bool_decide (path !! q = Some 47) then k else after_slash path q end.

(** The string that fmtname returns, and its static buffer. *)
Definition fmtname (path buf : list Z) : option (list Z * list Z) :=
  len ← strlen path;
  let p := drop (after_slash path (S len)) path in
  n ← strlen p;
  if Nat.leb DIRSIZ n then s ← cstr p; Some (s, buf)
  else
    let buf := take n p ++ replicate (DIRSIZ - n) 32 ++ drop DIRSIZ buf in
    s ← cstr buf; Some (s, buf).

Record lstat := Lstat { st_type : Z; st_ino : Z; st_size : Z }.

(** "%s %d %d %d\n" and the messages *)
Local Abbreviation LS_FMT := ([37; 115; 32; 37; 100; 32; 37; 100; 32; 37; 100; 10] : list Z).
Local Abbreviation LS_OPEN := ([108; 115; 58; 32; 99; 97; 110; 110; 111; 116; 32; 111; 112; 101; 110; 32; 37; 115; 10] : list Z).
Local Abbreviation LS_STAT := ([108; 115; 58; 32; 99; 97; 110; 110; 111; 116; 32; 115; 116; 97; 116; 32; 37; 115; 10] : list Z).
Local Abbreviation LS_LONG := ([108; 115; 58; 32; 112; 97; 116; 104; 32; 116; 111; 111; 32; 108; 111; 110; 103; 10] : list Z).

Definition ls_line (path : list Z) (st : lstat) (buf : list Z) : option (list Z * list Z) :=
  r ← fmtname path buf;
  o ← printf LS_FMT [AStr (Some r.1); AInt (s32 (st_type st)); AInt (s32 (st_ino st)); AInt (s32 (st_size st))] false;
  Some (o, r.2).

(** The loop over the entries of a directory, each its inode number and the 14 bytes of its
    name; [path] is what [buf] holds up to and with the slash. *)
Fixpoint ls_entries (stat_of : list Z → option lstat) (path : list Z) (des : list (Z * list Z)) (buf : list Z) : option (list Z * list Z) :=
  match des with
  | [] => Some ([], buf)
  | (inum, name) :: des =>
      if inum =? 0 then ls_entries stat_of path des buf else
      let full := path ++ take DIRSIZ name ++ [0] in
      f ← cstr full;
      r ← match stat_of f with
          | None => o ← printf LS_STAT [AStr (Some f)] false; Some (o, buf)
          | Some st => ls_line full st buf
          end;
      q ← ls_entries stat_of path des r.2;
      Some (r.1 ++ q.1, q.2)
  end.

(** [opened]: open succeeds; [st]: the result of fstat; [des]: the entries read. *)
Definition ls (opened : bool) (st : option lstat) (stat_of : list Z → option lstat) (des : list (Z * list Z)) (path buf : list Z) : option (list Z * list Z) :=
  p ← cstr path;
  if negb opened then o ← printf LS_OPEN [AStr (Some p)] false; Some (o, buf) else
  match st with
  | None => o ← printf LS_STAT [AStr (Some p)] false; Some (o, buf)
  | Some st =>
      if st_type st =? T_FILE then ls_line path st buf
      else if st_type st =? T_DIR then
        if Nat.ltb 512 (length p + 1 + DIRSIZ + 1) then o ← printf LS_LONG [] false; Some (o, buf)
        else ls_entries stat_of (p ++ [47]) des buf
      else Some ([], buf)
  end.

(** *** Names *)

Definition padded (b : list Z) : list Z := b ++ replicate (DIRSIZ - length b) 32.

Lemma after_slash_skip path b k j : 47 ∉ b → (∀ i, (i < j)%nat → path !! (k + i)%nat = b !! i) → (j ≤ length b)%nat →
  after_slash path (k + j) = after_slash path k.
Proof.
  intros Hb Hp. induction j as [|j IH]; intros Hj; [by rewrite Nat.add_0_r|]. rewrite Nat.add_succ_r. cbn [after_slash].
  rewrite bool_decide_eq_false_2; [apply IH; [intros i Hi; apply Hp; lia|lia]|]. rewrite Hp by lia. intros E%list_elem_of_lookup_2. done.
Qed.

Lemma after_slash_base d b rest : (d = [] ∨ list.last d = Some 47) → 47 ∉ b → after_slash (d ++ b ++ 0 :: rest) (S (length (d ++ b))) = length d.
Proof.
  intros Hd Hb. rewrite length_app, <-Nat.add_succ_r. replace (S (length b)) with (length (b ++ [0])) by (rewrite length_app; cbn; lia).
  rewrite (after_slash_skip _ (b ++ [0])); [|set_solver| |done].
  - destruct Hd as [->|Hd]; [done|]. destruct (length d) as [|k] eqn:E; [by destruct d|]. cbn [after_slash]. rewrite bool_decide_eq_true_2; [done|].
    rewrite last_lookup, E in Hd. cbn in Hd. by apply lookup_app_l_Some.
  - intros i Hi. rewrite lookup_app_r by lia. replace (length d + i - length d)%nat with i by lia. rewrite cons_middle, app_assoc. by apply lookup_app_l.
Qed.

(** The static buffer: a NUL follows the blank-padded name. *)
Definition name_buf (buf : list Z) : Prop := length buf = 15%nat ∧ buf !! 14%nat = Some 0.

(** fmtname gives the last element of a path, padded with blanks to the length of a name. *)
Lemma fmtname_pads d b rest buf : (d = [] ∨ list.last d = Some 47) → 47 ∉ b → chars (d ++ b) → name_buf buf →
  ∃ buf', fmtname (d ++ b ++ 0 :: rest) buf = Some (padded b, buf') ∧ name_buf buf'.
Proof.
  intros Hd Hb Hc [Hl H14]. unfold fmtname. pose proof (strlen_cstr (d ++ b ++ 0 :: rest)) as Hs. rewrite app_assoc, cstr_app in Hs by done.
  rewrite app_assoc, Hs, <-app_assoc. cbn [fmap option_fmap option_map mbind option_bind]. rewrite after_slash_base by done. rewrite drop_app_length.
  apply list.Forall_app in Hc as [_ Hc]. rewrite strlen_cstr, (cstr_app b rest) by done. cbn [fmap option_fmap option_map mbind option_bind].
  unfold padded. change DIRSIZ with 14%nat. destruct (Nat.leb_spec 14 (length b)).
  - exists buf. split; [|done]. replace (14 - length b)%nat with 0%nat by lia. by rewrite app_nil_r.
  - rewrite (drop_S buf 0 14) by done. rewrite (drop_ge buf 15) by lia. rewrite take_app_length, app_assoc. exists ((b ++ replicate (14 - length b) 32) ++ [0]). split.
    + rewrite cstr_app; [done|]. apply list.Forall_app. split; [done|]. apply list.Forall_replicate. lia.
    + split; [rewrite !length_app, length_replicate; cbn; lia|]. rewrite lookup_app_r by (rewrite length_app, length_replicate; lia).
      by replace (14 - _)%nat with 0%nat by (rewrite length_app, length_replicate; lia).
Qed.

(** *** The listing *)

(** A name in the 14 bytes of a directory entry. *)
Definition entry_name (nm : list Z) : Prop := chars nm ∧ (47 ∉ nm) ∧ (length nm ≤ 14)%nat.

(** What ls should print for an entry. *)
Definition entry_pieces (stat_of : list Z → option lstat) (p : list Z) (x : Z * list Z) : list piece :=
  if x.1 =? 0 then [] else
  match stat_of (p ++ 47 :: x.2) with
  | Some st => [Str (Some (padded x.2)); Text [32]; Dec (s32 (st_type st)); Text [32]; Dec (s32 (st_ino st)); Text [32]; Dec (s32 (st_size st)); Text [10]]
  | None => [Text [108; 115; 58; 32; 99; 97; 110; 110; 111; 116; 32; 115; 116; 97; 116; 32]; Str (Some (p ++ 47 :: x.2)); Text [10]]
  end.

Lemma s32_range z : - 2 ^ 31 ≤ s32 z < 2 ^ 31.
Proof. unfold s32. pose proof (Z.mod_pos_bound (z + 2 ^ 31) (2 ^ 32) ltac:(lia)). lia. Qed.

Lemma ls_line_run d b rest st buf : (d = [] ∨ list.last d = Some 47) → 47 ∉ b → chars (d ++ b) → name_buf buf →
  ∃ os buf', Forall2 rendered [Str (Some (padded b)); Text [32]; Dec (s32 (st_type st)); Text [32]; Dec (s32 (st_ino st)); Text [32]; Dec (s32 (st_size st)); Text [10]] os ∧
    ls_line (d ++ b ++ 0 :: rest) st buf = Some (concat os, buf') ∧ name_buf buf'.
Proof.
  intros Hd Hb Hc Hbuf. destruct (fmtname_pads d b rest buf Hd Hb Hc Hbuf) as (buf' & Hf & Hbuf'). unfold ls_line. rewrite Hf. cbn [mbind option_bind fst snd].
  destruct (printf_renders [Str (Some (padded b)); Text [32]; Dec (s32 (st_type st)); Text [32]; Dec (s32 (st_ino st)); Text [32]; Dec (s32 (st_size st)); Text [10]]) as (os & Hos & Hp).
  { repeat apply list.Forall_cons_2; try by apply list.Forall_nil. all: cbn [piece_ok]; try done; try apply s32_range; set_solver. }
  exists os, buf'. split; [done|]. split; [|done]. cbn [fmt_of args_of fmap list_fmap concat app] in Hp. by rewrite Hp.
Qed.

Lemma ls_entries_run stat_of p des buf : chars p → Forall (λ x, entry_name x.2) des → name_buf buf →
  ∃ os buf', Forall2 rendered (concat (entry_pieces stat_of p <$> des)) os ∧
    ls_entries stat_of (p ++ [47]) ((λ x, (x.1, resize DIRSIZ 0 x.2)) <$> des) buf = Some (concat os, buf').
Proof.
  intros Hp Hdes. revert buf. induction Hdes as [|[inum nm] des (Hc & Hs & Hl) _ IH]; intros buf Hbuf; [by exists [], buf|].
  cbn [fmap list_fmap concat ls_entries fst snd] in *. unfold entry_pieces at 1. cbn [fst snd]. destruct (inum =? 0); [by apply IH|].
  assert (∃ rest, (p ++ [47]) ++ take DIRSIZ (resize DIRSIZ 0 nm) ++ [0] = (p ++ [47]) ++ nm ++ 0 :: rest) as (rest & ->).
  { change DIRSIZ with 14%nat. exists (replicate (14 - length nm) 0). rewrite (take_ge (resize _ _ _)) by (rewrite length_resize; lia). rewrite resize_ge by lia.
    rewrite <-(app_assoc nm), <-replicate_S_end. done. }
  assert (chars ((p ++ [47]) ++ nm)) as Hall by (apply list.Forall_app; split; [apply list.Forall_app; split; [done|by apply list.Forall_singleton]|done]).
  rewrite app_assoc, cstr_app, <-(app_assoc _ nm) by done. cbn [mbind option_bind]. rewrite <-(app_assoc p). cbn [app].
  destruct (stat_of (p ++ 47 :: nm)) as [st|].
  - destruct (ls_line_run (p ++ [47]) nm rest st buf) as (os & b1 & Hos & Hr & Hb1); [by right; apply last_snoc|done..|].
    destruct (IH b1 Hb1) as (os2 & b2 & Hos2 & Hr2). exists (os ++ os2), b2. split; [by apply Forall2_app|].
    rewrite Hr. cbn [mbind option_bind fst snd]. rewrite Hr2. cbn [mbind option_bind fst snd]. by rewrite concat_app.
  - destruct (IH buf Hbuf) as (os2 & b2 & Hos2 & Hr2).
    destruct (printf_renders [Text [108; 115; 58; 32; 99; 97; 110; 110; 111; 116; 32; 115; 116; 97; 116; 32]; Str (Some (p ++ 47 :: nm)); Text [10]]) as (os & Hos & Hpr).
    { repeat apply list.Forall_cons_2; try by apply list.Forall_nil. all: cbn [piece_ok]; try done; set_solver. }
    exists (os ++ os2), b2. split; [by apply Forall2_app|]. cbn [fmt_of args_of fmap list_fmap concat app] in Hpr. rewrite Hpr.
    cbn [mbind option_bind fst snd]. rewrite Hr2. cbn [mbind option_bind fst snd]. by rewrite concat_app.
Qed.

(** C32: ls lists a directory: for every entry in use, in order, it prints the name padded to 14 characters
    and the type, the inode number and the size of path/name, or that this path cannot be opened. *)
Theorem ls_lists stat_of p st des buf :
  chars p → st_type st = T_DIR → (length p + 16 ≤ 512)%nat → Forall (λ x, entry_name x.2) des → name_buf buf →
  ∃ os buf', Forall2 rendered (concat (entry_pieces stat_of p <$> des)) os ∧
    ls true (Some st) stat_of ((λ x, (x.1, resize DIRSIZ 0 x.2)) <$> des) (cz p) buf = Some (concat os, buf').
Proof.
  intros Hp Ht Hlen Hdes Hbuf. destruct (ls_entries_run stat_of p des buf Hp Hdes Hbuf) as (os & buf' & Hos & Hr). exists os, buf'. split; [done|].
  unfold ls, cz. rewrite cstr_app by done. cbn [mbind option_bind negb]. rewrite Ht. change (T_DIR =? T_FILE) with false. change (T_DIR =? T_DIR) with true. cbv iota.
  change DIRSIZ with 14%nat. rewrite (proj2 (Nat.ltb_ge _ _)) by lia. exact Hr.
Qed.

(** cat copies its input when every write is complete. *)
Theorem cat_copies write blocks n : 0 ≤ n → (∀ b, b ∈ blocks → write b = Z.of_nat (length b)) → cat write blocks n = (concat blocks, true).
Proof.
  intros Hn. induction blocks as [|b bs IH]; intros Hw; cbn [cat concat]; [by rewrite (proj2 (Z.ltb_ge n 0))|].
  rewrite Hw by set_solver. rewrite Z.eqb_refl. cbn [negb]. by rewrite IH by set_solver.
Qed.

(** "ab c\n" and " d", in blocks that split a word. *)
Lemma wc_counts_witness : let t := concat [[97]; [98; 32; 99; 10; 32]; [100]] in
  newlines t = 1%nat ∧ words t = [[97; 98]; [99]; [100]] ∧
  ∃ os, Forall2 rendered [Dec 1; Text [32]; Dec 3; Text [32]; Dec 7; Text [32]; Str (Some [102]); Text [10]] os ∧
    wc [[97]; [98; 32; 99; 10; 32]; [100]] 0 [102] = Some (concat os).
Proof.
  intros t. split; [done|]. split; [done|]. apply (wc_counts [[97]; [98; 32; 99; 10; 32]; [100]] 0 [102]); done.
Defined.

(** A directory with a file, a free entry and a name that cannot be opened. *)
Lemma ls_lists_witness : let stat_of := λ f, if bool_decide (f = [46; 47; 97]) then Some (Lstat 2 5 30) else None in
  ∃ os buf', Forall2 rendered [Str (Some (97 :: replicate 13 32)); Text [32]; Dec 2; Text [32]; Dec 5; Text [32]; Dec 30; Text [10];
      Text [108; 115; 58; 32; 99; 97; 110; 110; 111; 116; 32; 115; 116; 97; 116; 32]; Str (Some [46; 47; 99]); Text [10]] os ∧
    ls true (Some (Lstat 1 1 48)) stat_of [(5, 97 :: replicate 13 0); (0, 98 :: replicate 13 0); (6, 99 :: replicate 13 0)] [46; 0] (replicate 15 0) = Some (concat os, buf').
Proof.
  intros stat_of. apply (ls_lists stat_of [46] (Lstat 1 1 48) [(5, [97]); (0, [98]); (6, [99])] (replicate 15 0)); [by repeat constructor|done|cbn; lia| |done].
  repeat apply list.Forall_cons_2; [split; [by repeat constructor|split; [set_solver|cbn; lia]]..|by apply list.Forall_nil].
Defined.
