(* ===== verification/Cprintf.v ===== *)
(** * Printing on the console (cprintf of console.c, procdump of proc.c)

    As in the user's printf the format is interpreted to the characters to print, here with
    lower-case digits; cprintf sends them to the console.  [locking] is cons.locking. *)
From S2P Require Import Prelude CString KState Sched Bytes Bio Log Fs FsThm Pipe Kbd Console ConsoleThm Ulib.

(** [digits[d]] *)
Definition kdigit (d : Z) : Z := if d <? 10 then 48 + d else 97 + (d - 10).

(** The [do] loop with [room] bytes left in [buf]. *)
Fixpoint kdigits_loop (room : nat) (x base : Z) (acc : list Z) : option (list Z) :=
  match room with
  | O => None
  | S room =>
      let acc := kdigit (x `mod` base) :: acc in
      let x := x `div` base in
      if x =? 0 then Some acc else kdigits_loop room x base acc
  end.

Definition kprintint (xx base : Z) (sign : bool) : option (list Z) :=
  let neg := sign && (xx <? 0) in
  let x := if neg then u32 (- xx) else u32 xx in
  ds ← kdigits_loop 16 x base [];
  if neg then if Nat.ltb (length ds) 16 then Some (45 :: ds) else None else Some ds.

(** The loop over the format; [pct]: after a percent sign. *)
Fixpoint cprintf_loop (fmt : list Z) (args : list arg) (pct : bool) : option (list Z) :=
  match fmt with
  | [] => Some []
  | c :: fmt =>
      if negb pct then
        if c =? 37 then cprintf_loop fmt args true else cons c <$> cprintf_loop fmt args false
      else if c =? 100 then
        match args with
        | AInt z :: args => ds ← kprintint z 10 true; app ds <$> cprintf_loop fmt args false
        | _ => None
        end
      else if (c =? 120) || (c =? 112) then
        match args with
        | AInt z :: args => ds ← kprintint z 16 false; app ds <$> cprintf_loop fmt args false
        | _ => None
        end
      else if c =? 115 then
        match args with
        | AStr o :: args => app (default null_str o) <$> cprintf_loop fmt args false
        | _ => None
        end
      else if c =? 37 then cons c <$> cprintf_loop fmt args false
      else (λ r, 37 :: c :: r) <$> cprintf_loop fmt args false
  end.

Definition cprintf (locking : bool) (fmt : list Z) (args : list arg) : K unit :=
  when locking (acquire Lcons);;
  cs <- deref "cprintf" (cprintf_loop fmt args false);
  forM cs consputc;;
  when locking (release Lcons).

(** procdump's names of the states; "%d %s %s" and " %p" *)
Definition state_name (st : procstate) : list Z :=
  match st with
  | UNUSED => [117; 110; 117; 115; 101; 100]
  | EMBRYO => [101; 109; 98; 114; 121; 111]
  | SLEEPING => [115; 108; 101; 101; 112; 32]
  | RUNNABLE => [114; 117; 110; 98; 108; 101]
  | RUNNING => [114; 117; 110; 32; 32; 32]
  | ZOMBIE => [122; 111; 109; 98; 105; 101]
  end.

(** [for (i = 0; i < 10 && pc[i] != 0; i++)] *)
Fixpoint dump_pcs (locking : bool) (pcs : list Z) : K unit :=
  match pcs with
  | [] => ret tt
  | pc :: pcs => if pc =? 0 then ret tt else cprintf locking [32; 37; 112] [AInt pc];; dump_pcs locking pcs
  end.

(** [pcs p]: what getcallerpcs finds on the stack of a sleeping process. *)
Definition procdump (locking : bool) (pcs : proc → list Z) : K unit :=
  s <- get;
  forM (k_ptable s) (λ p,
    if bool_decide (p_state p = UNUSED) then ret tt else
    name <- deref "p->name" (cstr (p_name p));
    cprintf locking [37; 100; 32; 37; 115; 32; 37; 115] [AInt (p_pid p); AStr (Some (state_name (p_state p))); AStr (Some name)];;
    when (bool_decide (p_state p = SLEEPING))
      (dump_pcs locking (pcs p));;
    cprintf locking [10] []).

(** ** What is printed *)

Definition lower (c : Z) : Z := if (65 <=? c) && (c <=? 70) then c + 32 else c.

Definition lowers (l : list Z) : list Z := lower <$> l.

Lemma kdigit_lower d : 0 ≤ d < 16 → kdigit d = lower (digit d).
Proof. intros Hd. unfold kdigit, lower, digit. destruct (Z.ltb_spec d 10), (Z.leb_spec 65 (48 + d)), (Z.leb_spec 65 (65 + (d - 10))), (Z.leb_spec (65 + (d - 10)) 70); cbn; lia. Qed.

Lemma kdigits_lower room x base acc : 0 < base ≤ 16 →
  kdigits_loop room x base (lowers acc) = lowers <$> digits_loop room x base acc.
Proof.
  intros Hb. revert x acc. induction room as [|room IH]; intros x acc; [done|]. cbn [kdigits_loop digits_loop].
  rewrite kdigit_lower by (pose proof (Z.mod_pos_bound x base); lia). destruct (x `div` base =? 0); [done|]. apply (IH _ (digit (x `mod` base) :: acc)).
Qed.

Lemma kprintint_lower xx base sign : 0 < base ≤ 16 → kprintint xx base sign = lowers <$> printint xx base sign.
Proof.
  intros Hb. unfold kprintint, printint. set (x := if sign && (xx <? 0) then _ else _). change [] with (lowers []) at 1. rewrite kdigits_lower by done.
  destruct (digits_loop 16 x base []) as [ds|]; [|done]. cbn [fmap option_fmap option_map mbind option_bind]. unfold lowers at 1. rewrite length_fmap.
  destruct (sign && (xx <? 0)); [|done]. by destruct (length ds <? 16)%nat.
Qed.

(** The pieces of a format; a hexadecimal number has lower-case digits. *)
Definition krendered (p : piece) (o : list Z) : Prop :=
  match p with Dec _ | Hex _ => ∃ o', rendered p o' ∧ o = lowers o' | _ => rendered p o end.
Definition kpiece_ok (p : piece) : Prop := piece_ok p ∧ match p with Chr _ => False | _ => True end.

Lemma cprintf_loop_text s fmt args o :
  37 ∉ s → cprintf_loop fmt args false = Some o → cprintf_loop (s ++ fmt) args false = Some (s ++ o).
Proof.
  intros Hs Ho. induction s as [|c s IH]; [done|]. apply not_elem_of_cons in Hs as [? Hs]. cbn [app cprintf_loop negb].
  rewrite (proj2 (Z.eqb_neq c 37)) by congruence. by rewrite IH.
Qed.

Lemma cprintf_loop_renders ps : Forall kpiece_ok ps →
  ∃ os, Forall2 krendered ps os ∧ cprintf_loop (concat (fmt_of <$> ps)) (concat (args_of <$> ps)) false = Some (concat os).
Proof.
  induction 1 as [|p ps [Hp Hc] _ (os & Hos & IH)]; [by exists []|].
  assert (∃ o, krendered p o ∧ cprintf_loop (fmt_of p ++ concat (fmt_of <$> ps)) (args_of p ++ concat (args_of <$> ps)) false =
    Some (o ++ concat os)) as (o & Ho & Hrun); [|exists (o :: os); split; [by constructor|done]].
  destruct p as [s|z|z|s|c|]; cbn [fmt_of args_of app]; try done.
  - exists s. split; [done|]. by apply cprintf_loop_text.
  - destruct (printint_dec z Hp) as (o & Ho & Hr). exists (lowers o). split; [by exists o|]. cbn -[kprintint Z.pow]. rewrite kprintint_lower, Ho by lia. cbn -[Z.pow]. by rewrite IH.
  - destruct (printint_hex z) as (o & Ho & Hr). exists (lowers o). split; [by exists o|]. cbn -[kprintint Z.pow]. rewrite kprintint_lower, Ho by lia. cbn -[Z.pow]. by rewrite IH.
  - exists (default null_str s). split; [done|]. cbn. by rewrite IH.
  - exists [37]. split; [done|]. cbn. by rewrite IH.
Qed.

(** The characters reach the serial port and the screen. *)
Lemma puts_run cs cn s : screen_ok cn → Forall (λ c, c ≠ BACKSPACE) cs →
  ∃ cn', forM cs consputc (with_cons cn s) = Ok tt (with_cons cn' s) ∧ screen_ok cn' ∧ same_input cn cn' ∧
    cn_uart cn' = rev (u8 <$> cs) ++ cn_uart cn ∧ screen_of cn' = shows cs (screen_of cn).
Proof.
  intros Hs Hcs. revert cn Hs. induction Hcs as [|c cs Hc _ IH]; intros cn Hs; [exists cn; by split_and!|]. cbn [forM].
  destruct (cgaputc_run c (cn <| cn_uart ::= cons (u8 c) |>) s) as (crt & pos & Hr & Hok & _ & Hsc); [done|].
  erewrite bind_ok.
  2: { unfold consputc. rewrite (proj2 (Z.eqb_neq c BACKSPACE) Hc). erewrite bind_ok; [|apply modcons_run]. exact Hr. }
  match goal with |- context [with_cons ?x s] => destruct (IH x Hok) as (cn' & Hr' & Hok' & Hsame & Hu & Hsh) end.
  exists cn'. split; [exact Hr'|]. split; [done|]. split; [exact Hsame|]. split; [rewrite Hu; cbn; by rewrite <-app_assoc|].
  rewrite Hsh, Hsc. done.
Qed.

Definition arg_bytes (a : arg) : Prop := match a with AStr (Some s) => Forall byte s | _ => True end.

Lemma kdigits_bytes room x base acc ds : 0 < base ≤ 16 → kdigits_loop room x base acc = Some ds → Forall byte acc → Forall byte ds.
Proof.
  intros Hb. revert x acc. induction room as [|room IH]; intros x acc; [done|]. cbn [kdigits_loop]. intros Hd Hacc.
  assert (Forall byte (kdigit (x `mod` base) :: acc)) as Hc.
  { constructor; [|done]. pose proof (Z.mod_pos_bound x base). unfold byte, kdigit. destruct (_ <? _); lia. }
  destruct (x `div` base =? 0); [by simplify_eq|by eapply IH].
Qed.

Lemma kprintint_bytes xx base sign ds : 0 < base ≤ 16 → kprintint xx base sign = Some ds → Forall byte ds.
Proof.
  intros Hb. unfold kprintint. set (x := if sign && (xx <? 0) then _ else _). destruct (kdigits_loop 16 x base []) as [l|] eqn:E; [|done].
  apply kdigits_bytes in E; [|done|by apply list.Forall_nil]. cbn [mbind option_bind]. destruct (sign && (xx <? 0)); [|by intros [= <-]].
  destruct (_ <? _)%nat; [|done]. intros [= <-]. constructor; [unfold byte; lia|done].
Qed.

Lemma cprintf_loop_bytes fmt args pct o : Forall byte fmt → Forall arg_bytes args → cprintf_loop fmt args pct = Some o → Forall byte o.
Proof.
  intros Hf. revert args pct o. induction Hf as [|c fmt Hc Hf IH]; intros args pct o Ha; cbn [cprintf_loop]; [intros [= <-]; by apply list.Forall_nil|].
  assert (∀ (f : list Z → list Z) a b, (∀ l, Forall byte l → Forall byte (f l)) → Forall arg_bytes a → f <$> cprintf_loop fmt a b = Some o → Forall byte o) as Hk.
  { intros f a b Hfl Hab (r & Hr & ->)%fmap_Some. by eapply Hfl, IH. }
  assert (∀ z b g a, (0 < b ≤ 16) → Forall arg_bytes a → (ds ← kprintint z b g; app ds <$> cprintf_loop fmt a false) = Some o → Forall byte o) as Hi.
  { intros z b g a Hb Hab. destruct (kprintint z b g) as [ds|] eqn:E; [|done]. cbn [mbind option_bind]. apply Hk; [|done].
    intros l Hl. apply list.Forall_app. split; [by eapply kprintint_bytes|done]. }
  destruct pct; cbn [negb].
  - repeat match goal with |- context [if ?b then _ else _] => destruct b end;
      try (destruct args as [|[z|s] args]; [done| |]; try done; apply list.Forall_cons in Ha as [Hx Ha]).
    + by apply Hi.
    + by apply Hi.
    + apply Hk; [|done]. intros l Hl. apply list.Forall_app. split; [|done]. destruct s; [done|]. by repeat constructor.
    + apply Hk; [|done]. intros l Hl. by constructor.
    + apply Hk; [|done]. intros l Hl. constructor; [done|by constructor].
  - destruct (c =? 37); [by apply IH|]. apply Hk; [|done]. intros l Hl. by constructor.
Qed.

Lemma u8_bytes l : Forall byte l → u8 <$> l = l.
Proof. induction 1 as [|c l Hc _ IH]; [done|]. cbn. by rewrite IH, u8_small. Qed.

(** C34: cprintf prints its format: with the console's lock taken and given back if locking is on, the serial
    port gets the text, the numbers in decimal or hexadecimal and the strings of the format, in order; the
    screen shows the same characters from the cursor on, newlines and scrolling included ([shows]), and stays
    in bounds; and the input being edited is untouched. *)
Theorem cprintf_prints locking ps s :
  Forall kpiece_ok ps → Forall byte (concat (fmt_of <$> ps)) → Forall arg_bytes (concat (args_of <$> ps)) → screen_ok (k_cons s) → Lcons ∉ k_held s →
  ∃ os cn', Forall2 krendered ps os ∧ cprintf locking (concat (fmt_of <$> ps)) (concat (args_of <$> ps)) s = Ok tt (with_cons cn' s) ∧
    screen_ok cn' ∧ same_input (k_cons s) cn' ∧ cn_uart cn' = rev (concat os) ++ cn_uart (k_cons s) ∧
    screen_of cn' = shows (concat os) (screen_of (k_cons s)).
Proof.
  intros Hps Hfmt Hargs Hs Hlk. destruct (cprintf_loop_renders ps Hps) as (os & Hos & Hrun).
  pose proof (cprintf_loop_bytes _ _ _ _ Hfmt Hargs Hrun) as Hby.
  assert (Forall (λ c, c ≠ BACKSPACE) (concat os)) as Hnb by (eapply list.Forall_impl; [exact Hby|]; unfold byte, BACKSPACE; intros c Hc; lia).
  set (s1 := if locking then s <| k_held ::= cons Lcons |> else s).
  destruct (puts_run (concat os) (k_cons s) s1 Hs Hnb) as (cn' & Hr & Hok & Hsame & Hu & Hsh). rewrite u8_bytes in Hu by done.
  exists os, cn'. split; [done|]. split; [|done]. unfold cprintf. rewrite Hrun.
  assert (when locking (acquire Lcons) s = Ok tt (with_cons (k_cons s) s1)) as Ha.
  { unfold s1. destruct locking; cbn [when]; [|by rewrite with_cons_id]. rewrite acquire_run by done. by destruct s. }
  rewrite (bind_ok _ _ _ _ _ Ha). step. rewrite (bind_ok _ _ _ _ _ Hr). unfold s1. destruct locking; [|done]. cbn [when].
  by apply (release_top Lcons (with_cons cn' s)).
Qed.
