(* ===== verification/Seg.v ===== *)
(** * Segment and gate descriptors (mmu.h, seginit and switchuvm of vm.c, tvinit of trap.c)

    The descriptors are records of their bit fields, each cut to its width when it is
    stored.  What the processor makes of them, the base and the limit of a segment and the
    entry point of a gate, is [seg_base], [seg_limit] and [gate_offset]. *)
From S2P Require Import Prelude Trap.

(** A bit field of [n] bits. *)
Definition bits (n v : Z) : Z := v `mod` 2 ^ n.

Record segdesc := Segdesc {
  lim_15_0 : Z; base_15_0 : Z; base_23_16 : Z; sd_type : Z; sd_s : Z; sd_dpl : Z; sd_p : Z;
  lim_19_16 : Z; sd_avl : Z; sd_rsv1 : Z; sd_db : Z; sd_g : Z; base_31_24 : Z }.
Definition eta_segdesc (r : segdesc) : segdesc :=
  Segdesc (lim_15_0 r) (base_15_0 r) (base_23_16 r) (sd_type r) (sd_s r) (sd_dpl r) (sd_p r) (lim_19_16 r) (sd_avl r) (sd_rsv1 r) (sd_db r) (sd_g r) (base_31_24 r).
#[global] Instance upd_sd_s : Upd sd_s := ltac:(mk_upd eta_segdesc sd_s).

Definition SEG (type base lim dpl : Z) : segdesc :=
  Segdesc (bits 16 (Z.land (Z.shiftr lim 12) 0xffff)) (bits 16 (Z.land (u32 base) 0xffff)) (bits 8 (Z.land (Z.shiftr (u32 base) 16) 0xff))
    (bits 4 type) 1 (bits 2 dpl) 1 (bits 4 (Z.shiftr (u32 lim) 28)) 0 0 1 1 (bits 8 (Z.shiftr (u32 base) 24)).

Definition SEG16 (type base lim dpl : Z) : segdesc :=
  Segdesc (bits 16 (Z.land lim 0xffff)) (bits 16 (Z.land (u32 base) 0xffff)) (bits 8 (Z.land (Z.shiftr (u32 base) 16) 0xff))
    (bits 4 type) 1 (bits 2 dpl) 1 (bits 4 (Z.shiftr (u32 lim) 16)) 0 0 1 0 (bits 8 (Z.shiftr (u32 base) 24)).

Local Abbreviation SEG_KCODE := 1.
Local Abbreviation SEG_KDATA := 2.
Local Abbreviation SEG_UCODE := 3.
Local Abbreviation SEG_UDATA := 4.
Local Abbreviation SEG_TSS := 5.
Local Abbreviation DPL_USER := 3.
Local Abbreviation STA_X := 8.
Local Abbreviation STA_W := 2.
Local Abbreviation STA_R := 2.
Local Abbreviation STS_T32A := 9.
Local Abbreviation STS_IG32 := 0xe.
Local Abbreviation STS_TG32 := 0xf.

(** The gdt of the processor. *)
Definition seginit (gdt : list segdesc) : list segdesc :=
  let gdt := <[Z.to_nat SEG_KCODE := SEG (Z.lor STA_X STA_R) 0 0xffffffff 0]> gdt in
  let gdt := <[Z.to_nat SEG_KDATA := SEG STA_W 0 0xffffffff 0]> gdt in
  let gdt := <[Z.to_nat SEG_UCODE := SEG (Z.lor STA_X STA_R) 0 0xffffffff DPL_USER]> gdt in
  <[Z.to_nat SEG_UDATA := SEG STA_W 0 0xffffffff DPL_USER]> gdt.

(** struct gatedesc. *)
Record gatedesc := Gatedesc { off_15_0 : Z; gd_cs : Z; gd_args : Z; gd_rsv1 : Z; gd_type : Z; gd_s : Z; gd_dpl : Z; gd_p : Z; off_31_16 : Z }.

Definition SETGATE (istrap : bool) (sel off d : Z) : gatedesc :=
  Gatedesc (bits 16 (Z.land (u32 off) 0xffff)) (bits 16 sel) 0 0 (if istrap then STS_TG32 else STS_IG32) 0 (bits 2 d) 1 (bits 16 (Z.shiftr (u32 off) 16)).

(** [vectors] is the table that vectors.pl generates. *)
Definition tvinit (vectors : nat → Z) (idt : list gatedesc) : list gatedesc :=
  let idt := foldl (λ idt i, <[i := SETGATE false (Z.shiftl SEG_KCODE 3) (vectors i) 0]> idt) idt (seq 0 256) in
  <[Z.to_nat T_SYSCALL := SETGATE true (Z.shiftl SEG_KCODE 3) (vectors (Z.to_nat T_SYSCALL)) DPL_USER]> idt.

(** The words of lgdt and lidt for a table at [p] of [size] bytes. *)
Definition lgdt (p size : Z) : list Z := [u16 (size - 1); u16 (u32 p); u16 (Z.shiftr (u32 p) 16)].

(** The fields of struct taskstate that switchuvm sets. *)
Record taskstate := Taskstate { ts_esp0 : Z; ts_ss0 : Z; ts_iomb : Z }.

(** The segment part of switchuvm: [ts] is the address of the processor's taskstate. *)
Definition switch_segments (ts kstack : Z) (gdt : list segdesc) : list segdesc * taskstate :=
  (<[Z.to_nat SEG_TSS := SEG16 STS_T32A ts (104 - 1) 0 <| sd_s := 0 |>]> gdt,
   Taskstate (u32 (kstack + 4096)) (u16 (Z.shiftl SEG_KDATA 3)) 0xffff).

(** ** What the processor makes of them *)

Definition seg_base (d : segdesc) : Z := base_15_0 d + 2 ^ 16 * base_23_16 d + 2 ^ 24 * base_31_24 d.
Definition seg_limit (d : segdesc) : Z :=
  let l := lim_15_0 d + 2 ^ 16 * lim_19_16 d in if sd_g d =? 0 then l else 4096 * l + 4095.
Definition gate_offset (g : gatedesc) : Z := off_15_0 g + 2 ^ 16 * off_31_16 g.

Lemma low_bits x n k : 0 ≤ n ≤ k → bits k (Z.land x (Z.ones n)) = x `mod` 2 ^ n.
Proof.
  intros Hn. unfold bits. rewrite Z.land_ones by lia. pose proof (Z.mod_pos_bound x (2 ^ n) ltac:(lia)).
  apply Z.mod_small. pose proof (Z.pow_le_mono_r 2 n k). lia.
Qed.

Lemma u32_bound b : 0 ≤ u32 b < 4294967296.
Proof. by apply Z.mod_pos_bound. Qed.

Lemma base_fields b : 0 ≤ b < 4294967296 →
  bits 16 (Z.land b 0xffff) + 2 ^ 16 * bits 8 (Z.land (Z.shiftr b 16) 0xff) + 2 ^ 24 * bits 8 (Z.shiftr b 24) = b.
Proof.
  intros Hb. change 0xffff with (Z.ones 16). change 0xff with (Z.ones 8). rewrite !low_bits by lia. unfold bits. rewrite !Z.shiftr_div_pow2 by lia.
  change (2 ^ 16) with 65536. change (2 ^ 24) with 16777216. change (2 ^ 8) with 256. Z.to_euclidean_division_equations. lia.
Qed.

Lemma SEG_base t b l d : seg_base (SEG t b l d) = u32 b.
Proof. apply base_fields, u32_bound. Qed.

Lemma SEG16_base t b l d : seg_base (SEG16 t b l d <| sd_s := 0 |>) = u32 b.
Proof. apply base_fields, u32_bound. Qed.

Lemma gate_fields o : 0 ≤ o < 4294967296 → bits 16 (Z.land o 0xffff) + 2 ^ 16 * bits 16 (Z.shiftr o 16) = o.
Proof.
  intros Ho. change 0xffff with (Z.ones 16). rewrite low_bits by lia. unfold bits. rewrite !Z.shiftr_div_pow2 by lia. change (2 ^ 16) with 65536.
  Z.to_euclidean_division_equations. lia.
Qed.

(** A table that is filled from its start. *)
Lemma fill_length {X} (f : nat → X) (l : list X) n : length (foldl (λ l i, <[i := f i]> l) l (seq 0 n)) = length l.
Proof. induction n as [|n IH]; [done|]. by rewrite seq_S, foldl_snoc, length_insert. Qed.

Lemma fill_lookup {X} (f : nat → X) (l : list X) n i : (i < n)%nat → (n ≤ length l)%nat → foldl (λ l i, <[i := f i]> l) l (seq 0 n) !! i = Some (f i).
Proof.
  intros Hi Hn. induction n as [|n IH]; [lia|]. rewrite seq_S, foldl_snoc. cbn [Nat.add]. destruct (decide (i = n)) as [->|].
  - apply list_lookup_insert_eq. rewrite fill_length. lia.
  - rewrite list_lookup_insert_ne by done. apply IH; lia.
Qed.

(** C17: the descriptor tables protect the kernel.  After seginit and tvinit, every interrupt vector has a
    present gate to its entry point through the kernel's code segment, which has privilege level 0 and spans
    the whole address space; the gate of the system call is the only one a user program can call with the
    int instruction, and the only one that leaves interrupts on; the user's segments have privilege 3. *)
Theorem gates_protect vectors gdt idt i : length gdt = 6%nat → length idt = 256%nat → (i < 256)%nat → 0 ≤ vectors i < 2 ^ 32 →
  ∃ g k u v, tvinit vectors idt !! i = Some g ∧ gd_p g = 1 ∧ gate_offset g = vectors i ∧
    (gd_dpl g = DPL_USER ↔ i = Z.to_nat T_SYSCALL) ∧ (gd_type g = STS_TG32 ↔ i = Z.to_nat T_SYSCALL) ∧
    seginit gdt !! Z.to_nat (Z.shiftr (gd_cs g) 3) = Some k ∧ sd_dpl k = 0 ∧ seg_base k = 0 ∧ seg_limit k = 2 ^ 32 - 1 ∧
    seginit gdt !! Z.to_nat SEG_UCODE = Some u ∧ seginit gdt !! Z.to_nat SEG_UDATA = Some v ∧ sd_dpl u = DPL_USER ∧ sd_dpl v = DPL_USER.
Proof.
  intros Hg Hl Hi Hv. unfold tvinit, seginit. set (istrap := bool_decide (i = Z.to_nat T_SYSCALL)).
  exists (SETGATE istrap (Z.shiftl SEG_KCODE 3) (vectors i) (if istrap then DPL_USER else 0)). do 3 eexists. split_and!.
  - unfold istrap. case_bool_decide as E.
    + rewrite E. apply list_lookup_insert_eq. rewrite (fill_length (λ i, SETGATE false (Z.shiftl SEG_KCODE 3) (vectors i) 0)), Hl. by vm_compute; lia.
    + rewrite list_lookup_insert_ne by done. apply (fill_lookup (λ i, SETGATE false (Z.shiftl SEG_KCODE 3) (vectors i) 0)); lia.
  - done.
  - unfold gate_offset. cbn [SETGATE off_15_0 off_31_16]. rewrite gate_fields by apply u32_bound. by apply u32_small.
  - unfold istrap. by case_bool_decide.
  - unfold istrap. by case_bool_decide.
  - by destruct gdt as [|? [|? [|? [|? [|? [|? []]]]]]].
  - done.
  - done.
  - done.
  - by destruct gdt as [|? [|? [|? [|? [|? [|? []]]]]]].
  - by destruct gdt as [|? [|? [|? [|? [|? [|? []]]]]]].
  - done.
  - done.
Qed.

(** The task segment that switchuvm installs: its base is the taskstate, traps from user mode start at the top
    of the process's kernel stack in the kernel's data segment, and its I/O map lies beyond its limit, which
    forbids port instructions in user mode. *)
Theorem switch_tss ts kstack gdt : length gdt = 6%nat → 0 ≤ ts < 2 ^ 32 → 0 ≤ kstack < 2 ^ 32 - 4096 →
  let '(gdt', t) := switch_segments ts kstack gdt in
  ∃ d, gdt' !! Z.to_nat SEG_TSS = Some d ∧ seg_base d = ts ∧ seg_limit d = 103 ∧ sd_s d = 0 ∧ sd_dpl d = 0 ∧
    ts_esp0 t = kstack + 4096 ∧ seg_limit d < ts_iomb t ∧ Z.shiftr (ts_ss0 t) 3 = SEG_KDATA.
Proof.
  intros Hg Ht Hk. unfold switch_segments. eexists. split; [apply list_lookup_insert_eq; rewrite Hg; vm_compute; lia|].
  split; [rewrite SEG16_base; by apply u32_small|]. split; [done|]. split; [done|]. split; [done|]. split; [apply u32_small; lia|]. by split.
Qed.

Definition no_seg : segdesc := Segdesc 0 0 0 0 0 0 0 0 0 0 0 0 0.
Definition no_gate : gatedesc := Gatedesc 0 0 0 0 0 0 0 0 0.

Lemma gates_protect_witness : ∃ g k u v,
  tvinit (λ i, 0x80100000 + 16 * Z.of_nat i) (replicate 256 no_gate) !! 64%nat = Some g ∧ gd_p g = 1 ∧ gate_offset g = 0x80100400 ∧
    (gd_dpl g = DPL_USER ↔ 64%nat = Z.to_nat T_SYSCALL) ∧ (gd_type g = STS_TG32 ↔ 64%nat = Z.to_nat T_SYSCALL) ∧
    seginit (replicate 6 no_seg) !! Z.to_nat (Z.shiftr (gd_cs g) 3) = Some k ∧ sd_dpl k = 0 ∧ seg_base k = 0 ∧ seg_limit k = 2 ^ 32 - 1 ∧
    seginit (replicate 6 no_seg) !! Z.to_nat SEG_UCODE = Some u ∧ seginit (replicate 6 no_seg) !! Z.to_nat SEG_UDATA = Some v ∧ sd_dpl u = DPL_USER ∧ sd_dpl v = DPL_USER.
Proof. apply (gates_protect (λ i, 0x80100000 + 16 * Z.of_nat i) (replicate 6 no_seg) (replicate 256 no_gate) 64); [done|done|lia|vm_compute; by split]. Defined.
