(* ===== verification/Examples.v ===== *)
(** * The theorems at concrete states

    Concrete memories, page tables and kernel states at which the hypotheses of the
    theorems hold. *)
From S2P Require Import Prelude Mem CString Mmu Kalloc Vm PageTable UserVm KState Sched Mutex Bytes Bio Ring BioThm Log LogThm LogRun Crash Txn Fs FsThm Pipe PipeThm FileTab Kbd Console ConsoleThm Proc Syscall Sysfile Trap SysThm PQueue ProcThm Prio Ulib Cprintf.

(** ** Memory *)

(** A kernel linked at KERNLINK whose data segment starts at 0x80108000. *)
#[local] Instance linker : Linker :=
  {| kend := 0x80115000; kdata := 0x80108000; kforkret := 0x80103000; kinitcode := [] |}.
#[local] Instance linker_ok : LinkerOk.
Proof. by split. Qed.
#[local] Instance two_rounds : Bound := 2%nat.
#[local] Existing Instance no_devices.

Definition no_mem : pmem := Pm (λ _, 0) false false 0.

Lemma no_mem_free : free_pages no_mem [].
Proof. split; [by intros x|done|done|constructor|constructor]. Qed.

Lemma kalloc_refines_witness :
  ∃ s', conc_run [AFree 0x80200000; AFree 0x80201000; AAlloc; AAlloc; AAlloc] no_mem =
    Ok [0; 0; 0x80201000; 0x80200000; 0] s' ∧ free_pages s' [].
Proof.
  apply (kalloc_refines [AFree 0x80200000; AFree 0x80201000; AAlloc; AAlloc; AAlloc] no_mem []).
  - apply no_mem_free.
  - split_and!; try done; by apply (bool_decide_unpack _).
Defined.

Lemma kinit_pages_witness :
  ∃ s' l, (kinit1 kend (P2V (4 * 1024 * 1024));;
           kinit2 (P2V (4 * 1024 * 1024)) (P2V PHYSTOP)) no_mem = Ok tt s' ∧
    free_pages s' l ∧ pm_use_lock s' = true ∧ ∀ v, v ∈ l ↔ page_ok v.
Proof. apply (kinit_pages no_mem); [by intros x|done]. Defined.

Lemma memmove_spec_witness :
  memmove (st8 (st8 (λ _, 0) 8 5) 9 6) 9 8 2 10 = 6.
Proof. rewrite (memmove_spec (st8 (st8 (λ _, 0) 8 5) 9 6) 9 8 2 10); [done|by intros x; do 2 apply st8_ok|done]. Defined.

Lemma strncmp_prefix_witness : strncmp ([97] ++ [0]) [97; 98; 0] 1 = Some 0.
Proof.
  apply (strncmp_prefix [97] [97; 98; 0] [0]); [by apply (bool_decide_unpack _)|simpl; lia| |].
  - by repeat constructor.
  - by exists [98; 0].
Defined.

Lemma safestrcpy_cstr_witness :
  ∃ s', safestrcpy (zeros 4) ([97; 98; 99; 100] ++ 0 :: []) 3 = Some s' ∧ length s' = 4%nat ∧
    cstr s' = Some [97; 98].
Proof. apply (safestrcpy_cstr (zeros 4) [97; 98; 99; 100] [] 3); [by apply (bool_decide_unpack _)|simpl; lia]. Defined.

(** ** An empty page directory at 0x80200000 and four free pages after it *)

Definition PD : Z := 0x80200000.
Definition page (k : Z) : Z := PD + 4096 * k.
Definition four_free : pmem :=
  Pm (st32 (st32 (st32 (λ _, 0) (page 1) (page 2)) (page 2) (page 3)) (page 3) (page 4)) false false (page 1).
Definition free_list : list Z := [page 1; page 2; page 3; page 4].

Lemma four_free_pd x : PD ≤ x < PD + 4096 → pm_mem four_free x = 0.
Proof. intros Hx. simpl. by rewrite !st32_out by (unfold page; lia). Qed.

Lemma four_free_tab i : 0 ≤ i < 1024 → tab (pm_mem four_free) PD i = None.
Proof.
  intros Hi. unfold tab. assert (ld32 (pm_mem four_free) (PD + 4 * i) = 0) as ->; [|done].
  change 0 with (ld32 (λ _, 0) (PD + 4 * i)). apply ld32_ext. intros j Hj. apply four_free_pd. lia.
Qed.

Lemma four_free_aspace : aspace four_free free_list PD.
Proof.
  split.
  - split; [by do 3 apply st32_ok; intros x|done|by split_and!; vm_compute|by apply (bool_decide_unpack _)..].
  - intros p [->|(i & Hi & Hp)]; [by split; apply (bool_decide_unpack _)|]. by rewrite four_free_tab in Hp.
  - intros i Hi. by rewrite four_free_tab.
  - intros i j t Hi Hj Ht. by rewrite four_free_tab in Ht.
Qed.

Lemma four_free_xlate va : 0 ≤ va < 2 ^ 32 → xlate (pm_mem four_free) PD va = None.
Proof. intros Hva. unfold xlate. by rewrite four_free_tab by (by apply PDX_range). Qed.

Lemma mappages_maps_witness :
  ∃ r s' l', mappages PD 0x1800 0x1000 0x300000 6 four_free = Ok r s' ∧ aspace s' l' PD ∧
    frame (own (pm_mem s') PD) (pm_mem four_free) (pm_mem s') ∧
    (∀ x, 0 ≤ x < 2 ^ 32 → ¬ (PGROUNDDOWN 0x1800 ≤ x < PGROUNDDOWN 0x1800 + 4096 * Z.of_nat 2) →
       xlate (pm_mem s') PD x = xlate (pm_mem four_free) PD x) ∧
    (r = 0 ∧ (∀ x, PGROUNDDOWN 0x1800 ≤ x < PGROUNDDOWN 0x1800 + 4096 * Z.of_nat 2 → x < 2 ^ 32 →
       xlate (pm_mem s') PD x = Some (mk_pte (0x300000 + (x - PGROUNDDOWN 0x1800) `div` 4096 * 4096) 6)) ∨
     r = -1 ∧ (length free_list < 2)%nat).
Proof.
  apply (mappages_maps four_free free_list PD 0x1800 0x1000 0x300000 6 2); try done.
  - apply four_free_aspace.
  - intros x Hx. apply four_free_xlate. change (PGROUNDDOWN 6144) with 4096 in Hx. lia.
Defined.

Lemma allocuvm_run_witness :
  alloc_result four_free free_list PD 0 5000 (2048 * 4 < pgup 5000 - pgup 0) (allocuvm PD 0 5000 four_free).
Proof.
  apply (allocuvm_run four_free free_list PD 0 5000); [apply four_free_aspace|lia|done|].
  intros va Hva. apply four_free_xlate. change (pgup 0) with 0 in Hva. change (pgup 5000) with 8192 in Hva. lia.
Defined.

(** Two pages of user memory on top of [four_free]. *)
Lemma two_pages :
  ∃ s l ps, allocated four_free free_list s l PD 0 ps [] ∧ length ps = 2%nat.
Proof.
  destruct (allocuvm_loop_spec four_free free_list PD 0 5000 ltac:(lia) ltac:(done)) with
    (n := 4%nat) (s := four_free) (l := free_list) (ps := @nil Z) as (r & s' & l' & Hr & Hcase).
  - intros va Hva. apply four_free_xlate. change (pgup 0) with 0 in Hva. change (pgup 5000) with 8192 in Hva. lia.
  - by apply allocated_nil, four_free_aspace.
  - done.
  - done.
  - destruct Hcase as [(_ & ps & Hal & Hlen)|(_ & Hshort & _)]; [|by vm_compute in Hshort].
    exists s', l', ps. split; [done|]. change (pgup 5000 - pgup 0) with 8192 in Hlen. lia.
Qed.

Lemma deallocuvm_frees_witness :
  ∃ s l s' l', aspace s l PD ∧ deallocuvm PD 8192 4096 s = Ok 4096 s' ∧
    aspace s' l' PD ∧ (length l < length l')%nat.
Proof.
  destruct two_pages as (s & l & ps & Hal & Hlen).
  destruct (allocated_udata _ _ _ _ _ _ _ _ 8192 Hal) as [_ Hud]; [done..| |].
  { intros va Hva. apply four_free_xlate. lia. }
  destruct (deallocuvm_frees s l PD 8192 4096) as (s' & l' & Hr & Has & Hx & Hl & Hf); [apply Hal|done..| |].
  { destruct Hud as [Hp Hi]. split.
    - intros va e Hva. apply Hp. change (pgup 4096) with 4096 in Hva. change (pgup 8192) with 8192 in Hva. lia.
    - intros va va' e e' Hva Hva'. change (pgup 4096) with 4096 in *. change (pgup 8192) with 8192 in *.
      apply Hi; lia. }
  exists s, l, s', l'. split_and!; [apply Hal|done|done|].
  destruct (lookup_lt_is_Some_2 ps 1) as [p Hp]; [lia|].
  assert (xlate (pm_mem s) PD 4096 = Some (mk_pte (V2P p) URW)) as He.
  { rewrite (al_xlate _ _ _ _ _ _ _ _ Hal) by lia. unfold alloc_xlate. rewrite decide_True by lia.
    change (Z.to_nat ((4096 - 0) `div` 4096)) with 1%nat. by rewrite Hp. }
  assert (p ∈ ps ++ []) as Hin by (rewrite app_nil_r; by eapply list_elem_of_lookup_2).
  destruct (al_pages _ _ _ _ _ _ _ _ Hal p Hin) as (Hok & Hnl & _).
  assert (p :: l ⊆+ l') as Hsub.
  { apply NoDup_submseteq.
    - apply list.NoDup_cons. split; [done|]. apply (fp_nodup _ _ (as_free _ _ _ (al_aspace _ _ _ _ _ _ _ _ Hal))).
    - intros q [->|Hq]%elem_of_cons; apply Hl; [right|by left].
      exists 4096, (mk_pte (V2P p) URW). split_and!; [done..|]. by rewrite pte_page_mk. }
  apply submseteq_length in Hsub. simpl in Hsub. lia.
Defined.

Lemma mappages_remap_witness :
  ∃ s, mappages PD 100 50 0x300000 6 s = Panic "remap".
Proof.
  destruct two_pages as (s & l & ps & Hal & Hlen). exists s.
  destruct (lookup_lt_is_Some_2 ps 0) as [p Hp]; [lia|].
  eapply (mappages_remap s l PD 100 50 0x300000 6 (mk_pte (V2P p) URW)); [apply Hal|done..|].
  rewrite (al_xlate _ _ _ _ _ _ _ _ Hal) by lia. unfold alloc_xlate. rewrite decide_True by lia.
  change (Z.to_nat ((100 - 0) `div` 4096)) with 0%nat. by rewrite Hp.
Defined.

(** ** Locks, mutexes and pipes *)

(** Process 1 runs; process 2 holds the mutex they share, the first of both. *)
Definition other_holds : kst :=
  shared_mutex <| k_cur := Some 0%nat |>
    <| k_mtable ::= <[O := Mutex 1 1 2 (97 :: zeros 19) 2 0 0]> |>.

Lemma other_holds_me : me 0 1 other_holds.
Proof. by split; [|eexists]. Qed.

Lemma other_holds_refs : refs_ok other_holds.
Proof.
  assert (Forall (λ mx, Z.of_nat (refs mx.1 other_holds) ≤ m_refcount mx.2 < 2 ^ 31 ∧ (m_locked mx.2 = 1 → mx.1 = 0%nat ∧ m_pid mx.2 = 2))
    (imap pair (k_mtable other_holds))) as HF by (apply (bool_decide_unpack _); vm_compute; reflexivity).
  assert (∀ m x, k_mtable other_holds !! m = Some x → imap pair (k_mtable other_holds) !! m = Some (m, x)) as Hi.
  { intros m x Hx. rewrite list_lookup_imap, Hx. done. }
  split; intros m x Hx; destruct (Forall_lookup_1 _ _ _ _ HF (Hi m x Hx)) as [H1 H2]; [done|].
  intros Hl. destruct (H2 Hl) as [Em Ep]. simpl in Em, Ep. subst m. rewrite Ep. exists 1%nat. eexists. split; [vm_compute; reflexivity|]. split; [done|left].
Qed.

Lemma mutex_exclusion_witness :
  guar (me 0 1) (respects 0 1) (λ _ _, True) other_holds (mux_exec (MDelete 0) other_holds).
Proof. apply (mutex_exclusion 0 1 (MDelete 0) other_holds); [apply other_holds_me|]. intros. apply other_holds_refs. Defined.

Lemma mutex_lock_owns_witness :
  guar (me 0 1) (respects 0 1)
    (λ _ s', ∃ x, k_mtable s' !! 0%nat = Some x ∧ m_locked x ≠ 0 ∧ m_pid x = 1)
    other_holds (mutex_lock 0 other_holds).
Proof. by apply (mutex_lock_owns 0 1 0 0 other_holds); [apply other_holds_me|]. Defined.

Lemma mutex_lock_progress_witness :
  ∃ p r, mutex_lock 0 other_holds =
     Switch (other_holds <| k_ptable ::= <[0%nat := asleep (ChMutex 0) p]> |> <| k_held := [Lptable] |>) r.
Proof.
  edestruct (mutex_lock_progress 0 1 0 0) with (s := other_holds) as [_ Hl]; [apply Nat.lt_0_succ|reflexivity..|done|reflexivity|reflexivity|].
  eexists. by apply Hl.
Defined.

Definition live (pid : Z) : proc := proc0 <| p_state := RUNNABLE |> <| p_pid := pid |>.

(** A process that runs, and a pipe with three bytes at 0x80300000. *)
Definition pipe_addr : Z := 0x80300000.
Definition three_bytes : pipe := Pipe ([1; 2; 3] ++ zeros 509) 0 3 true true.
Definition with_pipe (p : pipe) : kst := one_running <| k_pipes := {[pipe_addr := p]} |>.

Lemma pipewrite_appends_witness :
  ∃ p', pipewrite pipe_addr [4; 5] (with_pipe three_bytes) =
      Ok 2 (woken (ChPipeRead pipe_addr) (set_pipe pipe_addr p' (with_pipe three_bytes))) ∧
    pipe_ok p' ∧ contents p' = [1; 2; 3] ++ [4; 5].
Proof.
  apply (pipewrite_appends pipe_addr [4; 5] three_bytes (with_pipe three_bytes));
    [apply Nat.lt_0_succ|done|done|by apply (bool_decide_unpack _)|by apply Nat.leb_le].
Defined.

Lemma piperead_takes_witness :
  ∃ p', piperead pipe_addr 2 (with_pipe three_bytes) =
      Ok (2, [1; 2]) (woken (ChPipeWrite pipe_addr) (set_pipe pipe_addr p' (with_pipe three_bytes))) ∧
    pipe_ok p' ∧ contents p' = [3].
Proof.
  apply (piperead_takes pipe_addr 2 three_bytes (with_pipe three_bytes));
    [apply Nat.lt_0_succ|done|done|by apply (bool_decide_unpack _)|by left].
Defined.

Lemma pipewrite_blocks_witness :
  let s := with_pipe (Pipe (zeros 512) 0 512 true true) in
  ∃ q k, pipewrite pipe_addr [7] s =
    Switch (woken (ChPipeRead pipe_addr) s
            <| k_ptable ::= <[0%nat := asleep (ChPipeWrite pipe_addr) (wake_proc (Some (ChPipeRead pipe_addr)) q)]> |>
            <| k_held := [Lptable] |>) k.
Proof. eexists. by eapply (pipewrite_blocks pipe_addr 7 [] _ 0); [apply Nat.lt_0_succ|..]. Defined.

(** Process 0 reads from an empty pipe whose counters are about to wrap, and sleeps;
    process 1 writes two bytes; process 0 goes on. *)
Lemma pipe_fifo_witness :
  let s := with_pipe (Pipe (zeros 512) 0xFFFFFFFF 0xFFFFFFFF true true) <| k_ptable ::= <[1%nat := live 2]> |> in
  ∃ y, interleaving pipe_addr s y ∧ (y_calls y, y_ret y) = ([PRead 1; PWrite [8; 9]], [(1%nat, (2, [])); (0%nat, (1, [8]))]) ∧
  ∃ p' l, k_pipes (y_k y) !! pipe_addr = Some p' ∧ l.*2 = bytes_read y ++ contents p' ∧ bytes_of 1 l `prefix_of` [8; 9].
Proof.
  intros s. set (go := [(0%nat, [], Start (PRead 1)); (1%nat, [], Start (PWrite [8; 9])); (0%nat, [Lptable], Resume 0)]).
  assert ((λ y, (y_calls y, y_ret y)) <$> schedule pipe_addr go (Calls s [] ∅ []) =
    Some ([PRead 1; PWrite [8; 9]], [(1%nat, (2, [])); (0%nat, (1, [8]))])) as E by (vm_compute; reflexivity).
  destruct (schedule pipe_addr go (Calls s [] ∅ [])) as [y|] eqn:Hy; [|done]. injection E as E1 E2. exists y.
  assert (k_pipes s !! pipe_addr = Some (Pipe (zeros 512) 0xFFFFFFFF 0xFFFFFFFF true true)) as Hp by reflexivity.
  assert (pipe_ok (Pipe (zeros 512) 0xFFFFFFFF 0xFFFFFFFF true true)) as Hok by (by apply (bool_decide_unpack _)).
  pose proof (schedule_interleaving _ _ _ _ _ _ Hp Hok eq_refl (inter_start _ _) Hy) as Hi. split; [exact Hi|]. split; [congruence|].
  destruct (pipe_fifo pipe_addr s _ y Hp Hok eq_refl Hi) as (p' & l & H1 & H2 & _ & H3 & _). exists p', l. split_and!; [done..|].
  apply (H3 1%nat [8; 9]). by rewrite E1.
Defined.

(** ** Processes and containers *)

Lemma forall_bss (P : proc → Prop) (ps : list (nat * proc)) n :
  P proc0 → Forall (λ ip, P ip.2) ps →
  ∀ p, p ∈ foldr (λ ip l, <[ip.1 := ip.2]> l) (replicate n proc0) ps → P p.
Proof.
  intros H0 Hps. apply list.Forall_forall. induction Hps as [|[i q] ps Hq _ IH]; simpl.
  - by apply Forall_replicate.
  - by apply Forall_insert.
Qed.

(** init (pid 1, entry 0), its child (pid 2), which runs, and the child's children:
    a zombie (pid 3) and a process that sleeps on a mutex (pid 4). *)
Definition family_procs : list (nat * proc) :=
  [(0%nat, live 1 <| p_state := SLEEPING |> <| p_chan := Some (ChProc 0) |>);
   (1%nat, live 2 <| p_state := RUNNING |> <| p_parent := Some 0%nat |>);
   (2%nat, live 3 <| p_state := ZOMBIE |> <| p_parent := Some 1%nat |>);
   (3%nat, live 4 <| p_state := SLEEPING |> <| p_chan := Some (ChMutex 0) |>
             <| p_parent := Some 1%nat |> <| p_mutex ::= <[O := Some O]> |>)].
Definition family : kst :=
  bss [] <| k_ptable ::= λ l, foldr (λ ip l, <[ip.1 := ip.2]> l) l family_procs |>
         <| k_cur := Some 1%nat |> <| k_initproc := Some 0%nat |> <| k_nextpid := 5 |>.

Lemma mutexes_ok_bound p s :
  length (p_mutex p) = MUX_MAXNUM →
  Forall (λ o, match o with Some m => (m < length (k_mtable s))%nat | None => True end) (p_mutex p) →
  mutexes_ok p s.
Proof. intros Hl HF. split; [done|]. intros k m Hk. by apply (Forall_lookup_1 _ _ _ _ HF Hk). Qed.

Lemma kill_contained_witness :
  ∃ p mt, k_ptable family !! 3%nat = Some p ∧ p_pid p = 4 ∧
    kill 4 family = Ok 0 (family <| k_ptable ::= <[3%nat := killed p]> |> <| k_mtable := mt |>).
Proof.
  assert (∀ p, p ∈ k_ptable family → mutexes_ok p family) as Hok.
  { apply (forall_bss (λ p, mutexes_ok p family)).
    - by apply mutexes_ok_bound; [|repeat constructor].
    - repeat (apply Forall_cons_2; [by apply mutexes_ok_bound; [|repeat constructor]|]). constructor. }
  pose proof (kill_contained 4 1 _ family eq_refl eq_refl eq_refl Hok) as H.
  destruct (find_index _ _) as [i|] eqn:E in H; vm_compute in E; [|done]. injection E as <-.
  destruct H as (p & mt & Hp & Hpid & _ & _ & _ & Hk). by exists p, mt.
Defined.

Lemma exit_zombie_reparents_witness :
  ∃ tbl k, exit_zombie 1 family = Switch (family <| k_ptable := tbl |> <| k_held := [Lptable] |>) k ∧
    (∃ y, tbl !! 3%nat = Some y ∧ p_parent y = Some 0%nat) ∧
    (∃ y, tbl !! 0%nat = Some y ∧ p_state y ≠ SLEEPING).
Proof.
  edestruct (exit_zombie_reparents 1) with (ini := 0%nat) (s := family)
    as (tbl & k & Hr & _ & _ & Hj); [done..|].
  exists tbl, k. split; [done|]. split.
  - destruct (Hj 3%nat _ ltac:(done) eq_refl) as (y & Hy & Hpar & _). by exists y.
  - destruct (Hj 0%nat _ ltac:(done) eq_refl) as (y & Hy & _ & _ & Hw & _). exists y. split; [done|]. by apply Hw.
Defined.

Lemma wait_without_zombie_witness :
  ∃ k p, wait (family <| k_cur := Some 0%nat |>) =
    Switch (family <| k_cur := Some 0%nat |> <| k_ptable ::= <[0%nat := asleep (ChProc 0) p]> |>
      <| k_held := [Lptable] |>) k.
Proof.
  edestruct (wait_without_zombie 0) with (s := family <| k_cur := Some 0%nat |>) as [_ Hs];
    [apply Nat.lt_0_succ|reflexivity..| |].
  - apply (forall_bss (λ x, p_parent x = Some 0%nat → p_state x ≠ ZOMBIE)); [done|by repeat constructor].
  - destruct Hs as [k Hk]; [|by eauto].
    eexists. split; [by eapply (list_elem_of_lookup_2 _ 1)|done].
Defined.

Lemma family_rest i : k_ptable family !! (4 + i)%nat = drop 4 (replicate NPROC proc0) !! i.
Proof. reflexivity. Qed.

Lemma family_pid i p : k_ptable family !! i = Some p → p_state p ≠ UNUSED → (i < 4)%nat ∧ p_pid p = Z.of_nat i + 1.
Proof.
  intros Hp Hu. do 4 (destruct i as [|i]; [by injection Hp as <-; split; [lia|]|]). exfalso. apply Hu.
  change (S (S (S (S i)))) with (4 + i)%nat in Hp. rewrite family_rest, lookup_drop in Hp.
  by apply lookup_replicate in Hp as [-> _].
Qed.

Lemma family_pids : pids_ok family.
Proof.
  split.
  - intros i j p q Hp Hq Hpu Hqu E. apply family_pid in Hp as [_ Hp], Hq as [_ Hq]; [|done..]. lia.
  - intros i p Hp Hpu. apply family_pid in Hp as [? ->]; [|done]. change (k_nextpid family) with 5. lia.
Qed.

Lemma allocproc_fresh_pid_witness :
  ∃ r s', allocproc 0 (family <| k_pm := four_free |>) = Ok r s' ∧ pids_ok s'.
Proof.
  destruct (allocproc_fresh_pid 0 free_list (family <| k_pm := four_free |>)) as (r & s' & Hr & Hp & _).
  - reflexivity.
  - unfold NBIN. lia.
  - split; [reflexivity|]. intros b l Hb. apply lookup_replicate in Hb as [-> _]. by intros [??].
  - apply pids_ok_pm, family_pids.
  - split; reflexivity.
  - apply four_free_aspace.
  - exists r, s'. exact (conj Hr Hp).
Defined.

(** The running process of [family] in a container that allows [n] more processes. *)
Definition in_container (n : Z) : kst :=
  family <| k_ptable ::= <[1%nat := live 2 <| p_state := RUNNING |> <| p_container_id := 7 |>
                                      <| p_container := Some 0%nat |>]> |>
         <| k_containers ::= <[0%nat := container0 <| c_container_id := 7 |> <| c_nproc := n |>]> |>.

Lemma fork_at_limit_witness : fork (in_container 0) = Ok (-1) (in_container 0).
Proof. by eapply (fork_at_limit 1). Defined.

(** All entries of the process table are in use. *)
Definition table_full : kst :=
  in_container 3 <| k_ptable ::= fmap (λ p, p <| p_state := RUNNABLE |>) |>.

Lemma fork_failure_spends_witness :
  ∃ c, fork table_full = Ok (-1) (spent 0 c table_full).
Proof.
  eexists. eapply (fork_failure_spends 1 _ 0); [reflexivity..|done|reflexivity|reflexivity|done|].
  intros q (x & -> & _)%list_elem_of_fmap. done.
Defined.

Lemma cm_maxproc_once_witness :
  ∃ c s', cm_maxproc 5 (in_container UINT_MAX) = Ok 1 s' ∧
    k_containers s' = <[0%nat := c <| c_nproc := 5 |>]> (k_containers (in_container UINT_MAX)) ∧
    cm_maxproc 9 s' = Ok (-1) s'.
Proof. eexists. by eapply (cm_maxproc_once 5 9 1). Defined.

(** The process with pid 2 lowers the priority of its child with pid 3. *)
Definition queued : kst :=
  four_procs <| k_cur := Some 1%nat |>
    <| k_ptable ::= λ l, <[2%nat := live 3 <| p_parent := Some 1%nat |>]> l |>
    <| k_pqueue ::= <[0%nat := Plist (Some 2%nat) (Some 2%nat) 1]> |>.

Lemma queued_next i : next_of (k_ptable queued) i = None.
Proof.
  unfold next_of. destruct (k_ptable queued !! i) as [p|] eqn:E; simpl; [|done].
  apply list_elem_of_lookup_2 in E. revert p E. apply list.Forall_forall. by repeat constructor.
Qed.

Lemma prio_set_safe_witness :
  match prio_set 3 5 queued with
  | Ok r s' =>
      r = -1 ∧ s' = queued ∨
      r = 0 ∧ (p_pid (live 2 <| p_parent := Some 0%nat |>) = 3 ∨ ancestor queued 1 2) ∧ acyclic (k_ptable s') ∧
      ∀ j x y, k_ptable queued !! j = Some x → k_ptable s' !! j = Some y →
        p_priority x ≤ p_priority y ∧ (j ≠ 2%nat → p_priority y = p_priority x) ∧
        (j = 2%nat → p_priority y = 5)
  | UB msg => msg = "proc"
  | _ => False
  end.
Proof.
  eapply (prio_set_safe 3 5 1 2 (live 2 <| p_parent := Some 0%nat |>)); [reflexivity|reflexivity|reflexivity|reflexivity|reflexivity
    | |unfold NBIN; lia|reflexivity|..].
  - intros j (y & Hy & Hpid). do 4 (destruct j as [|j]; [by injection Hy as <-|]).
    change (drop 4 (replicate NPROC proc0) !! j = Some y) in Hy. rewrite lookup_drop in Hy.
    by apply lookup_replicate in Hy as [-> _].
  - split; [done|]. intros [|b] l Hb; [injection Hb as <-; intros _; exists 2%nat; split; [done|simpl; unfold NPROC; lia]|].
    change (drop 1 (replicate NBIN (Plist None None 0)) !! b = Some l) in Hb. rewrite lookup_drop in Hb.
    apply lookup_replicate in Hb as [-> _]. by intros [??].
  - exists (λ _, 0%nat). intros p q. by rewrite queued_next.
  - intros b h [k Hk]%list_elem_of_lookup_1 Hh. destruct k as [|k].
    + injection Hk as <-. injection Hh as <-. simpl. unfold NPROC. lia.
    + change (drop 1 (replicate NBIN (Plist None None 0)) !! k = Some b) in Hk. rewrite lookup_drop in Hk.
      by apply lookup_replicate in Hk as [-> _].
  - intros _. exists 2%nat. split; [|unfold NPROC; lia].
    eapply below_up; [reflexivity|reflexivity|]. by eapply below_child.
Defined.

(** ** The file system and system calls *)

Lemma container_path_start_witness :
  ∃ x y, namex_start [SLASH; 97] contained = Ok (0%nat, [SLASH; 97]) (ref_up 0 x contained) ∧
    namex_start [DOT; DOT] contained = Ok (0%nat, [DOT]) (ref_up 0 y contained).
Proof.
  eexists _, _. split.
  - eapply (container_path_start [SLASH; 97] 0); [by apply not_elem_of_nil|done..].
  - eapply (container_path_start [DOT; DOT] 0); [by apply not_elem_of_nil|done..].
Defined.

Lemma skipelem_elems_witness :
  ∃ rest name', skipelem [47; 97; 47; 47; 98; 98] (zeros 14) = Some (rest, name') ∧
    holds_elem name' [97] ∧ path_elems rest = [[98; 98]].
Proof.
  destruct (skipelem_elems [47; 97; 47; 47; 98; 98] (zeros 14)) as (rest & name' & Hs & Hn & He & _);
    [by apply (bool_decide_unpack _)|done|]. by exists rest, name'.
Defined.

Lemma dinode_roundtrip_witness :
  let x := Dinode 2 0 0 1 700 (33 :: zeros 12) in
  parse_dinode (dinode_off 5) (list_inserts (dinode_off 5) (enc_dinode x) (zeros 1024)) = x.
Proof.
  intros x. apply (dinode_roundtrip (zeros 1024) x 5 6); [done| |done..].
  split; try (by split); by repeat constructor.
Defined.

Lemma bitmap_alloc_free_witness :
  ∃ bi, first_clear [255; 3] 0 16 = Some (Some bi) ∧ bi = 10%nat.
Proof.
  destruct (bitmap_alloc_free [255; 3] 16) as (r & Hr & _); [simpl; lia|].
  rewrite Hr. vm_compute in Hr. injection Hr as <-. by eexists.
Defined.

Lemma begin_op_reserves_witness :
  ∃ lg', begin_op one_running = Ok tt (one_running <| k_log := lg' |>) ∧ lg_outstanding lg' = 1.
Proof.
  edestruct (begin_op_reserves 0) with (s := one_running) as (lg' & Hr & Ho & _);
    [apply Nat.lt_0_succ|reflexivity..|done|done|]. by exists lg'.
Defined.

(** A disk of 64 blocks with the log at block 2, and the system restarted on it. *)
Definition small_disk : list (list Z) :=
  <[1%nat := wr32 12 30 (wr32 16 2 (zeros 1024))]> (replicate 64 (zeros 1024)).
Definition restarted (bufs : list buf) : kst :=
  one_running <| k_bufs := bufs |> <| k_disk := small_disk |> <| k_log := Log 2 30 0 false 1 0 (zeros 30) |>.

Lemma fresh_bufs_exist : ∃ bufs, fresh_bufs bufs.
Proof.
  destruct (binit_run (bss [])) as (bufs & Hr & _); [done|]. exists bufs, (bss []), (bss [] <| k_bufs := bufs |>).
  split_and!; [reflexivity|exact Hr|reflexivity].
Qed.

Lemma restarted_txn bufs : fresh_bufs bufs → txn (restarted bufs) 2 [].
Proof.
  intros Hb. apply (rebooted_txn _ small_disk); [|by split_and!|done| |].
  - split; [reflexivity|exact Hb|reflexivity|eexists _, _; split; reflexivity|reflexivity].
  - split; [done|done|constructor|constructor].
  - exists (zeros 1024). by split_and!.
Qed.

Lemma transaction_atomic_witness :
  ∃ bufs ws s', transaction [(40, λ _, replicate 1024 7); (41, λ d, d)] (restarted bufs) = Ok tt s' ∧
    homes 2 (k_disk s') (updated [(40, λ _, replicate 1024 7); (41, λ d, d)] (vw (restarted bufs))) ∧
    k_dlog s' = rev ws.
Proof.
  destruct fresh_bufs_exist as [bufs Hb]. exists bufs.
  destruct (transaction_atomic [(40, λ _, replicate 1024 7); (41, λ d, d)] (restarted bufs) 2
    (wr32 12 30 (wr32 16 2 (zeros 1024)))) as (ws & s' & Hr & _ & _ & Hdl & Hh & _).
  - apply Nat.lt_0_succ.
  - by apply restarted_txn.
  - reflexivity.
  - reflexivity.
  - by repeat constructor.
  - done.
  - reflexivity.
  - vm_compute. reflexivity.
  - done.
  - by apply (bool_decide_unpack _).
  - exists ws, s'. change (k_dlog (restarted bufs)) with (@nil (nat * list Z)) in Hdl. rewrite app_nil_r in Hdl.
    exact (conj Hr (conj Hh Hdl)).
Defined.

(** A process of one page whose stack pointer is 0: its first argument is 16, the
    address of the string "hi". *)
Definition user_mem : mem :=
  st8 (st8 (st32 (st32 (st32 (λ _, 0) PD (V2P (page 1) + 7)) (page 1) (V2P (page 2) + 7)) (page 2 + 4) 16)
    (page 2 + 16) 104) (page 2 + 17) 105.
Definition calling : kst :=
  one_running <| k_pm := Pm user_mem false false 0 |>
    <| k_ptable ::= <[0%nat := live 1 <| p_state := RUNNING |> <| p_sz := 4096 |> <| p_pgdir := PD |>]> |>.

(** The value a computation returns. *)
Definition value {S A} (o : outcome S A) : option A := match o with Ok a _ => Some a | _ => None end.

Lemma value_Some {S A} (o : outcome S A) a : value o = Some a → ∃ s, o = Ok a s.
Proof. destruct o; simpl; intros [= <-]. by eexists. Qed.

Definition caller : proc := live 1 <| p_state := RUNNING |> <| p_sz := 4096 |> <| p_pgdir := PD |>.

Lemma argptr_in_bounds_witness :
  ∃ s', argptr 0 8 calling = Ok (Some 16) s' ∧ (0 ≤ 8 ∧ 0 ≤ 16 < 4096 ∧ 16 + 8 ≤ 4096).
Proof.
  destruct (value_Some (argptr 0 8 calling) (Some 16)) as [s' Hs]; [vm_compute; reflexivity|].
  exists s'. split; [exact Hs|].
  apply (argptr_in_bounds 0 8 16 0 caller calling s'); [reflexivity|reflexivity|done|done|exact Hs].
Defined.

Lemma fetchstr_in_bounds_witness :
  ∃ s', fetchstr 16 calling = Ok (Some [104; 105]) s' ∧ (16 + Z.of_nat 2 < 4096 ∧ 0 ∉ [104; 105]).
Proof.
  destruct (value_Some (fetchstr 16 calling) (Some [104; 105])) as [s' Hs]; [vm_compute; reflexivity|].
  exists s'. split; [exact Hs|].
  apply (fetchstr_in_bounds 16 [104; 105] 0 caller calling s'); [reflexivity|reflexivity|exact Hs].
Defined.

Lemma syscall_unknown_witness :
  ∃ p, syscall 0 one_running =
    Ok tt (one_running <| k_ptable ::= <[0%nat := p <| p_tf ::= λ t, t <| tf_eax := 0xFFFFFFFF |> |>]> |>).
Proof. eexists. eapply (syscall_unknown 0 0); [reflexivity..|]. by intros [??]. Defined.

Lemma trap_timer_preempts_witness :
  ∃ p k, trap (ret tt) (ret tt) 0 (tf0 <| tf_trapno := 32 |>) one_running =
    Switch (woken ChTicks one_running <| k_ticks ::= λ t, u32 (t + 1) |>
            <| k_ptable ::= <[0%nat := p <| p_state := RUNNABLE |>]> |> <| k_held := [Lptable] |>) k.
Proof. eexists. by eapply (trap_timer_preempts (ret tt) (ret tt) 0 (tf0 <| tf_trapno := 32 |>) 0). Defined.

(** ** The console *)

Definition console0 : console := Console (zeros 128) 0 0 0 (zeros 2000) 0 [] 0.

Lemma console0_screen : screen_ok console0.
Proof. by split. Qed.

Lemma console0_line : line_ok console0 [] [].
Proof. split; [|split; [by apply Forall_nil_2|done]]. split; simpl; try done. lia. Qed.

(** A running process that holds the lock of inode 0. *)
Definition console_reader : kst :=
  bss [] <| k_icache ::= <[0%nat := inode0 <| i_ref := 1 |> <| i_valid := true |> <| i_lock := Slock true 1 |>]> |>
    <| k_ptable ::= <[0%nat := live 1 <| p_state := RUNNING |>]> |> <| k_cur := Some 0%nat |>.

Lemma console_reader_ok : reader 0 0 console_reader.
Proof. do 2 eexists. split_and!; try reflexivity. Qed.

Lemma cgaputc_screen_witness :
  ∃ s', cgaputc 65 (bss []) = Ok tt s' ∧ screen_ok (k_cons s') ∧ typed 65 console0 (k_cons s').
Proof. apply (cgaputc_screen 65 (bss [])). apply console0_screen. Defined.

(** The keys a, backspace, b and Enter; the bytes of the same keys on a serial line. *)
Lemma console_edits_witness :
  (∃ cn', kbdintr [0x1E; 0x0E; 0x30; 0x1C] (with_cons console0 (bss [])) = Ok tt (rouse true (with_cons cn' (bss []))) ∧
     line_ok cn' [98; 10] [] ∧ screen_ok cn' ∧ cn_shift cn' = 0) ∧
  (∃ cn', uartintr [0x1E; 0x0E; 0x30; 0x1C] (with_cons console0 (bss [])) = Ok tt (rouse false (with_cons cn' (bss []))) ∧
     line_ok cn' [] [0x1E; 0x0E; 0x30; 0x1C] ∧ screen_ok cn' ∧ cn_shift cn' = 0).
Proof.
  apply (console_edits [0x1E; 0x0E; 0x30; 0x1C] console0 [] [] (bss []));
    [by repeat constructor|done|apply console0_line|apply console0_screen|by apply not_elem_of_nil..].
Defined.

Lemma console_roundtrip_witness :
  ∃ cn1 cn2, uartintr [104; 105; 13] (with_cons console0 console_reader) = Ok tt (woken ChInput (with_cons cn1 console_reader)) ∧
    consoleread 0 80 (woken ChInput (with_cons cn1 console_reader)) =
      Ok (3, [104; 105; 10]) (woken (ChInode 0) (woken ChInput (with_cons cn2 console_reader))) ∧
    line_ok cn2 [] [] ∧ screen_ok cn2.
Proof.
  apply (console_roundtrip 0 0 80 [104; 105] console0 console_reader);
    [unfold wakeups, two_rounds; lia|apply console_reader_ok|apply console0_line|apply console0_screen|done|by repeat constructor|simpl; lia|simpl; lia].
Defined.

(** "cpu%d: %x %s" with 1, 255 and "up". *)
Lemma cprintf_prints_witness : let ps := [Text [99; 112; 117]; Dec 1; Text [58; 32]; Hex 255; Text [32]; Str (Some [117; 112])] in
  ∃ os cn', Forall2 krendered ps os ∧
    cprintf true [99; 112; 117; 37; 100; 58; 32; 37; 120; 32; 37; 115] [AInt 1; AInt 255; AStr (Some [117; 112])] (bss []) = Ok tt (with_cons cn' (bss [])) ∧
    screen_ok cn' ∧ same_input console0 cn' ∧ cn_uart cn' = rev (concat os) ++ cn_uart console0 ∧
    screen_of cn' = shows (concat os) (screen_of console0).
Proof.
  intros ps. apply (cprintf_prints true ps (bss [])).
  - repeat apply list.Forall_cons_2; try by apply list.Forall_nil. all: split; cbn [piece_ok]; try done; set_solver.
  - by repeat constructor.
  - by repeat constructor.
  - apply console0_screen.
  - by apply not_elem_of_nil.
Defined.
