(* ===== verification/UserExamples.v ===== *)
(** * The theorems on the user programs at concrete inputs *)
From S2P Require Import Prelude Mem CString Ulib Umalloc UmallocThm Grep Sh ShThm ShParse ShRun Jsmn JsmnThm JsmnJson Dockv6 Dockv6Thm.

(** ** printf and atoi *)

Lemma printint_atoi_witness :
  ∃ ds, printint 2048 10 true = Some ds ∧ atoi (ds ++ [0]) = Some 2048 ∧ (length ds ≤ 10)%nat ∧ (2048 ≠ 0 → head ds ≠ Some 48).
Proof. apply (printint_atoi 2048 [0]); [lia|intros c [= <-]; lia|done]. Defined.

(** ** The allocator: a program of one page with [base] at 100 *)

Lemma malloc_grants_witness :
  ∃ r s', malloc 100 (λ _ _, true) 10 24 (Uheap (λ _, 0) 0 4096) = Ok r s' ∧ kept (Uheap (λ _, 0) 0 4096) s' ∅ ∧
    (r = 0 ∧ heap_ok 100 s' [] ∅ ∧ (∀ b : block, b ∈ [] → b.2 < units 24) ∨
     ∃ p n fl', r = p + 8 ∧ 24 ≤ 8 * (n - 1) ∧ (∅ : gmap Z Z) !! p = None ∧ heap_ok 100 s' fl' (<[p := n]> ∅)).
Proof. apply (malloc_grants 100 (λ _ _, true) 10 (Uheap (λ _, 0) 0 4096) [] ∅ 24); [by right|lia|simpl; lia]. Defined.

(** One block of two units at 200 handed out, nothing free. *)
Definition one_live : uheap := Uheap (st32 (st32 (λ _, 0) 100 100) 204 2) 100 4096.

Lemma one_live_ok : heap_ok 100 one_live [] {[200 := 2]}.
Proof.
  split; simpl; try done; try (intros; set_solver).
  - intros a n [<- <-]%lookup_singleton_Some. by split_and!.
  - intros a n a' n' [<- <-]%lookup_singleton_Some [<- <-]%lookup_singleton_Some. done.
Qed.

Lemma free_coalesces_witness :
  ∃ s' fl', free 10 208 one_live = Ok tt s' ∧ heap_ok 100 s' fl' (delete 200 {[200 := 2]}) ∧
    kept one_live s' (delete 200 {[200 := 2]}) ∧ ∀ x, covered fl' x ↔ covered [] x ∨ inside (200, 2) x.
Proof. apply (free_coalesces 100 10 one_live [] {[200 := 2]} 200 2); [apply one_live_ok|done|simpl; lia]. Defined.

(** ** The shell: [ echo hi|wc>f;(x)&], with as little white space as possible after the
    first character *)

Definition w_echo : list Z := [101; 99; 104; 111].
Definition w_wc : list Z := [119; 99].
Definition a_line : sline :=
  SSeq (SPipe (SSimple [] [(w_echo, []); ([104; 105], [])]) (SExec (SSimple [] [(w_wc, [(ROut, [102])])]))) 0
    (SLast (SExec (SBlock (SLast (SExec (SSimple [] [([120], [])])) 0) [])) 1).
Definition a_text : list (token * list Z) := 
  (λ t, (t, match t with TWord w => if bool_decide (w = w_echo) then [32] else [] | _ => [] end)) <$> ltokens a_line.

Lemma a_text_ok : spaced_ok a_text.
Proof.
  assert (∀ w, w ≠ [] → bool_decide (Forall (λ c, wordc c = true) w) = true → token_ok (TWord w)) as Hw.
  { intros w Hn H. split; [done|]. by apply bool_decide_eq_true in H. }
  assert (∀ c, bool_decide (c ∈ symbols) = true → token_ok (TSym c)) as Hs by (intros c H; by apply bool_decide_eq_true in H).
  let t := eval vm_compute in a_text in change (spaced_ok t). cbn [spaced_ok].
  split_and!; first [by apply Hw|by apply Hs|by repeat constructor|done].
Qed.

Lemma parsecmd_reads_witness :
  ∃ c b s, parsecmd (cz ([32] ++ render a_text)) 0%nat = Ok (c, b) s ∧ resolve b c = Some (lmeaning a_line).
Proof.
  apply (parsecmd_reads a_line [32] a_text 0); [unfold a_line; simpl; unfold MAXARGS; lia|reflexivity|by repeat constructor|apply a_text_ok].
Defined.

Lemma parsecmd_words_witness :
  parses (parsecmd (cz (render a_text))) 0%nat (λ r _, let '(c, b) := r in
    ∀ w, w ∈ words c → (w.1 < w.2 ≤ length (render a_text))%nat ∧
      Forall (λ x, wordc x = true) (piece_of (render a_text) w) ∧ cstr (drop w.1 b) = Some (piece_of (render a_text) w)).
Proof. apply (parsecmd_words (cz (render a_text)) (render a_text) 0). vm_compute. reflexivity. Defined.


(** ** The JSON tokenizer: an object with an array, escapes in a string, a space and a
    line feed *)

Definition a_json : json := JObj [(Key [10] [102; 115] [], JSpace [32] (JArr [JPrim [49]; JStr [97; 92; 34; 92; 117; 48; 48; 52; 65; 98]] [32]) [])] [].
Definition no_tok : jsmntok := Tok JSMN_UNDEFINED 0 0 0.

Lemma a_json_ok : json_ok a_json.
Proof.
  assert (∀ l, bool_decide (Forall str_char l) = true → str_body l) as Hp by (intros l Hl; by apply str_body_plain, (bool_decide_unpack _); rewrite Hl).
  assert (str_body [97; 92; 34; 92; 117; 48; 48; 52; 65; 98]) as He.
  { apply body_char; [done|]. apply body_escape; [set_solver|]. apply (body_unicode [48; 48; 52; 65]); [done|by repeat constructor|by apply Hp]. }
  unfold a_json. cbn [json_ok foldr fst snd]. unfold key_ok. cbn [k_before k_name k_after]. split_and!; try done; try (by refine (bool_decide_unpack _ _); vm_compute); by apply Hp.
Qed.

Lemma jsmn_parse_json_witness :
  ∃ u, jsmn_parse (show a_json ++ [0; 7]) (length (show a_json)) 16 (jsmn_init (Some (replicate 16 no_tok))) =
    Ok 5 (Jsmn (length (show a_json)) 5 u (Some (toks 0 a_json ++ drop 5 (replicate 16 no_tok)))).
Proof. apply (jsmn_parse_json a_json [0; 7] 16 (replicate 16 no_tok)); [apply a_json_ok|simpl; lia]. Defined.

Lemma jsmn_parse_safe_witness :
  ∃ r s' ts', jsmn_parse [91; 49; 93] 3 2 (jsmn_init (Some (replicate 2 no_tok))) = Ok r s' ∧ j_toks s' = Some ts' ∧
    (-3 ≤ r < 0 ∨
     r = Z.of_nat (j_toknext s') ∧ (j_toknext s' ≤ 2)%nat ∧
     ∀ i t, (i < j_toknext s')%nat → ts' !! i = Some t → 0 ≤ t_start t ≤ t_end t ∧ t_end t ≤ Z.of_nat 3).
Proof. apply (jsmn_parse_safe [91; 49; 93] 3 2 (replicate 2 no_tok)); simpl; lia. Defined.

(** ** The specification container_config.json *)

Definition tab : list Z := [13; 10] ++ replicate 8 32.
Definition sh_path : list Z := [47; 115; 104].
Definition container_path : list Z := [47; 99; 111; 110; 116; 97; 105; 110; 101; 114; 47].
Definition the_members : list (jkey * json) :=
  [(Key tab INIT [], JSpace [32] (JStr sh_path) []);
   (Key tab FS [], JSpace [32] (JStr container_path) []);
   (Key tab NPROC_KEY [], JSpace [32] (JPrim [49; 48]) [13; 10])].

Lemma the_members_ok : Forall member_ok the_members.
Proof.
  unfold the_members. repeat apply list.Forall_cons_2; [..|by constructor].
  all: split_and!; [split_and!; [|apply str_body_plain|]; refine (bool_decide_unpack _ _); by vm_compute| |eexists; split; [reflexivity|left; refine (bool_decide_unpack _ _); by vm_compute]].
  all: cbn [snd json_ok]; split_and!; try apply str_body_plain; try (refine (bool_decide_unpack _ _); by vm_compute).
Qed.

