(* ===== verification/Mkfs.v ===== *)
(** * The program that makes the disk image (mkfs.c)

    The image is a list of blocks.  A struct in a buffer is its fields: xint and xshort put
    the bytes in the order of the disk when they are stored and take them out of it when
    they are loaded, which is what [enc_dinode] and [parse_dinode] do.  The calls of the
    host system succeed, except that a read past the end of the image ends the program, as
    a failed assertion does.  A file argument is its name and what the calls of read
    return. *)
From S2P Require Import Prelude CString KState Sched Bytes Log Fs.

Definition NINODES : Z := 200.
Definition nbitmap : Z := FSSIZE `div` (BSIZE * 8) + 1.
Definition ninodeblocks : Z := NINODES `div` IPB + 1.
Definition nlog : Z := LOGSIZE.
Definition nmeta : Z := 2 + nlog + ninodeblocks + nbitmap.
Definition mk_sb : superblock :=
  Sb FSSIZE (FSSIZE - nmeta) NINODES nlog 2 (2 + nlog) (2 + nlog + ninodeblocks).

Record mkst := Mk { m_img : list (list Z); m_freeinode : Z; m_freeblock : Z }.
Definition eta_mkst (r : mkst) : mkst := Mk (m_img r) (m_freeinode r) (m_freeblock r).
#[global] Instance upd_m_img : Upd m_img := ltac:(mk_upd eta_mkst m_img).
#[global] Instance upd_m_freeinode : Upd m_freeinode := ltac:(mk_upd eta_mkst m_freeinode).
#[global] Instance upd_m_freeblock : Upd m_freeblock := ltac:(mk_upd eta_mkst m_freeblock).

Abbreviation F := (M mkst).

Definition zeroes : list Z := replicate (Z.to_nat BSIZE) 0.

Definition rsect (sec : Z) : F (list Z) :=
  s <- get;
  match m_img s !! Z.to_nat sec with Some b => ret b | None => panic "read" end.

(** Writing past the end extends the image. *)
Definition wsect (sec : Z) (buf : list Z) : F unit :=
  modify (λ s, s <| m_img ::= λ img,
    <[Z.to_nat sec := buf]> (img ++ replicate (S (Z.to_nat sec) - length img) zeroes) |>).

Definition rinode (inum : Z) : F dinode :=
  b <- rsect (IBLOCK inum mk_sb);
  ret (parse_dinode (dinode_off inum) b).

Definition winode (inum : Z) (ip : dinode) : F unit :=
  let bn := IBLOCK inum mk_sb in
  b <- rsect bn;
  wsect bn (list_inserts (dinode_off inum) (enc_dinode ip) b).

Definition mk_ialloc (type : Z) : F Z :=
  s <- get;
  let inum := m_freeinode s in
  modify (λ s, s <| m_freeinode := u32 (inum + 1) |>);;
  winode inum (Dinode type 0 0 1 0 (replicate (S NDIRECT) 0));;
  ret inum.

(** [freeblock++] *)
Definition mk_take_block : F Z :=
  s <- get;
  modify (λ s, s <| m_freeblock := u32 (m_freeblock s + 1) |>);;
  ret (m_freeblock s).

Definition mk_balloc (used : Z) : F unit :=
  let used := s32 used in
  if negb (used <? BSIZE * 8) then panic "assert" else
  let buf := foldl (λ b i, alter (λ v, u8 (Z.lor v (Z.shiftl 1 (Z.of_nat i `mod` 8)))) (i / 8)%nat b)
    zeroes (seq 0 (Z.to_nat used)) in
  wsect (sb_bmapstart mk_sb) buf.

Definition mk_set_addr (din : dinode) (k : nat) (x : Z) : dinode :=
  Dinode (d_type din) (d_major din) (d_minor din) (d_nlink din) (d_size din) (<[k := x]> (d_addrs din)).

(** [if (din.addrs[k] == 0) din.addrs[k] = freeblock++]: the inode and [din.addrs[k]]. *)
Definition mk_slot (din : dinode) (k : nat) : F (dinode * Z) :=
  a <- deref "din.addrs" (d_addrs din !! k);
  if a =? 0 then x <- mk_take_block; ret (mk_set_addr din k x, x) else ret (din, a).

(** The address of file block [fbn], allocating: the inode and the address. *)
Definition mk_bmap (din : dinode) (fbn : Z) : F (dinode * Z) :=
  if fbn <? Z.of_nat NDIRECT then mk_slot din (Z.to_nat fbn) else
  r <- mk_slot din NDIRECT;
  let '(din, a) := r in
  indirect <- rsect a;
  let o := Z.to_nat (4 * (fbn - Z.of_nat NDIRECT)) in
  if rd32 o indirect =? 0 then
    x <- mk_take_block;
    wsect a (wr32 o x indirect);;
    ret (din, x)
  else ret (din, rd32 o indirect).

(** The loop of iappend: the inode and the offset at the end. *)
Fixpoint iappend_loop (k : nat) (din : dinode) (off : Z) (p : list Z) : F (dinode * Z) :=
  match k with
  | O => λ _, Fuel
  | S k =>
      match p with
      | [] => ret (din, off)
      | _ =>
          let fbn := off `div` BSIZE in
          if negb (fbn <? MAXFILE) then panic "assert" else
          r <- mk_bmap din fbn;
          let '(din, x) := r in
          let n1 := Z.min (Z.of_nat (length p)) ((fbn + 1) * BSIZE - off) in
          buf <- rsect x;
          wsect x (list_inserts (Z.to_nat (off - fbn * BSIZE)) (take (Z.to_nat n1) p) buf);;
          iappend_loop k din (u32 (off + n1)) (drop (Z.to_nat n1) p)
      end
  end.

Definition set_size (din : dinode) (sz : Z) : dinode :=
  Dinode (d_type din) (d_major din) (d_minor din) (d_nlink din) sz (d_addrs din).

Definition iappend (inum : Z) (p : list Z) : F unit :=
  din <- rinode inum;
  r <- iappend_loop (S (length p)) din (d_size din) p;
  let '(din, off) := r in
  winode inum (set_size din off).

(** One file argument. *)
Definition mk_file (rootino : Z) (f : list Z * list (list Z)) : F unit :=
  let '(name, reads) := f in
  if bool_decide (SLASH ∈ name) then panic "assert" else
  let name := match name with 95 :: n => n | _ => name end in
  inum <- mk_ialloc T_FILE;
  nm <- deref "de.name" (strncpy (replicate DIRSIZ 0) (cz name) DIRSIZ);
  iappend rootino (enc_dirent inum nm);;
  forM reads (iappend inum).

(** [buf] with the superblock. *)
Definition sb_block : list Z :=
  list_inserts 0 (concat (le_enc 4 <$> [sb_size mk_sb; sb_nblocks mk_sb; sb_ninodes mk_sb; sb_nlog mk_sb;
    sb_logstart mk_sb; sb_inodestart mk_sb; sb_bmapstart mk_sb])) zeroes.

Definition mkfs_main (files : list (list Z * list (list Z))) : F unit :=
  modify (λ s, s <| m_freeblock := nmeta |>);;
  forM (seq 0 (Z.to_nat FSSIZE)) (λ i, wsect (Z.of_nat i) zeroes);;
  wsect 1 sb_block;;
  rootino <- mk_ialloc T_DIR;
  if negb (rootino =? ROOTINO) then panic "assert" else
  iappend rootino (enc_dirent rootino (DOT :: replicate 13 0));;
  iappend rootino (enc_dirent rootino (DOT :: DOT :: replicate 12 0));;
  forM files (mk_file rootino);;
  din <- rinode rootino;
  winode rootino (set_size din (u32 ((d_size din `div` BSIZE + 1) * BSIZE)));;
  s <- get;
  mk_balloc (m_freeblock s).

Definition mkfs (files : list (list Z * list (list Z))) : outcome mkst unit := mkfs_main files (Mk [] 1 0).
