(* ===== verification/MkfsThm.v ===== *)
(** * What the image of mkfs.c contains

    iappend extends a file and leaves the others as they are; at the end every file
    argument is a file of the image with its contents, the root directory lists them, and
    the bitmap marks the blocks in use. *)
From S2P Require Import Prelude CString KState Sched Bytes Log Fs FsThm Inode FileThm Mkfs.

(** ** Blocks of the image *)

Record disk_ok (s : mkst) : Prop := {
  do_len : length (m_img s) = Z.to_nat FSSIZE;
  do_blk : ∀ a d, on_disk (m_img s) a = Some d → length d = BSZ;
  do_fb : nmeta ≤ m_freeblock s ≤ FSSIZE;
  do_zero : ∀ a, m_freeblock s ≤ a < FSSIZE → on_disk (m_img s) a = Some zeroes;
}.

Definition put_block (a : Z) (d : list Z) (s : mkst) : mkst := s <| m_img ::= <[Z.to_nat a := d]> |>.

Lemma rsect_run a d s : on_disk (m_img s) a = Some d → rsect a s = Ok d s.
Proof. unfold on_disk. intros Hd. unfold rsect. step. by rewrite Hd. Qed.

Lemma wsect_run a d s : (Z.to_nat a < length (m_img s))%nat → wsect a d s = Ok tt (put_block a d s).
Proof.
  intros Ha. unfold wsect, put_block, modify. f_equal. destruct s as [img fi fb]. cbn in Ha.
  assert (img ++ replicate (S (Z.to_nat a) - length img) zeroes = img) as E; [|exact (f_equal (λ l, Mk (<[Z.to_nat a := d]> l) fi fb) E)].
  replace (S (Z.to_nat a) - length img)%nat with O by lia. apply app_nil_r.
Qed.

Lemma on_disk_put a b d s : (Z.to_nat a < length (m_img s))%nat → 0 ≤ a → 0 ≤ b →
  on_disk (m_img (put_block a d s)) b = if decide (b = a) then Some d else on_disk (m_img s) b.
Proof.
  intros Hl Ha Hb. unfold on_disk, put_block. cbn. destruct (decide (b = a)) as [->|Hne].
  - by apply list_lookup_insert_eq.
  - apply list_lookup_insert_ne. lia.
Qed.

Lemma put_ok a d s : disk_ok s → 0 ≤ a < m_freeblock s → length d = BSZ → disk_ok (put_block a d s).
Proof.
  intros [Hl Hb Hf Hz] Ha Hd. assert (Z.to_nat a < length (m_img s))%nat by (rewrite Hl; unfold FSSIZE in *; lia).
  split; change (m_freeblock (put_block a d s)) with (m_freeblock s); [cbn; by rewrite length_insert| |done|].
  - intros b e. destruct (decide (0 ≤ b)).
    + rewrite on_disk_put by lia. case_decide; [by intros [= <-]|apply Hb].
    + unfold on_disk. replace (Z.to_nat b) with (Z.to_nat 0) by lia. intros He. change (on_disk (m_img (put_block a d s)) 0 = Some e) in He.
      rewrite on_disk_put in He by lia. case_decide; [by injection He as <-|by apply (Hb 0)].
  - intros b Hb'. rewrite on_disk_put by (unfold nmeta, nlog, LOGSIZE, ninodeblocks, nbitmap in *; lia). rewrite decide_False by lia. by apply Hz.
Qed.

(** Block [k] of a file with contents [data], zeros after the end. *)
Definition chunk (k : nat) (data : list Z) : list Z := (λ i, default 0 (data !! (k * BSZ + i)%nat)) <$> seq 0 BSZ.

Lemma length_chunk k data : length (chunk k data) = BSZ.
Proof. unfold chunk. by rewrite length_fmap, length_seq. Qed.

Lemma lookup_chunk k data i : (i < BSZ)%nat → chunk k data !! i = Some (default 0 (data !! (k * BSZ + i)%nat)).
Proof. intros Hi. unfold chunk. by rewrite list_lookup_fmap, lookup_seq_lt by done. Qed.

Lemma chunk_eq k data l : length l = BSZ → (∀ i, (i < BSZ)%nat → l !! i = Some (default 0 (data !! (k * BSZ + i)%nat))) → l = chunk k data.
Proof.
  intros Hl Hi. apply list_eq. intros i. destruct (decide (i < BSZ)%nat); [by rewrite Hi, lookup_chunk|].
  by rewrite !lookup_ge_None_2 by (rewrite ?length_chunk; lia).
Qed.

Lemma chunk_past k data : (length data ≤ k * BSZ)%nat → chunk k data = zeroes.
Proof.
  intros Hl. symmetry. apply chunk_eq; [apply length_replicate|]. intros i Hi. rewrite (lookup_ge_None_2 data) by lia.
  apply lookup_replicate. split; [done|]. change (Z.to_nat BSIZE) with BSZ. lia.
Qed.

Lemma chunk_other k data c :
  k ≠ (length data / BSZ)%nat → (length data `mod` BSZ + length c ≤ BSZ)%nat → chunk k (data ++ c) = chunk k data.
Proof.
  intros Hk Hc. pose proof (Nat.div_mod_eq (length data) BSZ) as Hdm. symmetry. apply chunk_eq; [apply length_chunk|]. intros i Hi.
  rewrite lookup_chunk by done. do 2 f_equal. destruct (decide (k * BSZ + i < length data)%nat).
  - by rewrite lookup_app_l by done.
  - rewrite !lookup_ge_None_2; [done| |lia]. rewrite length_app.
    assert (length data / BSZ < k)%nat; [|unfold BSZ in *; nia].
    destruct (Nat.lt_trichotomy k (length data / BSZ)%nat) as [?|[?|?]]; [unfold BSZ in *; nia|done|done].
Qed.

Lemma chunk_write data c : (length data `mod` BSZ + length c ≤ BSZ)%nat →
  list_inserts (length data `mod` BSZ) c (chunk (length data / BSZ) data) = chunk (length data / BSZ) (data ++ c).
Proof.
  intros Hc. pose proof (Nat.div_mod_eq (length data) BSZ) as Hdm. apply chunk_eq; [by rewrite length_inserts, length_chunk|].
  intros i Hi. set (r := (length data `mod` BSZ)%nat) in *. set (k := (length data / BSZ)%nat) in *.
  destruct (decide (i < r)%nat); [|destruct (decide (i < r + length c)%nat)].
  - rewrite list_lookup_inserts_lt, lookup_chunk by done. by rewrite lookup_app_l by lia.
  - rewrite list_lookup_inserts by (rewrite ?length_chunk; lia). rewrite lookup_app_r by lia.
    replace (k * BSZ + i - length data)%nat with (i - r)%nat by lia. destruct (lookup_lt_is_Some_2 c (i - r)) as [x Hx]; [lia|]. by rewrite Hx.
  - rewrite list_lookup_inserts_ge, lookup_chunk by lia. rewrite (lookup_ge_None_2 data) by lia.
    rewrite lookup_ge_None_2; [done|]. rewrite length_app. lia.
Qed.

(** ** A file and its blocks *)

(** The [nb] blocks of a file with contents [data], while its inode is in memory;
    [own] gives the file and the place in it of a block in use. *)
Record mdata (s : mkst) (own : Z → Z * nat) (inum : Z) (addrs : list Z) (ind : Z) (blk : nat → Z) (data : list Z)
    (nb : nat) (hi : bool) : Prop := {
  md_len : (length data ≤ nb * BSZ)%nat;
  md_max : (nb ≤ MAXBLK)%nat;
  md_addrs : addrs = (blk <$> seq 0 NDIRECT) ++ [ind];
  md_blk : ∀ k, (k < nb)%nat → nmeta ≤ blk k < m_freeblock s ∧ own (blk k) = (inum, k) ∧ on_disk (m_img s) (blk k) = Some (chunk k data);
  md_none : ∀ k, (nb ≤ k)%nat → blk k = 0;
  md_ind : if hi then nmeta ≤ ind < m_freeblock s ∧ own ind = (inum, MAXBLK) ∧
      ∃ e, on_disk (m_img s) ind = Some e ∧ ∀ j, (j < NINDIRECT)%nat → rd32 (4 * j) e = blk (NDIRECT + j)%nat
    else ind = 0 ∧ (nb ≤ NDIRECT)%nat;
}.

(** What a step on file [inum] does to the rest of the image. *)
Record grew (inum : Z) (s : mkst) (own : Z → Z * nat) (s' : mkst) (own' : Z → Z * nat) : Prop := {
  gr_fb : m_freeblock s ≤ m_freeblock s';
  gr_fi : m_freeinode s' = m_freeinode s;
  gr_own : ∀ a, a < m_freeblock s → own' a = own a;
  gr_meta : ∀ a, 0 ≤ a < nmeta → on_disk (m_img s') a = on_disk (m_img s) a;
  gr_data : ∀ a, nmeta ≤ a < m_freeblock s → (own a).1 ≠ inum → on_disk (m_img s') a = on_disk (m_img s) a;
}.

Lemma grew_refl inum s own : grew inum s own s own.
Proof. by split. Qed.

Lemma grew_trans inum s1 o1 s2 o2 s3 o3 : grew inum s1 o1 s2 o2 → grew inum s2 o2 s3 o3 → grew inum s1 o1 s3 o3.
Proof.
  intros [A1 A2 A3 A4 A5] [B1 B2 B3 B4 B5]. split; [lia|congruence| | |].
  - intros a Ha. rewrite B3 by lia. by apply A3.
  - intros a Ha. rewrite B4 by done. by apply A4.
  - intros a Ha Hn. rewrite B5; [by apply A5|lia|by rewrite A3 by lia].
Qed.

Lemma mdata_ext s own s' own' inum addrs ind blk data nb hi :
  m_freeblock s ≤ m_freeblock s' → (∀ a, a < m_freeblock s → own' a = own a) →
  (∀ a, nmeta ≤ a < m_freeblock s → (own a).1 = inum → on_disk (m_img s') a = on_disk (m_img s) a) →
  mdata s own inum addrs ind blk data nb hi → mdata s' own' inum addrs ind blk data nb hi.
Proof.
  intros Hfb Ho Hd [A1 A2 A3 A4 A5 A6]. split; try done.
  - intros k Hk. destruct (A4 k Hk) as (Hr & Hw & He). rewrite Ho, Hd by (rewrite ?Hw; done || lia). split_and!; [lia|lia|done|done].
  - destruct hi; [|done]. destruct A6 as (Hr & Hw & He). rewrite Ho, Hd by (rewrite ?Hw; done || lia). split_and!; [lia|lia|done|done].
Qed.

Definition setown (own : Z → Z * nat) (a : Z) (w : Z * nat) : Z → Z * nat := λ b, if decide (b = a) then w else own b.
Lemma setown_eq own a w : setown own a w a = w.
Proof. unfold setown. by rewrite decide_True. Qed.
Lemma setown_ne own a w b : b ≠ a → setown own a w b = own b.
Proof. intros. unfold setown. by rewrite decide_False. Qed.

(** [freeblock++]: a block of zeros. *)
Definition taken (s : mkst) : mkst := s <| m_freeblock := m_freeblock s + 1 |>.

Lemma mk_take_block_run s : disk_ok s → mk_take_block s = Ok (m_freeblock s) (taken s).
Proof.
  intros Hs. unfold mk_take_block, taken. step. step. unfold ret. rewrite u32_small; [done|].
  pose proof (do_fb _ Hs). change nmeta with 46 in *. change FSSIZE with 1000 in *. lia.
Qed.

Lemma taken_ok s : disk_ok s → m_freeblock s < FSSIZE →
  disk_ok (taken s) ∧ on_disk (m_img (taken s)) (m_freeblock s) = Some zeroes.
Proof.
  intros [Hl Hb Hf Hz] Hlt. split; [split; cbn; [done|done|lia|]|by apply Hz; cbn; lia].
  intros a Ha. apply Hz. lia.
Qed.

Lemma taken_grew inum s own w : disk_ok s → grew inum s own (taken s) (setown own (m_freeblock s) w).
Proof. intros Hs. split; cbn; try done; [lia|]. intros a Ha. apply setown_ne. lia. Qed.

Lemma taken_mdata s own w inum addrs ind blk data nb hi :
  mdata s own inum addrs ind blk data nb hi → mdata (taken s) (setown own (m_freeblock s) w) inum addrs ind blk data nb hi.
Proof. apply mdata_ext; cbn; [lia| |done]. intros a Ha. apply setown_ne. lia. Qed.

Lemma mk_slot_old di k a s : d_addrs di !! k = Some a → a ≠ 0 → mk_slot di k s = Ok (di, a) s.
Proof. intros Hk Ha. unfold mk_slot. rewrite Hk. step. by rewrite (proj2 (Z.eqb_neq a 0)). Qed.

Lemma mk_slot_new di k s : disk_ok s → d_addrs di !! k = Some 0 →
  mk_slot di k s = Ok (mk_set_addr di k (m_freeblock s), m_freeblock s) (taken s).
Proof. intros Hs Hk. unfold mk_slot. rewrite Hk. step. cbn [Z.eqb]. run mk_take_block_run; [|done]. done. Qed.

Lemma addrs_at blk ind k : (k < NDIRECT)%nat → ((blk <$> seq 0 NDIRECT) ++ [ind]) !! k = Some (blk k : Z).
Proof. intros Hk. rewrite lookup_app_l by (by rewrite length_fmap, length_seq). by rewrite list_lookup_fmap, lookup_seq_lt by done. Qed.

Lemma addrs_ind blk ind : ((blk <$> seq 0 NDIRECT) ++ [ind]) !! NDIRECT = Some (ind : Z).
Proof. by rewrite lookup_app_r by (by rewrite length_fmap, length_seq). Qed.

Lemma addrs_set (blk : nat → Z) (ind : Z) k x : (k < NDIRECT)%nat →
  <[k := x]> ((blk <$> seq 0 NDIRECT) ++ [ind]) = (setb blk k x <$> seq 0 NDIRECT) ++ [ind].
Proof.
  intros Hk. rewrite insert_app_l by (by rewrite length_fmap, length_seq). f_equal. apply list_eq. intros j.
  destruct (decide (j < NDIRECT)%nat) as [Hj|Hj].
  - rewrite list_lookup_fmap, lookup_seq_lt by done. cbn. destruct (decide (j = k)) as [->|Hne].
    + rewrite list_lookup_insert_eq by (by rewrite length_fmap, length_seq). by rewrite setb_eq.
    + rewrite list_lookup_insert_ne by done. rewrite list_lookup_fmap, lookup_seq_lt by done. cbn. by rewrite setb_ne.
  - rewrite !lookup_ge_None_2; [done|rewrite length_fmap, length_seq; lia|rewrite length_insert, length_fmap, length_seq; lia].
Qed.

Lemma addrs_set_ind (blk : nat → Z) (ind x : Z) : <[NDIRECT := x]> ((blk <$> seq 0 NDIRECT) ++ [ind]) = (blk <$> seq 0 NDIRECT) ++ [x].
Proof. rewrite insert_app_r_alt by (by rewrite length_fmap, length_seq). by rewrite length_fmap, length_seq. Qed.

Section extend.
  Context (s : mkst) (own : Z → Z * nat) (inum : Z) (addrs : list Z) (ind : Z) (blk : nat → Z) (data : list Z) (nb : nat).
  Context (Hs : disk_ok s) (Hroom : m_freeblock s < FSSIZE).

Let fb := m_freeblock s.

Lemma setb_blk hi k w : mdata s own inum addrs ind blk data nb hi → (k < S nb)%nat → w = (inum, nb) →
  nmeta ≤ setb blk nb fb k < fb + 1 ∧ setown own fb w (setb blk nb fb k) = (inum, k) ∧
  on_disk (m_img s) (setb blk nb fb k) = Some (chunk k data).
Proof using Hs Hroom.
  intros Hm Hk ->. pose proof (do_fb _ Hs) as Hfb. destruct (decide (k = nb)) as [->|Hne].
  - rewrite setb_eq, setown_eq. split_and!; [apply Hfb|lia|done|]. rewrite chunk_past by apply Hm. apply (do_zero _ Hs). unfold fb. lia.
  - rewrite setb_ne by done. destruct (md_blk _ _ _ _ _ _ _ _ _ Hm k) as (Hr & Ho & Hd); [lia|].
    rewrite setown_ne by (unfold fb; lia). split_and!; [lia|unfold fb; lia|done|done].
Qed.

Lemma direct_new hi : (nb < NDIRECT)%nat → mdata s own inum addrs ind blk data nb hi →
  mdata (taken s) (setown own fb (inum, nb)) inum (<[nb := fb]> addrs) ind (setb blk nb fb) data (S nb) hi.
Proof using Hs Hroom.
  intros Hnb Hm. pose proof Hm as [A1 A2 A3 A4 A5 A6]. split.
  - lia.
  - unfold MAXBLK. lia.
  - rewrite A3. by apply addrs_set.
  - intros k Hk. by eapply setb_blk.
  - intros k Hk. rewrite setb_ne by lia. apply A5. lia.
  - destruct hi; [|by split; [apply A6|lia]]. destruct A6 as (Hr & Ho & e & He & Hj). cbn [m_freeblock taken upd].
    split_and!; [apply Hr|cbn; lia|by rewrite setown_ne by (unfold fb; lia)|].
    exists e. split; [done|]. intros j Hj'. rewrite setb_ne by lia. by apply Hj.
Qed.

Lemma ind_take : mdata s own inum addrs ind blk data nb false →
  mdata (taken s) (setown own fb (inum, MAXBLK)) inum (<[NDIRECT := fb]> addrs) fb blk data nb true.
Proof using Hs Hroom.
  intros Hm. destruct (taken_mdata s own (inum, MAXBLK) _ _ _ _ _ _ _ Hm) as [A1 A2 A3 A4 A5 [A6 A7]]. split; try done.
  - rewrite A3. apply addrs_set_ind.
  - split_and!; [apply (do_fb _ Hs)|cbn; unfold fb; lia|apply setown_eq|]. exists zeroes. split; [by apply (taken_ok s Hs)|].
    intros j Hj. rewrite A5 by lia. apply rd_zeros.
Qed.

Lemma ind_new e : (NDIRECT ≤ nb < MAXBLK)%nat → mdata s own inum addrs ind blk data nb true → on_disk (m_img s) ind = Some e →
  mdata (put_block ind (wr32 (4 * (nb - NDIRECT)) fb e) (taken s)) (setown own fb (inum, nb)) inum addrs ind (setb blk nb fb) data (S nb) true.
Proof using Hs Hroom.
  intros Hnb Hm He. pose proof Hm as [A1 A2 A3 A4 A5 (Hr & Ho & e' & He' & Hj)]. assert (e' = e) as -> by congruence.
  pose proof (do_blk _ Hs _ _ He) as Hle. pose proof (do_fb _ Hs) as Hfb. change nmeta with 46 in *. change FSSIZE with 1000 in *.
  assert (Z.to_nat ind < length (m_img (taken s)))%nat as Hin by (cbn; rewrite (do_len _ Hs); change FSSIZE with 1000; lia). split.
  - lia.
  - lia.
  - rewrite A3. f_equal. apply list_fmap_ext. intros i k [-> Hk]%lookup_seq. rewrite setb_ne by lia. done.
  - intros k Hk. destruct (setb_blk true k (inum, nb)) as (B1 & B2 & B3); [done|lia|done|]. change nmeta with 46 in *. split_and!; [lia|cbn; unfold fb in *; lia|done|].
    rewrite on_disk_put by (done || lia). rewrite decide_False; [done|]. intros E. rewrite E, setown_ne in B2 by (unfold fb; lia). rewrite Ho in B2.
    injection B2 as E'. lia.
  - intros k Hk. rewrite setb_ne by lia. apply A5. lia.
  - split_and!; [apply Hr|cbn; lia|by rewrite setown_ne by (unfold fb; lia)|]. eexists. rewrite on_disk_put by (done || lia).
    rewrite decide_True by done. split; [done|]. intros j Hj'. destruct (decide (j = nb - NDIRECT)%nat) as [->|Hne].
    + rewrite rd_wr_eq by (rewrite Hle; unfold BSZ, MAXBLK, NINDIRECT in *; lia). replace (NDIRECT + (nb - NDIRECT))%nat with nb by lia.
      rewrite setb_eq. apply Z.mod_small. change (256 ^ Z.of_nat 4) with (2 ^ 32). unfold fb. lia.
    + rewrite rd_wr_ne by lia. rewrite setb_ne by lia. by apply Hj.
Qed.
End extend.

Definition far (nb : nat) : bool := (NDIRECT <? nb)%nat.

(** The blocks of a file with [nb] data blocks. *)
Definition cost (nb : nat) : Z := Z.of_nat nb + if far nb then 1 else 0.

(** The fields that iappend keeps. *)
Definition same_kind (di di' : dinode) : Prop :=
  d_type di' = d_type di ∧ d_major di' = d_major di ∧ d_minor di' = d_minor di ∧ d_nlink di' = d_nlink di.

Lemma md_nonzero s own inum addrs ind blk data nb hi k : mdata s own inum addrs ind blk data nb hi → (k < nb)%nat → blk k ≠ 0.
Proof. intros Hm Hk. destruct (md_blk _ _ _ _ _ _ _ _ _ Hm k Hk) as [Hr _]. change nmeta with 46 in Hr. lia. Qed.

Lemma md_at s own inum addrs ind blk data nb hi k : mdata s own inum addrs ind blk data nb hi → (k < NDIRECT)%nat → addrs !! k = Some (blk k).
Proof. intros Hm Hk. rewrite (md_addrs _ _ _ _ _ _ _ _ _ Hm). by apply addrs_at. Qed.

Lemma md_at_ind s own inum addrs ind blk data nb hi : mdata s own inum addrs ind blk data nb hi → addrs !! NDIRECT = Some ind.
Proof. intros Hm. rewrite (md_addrs _ _ _ _ _ _ _ _ _ Hm). apply addrs_ind. Qed.

(** Using a further block of the file: [cost] more of the image. *)
Record used (s : mkst) (own : Z → Z * nat) (inum : Z) (di : dinode) (data : list Z) (nb : nat) (f : Z)
    (s' : mkst) (own' : Z → Z * nat) (di' : dinode) (ind' : Z) (blk' : nat → Z) : Prop := {
  us_ok : disk_ok s';
  us_grew : grew inum s own s' own';
  us_kind : same_kind di di';
  us_data : mdata s' own' inum (d_addrs di') ind' blk' data nb (far nb);
  us_fb : m_freeblock s' = f;
}.

Lemma mk_bmap_direct s own inum di ind blk data nb K :
  disk_ok s → mdata s own inum (d_addrs di) ind blk data nb (far nb) → (K ≤ nb)%nat → (K < NDIRECT)%nat →
  m_freeblock s + (cost (nb `max` S K) - cost nb) ≤ FSSIZE →
  ∃ s' own' di' ind' blk', mk_bmap di (Z.of_nat K) s = Ok (di', blk' K) s' ∧
    used s own inum di data (nb `max` S K) (m_freeblock s + (cost (nb `max` S K) - cost nb)) s' own' di' ind' blk'.
Proof.
  intros Hs Hm HK Hd Hroom. unfold mk_bmap. rewrite (proj2 (Z.ltb_lt _ _)), Nat2Z.id by lia.
  pose proof (md_at _ _ _ _ _ _ _ _ _ K Hm Hd) as Ha. destruct (decide (K < nb)%nat) as [Hlt|Hge].
  - rewrite Nat.max_l in * by lia. exists s, own, di, ind, blk. split; [|by split; [|apply grew_refl| | |lia]].
    apply mk_slot_old; [done|by eapply md_nonzero].
  - assert (K = nb) as -> by lia. rewrite Nat.max_r in * by lia. rewrite (md_none _ _ _ _ _ _ _ _ _ Hm) in Ha by done.
    assert (far nb = false ∧ far (S nb) = false) as [E1 E2] by (unfold far; rewrite !Nat.ltb_ge; lia).
    assert (cost (S nb) - cost nb = 1) as Hc by (unfold cost; rewrite E1, E2; lia). rewrite Hc in *.
    exists (taken s), (setown own (m_freeblock s) (inum, nb)), (mk_set_addr di nb (m_freeblock s)), ind, (setb blk nb (m_freeblock s)).
    rewrite setb_eq. split; [by apply mk_slot_new|]. split; [apply taken_ok; [done|lia]|by apply taken_grew|done| |done].
    rewrite E2, <-E1. apply direct_new; [done|lia|done|done].
Qed.

(** The part of mk_bmap after the indirect block is there. *)
Definition mk_ind (a fbn : Z) (din : dinode) : F (dinode * Z) :=
  indirect <- rsect a;
  let o := Z.to_nat (4 * (fbn - Z.of_nat NDIRECT)) in
  if rd32 o indirect =? 0 then
    x <- mk_take_block;
    wsect a (wr32 o x indirect);;
    ret (din, x)
  else ret (din, rd32 o indirect).

Lemma mk_ind_run s own inum di ind blk data nb K :
  disk_ok s → mdata s own inum (d_addrs di) ind blk data nb true → (NDIRECT ≤ K ≤ nb)%nat → (K < MAXBLK)%nat →
  m_freeblock s + (Z.of_nat (nb `max` S K) - Z.of_nat nb) ≤ FSSIZE →
  ∃ s' own' ind' blk', mk_ind ind (Z.of_nat K) di s = Ok (di, blk' K) s' ∧
    used s own inum di data (nb `max` S K) (m_freeblock s + (Z.of_nat (nb `max` S K) - Z.of_nat nb)) s' own' di ind' blk'.
Proof.
  intros Hs Hm HK Hmax Hroom. destruct (md_ind _ _ _ _ _ _ _ _ _ Hm) as (Hr & Ho & e & He & Hj). unfold mk_ind.
  run rsect_run; [|done]. cbv zeta. replace (Z.to_nat _) with (4 * (K - NDIRECT))%nat by lia.
  rewrite (Hj (K - NDIRECT)%nat) by (unfold MAXBLK in *; lia). replace (NDIRECT + (K - NDIRECT))%nat with K by lia.
  assert (far (nb `max` S K) = true) as Ef by (unfold far; rewrite Nat.ltb_lt; lia).
  destruct (decide (K < nb)%nat) as [Hlt|Hge].
  - rewrite Nat.max_l in * by lia. rewrite (proj2 (Z.eqb_neq _ 0)) by (by eapply md_nonzero). exists s, own, ind, blk.
    split; [done|]. split; [done|apply grew_refl|done|by rewrite Ef|lia].
  - assert (K = nb) as -> by lia. rewrite Nat.max_r in * by lia. rewrite (md_none _ _ _ _ _ _ _ _ _ Hm) by done. cbn [Z.eqb].
    run mk_take_block_run; [|done]. pose proof (do_blk _ Hs _ _ He) as Hle. change nmeta with 46 in *. pose proof (do_fb _ Hs) as Hfb. change FSSIZE with 1000 in *.
    run wsect_run; [|cbn; rewrite (do_len _ Hs); change FSSIZE with 1000; lia].
    destruct (taken_ok s Hs) as [Ht _]; [change FSSIZE with 1000; lia|].
    eexists _, (setown own (m_freeblock s) (inum, nb)), ind, (setb blk nb (m_freeblock s)). rewrite setb_eq. split; [done|]. split.
    + apply put_ok; [done|cbn; lia|by rewrite length_wr].
    + destruct (taken_grew inum s own (inum, nb) Hs) as [G1 G2 G3 G4 G5].
      assert (Z.to_nat ind < length (m_img (taken s)))%nat by (cbn; rewrite (do_len _ Hs); change FSSIZE with 1000; lia).
      change nmeta with 46 in *. split; try done; change nmeta with 46.
      * intros a Ha. rewrite on_disk_put by lia. rewrite decide_False by lia. done.
      * intros a Ha Hne. rewrite on_disk_put by lia. rewrite decide_False; [done|]. intros ->. by rewrite Ho in Hne.
    + done.
    + rewrite Ef. eapply ind_new; [done|change FSSIZE with 1000; lia|lia|done|done].
    + cbn. lia.
Qed.

Lemma mk_bmap_run s own inum di ind blk data nb K :
  disk_ok s → mdata s own inum (d_addrs di) ind blk data nb (far nb) → (K ≤ nb)%nat → (K < MAXBLK)%nat →
  m_freeblock s + (cost (nb `max` S K) - cost nb) ≤ FSSIZE →
  ∃ s' own' di' ind' blk', mk_bmap di (Z.of_nat K) s = Ok (di', blk' K) s' ∧
    used s own inum di data (nb `max` S K) (m_freeblock s + (cost (nb `max` S K) - cost nb)) s' own' di' ind' blk'.
Proof.
  intros Hs Hm HK Hmax Hroom. destruct (decide (K < NDIRECT)%nat) as [Hd|Hd]; [by apply (mk_bmap_direct _ _ _ _ ind blk)|].
  unfold mk_bmap. rewrite (proj2 (Z.ltb_ge _ _)) by lia. pose proof (md_at_ind _ _ _ _ _ _ _ _ _ Hm) as Ha.
  assert (far (nb `max` S K) = true) as Ef by (unfold far; rewrite Nat.ltb_lt; lia).
  destruct (far nb) eqn:En.
  - assert (cost (nb `max` S K) - cost nb = Z.of_nat (nb `max` S K) - Z.of_nat nb) as Hc by (unfold cost; rewrite En, Ef; lia). rewrite Hc in *.
    run mk_slot_old; [|exact Ha|]. 2: { destruct (md_ind _ _ _ _ _ _ _ _ _ Hm) as [Hr _]. change nmeta with 46 in Hr. lia. }
    destruct (mk_ind_run s own inum di ind blk data nb K) as (s' & o' & i' & b' & Hrun & Hu); [done..|lia|done|done|]. by exists s', o', di, i', b'.
  - destruct (md_ind _ _ _ _ _ _ _ _ _ Hm) as [-> Hnb]. assert (K = nb ∧ nb = NDIRECT) as [-> Enb] by lia.
    rewrite Nat.max_r in * by lia. assert (cost (S nb) - cost nb = 2) as Hc by (unfold cost; rewrite En, Ef; lia). rewrite Hc in *.
    run mk_slot_new; [|done|exact Ha]. destruct (taken_ok s Hs) as [Ht _]; [lia|].
    destruct (mk_ind_run (taken s) (setown own (m_freeblock s) (inum, MAXBLK)) inum (mk_set_addr di NDIRECT (m_freeblock s)) (m_freeblock s) blk data nb nb)
      as (s' & o' & i' & b' & Hrun & Hu); [done|apply (ind_take _ _ _ _ 0); [done|lia|done]|lia|done|rewrite Nat.max_r by lia; cbn; lia|].
    rewrite Nat.max_r in Hu by lia. exists s', o', (mk_set_addr di NDIRECT (m_freeblock s)), i', b'. split; [exact Hrun|].
    destruct Hu as [U1 U2 U3 U4 U5]. split; [done|by eapply grew_trans; [apply taken_grew|]|done|done|]. rewrite U5. cbn. lia.
Qed.

(** ** Appending *)

Definition nblk (n : nat) : nat := (n + (BSZ - 1)) / BSZ.
(** The blocks of a file of [n] bytes. *)
Definition need (n : nat) : Z := cost (nblk n).

Lemma nblk_spec n : (n ≤ nblk n * BSZ < n + BSZ)%nat.
Proof.
  unfold nblk. pose proof (Nat.div_mod_eq (n + (BSZ - 1)) BSZ). pose proof (Nat.mod_upper_bound (n + (BSZ - 1)) BSZ). unfold BSZ in *. lia.
Qed.

Lemma nblk_unique n k : (n ≤ k * BSZ < n + BSZ)%nat → k = nblk n.
Proof. intros Hk. pose proof (nblk_spec n). unfold BSZ in *. lia. Qed.

Lemma need_mono n m : (n ≤ m)%nat → need n ≤ need m.
Proof.
  intros Hn. assert (nblk n ≤ nblk m)%nat by (apply Nat.Div0.div_le_mono; lia). unfold need, cost, far.
  destruct (Nat.ltb_spec NDIRECT (nblk n)), (Nat.ltb_spec NDIRECT (nblk m)); lia.
Qed.

(** The blocks of file [inum], for an inode in memory. *)
Definition blocks_of (s : mkst) (own : Z → Z * nat) (inum : Z) (di : dinode) (data : list Z) : Prop :=
  ∃ ind blk, mdata s own inum (d_addrs di) ind blk data (nblk (length data)) (far (nblk (length data))).

Record appended (s : mkst) (own : Z → Z * nat) (inum : Z) (di : dinode) (data c : list Z)
    (s' : mkst) (own' : Z → Z * nat) (di' : dinode) : Prop := {
  ap_ok : disk_ok s';
  ap_grew : grew inum s own s' own';
  ap_kind : same_kind di di';
  ap_data : blocks_of s' own' inum di' (data ++ c);
  ap_fb : m_freeblock s' = m_freeblock s + (need (length data + length c) - need (length data));
}.

Lemma put_grew inum s own a d k : disk_ok s → nmeta ≤ a < m_freeblock s → own a = (inum, k) → grew inum s own (put_block a d s) own.
Proof.
  intros Hs Ha Ho. pose proof (do_fb _ Hs) as Hfb. pose proof (do_len _ Hs) as Hl. change nmeta with 46 in *. change FSSIZE with 1000 in *.
  split; try done; change nmeta with 46; intros b Hb.
  - rewrite on_disk_put by lia. by rewrite decide_False by lia.
  - intros Hne. rewrite on_disk_put by lia. rewrite decide_False; [done|]. intros ->. by rewrite Ho in Hne.
Qed.

(** The block of the file that [c] goes to has its new contents. *)
Lemma put_chunk s own inum di ind blk data c nb hi :
  let K := (length data / BSZ)%nat in
  disk_ok s → mdata s own inum (d_addrs di) ind blk data nb hi → (K < nb)%nat → (length data `mod` BSZ + length c ≤ BSZ)%nat →
  mdata (put_block (blk K) (chunk K (data ++ c)) s) own inum (d_addrs di) ind blk (data ++ c) nb hi.
Proof.
  intros K Hs [A1 A2 A3 A4 A5 A6] HK Hc. destruct (A4 K HK) as (Hr & Ho & _). pose proof (do_fb _ Hs) as Hfb.
  pose proof (do_len _ Hs) as Hl. pose proof (Nat.div_mod_eq (length data) BSZ) as Hdm. fold K in Hdm. change nmeta with 46 in *. change FSSIZE with 1000 in *. split.
  - rewrite length_app. unfold BSZ in *. nia.
  - done.
  - done.
  - intros k Hk. destruct (A4 k Hk) as (Hr' & Ho' & Hd'). change nmeta with 46. split_and!; [apply Hr'|apply Hr'|done|].
    rewrite on_disk_put by lia. destruct (decide (blk k = blk K)) as [E|Hne].
    + rewrite E, Ho in Ho'. injection Ho' as ->. done.
    + rewrite Hd', chunk_other; [done| |done]. by intros ->.
  - done.
  - destruct hi; [|done]. destruct A6 as (Hri & Hoi & e & He & Hj). change nmeta with 46. split_and!; [apply Hri|apply Hri|done|]. exists e. split; [|done].
    rewrite on_disk_put by lia. rewrite decide_False; [done|]. intros E. rewrite E, Ho in Hoi. injection Hoi as E'. lia.
Qed.

Lemma append_round s own inum di data c :
  let K := (length data / BSZ)%nat in
  disk_ok s → blocks_of s own inum di data → c ≠ [] → (length data `mod` BSZ + length c ≤ BSZ)%nat → (K < MAXBLK)%nat →
  m_freeblock s + (need (length data + length c) - need (length data)) ≤ FSSIZE →
  ∃ x s1 own' di', mk_bmap di (Z.of_nat K) s = Ok (di', x) s1 ∧ on_disk (m_img s1) x = Some (chunk K data) ∧
    wsect x (chunk K (data ++ c)) s1 = Ok tt (put_block x (chunk K (data ++ c)) s1) ∧
    appended s own inum di data c (put_block x (chunk K (data ++ c)) s1) own' di'.
Proof.
  intros K Hs (ind & blk & Hm) Hc Hlc HK Hroom. pose proof (Nat.div_mod_eq (length data) BSZ) as Hdm. fold K in Hdm.
  pose proof (nblk_spec (length data)) as Hn. assert (0 < length c)%nat as Hpos by (destruct c; [done|simpl; lia]).
  assert (nblk (length data) `max` S K = nblk (length data + length c))%nat as En.
  { apply nblk_unique. destruct (Nat.max_spec (nblk (length data)) (S K)) as [[? ->]|[? ->]]; unfold BSZ in *; nia. }
  destruct (mk_bmap_run s own inum di ind blk data (nblk (length data)) K) as (s1 & own1 & di1 & ind1 & blk1 & Hrun & [U1 U2 U3 U4 U5]);
    [done|done|unfold BSZ in *; nia|done|by rewrite En|]. rewrite En in *.
  assert (K < nblk (length data + length c))%nat as HKn by lia. destruct (md_blk _ _ _ _ _ _ _ _ _ U4 K HKn) as (Hr & Ho & Hd).
  exists (blk1 K), s1, own1, di1. split_and!; [done|done| |].
  - apply wsect_run. pose proof (do_fb _ U1). rewrite (do_len _ U1). change nmeta with 46 in *. change FSSIZE with 1000 in *. lia.
  - split.
    + apply put_ok; [done|change nmeta with 46 in *; lia|apply length_chunk].
    + eapply grew_trans; [exact U2|]. by eapply put_grew.
    + done.
    + exists ind1, blk1. rewrite length_app. by apply put_chunk.
    + exact U5.
Qed.

Lemma appended_trans inum s1 o1 di1 data c1 s2 o2 di2 c2 s3 o3 di3 :
  appended s1 o1 inum di1 data c1 s2 o2 di2 → appended s2 o2 inum di2 (data ++ c1) c2 s3 o3 di3 →
  appended s1 o1 inum di1 data (c1 ++ c2) s3 o3 di3.
Proof.
  intros [A1 A2 A3 A4 A5] [B1 B2 B3 B4 B5]. split; [done|by eapply grew_trans| |by rewrite app_assoc|].
  - unfold same_kind in *. destruct_and! A3. destruct_and! B3. split_and!; congruence.
  - rewrite B5, A5. rewrite !length_app. rewrite (Nat.add_assoc (length data)). lia.
Qed.

Lemma iappend_loop_run k inum p s own di data :
  (length p < k)%nat → disk_ok s → blocks_of s own inum di data → (length data + length p ≤ MAXBLK * BSZ)%nat →
  m_freeblock s + (need (length data + length p) - need (length data)) ≤ FSSIZE →
  ∃ s' own' di', iappend_loop k di (Z.of_nat (length data)) p s = Ok (di', Z.of_nat (length data + length p)) s' ∧
    appended s own inum di data p s' own' di'.
Proof.
  revert p s own di data. induction k as [|k IH]; intros p s own di data Hk Hs Hb Hmax Hroom; [lia|]. destruct p as [|ch p0].
  { exists s, own, di. split; [by rewrite Nat.add_0_r|]. split; [done|apply grew_refl|done|by rewrite app_nil_r|].
    cbn [length]. rewrite Nat.add_0_r. lia. }
  cbn [iappend_loop]. remember (ch :: p0) as p eqn:Ep. assert (0 < length p)%nat as Hp by (subst p; simpl; lia). clear ch p0 Ep.
  pose proof (Nat.div_mod_eq (length data) BSZ) as Hdm. pose proof (Nat.mod_upper_bound (length data) BSZ ltac:(done)) as Hmod.
  set (K := (length data / BSZ)%nat) in *. set (r := (length data `mod` BSZ)%nat) in *.
  assert (Z.of_nat (length data) `div` BSIZE = Z.of_nat K) as EK by (change BSIZE with (Z.of_nat BSZ); by rewrite <-Nat2Z.inj_div).
  assert (K < MAXBLK)%nat as HK by (unfold BSZ in *; lia).
  set (m := (length p `min` (BSZ - r))%nat). assert (0 < m)%nat as Hm0 by (unfold m; lia).
  assert (length (take m p) = m) as Hlt by (rewrite length_take; unfold m; lia).
  assert (Z.min (Z.of_nat (length p)) ((Z.of_nat K + 1) * BSIZE - Z.of_nat (length data)) = Z.of_nat m) as Em.
  { change BSIZE with (Z.of_nat BSZ). unfold m. lia. }
  rewrite EK, Em. rewrite (proj2 (Z.ltb_lt _ _)) by (unfold MAXFILE, MAXBLK in *; lia). cbn [negb].
  destruct (append_round s own inum di data (take m p)) as (x & s1 & own1 & di1 & Hbm & Hd & Hw & Hap); fold K; try fold r;
    [done|done|by intros E; rewrite E in Hlt; simpl in Hlt; lia|rewrite Hlt; unfold m; lia|done| |].
  { rewrite Hlt. pose proof (need_mono (length data + m) (length data + length p)). unfold m in *. lia. }
  fold K in Hbm, Hd, Hw, Hap. rewrite (bind_ok _ _ _ _ _ Hbm). cbn beta iota. run rsect_run; [|done].
  rewrite Nat2Z.id. replace (Z.to_nat (Z.of_nat (length data) - Z.of_nat K * BSIZE)) with r by (change BSIZE with (Z.of_nat BSZ); lia).
  unfold K, r at 1. rewrite chunk_write by (rewrite Hlt; fold r; unfold m; lia). fold K. rewrite (bind_ok _ _ _ _ _ Hw).
  rewrite u32_small by (unfold MAXBLK, NDIRECT, NINDIRECT, BSZ, m in *; lia).
  replace (Z.of_nat (length data) + Z.of_nat m) with (Z.of_nat (length (data ++ take m p))) by (rewrite length_app, Hlt; lia).
  pose proof (ap_fb _ _ _ _ _ _ _ _ _ Hap) as Hfb. rewrite Hlt in Hfb.
  assert (length (data ++ take m p) + length (drop m p) = length data + length p)%nat as El.
  { rewrite length_app, Hlt, length_drop. unfold m. lia. }
  destruct (IH (drop m p) (put_block x (chunk K (data ++ take m p)) s1) own1 di1 (data ++ take m p)) as (s2 & own2 & di2 & Hrun & Hap2);
    [rewrite length_drop; lia|apply Hap|apply Hap|by rewrite El|rewrite El, length_app, Hlt; lia|].
  exists s2, own2, di2. rewrite Hrun, El. split; [done|]. rewrite <-(take_drop m p) at 1. by eapply appended_trans.
Qed.

(** ** Files with their inodes *)

Definition inode_at (s : mkst) (inum : Z) : option dinode :=
  parse_dinode (dinode_off inum) <$> on_disk (m_img s) (IBLOCK inum mk_sb).

Lemma IBLOCK_range inum : 0 ≤ inum < NINODES → IBLOCK inum mk_sb = inum `div` 16 + 32 ∧ 32 ≤ IBLOCK inum mk_sb < 45.
Proof.
  intros Hi. change NINODES with 200 in Hi. assert (IBLOCK inum mk_sb = inum `div` 16 + 32) as ->; [|Z.to_euclidean_division_equations; lia].
  unfold IBLOCK. change (sb_inodestart mk_sb) with 32. change IPB with 16. apply u32_small. Z.to_euclidean_division_equations; lia.
Qed.

Lemma inode_there s inum : disk_ok s → 0 ≤ inum < NINODES → ∃ d, on_disk (m_img s) (IBLOCK inum mk_sb) = Some d ∧ length d = BSZ.
Proof.
  intros Hs Hi. destruct (IBLOCK_range inum Hi) as [_ Hb]. destruct (lookup_lt_is_Some_2 (m_img s) (Z.to_nat (IBLOCK inum mk_sb))) as [d Hd].
  { rewrite (do_len _ Hs). change FSSIZE with 1000. lia. }
  exists d. split; [done|]. by apply (do_blk _ Hs) in Hd.
Qed.

Lemma rinode_run inum di s : inode_at s inum = Some di → rinode inum s = Ok di s.
Proof. unfold inode_at. intros (d & Hd & ->)%fmap_Some. unfold rinode. by run rsect_run. Qed.

(** What writing an inode changes. *)
Record inode_put (inum : Z) (di : dinode) (s s' : mkst) : Prop := {
  ip_ok : disk_ok s';
  ip_fb : m_freeblock s' = m_freeblock s;
  ip_fi : m_freeinode s' = m_freeinode s;
  ip_at : inode_at s' inum = Some di;
  ip_other : ∀ j, j ≠ inum → 0 ≤ j < NINODES → inode_at s' j = inode_at s j;
  ip_data : ∀ a, 0 ≤ a < 32 ∨ 45 ≤ a → on_disk (m_img s') a = on_disk (m_img s) a;
}.

Lemma winode_run inum di s : disk_ok s → 0 ≤ inum < NINODES → dinode_ok di →
  ∃ s', winode inum di s = Ok tt s' ∧ inode_put inum di s s'.
Proof.
  intros Hs Hi Hok. destruct (inode_there s inum Hs Hi) as (d & Hd & Hl). destruct (IBLOCK_range inum Hi) as [Eb Hb].
  unfold winode. run rsect_run; [|done]. pose proof (do_len _ Hs) as Hlen. pose proof (do_fb _ Hs) as Hfb. change nmeta with 46 in *. change FSSIZE with 1000 in *.
  eexists. split; [apply wsect_run; lia|]. split; try done.
  - apply put_ok; [done|lia|by rewrite length_inserts].
  - unfold inode_at. rewrite on_disk_put by lia. rewrite decide_True by done. cbn. f_equal. apply (inode_slot d di inum 0); [done|done|lia|done].
  - intros j Hne Hj. destruct (IBLOCK_range j Hj) as [Ej Hbj]. unfold inode_at. rewrite on_disk_put by lia. case_decide as E; [|done].
    rewrite E, Hd. cbn. f_equal. apply (inode_slot d di inum j); [done|done|lia|lia|]. change IPB with 16. Z.to_euclidean_division_equations; lia.
  - intros a Ha. rewrite on_disk_put by lia. by rewrite decide_False by lia.
Qed.

(** File [inum] of the image, of type [ty], has contents [data]. *)
Definition mfile (s : mkst) (own : Z → Z * nat) (inum ty : Z) (data : list Z) : Prop :=
  ∃ di, inode_at s inum = Some di ∧ dinode_ok di ∧ d_type di = ty ∧ d_nlink di = 1 ∧
    d_size di = Z.of_nat (length data) ∧ blocks_of s own inum di data.

(** What a step on file [inum] keeps. *)
Record kept (inum : Z) (s : mkst) (own : Z → Z * nat) (s' : mkst) (own' : Z → Z * nat) : Prop := {
  kp_ok : disk_ok s';
  kp_other : ∀ j ty data, j ≠ inum → 0 ≤ j < NINODES → mfile s own j ty data → mfile s' own' j ty data;
  kp_low : ∀ a, 0 ≤ a < 32 → on_disk (m_img s') a = on_disk (m_img s) a;
}.

Lemma kept_trans inum s1 o1 s2 o2 s3 o3 : kept inum s1 o1 s2 o2 → kept inum s2 o2 s3 o3 → kept inum s1 o1 s3 o3.
Proof.
  intros [A1 A2 A3] [B1 B2 B3]. split; [done| |].
  - intros j ty data Hj Hr Hm. by apply B2, A2.
  - intros a Ha. by rewrite B3, A3.
Qed.

Lemma grew_kept inum s own s' own' : disk_ok s' → grew inum s own s' own' → kept inum s own s' own'.
Proof.
  intros Hs' [G1 G2 G3 G4 G5]. split; [done| |intros a Ha; apply G4; change nmeta with 46; lia].
  intros j ty data Hj Hr (di & Hi & Hok & Ht & Hnl & Hsz & ind & blk & Hm). exists di. split_and!; try done.
  - destruct (IBLOCK_range j Hr) as [_ Hb]. unfold inode_at. rewrite G4; [done|]. change nmeta with 46. lia.
  - exists ind, blk. eapply mdata_ext; [done|done| |done]. intros a Ha Ho. apply G5; [done|congruence].
Qed.

Lemma inode_put_kept inum di s own s' : inode_put inum di s s' → kept inum s own s' own.
Proof.
  intros [P1 P2 P3 P4 P5 P6]. split; [done| |intros a Ha; apply P6; lia].
  intros j ty data Hj Hr (dj & Hi & Hok & Ht & Hnl & Hsz & ind & blk & Hm). exists dj. rewrite P5 by done. split_and!; try done.
  exists ind, blk. apply (mdata_ext s own); [by rewrite P2|done| |done]. intros a Ha _. apply P6. change nmeta with 46 in *. lia.
Qed.

Lemma blocks_addrs s own inum di data : disk_ok s → blocks_of s own inum di data →
  Forall (λ a, 0 ≤ a < 2 ^ 32) (d_addrs di) ∧ length (d_addrs di) = S NDIRECT.
Proof.
  intros Hs (ind & blk & [A1 A2 A3 A4 A5 A6]). rewrite A3. pose proof (do_fb _ Hs) as Hfb. change nmeta with 46 in *. change FSSIZE with 1000 in *. split.
  - apply Forall_app. split.
    + apply Forall_fmap, list.Forall_forall. intros k _. cbn. destruct (decide (k < nblk (length data))%nat) as [Hk|Hk].
      * destruct (A4 k Hk) as [Hr _]. lia.
      * rewrite A5 by lia. lia.
    + apply list.Forall_singleton. destruct (far _); [destruct A6 as [Hr _]|destruct A6 as [-> _]]; lia.
  - by rewrite length_app, length_fmap, length_seq.
Qed.

Lemma iappend_run inum ty p s own data :
  disk_ok s → 0 ≤ inum < NINODES → mfile s own inum ty data → (length data + length p ≤ MAXBLK * BSZ)%nat →
  m_freeblock s + (need (length data + length p) - need (length data)) ≤ FSSIZE →
  ∃ s' own', iappend inum p s = Ok tt s' ∧ kept inum s own s' own' ∧ mfile s' own' inum ty (data ++ p) ∧
    m_freeblock s' = m_freeblock s + (need (length data + length p) - need (length data)) ∧ m_freeinode s' = m_freeinode s.
Proof.
  intros Hs Hr (di & Hi & Hok & Ht & Hnl & Hsz & Hb) Hmax Hroom. unfold iappend. run rinode_run; [|done]. rewrite Hsz.
  destruct (iappend_loop_run (S (length p)) inum p s own di data) as (s1 & own1 & di1 & Hrun & Hap); [lia|done..|].
  rewrite (bind_ok _ _ _ _ _ Hrun). cbn beta iota. destruct Hap as [Hs1 Hg (K1 & K2 & K3 & K4) Hb1 Hfb].
  destruct (blocks_addrs _ _ _ _ _ Hs1 Hb1) as [Ha Hla]. destruct Hok as [O1 O2 O3 O4 O5 O6 O7].
  assert (dinode_ok (set_size di1 (Z.of_nat (length data + length p)))) as Hok1.
  { split; cbn; rewrite ?K1, ?K2, ?K3, ?K4; try done. unfold MAXBLK, NDIRECT, NINDIRECT, BSZ in *. lia. }
  destruct (winode_run inum (set_size di1 (Z.of_nat (length data + length p))) s1) as (s2 & Hw & Hp); [done..|].
  exists s2, own1. rewrite Hw. split; [done|]. pose proof Hp as [P1 P2 P3 P4 P5 P6]. split_and!.
  - apply (kept_trans _ _ _ s1 own1); [by apply grew_kept|by eapply inode_put_kept].
  - exists (set_size di1 (Z.of_nat (length data + length p))). cbn. split_and!; try done; [congruence|congruence|by rewrite length_app|].
    destruct Hb1 as (ind & blk & Hm). exists ind, blk. cbn. apply (mdata_ext s1 own1); [by rewrite P2|done| |done].
    intros a Ha' _. apply P6. change nmeta with 46 in *. lia.
  - by rewrite P2.
  - rewrite P3. apply Hg.
Qed.

(** ** The files of the command line *)

Lemma fi_kept inum s own v : disk_ok s → kept inum s own (s <| m_freeinode := v |>) own.
Proof.
  intros [Hl Hb Hf Hz]. split; [by split|..|done]. intros j ty data _ _ (di & Hi & Hok & Ht & Hnl & Hsz & ind & blk & Hm).
  exists di. split_and!; try done. exists ind, blk. by eapply mdata_ext; [| | |exact Hm].
Qed.

Lemma mk_ialloc_run ty s own :
  let i := m_freeinode s in disk_ok s → 0 ≤ i < NINODES → int16 ty →
  ∃ s', mk_ialloc ty s = Ok i s' ∧ kept i s own s' own ∧ mfile s' own i ty [] ∧
    m_freeblock s' = m_freeblock s ∧ m_freeinode s' = i + 1.
Proof.
  intros i Hs Hi Hty. unfold mk_ialloc. step. step. fold i. change NINODES with 200 in Hi. rewrite u32_small by lia.
  pose proof (fi_kept i s own (i + 1) Hs) as Hk. set (di := Dinode ty 0 0 1 0 (replicate (S NDIRECT) 0)).
  assert (dinode_ok di) as Hok.
  { split; cbn [di d_type d_major d_minor d_nlink d_size d_addrs]; try done. by apply Forall_replicate. }
  destruct (winode_run i di (s <| m_freeinode := i + 1 |>)) as (s' & Hw & Hp); [apply Hk|done|done|].
  rewrite (bind_ok _ _ _ _ _ Hw). exists s'. split; [done|]. split_and!; [|..|apply Hp|apply Hp].
  - eapply kept_trans; [exact Hk|by eapply inode_put_kept].
  - exists di. split_and!; try done; [apply Hp|]. exists 0, (λ _, 0). change (nblk (length [])) with O. split; [done|unfold MAXBLK; lia|done|intros k Hk0; lia|done|].
    split; [done|lia].
Qed.

Lemma reads_run inum ty reads s own data :
  disk_ok s → 0 ≤ inum < NINODES → mfile s own inum ty data → (length data + length (concat reads) ≤ MAXBLK * BSZ)%nat →
  m_freeblock s + (need (length data + length (concat reads)) - need (length data)) ≤ FSSIZE →
  ∃ s' own', forM reads (iappend inum) s = Ok tt s' ∧ kept inum s own s' own' ∧ mfile s' own' inum ty (data ++ concat reads) ∧
    m_freeblock s' = m_freeblock s + (need (length data + length (concat reads)) - need (length data)) ∧ m_freeinode s' = m_freeinode s.
Proof.
  intros Hs Hr. revert s own data Hs. induction reads as [|p reads IH]; intros s own data Hs Hm Hmax Hroom.
  - exists s, own. cbn. rewrite app_nil_r, Nat.add_0_r. split_and!; [done|by split|done|lia|done].
  - cbn [concat] in *. rewrite length_app in *. pose proof (need_mono (length data + length p) (length data + (length p + length (concat reads)))).
    destruct (iappend_run inum ty p s own data) as (s1 & own1 & Hrun & Hk & Hm1 & Hfb & Hfi); [done|done|done|lia|lia|].
    assert (length (data ++ p) + length (concat reads) = length data + (length p + length (concat reads)))%nat as El by (rewrite length_app; lia).
    destruct (IH s1 own1 (data ++ p)) as (s2 & own2 & Hrun2 & Hk2 & Hm2 & Hfb2 & Hfi2); [apply Hk|done|by rewrite El|rewrite El, length_app; lia|].
    exists s2, own2. cbn [forM]. rewrite (bind_ok _ _ _ _ _ Hrun), Hrun2, app_assoc. split_and!; try done; [by eapply kept_trans| |congruence].
    rewrite Hfb2, Hfb, El, length_app. lia.
Qed.

Lemma zero_fill_full l n : length l = n → zero_fill l n = Some (replicate n 0).
Proof. revert n. induction l as [|x l IH]; intros n <-; cbn; [done|]. by rewrite IH. Qed.

Lemma strncpy_pad l t n : length l = n → chars t → strncpy l (cz t) n = Some (resize n 0 t).
Proof.
  intros Hl Ht. revert l n Hl. induction Ht as [|c t Hc _ IH]; intros [|x l] n <-; cbn; try done.
  - by rewrite zero_fill_full.
  - rewrite (proj2 (Z.eqb_neq c 0)) by lia. fold (cz t). by rewrite (IH l).
Qed.

(** The name a file argument gets: without a leading underscore. *)
Definition shown (name : list Z) : list Z := match name with 95 :: n => n | _ => name end.

Definition entry (inum : Z) (name : list Z) : list Z := enc_dirent inum (resize DIRSIZ 0 name).

Lemma length_entry inum name : length (entry inum name) = 16%nat.
Proof. unfold entry, enc_dirent. by rewrite length_app, length_le_enc, length_resize. Qed.

(** The blocks of the files. *)
Definition total (fls : list (list Z)) : Z := foldr (λ d t, need (length d) + t) 0 fls.

(** The image with a root directory and the contents of the files. *)
Record image (s : mkst) (own : Z → Z * nat) (root : list Z) (fls : list (list Z)) : Prop := {
  im_ok : disk_ok s;
  im_fi : m_freeinode s = 2 + Z.of_nat (length fls);
  im_fb : m_freeblock s = nmeta + need (length root) + total fls;
  im_root : mfile s own ROOTINO T_DIR root;
  im_files : ∀ i data, fls !! i = Some data → mfile s own (2 + Z.of_nat i) T_FILE data;
  im_low : ∀ a, 0 ≤ a < 32 → on_disk (m_img s) a = Some (if decide (a = 1) then sb_block else zeroes);
}.

Lemma total_app l d : total (l ++ [d]) = total l + need (length d).
Proof. unfold total. induction l as [|x l IH]; cbn; [lia|]. rewrite IH. lia. Qed.

Lemma total_nonneg l : 0 ≤ total l.
Proof. unfold total. induction l as [|x l IH]; cbn; [done|]. pose proof (need_mono 0 (length x)). change (need 0) with 0 in *. lia. Qed.

Definition file_ok (f : list Z * list (list Z)) : Prop :=
  chars f.1 ∧ (SLASH ∉ f.1) ∧ (length (concat f.2) ≤ MAXBLK * BSZ)%nat.

Lemma chars_shown name : chars name → chars (shown name).
Proof.
  intros Hc. unfold shown. destruct Hc as [|c n Hc Hn]; [by constructor|]. assert (chars (c :: n)) by (by constructor). repeat case_match; done.
Qed.

Lemma mk_file_run s own root fls f :
  let e := entry (2 + Z.of_nat (length fls)) (shown f.1) in
  image s own root fls → file_ok f → 2 + Z.of_nat (length fls) < NINODES → (length root + 16 ≤ MAXBLK * BSZ)%nat →
  nmeta + need (length root + 16) + (total fls + need (length (concat f.2))) ≤ FSSIZE →
  ∃ s' own', mk_file ROOTINO f s = Ok tt s' ∧ image s' own' (root ++ e) (fls ++ [concat f.2]).
Proof.
  intros e [Hs Hfi Hfb Hroot Hfls Hlow] (Hch & Hsl & Hmax) Hn Hrmax Hroom. destruct f as [name reads]; cbn [fst snd] in *.
  unfold mk_file. rewrite bool_decide_eq_false_2 by done. fold (shown name).
  destruct (mk_ialloc_run T_FILE s own Hs) as (s1 & Hr1 & Hk1 & Hm1 & Hb1 & Hi1); [lia|done|]. rewrite Hfi in *.
  rewrite (bind_ok _ _ _ _ _ Hr1). cbn beta iota. rewrite strncpy_pad; [|done|by apply chars_shown]. step. fold (entry (2 + Z.of_nat (length fls)) (shown name)). fold e.
  assert (length e = 16%nat) as He by apply length_entry. pose proof (total_nonneg fls).
  pose proof (need_mono 0 (length (concat reads))) as Hn0. change (need 0) with 0 in Hn0.
  destruct (iappend_run ROOTINO T_DIR e s1 own root) as (s2 & own2 & Hr2 & Hk2 & Hm2 & Hb2 & Hi2);
    [apply Hk1|done|apply (kp_other _ _ _ _ _ Hk1); [unfold ROOTINO; lia|done|done]|by rewrite He|rewrite He; lia|].
  rewrite (bind_ok _ _ _ _ _ Hr2). rewrite He in Hb2.
  assert (2 + Z.of_nat (length fls) ≠ ROOTINO) as Hne by (unfold ROOTINO; lia).
  destruct (reads_run (2 + Z.of_nat (length fls)) T_FILE reads s2 own2 []) as (s3 & own3 & Hr3 & Hk3 & Hm3 & Hb3 & Hi3); [apply Hk2|lia| |done| |].
  { by apply (kp_other _ _ _ _ _ Hk2); [|lia|]. }
  { cbn [length]. change (need 0) with 0. cbn. lia. }
  cbn [length Nat.add app] in *. change (need 0) with 0 in *. exists s3, own3. split; [done|]. split.
  - apply Hk3.
  - rewrite Hi3, Hi2, Hi1, length_app. cbn. lia.
  - rewrite Hb3, Hb2, Hb1, Hfb, total_app, length_app, He. lia.
  - by apply (kp_other _ _ _ _ _ Hk3).
  - intros i data Hd. destruct (decide (i = length fls)) as [->|Hi].
    + rewrite lookup_app_r, Nat.sub_diag in Hd by done. by injection Hd as <-.
    + pose proof (lookup_lt_Some _ _ _ Hd) as Hlt. rewrite length_app in Hlt. cbn in Hlt. rewrite lookup_app_l in Hd by lia.
      apply (kp_other _ _ _ _ _ Hk3), (kp_other _ _ _ _ _ Hk2), (kp_other _ _ _ _ _ Hk1); (unfold ROOTINO; lia) || by apply Hfls.
  - intros a Ha. by rewrite (kp_low _ _ _ _ _ Hk3), (kp_low _ _ _ _ _ Hk2), (kp_low _ _ _ _ _ Hk1), Hlow.
Qed.

(** The entries of the files from inode number [i] on. *)
Fixpoint entries (i : Z) (files : list (list Z * list (list Z))) : list (list Z) :=
  match files with [] => [] | f :: files => entry i (shown f.1) :: entries (i + 1) files end.

Lemma length_entries i files : length (concat (entries i files)) = (16 * length files)%nat.
Proof. revert i. induction files as [|f files IH]; intros i; [done|]. cbn [entries concat length]. rewrite length_app, length_entry, IH. lia. Qed.

Definition contents (files : list (list Z * list (list Z))) : list (list Z) := (λ f, concat f.2) <$> files.

Lemma files_run files s own root fls :
  image s own root fls → Forall file_ok files → 2 + Z.of_nat (length fls + length files) ≤ NINODES →
  (length root + 16 * length files ≤ MAXBLK * BSZ)%nat →
  nmeta + need (length root + 16 * length files) + (total fls + total (contents files)) ≤ FSSIZE →
  ∃ s' own', forM files (mk_file ROOTINO) s = Ok tt s' ∧
    image s' own' (root ++ concat (entries (2 + Z.of_nat (length fls)) files)) (fls ++ contents files).
Proof.
  intros Him Hf. revert s own root fls Him. induction Hf as [|f files Hok _ IH]; intros s own root fls Him Hn Hmax Hroom.
  { exists s, own. by rewrite !app_nil_r. }
  cbn [length contents fmap list_fmap total foldr] in *. fold (contents files) (total (contents files)) in *. pose proof (total_nonneg (contents files)).
  pose proof (need_mono (length root + 16) (length root + 16 * S (length files))).
  destruct (mk_file_run s own root fls f) as (s1 & own1 & Hr1 & Him1); [done|done|lia|lia|lia|].
  destruct (IH _ _ _ _ Him1) as (s2 & own2 & Hr2 & Him2); rewrite ?total_app, ?length_app, ?length_entry; cbn [length]; [lia|lia| |].
  { replace (length root + 16 + 16 * length files)%nat with (length root + 16 * S (length files))%nat by lia. lia. }
  exists s2, own2. cbn [forM]. rewrite (bind_ok _ _ _ _ _ Hr1), Hr2. split; [done|]. cbn [entries concat].
  rewrite length_app in Him2. cbn [length] in Him2. rewrite <-!app_assoc in Him2.
  replace (2 + Z.of_nat (length fls + 1)) with (2 + Z.of_nat (length fls) + 1) in Him2 by lia. exact Him2.
Qed.

(** ** The bitmap *)

Definition mark (b : list Z) (i : nat) : list Z := alter (λ v, u8 (Z.lor v (Z.shiftl 1 (Z.of_nat i `mod` 8)))) (i / 8)%nat b.

Lemma marks n : (n ≤ 8 * BSZ)%nat →
  let b := foldl mark zeroes (seq 0 n) in
  length b = BSZ ∧ ∀ j, (j < 8 * BSZ)%nat → bit_set b j = Some (bool_decide (j < n)%nat).
Proof.
  induction n as [|n IH]; intros Hn b.
  { split; [apply length_replicate|]. intros j Hj. unfold b. cbn [seq foldl]. unfold bit_set, zeroes.
    rewrite lookup_replicate_2 by (change (Z.to_nat BSIZE) with BSZ; apply Nat.Div0.div_lt_upper_bound; lia).
    cbn. by rewrite Z.land_0_l, bool_decide_eq_false_2 by lia. }
  destruct IH as [Hl Hb]; [lia|]. unfold b. rewrite seq_S, foldl_app. cbn [foldl Nat.add]. set (b0 := foldl mark zeroes (seq 0 n)) in *. split.
  { unfold mark. by rewrite length_alter. }
  intros j Hj. unfold mark. rewrite (bit_set_alter _ true).
  - destruct (decide (j = n)) as [->|Hne].
    + destruct (lookup_lt_is_Some_2 b0 (n / 8)%nat) as [x ->]; [rewrite Hl; apply Nat.Div0.div_lt_upper_bound; lia|].
      by rewrite bool_decide_eq_true_2 by lia.
    + rewrite Hb by done. f_equal. apply bool_decide_ext. lia.
  - intros x k Hk. unfold u8. rewrite Z.mod_pow2_bits_low by lia. apply lor_bit; [apply Z.mod_pos_bound|]; lia.
Qed.

Lemma mk_balloc_run s : disk_ok s →
  ∃ d, mk_balloc (m_freeblock s) s = Ok tt (put_block 45 d s) ∧ length d = BSZ ∧
    ∀ j, (j < 8 * BSZ)%nat → bit_set d j = Some (bool_decide (Z.of_nat j < m_freeblock s)).
Proof.
  intros Hs. pose proof (do_fb _ Hs) as Hfb. change nmeta with 46 in Hfb. change FSSIZE with 1000 in Hfb.
  unfold mk_balloc. rewrite s32_small by lia. rewrite (proj2 (Z.ltb_lt _ _)) by (unfold BSIZE; lia). cbn [negb]. cbv zeta.
  destruct (marks (Z.to_nat (m_freeblock s))) as [Hl Hb]; [unfold BSZ; lia|]. eexists. split_and!; [|exact Hl|].
  - apply wsect_run. rewrite (do_len _ Hs). change FSSIZE with 1000. change (sb_bmapstart mk_sb) with 45. lia.
  - intros j Hj. rewrite Hb by done. f_equal. apply bool_decide_ext. lia.
Qed.

(** ** The whole image *)

(** A file of the image is a file of the kernel; the rest of its last block is zero. *)
Lemma blocks_file_at s own inum di data z :
  inode_at s inum = Some di → d_size di = Z.of_nat (length data + z) → blocks_of s own inum di data →
  (length data + z ≤ nblk (length data) * BSZ)%nat → file_at (on_disk (m_img s)) mk_sb inum (data ++ replicate z 0).
Proof.
  intros (d & Hd & ->)%fmap_Some Hsz (ind & blk & Hm) Hz. exists d, ind, blk. split; [done|]. cbv zeta.
  assert (∀ k, (k * BSZ < length data + z)%nat → (k < nblk (length data))%nat) as Hin by (intros k Hk; unfold BSZ in *; nia).
  rewrite length_app, length_replicate. split_and!; [done|intros k Hk; by eapply md_at|by eapply md_at_ind| |].
  - intros k Hk Hlt. specialize (Hin k Hlt). pose proof (md_max _ _ _ _ _ _ _ _ _ Hm) as Hmx.
    pose proof (md_ind _ _ _ _ _ _ _ _ _ Hm) as Hi. unfold far in Hi. rewrite (proj2 (Nat.ltb_lt _ _)) in Hi by lia.
    destruct Hi as (_ & _ & e & He & Hj). exists e. split; [done|]. rewrite Hj by (unfold MAXBLK in Hmx; lia). f_equal. lia.
  - intros n c Hc. pose proof (lookup_lt_Some _ _ _ Hc) as Hn. rewrite length_app, length_replicate in Hn.
    pose proof (Nat.div_mod_eq n BSZ) as Hdm. pose proof (Nat.mod_upper_bound n BSZ ltac:(done)) as Hmod.
    destruct (md_blk _ _ _ _ _ _ _ _ _ Hm (n / BSZ)%nat) as (_ & _ & He); [apply Hin; lia|].
    exists (chunk (n / BSZ) data). split; [done|]. rewrite lookup_chunk by done. replace (n / BSZ * BSZ + n `mod` BSZ)%nat with n by lia. f_equal.
    apply lookup_app_Some in Hc as [->|[Hge Hc]]; [done|]. rewrite lookup_ge_None_2 by done. by apply lookup_replicate in Hc as [-> _].
Qed.

Lemma put_map s own d : disk_ok s →
  (∀ j, 0 ≤ j < NINODES → inode_at (put_block 45 d s) j = inode_at s j) ∧
  (∀ j di data, blocks_of s own j di data → blocks_of (put_block 45 d s) own j di data).
Proof.
  intros Hs. assert (Z.to_nat 45 < length (m_img s))%nat as Hl by (rewrite (do_len _ Hs); change FSSIZE with 1000; lia). split.
  - intros j Hj. destruct (IBLOCK_range j Hj) as [_ Hb]. unfold inode_at. rewrite on_disk_put by lia. by rewrite decide_False by lia.
  - intros j di data (ind & blk & Hm). exists ind, blk. apply (mdata_ext s own); [done|done| |done].
    intros a Ha _. change nmeta with 46 in Ha. rewrite on_disk_put by lia. by rewrite decide_False by lia.
Qed.

Definition root0 : list Z := entry ROOTINO [DOT] ++ entry ROOTINO [DOT; DOT].

Lemma format_run (s0 : mkst) : m_img s0 = [] →
  ∃ s1, forM (seq 0 (Z.to_nat FSSIZE)) (λ i, wsect (Z.of_nat i) zeroes) s0 = Ok tt s1 ∧
    s1 = s0 <| m_img := replicate (Z.to_nat FSSIZE) zeroes |>.
Proof.
  intros H0. destruct (forM_seq_inv (λ n s, s = s0 <| m_img := replicate n zeroes |>) (Z.to_nat FSSIZE) (λ i, wsect (Z.of_nat i) zeroes) 0 s0)
    as (s1 & Hr & ->); [by destruct s0; cbn in H0; subst| |by eexists].
  intros j s _ ->. eexists. split; [|done].
  assert (<[j := zeroes]> (replicate j zeroes ++ replicate (S j - length (replicate j zeroes)) zeroes) = replicate (j + 1) zeroes) as E.
  { rewrite length_replicate. replace (S j - j)%nat with 1%nat by lia. rewrite <-replicate_add. apply list_insert_id, lookup_replicate. split; [done|lia]. }
  unfold wsect, modify. rewrite Nat2Z.id. destruct s0 as [img fi fb]. exact (f_equal (λ l, Ok tt (Mk l fi fb)) E).
Qed.

(** The blocks that hold nothing but the superblock. *)
Definition formatted (fi : Z) (sbk : list Z) : mkst := Mk (<[1%nat := sbk]> (replicate (Z.to_nat FSSIZE) zeroes)) fi nmeta.

Lemma formatted_ok fi sbk : length sbk = BSZ → disk_ok (formatted fi sbk) ∧
  ∀ a, 0 ≤ a < 32 → on_disk (m_img (formatted fi sbk)) a = Some (if decide (a = 1) then sbk else zeroes).
Proof.
  intros Hl. assert (∀ a, 0 ≤ a < FSSIZE → replicate (Z.to_nat FSSIZE) zeroes !! Z.to_nat a = Some zeroes) as Hz.
  { intros a Ha. apply lookup_replicate. split; [done|lia]. }
  split; [split; cbn [m_img m_freeblock formatted]|].
  - by rewrite length_insert, length_replicate.
  - intros a d. unfold on_disk. intros [(_ & <- & _)|[_ [-> _]%lookup_replicate]]%list_lookup_insert_Some; [done|apply length_replicate].
  - done.
  - intros a Ha. unfold on_disk. change nmeta with 46 in Ha. rewrite list_lookup_insert_ne by lia. apply Hz. lia.
  - intros a Ha. unfold on_disk. cbn [m_img formatted]. case_decide as E; [subst a|].
    + apply list_lookup_insert_eq. rewrite length_replicate. change FSSIZE with 1000. lia.
    + rewrite list_lookup_insert_ne by lia. apply Hz. change FSSIZE with 1000. lia.
Qed.

Lemma sb_block_ok : length sb_block = BSZ ∧ parse_sb sb_block = mk_sb.
Proof. vm_compute. done. Qed.

(** The part of main after the image is formatted. *)
Definition mkfs_rest (files : list (list Z * list (list Z))) : F unit :=
  rootino <- mk_ialloc T_DIR;
  if negb (rootino =? ROOTINO) then panic "assert" else
  iappend rootino (enc_dirent rootino (DOT :: replicate 13 0));;
  iappend rootino (enc_dirent rootino (DOT :: DOT :: replicate 12 0));;
  forM files (mk_file rootino);;
  din <- rinode rootino;
  winode rootino (set_size din (u32 ((d_size din `div` BSIZE + 1) * BSIZE)));;
  s <- get;
  mk_balloc (m_freeblock s).

Lemma mkfs_formats files : mkfs files = mkfs_rest files (formatted 1 sb_block).
Proof.
  unfold mkfs, mkfs_main. step. destruct (format_run (Mk [] 1 0 <| m_freeblock := nmeta |>)) as (s1 & Hr & E1); [done|].
  rewrite (bind_ok _ _ _ _ _ Hr). rewrite E1. run wsect_run; [by unfold mkfs_rest|]. cbn [m_img upd upd_m_img]. rewrite length_replicate. change FSSIZE with 1000. lia.
Qed.

Lemma root0_run s : disk_ok s → m_freeinode s = 1 → m_freeblock s = nmeta →
  (∀ a, 0 ≤ a < 32 → on_disk (m_img s) a = Some (if decide (a = 1) then sb_block else zeroes)) →
  ∃ s0 s1 s2 own, mk_ialloc T_DIR s = Ok ROOTINO s0 ∧ iappend ROOTINO (entry ROOTINO [DOT]) s0 = Ok tt s1 ∧
    iappend ROOTINO (entry ROOTINO [DOT; DOT]) s1 = Ok tt s2 ∧ image s2 own root0 [].
Proof.
  intros Hs Hfi Hfb Hlow. destruct (mk_ialloc_run T_DIR s (λ _, (0, O)) Hs) as (s0 & Hr0 & Hk0 & Hm0 & Hb0 & Hi0); [by rewrite Hfi|done|].
  rewrite Hfi in *. rewrite Hfb in Hb0.
  destruct (iappend_run 1 T_DIR (entry ROOTINO [DOT]) s0 _ _ (kp_ok _ _ _ _ _ Hk0) ltac:(done) Hm0) as (s1 & o1 & Hr1 & Hk1 & Hm1 & Hb1 & Hi1);
    [rewrite length_entry; unfold MAXBLK, NDIRECT, NINDIRECT, BSZ; cbn [length]; lia|rewrite Hb0, length_entry; by vm_compute|].
  rewrite Hb0, length_entry in Hb1.
  destruct (iappend_run 1 T_DIR (entry ROOTINO [DOT; DOT]) s1 _ _ (kp_ok _ _ _ _ _ Hk1) ltac:(done) Hm1) as (s2 & o2 & Hr2 & Hk2 & Hm2 & Hb2 & Hi2);
    [cbn [app]; rewrite !length_entry; unfold MAXBLK, NDIRECT, NINDIRECT, BSZ; cbn [length]; lia|rewrite Hb1; cbn [app]; rewrite !length_entry; by vm_compute|].
  exists s0, s1, s2, o2. split_and!; [done|done|done|]. split.
  - apply Hk2.
  - rewrite Hi2, Hi1, Hi0. done.
  - rewrite Hb2, Hb1. cbn [app]. rewrite !length_entry. done.
  - exact Hm2.
  - intros i data Hi. done.
  - intros a Ha. by rewrite (kp_low _ _ _ _ _ Hk2), (kp_low _ _ _ _ _ Hk1), (kp_low _ _ _ _ _ Hk0), Hlow.
Qed.

Lemma dir_find_first name data inum j k n :
  (k ≤ j < k + n)%nat → de_inum (slice (16 * j) 16 data) = inum → inum ≠ 0 → upto DIRSIZ name = upto DIRSIZ (de_name (slice (16 * j) 16 data)) →
  (∀ i, (k ≤ i < j)%nat → upto DIRSIZ name ≠ upto DIRSIZ (de_name (slice (16 * i) 16 data))) →
  dir_find name data k n = Some (inum, j).
Proof.
  revert k. induction n as [|n IH]; intros k Hj Hi H0 Hu Hall; [lia|]. cbn [dir_find]. destruct (decide (k = j)) as [->|Hne].
  - rewrite Hi, (proj2 (Z.eqb_neq _ _)) by done. by rewrite decide_True.
  - rewrite (decide_False (P := upto DIRSIZ name = _)) by (apply Hall; lia).
    rewrite IH; [by destruct (_ =? 0)|lia|done|done|done|]. intros i Hr. apply Hall. lia.
Qed.

Lemma slice_concat (es : list (list Z)) rest i e :
  Forall (λ e, length e = 16%nat) es → es !! i = Some e → slice (16 * i) 16 (concat es ++ rest) = e.
Proof.
  intros Hes. revert i. induction Hes as [|x es Hx Hes IH]; intros [|i] He; try done.
  - injection He as ->. unfold slice. cbn [concat]. rewrite <-app_assoc. by rewrite drop_0, take_app_length'.
  - rewrite <-(IH i He). unfold slice. cbn [concat]. rewrite <-app_assoc. f_equal.
    rewrite drop_app_ge by lia. f_equal. lia.
Qed.

Lemma upto_resize n t : chars t → upto n (resize n 0 t) = take n t.
Proof.
  intros Ht. revert n. induction Ht as [|c t Hc _ IH]; intros [|n]; cbn; try done.
  rewrite (proj2 (Z.eqb_neq c 0)) by lia. by rewrite IH.
Qed.

Definition all_entries (files : list (list Z * list (list Z))) : list (list Z) :=
  entry ROOTINO [DOT] :: entry ROOTINO [DOT; DOT] :: entries 2 files.

(** The root directory. *)
Definition root_data (files : list (list Z * list (list Z))) : list Z := concat (all_entries files).

(** The names in it, as far as a directory entry holds them. *)
Definition names (files : list (list Z * list (list Z))) : list (list Z) :=
  [DOT] :: [DOT; DOT] :: ((λ f, take DIRSIZ (shown f.1)) <$> files).

Lemma de_entry n nm : 0 ≤ n < 2 ^ 16 → chars nm → de_inum (entry n nm) = n ∧ upto DIRSIZ (de_name (entry n nm)) = take DIRSIZ nm.
Proof.
  intros Hn Hc. unfold entry, enc_dirent, de_inum, de_name, rd, slice. split.
  - rewrite drop_0, take_app_length' by (by rewrite length_le_enc). rewrite le_dec_enc. by apply Z.mod_small.
  - rewrite drop_app_length' by (by rewrite length_le_enc). rewrite take_ge by (by rewrite length_resize). by apply upto_resize.
Qed.

Lemma entries_at files i k f : files !! i = Some f → entries k files !! i = Some (entry (k + Z.of_nat i) (shown f.1)).
Proof.
  revert i k. induction files as [|g files IH]; intros [|i] k Hf; try done.
  - injection Hf as ->. cbn. by rewrite Z.add_0_r.
  - transitivity (entries (k + 1) files !! i); [done|]. rewrite (IH i (k + 1) Hf). do 2 f_equal. lia.
Qed.

Lemma entries_16 files k : Forall (λ e, length e = 16%nat) (entries k files).
Proof. revert k. induction files as [|f files IH]; intros k; constructor; [apply length_entry|apply IH]. Qed.

Lemma length_entries' files k : length (entries k files) = length files.
Proof. revert k. induction files as [|f files IH]; intros k; [done|]. cbn. by rewrite IH. Qed.

Lemma entries_names files i e : Forall (λ f, chars f.1) files → 2 + Z.of_nat (length files) ≤ NINODES →
  all_entries files !! i = Some e → names files !! i = Some (upto DIRSIZ (de_name e)).
Proof.
  intros Hc Hn. destruct i as [|[|i]]; [by intros [= <-]..|]. intros He. change (entries 2 files !! i = Some e) in He.
  change (((λ f, take DIRSIZ (shown f.1)) <$> files) !! i = Some (upto DIRSIZ (de_name e))).
  assert (i < length files)%nat as Hi by (apply lookup_lt_Some in He; by rewrite length_entries' in He).
  destruct (lookup_lt_is_Some_2 files i Hi) as [f Hf]. rewrite (entries_at _ _ 2 _ Hf) in He. injection He as <-.
  rewrite list_lookup_fmap, Hf. cbn [fmap option_fmap option_map]. f_equal. symmetry. change NINODES with 200 in Hn. apply de_entry; [lia|].
  apply chars_shown. by apply (list.Forall_lookup_1 _ _ _ _ Hc Hf).
Qed.

(** File [i] is the first with its name. *)
Definition first_named (files : list (list Z * list (list Z))) (i : nat) (f : list Z * list (list Z)) : Prop :=
  ∀ j, (j < 2 + i)%nat → names files !! j ≠ Some (take DIRSIZ (shown f.1)).

(** The first file with a name is found under it. *)
Lemma root_lookup files i f rest n :
  Forall (λ f, chars f.1) files → 2 + Z.of_nat (length files) ≤ NINODES → first_named files i f → files !! i = Some f → (2 + i < n)%nat →
  dir_find (resize DIRSIZ 0 (shown f.1)) (root_data files ++ rest) 0 n = Some (2 + Z.of_nat i, (2 + i)%nat).
Proof.
  intros Hc Hn Hfst Hf Hlt. pose proof (lookup_lt_Some _ _ _ Hf) as Hi. change NINODES with 200 in Hn.
  assert (Forall (λ e, length e = 16%nat) (all_entries files)) as H16 by (repeat constructor; apply entries_16).
  assert (all_entries files !! (2 + i)%nat = Some (entry (2 + Z.of_nat i) (shown f.1))) as He by (by apply entries_at).
  assert (chars (shown f.1)) as Hch by (apply chars_shown; by apply (list.Forall_lookup_1 _ _ _ _ Hc Hf)).
  destruct (de_entry (2 + Z.of_nat i) (shown f.1)) as [E1 E2]; [lia|done|].
  apply dir_find_first; unfold root_data.
  - lia.
  - by rewrite (slice_concat _ _ _ _ H16 He).
  - lia.
  - rewrite (slice_concat _ _ _ _ H16 He), E2. by apply upto_resize.
  - intros j Hj E. destruct (lookup_lt_is_Some_2 (all_entries files) j) as [e Hej].
    { apply lookup_lt_Some in He. lia. }
    rewrite (slice_concat _ _ _ _ H16 Hej), upto_resize in E by done.
    pose proof (entries_names _ _ _ Hc Hn Hej) as N1. apply (Hfst j); [lia|]. by rewrite N1, <-E.
Qed.

(** The blocks in use: boot block, superblock, log, inodes, bitmap and the files. *)
Definition blocks_used (files : list (list Z * list (list Z))) : Z :=
  nmeta + need (length (root_data files)) + total (contents files).

(** The files fit into the image. *)
Definition fits (files : list (list Z * list (list Z))) : Prop :=
  Forall file_ok files ∧ 2 + Z.of_nat (length files) ≤ NINODES ∧ blocks_used files ≤ FSSIZE.

Lemma length_root files : length (root_data files) = (16 * (2 + length files))%nat.
Proof. unfold root_data. cbn [all_entries concat]. rewrite !length_app, !length_entry, length_entries. lia. Qed.

(** The end of main. *)
Definition finish : F unit :=
  din <- rinode ROOTINO;
  winode ROOTINO (set_size din (u32 ((d_size din `div` BSIZE + 1) * BSIZE)));;
  s <- get;
  mk_balloc (m_freeblock s).

Lemma rest_files files : fits files → ∃ s own, image s own (root_data files) (contents files) ∧ mkfs files = finish s.
Proof.
  intros (Hok & Hn & Hroom). destruct sb_block_ok as [Hl Hp]. destruct (formatted_ok 1 _ Hl) as [Hs Hlow].
  destruct (root0_run (formatted 1 sb_block)) as (s0 & s1 & s2 & own & Hr0 & Hr1 & Hr2 & Him); [done..|].
  unfold blocks_used in Hroom. rewrite length_root in Hroom. change NINODES with 200 in *.
  destruct (files_run files s2 own root0 []) as (s3 & own3 & Hr3 & Him3); [done|done|done| | |].
  { change (length root0) with 32%nat. unfold MAXBLK, NDIRECT, NINDIRECT, BSZ. lia. }
  { change (length root0) with 32%nat. change (total []) with 0. replace (32 + 16 * length files)%nat with (16 * (2 + length files))%nat by lia. lia. }
  exists s3, own3. split.
  - unfold root_data. cbn [all_entries concat]. rewrite app_assoc. exact Him3.
  - rewrite mkfs_formats. unfold mkfs_rest. rewrite (bind_ok _ _ _ _ _ Hr0). cbn beta iota. rewrite Z.eqb_refl. cbn [negb].
    etransitivity; [exact (bind_ok _ _ _ _ _ Hr1)|]. cbn beta. etransitivity; [exact (bind_ok _ _ _ _ _ Hr2)|]. cbn beta.
    by rewrite (bind_ok _ _ _ _ _ Hr3).
Qed.

Lemma nblk_up n : (n `mod` BSZ ≠ 0)%nat → nblk n = S (n / BSZ).
Proof.
  intros Hn. symmetry. apply nblk_unique. pose proof (Nat.div_mod_eq n BSZ). pose proof (Nat.mod_upper_bound n BSZ ltac:(done)). unfold BSZ in *. lia.
Qed.

(** An image [img] with root directory [root] that has the files. *)
Record has_files (files : list (list Z * list (list Z))) (img : list (list Z)) (root : list Z) : Prop := {
  hf_len : length img = Z.to_nat FSSIZE;
  hf_sb : ∃ d, on_disk img 1 = Some d ∧ parse_sb d = mk_sb;
  hf_log : ∃ d, on_disk img (sb_logstart mk_sb) = Some d ∧ lh_n d = 0;
  hf_root : file_at (on_disk img) mk_sb ROOTINO root;
  hf_files : ∀ i f, files !! i = Some f →
    (first_named files i f → dir_find (resize DIRSIZ 0 (shown f.1)) root 0 (length root / 16) = Some (2 + Z.of_nat i, (2 + i)%nat)) ∧
    file_at (on_disk img) mk_sb (2 + Z.of_nat i) (concat f.2);
  hf_bits : ∃ d, on_disk img (sb_bmapstart mk_sb) = Some d ∧
    ∀ a, 0 ≤ a < FSSIZE → bit_set d (Z.to_nat a) = Some (bool_decide (a < blocks_used files));
}.

Lemma finish_run files s own :
  image s own (root_data files) (contents files) → Forall file_ok files → 2 + Z.of_nat (length files) ≤ NINODES →
  (length (root_data files) `mod` BSZ ≠ 0)%nat →
  ∃ s' root, finish s = Ok tt s' ∧ has_files files (m_img s') root.
Proof.
  intros [Hs Hfi Hfb Hroot Hfls Hlow] Hok Hn Hmod.
  set (n := length (root_data files)) in *. destruct Hroot as (di & Hi & Hdi & Ht & Hnl & Hsz & Hb). pose proof (nblk_up n Hmod) as Hup. fold n in Hsz.
  pose proof (Nat.div_mod_eq n BSZ) as Hdm. pose proof (Nat.mod_upper_bound n BSZ ltac:(done)) as Hlt.
  assert (n = 16 * (2 + length files))%nat as Hn16 by apply length_root. change NINODES with 200 in Hn.
  set (z := (BSZ - n `mod` BSZ)%nat). assert (u32 ((d_size di `div` BSIZE + 1) * BSIZE) = Z.of_nat (n + z)) as Esz.
  { rewrite Hsz. change BSIZE with (Z.of_nat BSZ). rewrite <-Nat2Z.inj_div. rewrite u32_small; unfold z, BSZ in *; lia. }
  destruct (winode_run ROOTINO (set_size di (Z.of_nat (n + z))) s) as (s1 & Hw & Hp); [done|done| |].
  { destruct Hdi. split; try done. cbn [d_size set_size]. unfold z, BSZ in *. lia. }
  pose proof (inode_put_kept _ _ _ own _ Hp) as Hk. pose proof (kp_ok _ _ _ _ _ Hk) as Hs1.
  destruct (mk_balloc_run s1 Hs1) as (d & Hbal & Hld & Hbits). 
  assert (finish s = Ok tt (put_block 45 d s1)) as Hfin.
  { unfold finish. run rinode_run; [|done]. rewrite Esz, (bind_ok _ _ _ _ _ Hw). by step. }
  destruct (put_map s1 own d Hs1) as [Hia Hbo]. assert (Z.to_nat 45 < length (m_img s1))%nat as H45 by (rewrite (do_len _ Hs1); change FSSIZE with 1000; lia).
  exists (put_block 45 d s1), (root_data files ++ replicate z 0). split; [done|]. split.
  - cbn. rewrite length_insert. apply Hs1.
  - exists sb_block. rewrite on_disk_put, (kp_low _ _ _ _ _ Hk), Hlow by lia. split; [done|apply sb_block_ok].
  - exists zeroes. change (sb_logstart mk_sb) with 2. rewrite on_disk_put, (kp_low _ _ _ _ _ Hk), Hlow by lia. split; [done|by vm_compute].
  - apply (blocks_file_at _ own _ (set_size di (Z.of_nat (n + z)))); [rewrite Hia by done; apply Hp|done| |fold n; rewrite Hup; unfold z, BSZ in *; lia].
    apply Hbo. destruct Hb as (ind & blk & Hm). exists ind, blk. apply (mdata_ext s own); [by rewrite (ip_fb _ _ _ _ Hp)|done| |done].
    intros a Ha _. apply Hp. change nmeta with 46 in Ha. lia.
  - intros i f Hf. pose proof (lookup_lt_Some _ _ _ Hf) as Hil. split.
    + intros Hfst. apply root_lookup; try done; [by eapply list.Forall_impl; [exact Hok|intros g Hg; apply Hg]|].
      rewrite length_app, length_replicate. fold n. apply Nat.div_le_lower_bound; lia.
    + destruct (kp_other _ _ _ _ _ Hk (2 + Z.of_nat i) T_FILE (concat f.2)) as (dj & Hj & _ & _ & _ & Hszj & Hbj);
        [unfold ROOTINO; lia|change NINODES with 200; lia|by apply Hfls; unfold contents; rewrite list_lookup_fmap, Hf|].
      rewrite <-(app_nil_r (concat f.2)). apply (blocks_file_at _ own _ dj _ 0); [rewrite Hia; [done|change NINODES with 200; lia]|by rewrite Nat.add_0_r|by apply Hbo|].
      pose proof (nblk_spec (length (concat f.2))). lia.
  - exists d. rewrite on_disk_put by done. split; [done|]. intros a Ha. change FSSIZE with 1000 in Ha. rewrite Hbits by (unfold BSZ; lia).
    f_equal. apply bool_decide_ext. rewrite (ip_fb _ _ _ _ Hp), Hfb. unfold blocks_used. fold n. lia.
Qed.

(** C4: mkfs produces an image the kernel can use.  It has the superblock and an empty log;
    the root directory leads from each name to the inode of the first file given with that
    name; the blocks of each file's inode hold what was read from the file; and the bitmap
    marks the blocks of the layout and of the files, and no others.  The files must fit
    ([fits]: their names and sizes, the number of inodes and the blocks), and the root
    directory, of 16 bytes for each file and 32 more, must not fill its last block. *)
Theorem mkfs_image files :
  fits files → (length (root_data files) `mod` BSZ ≠ 0)%nat →
  ∃ s root, mkfs files = Ok tt s ∧ has_files files (m_img s) root.
Proof.
  intros Hfits Hmod. destruct (rest_files files Hfits) as (s & own & Him & ->). destruct Hfits as (Hok & Hn & _). by eapply finish_run.
Qed.
