(* ===== verification/FsExamples.v ===== *)
(** * The theorems on files at a concrete file system *)
From S2P Require Import Prelude Mem CString KState Sched Bytes Bio Ring BioThm Log LogThm LogRun Crash Txn Fs FsThm Inode FileThm Mkfs MkfsThm.

#[local] Instance fs_rounds : Bound := 2%nat.
#[local] Existing Instance no_devices.

(** A disk of 64 blocks: the log at 2, the inodes at 32, the bitmap at 33; inode 1 is the
    file "hi\n" in block 40, inode 2 a directory with the names "." and "ab" in block 41. *)
Definition a_file : inode :=
  inode0 <| i_dev := 1 |> <| i_inum := 1 |> <| i_ref := 1 |> <| i_valid := true |> <| i_type := T_FILE |>
    <| i_nlink := 1 |> <| i_size := 3 |> <| i_addrs := 40 :: zeros 12 |>.
Definition a_dir : inode :=
  inode0 <| i_dev := 1 |> <| i_inum := 2 |> <| i_ref := 1 |> <| i_valid := true |> <| i_type := T_DIR |>
    <| i_nlink := 1 |> <| i_size := 32 |> <| i_addrs := 41 :: zeros 12 |>.
Definition file_data : list Z := [104; 105; 10].
Definition dir_data : list Z := enc_dirent 2 (46 :: zeros 13) ++ enc_dirent 1 ([97; 98] ++ zeros 12).

Definition ex_sb_block : list Z := wr32 12 30 (wr32 16 2 (zeros 1024)).
Definition inode_block : list Z :=
  list_inserts 128 (enc_dinode (dinode_of a_dir)) (list_inserts 64 (enc_dinode (dinode_of a_file)) (zeros 1024)).
Definition bitmap_block : list Z := list_inserts 0 [255; 255; 255; 255; 3; 3] (zeros 1024).
Definition fs_disk : list (list Z) :=
  <[41%nat := list_inserts 0 dir_data (zeros 1024)]> (<[40%nat := list_inserts 0 file_data (zeros 1024)]>
    (<[33%nat := bitmap_block]> (<[32%nat := inode_block]> (<[1%nat := ex_sb_block]> (replicate 64 (zeros 1024)))))).

Definition fs_state (bufs : list buf) : kst :=
  bss fs_disk <| k_ptable ::= <[0%nat := proc0 <| p_pid := 1 |> <| p_state := RUNNING |>]> |> <| k_cur := Some 0%nat |>
    <| k_bufs := bufs |> <| k_log := Log 2 30 0 false 1 0 (zeros 30) |> <| k_sb := Sb 64 22 16 30 2 32 33 |>
    <| k_icache ::= <[0%nat := a_file]> |> <| k_icache ::= <[1%nat := a_dir]> |>.

Lemma fs_bufs : ∃ bufs, fresh_bufs bufs.
Proof.
  destruct (binit_run (bss [])) as (bufs & Hr & _); [done|]. exists bufs, (bss []), (bss [] <| k_bufs := bufs |>).
  split_and!; [reflexivity|exact Hr|reflexivity].
Qed.

Lemma fs_lengths : forallb (λ d, Nat.eqb (length d) 1024) fs_disk = true.
Proof. vm_compute. reflexivity. Qed.
Lemma fs_len : length fs_disk = 64%nat.
Proof. vm_compute. reflexivity. Qed.
Lemma fs_marks : forallb (λ a, bool_decide (bit_set bitmap_block a = Some true)) (seq 0 34) = true.
Proof. vm_compute. reflexivity. Qed.
Lemma fs_clear : forallb (λ a, bool_decide (bit_set bitmap_block a = Some false)) (seq 42 6) = true.
Proof. vm_compute. reflexivity. Qed.

Section state.
  Context (bufs : list buf) (Hb : fresh_bufs bufs).

Lemma fs_txn_ok : txn (fs_state bufs) 2 [].
Proof using Hb.
  apply (rebooted_txn _ fs_disk); [|by split_and!|done| |].
  - split; [reflexivity|exact Hb|reflexivity|eexists _, _; split; reflexivity|reflexivity].
  - split; [done|done|constructor|constructor].
  - exists (zeros 1024). by split_and!.
Qed.

Lemma fs_view m : vw (fs_state bufs) m = fs_disk !! Z.to_nat m.
Proof using Hb. exact (txn_vw_home (fs_state bufs) 2 m fs_txn_ok). Qed.

Lemma fs_bits : bits (fs_state bufs) = bitmap_block.
Proof using Hb. unfold bits. rewrite fs_view. reflexivity. Qed.

Lemma fs_sys_ok : fsys (fs_state bufs) 2.
Proof using Hb.
  split; try done.
  - intros i Hi. simpl in Hi. assert (i `div` IPB = 0) as E by (apply Z.div_small; unfold IPB; lia). rewrite E. done.
  - intros m Hm. change (disk_len (fs_state bufs)) with (Z.of_nat (length fs_disk)) in Hm. rewrite fs_len in Hm. rewrite fs_view.
    destruct (lookup_lt_is_Some_2 fs_disk (Z.to_nat m)) as [d Hd]; [rewrite fs_len; lia|].
    exists d. split; [done|]. pose proof fs_lengths as E. rewrite forallb_forall in E. apply Nat.eqb_eq, (E d). by apply list_elem_of_In, (list_elem_of_lookup_2 _ (Z.to_nat m)).
  - intros a Ha. unfold in_use. rewrite fs_bits. pose proof fs_marks as E. rewrite forallb_forall in E.
    apply (bool_decide_unpack _). apply Is_true_true, (E (Z.to_nat a)), in_seq. change (bm (fs_state bufs)) with 33 in Ha. lia.
Qed.

Definition one_block (a : Z) : nat → Z := λ k, if decide (k = 0)%nat then a else 0.

Lemma one_block_file x a d :
  i_dev x = 1 → i_addrs x = a :: zeros 12 → a = 40 ∨ a = 41 → fs_disk !! Z.to_nat a = Some d → length d = 1024%nat →
  ifile (fs_state bufs) x 0 (one_block a) ∧ owns (fs_state bufs) 0 (one_block a).
Proof using Hb.
  intros Hd Ha Ha' Hbl Hl. split; split; unfold one_block; try done; rewrite ?Ha; try done.
  - intros [|k] Hk; [done|]. unfold NDIRECT in Hk. rewrite decide_False by done. simpl. apply lookup_replicate_2. lia.
  - intros _ k Hk. unfold NDIRECT in Hk. by rewrite decide_False by lia.
  - intros k Hk. case_decide; [|done]. intros _. change (disk_len (fs_state bufs)) with (Z.of_nat (length fs_disk)). rewrite fs_len. split; [lia|]. exists d. by rewrite fs_view.
  - intros k Hk. case_decide; [|done]. intros _. unfold bm, in_use. rewrite fs_bits. simpl. split; [lia|]. split; [|lia].
    by destruct Ha' as [-> | ->]; vm_compute.
  - intros j k _ _. repeat case_decide; congruence.
Qed.

Lemma one_block_holds a d data :
  a ≠ 0 → fs_disk !! Z.to_nat a = Some d → take (length data) d = data → (length data ≤ 1024)%nat → holds (fs_state bufs) (one_block a) data.
Proof using Hb.
  intros Ha Hd Ht Hl n c Hc. pose proof (lookup_lt_Some _ _ _ Hc) as Hn. unfold one_block.
  rewrite Nat.div_small, Nat.mod_small by (unfold BSZ; lia). rewrite decide_True by done. split; [done|]. exists d. rewrite fs_view. split; [done|].
  rewrite <-Ht in Hc. by rewrite lookup_take_lt in Hc by lia.
Qed.

Lemma file_fstate : fstate 0 2 (fs_state bufs) a_file 0 (one_block 40) file_data [].
Proof using Hb.
  destruct (one_block_file a_file 40 (list_inserts 0 file_data (zeros 1024))) as [Hf Hown]; [done|done|by left|reflexivity|reflexivity|].
  split; [done|apply fs_txn_ok|apply fs_sys_ok|done|done| |unfold MAXBLK, BSZ, NDIRECT, NINDIRECT; change (length file_data) with 3%nat; lia].
  apply (one_block_holds 40 (list_inserts 0 file_data (zeros 1024))); [done|reflexivity|reflexivity|simpl; lia].
Qed.

Lemma file_synced : synced (fs_state bufs) a_file.
Proof using Hb. exists inode_block. rewrite fs_view. split; [reflexivity|]. vm_compute. reflexivity. Qed.

Lemma fs_frees : frees 6 (fs_state bufs).
Proof using Hb.
  exists (Z.of_nat <$> seq 42 6). split_and!; [by apply (bool_decide_unpack _)|done|]. apply Forall_fmap, list.Forall_forall. intros k Hk.
  pose proof fs_clear as E. rewrite forallb_forall in E. unfold is_free. simpl. rewrite fs_bits, Nat2Z.id. apply elem_of_seq in Hk as Hk'.
  split; [lia|]. apply (bool_decide_unpack _). apply Is_true_true, (E k). by apply list_elem_of_In.
Qed.
End state.

Lemma readi_reads_witness :
  ∃ bufs s', readi 0 1 10 (fs_state bufs) = Ok (2, [105; 10]) s' ∧ quiet (fs_state bufs) s'.
Proof.
  destruct fs_bufs as [bufs Hb]. exists bufs. destruct (file_fstate bufs Hb) as [Hx Htx Hfs Hf Hown Hh Hmx].
  apply (readi_reads 0 a_file 0 (one_block 40) file_data (fs_state bufs) 1 10);
    [apply Nat.lt_0_succ|apply Htx|apply (mod_le_list []); [intros m; by apply (tx_mod _ _ _ Htx)|apply Nat.le_0_l]|exact Hx|done|exact Hf|done|done|exact Hh|done|done].
Defined.

Lemma file_inode_ok bufs : inode_ok (fs_state bufs) a_file.
Proof. by split. Qed.


Lemma dirlookup_finds_witness :
  ∃ bufs s', quiet (fs_state bufs) s' ∧
    dirlookup 1 ([97; 98] ++ zeros 12) (fs_state bufs) = (i <- iget 1 1; ret (Some (i, 16))) s'.
Proof.
  destruct fs_bufs as [bufs Hb]. exists bufs. pose proof (fs_txn_ok bufs Hb) as Htx.
  destruct (one_block_file bufs Hb a_dir 41 (list_inserts 0 dir_data (zeros 1024))) as [Hf _]; [done|done|by right|reflexivity|reflexivity|].
  apply (dirlookup_finds (Nat.lt_0_succ 1) 1 a_dir 0 (one_block 41) dir_data ([97; 98] ++ zeros 12) 2 (fs_state bufs));
    [apply Htx|apply (mod_le_list []); [intros m; by apply (tx_mod _ _ _ Htx)|apply Nat.le_0_l]|reflexivity|done|exact Hf|done|done
    | |done|by apply (bool_decide_unpack _)|by apply (bool_decide_unpack _)|done].
  apply (one_block_holds bufs Hb 41 (list_inserts 0 dir_data (zeros 1024))); [done|reflexivity|reflexivity|simpl; lia].
Defined.

(** ** An image with three files *)

(** [_cat], 1500 bytes in two reads, [README], and another [_cat]. *)
Definition three_files : list (list Z * list (list Z)) :=
  [([95; 99; 97; 116], [replicate 1024 7; replicate 476 8]); ([82; 69; 65; 68; 77; 69], [[104; 105]]); ([95; 99; 97; 116], [[9]])].

Lemma three_files_fit : fits three_files.
Proof.
  split; [|by vm_compute]. unfold three_files. repeat apply list.Forall_cons_2; [| | |by constructor].
  all: split_and!; [refine (bool_decide_unpack _ _); by vm_compute|refine (bool_decide_unpack _ _); by vm_compute|].
  all: cbn [snd concat]; rewrite ?length_app, ?length_replicate; unfold MAXBLK, NDIRECT, NINDIRECT, BSZ; cbn [length]; lia.
Qed.

Lemma mkfs_image_witness : ∃ s root, mkfs three_files = Ok tt s ∧ has_files three_files (m_img s) root.
Proof.
  apply (mkfs_image three_files); [exact three_files_fit|]. by vm_compute.
Defined.
